(* ===== verification/_CoqProject ===== *)
-Q . S2P
Prelude.v
Params.v
BlockDev.v
Bio.v
Log.v
Crash.v
CString.v
Fs.v
Dir.v
FsSpec.v
FileSpec.v
Dinode.v
FileData.v
FsOps.v
Icache.v
DirSpec.v
InodeRefs.v
Namei.v
FsWitness.v
Mmu.v
Kalloc.v
Spinlock.v
Vm.v
VmSpec.v
UvmSpec.v
Copyout.v
Copyuvm.v
VmWitness.v
Kernel.v
Proc.v
ProcSpec.v
ProcInv.v
ProcThm.v
Ring.v
Pipe.v
PipeSpec.v
PipeThm.v
File.v
FileRefs.v
FileWrite.v
Fork.v
Syscall.v
SyscallSpec.v
Sysfile.v
Exec.v
Sh.v
ShSpec.v
ShPrint.v
ShRun.v
Grep.v
Printf.v
Console.v
ConsoleSpec.v
ConsoleIn.v
Kbd.v
Ide.v
IdeSpec.v
Umalloc.v
UmallocSpec.v
Mp.v
Mkfs.v
MkfsSpec.v
MkfsImage.v
Devices.v
Clock.v
Progs.v
Uprog.v
Programs.v
AbsOS.v
ProgramsSpec.v
Ksys.v
KernelOS.v
KernelWitness.v
MkfsTree.v
MkfsBoot.v
Usertests.v
UsertestsProc.v
UsertestsRun.v
Bootmain.v
Startup.v
