(* ===== verification/Prelude.v ===== *)
(** * xv6 in Rocq

    A model of the xv6 kernel for x86 (src/), of its boot loader and device
    drivers, of the program that builds its disk, and of its shell, its user
    library, its programs and its tests, as Rocq functions translated from the C
    code, with the theorems that say what the parts promise each other and their
    users.

    ** How code is modelled

    A function is a computation in the monad [M S] of this file: it runs on an
    explicit state and returns, panics, gives up the CPU in sleep(), or accesses
    memory outside its object ([Fault]).  Integers are [Z] with their wrap-around
    written out ([u32], [s32], ...).  [wp m s Q] is total correctness: [m]
    returns, in [Q].  Loops that are not structural take fuel; the comment at
    each says why the fuel is enough, and running out of it is a [Fault], which
    the theorems exclude where they state that the code returns.  A call that
    sleeps ends a segment of kernel code, and goes on after the wakeup from the
    test it slept in.  Locks are held or free as seen by the CPU that runs;
    interleaving on several CPUs is modelled for the locks themselves.  A user
    program is an interaction tree of its system calls (Uprog), which may go on
    for ever; [run] gives the calls on files to a handler, and takes the number
    of calls as its fuel.

    ** The parts and their files

    - Params, Mmu: constants and layout (param.h, fs.h, memlayout.h, mmu.h, ...).
    - BlockDev, Bio, Log, Crash: the block-device contract, with the memory disk
      (memide.c) as an instance; the buffer cache (bio.c) as links between
      buffers, refined to an LRU list and to a view of block contents; the
      write-ahead log (log.c); and what is on the disk after a crash.
    - CString: string.c, and the string functions of ulib.c.
    - Fs, Dir, FsSpec, FileSpec, Dinode, FileData, FsOps, Icache, DirSpec,
      FsWitness: fs.c, its inodes, block allocation, file contents, inode cache,
      directories and path names; InodeRefs: who holds references to the cached
      inodes; Namei: paths in the tree of directories on the disk.
    - Kalloc, Spinlock: the page allocator (kalloc.c) with its list inside the
      free pages; locks and interrupt nesting (spinlock.c).
    - Vm, VmSpec, UvmSpec, Copyout, Copyuvm, VmWitness: page tables and user
      memory (vm.c), word by word in a byte memory.
    - Kernel: the state above the file system (proc.h, file.h, pipe.c).
    - Proc, ProcSpec, ProcInv, ProcThm, Fork: processes (proc.c); the steps of
      the process table, its invariant and the scheduler.
    - Ring: rings indexed by 32-bit counters, which pipes and the console's
      input share; Pipe, PipeSpec, PipeThm: pipes (pipe.c).
    - File, FileRefs, FileWrite: open files (file.c), their reference counts and
      filewrite as a whole.
    - Syscall, SyscallSpec, Sysfile, Exec: system calls (syscall.c, sysproc.c,
      sysfile.c), program loading (exec.c, elf.h) and traps (trap.c).
    - Sh, ShSpec, ShPrint, ShRun: the shell (sh.c).
    - Grep: grep.c; Progs: the counting of wc.c and the names of ls.c; Uprog: the
      system calls of user.h and programs as trees of them; Programs: cat.c,
      wc.c, echo.c, ls.c, ln.c, mkdir.c, rm.c, kill.c, init.c, zombie.c,
      forktest.c, stressfs.c; Usertests, UsertestsProc: usertests.c.
    - AbsOS, ProgramsSpec: an abstract system of named files, descriptors and a
      terminal, and what programs do on it.  Ksys, KernelOS: the kernel as the
      handler of the programs, from the descriptors of a process (sysfile.c,
      file.c) through the path walk, the inodes and the log to the blocks, and
      its refinement of the abstract system; KernelWitness: programs on a small
      disk; UsertestsRun: a run of some of the tests there.
    - Printf: printf.c and the formatting of console.c; Umalloc, UmallocSpec: the
      allocator of user programs (umalloc.c), on the headers in memory.
    - Console, ConsoleSpec, ConsoleIn: screen, cprintf, panic, the line editor
      and the reads of console.c, and procdump; Kbd: the keyboard (kbd.c, kbd.h).
    - Ide, IdeSpec: the disk driver (ide.c) over a model of the controller, the
      second instance of the block-device contract.
    - Mp: the search for processors (mp.c, mp.h); Devices: the interrupt
      controllers, the timers and the serial port (picirq.c, ioapic.c, lapic.c,
      timer.c, uart.c) and their set-up in main.c; Clock: the clock of lapic.c.
    - Mkfs, MkfsSpec, MkfsImage: the builder of file systems (mkfs.c); MkfsTree,
      MkfsBoot: its image as the kernel's tree of directories, and a kernel
      that boots from it.
    - Bootmain: the boot loader (bootmain.c) over a model of the drive; Startup:
      the steps of main (main.c) that hand out memory, with kvmalloc (vm.c), and
      the start of the other processors (main.c, lapic.c).

    ** What is shown

    - Disk: a transaction is all on the disk or not at all, whichever write a
      crash follows, and recovery can itself crash; a cached block is the latest
      one written; begin_op admits three operations at once, and the log takes
      all their blocks up to one less than its size, and panics on the next.
    - File system: writei and readi agree on the contents of files and leave
      other files alone; an inode has one cache entry; dirlink and dirlookup
      agree on directories; namex finds what the tree on the disk has under a
      path, and drops the references it took on the way; filewrite, with its
      transactions, returns with the bytes in the file and on the disk.
    - Programs: whatever a program does that opens files for reading, reads and
      closes them and writes to the console on the abstract system, it does on
      the kernel; so cat and wc, run on the kernel, print the bytes and the
      counts of the files on the disk, and what mkfs was given is what read
      returns after a boot.  Programs that write to files are outside this
      refinement: for them there is the theorem on filewrite.
    - Startup: the boot loader puts every segment of the kernel in its place;
      after main's steps the kernel's directory is its map, the memory is free
      and every other processor runs on a stack of its own.
    - Memory: no page is handed out twice; the page-table operations map, copy
      and grow exactly what they should, and what fails does so as stated.
    - Locks: no two CPUs hold a lock; pushcli and popcli nest.
    - Processes: distinct pids, a living parent for every process, no wakeup
      lost between exit and wait, over every interleaving of the operations of
      the process table on one CPU; the scheduler, whichever process it comes
      back from, runs a process that stays runnable within NPROC + 1 switches.
    - Pipes are bounded queues; over any sequence of reads, writes and closes, as
      long as no writer is killed, nobody sleeps who could go on; reference counts of files
      are exact; arguments of system calls lie inside the process.
    - Devices: the disk driver serves requests in order, each with the transfer
      the block-device contract asks for, and the request with n others before
      it is done, and its process woken, at the interrupt after those n; typed
      characters are edited, echoed and read line by line as by an editor of
      lists;
      scan codes of any kind leave the keyboard's decoder in its tables; the
      open interrupt lines after main are those that trap handles; the processors,
      the boot processor and the I/O APIC are those of the table; the clock's time is one it has had.
    - mkfs: the kernel can boot from the image, and finds in it the files and the
      directory it was built from, with the invariants its own theorems need.
    - User library: the arrays of malloc are disjoint, large enough and keep
      their contents over any sequence of calls; numbers are printed as atoi
      reads them; wc counts the same however its input is cut up.
    - The shell's parser ends on every line, reads back what is printed, and
      its pipelines are connected as written; grep's matcher accepts exactly the
      language of its pattern, and grep prints the matching lines of a file
      that one read delivers.
    - Errors in the code, as theorems about it or as examples of it: allocuvm and
      deallocuvm (VmWitness), uva2ka (Copyout), kill (ProcThm), a killed writer
      (PipeThm), grep on input in several pieces (Grep), the log's capacity
      (Crash) and the size of a round of filewrite (FileWrite), user memmove
      (CString), read errors (IdeSpec), sizes that wrap around (UmallocSpec),
      tables that mpinit cannot handle (Mp), the error interrupt of the local
      APIC (Devices), and the log's blocks in the bitmap of mkfs (MkfsImage).

    Of the calls on files, open, read, write and close have theorems from their
    beginning to their end (write to files in FileWrite, to the console in
    KernelOS), for one process that runs alone; link, unlink, mkdir, mknod,
    chdir, dup and pipe are modelled and compose the proved operations, and are
    run by the tests, as exec and the traps are modelled without a theorem of
    their own.

    ** Bounds and fuel

    The path walk has a round per byte of the path, and its theorem that many;
    the runs of programs on the kernel have the fuel of the run on the abstract
    system, which the theorems on programs construct; the run of the tests has
    10000 calls.  The kernel's refinement asks for disks whose bitmap is one block and
    for the room the cache of inodes needs.  main has pages below 4 MB for the
    72 pages of the kernel's directory and a stack for each of the 8 processors.

    ** Assumptions

    Addresses of the kernel image, of assembly entry points and the functions of
    the device switch are arguments.  The memory of a process is read before a
    write call and written after a read call.  Code of the file system that
    sleeps leaves its wakeups in [woken]; the process table is not woken by them.
    The C compiler, the assembly files and the hardware are trusted.

    Devices are modelled as far as the drivers use them: the disk controller by
    its registers and a latched command, the 8259A by its initialisation words
    and mask, the APICs by their registers, the screen by its memory and cursor,
    the clock by what its registers hold at each read.  The answers of devices
    and of sbrk are arguments.  In the theorems on the disk driver ([ide_rep]) the
    drive reports no error; what the driver does on one is a theorem of its own.

    The theorems on writei, dirlink and filewrite ask for a bitmap that has every
    block of the log marked as used ([bitmap_ok]), which keeps the allocator off
    the log.  The images of mkfs.c do not have that (MkfsImage), so these theorems
    are about disks on which it has been put right; those on readi, on paths and
    on programs that read files hold for the images of mkfs.c too.

    ** Not modelled

    The loading of hardware registers other than the directory's; the settings
    of the serial line; mpenter and mpmain (main.c), whose parts are modelled
    with their components, and the assembly files; main of grep.c and the
    opening of the console in main of sh.c; of usertests.c, mem, which chains
    blocks of malloc through raw memory, and validateint and validatetest, which
    make system calls from assembly with addresses that are not mapped.  The
    headers defs.h and types.h declare, and contain no code. *)

From Stdlib Require Export Lia ZArith.
From stdpp Require Export strings numbers fin_maps gmap list.

Open Scope Z_scope.

(** * Results of kernel code

    A kernel function runs on an explicit state and ends in one of four ways:
    it returns a value, it calls [panic] (console.c), it gives up the CPU in
    [sleep] (proc.c) on a channel with its lock released, or it performs a
    memory access outside the object it addresses ([Fault]; C leaves such an
    access undefined, and the theorems show where it cannot happen). *)

(** Sleep channels.  The C code uses the address of a kernel object as the
    channel; distinct objects have distinct addresses. *)
Inductive chan : Type :=
| ChBuf (i : nat)        (* &bcache.buf[i] *)
| ChInode (i : nat)      (* &icache.inode[i] *)
| ChLog                  (* &log *)
| ChPipeRead (p : Z)     (* &p->nread *)
| ChPipeWrite (p : Z)    (* &p->nwrite *)
| ChProc (i : nat)       (* &ptable.proc[i] *)
| ChTicks                (* &ticks *)
| ChInput.               (* &input.r *)

#[export] Instance chan_eq_dec : EqDecision chan.
Proof. solve_decision. Defined.

Inductive res (S A : Type) : Type :=
| Ret (a : A) (s : S)
| Panic (msg : string) (s : S)
| Sleep (c : chan) (s : S)
| Fault (msg : string) (s : S).
Arguments Ret {S A} a s.
Arguments Panic {S A} msg s.
Arguments Sleep {S A} c s.
Arguments Fault {S A} msg s.

Definition M (S A : Type) : Type := S -> res S A.

Definition ret {S A} (a : A) : M S A := fun s => Ret a s.
Definition panic {S A} (msg : string) : M S A := fun s => Panic msg s.
Definition fault {S A} (msg : string) : M S A := fun s => Fault msg s.
Definition gets {S A} (f : S -> A) : M S A := fun s => Ret (f s) s.
Definition modify {S} (f : S -> S) : M S unit := fun s => Ret tt (f s).
Definition park {S A} (c : chan) : M S A := fun s => Sleep c s.

Definition bind {S A B} (m : M S A) (k : A -> M S B) : M S B := fun s =>
  match m s with
  | Ret a s' => k a s'
  | Panic msg s' => Panic msg s'
  | Sleep c s' => Sleep c s'
  | Fault msg s' => Fault msg s'
  end.

(** Run an operation of a component on the part of a larger state that holds
    the component. *)
Definition zoom {S T A} (get : S -> T) (put : T -> S -> S) (m : M T A) : M S A :=
  fun s =>
  match m (get s) with
  | Ret a t => Ret a (put t s)
  | Panic msg t => Panic msg (put t s)
  | Sleep c t => Sleep c (put t s)
  | Fault msg t => Fault msg (put t s)
  end.

Declare Scope kernel_scope.
Delimit Scope kernel_scope with kernel.
Notation "x <- m ;; k" := (bind m (fun x => k))
  (at level 100, m at next level, right associativity) : kernel_scope.
Notation "' pat <- m ;; k" := (bind m (fun x => match x with pat => k end))
  (at level 20, pat pattern, m at level 99, k at level 200) : kernel_scope.
Notation "m ;; k" := (bind m (fun _ => k))
  (at level 100, k at level 200, right associativity) : kernel_scope.
Open Scope kernel_scope.

(** [for(x in l) body] *)
Fixpoint for_each {S X} (l : list X) (body : X -> M S unit) : M S unit :=
  match l with
  | [] => ret tt
  | x :: l' => body x ;; for_each l' body
  end.

(** [for(x in l) if(...) return ...]: stops at the first [Some]. *)
Fixpoint for_find {S X A} (l : list X) (body : X -> M S (option A)) : M S (option A) :=
  match l with
  | [] => ret None
  | x :: l' =>
      r <- body x ;;
      match r with
      | Some a => ret (Some a)
      | None => for_find l' body
      end
  end.

Definition when {S} (b : bool) (m : M S unit) : M S unit :=
  if b then m else ret tt.

(** * Total correctness

    [wp m s Q]: run from [s], [m] returns (no panic, no sleep, no fault) with
    a value and a state that satisfy [Q]. *)
Definition wp {S A} (m : M S A) (s : S) (Q : A -> S -> Prop) : Prop :=
  match m s with
  | Ret a s' => Q a s'
  | _ => False
  end.

Section wp_rules.
Context {S : Type}.
Implicit Types s : S.

Lemma wp_ret {A} (a : A) s (Q : A -> S -> Prop) : Q a s -> wp (ret a) s Q.
Proof. done. Qed.

Lemma wp_gets {A} (f : S -> A) s (Q : A -> S -> Prop) : Q (f s) s -> wp (gets f) s Q.
Proof. done. Qed.

Lemma wp_modify (f : S -> S) s (Q : unit -> S -> Prop) : Q tt (f s) -> wp (modify f) s Q.
Proof. done. Qed.

Lemma wp_bind {A B} (m : M S A) (k : A -> M S B) s (Q : B -> S -> Prop) :
  wp m s (fun a s' => wp (k a) s' Q) -> wp (bind m k) s Q.
Proof. unfold wp, bind. by destruct (m s). Qed.

Lemma wp_conseq {A} (m : M S A) s (P Q : A -> S -> Prop) :
  wp m s P -> (forall a s', P a s' -> Q a s') -> wp m s Q.
Proof. unfold wp. destruct (m s); auto. Qed.

Lemma wp_seq {A B} (m : M S A) (k : A -> M S B) s (P : A -> S -> Prop) (Q : B -> S -> Prop) :
  wp m s P -> (forall a s', P a s' -> wp (k a) s' Q) -> wp (bind m k) s Q.
Proof. intros Hm Hk. apply wp_bind. eauto using wp_conseq. Qed.

Lemma wp_eq {A} (m : M S A) s (Q : A -> S -> Prop) :
  wp m s Q <-> exists a s', m s = Ret a s' /\ Q a s'.
Proof.
  unfold wp. split.
  - destruct (m s); intros H; try done. eauto.
  - by intros (a & s' & -> & H).
Qed.

Lemma wp_eq_tt (m : M S unit) s (Q : unit -> S -> Prop) :
  wp m s Q -> exists s', m s = Ret tt s' /\ Q tt s'.
Proof. intros ([] & s' & ? & ?)%wp_eq. eauto. Qed.

(** A trailing [ret tt], to use the rules with a continuation at the end of a
    function. *)
Lemma wp_tail (c : M S unit) s (Q : unit -> S -> Prop) : wp (c ;; ret tt) s Q -> wp c s Q.
Proof. unfold wp, bind, ret. by destruct (c s) as [[] ?| | |]. Qed.

Lemma wp_tail3 {A} (a : M S A) (b c : A -> M S unit) s (Q : unit -> S -> Prop) :
  wp (x <- a ;; b x ;; c x ;; ret tt) s Q -> wp (x <- a ;; b x ;; c x) s Q.
Proof.
  unfold wp, bind, ret. destruct (a s) as [x s1| | |]; try done.
  destruct (b x s1) as [[] s2| | |]; try done. by destruct (c x s2) as [[] ?| | |].
Qed.

Lemma wp_tail5 {A B} (a : M S A) (b : A -> M S B) (c d e : A -> B -> M S unit) s (Q : unit -> S -> Prop) :
  wp (x <- a ;; y <- b x ;; c x y ;; d x y ;; e x y ;; ret tt) s Q ->
  wp (x <- a ;; y <- b x ;; c x y ;; d x y ;; e x y) s Q.
Proof.
  unfold wp, bind, ret. destruct (a s) as [x s1| | |]; try done. destruct (b x s1) as [y s2| | |]; try done.
  destruct (c x y s2) as [[] s3| | |]; try done. destruct (d x y s3) as [[] s4| | |]; try done.
  by destruct (e x y s4) as [[] ?| | |].
Qed.

Lemma wp_of_eq {A} (m : M S A) s a s' (Q : A -> S -> Prop) :
  m s = Ret a s' -> Q a s' -> wp m s Q.
Proof. intros H HQ. unfold wp. by rewrite H. Qed.

Lemma wp_bind_eq {A B} (m : M S A) (k : A -> M S B) s a s' (Q : B -> S -> Prop) :
  m s = Ret a s' -> wp (k a) s' Q -> wp (bind m k) s Q.
Proof. intros H HQ. apply wp_bind. by eapply wp_of_eq. Qed.

Lemma wp_zoom {T A} (get : S -> T) (put : T -> S -> S) (m : M T A) s (Q : A -> S -> Prop) :
  wp m (get s) (fun a t => Q a (put t s)) -> wp (zoom get put m) s Q.
Proof. unfold wp, zoom. by destruct (m (get s)). Qed.

(** A loop over a list: the invariant is indexed by the part already done. *)
Lemma wp_for_each {X} (I : list X -> S -> Prop) (body : X -> M S unit) (l : list X) s :
  I [] s ->
  (forall pre x post s0, l = pre ++ x :: post -> I pre s0 ->
     wp (body x) s0 (fun _ s1 => I (pre ++ [x]) s1)) ->
  wp (for_each l body) s (fun _ s' => I l s').
Proof.
  intros H0 Hstep.
  assert (forall post pre s0, l = pre ++ post -> I pre s0 ->
            wp (for_each post body) s0 (fun _ s' => I l s')) as Hgen.
  { induction post as [|x post IH]; intros pre s0 Hl HI; simpl.
    - rewrite app_nil_r in Hl. subst. by apply wp_ret.
    - apply wp_seq with (fun _ s1 => I (pre ++ [x]) s1); [by eapply Hstep|].
      intros _ s1 HI1. apply (IH (pre ++ [x])); [|done]. by rewrite <- app_assoc. }
  by apply (Hgen l []).
Qed.

(** A counting loop [for(i = 0; i < n; i++)]. *)
Lemma wp_for_seq (I : nat -> S -> Prop) (body : nat -> M S unit) (n : nat) s :
  I O s ->
  (forall i s0, (i < n)%nat -> I i s0 -> wp (body i) s0 (fun _ s1 => I (Datatypes.S i) s1)) ->
  wp (for_each (seq 0 n) body) s (fun _ s' => I n s').
Proof.
  intros H0 Hstep.
  assert (forall k j s0, (j + k = n)%nat -> I j s0 ->
            wp (for_each (seq j k) body) s0 (fun _ s' => I n s')) as Hgen.
  { induction k as [|k IH]; intros j s0 Hn HI; simpl.
    - apply wp_ret. by replace n with j by lia.
    - apply wp_seq with (fun _ s1 => I (Datatypes.S j) s1); [apply Hstep; [lia|done]|].
      intros _ s1 HI1. apply IH; [lia|done]. }
  by apply (Hgen n O).
Qed.

(** A search loop: every element passed over keeps the invariant, and the
    loop stops at the first that answers. *)
Lemma wp_for_find {X A} (I : list X -> S -> Prop) (Q : option A -> S -> Prop)
    (body : X -> M S (option A)) (l : list X) s :
  I [] s ->
  (forall pre x post s0, l = pre ++ x :: post -> I pre s0 ->
     wp (body x) s0 (fun r s1 => match r with
                                 | Some a => Q (Some a) s1
                                 | None => I (pre ++ [x]) s1 end)) ->
  (forall s', I l s' -> Q None s') ->
  wp (for_find l body) s Q.
Proof.
  intros H0 Hstep Hend.
  assert (forall post pre s0, l = pre ++ post -> I pre s0 ->
            wp (for_find post body) s0 Q) as Hgen.
  { induction post as [|x post IH]; intros pre s0 Hl HI; simpl.
    - rewrite app_nil_r in Hl. subst. apply wp_ret. eauto.
    - eapply wp_seq; [by eapply Hstep|]. intros [a|] s1 H1; simpl.
      + by apply wp_ret.
      + apply (IH (pre ++ [x])); [|done]. by rewrite <- app_assoc. }
  by apply (Hgen l []).
Qed.
End wp_rules.

(** * Machine integers *)

Definition u8 (x : Z) : Z := x mod 2 ^ 8.
Definition u16 (x : Z) : Z := x mod 2 ^ 16.
Definition u32 (x : Z) : Z := x mod 2 ^ 32.
Definition s16 (x : Z) : Z :=
  let y := x mod 2 ^ 16 in if y <? 2 ^ 15 then y else y - 2 ^ 16.
Definition s32 (x : Z) : Z :=
  let y := x mod 2 ^ 32 in if y <? 2 ^ 31 then y else y - 2 ^ 32.

Definition is_u8 (x : Z) : Prop := 0 <= x < 2 ^ 8.
Definition is_u16 (x : Z) : Prop := 0 <= x < 2 ^ 16.
Definition is_u32 (x : Z) : Prop := 0 <= x < 2 ^ 32.

(** [testf f m]: the C condition [f & m]. *)
Definition testf (f m : Z) : bool := negb (Z.land f m =? 0).

Lemma u32_small x : 0 <= x < 2 ^ 32 -> u32 x = x.
Proof. apply Z.mod_small. Qed.

Lemma u32_range x : 0 <= u32 x < 2 ^ 32.
Proof. by apply Z.mod_pos_bound. Qed.

Lemma s32_range x : - 2 ^ 31 <= s32 x < 2 ^ 31.
Proof.
  unfold s32. pose proof (Z.mod_pos_bound x (2 ^ 32) ltac:(lia)).
  destruct (Z.ltb_spec (x mod 2 ^ 32) (2 ^ 31)); lia.
Qed.

Lemma s32_small x : - 2 ^ 31 <= x < 2 ^ 31 -> s32 x = x.
Proof.
  intros Hx. unfold s32. destruct (decide (0 <= x)).
  - rewrite Z.mod_small by lia. destruct (Z.ltb_spec x (2 ^ 31)); lia.
  - rewrite <- (Z.mod_add x 1) by lia. rewrite Z.mod_small by lia.
    destruct (Z.ltb_spec (x + 1 * 2 ^ 32) (2 ^ 31)); lia.
Qed.

Lemma s32_u32 x : s32 (u32 x) = s32 x.
Proof. unfold s32, u32. by rewrite Z.mod_mod by lia. Qed.

Lemma u32_s32 x : u32 (s32 x) = u32 x.
Proof.
  unfold s32, u32. destruct (_ <? _).
  - by rewrite Z.mod_mod by lia.
  - rewrite Zminus_mod, Z.mod_mod, Z_mod_same_full, Z.sub_0_r, Z.mod_mod by lia. done.
Qed.

Lemma testf_lor f a m : testf (Z.lor f a) m = testf f m || testf a m.
Proof.
  unfold testf. rewrite Z.land_lor_distr_l.
  destruct (Z.eqb_spec (Z.land f m) 0) as [->|H1];
    destruct (Z.eqb_spec (Z.land a m) 0) as [->|H2]; simpl; try done.
  - destruct (Z.eqb_spec (Z.lor 0 (Z.land a m)) 0) as [E|]; [|done].
    by rewrite Z.lor_0_l in E.
  - destruct (Z.eqb_spec (Z.lor (Z.land f m) 0) 0) as [E|]; [|done].
    by rewrite Z.lor_0_r in E.
  - destruct (Z.eqb_spec (Z.lor (Z.land f m) (Z.land a m)) 0) as [E|]; [|done].
    apply Z.lor_eq_0_iff in E. by destruct E.
Qed.

Lemma testf_clear_same f m : testf (Z.land f (Z.lnot m)) m = false.
Proof.
  unfold testf. rewrite <- Z.land_assoc, (Z.land_comm (Z.lnot m)), Z.land_lnot_diag.
  by rewrite Z.land_0_r.
Qed.

Lemma testf_clear_other f a m :
  Z.land a m = 0 -> testf (Z.land f (Z.lnot a)) m = testf f m.
Proof.
  intros H. unfold testf. do 2 f_equal. apply Z.bits_inj'. intros n Hn.
  apply (f_equal (fun z => Z.testbit z n)) in H.
  rewrite Z.land_spec, Z.bits_0 in H.
  rewrite !Z.land_spec, Z.lnot_spec by done.
  destruct (Z.testbit f n), (Z.testbit a n), (Z.testbit m n); simpl in *; done.
Qed.

(** A one-bit mask tests one bit. *)
Lemma land_pow2 f k : 0 <= k -> Z.land f (2 ^ k) = if Z.testbit f k then 2 ^ k else 0.
Proof.
  intros Hk. apply Z.bits_inj'. intros n Hn. rewrite Z.land_spec, Z.pow2_bits_eqb by done.
  destruct (Z.eqb_spec k n) as [->|Hne].
  - destruct (Z.testbit f n); simpl; [by rewrite Z.pow2_bits_true|by rewrite Z.bits_0].
  - rewrite andb_false_r. destruct (Z.testbit f k); [|by rewrite Z.bits_0].
    by rewrite Z.pow2_bits_false.
Qed.

Lemma testf_pow2 f k : 0 <= k -> testf f (2 ^ k) = Z.testbit f k.
Proof.
  intros Hk. unfold testf. rewrite land_pow2 by done.
  destruct (Z.testbit f k); [|done].
  destruct (Z.eqb_spec (2 ^ k) 0); [lia|done].
Qed.

(** * Bytes in memory and on disk *)

Lemma NoDup_drop {A} (l : list A) i : NoDup l -> NoDup (drop i l).
Proof. rewrite <- (take_drop i l) at 1. intros (_ & _ & H)%NoDup_app. done. Qed.

Lemma NoDup_reverse {A} (l : list A) : NoDup l -> NoDup (reverse l).
Proof. by rewrite reverse_Permutation. Qed.

Definition splice {A} (off : nat) (new l : list A) : list A :=
  take off l ++ new ++ drop (off + length new) l.

Definition slice {A} (off len : nat) (l : list A) : list A := take len (drop off l).

Lemma length_splice {A} off (new l : list A) :
  (off + length new <= length l)%nat -> length (splice off new l) = length l.
Proof.
  intros H. unfold splice. rewrite !length_app, length_take, length_drop. lia.
Qed.

Lemma length_slice {A} off len (l : list A) :
  (off + len <= length l)%nat -> length (slice off len l) = len.
Proof. intros H. unfold slice. rewrite length_take, length_drop. lia. Qed.

Lemma slice_splice_same {A} off (new l : list A) :
  (off <= length l)%nat -> slice off (length new) (splice off new l) = new.
Proof.
  intros H. unfold slice, splice.
  rewrite drop_app_length' by (rewrite length_take; lia).
  by rewrite take_app_length.
Qed.

Lemma lookup_splice_out {A} off (new l : list A) i :
  (off + length new <= length l)%nat ->
  (i < off \/ off + length new <= i)%nat -> splice off new l !! i = l !! i.
Proof.
  intros Hl [Hi|Hi]; unfold splice.
  - rewrite lookup_app_l by (rewrite length_take; lia). by apply lookup_take_lt.
  - rewrite lookup_app_r by (rewrite length_take; lia).
    rewrite lookup_app_r by (rewrite length_take; lia).
    rewrite lookup_drop, length_take. f_equal. lia.
Qed.

Lemma lookup_splice_in {A} off (new l : list A) i :
  (off <= length l)%nat -> (off <= i < off + length new)%nat ->
  splice off new l !! i = new !! (i - off)%nat.
Proof.
  intros Hl Hi. unfold splice.
  rewrite lookup_app_r by (rewrite length_take; lia).
  rewrite length_take. rewrite lookup_app_l by lia. f_equal. lia.
Qed.

Lemma lookup_slice {A} off len (l : list A) i :
  slice off len l !! i = if decide (i < len)%nat then l !! (off + i)%nat else None.
Proof.
  unfold slice. case_decide.
  - by rewrite lookup_take_lt, lookup_drop by lia.
  - by rewrite lookup_take_ge by lia.
Qed.

Lemma slice_splice_disjoint {A} off off' len (new l : list A) :
  (off + length new <= length l)%nat ->
  (off' + len <= off \/ off + length new <= off')%nat ->
  slice off' len (splice off new l) = slice off' len l.
Proof.
  intros Hl Hd. apply list_eq. intros i. rewrite !lookup_slice. case_decide; [|done].
  apply lookup_splice_out; lia.
Qed.

Lemma Forall_splice {A} (P : A -> Prop) off (new l : list A) :
  Forall P new -> Forall P l -> Forall P (splice off new l).
Proof.
  intros Hn Hl. unfold splice. rewrite !Forall_app.
  eauto using Forall_take, Forall_drop.
Qed.

(** Little-endian integers: [le_bytes n x] are the [n] bytes of [x], least
    significant first; [le_val] reads them back. *)
Fixpoint le_bytes (n : nat) (x : Z) : list Z :=
  match n with
  | O => []
  | S n' => x mod 256 :: le_bytes n' (x / 256)
  end.

Fixpoint le_val (bs : list Z) : Z :=
  match bs with
  | [] => 0
  | b :: bs' => b + 256 * le_val bs'
  end.

Lemma length_le_bytes n x : length (le_bytes n x) = n.
Proof. revert x. induction n; intros x; simpl; auto. Qed.

Lemma le_bytes_range n x : Forall is_u8 (le_bytes n x).
Proof.
  revert x. induction n; intros x; simpl; constructor; auto.
  apply (Z.mod_pos_bound x 256). lia.
Qed.

Lemma le_val_bytes n x : 0 <= x < 256 ^ Z.of_nat n -> le_val (le_bytes n x) = x.
Proof.
  revert x. induction n as [|n IH]; intros x Hx.
  - simpl in *. lia.
  - cbn [le_bytes le_val]. rewrite Nat2Z.inj_succ, Z.pow_succ_r in Hx by lia.
    rewrite IH.
    + pose proof (Z.div_mod x 256). lia.
    + split; [apply Z.div_pos; lia|]. apply Z.div_lt_upper_bound; lia.
Qed.

Lemma le_val_range bs :
  Forall is_u8 bs -> 0 <= le_val bs < 256 ^ Z.of_nat (length bs).
Proof.
  induction 1 as [|b bs Hb Hbs IH]; [simpl; lia|].
  cbn [le_val length]. rewrite Nat2Z.inj_succ, Z.pow_succ_r by lia.
  unfold is_u8 in Hb. lia.
Qed.

Lemma le_bytes_val bs : Forall is_u8 bs -> le_bytes (length bs) (le_val bs) = bs.
Proof.
  induction 1 as [|b bs Hb Hbs IH]; [done|]. cbn [le_val length le_bytes].
  unfold is_u8 in Hb. rewrite (Z.mul_comm 256).
  rewrite Z_mod_plus_full, Z.div_add, Z.mod_small, Z.div_small by lia.
  by rewrite Z.add_0_l, IH.
Qed.

(** A [uint] (4 bytes) or [ushort] (2 bytes) stored at byte offset [off]. *)
Definition get32 (off : nat) (l : list Z) : Z := le_val (slice off 4 l).
Definition put32 (off : nat) (x : Z) (l : list Z) : list Z := splice off (le_bytes 4 x) l.
Definition get16 (off : nat) (l : list Z) : Z := le_val (slice off 2 l).
Definition put16 (off : nat) (x : Z) (l : list Z) : list Z := splice off (le_bytes 2 x) l.

Lemma length_put32 off x l : (off + 4 <= length l)%nat -> length (put32 off x l) = length l.
Proof. intros. apply length_splice. by rewrite length_le_bytes. Qed.

Lemma length_put16 off x l : (off + 2 <= length l)%nat -> length (put16 off x l) = length l.
Proof. intros. apply length_splice. by rewrite length_le_bytes. Qed.

Lemma get32_put32_same off x l :
  (off + 4 <= length l)%nat -> is_u32 x -> get32 off (put32 off x l) = x.
Proof.
  intros Hl Hx. unfold get32, put32.
  rewrite <- (length_le_bytes 4 x) at 1.
  rewrite slice_splice_same by lia. by apply le_val_bytes.
Qed.

Lemma get32_put32_other off off' x l :
  (off + 4 <= length l)%nat -> (off' + 4 <= off \/ off + 4 <= off')%nat ->
  get32 off' (put32 off x l) = get32 off' l.
Proof.
  intros Hl Hd. unfold get32, put32. f_equal.
  apply slice_splice_disjoint; rewrite length_le_bytes; lia.
Qed.

Lemma get16_put16_same off x l :
  (off + 2 <= length l)%nat -> is_u16 x -> get16 off (put16 off x l) = x.
Proof.
  intros Hl Hx. unfold get16, put16.
  rewrite <- (length_le_bytes 2 x) at 1.
  rewrite slice_splice_same by lia. by apply le_val_bytes.
Qed.

Lemma get32_range off l : Forall is_u8 l -> (off + 4 <= length l)%nat -> is_u32 (get32 off l).
Proof.
  intros Hl Hlen. unfold get32, is_u32.
  pose proof (le_val_range (slice off 4 l)) as H. rewrite length_slice in H by lia.
  apply H. by apply Forall_take, Forall_drop.
Qed.

Lemma Forall_put32 off x l : Forall is_u8 l -> Forall is_u8 (put32 off x l).
Proof. intros. apply Forall_splice; [apply le_bytes_range|done]. Qed.

(** * Tactics *)

(** Move the first command of a sequence in front, keeping its continuation in
    the postcondition; [wp_step lem] discharges it with a specification. *)
Ltac wp_pure :=
  repeat first
    [ apply wp_ret
    | apply wp_gets
    | apply wp_modify
    | (apply wp_bind; first [apply wp_gets | apply wp_modify | apply wp_ret]) ];
  cbv beta.

Tactic Notation "wp_step" uconstr(lem) := eapply wp_seq; [eapply lem|]; cbv beta.

(** Case analysis on the boolean comparisons of the code. *)
Ltac case_bool :=
  match goal with
  | |- context [Z.eqb ?a ?b] => destruct (Z.eqb_spec a b)
  | |- context [Z.ltb ?a ?b] => destruct (Z.ltb_spec a b)
  | |- context [Z.leb ?a ?b] => destruct (Z.leb_spec a b)
  | |- context [Nat.eqb ?a ?b] => destruct (Nat.eqb_spec a b)
  | |- context [Nat.ltb ?a ?b] => destruct (Nat.ltb_spec a b)
  end.

Create HintDb xv6.
Create Rewrite HintDb xv6.
#[export] Hint Rewrite testf_lor testf_clear_same : xv6.
#[export] Hint Resolve u32_range s32_range le_bytes_range Forall_put32 : xv6.
