(* ===== verification/Params.v ===== *)
(** Constants and on-disk layout: param.h, buf.h, fs.h, stat.h, memlayout.h.

    The system parameters, the flag bits of the buffer and inode caches and the
    arithmetic of the file-system layout ([IBLOCK], [BBLOCK]). *)

From S2P Require Import Prelude.

(** ** param.h *)
Definition NPROC : nat := 64.
Definition KSTACKSIZE : Z := 4096.
Definition NCPU : nat := 8.
Definition NOFILE : nat := 16.
Definition NFILE : nat := 100.
Definition NINODE : nat := 50.
Definition NDEV : Z := 10.
Definition ROOTDEV : Z := 1.
Definition MAXARG : nat := 32.
Definition MAXOPBLOCKS : Z := 10.
Definition LOGSIZE : Z := MAXOPBLOCKS * 3.
Definition NBUF : nat := 30.  (* MAXOPBLOCKS*3 *)

(** ** buf.h *)
Definition B_BUSY : Z := 1.
Definition B_VALID : Z := 2.
Definition B_DIRTY : Z := 4.

(** ** file.h *)
Definition I_BUSY : Z := 1.
Definition I_VALID : Z := 2.
Definition CONSOLE : Z := 1.

(** ** stat.h *)
Definition T_DIR : Z := 1.
Definition T_FILE : Z := 2.
Definition T_DEV : Z := 3.

(** ** fcntl.h *)
Definition O_RDONLY : Z := 0.
Definition O_WRONLY : Z := 1.
Definition O_RDWR : Z := 2.
Definition O_CREATE : Z := 512.

(** ** fs.h *)
Definition ROOTINO : Z := 1.
Definition BSIZE : Z := 512.
Definition NDIRECT : Z := 12.
Definition NINDIRECT : Z := BSIZE / 4.
Definition MAXFILE : Z := NDIRECT + NINDIRECT.

(** [sizeof(struct dinode)]: four shorts, a uint and NDIRECT+1 uints. *)
Definition DINODE_SIZE : Z := 2 * 4 + 4 + 4 * (NDIRECT + 1).
Definition IPB : Z := BSIZE / DINODE_SIZE.
Definition IBLOCK (i : Z) : Z := i / IPB + 2.
Definition BPB : Z := BSIZE * 8.
Definition BBLOCK (b ninodes : Z) : Z := b / BPB + ninodes / IPB + 3.
Definition DIRSIZ : Z := 14.
Definition DIRENT_SIZE : Z := 2 + DIRSIZ.

(** ** memlayout.h *)
Definition EXTMEM : Z := 0x100000.
Definition PHYSTOP : Z := 0xE000000.
Definition DEVSPACE : Z := 0xFE000000.
Definition KERNBASE : Z := 0x80000000.
Definition KERNLINK : Z := KERNBASE + EXTMEM.

Definition v2p (a : Z) : Z := u32 (a - KERNBASE).
Definition p2v (a : Z) : Z := u32 (a + KERNBASE).
