(* ===== verification/BlockDev.v ===== *)
(** The disk and its drivers' contract: buf.h, memide.c.

    A [disk] is the contents of the sectors together with the history of the
    sector writes, which the crash theorems of Log.v quantify over.  The class
    [BlockDev] is what bio.c relies on: the operation [iderw] and its laws.
    memide.c (the in-memory disk) is modelled here and is an instance; the
    interrupt-driven ide.c is modelled in Ide.v and is the other instance. *)

From S2P Require Import Prelude Params.

(** A disk block: 512 bytes. *)
Definition block : Type := list Z.
Definition zero_block : block := replicate 512 0.
Definition block_ok (b : block) : Prop := length b = 512%nat /\ Forall is_u8 b.

(** Sectors are named by device and sector number. *)
Abbreviation key := (Z * Z)%type.

(** [struct buf] (buf.h).  The [prev]/[next] links of the LRU list are kept in
    Bio.v beside the array of buffers and the [qnext] link of the request queue
    in Ide.v. *)
Record buf : Type := mkbuf {
  flags : Z;
  dev : Z;
  sector : Z;
  data : block
}.

Definition set_flags (f : Z) (b : buf) : buf := mkbuf f (dev b) (sector b) (data b).
Definition set_data (d : block) (b : buf) : buf := mkbuf (flags b) (dev b) (sector b) d.
Definition bkey (b : buf) : key := (dev b, sector b).
Definition is_busy (b : buf) : bool := testf (flags b) B_BUSY.
Definition is_valid (b : buf) : bool := testf (flags b) B_VALID.
Definition is_dirty (b : buf) : bool := testf (flags b) B_DIRTY.

(** Contents and write history of a disk. *)
Record disk : Type := mkdisk {
  img : gmap (Z * Z) block;
  hist : list ((Z * Z) * block)
}.

Definition img_get (m : gmap (Z * Z) block) (k : key) : block := default zero_block (m !! k).
Definition disk_get (d : disk) (k : key) : block := img_get (img d) k.
Definition disk_put (k : key) (b : block) (d : disk) : disk :=
  mkdisk (<[k := b]> (img d)) (hist d ++ [(k, b)]).

(** The image after a sequence of sector writes. *)
Definition apply_writes (ws : list ((Z * Z) * block)) (m : gmap (Z * Z) block) :=
  foldl (fun m kb => <[kb.1 := kb.2]> m) m ws.

Definition disk_ok (d : disk) : Prop := forall k, block_ok (disk_get d k).

(** ** The contract of a block-device driver *)

Class BlockDev : Type := {
  iderw : buf -> M disk buf;
  (** the sectors the device serves *)
  on_device : key -> Prop;
  iderw_not_busy b d : is_busy b = false ->
    iderw b d = Panic "iderw: buf not busy" d;
  iderw_nothing b d : is_busy b = true -> is_valid b = true -> is_dirty b = false ->
    iderw b d = Panic "iderw: nothing to do" d;
  iderw_write b d : is_busy b = true -> is_dirty b = true -> on_device (bkey b) ->
    length (data b) = 512%nat ->
    exists b', iderw b d = Ret b' (disk_put (bkey b) (data b) d) /\
      data b' = data b /\ bkey b' = bkey b /\
      is_busy b' = true /\ is_valid b' = true /\ is_dirty b' = false;
  iderw_read b d : is_busy b = true -> is_dirty b = false -> is_valid b = false ->
    on_device (bkey b) -> length (data b) = 512%nat -> disk_ok d ->
    exists b', iderw b d = Ret b' d /\
      data b' = disk_get d (bkey b) /\ bkey b' = bkey b /\
      is_busy b' = true /\ is_valid b' = true /\ is_dirty b' = false
}.

Lemma zero_block_ok : block_ok zero_block.
Proof. split; [apply length_replicate|]. apply Forall_replicate. unfold is_u8. lia. Qed.

Lemma disk_get_put_same k b d : disk_get (disk_put k b d) k = b.
Proof. unfold disk_get, img_get, disk_put. simpl. by rewrite lookup_insert_eq. Qed.

Lemma disk_get_put_ne k k' b d : k <> k' -> disk_get (disk_put k b d) k' = disk_get d k'.
Proof. intros H. unfold disk_get, img_get, disk_put. simpl. by rewrite lookup_insert_ne. Qed.

Lemma disk_ok_put k b d : block_ok b -> disk_ok d -> disk_ok (disk_put k b d).
Proof.
  intros Hb Hd k'. destruct (decide (k = k')) as [->|Hne].
  - by rewrite disk_get_put_same.
  - rewrite disk_get_put_ne by done. apply Hd.
Qed.

Lemma img_apply_app ws1 ws2 m :
  apply_writes (ws1 ++ ws2) m = apply_writes ws2 (apply_writes ws1 m).
Proof. apply foldl_app. Qed.

(** A sequence of writes. *)
Definition disk_puts (ws : list ((Z * Z) * block)) (d : disk) : disk :=
  foldl (fun d kb => disk_put kb.1 kb.2 d) d ws.

Lemma disk_puts_app ws1 ws2 d : disk_puts (ws1 ++ ws2) d = disk_puts ws2 (disk_puts ws1 d).
Proof. apply foldl_app. Qed.

Lemma disk_puts_hist ws d : hist (disk_puts ws d) = hist d ++ ws.
Proof.
  revert d. induction ws as [|[k b] ws IH]; intros d; simpl; [by rewrite app_nil_r|].
  unfold disk_puts in *. rewrite IH. simpl. by rewrite <- app_assoc.
Qed.

Lemma disk_puts_img ws d : img (disk_puts ws d) = apply_writes ws (img d).
Proof. revert d. induction ws as [|[k b] ws IH]; intros d; simpl; [done|]. apply IH. Qed.

Lemma apply_writes_get ws m k :
  img_get (apply_writes ws m) k =
  default (img_get m k) (snd <$> last (filter (fun kb => kb.1 = k) ws)).
Proof.
  revert m. induction ws as [|[k' b] ws IH] using rev_ind; intros m; [done|].
  rewrite img_apply_app, filter_app, last_app. unfold img_get at 1. simpl.
  destruct (decide (k' = k)) as [->|Hne].
  - rewrite lookup_insert_eq. by rewrite filter_cons_True.
  - rewrite lookup_insert_ne by done. rewrite filter_cons_False by done. simpl. apply IH.
Qed.

Lemma apply_writes_other ws m k : k ∉ ws.*1 -> img_get (apply_writes ws m) k = img_get m k.
Proof.
  revert m. induction ws as [|[k' b] ws IH]; intros m; simpl; [done|].
  rewrite not_elem_of_cons. intros [Hne Hk]. unfold apply_writes in *.
  rewrite IH by done. unfold img_get. simpl. by rewrite lookup_insert_ne.
Qed.

(** ** memide.c: a disk held in memory *)
Module Memide.

(** memide.c [iderw]; [disksize] is the number of sectors of the image
    linked into the kernel, set by [ideinit]. *)
Definition iderw (disksize : Z) (b : buf) : M disk buf :=
  if negb (is_busy b) then panic "iderw: buf not busy"
  else if Z.land (flags b) (Z.lor B_VALID B_DIRTY) =? B_VALID then
    panic "iderw: nothing to do"
  else if negb (dev b =? 1) then panic "iderw: request not for disk 1"
  else if disksize <=? sector b then panic "iderw: sector out of range"
  else if is_dirty b then
    let b1 := set_flags (Z.land (flags b) (Z.lnot B_DIRTY)) b in
    modify (disk_put (bkey b) (data b)) ;;
    ret (set_flags (Z.lor (flags b1) B_VALID) b1)
  else
    p <- gets (fun d => disk_get d (bkey b)) ;;
    let b1 := set_data p b in
    ret (set_flags (Z.lor (flags b1) B_VALID) b1).

(** memide.c [ideinit]: the number of whole sectors of the linked image. *)
Definition ideinit (fs_img_size : Z) : Z := u32 fs_img_size / 512.

End Memide.

(** The test [(b->flags & (B_VALID|B_DIRTY)) == B_VALID]. *)
Lemma valid_only_test (f : Z) :
  (Z.land f (Z.lor B_VALID B_DIRTY) =? B_VALID) = testf f B_VALID && negb (testf f B_DIRTY).
Proof.
  rewrite Z.land_lor_distr_r. unfold testf.
  change B_VALID with (2 ^ 1). change B_DIRTY with (2 ^ 2). rewrite !land_pow2 by lia.
  by destruct (Z.testbit f 1), (Z.testbit f 2).
Qed.

#[export] Instance memide_dev (disksize : Z) : BlockDev.
Proof.
  refine {| iderw := Memide.iderw disksize;
            on_device := fun k => k.1 = 1 /\ k.2 < disksize |};
    unfold Memide.iderw; intros b d; fold (is_busy b).
  - intros ->. done.
  - intros -> Hv Hd. rewrite valid_only_test. fold (is_valid b) (is_dirty b).
    by rewrite Hv, Hd.
  - intros Hb Hd [Hdev Hs] _. rewrite valid_only_test. fold (is_valid b) (is_dirty b).
    rewrite Hb, Hd, andb_false_r. simpl in *. rewrite Hdev. simpl.
    destruct (Z.leb_spec disksize (sector b)); [lia|].
    eexists. split; [reflexivity|]. unfold is_busy, is_valid, is_dirty in *. simpl.
    rewrite !testf_lor, testf_clear_same, !testf_clear_other, Hb by done.
    by rewrite orb_true_r.
  - intros Hb Hd Hv [Hdev Hs] _ _. rewrite valid_only_test. fold (is_valid b) (is_dirty b).
    rewrite Hb, Hd, Hv. simpl in *. rewrite Hdev. simpl.
    destruct (Z.leb_spec disksize (sector b)); [lia|].
    eexists. split; [reflexivity|]. unfold is_busy, is_valid, is_dirty in *. simpl.
    by rewrite !testf_lor, Hb, Hd, orb_true_r.
Defined.
