(* ===== verification/Bio.v ===== *)
(** The buffer cache: bio.c.

    [bcache] is an array of NBUF buffers on a doubly linked circular list in
    LRU order, threaded through [prev]/[next] and the list head.  The
    definitions follow the pointers as the code does; [dll] says that the
    pointers represent a list, and the theorems show that [bget] searches that
    list, that [brelse] moves the buffer to its front and that together they
    implement a cache of the disk: [brep] relates a state to its abstract view
    (contents of every block, dirty set, held set), against which log.c and
    fs.c are verified. *)

From S2P Require Import Prelude Params BlockDev.

(** ** Definitions *)

(** The list head [bcache.head] is the node after the last buffer. *)
Definition HEAD : nat := NBUF.

(** [b->dev = -1] of [binit], as a [uint]. *)
Definition NODEV : Z := u32 (-1).

Record bcache : Type := mkbcache {
  bc_lock : bool;             (* bcache.lock is held *)
  bc_buf : list buf;          (* bcache.buf[NBUF] *)
  bc_next : list nat;         (* the next links, HEAD included *)
  bc_prev : list nat          (* the prev links, HEAD included *)
}.

(** The cache, the disk under it, and the channels passed to [wakeup], latest
    first. *)
Record bst : Type := mkbst {
  bc : bcache;
  dk : disk;
  woken : list chan
}.

#[export] Instance buf_inhabited : Inhabited buf := populate (mkbuf 0 0 0 zero_block).

Definition put_bc (c : bcache) (s : bst) : bst := mkbst c (dk s) (woken s).
Definition put_dk (d : disk) (s : bst) : bst := mkbst (bc s) d (woken s).
Definition set_lock (l : bool) (c : bcache) : bcache :=
  mkbcache l (bc_buf c) (bc_next c) (bc_prev c).
Definition set_buf (i : nat) (b : buf) (c : bcache) : bcache :=
  mkbcache (bc_lock c) (<[i := b]> (bc_buf c)) (bc_next c) (bc_prev c).
Definition set_next (i n : nat) (c : bcache) : bcache :=
  mkbcache (bc_lock c) (bc_buf c) (<[i := n]> (bc_next c)) (bc_prev c).
Definition set_prev (i p : nat) (c : bcache) : bcache :=
  mkbcache (bc_lock c) (bc_buf c) (bc_next c) (<[i := p]> (bc_prev c)).

Definition next (c : bcache) (i : nat) : nat := bc_next c !!! i.
Definition prev (c : bcache) (i : nat) : nat := bc_prev c !!! i.
Definition buf_of (s : bst) (i : nat) : buf := bc_buf (bc s) !!! i.
Definition modify_bc (f : bcache -> bcache) : M bst unit := modify (fun s => put_bc (f (bc s)) s).
Definition update_buf (i : nat) (f : buf -> buf) : M bst unit :=
  modify (fun s => put_bc (set_buf i (f (buf_of s i)) (bc s)) s).

Definition acquire_bcache : M bst unit :=
  l <- gets (fun s => bc_lock (bc s)) ;;
  if l then panic "acquire" else modify_bc (set_lock true).
Definition release_bcache : M bst unit :=
  l <- gets (fun s => bc_lock (bc s)) ;;
  if l then modify_bc (set_lock false) else panic "release".
Definition wakeup (c : chan) : M bst unit :=
  modify (fun s => mkbst (bc s) (dk s) (c :: woken s)).

(** bio.c [binit], on the zeroed [bcache] of the kernel image. *)
Definition zero_bcache : bcache :=
  mkbcache false (replicate NBUF (mkbuf 0 0 0 zero_block))
           (replicate (S NBUF) O) (replicate (S NBUF) O).

Definition binit_insert (b : nat) (c : bcache) : bcache :=
  let c := set_next b (next c HEAD) c in
  let c := set_prev b HEAD c in
  let o := bc_buf c !!! b in
  let c := set_buf b (mkbuf (flags o) NODEV (sector o) (data o)) c in
  let c := set_prev (next c HEAD) b c in
  set_next HEAD b c.

Definition binit (c : bcache) : bcache :=
  let c := set_lock false c in
  let c := set_prev HEAD HEAD c in
  let c := set_next HEAD HEAD c in
  foldl (fun c b => binit_insert b c) c (seq 0 NBUF).

(** The loops [for(b = head.next; b != &head; b = b->next)] and its mirror:
    follow the links until the head or a buffer that satisfies [p]; [None]
    when [fuel] links were followed without reaching either. *)
Fixpoint scan (link : nat -> nat) (p : nat -> bool) (fuel b : nat) : option (option nat) :=
  match fuel with
  | O => None
  | S f =>
      if Nat.eqb b HEAD then Some None
      else if p b then Some (Some b)
      else scan link p f (link b)
  end.

(** NBUF buffers and the head: enough links for a whole round. *)
Definition scan_fuel : nat := S NBUF.

Definition is_sector (c : bcache) (dv sec : Z) (i : nat) : bool :=
  let b := bc_buf c !!! i in (dev b =? dv) && (sector b =? sec).
Definition is_idle (c : bcache) (i : nat) : bool :=
  let b := bc_buf c !!! i in
  (Z.land (flags b) B_BUSY =? 0) && (Z.land (flags b) B_DIRTY =? 0).

(** bio.c [bget].  A busy hit sleeps on the buffer; when woken the code
    starts again from [loop], that is, it runs [bget] again. *)
Definition bget (dv sec : Z) : M bst nat :=
  acquire_bcache ;;
  c <- gets bc ;;
  match scan (next c) (is_sector c dv sec) scan_fuel (next c HEAD) with
  | None => fault "bget: next links"
  | Some (Some b) =>
      if negb (is_busy (bc_buf c !!! b)) then
        update_buf b (fun o => set_flags (Z.lor (flags o) B_BUSY) o) ;;
        release_bcache ;;
        ret b
      else
        release_bcache ;;
        park (ChBuf b)
  | Some None =>
      match scan (prev c) (is_idle c) scan_fuel (prev c HEAD) with
      | None => fault "bget: prev links"
      | Some (Some b) =>
          update_buf b (fun o => mkbuf B_BUSY dv sec (data o)) ;;
          release_bcache ;;
          ret b
      | Some None => panic "bget: no buffers"
      end
  end.

Section with_device.
Context `{BlockDev}.

(** [iderw(b)] on buffer [i] of the cache. *)
Definition iderw_buf (i : nat) : M bst unit :=
  b <- gets (fun s => buf_of s i) ;;
  b' <- zoom dk put_dk (iderw b) ;;
  update_buf i (fun _ => b').

(** bio.c [bread] *)
Definition bread (dv sec : Z) : M bst nat :=
  b <- bget dv sec ;;
  o <- gets (fun s => buf_of s b) ;;
  when (negb (is_valid o)) (iderw_buf b) ;;
  ret b.

(** bio.c [bwrite] *)
Definition bwrite (b : nat) : M bst unit :=
  o <- gets (fun s => buf_of s b) ;;
  if Z.land (flags o) B_BUSY =? 0 then panic "bwrite"
  else
    update_buf b (fun o => set_flags (Z.lor (flags o) B_DIRTY) o) ;;
    iderw_buf b.
End with_device.

(** The six pointer assignments of [brelse]. *)
Definition relink (b : nat) (c : bcache) : bcache :=
  let c := set_prev (next c b) (prev c b) c in
  let c := set_next (prev c b) (next c b) c in
  let c := set_next b (next c HEAD) c in
  let c := set_prev b HEAD c in
  let c := set_prev (next c HEAD) b c in
  set_next HEAD b c.

(** bio.c [brelse] *)
Definition brelse (b : nat) : M bst unit :=
  o <- gets (fun s => buf_of s b) ;;
  if Z.land (flags o) B_BUSY =? 0 then panic "brelse"
  else
    acquire_bcache ;;
    modify_bc (relink b) ;;
    update_buf b (fun o => set_flags (Z.land (flags o) (Z.lnot B_BUSY)) o) ;;
    wakeup (ChBuf b) ;;
    release_bcache.

(** What clients do with a buffer they hold: read and write [b->data], and
    (log.c) set B_DIRTY. *)
Definition read_data (b : nat) : M bst block := gets (fun s => data (buf_of s b)).
Definition write_data (b : nat) (d : block) : M bst unit := update_buf b (set_data d).

Definition mark_dirty (b : nat) : M bst unit :=
  update_buf b (fun o => set_flags (Z.lor (flags o) B_DIRTY) o).

(** ** The linked list *)

(** Following [nx] from [a] visits [l] and then reaches [z]. *)
Fixpoint chain (nx : list nat) (a : nat) (l : list nat) (z : nat) : Prop :=
  match l with
  | [] => nx !!! a = z
  | x :: l' => nx !!! a = x /\ chain nx x l' z
  end.

(** The links represent the list [order], most recently used first. *)
Record dll (c : bcache) (order : list nat) : Prop := {
  dll_perm : order ≡ₚ seq 0 NBUF;
  dll_len_next : length (bc_next c) = S NBUF;
  dll_len_prev : length (bc_prev c) = S NBUF;
  dll_next : chain (bc_next c) HEAD order HEAD;
  dll_prev : chain (bc_prev c) HEAD (reverse order) HEAD
}.

Lemma chain_app nx a l1 x l2 z :
  chain nx a (l1 ++ x :: l2) z <-> chain nx a l1 x /\ chain nx x l2 z.
Proof. revert a. induction l1 as [|y l1 IH]; intros a; simpl; [done|]. rewrite IH. tauto. Qed.

Lemma chain_insert_out nx a l z i v :
  i <> a -> i ∉ l -> chain (<[i := v]> nx) a l z <-> chain nx a l z.
Proof.
  revert a. induction l as [|x l IH]; intros a Ha Hl; simpl.
  - by rewrite list_lookup_total_insert_ne.
  - rewrite not_elem_of_cons in Hl. destruct Hl.
    rewrite list_lookup_total_insert_ne by done. rewrite IH by done. done.
Qed.

(** Redirecting the last link of a chain. *)
Lemma chain_set_last nx a l z z' :
  NoDup (a :: l) -> Forall (fun i => i < length nx)%nat (a :: l) ->
  chain nx a l z -> chain (<[default a (last l) := z']> nx) a l z'.
Proof.
  revert a. induction l as [|x l IH]; intros a Hnd Hb Hc; simpl in *.
  - apply list_lookup_total_insert_eq. by inversion Hb.
  - destruct Hc as [Hx Hc]. apply NoDup_cons in Hnd as [Hni Hnd].
    apply Forall_cons in Hb as [Hba Hb].
    assert (default a (last (x :: l)) = default x (last l)) as ->.
    { destruct l; [done|]. simpl. by destruct (last _) eqn:E; [|apply last_None in E]. }
    split; [|by apply IH].
    rewrite list_lookup_total_insert_ne; [done|].
    intros <-. apply Hni. destruct (last l) eqn:E; simpl; [|by left].
    right. apply last_Some_elem_of in E. done.
Qed.

Lemma chain_first nx a l z : chain nx a l z -> nx !!! a = default z (head l).
Proof. by destruct l; simpl; [|intros []]. Qed.

(** Taking [b] out of the list and putting it at either end. *)
Lemma chain_unlink nx h l1 b l2 z :
  NoDup (h :: l1 ++ b :: l2) -> Forall (fun i => i < length nx)%nat (h :: l1) ->
  chain nx h (l1 ++ b :: l2) z ->
  chain (<[default h (last l1) := nx !!! b]> nx) h (l1 ++ l2) z.
Proof.
  intros Hnd Hb Hc. apply chain_app in Hc as [Hc1 Hc2].
  rewrite app_comm_cons in Hnd. apply NoDup_app in Hnd as (Hnd1 & Hdis & Hnd2).
  assert (default h (last l1) ∈ h :: l1) as Hin.
  { destruct (last l1) eqn:E; simpl; [|by left]. right. by apply last_Some_elem_of. }
  pose proof (Hdis _ Hin) as Hout. rewrite not_elem_of_cons in Hout. destruct Hout as [Hob Hol2].
  destruct l2 as [|x l2].
  - rewrite app_nil_r. simpl in Hc2. rewrite Hc2. by eapply chain_set_last.
  - destruct Hc2 as [Hx Hc2]. rewrite Hx. apply chain_app. split; [by eapply chain_set_last|].
    rewrite not_elem_of_cons in Hol2. destruct Hol2. by apply chain_insert_out.
Qed.

Lemma chain_push_front nx h l b z :
  b <> h -> b ∉ l -> h ∉ l -> (b < length nx)%nat -> (h < length nx)%nat ->
  chain nx h l z -> chain (<[h := b]> (<[b := nx !!! h]> nx)) h (b :: l) z.
Proof.
  intros Hbh Hbl Hhl Hb Hh Hc. simpl. split.
  - apply list_lookup_total_insert_eq. by rewrite length_insert.
  - destruct l as [|x l]; simpl in *.
    + rewrite list_lookup_total_insert_ne by done. by rewrite list_lookup_total_insert_eq.
    + destruct Hc as [Hx Hc]. rewrite not_elem_of_cons in Hbl, Hhl. destruct Hbl, Hhl.
      rewrite list_lookup_total_insert_ne by done.
      rewrite list_lookup_total_insert_eq by done. split; [done|].
      rewrite !chain_insert_out; done.
Qed.

Lemma chain_push_back nx h l b z :
  b <> h -> b ∉ l -> NoDup (h :: l) -> (b < length nx)%nat ->
  Forall (fun i => i < length nx)%nat (h :: l) ->
  chain nx h l z -> chain (<[default h (last l) := b]> (<[b := z]> nx)) h (l ++ [b]) z.
Proof.
  intros Hbh Hbl Hnd Hb Hall Hc. apply chain_app. split.
  - apply chain_set_last with z; [done|by rewrite length_insert|].
    by apply chain_insert_out.
  - simpl. rewrite list_lookup_total_insert_ne.
    + by apply list_lookup_total_insert_eq.
    + destruct (last l) eqn:E; simpl; [|done]. apply last_Some_elem_of in E. by intros ->.
Qed.

(** The scan loops search the list the links represent. *)
Lemma scan_chain nx p l a fuel :
  chain nx a l HEAD -> HEAD ∉ l -> (length l < fuel)%nat ->
  scan (fun i => nx !!! i) p fuel (nx !!! a) = Some (List.find p l).
Proof.
  revert a fuel. induction l as [|x l IH]; intros a fuel Hc Hh Hf;
    (destruct fuel as [|fuel]; [simpl in Hf; lia|]); simpl in *.
  - by rewrite Hc.
  - destruct Hc as [-> Hc]. rewrite not_elem_of_cons in Hh. destruct Hh as [Hx Hh].
    destruct (Nat.eqb_spec x HEAD); [done|]. destruct (p x); [done|].
    apply IH; [done|done|lia].
Qed.

Section dll_facts.
Context (c : bcache) (order : list nat) (Hd : dll c order).

Lemma dll_nodup : NoDup order.
Proof. rewrite (dll_perm _ _ Hd). apply NoDup_seq. Qed.

Lemma dll_elem i : i ∈ order <-> (i < NBUF)%nat.
Proof. rewrite (dll_perm _ _ Hd), elem_of_seq. lia. Qed.

Lemma dll_head : HEAD ∉ order.
Proof. rewrite dll_elem. unfold HEAD. lia. Qed.

Lemma dll_length : length order = NBUF.
Proof. rewrite (dll_perm _ _ Hd). apply length_seq. Qed.

Lemma dll_bounds (nx : list nat) l : length nx = S NBUF -> l ⊆ HEAD :: order ->
  Forall (fun i => i < length nx)%nat l.
Proof.
  intros Hl Hs. apply Forall_forall. intros i Hi. apply Hs in Hi.
  rewrite elem_of_cons, dll_elem in Hi. unfold HEAD in Hi. lia.
Qed.

Lemma scan_next p : scan (next c) p scan_fuel (next c HEAD) = Some (List.find p order).
Proof.
  apply (scan_chain (bc_next c)); [apply (dll_next _ _ Hd)|apply dll_head|].
  rewrite dll_length. unfold scan_fuel. lia.
Qed.

Lemma scan_prev p : scan (prev c) p scan_fuel (prev c HEAD) = Some (List.find p (reverse order)).
Proof.
  apply (scan_chain (bc_prev c)); [apply (dll_prev _ _ Hd)| |].
  - rewrite elem_of_reverse. apply dll_head.
  - rewrite length_reverse, dll_length. unfold scan_fuel. lia.
Qed.
End dll_facts.

(** [brelse] moves its buffer to the front of the list. *)
Lemma relink_links c b :
  (next c b <> b) -> (b <> HEAD) -> (b < length (bc_prev c))%nat ->
  let nx := <[prev c b := next c b]> (bc_next c) in
  let pv := <[next c b := prev c b]> (bc_prev c) in
  bc_next (relink b c) = <[HEAD := b]> (<[b := nx !!! HEAD]> nx) /\
  bc_prev (relink b c) = <[nx !!! HEAD := b]> (<[b := HEAD]> pv).
Proof.
  intros Hnb Hbh Hlen. unfold relink, set_prev, set_next, next, prev in *. simpl.
  rewrite (list_lookup_total_insert_ne _ (bc_next c !!! b) b) by done.
  by rewrite (list_lookup_total_insert_ne _ b HEAD) by done.
Qed.

Lemma relink_dll c l1 b l2 :
  dll c (l1 ++ b :: l2) -> dll (relink b c) (b :: l1 ++ l2).
Proof.
  intros Hd. pose proof (dll_nodup _ _ Hd) as Hnd. pose proof (dll_head _ _ Hd) as Hh.
  assert (b < NBUF)%nat as Hb by (apply (dll_elem _ _ Hd); set_solver).
  pose proof (dll_bounds _ _ Hd) as Hbd.
  destruct Hd as [Hp Hln Hlp Hn Hv].
  assert (reverse l2 ++ b :: reverse l1 = reverse (l1 ++ b :: l2)) as Hrev.
  { by rewrite reverse_app, reverse_cons, <- app_assoc. }
  rewrite <- Hrev in Hv.
  assert (b <> HEAD) as HbH by (unfold HEAD; lia).
  assert (b ∉ l1 ++ l2) as Hbl.
  { apply NoDup_app in Hnd as (_ & H1 & H2). apply NoDup_cons in H2 as [H2 _]. set_solver. }
  assert (next c b = default HEAD (head l2)) as Hnb.
  { apply chain_app in Hn as [_ Hn]. apply (chain_first _ _ _ _ Hn). }
  assert (prev c b = default HEAD (last l1)) as Hpb.
  { apply chain_app in Hv as [_ Hv]. unfold prev. rewrite (chain_first _ _ _ _ Hv).
    by rewrite head_reverse. }
  assert (next c b <> b) as Hnbb.
  { rewrite Hnb. destruct l2 as [|x l2]; simpl; [done|]. set_solver. }
  apply (chain_unlink _ _ l1 b l2) in Hn; [|by constructor|apply Hbd; set_solver].
  apply (chain_unlink _ _ (reverse l2) b (reverse l1)) in Hv;
    [|rewrite Hrev; constructor; [set_solver|by apply NoDup_reverse]|apply Hbd; set_solver].
  rewrite last_reverse in Hv. fold (prev c b) in Hv. fold (next c b) in Hn.
  rewrite <- Hnb in Hv. rewrite <- Hpb in Hn. rewrite <- reverse_app in Hv.
  destruct (relink_links c b) as [En Ev]; [done|done|lia|].
  assert (NoDup (HEAD :: l1 ++ l2)) as HndH.
  { constructor; [set_solver|]. rewrite <- Permutation_middle in Hnd. by inversion Hnd. }
  split.
  - rewrite <- Hp. by rewrite Permutation_middle.
  - rewrite En. by rewrite !length_insert.
  - rewrite Ev. by rewrite !length_insert.
  - rewrite En. apply chain_push_front; rewrite ?length_insert; try done; try (unfold HEAD; lia).
    by inversion HndH.
  - rewrite Ev, reverse_cons, (chain_first _ _ _ _ Hn), <- last_reverse.
    apply chain_push_back; rewrite ?length_insert; try done; try lia.
    + set_solver.
    + inversion HndH. constructor; [set_solver|]. by apply NoDup_reverse.
    + apply Hbd; set_solver.
Qed.

(** ** The abstract cache

    [brep s v D B]: the cache state [s] holds contents [v] (a value for every
    block: the cached copy, or the disk where there is none), [D] is the set of
    blocks modified and not yet on disk, [B] the set of blocks held by a
    caller. *)
Abbreviation bufs s := (bc_buf (bc s)).

Record brep (s : bst) (v : key -> block) (D B : gset (Z * Z)) : Prop := {
  br_len : length (bufs s) = NBUF;
  br_order : exists order, dll (bc s) order;
  br_lock : bc_lock (bc s) = false;
  br_uniq i j bi bj : bufs s !! i = Some bi -> bufs s !! j = Some bj ->
    bkey bi = bkey bj -> dev bi <> NODEV -> i = j;
  br_fresh i b : bufs s !! i = Some b -> dev b = NODEV ->
    is_busy b = false /\ is_dirty b = false;
  br_valid i b : bufs s !! i = Some b -> dev b <> NODEV ->
    is_valid b = true /\ data b = v (bkey b);
  br_data i b : bufs s !! i = Some b -> length (data b) = 512%nat;
  br_clean k : k ∉ D -> k ∉ B -> v k = disk_get (dk s) k;
  br_dirty k : k ∈ D <-> exists i b, bufs s !! i = Some b /\ bkey b = k /\ is_dirty b = true;
  br_busy k : k ∈ B <-> exists i b, bufs s !! i = Some b /\ bkey b = k /\ is_busy b = true;
  br_vok k : block_ok (v k);
  br_disk : disk_ok (dk s)
}.

(** Buffer [i] is held by the caller and caches block [k]. *)
Definition holds (s : bst) (i : nat) (k : key) : Prop :=
  exists b, bufs s !! i = Some b /\ bkey b = k /\ is_busy b = true.

Definition upd (v : key -> block) (k : key) (b : block) : key -> block :=
  fun k' => if decide (k' = k) then b else v k'.

Lemma upd_same v k b : upd v k b k = b.
Proof. unfold upd. by case_decide. Qed.

Lemma upd_ne v k k' b : k' <> k -> upd v k b k' = v k'.
Proof. intros. unfold upd. by case_decide. Qed.

(** Replacing one buffer of the array. *)
Lemma brep_update s v D B s' v' D' B' i b b' :
  brep s v D B ->
  bufs s !! i = Some b ->
  bufs s' = <[i := b']> (bufs s) ->
  (exists order, dll (bc s') order) -> bc_lock (bc s') = false ->
  (bkey b = bkey b' \/ (is_busy b = false /\ is_dirty b = false)) ->
  (forall j bj, j <> i -> bufs s !! j = Some bj -> bkey bj <> bkey b') ->
  dev b' <> NODEV -> is_valid b' = true -> data b' = v' (bkey b') ->
  (forall k, k <> bkey b' -> v' k = v k) ->
  (forall k, k ∈ D' <-> (k = bkey b' /\ is_dirty b' = true) \/ (k <> bkey b' /\ k ∈ D)) ->
  (forall k, k ∈ B' <-> (k = bkey b' /\ is_busy b' = true) \/ (k <> bkey b' /\ k ∈ B)) ->
  (forall k, k ∉ D' -> k ∉ B' -> v' k = disk_get (dk s') k) ->
  block_ok (v' (bkey b')) -> disk_ok (dk s') ->
  brep s' v' D' B'.
Proof.
  intros R Hi Hs' Hord Hlk Hold Hkey Hdev Hval Hdat Hv HD HB Hcl Hok Hdk.
  assert (i < length (bufs s))%nat as Hlt by by apply lookup_lt_Some in Hi.
  assert (forall j bj, bufs s' !! j = Some bj ->
            (j = i /\ bj = b') \/ (j <> i /\ bufs s !! j = Some bj)) as Hlk'.
  { intros j bj. rewrite Hs'. destruct (decide (j = i)) as [->|Hne].
    - rewrite list_lookup_insert_eq by done. naive_solver.
    - rewrite list_lookup_insert_ne by done. naive_solver. }
  assert (bufs s' !! i = Some b') as Hi' by (rewrite Hs'; by apply list_lookup_insert_eq).
  assert (forall j bj, j <> i -> bufs s !! j = Some bj -> bufs s' !! j = Some bj) as Hj'.
  { intros j bj Hne Hj. rewrite Hs'. by rewrite list_lookup_insert_ne. }
  split; try done.
  - rewrite Hs', length_insert. apply (br_len _ _ _ _ R).
  - intros j1 j2 b1 b2 H1 H2 Heq Hd. apply Hlk' in H1, H2.
    destruct H1 as [[-> ->]|[? H1]], H2 as [[-> ->]|[? H2]]; [done| | |by eapply (br_uniq _ _ _ _ R)].
    + exfalso. by eapply Hkey.
    + exfalso. by eapply Hkey.
  - intros j bj H1 Hd. apply Hlk' in H1 as [[-> ->]|[? H1]]; [done|by eapply (br_fresh _ _ _ _ R)].
  - intros j bj H1 Hd. apply Hlk' in H1 as [[-> ->]|[? H1]]; [done|].
    rewrite Hv by (by eapply Hkey). by eapply (br_valid _ _ _ _ R).
  - intros j bj H1. apply Hlk' in H1 as [[-> ->]|[? H1]]; [|by eapply (br_data _ _ _ _ R)].
    rewrite Hdat. apply Hok.
  - intros k. rewrite HD, (br_dirty _ _ _ _ R). split.
    + intros [[-> ?]|(Hne & j & bj & Hj & <- & Hdj)]; [by exists i, b'|].
      destruct (decide (j = i)) as [->|]; [|exists j, bj; eauto].
      simplify_eq. destruct Hold as [|[? ?]]; congruence.
    + intros (j & bj & Hj & <- & Hdj). apply Hlk' in Hj as [[-> ->]|[? Hj]]; [by left|].
      right. split; [by eapply Hkey|]. by exists j, bj.
  - intros k. rewrite HB, (br_busy _ _ _ _ R). split.
    + intros [[-> ?]|(Hne & j & bj & Hj & <- & Hdj)]; [by exists i, b'|].
      destruct (decide (j = i)) as [->|]; [|exists j, bj; eauto].
      simplify_eq. destruct Hold as [|[? ?]]; congruence.
    + intros (j & bj & Hj & <- & Hdj). apply Hlk' in Hj as [[-> ->]|[? Hj]]; [by left|].
      right. split; [by eapply Hkey|]. by exists j, bj.
  - intros k. destruct (decide (k = bkey b')) as [->|]; [done|]. rewrite Hv by done. apply (br_vok _ _ _ _ R).
Qed.

(** The same with the block kept: a flag or data change of the buffer. *)
Lemma brep_update_same s v D B s' v' D' B' i b b' :
  brep s v D B ->
  bufs s !! i = Some b -> dev b <> NODEV ->
  bufs s' = <[i := b']> (bufs s) ->
  (exists order, dll (bc s') order) -> bc_lock (bc s') = false ->
  bkey b' = bkey b -> is_valid b' = true -> data b' = v' (bkey b) ->
  (forall k, k <> bkey b -> v' k = v k) ->
  (forall k, k ∈ D' <-> (k = bkey b /\ is_dirty b' = true) \/ (k <> bkey b /\ k ∈ D)) ->
  (forall k, k ∈ B' <-> (k = bkey b /\ is_busy b' = true) \/ (k <> bkey b /\ k ∈ B)) ->
  (forall k, k ∉ D' -> k ∉ B' -> v' k = disk_get (dk s') k) ->
  block_ok (v' (bkey b)) -> disk_ok (dk s') ->
  brep s' v' D' B'.
Proof.
  intros R Hi Hdev Hs' Hord Hlk Hk. rewrite <- Hk. intros.
  eapply (brep_update s v D B s' v' D' B' i b b'); try done; [by left| |].
  - intros j bj Hne Hj Heq. apply Hne. symmetry. eapply (br_uniq _ _ _ _ R); eauto. congruence.
  - intros E. apply Hdev. by inversion Hk; subst; rewrite <- E.
Qed.

(** ** [bget] on the list *)

(** What [bget] does, said of the list in LRU order: the first buffer for the
    block, or else the last idle one, the least recently used. *)
Definition bget_list (order : list nat) (dv sec : Z) (s : bst) : res bst nat :=
  match List.find (is_sector (bc s) dv sec) order with
  | Some b =>
      if is_busy (buf_of s b) then Sleep (ChBuf b) s
      else Ret b (put_bc (set_buf b (set_flags (Z.lor (flags (buf_of s b)) B_BUSY) (buf_of s b)) (bc s)) s)
  | None =>
      match List.find (is_idle (bc s)) (reverse order) with
      | Some b => Ret b (put_bc (set_buf b (mkbuf B_BUSY dv sec (data (buf_of s b))) (bc s)) s)
      | None => Panic "bget: no buffers" (put_bc (set_lock true (bc s)) s)
      end
  end.

Lemma bget_on_list s order dv sec :
  dll (bc s) order -> bc_lock (bc s) = false ->
  bget dv sec s = bget_list order dv sec s.
Proof.
  intros Hd Hl.
  assert (dll (set_lock true (bc s)) order) as Hd' by (destruct Hd; by split).
  unfold bget, acquire_bcache, bind, gets. rewrite Hl. unfold modify_bc, modify.
  cbn [bc put_bc]. rewrite (scan_next _ _ Hd'), (scan_prev _ _ Hd').
  destruct s as [[l bs nx pv] d w]. simpl in Hl. subst l. unfold bget_list, buf_of. simpl.
  change (is_sector (set_lock true (mkbcache false bs nx pv))) with (is_sector (mkbcache false bs nx pv)).
  change (is_idle (set_lock true (mkbcache false bs nx pv))) with (is_idle (mkbcache false bs nx pv)).
  destruct (List.find _ order) as [b|].
  - destruct (is_busy (bs !!! b)) eqn:E; [done|]. done.
  - by destruct (List.find _ (reverse order)).
Qed.

Lemma is_idle_spec c i :
  is_idle c i = negb (is_busy (bc_buf c !!! i)) && negb (is_dirty (bc_buf c !!! i)).
Proof. unfold is_idle, is_busy, is_dirty, testf. by rewrite !negb_involutive. Qed.

Lemma is_sector_spec c dv sec i :
  is_sector c dv sec i = true <-> bkey (bc_buf c !!! i) = (dv, sec).
Proof.
  unfold is_sector, bkey. rewrite andb_true_iff, !Z.eqb_eq. split; [intros [-> ->]; done|].
  intros E. by inversion E.
Qed.

Section brep_facts.
Context (s : bst) (v : key -> block) (D B : gset (Z * Z)) (R : brep s v D B).

Lemma brep_lookup i : (i < NBUF)%nat -> bufs s !! i = Some (buf_of s i).
Proof.
  intros Hi. destruct (lookup_lt_is_Some_2 (bufs s) i) as [b Hb].
  { by rewrite (br_len _ _ _ _ R). }
  unfold buf_of. by rewrite (list_lookup_total_correct _ _ _ Hb).
Qed.

Lemma brep_lt i b : bufs s !! i = Some b -> (i < NBUF)%nat.
Proof. intros Hi. apply lookup_lt_Some in Hi. by rewrite (br_len _ _ _ _ R) in Hi. Qed.

Lemma brep_busy_dev i b : bufs s !! i = Some b -> is_busy b = true -> dev b <> NODEV.
Proof. intros Hi Hb E. destruct (br_fresh _ _ _ _ R _ _ Hi E). congruence. Qed.

Lemma holds_data i k : holds s i k ->
  exists b, bufs s !! i = Some b /\ buf_of s i = b /\ bkey b = k /\ is_busy b = true /\
    is_valid b = true /\ dev b <> NODEV /\ data b = v k.
Proof.
  intros (b & Hb & <- & Hbusy). pose proof (brep_busy_dev _ _ Hb Hbusy) as Hdev.
  destruct (br_valid _ _ _ _ R _ _ Hb Hdev). exists b.
  unfold buf_of. rewrite (list_lookup_total_correct _ _ _ Hb). done.
Qed.

Lemma holds_busy i k : holds s i k -> k ∈ B.
Proof. intros (b & ? & ? & ?). apply (br_busy _ _ _ _ R). eauto. Qed.

Lemma holds_inj i j k : holds s i k -> holds s j k -> i = j.
Proof.
  intros (b & Hb & <- & Hbusy) (b' & Hb' & E & _).
  eapply (br_uniq _ _ _ _ R); eauto using brep_busy_dev.
Qed.

(** The dirty or held status of one block in terms of its buffer. *)
Lemma dirty_iff i b c : bufs s !! i = Some b -> dev b <> NODEV -> is_dirty b = c ->
  forall k, k ∈ D <-> (k = bkey b /\ c = true) \/ (k <> bkey b /\ k ∈ D).
Proof.
  intros Hb Hdev <- k. rewrite (br_dirty _ _ _ _ R). split.
  - intros (j & bj & Hj & <- & Hdj). destruct (decide (bkey bj = bkey b)) as [E|]; [|by eauto 8].
    assert (j = i) as -> by (eapply (br_uniq _ _ _ _ R); eauto; by inversion E; congruence).
    left. by assert (bj = b) as -> by congruence.
  - intros [[-> ?]|[_ ?]]; [|done]. by exists i, b.
Qed.

Lemma busy_iff k0 c : k0 ∈ B -> c = true ->
  forall k, k ∈ B <-> (k = k0 /\ c = true) \/ (k <> k0 /\ k ∈ B).
Proof. intros H0 -> k. destruct (decide (k = k0)) as [->|]; tauto. Qed.

(** While fewer than NBUF blocks are dirty or held, some buffer is idle. *)
Lemma brep_idle : (size (D ∪ B) < NBUF)%nat ->
  exists i, (i < NBUF)%nat /\ is_idle (bc s) i = true.
Proof.
  intros Hsz. destruct (decide (Exists (fun i => is_idle (bc s) i = true) (seq 0 NBUF))) as [HE|HN].
  { apply Exists_exists in HE as (i & Hi & ?). apply elem_of_seq in Hi. exists i. split; [lia|done]. }
  exfalso. apply not_Exists_Forall in HN; [|apply _]. rewrite Forall_forall in HN.
  assert (forall i b, bufs s !! i = Some b -> dev b <> NODEV /\ bkey b ∈ D ∪ B) as Hpin.
  { intros i b Hb. pose proof (brep_lt _ _ Hb) as Hlt.
    assert (is_idle (bc s) i <> true) as Hn by (apply HN, elem_of_seq; lia).
    rewrite is_idle_spec in Hn. pose proof (brep_lookup _ Hlt) as Hb'. unfold buf_of in Hb'.
    rewrite Hb in Hb'. injection Hb' as E. rewrite <- E in Hn. clear E.
    assert (is_busy b = true \/ is_dirty b = true) as Hbd.
    { destruct (is_busy b), (is_dirty b); simpl in Hn; auto. }
    split.
    - intros E. destruct (br_fresh _ _ _ _ R _ _ Hb E). destruct Hbd; congruence.
    - rewrite elem_of_union, (br_dirty _ _ _ _ R), (br_busy _ _ _ _ R). destruct Hbd; eauto 7. }
  assert (NoDup (bkey <$> bufs s)) as Hnd.
  { apply NoDup_fmap_2_strong; [|].
    - intros b1 b2 H1 H2 E. apply list_elem_of_lookup in H1 as [i Hi], H2 as [j Hj].
      assert (i = j) as -> by (eapply (br_uniq _ _ _ _ R); eauto; by apply (Hpin i)).
      congruence.
    - apply NoDup_alt. intros i j b Hi Hj. eapply (br_uniq _ _ _ _ R); eauto. by apply (Hpin i). }
  assert (list_to_set (bkey <$> bufs s) ⊆ D ∪ B) as Hsub.
  { intros k Hk. apply elem_of_list_to_set, list_elem_of_fmap in Hk as (b & -> & Hb).
    apply list_elem_of_lookup in Hb as [i Hi]. by apply (Hpin i). }
  apply subseteq_size in Hsub. rewrite size_list_to_set, length_fmap, (br_len _ _ _ _ R) in Hsub by done.
  lia.
Qed.
End brep_facts.

(** ** The cache implements its contract *)

Lemma find_is_sector s v D B order dv sec :
  brep s v D B -> dll (bc s) order ->
  match List.find (is_sector (bc s) dv sec) order with
  | Some i => bufs s !! i = Some (buf_of s i) /\ bkey (buf_of s i) = (dv, sec)
  | None => forall i b, bufs s !! i = Some b -> bkey b <> (dv, sec)
  end.
Proof.
  intros R Hd. destruct (List.find _ _) as [i|] eqn:E.
  - apply List.find_some in E as [Hi Hs]. apply list_elem_of_In, (dll_elem _ _ Hd) in Hi.
    split; [by eapply brep_lookup|]. by apply is_sector_spec in Hs.
  - intros i b Hb Hk. pose proof (brep_lt _ _ _ _ R _ _ Hb) as Hi.
    apply (dll_elem _ _ Hd), list_elem_of_In in Hi. pose proof (List.find_none _ _ E i Hi) as Hf.
    apply not_true_iff_false in Hf. apply Hf, is_sector_spec.
    by rewrite (list_lookup_total_correct _ _ _ Hb).
Qed.

Lemma find_is_idle s v D B order :
  brep s v D B -> dll (bc s) order -> (size (D ∪ B) < NBUF)%nat ->
  exists i, List.find (is_idle (bc s)) (reverse order) = Some i /\
    bufs s !! i = Some (buf_of s i) /\
    is_busy (buf_of s i) = false /\ is_dirty (buf_of s i) = false.
Proof.
  intros R Hd Hsz. destruct (List.find _ _) as [i|] eqn:E.
  - apply List.find_some in E as [Hi Hs].
    apply list_elem_of_In, elem_of_reverse, (dll_elem _ _ Hd) in Hi.
    rewrite is_idle_spec, andb_true_iff, !negb_true_iff in Hs. destruct Hs.
    exists i. split_and!; try done. by eapply brep_lookup.
  - destruct (brep_idle _ _ _ _ R Hsz) as (i & Hi & Hid).
    apply (dll_elem _ _ Hd), elem_of_reverse, list_elem_of_In in Hi.
    pose proof (List.find_none _ _ E i Hi). congruence.
Qed.

Lemma busy_test b : is_busy b = true -> (Z.land (flags b) B_BUSY =? 0) = false.
Proof. unfold is_busy, testf. by destruct (_ =? 0). Qed.

(** Bookkeeping of handles across an update of another buffer. *)
Lemma holds_frame s s' i b' :
  bufs s' = <[i := b']> (bufs s) ->
  forall j k, j <> i -> holds s j k -> holds s' j k.
Proof.
  intros Hs j k Hne (b & Hb & ? & ?). exists b. rewrite Hs.
  by rewrite list_lookup_insert_ne.
Qed.

Lemma holds_new s s' i b b' k :
  bufs s !! i = Some b -> bufs s' = <[i := b']> (bufs s) ->
  bkey b' = k -> is_busy b' = true -> holds s' i k.
Proof.
  intros Hb Hs Hk Hbusy. exists b'. rewrite Hs.
  rewrite list_lookup_insert_eq by (by eapply lookup_lt_Some). done.
Qed.

Ltac flag_simpl :=
  unfold is_busy, is_valid, is_dirty in *; simpl;
  rewrite ?testf_lor, ?testf_clear_same, ?testf_clear_other by done.

Section specs.
Context `{BlockDev}.

Lemma bread_spec s v D B dv sec :
  brep s v D B -> dv <> NODEV -> (dv, sec) ∉ B ->
  ((dv, sec) ∈ D \/ (size (D ∪ B) < NBUF)%nat) -> on_device (dv, sec) ->
  wp (bread dv sec) s (fun i s' =>
    brep s' v D ({[(dv, sec)]} ∪ B) /\ holds s' i (dv, sec) /\
    (forall j k, holds s j k -> holds s' j k) /\ dk s' = dk s /\ woken s' = woken s).
Proof.
  intros R Hdv HkB Hroom Hon. destruct (br_order _ _ _ _ R) as [order Hd].
  pose proof (br_lock _ _ _ _ R) as Hl.
  unfold bread. apply wp_bind. unfold wp at 1. rewrite (bget_on_list _ _ _ _ Hd Hl).
  unfold bget_list. pose proof (find_is_sector _ _ _ _ _ dv sec R Hd) as Hf.
  destruct (List.find _ order) as [i|].
  - (* cached *)
    destruct Hf as [Hi Hk]. set (b := buf_of s i) in *.
    assert (dev b <> NODEV) as Hdev by (inversion Hk; congruence).
    destruct (br_valid _ _ _ _ R _ _ Hi Hdev) as [Hval Hdat].
    destruct (is_busy b) eqn:Hb.
    { exfalso. apply HkB, (br_busy _ _ _ _ R). eauto. }
    set (b' := set_flags _ b). set (s' := put_bc _ s).
    assert (bufs s' = <[i := b']> (bufs s)) as Hs' by done.
    assert (is_busy b' = true) as Hb' by (subst b'; flag_simpl; by rewrite orb_true_r).
    assert (is_valid b' = true) as Hv' by (subst b'; flag_simpl; by rewrite Hval).
    assert (is_dirty b' = is_dirty b) as Hd' by (subst b'; flag_simpl; by rewrite orb_false_r).
    apply wp_bind, wp_gets. unfold when.
    assert (buf_of s' i = b') as ->.
    { unfold buf_of. rewrite Hs'. apply list_lookup_total_insert_eq. by eapply lookup_lt_Some. }
    rewrite Hv'. simpl. apply wp_bind, wp_ret, wp_ret.
    split_and!; try done.
    + apply (brep_update_same s v D B s' v D ({[(dv, sec)]} ∪ B) i b b'); try done.
      * by exists order; destruct Hd; split.
      * by apply (dirty_iff _ _ _ _ R i).
      * intros k. rewrite Hk, elem_of_union, elem_of_singleton.
        destruct (decide (k = (dv, sec))) as [->|]; [by split; auto|]. naive_solver.
      * intros k HD HB. apply (br_clean _ _ _ _ R); set_solver.
      * apply (br_vok _ _ _ _ R).
      * apply (br_disk _ _ _ _ R).
    + eapply holds_new; done.
    + intros j k Hj. eapply holds_frame; [done| |done].
      intros ->. destruct Hj as (? & Hj & _ & ?). congruence.
  - (* recycle *)
    assert ((dv, sec) ∉ D) as HkD.
    { intros (i & b & Hb & Hk & _)%(br_dirty _ _ _ _ R). by apply (Hf i b). }
    destruct Hroom as [|Hroom]; [done|].
    destruct (find_is_idle _ _ _ _ _ R Hd Hroom) as (i & -> & Hi & Hb & Hdr).
    set (b := buf_of s i) in *. set (b1 := mkbuf B_BUSY dv sec (data b)). set (s1 := put_bc _ s).
    assert (buf_of s1 i = b1) as Hb1.
    { apply list_lookup_total_insert_eq. by eapply lookup_lt_Some. }
    apply wp_bind, wp_gets. rewrite Hb1. simpl. apply wp_bind.
    unfold iderw_buf. apply wp_bind, wp_gets. rewrite Hb1. apply wp_bind, wp_zoom.
    destruct (iderw_read b1 (dk s1)) as (b' & Hrw & Hdat & Hk & Hb' & Hv' & Hd'); try done.
    { apply (br_data _ _ _ _ R _ _ Hi). }
    { apply (br_disk _ _ _ _ R). }
    eapply wp_of_eq; [exact Hrw|]. apply wp_modify, wp_ret.
    set (s' := put_bc _ _).
    assert (bufs s' = <[i := b']> (bufs s)) as Hs'.
    { subst s' s1. simpl. by rewrite list_insert_insert_eq. }
    change (bkey b1) with (dv, sec) in *.
    split_and!; try done.
    + apply (brep_update s v D B s' v D ({[(dv, sec)]} ∪ B) i b b'); rewrite ?Hk; try done.
      * by exists order; destruct Hd; split.
      * by right.
      * intros j bj _. apply Hf.
      * inversion Hk. congruence.
      * rewrite Hdat. symmetry. by apply (br_clean _ _ _ _ R).
      * intros k. rewrite Hd'. naive_solver.
      * intros k. rewrite elem_of_union, elem_of_singleton, Hb'. naive_solver.
      * intros k HD HB. apply (br_clean _ _ _ _ R); set_solver.
      * apply (br_vok _ _ _ _ R).
      * apply (br_disk _ _ _ _ R).
    + eapply holds_new; done.
    + intros j k Hj. eapply holds_frame; [done| |done].
      intros ->. destruct Hj as (? & Hj & _ & ?). congruence.
Qed.

Lemma read_data_spec s v D B i k (Q : block -> bst -> Prop) :
  brep s v D B -> holds s i k -> Q (v k) s -> wp (read_data i) s Q.
Proof.
  intros R Hh HQ. destruct (holds_data _ _ _ _ R _ _ Hh) as (b & _ & Hb & _ & _ & _ & _ & Hd).
  unfold read_data. apply wp_gets. by rewrite Hb, Hd.
Qed.

(** Changing flags or data of a held buffer keeps every handle. *)
Lemma holds_keep s s' i k b' :
  holds s i k -> bufs s' = <[i := b']> (bufs s) -> bkey b' = k -> is_busy b' = true ->
  forall j k', holds s j k' -> holds s' j k'.
Proof.
  intros (b & Hb & Hk & ?) Hs Hk' Hbusy j k' Hj. destruct (decide (j = i)) as [->|Hne].
  - destruct Hj as (b2 & Hb2 & <- & _). assert (b2 = b) as -> by congruence.
    rewrite Hk. by eapply (holds_new s s' i b).
  - by eapply holds_frame.
Qed.

Lemma write_data_spec s v D B i k d :
  brep s v D B -> holds s i k -> block_ok d ->
  wp (write_data i d) s (fun _ s' =>
    brep s' (upd v k d) D B /\ (forall j k', holds s j k' -> holds s' j k') /\
    dk s' = dk s /\ woken s' = woken s).
Proof.
  intros R Hh Hd. destruct (holds_data _ _ _ _ R _ _ Hh) as (b & Hb & Hbo & Hk & Hbusy & Hval & Hdev & Hdat).
  apply wp_modify. rewrite Hbo. set (s' := put_bc _ s).
  split_and!; try done.
  - eapply (brep_update_same s v D B s' _ D B i b (set_data d b)); try done.
    + destruct (br_order _ _ _ _ R) as [o []]. by exists o; split.
    + apply (br_lock _ _ _ _ R).
    + by rewrite Hk, upd_same.
    + intros k' Hne. rewrite upd_ne; congruence.
    + by apply (dirty_iff _ _ _ _ R i).
    + apply busy_iff; [|done]. rewrite Hk. by eapply holds_busy.
    + intros k' HD HB. rewrite upd_ne; [by apply (br_clean _ _ _ _ R)|].
      intros ->. by apply HB, (holds_busy _ _ _ _ R _ _ Hh).
    + by rewrite Hk, upd_same.
    + apply (br_disk _ _ _ _ R).
  - by eapply holds_keep.
Qed.

Lemma mark_dirty_spec s v D B i k :
  brep s v D B -> holds s i k ->
  wp (mark_dirty i) s (fun _ s' =>
    brep s' v ({[k]} ∪ D) B /\ (forall j k', holds s j k' -> holds s' j k') /\
    dk s' = dk s /\ woken s' = woken s).
Proof.
  intros R Hh. destruct (holds_data _ _ _ _ R _ _ Hh) as (b & Hb & Hbo & Hk & Hbusy & Hval & Hdev & Hdat).
  apply wp_modify. rewrite Hbo. set (b' := set_flags _ b). set (s' := put_bc _ s).
  assert (is_busy b' = true /\ is_valid b' = true /\ is_dirty b' = true) as (Hb' & Hv' & Hd').
  { subst b'. flag_simpl. by rewrite Hbusy, Hval, orb_true_r. }
  split_and!; try done.
  - eapply (brep_update_same s v D B s' v _ B i b b'); try done.
    + destruct (br_order _ _ _ _ R) as [o []]. by exists o; split.
    + apply (br_lock _ _ _ _ R).
    + by rewrite Hk.
    + intros k'. rewrite Hk, Hd', elem_of_union, elem_of_singleton.
      destruct (decide (k' = k)); tauto.
    + apply busy_iff; [|done]. rewrite Hk. by eapply holds_busy.
    + intros k' HD HB. apply (br_clean _ _ _ _ R); set_solver.
    + apply (br_vok _ _ _ _ R).
    + apply (br_disk _ _ _ _ R).
  - by eapply holds_keep.
Qed.

Lemma bwrite_spec s v D B i k :
  brep s v D B -> holds s i k -> on_device k ->
  wp (bwrite i) s (fun _ s' =>
    brep s' v (D ∖ {[k]}) B /\ (forall j k', holds s j k' -> holds s' j k') /\
    dk s' = disk_put k (v k) (dk s) /\ woken s' = woken s).
Proof.
  intros R Hh Hon. destruct (holds_data _ _ _ _ R _ _ Hh) as (b & Hb & Hbo & Hk & Hbusy & Hval & Hdev & Hdat).
  assert (i < length (bufs s))%nat as Hlt by by eapply lookup_lt_Some.
  unfold bwrite. apply wp_bind, wp_gets. rewrite Hbo.
  rewrite (busy_test b) by done.
  apply wp_bind, wp_modify. rewrite Hbo. set (b1 := set_flags _ b). set (s1 := put_bc _ s).
  assert (is_busy b1 = true /\ is_dirty b1 = true) as (Hb1 & Hd1).
  { subst b1. flag_simpl. by rewrite Hbusy, orb_true_r. }
  assert (buf_of s1 i = b1) as Hbo1 by by apply list_lookup_total_insert_eq.
  unfold iderw_buf. apply wp_bind, wp_gets. rewrite Hbo1. apply wp_bind, wp_zoom.
  destruct (iderw_write b1 (dk s1)) as (b' & Hrw & Hdat' & Hk' & Hb' & Hv' & Hd'); try done.
  { change (bkey b1) with (bkey b). by rewrite Hk. }
  { apply (br_data _ _ _ _ R _ _ Hb). }
  eapply wp_of_eq; [exact Hrw|]. apply wp_modify. set (s' := put_bc _ _).
  change (bkey b1) with (bkey b) in *. change (data b1) with (data b) in *. rewrite Hk in *.
  assert (bufs s' = <[i := b']> (bufs s)) as Hs'.
  { subst s' s1. simpl. by rewrite list_insert_insert_eq. }
  assert (dk s' = disk_put k (v k) (dk s)) as Hdk by by rewrite <- Hdat, <- Hk.
  split_and!; try done.
  - eapply (brep_update_same s v D B s' v _ B i b b'); rewrite ?Hk; try done.
    + destruct (br_order _ _ _ _ R) as [o []]. by exists o; split.
    + apply (br_lock _ _ _ _ R).
    + congruence.
    + intros k'. rewrite Hd'. set_solver.
    + apply busy_iff; [|done]. by eapply holds_busy.
    + intros k' HD HB. pose proof (holds_busy _ _ _ _ R _ _ Hh).
      assert (k' <> k) by (by intros ->). rewrite Hdk, disk_get_put_ne by done.
      apply (br_clean _ _ _ _ R); set_solver.
    + apply (br_vok _ _ _ _ R).
    + rewrite Hdk. apply disk_ok_put; [apply (br_vok _ _ _ _ R)|apply (br_disk _ _ _ _ R)].
  - by eapply holds_keep.
Qed.

Lemma brelse_spec s v D B i k :
  brep s v D B -> holds s i k -> (k ∈ D \/ v k = disk_get (dk s) k) ->
  wp (brelse i) s (fun _ s' =>
    brep s' v D (B ∖ {[k]}) /\ (forall j k', k' <> k -> holds s j k' -> holds s' j k') /\
    dk s' = dk s /\ woken s' = ChBuf i :: woken s).
Proof.
  intros R Hh Hcl. destruct (holds_data _ _ _ _ R _ _ Hh) as (b & Hb & Hbo & Hk & Hbusy & Hval & Hdev & Hdat).
  unfold brelse. apply wp_bind, wp_gets. rewrite Hbo.
  rewrite (busy_test b) by done.
  destruct (br_order _ _ _ _ R) as [o Hd].
  assert (i ∈ o) as Hin by (apply (dll_elem _ _ Hd); by eapply brep_lt).
  apply list_elem_of_split in Hin as (l1 & l2 & ->). apply relink_dll in Hd.
  unfold acquire_bcache. apply wp_bind, wp_bind, wp_gets. rewrite (br_lock _ _ _ _ R).
  apply wp_modify, wp_bind, wp_modify, wp_bind, wp_modify, wp_bind, wp_modify.
  unfold release_bcache. apply wp_bind, wp_gets. simpl. apply wp_modify.
  unfold buf_of in *. simpl. rewrite Hbo.
  set (b' := set_flags _ b). set (s' := put_bc _ _).
  assert (bufs s' = <[i := b']> (bufs s)) as Hs' by done.
  assert (is_busy b' = false /\ is_valid b' = true /\ is_dirty b' = is_dirty b) as (Hb' & Hv' & Hd').
  { subst b'. flag_simpl. done. }
  split_and!; try done.
  - eapply (brep_update_same s v D B s' v D _ i b b'); rewrite ?Hk; try done.
    + exists (i :: l1 ++ l2). destruct Hd. by split.
    + rewrite <- Hk. by apply (dirty_iff _ _ _ _ R i).
    + intros k'. rewrite Hb'. set_solver.
    + intros k' HD HB. destruct (decide (k' = k)) as [->|]; [by destruct Hcl|].
      apply (br_clean _ _ _ _ R); set_solver.
    + apply (br_vok _ _ _ _ R).
    + apply (br_disk _ _ _ _ R).
  - intros j k' Hne Hj. eapply holds_frame; [done| |done].
    intros ->. destruct Hj as (b2 & Hb2 & <- & _). simplify_eq.
Qed.
End specs.

(** The initial cache. *)
Lemma binit_dll : dll (binit zero_bcache) (reverse (seq 0 NBUF)).
Proof. split; [apply reverse_Permutation|done|done| |]; vm_compute; tauto. Qed.

Lemma binit_brep d w : disk_ok d -> brep (mkbst (binit zero_bcache) d w) (disk_get d) ∅ ∅.
Proof.
  intros Hd.
  assert (forall i b, bc_buf (binit zero_bcache) !! i = Some b -> b = mkbuf 0 NODEV 0 zero_block) as Hb.
  { change (bc_buf (binit zero_bcache)) with (replicate NBUF (mkbuf 0 NODEV 0 zero_block)).
    intros i b E. by apply lookup_replicate in E as [-> _]. }
  split; cbn [bc dk]; try done.
  - eexists. apply binit_dll.
  - intros i j bi bj Hi Hj _ Hne. by apply Hb in Hi as ->.
  - intros i b Hi _. by apply Hb in Hi as ->.
  - intros i b Hi Hne. by apply Hb in Hi as ->.
  - intros i b Hi. apply Hb in Hi as ->. done.
  - intros k. split; [set_solver|]. intros (i & b & Hi & _ & E). by apply Hb in Hi as ->.
  - intros k. split; [set_solver|]. intros (i & b & Hi & _ & E). by apply Hb in Hi as ->.
Qed.

(** A sequence of updates of the contents. *)
Definition upds (v : key -> block) (ws : list ((Z * Z) * block)) : key -> block :=
  foldl (fun v kb => upd v kb.1 kb.2) v ws.

Lemma upds_app v ws1 ws2 : upds v (ws1 ++ ws2) = upds (upds v ws1) ws2.
Proof. apply foldl_app. Qed.

Lemma upds_other v ws k : k ∉ ws.*1 -> upds v ws k = v k.
Proof.
  revert v. induction ws as [|[k' b] ws IH]; intros v; simpl; [done|].
  rewrite not_elem_of_cons. intros [Hne Hk]. unfold upds in *. rewrite IH by done.
  by apply upd_ne.
Qed.

Lemma upds_in v ws k b : NoDup ws.*1 -> (k, b) ∈ ws -> upds v ws k = b.
Proof.
  revert v. induction ws as [|[k' b'] ws IH]; intros v; simpl; [by intros _ ?%elem_of_nil|].
  rewrite NoDup_cons, elem_of_cons. intros [Hni Hnd] [E|Hin].
  - injection E as -> ->. unfold upds. simpl. fold (upds (upd v k' b') ws).
    rewrite upds_other by done. apply upd_same.
  - by apply IH.
Qed.

Lemma brep_ext s v v' D B : (forall k, v k = v' k) -> brep s v D B -> brep s v' D B.
Proof.
  intros E []. split; try done.
  - intros. rewrite <- E. eauto.
  - intros. rewrite <- E. eauto.
  - intros. by rewrite <- E.
Qed.

(** ** The cache as its clients see it *)

Section claims.
Context `{BlockDev}.

(** C10: the pointer-level cache is an LRU list.  On a state whose [next] and
    [prev] links form the circular list [order], [bget] behaves as the search
    over that list: the buffer that already caches the sector, or else the
    least recently used buffer that is neither busy nor dirty; and [brelse]
    leaves a well-formed circular list in which the released buffer is the
    most recently used one and the others keep their order. *)
Theorem bcache_is_lru s order :
  dll (bc s) order -> bc_lock (bc s) = false ->
  (forall dv sec, bget dv sec s = bget_list order dv sec s) /\
  (forall i, (i < NBUF)%nat -> length (bufs s) = NBUF -> is_busy (buf_of s i) = true ->
    exists s' l1 l2, order = l1 ++ i :: l2 /\ brelse i s = Ret tt s' /\
      dll (bc s') (i :: l1 ++ l2) /\ bc_lock (bc s') = false /\ is_busy (buf_of s' i) = false).
Proof.
  intros Hd Hl. split; [by intros; apply bget_on_list|]. intros i Hi Hlen Hb.
  assert (i ∈ order) as Hin by by apply (dll_elem _ _ Hd).
  apply list_elem_of_split in Hin as (l1 & l2 & ->). pose proof (relink_dll _ _ _ _ Hd) as Hd'.
  unfold brelse, acquire_bcache, release_bcache, bind, gets, modify_bc, update_buf, modify, wakeup.
  rewrite (busy_test (buf_of s i)), Hl by done. eexists _, l1, l2. split; [done|]. split; [reflexivity|].
  split_and!; [by destruct Hd'; split|done|].
  unfold buf_of. simpl. rewrite list_lookup_total_insert_eq by by rewrite Hlen.
  unfold is_busy. simpl. apply testf_clear_same.
Qed.

(** [bread] returns, without sleeping or panicking, a handle on the buffer
    of the requested sector whenever no one else holds it and some buffer can
    be recycled; the contents [v] every reader sees and the disk do not
    change, and handles held by others stay valid. *)
Theorem bread_correct s v D B dv sec :
  brep s v D B -> dv <> NODEV -> (dv, sec) ∉ B ->
  ((dv, sec) ∈ D \/ (size (D ∪ B) < NBUF)%nat) -> on_device (dv, sec) ->
  exists i s', bread dv sec s = Ret i s' /\ brep s' v D ({[(dv, sec)]} ∪ B) /\
    holds s' i (dv, sec) /\ data (buf_of s' i) = v (dv, sec) /\
    (forall j k, holds s j k -> holds s' j k) /\ dk s' = dk s.
Proof.
  intros R H1 H2 H3 H4.
  destruct (proj1 (wp_eq _ _ _) (bread_spec s v D B dv sec R H1 H2 H3 H4)) as (i & s' & E & R' & Hh & Hk & Hdk & _).
  exists i, s'. split_and!; try done.
  destruct (holds_data _ _ _ _ R' _ _ Hh) as (b & _ & -> & _ & _ & _ & _ & Hd). done.
Qed.

(** C11: writing through a held buffer: after [b->data] is replaced, [bwrite]
    puts exactly that block on the disk, and [brelse] gives the buffer up; a
    later reader sees the new contents and every other block is unchanged. *)
Theorem write_release_correct s v D B i k d :
  brep s v D B -> holds s i k -> on_device k -> block_ok d ->
  exists s', (write_data i d ;; bwrite i ;; brelse i)%kernel s = Ret tt s' /\
    brep s' (upd v k d) (D ∖ {[k]}) (B ∖ {[k]}) /\ dk s' = disk_put k d (dk s) /\
    ChBuf i ∈ woken s'.
Proof.
  intros R Hh Hon Hd.
  apply (wp_eq_tt _ _ (fun _ s' => brep s' (upd v k d) (D ∖ {[k]}) (B ∖ {[k]}) /\
    dk s' = disk_put k d (dk s) /\ ChBuf i ∈ woken s')).
  eapply wp_seq; [by apply (write_data_spec s v D B i k d)|]. intros _ s1 (R1 & Hk1 & Hdk1 & _).
  eapply wp_seq; [by apply (bwrite_spec _ _ _ _ i k R1); auto|]. intros _ s2 (R2 & Hk2 & Hdk2 & _).
  rewrite upd_same, Hdk1 in Hdk2.
  eapply wp_conseq.
  { apply (brelse_spec _ _ _ _ i k R2); [by auto|right]. by rewrite Hdk2, disk_get_put_same, upd_same. }
  intros _ s3 (R3 & _ & Hdk3 & Hw). rewrite Hdk3, Hw. split_and!; [done|done|set_solver].
Qed.
End claims.

(** *** Witnesses: the cache just after [binit], over an empty memory disk *)
Module BioWitness.
#[local] Instance dev : BlockDev := memide_dev 100.
Definition s0 : bst := mkbst (binit zero_bcache) (mkdisk ∅ []) [].
Definition s1 : bst := match bread 1 7 s0 with Ret _ s => s | _ => s0 end.

Lemma s0_brep : brep s0 (disk_get (mkdisk ∅ [])) ∅ ∅.
Proof. apply binit_brep. intros k. unfold disk_get, img_get. simpl. rewrite lookup_empty. apply zero_block_ok. Qed.

Lemma s1_brep : brep s1 (disk_get (mkdisk ∅ [])) ∅ {[(1, 7)]} /\ holds s1 0 (1, 7).
Proof.
  destruct (proj1 (wp_eq _ _ _) (bread_spec s0 _ ∅ ∅ 1 7 s0_brep ltac:(done) ltac:(set_solver)
    ltac:(right; vm_compute; lia) ltac:(done))) as (i & s' & E & R & Hh & _).
  assert (i = 0%nat) as -> by (revert E; vm_compute; congruence).
  unfold s1. rewrite E. split; [|exact Hh]. by rewrite union_empty_r_L in R.
Qed.

Lemma s1_dll : dll (bc s1) (reverse (seq 0 NBUF)).
Proof. split; [apply reverse_Permutation|done|done| |]; vm_compute; tauto. Qed.

Lemma bcache_is_lru_witness :
  is_busy (buf_of s1 0) = true /\
  (forall dv sec, bget dv sec s1 = bget_list (reverse (seq 0 NBUF)) dv sec s1) /\
  (forall i, (i < NBUF)%nat -> length (bufs s1) = NBUF -> is_busy (buf_of s1 i) = true ->
    exists s' l1 l2, reverse (seq 0 NBUF) = l1 ++ i :: l2 /\ brelse i s1 = Ret tt s' /\
      dll (bc s') (i :: l1 ++ l2) /\ bc_lock (bc s') = false /\ is_busy (buf_of s' i) = false).
Proof.
  split; [reflexivity|]. apply (bcache_is_lru s1 (reverse (seq 0 NBUF)) s1_dll). reflexivity.
Defined.

Lemma bread_correct_witness :
  exists i s', bread 1 7 s0 = Ret i s' /\ brep s' (disk_get (mkdisk ∅ [])) ∅ ({[(1, 7)]} ∪ ∅) /\
    holds s' i (1, 7) /\ data (buf_of s' i) = disk_get (mkdisk ∅ []) (1, 7) /\
    (forall j k, holds s0 j k -> holds s' j k) /\ dk s' = dk s0.
Proof.
  apply (bread_correct s0 _ ∅ ∅ 1 7 s0_brep); [done|set_solver|right; vm_compute; lia|done].
Defined.

Lemma write_release_correct_witness :
  exists s', (write_data 0 zero_block ;; bwrite 0 ;; brelse 0) s1 = Ret tt s' /\
    brep s' (upd (disk_get (mkdisk ∅ [])) (1, 7) zero_block) (∅ ∖ {[(1, 7)]}) ({[(1, 7)]} ∖ {[(1, 7)]}) /\
    dk s' = disk_put (1, 7) zero_block (dk s1) /\ ChBuf 0 ∈ woken s'.
Proof.
  apply (write_release_correct s1 _ ∅ _ 0 (1, 7) zero_block (proj1 s1_brep) (proj2 s1_brep));
    [done|apply zero_block_ok].
Defined.
End BioWitness.
