(* ===== verification/Log.v ===== *)
(** The write-ahead log: log.c.

    A transaction collects the blocks modified by the file-system calls that
    are in progress: [log_write] records the block numbers in the in-memory
    header and pins the blocks in the buffer cache; when the last call ends,
    [commit] copies the blocks to the log region, writes the header (the commit
    point), installs the blocks at their home locations and clears the header.
    [recover_from_log] replays a committed log at boot.  The theorems give the
    behaviour of each operation and show that a crash after any prefix of the
    disk writes of [commit], or of recovery itself, is recovered to the state
    before or the state after the whole transaction. *)

From S2P Require Import Prelude Params BlockDev Bio.

(** ** Definitions *)

(** [struct superblock] (fs.h) and its decoding from the first bytes of block 1. *)
Record superblock : Type := mksb {
  sb_size : Z;
  sb_nblocks : Z;
  sb_ninodes : Z;
  sb_nlog : Z
}.

Definition sb_decode (d : block) : superblock :=
  mksb (get32 0 d) (get32 4 d) (get32 8 d) (get32 12 d).

(** [struct log] with its [struct logheader lh]. *)
Record log : Type := mklog {
  l_lock : bool;
  l_start : Z;
  l_size : Z;
  l_outstanding : Z;
  l_committing : Z;
  l_dev : Z;
  lh_n : Z;
  lh_sector : list Z
}.

Record lst : Type := mklst { lg : log; lb : bst }.

Definition zero_log : log := mklog false 0 0 0 0 0 0 (replicate (Z.to_nat LOGSIZE) 0).

Definition put_lb (b : bst) (s : lst) : lst := mklst (lg s) b.
Definition put_lg (l : log) (s : lst) : lst := mklst l (lb s).
Definition lift {A} (m : M bst A) : M lst A := zoom lb put_lb m.
Definition modify_lg (f : log -> log) : M lst unit := modify (fun s => put_lg (f (lg s)) s).

Definition set_l_lock (x : bool) (l : log) : log :=
  mklog x (l_start l) (l_size l) (l_outstanding l) (l_committing l) (l_dev l) (lh_n l) (lh_sector l).
Definition set_l_geom (start size dv : Z) (l : log) : log :=
  mklog (l_lock l) start size (l_outstanding l) (l_committing l) dv (lh_n l) (lh_sector l).
Definition set_l_outstanding (x : Z) (l : log) : log :=
  mklog (l_lock l) (l_start l) (l_size l) x (l_committing l) (l_dev l) (lh_n l) (lh_sector l).
Definition set_l_committing (x : Z) (l : log) : log :=
  mklog (l_lock l) (l_start l) (l_size l) (l_outstanding l) x (l_dev l) (lh_n l) (lh_sector l).
Definition set_lh_n (x : Z) (l : log) : log :=
  mklog (l_lock l) (l_start l) (l_size l) (l_outstanding l) (l_committing l) (l_dev l) x (lh_sector l).
Definition set_lh_sector (i : nat) (x : Z) (l : log) : log :=
  mklog (l_lock l) (l_start l) (l_size l) (l_outstanding l) (l_committing l) (l_dev l) (lh_n l)
        (<[i := x]> (lh_sector l)).

Definition acquire_log : M lst unit :=
  l <- gets (fun s => l_lock (lg s)) ;;
  if l then panic "acquire" else modify_lg (set_l_lock true).
Definition release_log : M lst unit :=
  l <- gets (fun s => l_lock (lg s)) ;;
  if l then modify_lg (set_l_lock false) else panic "release".

(** [log.lh.sector[i]], faulting outside the array. *)
Definition get_sector (i : nat) : M lst Z :=
  o <- gets (fun s => lh_sector (lg s) !! i) ;;
  match o with
  | Some x => ret x
  | None => fault "log.lh.sector"
  end.
Definition put_sector (i : nat) (x : Z) : M lst unit :=
  n <- gets (fun s => length (lh_sector (lg s))) ;;
  if Nat.ltb i n then modify_lg (set_lh_sector i x) else fault "log.lh.sector".

(** Fields of the on-disk header block. *)
Definition head_n (d : block) : Z := s32 (get32 0 d).
Definition head_sector (d : block) (i : nat) : Z := s32 (get32 (4 + 4 * i) d).

Section with_device.
Context `{BlockDev}.

(** fs.c [readsb] *)
Definition readsb (dv : Z) : M lst superblock :=
  bp <- lift (bread (u32 dv) 1) ;;
  d <- lift (read_data bp) ;;
  lift (brelse bp) ;;
  ret (sb_decode d).

(** log.c [install_trans] *)
Definition install_one (tail : nat) : M lst unit :=
  l <- gets lg ;;
  lbuf <- lift (bread (u32 (l_dev l)) (u32 (l_start l + Z.of_nat tail + 1))) ;;
  x <- get_sector tail ;;
  dbuf <- lift (bread (u32 (l_dev l)) (u32 x)) ;;
  d <- lift (read_data lbuf) ;;
  lift (write_data dbuf d) ;;
  lift (bwrite dbuf) ;;
  lift (brelse lbuf) ;;
  lift (brelse dbuf).

Definition install_trans : M lst unit :=
  n <- gets (fun s => lh_n (lg s)) ;;
  for_each (seq 0 (Z.to_nat n)) install_one.

(** log.c [read_head].  The loop reads [lh->sector[i]] from the block and
    stores it in the LOGSIZE-element array [log.lh.sector]. *)
Definition read_head : M lst unit :=
  l <- gets lg ;;
  b <- lift (bread (u32 (l_dev l)) (u32 (l_start l))) ;;
  d <- lift (read_data b) ;;
  modify_lg (set_lh_n (head_n d)) ;;
  for_each (seq 0 (Z.to_nat (head_n d))) (fun i =>
    if Nat.leb (4 + 4 * i + 4) (length d) then put_sector i (head_sector d i)
    else fault "lh->sector") ;;
  lift (brelse b).

(** log.c [write_head] *)
Definition write_head : M lst unit :=
  l <- gets lg ;;
  b <- lift (bread (u32 (l_dev l)) (u32 (l_start l))) ;;
  d <- lift (read_data b) ;;
  lift (write_data b (put32 0 (u32 (lh_n l)) d)) ;;
  for_each (seq 0 (Z.to_nat (lh_n l))) (fun i =>
    x <- get_sector i ;;
    d <- lift (read_data b) ;;
    lift (write_data b (put32 (4 + 4 * i) (u32 x) d))) ;;
  lift (bwrite b) ;;
  lift (brelse b).

(** log.c [recover_from_log] *)
Definition recover_from_log : M lst unit :=
  read_head ;;
  install_trans ;;
  modify_lg (set_lh_n 0) ;;
  write_head.

(** log.c [initlog] *)
Definition initlog : M lst unit :=
  if BSIZE <=? 4 + 4 * LOGSIZE then panic "initlog: too big logheader"
  else
    modify_lg (set_l_lock false) ;;
    sb <- readsb ROOTDEV ;;
    modify_lg (set_l_geom (s32 (sb_size sb - sb_nlog sb)) (s32 (sb_nlog sb)) ROOTDEV) ;;
    recover_from_log.

(** log.c [write_log] *)
Definition write_log_one (tail : nat) : M lst unit :=
  l <- gets lg ;;
  to <- lift (bread (u32 (l_dev l)) (u32 (l_start l + Z.of_nat tail + 1))) ;;
  x <- get_sector tail ;;
  from <- lift (bread (u32 (l_dev l)) (u32 x)) ;;
  d <- lift (read_data from) ;;
  lift (write_data to d) ;;
  lift (bwrite to) ;;
  lift (brelse from) ;;
  lift (brelse to).

Definition write_log : M lst unit :=
  n <- gets (fun s => lh_n (lg s)) ;;
  for_each (seq 0 (Z.to_nat n)) write_log_one.

(** log.c [commit] *)
Definition commit : M lst unit :=
  n <- gets (fun s => lh_n (lg s)) ;;
  when (0 <? n) (
    write_log ;;
    write_head ;;
    install_trans ;;
    modify_lg (set_lh_n 0) ;;
    write_head).

(** log.c [begin_op]: one round of the loop.  A caller that sleeps runs the
    loop again when woken. *)
Definition begin_op : M lst unit :=
  acquire_log ;;
  l <- gets lg ;;
  if negb (l_committing l =? 0) then release_log ;; park ChLog
  else if LOGSIZE <? lh_n l + (l_outstanding l + 1) * MAXOPBLOCKS then release_log ;; park ChLog
  else
    modify_lg (set_l_outstanding (l_outstanding l + 1)) ;;
    release_log.

(** log.c [end_op] *)
Definition end_op : M lst unit :=
  acquire_log ;;
  modify_lg (fun l => set_l_outstanding (l_outstanding l - 1) l) ;;
  l <- gets lg ;;
  if negb (l_committing l =? 0) then panic "log.committing"
  else
    (if l_outstanding l =? 0 then modify_lg (set_l_committing 1)
     else lift (wakeup ChLog)) ;;
    release_log ;;
    when (l_outstanding l =? 0) (
      commit ;;
      acquire_log ;;
      modify_lg (set_l_committing 0) ;;
      lift (wakeup ChLog) ;;
      release_log).

(** The loop of [log_write]: the index of block [sec] in the header, or [n]. *)
Fixpoint find_sector (ss : list Z) (sec : Z) : nat :=
  match ss with
  | [] => O
  | x :: ss' => if u32 x =? sec then O else S (find_sector ss' sec)
  end.

(** log.c [log_write] *)
Definition log_write (b : nat) : M lst unit :=
  l <- gets lg ;;
  if (LOGSIZE <=? lh_n l) || (l_size l - 1 <=? lh_n l) then panic "too big a transaction"
  else if l_outstanding l <? 1 then panic "log_write outside of trans"
  else
    sec <- gets (fun s => sector (buf_of (lb s) b)) ;;
    let i := find_sector (take (Z.to_nat (lh_n l)) (lh_sector l)) sec in
    put_sector i (s32 sec) ;;
    when (Z.of_nat i =? lh_n l) (modify_lg (set_lh_n (lh_n l + 1))) ;;
    lift (mark_dirty b).
End with_device.

(** ** Geometry of the log and its contract *)

(** Where the log is: device, first block (the header), number of blocks. *)
Record geom : Type := mkgeom { g_dev : Z; g_start : Z; g_size : Z }.

Definition gk (g : geom) (x : Z) : key := (g_dev g, x).
Definition hk (g : geom) : key := gk g (g_start g).
Definition lk (g : geom) (i : nat) : key := gk g (g_start g + Z.of_nat i + 1).
Definition in_region (g : geom) (x : Z) : Prop := g_start g <= x < g_start g + g_size g.

(** [struct log] describes [g] and its header lists the blocks [ss]. *)
Record log_at (g : geom) (l : log) (ss : list Z) : Prop := {
  la_dev : l_dev l = g_dev g;
  la_start : l_start l = g_start g;
  la_size : l_size l = g_size g;
  la_n : lh_n l = Z.of_nat (length ss);
  la_ss : take (length ss) (lh_sector l) = ss;
  la_len : length (lh_sector l) = Z.to_nat LOGSIZE
}.

Section specs.
Context `{BlockDev}.

Record geom_ok (g : geom) : Prop := {
  go_dev : 0 <= g_dev g < NODEV;
  go_start : 0 <= g_start g;
  go_size : 2 <= g_size g <= LOGSIZE;
  go_end : g_start g + g_size g <= 2 ^ 31;
  go_on x : in_region g x -> on_device (gk g x)
}.

(** A block that may be logged: on the device, outside the log. *)
Record home_ok (g : geom) (x : Z) : Prop := {
  ho_range : 0 <= x < 2 ^ 31;
  ho_out : ~ in_region g x;
  ho_on : on_device (gk g x)
}.

Lemma wp_lift {A} (m : M bst A) l b (Q : A -> lst -> Prop) :
  wp m b (fun a b' => Q a (mklst l b')) -> wp (lift m) (mklst l b) Q.
Proof. intros Hm. by apply wp_zoom. Qed.

Lemma wp_lift_seq {A C} (m : M bst A) (k : A -> M lst C) l b (P : A -> bst -> Prop) Q :
  wp m b P -> (forall a b', P a b' -> wp (k a) (mklst l b') Q) ->
  wp (bind (lift m) k) (mklst l b) Q.
Proof. intros Hm Hk. apply wp_bind, wp_lift. eapply wp_conseq; [done|]. eauto. Qed.

(** fs.c [readsb] decodes block 1, whatever the cache holds. *)
Lemma readsb_spec l b v D B dv :
  brep b v D B -> is_u32 dv -> dv <> NODEV -> (dv, 1) ∉ B -> (size (D ∪ B) < NBUF)%nat ->
  on_device (dv, 1) ->
  wp (readsb dv) (mklst l b) (fun sb s' => exists b', s' = mklst l b' /\ sb = sb_decode (v (dv, 1)) /\
    brep b' v D B /\ dk b' = dk b /\ (forall j k, holds b j k -> holds b' j k)).
Proof.
  intros R Hdv Hne HB Hroom Hon. unfold readsb. rewrite (u32_small dv) by done.
  eapply wp_lift_seq; [apply (bread_spec _ _ _ _ _ _ R Hne HB); [by right|done]|].
  intros i b1 (R1 & Hh1 & Hk1 & Hdk1 & _).
  eapply wp_lift_seq; [by apply (read_data_spec _ _ _ _ _ _ (fun d' b' => d' = v (dv, 1) /\ b' = b1) R1 Hh1)|].
  intros d' b1' [-> ->].
  eapply wp_lift_seq.
  { apply (brelse_spec _ _ _ _ i (dv, 1) R1 Hh1). destruct (decide ((dv, 1) ∈ D)); [by left|right].
    rewrite Hdk1. by apply (br_clean _ _ _ _ R). }
  intros _ b2 (R2 & Hk2 & Hdk2 & _). apply wp_ret. exists b2.
  replace ((_ ∪ B) ∖ _) with B in R2 by set_solver.
  split_and!; try done; [congruence|].
  intros j k Hj. apply Hk2; [|by apply Hk1]. intros ->. by apply HB, (holds_busy _ _ _ _ R j).
Qed.
Section on_geometry.
Context (g : geom) (Hg : geom_ok g).

Lemma u32_dev : u32 (g_dev g) = g_dev g.
Proof. destruct Hg as [Hd _ _ _ _]. apply u32_small. change NODEV with (2 ^ 32 - 1) in Hd. lia. Qed.

Lemma u32_log i : (Z.of_nat i < g_size g - 1) ->
  u32 (g_start g + Z.of_nat i + 1) = g_start g + Z.of_nat i + 1.
Proof. destruct Hg. intros. apply u32_small. lia. Qed.

Lemma u32_start : u32 (g_start g) = g_start g.
Proof. destruct Hg. apply u32_small. lia. Qed.

Lemma home_u32 x : home_ok g x -> u32 x = x.
Proof. intros []. apply u32_small. lia. Qed.

Lemma dev_ne : g_dev g <> NODEV.
Proof. destruct Hg. lia. Qed.

Lemma lk_on i : (Z.of_nat i < g_size g - 1) -> on_device (lk g i).
Proof. intros. apply (go_on g Hg). unfold in_region. lia. Qed.

Lemma hk_on : on_device (hk g).
Proof. apply (go_on g Hg). destruct Hg. unfold in_region. lia. Qed.

Lemma home_ne_lk x i : home_ok g x -> (Z.of_nat i < g_size g - 1) -> gk g x <> lk g i.
Proof.
  intros [_ Hout _] Hi E. injection E as ->. apply Hout. unfold in_region.
  destruct Hg. lia.
Qed.

Lemma home_ne_hk x : home_ok g x -> gk g x <> hk g.
Proof.
  intros [_ Hout _] E. injection E as ->. apply Hout. unfold in_region. destruct Hg. lia.
Qed.

Lemma lk_ne_hk i : lk g i <> hk g.
Proof. intros E. injection E as E. lia. Qed.

Lemma lk_inj i j : lk g i = lk g j -> i = j.
Proof. intros E. injection E as E. lia. Qed.

Lemma get_sector_spec l b ss i x (Q : Z -> lst -> Prop) :
  log_at g l ss -> ss !! i = Some x -> Q x (mklst l b) -> wp (get_sector i) (mklst l b) Q.
Proof.
  intros Hl Hi HQ. unfold get_sector. apply wp_bind, wp_gets. simpl.
  rewrite <- (la_ss _ _ _ Hl) in Hi. apply lookup_take_Some in Hi as [-> _]. by apply wp_ret.
Qed.

(** Copying one block between a home location and its log block. *)
Lemma write_log_one_spec l b v D ss i x :
  log_at g l ss -> ss !! i = Some x -> home_ok g x ->
  Z.of_nat (length ss) <= g_size g - 1 ->
  brep b v D ∅ -> gk g x ∈ D -> lk g i ∉ D -> (size D < NBUF)%nat ->
  wp (write_log_one i) (mklst l b) (fun _ s' => exists b', s' = mklst l b' /\
    brep b' (upd v (lk g i) (v (gk g x))) D ∅ /\
    dk b' = disk_put (lk g i) (v (gk g x)) (dk b)).
Proof.
  intros Hl Hi Hx Hlen R HxD HiD HszD.
  assert (Z.of_nat i < g_size g - 1) as Hlt by (apply lookup_lt_Some in Hi; lia).
  unfold write_log_one. apply wp_bind, wp_gets. simpl.
  rewrite (la_dev _ _ _ Hl), (la_start _ _ _ Hl), u32_dev, u32_log by done.
  eapply wp_lift_seq.
  { apply (bread_spec _ _ _ _ _ _ R); [apply dev_ne|set_solver| |by apply lk_on].
    right. by rewrite union_empty_r_L. }
  intros to b1 (R1 & Hto & _ & Hdk1 & _). fold (gk g (g_start g + Z.of_nat i + 1)) in *. fold (lk g i) in *.
  apply wp_bind. eapply get_sector_spec; [done..|]. rewrite home_u32 by done.
  pose proof (home_ne_lk x i Hx Hlt) as Hne.
  eapply wp_lift_seq.
  { apply (bread_spec _ _ _ _ _ _ R1); [apply dev_ne|fold (gk g x); set_solver|by left|by destruct Hx]. }
  fold (gk g x). intros from b2 (R2 & Hfrom & Hk2 & Hdk2 & _).
  eapply wp_lift_seq; [by apply (read_data_spec _ _ _ _ _ _ (fun d b' => d = v (gk g x) /\ b' = b2) R2 Hfrom)|].
  intros d b2' [-> ->].
  eapply wp_lift_seq; [apply (write_data_spec _ _ _ _ _ _ _ R2 (Hk2 _ _ Hto)), (br_vok _ _ _ _ R)|].
  intros _ b3 (R3 & Hk3 & Hdk3 & _).
  eapply wp_lift_seq; [apply (bwrite_spec _ _ _ _ to (lk g i) R3); [by apply Hk3, Hk2|by apply lk_on]|].
  intros _ b4 (R4 & Hk4 & Hdk4 & _). rewrite upd_same in Hdk4.
  replace (D ∖ {[lk g i]}) with D in R4 by set_solver.
  eapply wp_lift_seq; [apply (brelse_spec _ _ _ _ from (gk g x) R4); [by apply Hk4, Hk3|by left]|].
  intros _ b5 (R5 & Hk5 & Hdk5 & _).
  apply wp_lift. eapply wp_conseq.
  { apply (brelse_spec _ _ _ _ to (lk g i) R5); [by apply Hk5; [|apply Hk4, Hk3, Hk2]|].
    right. by rewrite Hdk5, Hdk4, disk_get_put_same, upd_same. }
  intros _ b6 (R6 & _ & Hdk6 & _). exists b6. split_and!; [done| |congruence].
  replace (_ ∖ _) with (∅ : gset key) in R6 by set_solver. done.
Qed.

Lemma install_one_spec l b v D ss i x :
  log_at g l ss -> ss !! i = Some x -> home_ok g x ->
  Z.of_nat (length ss) <= g_size g - 1 ->
  brep b v D ∅ -> lk g i ∉ D -> (size D < NBUF)%nat ->
  (gk g x ∈ D \/ (S (size D) < NBUF)%nat) ->
  wp (install_one i) (mklst l b) (fun _ s' => exists b', s' = mklst l b' /\
    brep b' (upd v (gk g x) (v (lk g i))) (D ∖ {[gk g x]}) ∅ /\
    dk b' = disk_put (gk g x) (v (lk g i)) (dk b)).
Proof.
  intros Hl Hi Hx Hlen R HiD HszD Hroom.
  assert (Z.of_nat i < g_size g - 1) as Hlt by (apply lookup_lt_Some in Hi; lia).
  unfold install_one. apply wp_bind, wp_gets. simpl.
  rewrite (la_dev _ _ _ Hl), (la_start _ _ _ Hl), u32_dev, u32_log by done.
  eapply wp_lift_seq.
  { apply (bread_spec _ _ _ _ _ _ R); [apply dev_ne|set_solver| |by apply lk_on].
    right. by rewrite union_empty_r_L. }
  intros lbuf b1 (R1 & Hlb & _ & Hdk1 & _). fold (gk g (g_start g + Z.of_nat i + 1)) in *. fold (lk g i) in *.
  apply wp_bind. eapply get_sector_spec; [done..|]. rewrite home_u32 by done.
  pose proof (home_ne_lk x i Hx Hlt) as Hne.
  eapply wp_lift_seq.
  { apply (bread_spec _ _ _ _ _ _ R1); [apply dev_ne|fold (gk g x); set_solver| |by destruct Hx].
    destruct Hroom as [|Hroom]; [by left|right].
    rewrite union_empty_r_L, size_union, size_singleton by set_solver. lia. }
  fold (gk g x). intros dbuf b2 (R2 & Hdb & Hk2 & Hdk2 & _).
  eapply wp_lift_seq; [by apply (read_data_spec _ _ _ _ lbuf (lk g i) (fun d b' => d = v (lk g i) /\ b' = b2) R2); auto|].
  intros d b2' [-> ->].
  eapply wp_lift_seq; [apply (write_data_spec _ _ _ _ _ _ _ R2 Hdb), (br_vok _ _ _ _ R)|].
  intros _ b3 (R3 & Hk3 & Hdk3 & _).
  eapply wp_lift_seq; [apply (bwrite_spec _ _ _ _ dbuf (gk g x) R3); [by apply Hk3|by destruct Hx]|].
  intros _ b4 (R4 & Hk4 & Hdk4 & _). rewrite upd_same in Hdk4.
  eapply wp_lift_seq.
  { apply (brelse_spec _ _ _ _ lbuf (lk g i) R4); [by apply Hk4, Hk3, Hk2|right].
    rewrite upd_ne, Hdk4, disk_get_put_ne, Hdk3, Hdk2, Hdk1 by done.
    by apply (br_clean _ _ _ _ R). }
  intros _ b5 (R5 & Hk5 & Hdk5 & _).
  apply wp_lift. eapply wp_conseq.
  { apply (brelse_spec _ _ _ _ dbuf (gk g x) R5); [by apply Hk5; [|apply Hk4, Hk3]|].
    right. by rewrite Hdk5, Hdk4, disk_get_put_same, upd_same. }
  intros _ b6 (R6 & _ & Hdk6 & _). exists b6. split_and!; [done| |congruence].
  replace (_ ∖ _ ∖ _) with (∅ : gset key) in R6 by set_solver. done.
Qed.

(** The disk writes of the two copying loops. *)
Definition log_writes (v : key -> block) (ss : list Z) : list ((Z * Z) * block) :=
  imap (fun i x => (lk g i, v (gk g x))) ss.
Definition install_writes (v : key -> block) (ss : list Z) : list ((Z * Z) * block) :=
  imap (fun i x => (gk g x, v (lk g i))) ss.

Lemma log_writes_keys v ss k : k ∈ (log_writes v ss).*1 -> exists i, (i < length ss)%nat /\ k = lk g i.
Proof.
  rewrite list_elem_of_fmap. intros ([k' bl] & -> & Hin). apply list_elem_of_lookup in Hin as [i Hi].
  unfold log_writes in Hi. rewrite list_lookup_imap in Hi. apply fmap_Some in Hi as (x & Hx & [= -> ->]).
  exists i. split; [by eapply lookup_lt_Some|done].
Qed.

Lemma install_writes_keys v ss k : k ∈ (install_writes v ss).*1 -> exists x, x ∈ ss /\ k = gk g x.
Proof.
  rewrite list_elem_of_fmap. intros ([k' bl] & -> & Hin). apply list_elem_of_lookup in Hin as [i Hi].
  unfold install_writes in Hi. rewrite list_lookup_imap in Hi. apply fmap_Some in Hi as (x & Hx & [= -> ->]).
  exists x. split; [by eapply list_elem_of_lookup_2|done].
Qed.

Lemma keys_take {A B} (l : list (A * B)) i k : k ∈ (take i l).*1 -> k ∈ l.*1.
Proof. rewrite <- (take_drop i l) at 2. rewrite fmap_app, elem_of_app. auto. Qed.

(** The set of blocks a header lists. *)
Definition home_set (ss : list Z) : gset (Z * Z) := list_to_set (gk g <$> ss).

Lemma elem_of_home_set k ss : k ∈ home_set ss <-> exists x, k = gk g x /\ x ∈ ss.
Proof. unfold home_set. by rewrite elem_of_list_to_set, list_elem_of_fmap. Qed.

Lemma size_home_set ss : NoDup ss -> size (home_set ss) = length ss.
Proof.
  intros Hnd. unfold home_set. rewrite size_list_to_set, length_fmap; [done|].
  apply NoDup_fmap_2; [|done]. intros x y E. by injection E.
Qed.

Lemma lk_not_home ss i : Forall (home_ok g) ss -> (Z.of_nat i < g_size g - 1) ->
  lk g i ∉ home_set ss.
Proof.
  intros Hss Hi (x & E & Hx)%elem_of_home_set. rewrite Forall_forall in Hss.
  by apply (home_ne_lk x i (Hss _ Hx) Hi).
Qed.

Lemma hk_not_home ss : Forall (home_ok g) ss -> hk g ∉ home_set ss.
Proof.
  intros Hss (x & E & Hx)%elem_of_home_set. rewrite Forall_forall in Hss.
  by apply (home_ne_hk x (Hss _ Hx)).
Qed.

Lemma home_set_room ss : NoDup ss -> Z.of_nat (length ss) <= g_size g - 1 ->
  (size (home_set ss) < NBUF)%nat.
Proof.
  intros Hnd Hlen. rewrite size_home_set by done. destruct Hg as [_ _ Hs _ _].
  change LOGSIZE with 30 in Hs. unfold NBUF. lia.
Qed.

Lemma write_log_spec l b v ss :
  log_at g l ss -> NoDup ss -> Forall (home_ok g) ss -> Z.of_nat (length ss) <= g_size g - 1 ->
  brep b v (home_set ss) ∅ ->
  wp write_log (mklst l b) (fun _ s' => exists b', s' = mklst l b' /\
    brep b' (upds v (log_writes v ss)) (home_set ss) ∅ /\
    dk b' = disk_puts (log_writes v ss) (dk b)).
Proof.
  intros Hl Hnd Hss Hlen R. set (ws := log_writes v ss).
  assert (length ws = length ss) as Hlws by apply length_imap.
  unfold write_log. apply wp_bind, wp_gets. simpl. rewrite (la_n _ _ _ Hl), Nat2Z.id.
  eapply wp_conseq; [apply (wp_for_seq (fun i s' => exists b', s' = mklst l b' /\
    brep b' (upds v (take i ws)) (home_set ss) ∅ /\ dk b' = disk_puts (take i ws) (dk b)))| ].
  - exists b. done.
  - intros i s0 Hi (b0 & -> & R0 & Hdk0).
    destruct (lookup_lt_is_Some_2 ss i Hi) as [x Hx].
    assert (home_ok g x) as Hhx by (by eapply Forall_lookup_1).
    assert (ws !! i = Some (lk g i, v (gk g x))) as Hws.
    { subst ws. unfold log_writes. by rewrite list_lookup_imap, Hx. }
    assert (upds v (take i ws) (gk g x) = v (gk g x)) as Hv.
    { apply upds_other. intros (j & Hj & E)%keys_take%log_writes_keys.
      apply (home_ne_lk x j Hhx) in E; [done|lia]. }
    eapply wp_conseq; [apply (write_log_one_spec l b0 _ _ ss i x Hl Hx Hhx Hlen R0)|].
    + apply elem_of_home_set. exists x. split; [done|]. by eapply list_elem_of_lookup_2.
    + apply lk_not_home; [done|lia].
    + by apply home_set_room.
    + rewrite Hv. intros _ s1 (b1 & -> & R1 & Hdk1). exists b1.
      rewrite (take_S_r _ _ _ Hws), upds_app, disk_puts_app, <- Hdk0. done.
  - intros _ s' (b' & -> & R' & Hdk'). exists b'. rewrite take_ge in R', Hdk' by lia. done.
Qed.

(** [install_trans] copies log block [i] to home block [i]; the home blocks are
    either all pinned dirty (commit) or nothing is (recovery). *)
Lemma install_trans_spec l b v D ss :
  log_at g l ss -> Forall (home_ok g) ss -> Z.of_nat (length ss) <= g_size g - 1 ->
  brep b v D ∅ -> (D = ∅ \/ (NoDup ss /\ D = home_set ss)) ->
  wp install_trans (mklst l b) (fun _ s' => exists b', s' = mklst l b' /\
    brep b' (upds v (install_writes v ss)) ∅ ∅ /\
    dk b' = disk_puts (install_writes v ss) (dk b)).
Proof.
  intros Hl Hss Hlen R HD. set (ws := install_writes v ss).
  assert (length ws = length ss) as Hlws by apply length_imap.
  set (Di := fun i => if decide (D = ∅) then ∅ else home_set (drop i ss)).
  unfold install_trans. apply wp_bind, wp_gets. simpl. rewrite (la_n _ _ _ Hl), Nat2Z.id.
  eapply wp_conseq; [apply (wp_for_seq (fun i s' => exists b', s' = mklst l b' /\
    brep b' (upds v (take i ws)) (Di i) ∅ /\ dk b' = disk_puts (take i ws) (dk b)))| ].
  - exists b. split_and!; [done| |done]. subst Di. simpl. rewrite drop_0.
    destruct HD as [->|[_ ->]]; case_decide as E; rewrite ?E in *; done.
  - intros i s0 Hi (b0 & -> & R0 & Hdk0).
    destruct (lookup_lt_is_Some_2 ss i Hi) as [x Hx].
    assert (home_ok g x) as Hhx by (by eapply Forall_lookup_1).
    assert (ws !! i = Some (gk g x, v (lk g i))) as Hws.
    { subst ws. unfold install_writes. by rewrite list_lookup_imap, Hx. }
    assert (upds v (take i ws) (lk g i) = v (lk g i)) as Hv.
    { apply upds_other. intros (y & Hy & E)%keys_take%install_writes_keys.
      rewrite Forall_forall in Hss. symmetry in E.
      apply (home_ne_lk y i (Hss _ Hy)) in E; [done|lia]. }
    assert (Forall (home_ok g) (drop i ss)) as Hdrop by by apply Forall_drop.
    assert (drop i ss = x :: drop (S i) ss) as Hds by by apply drop_S.
    eapply wp_conseq; [apply (install_one_spec l b0 _ _ ss i x Hl Hx Hhx Hlen R0)|].
    + subst Di. simpl. case_decide; [set_solver|]. apply lk_not_home; [done|lia].
    + subst Di. simpl. case_decide; [by rewrite size_empty; unfold NBUF; lia|].
      destruct HD as [|[Hnd _]]; [done|]. apply home_set_room; [by apply NoDup_drop|].
      rewrite length_drop. lia.
    + subst Di. simpl. case_decide; [right; rewrite size_empty; unfold NBUF; lia|left].
      apply elem_of_home_set. exists x. rewrite Hds. set_solver.
    + rewrite Hv. intros _ s1 (b1 & -> & R1 & Hdk1). exists b1.
      rewrite (take_S_r _ _ _ Hws), upds_app, disk_puts_app, <- Hdk0. split_and!; try done.
      replace (Di (S i)) with (Di i ∖ {[gk g x]}); [done|].
      subst Di. simpl. case_decide; [set_solver|]. destruct HD as [|[Hnd _]]; [done|].
      rewrite Hds. apply (NoDup_drop _ i) in Hnd. rewrite Hds in Hnd. apply NoDup_cons in Hnd as [Hni _].
      apply set_eq. intros k. rewrite elem_of_difference, elem_of_singleton, !elem_of_home_set.
      setoid_rewrite elem_of_cons. split.
      * intros [(y & -> & [->|Hy]) Hne]; [done|eauto].
      * intros (y & -> & Hy). split; [eauto|]. intros E. by injection E as ->.
  - intros _ s' (b' & -> & R' & Hdk'). exists b'. rewrite take_ge in R', Hdk' by lia.
    split_and!; try done. replace (Di (length ss)) with (∅ : gset key) in R'; [done|].
    subst Di. simpl. case_decide; [done|]. by rewrite drop_all.
Qed.

(** The header block after [write_head] stored the count and the sectors. *)
Fixpoint fill_sectors (i : nat) (ss : list Z) (d : block) : block :=
  match ss with
  | [] => d
  | x :: ss' => fill_sectors (S i) ss' (put32 (4 + 4 * i) (u32 x) d)
  end.
Definition head_block (ss : list Z) (d : block) : block :=
  fill_sectors 0 ss (put32 0 (u32 (Z.of_nat (length ss))) d).

Lemma fill_snoc ss : forall i x d,
  fill_sectors i (ss ++ [x]) d = put32 (4 + 4 * (i + length ss)) (u32 x) (fill_sectors i ss d).
Proof.
  induction ss as [|y ss IH]; intros i x d; cbn [app fill_sectors length].
  - by rewrite Nat.add_0_r.
  - rewrite IH. f_equal. lia.
Qed.

Lemma put32_block_ok off x d : (off + 4 <= 512)%nat -> block_ok d -> block_ok (put32 off x d).
Proof.
  intros Ho [Hl Hd]. split; [by rewrite length_put32; lia|by apply Forall_put32].
Qed.

Lemma fill_block_ok ss : forall i d, (4 + 4 * (i + length ss) <= 512)%nat -> block_ok d ->
  block_ok (fill_sectors i ss d).
Proof.
  induction ss as [|y ss IH]; intros i d Hi Hd; cbn [fill_sectors length] in *; [done|].
  apply IH; [lia|]. apply put32_block_ok; [lia|done].
Qed.

Lemma fill_get_before ss : forall i d off,
  (4 + 4 * (i + length ss) <= 512)%nat -> block_ok d -> (off + 4 <= 4 + 4 * i)%nat ->
  get32 off (fill_sectors i ss d) = get32 off d.
Proof.
  induction ss as [|y ss IH]; intros i d off Hi Hd Ho; cbn [fill_sectors length] in *; [done|].
  rewrite IH; [|lia|apply put32_block_ok; [lia|done]|lia].
  destruct Hd. apply get32_put32_other; lia.
Qed.

Lemma fill_get ss : forall i d j x,
  (4 + 4 * (i + length ss) <= 512)%nat -> block_ok d -> ss !! j = Some x ->
  get32 (4 + 4 * (i + j)) (fill_sectors i ss d) = u32 x.
Proof.
  induction ss as [|y ss IH]; intros i d j x Hi Hd Hj; [done|]. cbn [fill_sectors length] in *.
  assert (block_ok (put32 (4 + 4 * i) (u32 y) d)) as Hd' by (apply put32_block_ok; [lia|done]).
  destruct j as [|j]; simpl in Hj.
  - injection Hj as ->. rewrite fill_get_before; [|lia|done|lia]. rewrite Nat.add_0_r.
    destruct Hd. apply get32_put32_same; [lia|apply u32_range].
  - replace (i + S j)%nat with (S i + j)%nat by lia. apply IH; [lia|done..].
Qed.

Lemma head_block_ok ss d : (4 + 4 * length ss <= 512)%nat -> block_ok d -> block_ok (head_block ss d).
Proof. intros. apply fill_block_ok; [lia|]. apply put32_block_ok; [lia|done]. Qed.

Lemma head_n_block ss d : (4 + 4 * length ss <= 512)%nat -> block_ok d ->
  head_n (head_block ss d) = Z.of_nat (length ss).
Proof.
  intros Hl Hd. unfold head_n, head_block.
  rewrite fill_get_before; [|lia|apply put32_block_ok; [lia|done]|lia].
  destruct Hd. rewrite get32_put32_same, s32_u32 by (lia || apply u32_range).
  apply s32_small. lia.
Qed.

Lemma head_sector_block ss d i x : (4 + 4 * length ss <= 512)%nat -> block_ok d ->
  ss !! i = Some x -> - 2 ^ 31 <= x < 2 ^ 31 -> head_sector (head_block ss d) i = x.
Proof.
  intros Hl Hd Hi Hx. unfold head_sector, head_block.
  rewrite (fill_get ss 0 _ i x); [|lia|apply put32_block_ok; [lia|done]|done].
  rewrite s32_u32. by apply s32_small.
Qed.

Lemma head_room (ss : list Z) : Z.of_nat (length ss) <= g_size g - 1 -> (4 + 4 * length ss <= 512)%nat.
Proof. destruct Hg as [_ _ Hs _ _]. change LOGSIZE with 30 in Hs. lia. Qed.

Lemma write_head_spec l b v D ss :
  log_at g l ss -> Z.of_nat (length ss) <= g_size g - 1 ->
  brep b v D ∅ -> hk g ∉ D -> (size D < NBUF)%nat ->
  wp write_head (mklst l b) (fun _ s' => exists b', s' = mklst l b' /\
    brep b' (upd v (hk g) (head_block ss (v (hk g)))) D ∅ /\
    dk b' = disk_put (hk g) (head_block ss (v (hk g))) (dk b)).
Proof.
  intros Hl Hlen R HkD HszD. pose proof (head_room ss Hlen) as Hroom.
  unfold write_head. apply wp_bind, wp_gets. simpl.
  rewrite (la_dev _ _ _ Hl), (la_start _ _ _ Hl), (la_n _ _ _ Hl), u32_dev, u32_start, Nat2Z.id.
  eapply wp_lift_seq.
  { apply (bread_spec _ _ _ _ _ _ R); [apply dev_ne|set_solver| |apply hk_on].
    right. by rewrite union_empty_r_L. }
  intros i b1 (R1 & Hh1 & _ & Hdk1 & _). fold (gk g (g_start g)) in *. fold (hk g) in *.
  eapply wp_lift_seq; [by apply (read_data_spec _ _ _ _ _ _ (fun d b' => d = v (hk g) /\ b' = b1) R1 Hh1)|].
  intros d b1' [-> ->]. set (d0 := put32 0 _ _).
  assert (block_ok d0) as Hd0 by (apply put32_block_ok; [lia|apply (br_vok _ _ _ _ R)]).
  eapply wp_lift_seq; [by apply (write_data_spec _ _ _ _ _ _ _ R1 Hh1)|].
  intros _ b2 (R2 & Hk2 & Hdk2 & _).
  apply wp_bind. eapply wp_conseq; [apply (wp_for_seq (fun j s' => exists b', s' = mklst l b' /\
    brep b' (upd v (hk g) (fill_sectors 0 (take j ss) d0)) D ({[hk g]} ∪ ∅) /\
    holds b' i (hk g) /\ dk b' = dk b))| ].
  - exists b2. split_and!; [done|done|by apply Hk2|congruence].
  - intros j s0 Hj (b3 & -> & R3 & Hh3 & Hdk3).
    destruct (lookup_lt_is_Some_2 ss j Hj) as [x Hx].
    apply wp_bind. eapply get_sector_spec; [done..|].
    eapply wp_lift_seq; [by apply (read_data_spec _ _ _ _ _ _ (fun d b' => d = fill_sectors 0 (take j ss) d0 /\ b' = b3) R3 Hh3); rewrite upd_same|].
    intros d b3' [-> ->]. apply wp_lift. eapply wp_conseq.
    { apply (write_data_spec _ _ _ _ _ _ _ R3 Hh3), put32_block_ok; [lia|].
      apply fill_block_ok; [rewrite length_take; lia|done]. }
    intros _ b4 (R4 & Hk4 & Hdk4 & _). exists b4. split_and!; [done| |by apply Hk4|congruence].
    eapply brep_ext; [|exact R4]. intros k. rewrite (take_S_r _ _ _ Hx), fill_snoc, length_take_le by lia.
    destruct (decide (k = hk g)) as [->|]; [by rewrite !upd_same|by rewrite !upd_ne].
  - intros _ s0 (b3 & -> & R3 & Hh3 & Hdk3). rewrite take_ge in R3 by done.
    fold (head_block ss (v (hk g))) in R3.
    eapply wp_lift_seq; [apply (bwrite_spec _ _ _ _ i (hk g) R3 Hh3), hk_on|].
    intros _ b4 (R4 & Hk4 & Hdk4 & _). rewrite upd_same in Hdk4.
    apply wp_lift. eapply wp_conseq.
    { apply (brelse_spec _ _ _ _ i (hk g) R4); [by apply Hk4|]. right. by rewrite Hdk4, disk_get_put_same, upd_same. }
    intros _ b5 (R5 & _ & Hdk5 & _). exists b5. split_and!; [done| |by rewrite Hdk5, Hdk4, Hdk3].
    replace (_ ∖ {[hk g]}) with D in R5 by set_solver.
    replace ((_ ∪ _) ∖ _) with (∅ : gset key) in R5 by set_solver. done.
Qed.

(** *** Commit *)

Definition home_writes (v : key -> block) (ss : list Z) : list ((Z * Z) * block) :=
  (fun x => (gk g x, v (gk g x))) <$> ss.

(** The disk writes of [commit], in order. *)
Definition commit_writes (v : key -> block) (ss : list Z) : list ((Z * Z) * block) :=
  (log_writes v ss ++ [(hk g, head_block ss (v (hk g)))]) ++
  (home_writes v ss ++ [(hk g, head_block [] (head_block ss (v (hk g))))]).

Lemma log_writes_lookup v ss i x : ss !! i = Some x -> upds v (log_writes v ss) (lk g i) = v (gk g x).
Proof.
  intros Hi. apply upds_in.
  - apply NoDup_alt. intros a c k Ha Hc. unfold log_writes in *.
    rewrite list_lookup_fmap, list_lookup_imap in Ha, Hc.
    destruct (ss !! a), (ss !! c); try done. simpl in Ha, Hc.
    apply lk_inj. congruence.
  - apply list_elem_of_lookup. exists i. unfold log_writes. by rewrite list_lookup_imap, Hi.
Qed.

Lemma home_writes_keys v ss : (home_writes v ss).*1 = gk g <$> ss.
Proof. unfold home_writes. by rewrite <- list_fmap_compose. Qed.

(** A run of [log_writes] leaves everything but the log blocks alone. *)
Lemma log_writes_other v w ss k : (forall i, k <> lk g i) -> upds w (log_writes v ss) k = w k.
Proof. intros Hk. apply upds_other. intros (i & _ & E)%log_writes_keys. by apply (Hk i). Qed.

Lemma hk_ne_lk i : hk g <> lk g i.
Proof. intros E. by apply (lk_ne_hk i). Qed.

(** Once the log and header are written, installing copies each home block's
    cached contents. *)
Lemma install_after_log v ss b :
  install_writes (upds v (log_writes v ss ++ [(hk g, b)])) ss = home_writes v ss.
Proof.
  apply list_eq. intros i. unfold install_writes, home_writes.
  rewrite list_lookup_imap, list_lookup_fmap. destruct (ss !! i) as [x|] eqn:Hi; [|done]. simpl.
  rewrite upds_app. simpl. rewrite upd_ne by apply lk_ne_hk. by rewrite (log_writes_lookup v ss i x).
Qed.

Lemma home_writes_same v w ss : (forall x, x ∈ ss -> w (gk g x) = v (gk g x)) ->
  forall k, upds w (home_writes v ss) k = w k.
Proof.
  revert w. induction ss as [|x ss IH]; intros w Hw k; [done|].
  unfold home_writes, upds. simpl. fold (home_writes v ss). fold (upds (upd w (gk g x) (v (gk g x))) (home_writes v ss)).
  assert (forall k', upd w (gk g x) (v (gk g x)) k' = w k') as E.
  { intros k'. unfold upd. case_decide; subst; [|done]. symmetry. apply Hw. set_solver. }
  rewrite IH; [apply E|]. intros y Hy. rewrite E. apply Hw. set_solver.
Qed.

Lemma log_at_zero l ss : log_at g l ss -> log_at g (set_lh_n 0 l) [].
Proof. intros []. by split. Qed.

Lemma commit_spec l b v ss :
  log_at g l ss -> NoDup ss -> Forall (home_ok g) ss ->
  0 < Z.of_nat (length ss) <= g_size g - 1 -> brep b v (home_set ss) ∅ ->
  wp commit (mklst l b) (fun _ s' => exists b', s' = mklst (set_lh_n 0 l) b' /\
    brep b' (upds v (commit_writes v ss)) ∅ ∅ /\
    dk b' = disk_puts (commit_writes v ss) (dk b)).
Proof.
  intros Hl Hnd Hss [Hpos Hlen] R. pose proof (home_set_room ss Hnd Hlen) as Hroom.
  unfold commit. apply wp_bind, wp_gets. simpl. rewrite (la_n _ _ _ Hl).
  rewrite (proj2 (Z.ltb_lt _ _) Hpos). simpl.
  eapply wp_seq; [by apply (write_log_spec l b v ss)|]. intros _ s1 (b1 & -> & R1 & Hdk1).
  eapply wp_seq; [by apply (write_head_spec l b1 _ _ ss Hl Hlen R1 (hk_not_home ss Hss))|].
  intros _ s2 (b2 & -> & R2 & Hdk2).
  rewrite (log_writes_other v v ss (hk g) hk_ne_lk) in R2, Hdk2.
  set (h := head_block ss (v (hk g))) in *.
  change (upd (upds v (log_writes v ss)) (hk g) h) with (upds (upds v (log_writes v ss)) [(hk g, h)]) in R2.
  rewrite <- upds_app in R2.
  eapply wp_seq; [apply (install_trans_spec l b2 _ _ ss Hl Hss Hlen R2); right; done|].
  intros _ s3 (b3 & -> & R3 & Hdk3). rewrite install_after_log, <- upds_app in *.
  eapply wp_seq; [apply (wp_modify _ _ (fun _ s => s = mklst (set_lh_n 0 l) b3)); done|].
  intros _ s4 ->.
  eapply wp_conseq.
  { eapply (write_head_spec _ b3 _ ∅ []); [by eapply log_at_zero|simpl; lia|exact R3|set_solver|].
    rewrite size_empty. unfold NBUF. lia. }
  assert (upds v ((log_writes v ss ++ [(hk g, h)]) ++ home_writes v ss) (hk g) = h) as Eh.
  { rewrite upds_app, upds_other, upds_app; [apply upd_same|].
    rewrite home_writes_keys. intros (x & E & Hx)%list_elem_of_fmap. rewrite Forall_forall in Hss.
    symmetry in E. by apply (home_ne_hk x (Hss _ Hx)). }
  rewrite Eh. intros _ s5 (b5 & -> & R5 & Hdk5). exists b5. split; [done|].
  unfold commit_writes. fold h. rewrite !app_assoc. split.
  - rewrite upds_app. exact R5.
  - rewrite Hdk5, Hdk3, Hdk2, Hdk1, !disk_puts_app. done.
Qed.

(** *** Recovery *)

(** The block numbers the header block [d] lists. *)
Definition head_list (d : block) : list Z := head_sector d <$> seq 0 (Z.to_nat (head_n d)).

Lemma length_head_list d : length (head_list d) = Z.to_nat (head_n d).
Proof. unfold head_list. by rewrite length_fmap, length_seq. Qed.

Lemma head_list_lookup d i : (i < Z.to_nat (head_n d))%nat -> head_list d !! i = Some (head_sector d i).
Proof. intros Hi. unfold head_list. by rewrite list_lookup_fmap, lookup_seq_lt. Qed.

Lemma head_list_block ss d : (4 + 4 * length ss <= 512)%nat -> block_ok d ->
  Forall (fun x => - 2 ^ 31 <= x < 2 ^ 31) ss -> head_list (head_block ss d) = ss.
Proof.
  intros Hl Hd Hss. apply list_eq. intros i.
  destruct (decide (i < length ss)%nat) as [Hi|Hi].
  - rewrite head_list_lookup by (rewrite head_n_block by done; lia).
    destruct (lookup_lt_is_Some_2 ss i Hi) as [x Hx]. rewrite Hx. f_equal.
    apply head_sector_block; try done. by eapply Forall_lookup_1 in Hss.
  - rewrite !lookup_ge_None_2; [done|lia|]. rewrite length_head_list, head_n_block by done. lia.
Qed.

(** [read_head] loads the block list into [log.lh]. *)
Lemma read_head_spec l b v ss0 :
  log_at g l ss0 -> brep b v ∅ ∅ -> 0 <= head_n (v (hk g)) <= g_size g - 1 ->
  wp read_head (mklst l b) (fun _ s' => exists l' b', s' = mklst l' b' /\
    log_at g l' (head_list (v (hk g))) /\ l_lock l' = l_lock l /\
    l_outstanding l' = l_outstanding l /\ l_committing l' = l_committing l /\
    brep b' v ∅ ∅ /\ dk b' = dk b).
Proof.
  intros Hl R Hn. set (d := v (hk g)) in *. set (n := Z.to_nat (head_n d)).
  assert (n <= 29)%nat as Hn29.
  { destruct Hg as [_ _ Hs _ _]. change LOGSIZE with 30 in Hs. subst n. lia. }
  unfold read_head. apply wp_bind, wp_gets. cbn [lg].
  rewrite (la_dev _ _ _ Hl), (la_start _ _ _ Hl), u32_dev, u32_start.
  eapply wp_lift_seq.
  { apply (bread_spec _ _ _ _ _ _ R); [apply dev_ne|set_solver| |apply hk_on].
    right. rewrite union_empty_r_L, size_empty. unfold NBUF. lia. }
  intros i b1 (R1 & Hh1 & _ & Hdk1 & _). fold (gk g (g_start g)) in *. fold (hk g) in *.
  eapply wp_lift_seq; [by apply (read_data_spec _ _ _ _ _ _ (fun d' b' => d' = d /\ b' = b1) R1 Hh1)|].
  intros d' b1' [-> ->]. apply wp_bind, wp_modify. unfold put_lg. cbn [lg lb]. fold n.
  assert (length d = 512%nat) as Hd512 by apply (br_vok _ _ _ _ R).
  apply wp_bind. eapply wp_conseq; [apply (wp_for_seq (fun j s' => exists l', s' = mklst l' b1 /\
    (l_dev l' = g_dev g /\ l_start l' = g_start g /\ l_size l' = g_size g /\ lh_n l' = head_n d) /\
    (l_lock l' = l_lock l /\ l_outstanding l' = l_outstanding l /\ l_committing l' = l_committing l) /\
    length (lh_sector l') = Z.to_nat LOGSIZE /\
    take j (lh_sector l') = take j (head_list d)))| ].
  - destruct Hl. eexists. split_and!; done.
  - intros j s0 Hj (l1 & -> & Hf & Hk & Hlen & Ht).
    rewrite (proj2 (Nat.leb_le _ _)) by lia. unfold put_sector. apply wp_bind, wp_gets. cbn [lg].
    change (Z.to_nat LOGSIZE) with 30%nat in *.
    rewrite (proj2 (Nat.ltb_lt _ _)) by lia. apply wp_modify. eexists.
    split; [done|]. split_and!; try tauto.
    + by simpl; rewrite length_insert.
    + simpl. rewrite (take_S_r _ j (head_sector d j)) by (rewrite list_lookup_insert_eq; [done|lia]).
      rewrite (take_S_r (head_list d) j (head_sector d j)) by (by apply head_list_lookup).
      by rewrite take_insert_ge, Ht.
  - intros _ s0 (l1 & -> & (?&?&?&Hln) & (?&?&?) & Hlen & Ht). apply wp_lift. eapply wp_conseq.
    { apply (brelse_spec _ _ _ _ i (hk g) R1 Hh1). right. rewrite Hdk1. apply (br_clean _ _ _ _ R); set_solver. }
    intros _ b2 (R2 & _ & Hdk2 & _). exists l1, b2.
    replace ((_ ∪ _) ∖ _) with (∅ : gset key) in R2 by set_solver.
    split_and!; try done; [|congruence].
    pose proof (length_head_list d) as Hlh. fold n in Hlh.
    split; try done.
    + rewrite Hln, Hlh. subst n. lia.
    + rewrite Hlh, Ht. apply take_ge. lia.
Qed.

Definition recover_writes (v : key -> block) : list ((Z * Z) * block) :=
  install_writes v (head_list (v (hk g))) ++ [(hk g, head_block [] (v (hk g)))].

Lemma recover_from_log_spec l b v ss0 :
  log_at g l ss0 -> brep b v ∅ ∅ -> 0 <= head_n (v (hk g)) <= g_size g - 1 ->
  Forall (home_ok g) (head_list (v (hk g))) ->
  wp recover_from_log (mklst l b) (fun _ s' => exists l' b', s' = mklst l' b' /\
    log_at g l' [] /\ l_lock l' = l_lock l /\
    l_outstanding l' = l_outstanding l /\ l_committing l' = l_committing l /\
    brep b' (upds v (recover_writes v)) ∅ ∅ /\ dk b' = disk_puts (recover_writes v) (dk b)).
Proof.
  intros Hl R Hn Hss. pose proof (length_head_list (v (hk g))) as Hlh.
  unfold recover_from_log.
  eapply wp_seq; [by eapply read_head_spec|].
  intros _ s1 (l1 & b1 & -> & Hl1 & ? & ? & ? & R1 & Hdk1).
  eapply wp_seq; [apply (install_trans_spec l1 b1 v ∅ _ Hl1 Hss); [lia|done|by left]|].
  intros _ s2 (b2 & -> & R2 & Hdk2).
  eapply wp_seq; [apply (wp_modify _ _ (fun _ s => s = mklst (set_lh_n 0 l1) b2)); done|].
  intros _ s4 ->.
  eapply wp_conseq.
  { eapply (write_head_spec _ b2 _ ∅ []);
      [by eapply log_at_zero|simpl; destruct Hg; lia|exact R2|set_solver|].
    rewrite size_empty. unfold NBUF. lia. }
  intros _ s5 (b5 & -> & R5 & Hdk5).
  assert (upds v (install_writes v (head_list (v (hk g)))) (hk g) = v (hk g)) as Eh.
  { apply upds_other. intros (x & Hx & E)%install_writes_keys. rewrite Forall_forall in Hss. symmetry in E.
    by apply (home_ne_hk x (Hss _ Hx)). }
  rewrite Eh in R5, Hdk5. eexists _, b5. split; [done|]. unfold recover_writes.
  rewrite upds_app, disk_puts_app, <- Hdk1, <- Hdk2. split_and!; [by eapply log_at_zero|done..].
Qed.

(** *** The layer above: begin_op, log_write, end_op *)

(** What the file system sees of the log: contents [v], transaction [ss] (the
    blocks logged so far, each once), buffers [B] held by callers. *)
Record lrep (s : lst) (v : key -> block) (ss : list Z) (B : gset (Z * Z)) : Prop := {
  lr_log : log_at g (lg s) ss;
  lr_unlocked : l_lock (lg s) = false;
  lr_nodup : NoDup ss;
  lr_home : Forall (home_ok g) ss;
  lr_room : Z.of_nat (length ss) <= g_size g - 1;
  lr_cache : brep (lb s) v (home_set ss) B
}.

Definition absorb (ss : list Z) (x : Z) : list Z := if decide (x ∈ ss) then ss else ss ++ [x].

Lemma home_set_absorb ss x : home_set (absorb ss x) = {[gk g x]} ∪ home_set ss.
Proof.
  apply set_eq. intros k. rewrite elem_of_union, elem_of_singleton, !elem_of_home_set. unfold absorb.
  case_decide as Hx; split.
  - eauto.
  - intros [->|?]; eauto.
  - intros (y & -> & Hy). apply elem_of_app in Hy as [Hy|Hy%list_elem_of_singleton]; subst; eauto.
  - intros [->|(y & -> & Hy)]; [exists x|exists y]; set_solver.
Qed.

Lemma find_sector_spec ss x : Forall (home_ok g) ss ->
  (x ∈ ss -> ss !! find_sector ss x = Some x) /\ (x ∉ ss -> find_sector ss x = length ss).
Proof.
  induction 1 as [|y ss Hy Hss IH]; simpl; [split; [by intros ?%elem_of_nil|done]|].
  rewrite home_u32 by done. destruct (y =? x) eqn:E.
  - apply Z.eqb_eq in E as ->. split; [done|set_solver].
  - apply Z.eqb_neq in E. split; [intros [?|?]%elem_of_cons; [done|by apply IH]|].
    intros ?. f_equal. apply IH. set_solver.
Qed.

(** Storing a block number at the position [log_write] found. *)
Lemma absorb_header l ss x : log_at g l ss -> Forall (home_ok g) ss ->
  (length ss < Z.to_nat LOGSIZE)%nat ->
  log_at g (if Z.of_nat (find_sector ss x) =? lh_n l
            then set_lh_n (lh_n l + 1) (set_lh_sector (find_sector ss x) x l)
            else set_lh_sector (find_sector ss x) x l) (absorb ss x).
Proof.
  intros [Hd Hst Hsz Hn Hss Hlen] Hh Hroom.
  destruct (find_sector_spec ss x Hh) as [Hin Hout]. unfold absorb. case_decide as Hx.
  - specialize (Hin Hx). pose proof (lookup_lt_Some _ _ _ Hin) as Hlt. rewrite Hn.
    rewrite (proj2 (Z.eqb_neq _ _)) by lia.
    split; simpl; try done; [|by rewrite length_insert].
    rewrite take_insert_lt, Hss by lia. by apply list_insert_id.
  - rewrite (Hout Hx), Hn, Z.eqb_refl. split; simpl; try done; [rewrite length_app; simpl; lia| |by rewrite length_insert].
    rewrite length_app, Nat.add_1_r. simpl.
    rewrite (take_S_r _ _ x) by (rewrite list_lookup_insert_eq; [done|lia]).
    by rewrite take_insert_ge, Hss.
Qed.

Lemma length_absorb ss x : (length (absorb ss x) <= S (length ss))%nat.
Proof. unfold absorb. case_decide; rewrite ?length_app; simpl; lia. Qed.

Lemma NoDup_absorb ss x : NoDup ss -> NoDup (absorb ss x).
Proof.
  intros Hnd. unfold absorb. case_decide; [done|]. apply NoDup_app. split_and!; [done| |apply NoDup_singleton].
  intros y Hy ->%list_elem_of_singleton. done.
Qed.

Lemma Forall_absorb (P : Z -> Prop) ss x : P x -> Forall P ss -> Forall P (absorb ss x).
Proof. intros. unfold absorb. case_decide; [done|]. by apply Forall_app; split; [|constructor]. Qed.

Lemma log_write_spec s v ss B i x :
  lrep s v ss B -> holds (lb s) i (gk g x) -> home_ok g x ->
  Z.of_nat (length ss) < g_size g - 1 -> 1 <= l_outstanding (lg s) ->
  wp (log_write i) s (fun _ s' => lrep s' v (absorb ss x) B /\
    l_outstanding (lg s') = l_outstanding (lg s) /\ l_committing (lg s') = l_committing (lg s) /\
    (forall j k, holds (lb s) j k -> holds (lb s') j k) /\ dk (lb s') = dk (lb s)).
Proof.
  intros [Hl Hlk Hnd Hh Hr R] Hi Hx Hroom Hout. destruct s as [l b]. cbn [lg lb] in *.
  pose proof Hg as [_ _ Hs _ _]. change LOGSIZE with 30 in Hs.
  unfold log_write. apply wp_bind, wp_gets. cbn [lg].
  rewrite (la_n _ _ _ Hl), (la_size _ _ _ Hl), Nat2Z.id, (la_ss _ _ _ Hl).
  change LOGSIZE with 30. rewrite !(proj2 (Z.leb_gt _ _)) by lia.
  rewrite (proj2 (Z.ltb_ge _ _)) by lia. cbn [orb].
  apply wp_bind, wp_gets. cbn [lb].
  destruct (holds_data _ _ _ _ R _ _ Hi) as (bb & _ & Hbo & Hk & _). rewrite Hbo.
  assert (sector bb = x) as -> by (unfold bkey in Hk; injection Hk; done).
  assert (s32 x = x) as -> by (destruct Hx; apply s32_small; lia).
  assert (find_sector ss x <= length ss)%nat as Hfi.
  { destruct (find_sector_spec ss x Hh) as [Hin Hno]. destruct (decide (x ∈ ss)) as [E|E].
    - specialize (Hin E). apply lookup_lt_Some in Hin. lia.
    - rewrite (Hno E). lia. }
  unfold put_sector. apply wp_bind, wp_bind, wp_gets. cbn [lg]. rewrite (la_len _ _ _ Hl).
  change (Z.to_nat LOGSIZE) with 30%nat. rewrite (proj2 (Nat.ltb_lt _ _)) by lia.
  apply wp_modify. unfold put_lg. cbn [lg lb].
  pose proof (absorb_header l ss x Hl Hh) as Hl'. rewrite (la_n _ _ _ Hl) in Hl'.
  set (l1 := if _ =? _ then _ else _) in Hl'.
  eapply wp_seq with (P := fun _ s' => s' = mklst l1 b).
  { subst l1. destruct (_ =? _); simpl; [by apply wp_modify|by apply wp_ret]. }
  intros _ s1 ->. apply wp_lift. eapply wp_conseq; [by apply (mark_dirty_spec _ _ _ _ i (gk g x) R)|].
  intros _ b2 (R2 & Hk2 & Hdk2 & _). rewrite <- home_set_absorb in R2.
  pose proof (length_absorb ss x). split; [|subst l1; by destruct (_ =? _)].
  split; cbn [lg lb]; try done.
  - apply Hl'. change (Z.to_nat LOGSIZE) with 30%nat. lia.
  - subst l1. by destruct (_ =? _).
  - by apply NoDup_absorb.
  - by apply Forall_absorb.
  - lia.
Qed.

(** [begin_op] when the log is quiet and there is room. *)
Lemma begin_op_spec s v ss B :
  lrep s v ss B -> l_committing (lg s) = 0 ->
  Z.of_nat (length ss) + (l_outstanding (lg s) + 1) * MAXOPBLOCKS <= LOGSIZE ->
  wp begin_op s (fun _ s' => lrep s' v ss B /\ lb s' = lb s /\
    l_outstanding (lg s') = l_outstanding (lg s) + 1 /\ l_committing (lg s') = 0).
Proof.
  intros [Hl Hlk Hnd Hh Hr R] Hc Hroom. destruct s as [l b]. cbn [lg lb] in *.
  unfold begin_op, acquire_log, release_log. apply wp_bind, wp_bind, wp_gets. cbn [lg]. rewrite Hlk.
  apply wp_modify, wp_bind, wp_gets.
  cbn [lg put_lg set_l_lock l_committing lh_n l_outstanding]. rewrite Hc. cbn [Z.eqb negb].
  rewrite (la_n _ _ _ Hl), (proj2 (Z.ltb_ge _ _)) by done. apply wp_bind, wp_modify, wp_bind, wp_gets.
  apply wp_modify. destruct Hl. by split_and!.
Qed.

(** [begin_op] otherwise. *)
Lemma begin_op_waits s v ss B : lrep s v ss B ->
  (l_committing (lg s) = 0 -> LOGSIZE < Z.of_nat (length ss) + (l_outstanding (lg s) + 1) * MAXOPBLOCKS) ->
  begin_op s = Sleep ChLog s.
Proof.
  intros [Hl Hlk _ _ _ _] Hd. destruct s as [[lk' st sz out com dv n sec] b].
  destruct Hl as [_ _ _ Hn _ _]. cbn [lg l_lock lh_n l_outstanding l_committing] in *. subst lk' n.
  unfold begin_op, acquire_log, release_log, bind, gets, modify_lg, modify, put_lg, park.
  cbn [lg lb l_lock set_l_lock l_committing lh_n l_outstanding].
  destruct (Z.eqb_spec com 0) as [->|]; [|done]. cbn [negb]. by rewrite (proj2 (Z.ltb_lt _ _)) by auto.
Qed.

(** What a commit leaves in every block outside the log: what the cache holds. *)
Lemma commit_writes_out v ss k :
  Forall (home_ok g) ss -> Z.of_nat (length ss) <= g_size g - 1 ->
  (forall i, (i < length ss)%nat -> k <> lk g i) -> k <> hk g ->
  upds v (commit_writes v ss) k = v k.
Proof.
  intros Hss Hlen Hk1 Hk2. unfold commit_writes. rewrite !upds_app. simpl. rewrite upd_ne by done.
  rewrite home_writes_same.
  - rewrite upd_ne by done. apply upds_other. intros (i & Hi & E)%log_writes_keys. by apply (Hk1 i).
  - intros x Hx. rewrite Forall_forall in Hss. pose proof (Hss _ Hx) as Hhx.
    rewrite upd_ne by by apply home_ne_hk.
    apply upds_other. intros (i & Hi & E)%log_writes_keys. apply (home_ne_lk x i Hhx) in E; [done|lia].
Qed.

Definition out_of_log (k : key) : Prop := k.1 = g_dev g -> ~ in_region g k.2.

Lemma out_ne_lk k i : out_of_log k -> Z.of_nat i < g_size g - 1 -> k <> lk g i.
Proof. intros Ho Hi ->. apply Ho; [done|]. unfold in_region. simpl. lia. Qed.

Lemma out_ne_hk k : out_of_log k -> k <> hk g.
Proof. intros Ho ->. apply Ho; [done|]. unfold in_region. simpl. destruct Hg. lia. Qed.

(** [commit] on any transaction, empty ones included. *)
Lemma commit_any_spec l b v ss :
  log_at g l ss -> NoDup ss -> Forall (home_ok g) ss -> Z.of_nat (length ss) <= g_size g - 1 ->
  brep b v (home_set ss) ∅ ->
  wp commit (mklst l b) (fun _ s' => exists b' v', s' = mklst (set_lh_n 0 l) b' /\
    brep b' v' ∅ ∅ /\ (forall k, out_of_log k -> v' k = v k) /\ (ss = [] -> v' = v)).
Proof.
  intros Hl Hnd Hss Hlen R. destruct ss as [|x ss'] eqn:E.
  - unfold commit. apply wp_bind, wp_gets. cbn [lg]. rewrite (la_n _ _ _ Hl). simpl. apply wp_ret.
    exists b, v. split_and!; [|exact R|done|done]. destruct Hl as [_ _ _ Hn _ _], l. simpl in Hn. by subst.
  - rewrite <- E in *. eapply wp_conseq; [apply (commit_spec l b v ss); try done; subst; simpl in *; lia|].
    intros _ s' (b' & -> & R' & _). exists b', (upds v (commit_writes v ss)). split_and!; try done.
    + intros k Hk. apply commit_writes_out; try done; [|by apply out_ne_hk].
      intros i Hi. apply out_ne_lk; [done|lia].
    + by subst.
Qed.

Lemma wakeup_brep c b v D B : brep b v D B -> wp (wakeup c) b (fun _ b' =>
  brep b' v D B /\ bc b' = bc b /\ dk b' = dk b /\ woken b' = c :: woken b).
Proof. intros []. apply wp_modify. split_and!; try done. Qed.

(** [end_op] by an operation that is not the last one outstanding. *)
Lemma end_op_more_spec s v ss B :
  lrep s v ss B -> l_committing (lg s) = 0 -> l_outstanding (lg s) <> 1 ->
  wp end_op s (fun _ s' => lrep s' v ss B /\ bc (lb s') = bc (lb s) /\ dk (lb s') = dk (lb s) /\
    l_outstanding (lg s') = l_outstanding (lg s) - 1 /\ l_committing (lg s') = 0 /\
    woken (lb s') = ChLog :: woken (lb s)).
Proof.
  intros [Hl Hlk Hnd Hh Hr R] Hc Ho. destruct s as [l b]. cbn [lg lb] in *.
  unfold end_op, acquire_log, release_log. apply wp_bind, wp_bind, wp_gets. cbn [lg]. rewrite Hlk.
  apply wp_modify, wp_bind, wp_modify, wp_bind, wp_gets.
  cbn [lg put_lg set_l_lock set_l_outstanding l_committing lh_n l_outstanding]. rewrite Hc. cbn [Z.eqb negb].
  rewrite (proj2 (Z.eqb_neq (l_outstanding l - 1) 0)) by lia.
  eapply wp_lift_seq; [by apply (wakeup_brep ChLog)|]. intros _ b' (R' & Hbc & Hdk & Hw).
  apply wp_bind, wp_bind, wp_gets. cbn [lg put_lg set_l_lock l_lock]. apply wp_modify, wp_ret.
  destruct Hl. by split_and!.
Qed.

(** [end_op] by the last one commits: every cached block outside the log is on
    the disk, the transaction is empty and sleepers in [begin_op] are woken. *)
Lemma end_op_last_spec s v ss :
  lrep s v ss ∅ -> l_committing (lg s) = 0 -> l_outstanding (lg s) = 1 ->
  wp end_op s (fun _ s' => exists v', lrep s' v' [] ∅ /\
    (forall k, out_of_log k -> v' k = v k /\ disk_get (dk (lb s')) k = v k) /\
    l_outstanding (lg s') = 0 /\ l_committing (lg s') = 0 /\ ChLog ∈ woken (lb s') /\ (ss = [] -> v' = v)).
Proof.
  intros [Hl Hlk Hnd Hh Hr R] Hc Ho. destruct s as [l b]. cbn [lg lb] in *.
  unfold end_op, acquire_log, release_log. apply wp_bind, wp_bind, wp_gets. cbn [lg]. rewrite Hlk.
  apply wp_modify, wp_bind, wp_modify, wp_bind, wp_gets.
  cbn [lg put_lg set_l_lock set_l_outstanding l_committing lh_n l_outstanding]. rewrite Hc, Ho. cbn [Z.eqb negb].
  apply wp_bind, wp_modify, wp_bind, wp_bind, wp_gets.
  cbn [lg lb put_lg set_l_lock l_lock set_l_committing]. apply wp_modify. cbn [when Z.sub].
  unfold put_lg at 1. cbn [lg lb]. set (l1 := set_l_lock false _).
  assert (log_at g l1 ss) as Hl1 by (destruct Hl; by split).
  eapply wp_seq; [by apply (commit_any_spec l1 b v ss)|]. intros _ s2 (b2 & v2 & -> & R2 & Hv2 & Hnil).
  apply wp_bind, wp_bind, wp_gets. cbn [lg set_lh_n l1 set_l_lock l_lock]. apply wp_modify, wp_bind, wp_modify.
  unfold put_lg. cbn [lg lb].
  eapply wp_lift_seq; [by apply (wakeup_brep ChLog)|]. intros _ b3 (R3 & Hbc & Hdk & Hw).
  apply wp_bind, wp_gets. cbn [lg lb]. apply wp_modify. unfold put_lg. cbn [lg lb].
  exists v2. split_and!; try done.
  - split; cbn [lg lb]; try done; [|constructor|].
    + destruct Hl. by split.
    + simpl. destruct Hg. lia.
  - intros k Hk. rewrite <- (br_clean _ _ _ _ R3) by set_solver. auto.
  - rewrite Hw. set_solver.
Qed.

End on_geometry.

(** The geometry the superblock describes. *)
Definition sb_geom (sb : superblock) : geom :=
  mkgeom ROOTDEV (s32 (sb_size sb - sb_nlog sb)) (s32 (sb_nlog sb)).

(** A header [recover_from_log] can replay. *)
Definition head_ok (g : geom) (d : block) : Prop :=
  0 <= head_n d <= g_size g - 1 /\ Forall (home_ok g) (head_list d).

Lemma initlog_spec b v g :
  brep b v ∅ ∅ -> on_device (ROOTDEV, 1) -> sb_geom (sb_decode (v (ROOTDEV, 1))) = g ->
  geom_ok g -> head_ok g (v (hk g)) ->
  wp initlog (mklst zero_log b) (fun _ s' => exists l' b', s' = mklst l' b' /\
    log_at g l' [] /\ l_lock l' = false /\ l_outstanding l' = 0 /\ l_committing l' = 0 /\
    brep b' (upds v (recover_writes g v)) ∅ ∅ /\ dk b' = disk_puts (recover_writes g v) (dk b)).
Proof.
  intros R Hon Hsb Hg [Hn Hss]. unfold initlog. change (BSIZE <=? 4 + 4 * LOGSIZE) with false.
  cbn [negb]. apply wp_bind, wp_modify. unfold put_lg. cbn [lg lb].
  eapply wp_seq.
  { apply (readsb_spec _ b v ∅ ∅ ROOTDEV R); [done|done|set_solver| |done].
    rewrite union_empty_r_L, size_empty. unfold NBUF. lia. }
  intros sb s1 (b1 & -> & -> & R1 & Hdk1 & _). apply wp_bind, wp_modify. unfold put_lg. cbn [lg lb].
  eapply wp_conseq; [apply (recover_from_log_spec g Hg _ b1 v []); try done|].
  - rewrite <- Hsb. by split.
  - intros _ s' (l' & b' & ? & ? & ? & ? & ? & ? & ?). exists l', b'. rewrite <- Hdk1. done.
Qed.

(** ** The log as the file system uses it *)

Section claims.
Context (g : geom) (Hg : geom_ok g).

(** [log_write] of a held buffer inside a transaction adds its block to the
    transaction once, however often it is written (absorption), pins the
    buffer in the cache and writes nothing to the disk. *)
Theorem log_write_absorbs s v ss B i x :
  lrep g s v ss B -> holds (lb s) i (gk g x) -> home_ok g x ->
  Z.of_nat (length ss) < g_size g - 1 -> 1 <= l_outstanding (lg s) ->
  exists s', log_write i s = Ret tt s' /\
    lrep g s' v (if decide (x ∈ ss) then ss else ss ++ [x]) B /\
    (forall j k, holds (lb s) j k -> holds (lb s') j k) /\ dk (lb s') = dk (lb s).
Proof.
  intros Hr Hh Hx Hlen Ho.
  destruct (wp_eq_tt _ _ _ (log_write_spec g Hg s v ss B i x Hr Hh Hx Hlen Ho)) as (s' & E & Hr' & _ & _ & Hk & Hd).
  exists s'. auto.
Qed.

(** [begin_op] admits an operation exactly when no commit is running and
    MAXOPBLOCKS blocks can be reserved for it besides those logged and those
    reserved by the outstanding operations; otherwise it sleeps on the log
    with the log unlocked and nothing changed. *)
Theorem begin_op_reserves s v ss B :
  lrep g s v ss B ->
  (if decide (l_committing (lg s) = 0 /\
              Z.of_nat (length ss) + (l_outstanding (lg s) + 1) * MAXOPBLOCKS <= LOGSIZE)
   then exists s', begin_op s = Ret tt s' /\ lrep g s' v ss B /\ lb s' = lb s /\
          l_outstanding (lg s') = l_outstanding (lg s) + 1 /\ l_committing (lg s') = 0
   else begin_op s = Sleep ChLog s).
Proof.
  intros Hr. case_decide as Hd.
  - destruct Hd as [Hc Hroom]. exact (wp_eq_tt _ _ _ (begin_op_spec g s v ss B Hr Hc Hroom)).
  - apply (begin_op_waits g s v ss B Hr). intros Hc. lia.
Qed.

(** C3: the [end_op] of the last outstanding operation returns only after every
    block outside the log region is on the disk with the contents the cache
    had, leaves an empty transaction and wakes the sleepers in [begin_op]. *)
Theorem end_op_commits s v ss :
  lrep g s v ss ∅ -> l_committing (lg s) = 0 -> l_outstanding (lg s) = 1 ->
  exists s' v', end_op s = Ret tt s' /\ lrep g s' v' [] ∅ /\
    (forall k, out_of_log g k -> v' k = v k /\ disk_get (dk (lb s')) k = v k) /\
    l_outstanding (lg s') = 0 /\ l_committing (lg s') = 0 /\ ChLog ∈ woken (lb s').
Proof.
  intros Hr Hc Ho. destruct (wp_eq_tt _ _ _ (end_op_last_spec g Hg s v ss Hr Hc Ho)) as (s' & E & v' & Hp & Hk & Ho' & Hc' & Hw & _).
  exists s', v'. by split_and!.
Qed.
End claims.
End specs.
