(* ===== verification/Crash.v ===== *)
(** Crash safety of the log (log.c): what is on the disk when the machine stops
    after any number of the sector writes of [commit] or of recovery, and what
    the next boot makes of it.

    The disk model keeps the history of its sector writes, so the state after a
    crash is a prefix of the writes of the run that was interrupted.  The
    specification is [logical]: the contents a disk stands for, its blocks with
    the transaction in its log header (if any) installed. *)

From S2P Require Import Prelude Params BlockDev Bio Log.

(** ** Definitions *)

(** The kernel's state when [initlog] runs: caches fresh, the disk as found. *)
Definition boot (d : disk) : lst := mklst zero_log (mkbst (binit zero_bcache) d []).

(** The disk after the first [c] of the writes that lead from [d] to [d']. *)
Definition crash_at (d d' : disk) (c : nat) : disk :=
  disk_puts (take c (drop (length (hist d)) (hist d'))) d.

(** The contents a disk stands for. *)
Definition logical (g : geom) (d : disk) : (Z * Z) -> block :=
  upds (disk_get d) (install_writes g (disk_get d) (head_list (disk_get d (hk g)))).

Section crash.
Context `{BlockDev}.

(** A boot that is interrupted leaves a prefix of its writes. *)
Inductive crashed_boot : disk -> disk -> Prop :=
| crashed_boot_at d s' c :
    initlog (boot d) = Ret tt s' -> crashed_boot d (crash_at d (dk (lb s')) c).

(** A disk that can be booted: superblock, and a log header of loggable blocks. *)
Record bootable (g : geom) (d : disk) : Prop := {
  bt_ok : disk_ok d;
  bt_geom : sb_geom (sb_decode (disk_get d (ROOTDEV, 1))) = g;
  bt_head : head_ok g (disk_get d (hk g));
  bt_sb : 1 ∉ head_list (disk_get d (hk g))
}.

(** ** Lemmas *)

Lemma disk_get_puts ws : forall d k, disk_get (disk_puts ws d) k = upds (disk_get d) ws k.
Proof.
  induction ws as [|[k0 b0] ws IH] using rev_ind; intros d k; [done|].
  rewrite disk_puts_app, upds_app. simpl. unfold upd. case_decide as E.
  - subst. apply disk_get_put_same.
  - rewrite <- IH. by apply disk_get_put_ne.
Qed.

Lemma upds_shadow ws v v' k : k ∈ ws.*1 -> upds v ws k = upds v' ws k.
Proof.
  induction ws as [|[k0 b0] ws IH] using rev_ind; [by intros ?%elem_of_nil|].
  rewrite fmap_app, elem_of_app, !upds_app. simpl. unfold upd. case_decide; [done|].
  intros [?|?%list_elem_of_singleton]; [by apply IH|done].
Qed.

Lemma disk_ok_puts ws : forall d, Forall block_ok ws.*2 -> disk_ok d -> disk_ok (disk_puts ws d).
Proof.
  induction ws as [|[k b] ws IH]; intros d Hws Hd; [done|]. apply Forall_cons in Hws as [Hb Hws].
  change (disk_ok (disk_puts ws (disk_put k b d))). apply IH; [done|]. by apply disk_ok_put.
Qed.

Lemma crash_at_puts d ws c : crash_at d (disk_puts ws d) c = disk_puts (take c ws) d.
Proof. unfold crash_at. by rewrite disk_puts_hist, drop_app_length. Qed.

Section on_geometry.
Context (g : geom) (Hg : geom_ok g) (Hsb1 : ~ in_region g 1).
Context (Hon1 : on_device (ROOTDEV, 1)).

Lemma install_writes_ext v v' ss :
  (forall i, (i < length ss)%nat -> v (lk g i) = v' (lk g i)) ->
  install_writes g v ss = install_writes g v' ss.
Proof.
  intros E. apply list_eq. intros i. unfold install_writes. rewrite !list_lookup_imap.
  destruct (ss !! i) eqn:Hi; [|done]. simpl. rewrite E; [done|]. by eapply lookup_lt_Some.
Qed.

Lemma home_writes_get v w ss k :
  upds w (home_writes g v ss) k = if decide (k ∈ home_set g ss) then v k else w k.
Proof.
  case_decide as Hk.
  - rewrite (upds_shadow _ _ v) by (rewrite home_writes_keys; unfold home_set in Hk; set_solver).
    by rewrite home_writes_same.
  - apply upds_other. rewrite home_writes_keys. unfold home_set in Hk. set_solver.
Qed.

Lemma gk_ne_sb x (ss : list Z) : 1 ∉ ss -> x ∈ ss -> gk g x <> (ROOTDEV, 1).
Proof. intros H1 Hx E. injection E as _ ->. done. Qed.

Lemma sb_out : out_of_log g (ROOTDEV, 1).
Proof. intros _. done. Qed.

Lemma empty_head_ok d : block_ok d -> head_ok g (head_block [] d) /\ head_list (head_block [] d) = [].
Proof.
  intros Hd. assert (head_list (head_block [] d) = []) as E
    by (apply head_list_block; [simpl; lia|done|constructor]).
  split; [|done]. split; [|by rewrite E]. rewrite head_n_block; [|simpl; lia|done]. simpl.
  destruct Hg. lia.
Qed.

Lemma logical_empty d : head_list (disk_get d (hk g)) = [] -> forall k, logical g d k = disk_get d k.
Proof. intros E k. unfold logical. by rewrite E. Qed.

(** *** Recovery *)

(** After any prefix of the writes of recovery the disk is bootable and stands
    for the same contents. *)
Lemma recover_prefix d c d' :
  bootable g d -> d' = disk_puts (take c (recover_writes g (disk_get d))) d ->
  bootable g d' /\ (forall k, out_of_log g k -> logical g d' k = logical g d k).
Proof.
  intros [Hok Hgeo [Hn Hss] Hsb] Hd'. set (v := disk_get d) in *. set (ss := head_list (v (hk g))) in *.
  set (iw := install_writes g v ss).
  assert (forall k', k' ∈ (take c iw).*1 \/ k' ∈ iw.*1 -> exists x, x ∈ ss /\ k' = gk g x) as Hkeys.
  { intros k' [Hk|Hk]; [apply keys_take in Hk|]; by apply install_writes_keys in Hk. }
  assert (Forall block_ok iw.*2) as Hiw.
  { apply Forall_forall. intros b (i & Hi)%list_elem_of_lookup. subst iw. unfold install_writes in Hi.
    rewrite list_lookup_fmap, list_lookup_imap in Hi. destruct (ss !! i); [|done]. injection Hi as <-. apply Hok. }
  rewrite Forall_forall in Hss.
  destruct (decide (c <= length iw)%nat) as [Hc|Hc].
  - unfold recover_writes in Hd'. fold ss iw in Hd'. rewrite take_app_le in Hd' by done.
    assert (forall k, (forall x, x ∈ ss -> gk g x <> k) -> disk_get d' k = v k) as Hk.
    { intros k Hk. subst d'. rewrite disk_get_puts. apply upds_other.
      intros Hin. destruct (Hkeys k (or_introl Hin)) as (x & Hx & ->). by apply (Hk x). }
    assert (disk_get d' (hk g) = v (hk g)) as Ehk.
    { apply Hk. intros x Hx. by apply home_ne_hk, Hss. }
    split; [split|].
    + subst d'. apply disk_ok_puts; [|done]. rewrite fmap_take. by apply Forall_take.
    + rewrite Hk; [done|]. intros x. by apply gk_ne_sb.
    + rewrite Ehk. split; [done|]. by apply Forall_forall.
    + by rewrite Ehk.
    + intros k _. unfold logical. fold v. rewrite Ehk. fold ss.
      rewrite (install_writes_ext (disk_get d') v ss).
      2:{ intros i Hi. apply Hk. intros x Hx. apply (home_ne_lk g Hg x i (Hss x Hx)).
          subst ss. rewrite length_head_list in Hi. lia. }
      fold iw. destruct (decide (k ∈ iw.*1)) as [Hin|Hnin]; [by apply upds_shadow|].
      rewrite !upds_other by done. subst d'. rewrite disk_get_puts. apply upds_other.
      by intros ?%keys_take.
  - unfold recover_writes in Hd'. fold ss iw in Hd'. rewrite take_ge in Hd' by (rewrite length_app; simpl; lia).
    assert (forall k, disk_get d' k = upd (upds v iw) (hk g) (head_block [] (v (hk g))) k) as Hk.
    { intros k. subst d'. by rewrite disk_get_puts, upds_app. }
    assert (disk_get d' (hk g) = head_block [] (v (hk g))) as Ehk by by rewrite Hk, upd_same.
    destruct (empty_head_ok (v (hk g)) (Hok _)) as [Hh0 Hl0].
    split; [split|].
    + subst d'. apply disk_ok_puts; [|done]. rewrite fmap_app, Forall_app. split; [done|].
      constructor; [|done]. apply head_block_ok; [simpl; lia|apply Hok].
    + rewrite Hk, upd_ne, upds_other; [done| |].
      * intros Hin. destruct (Hkeys _ (or_intror Hin)) as (x & Hx & E). symmetry in E.
        by apply (gk_ne_sb x ss).
      * apply out_ne_hk; [done|apply sb_out].
    + by rewrite Ehk.
    + rewrite Ehk, Hl0. set_solver.
    + intros k Hout. rewrite logical_empty by by rewrite Ehk. rewrite Hk. by apply upd_ne, out_ne_hk.
Qed.

(** A boot that completes. *)
Lemma boot_completes d : bootable g d ->
  exists s', initlog (boot d) = Ret tt s' /\
    dk (lb s') = disk_puts (recover_writes g (disk_get d)) d /\
    lrep g s' (disk_get (dk (lb s'))) [] ∅ /\ l_outstanding (lg s') = 0 /\ l_committing (lg s') = 0 /\
    head_list (disk_get (dk (lb s')) (hk g)) = [].
Proof.
  intros [Hok Hgeo Hh Hsb].
  pose proof (initlog_spec (mkbst (binit zero_bcache) d []) (disk_get d) g
    (binit_brep d [] Hok) Hon1 Hgeo Hg Hh) as Hw.
  destruct (proj1 (wp_eq _ _ _) Hw) as ([] & s' & E & l' & b' & -> & Hl & Hlk & Ho & Hc & R & Hdk).
  fold (boot d) in E. cbn [dk] in Hdk.
  exists (mklst l' b'). cbn [lg lb]. split; [exact E|]. clear E Hw. split_and!; [done| |done|done|].
  - split; cbn [lg lb]; [done|done|constructor|constructor|simpl; destruct Hg; lia|].
    eapply brep_ext; [|exact R]. intros k. by rewrite Hdk, disk_get_puts.
  - rewrite Hdk, disk_get_puts. unfold recover_writes. rewrite upds_app.
    cbn [upds foldl fst snd]. rewrite upd_same. apply (empty_head_ok (disk_get d (hk g)) (Hok _)).
Qed.

Lemma boot_logical d s' : bootable g d -> initlog (boot d) = Ret tt s' ->
  forall k, out_of_log g k -> disk_get (dk (lb s')) k = logical g d k.
Proof.
  intros Hd Hs k Hk. destruct (boot_completes d Hd) as (s2 & E & Hdk & _ & _ & _ & Hempty).
  rewrite Hs in E. injection E as <-.
  rewrite <- (logical_empty _ Hempty), Hdk.
  rewrite <- (take_ge (recover_writes g (disk_get d)) (length (recover_writes g (disk_get d)))) at 1 by done.
  by apply (recover_prefix d _ _ Hd eq_refl).
Qed.

Lemma crashed_boots d d' : rtc crashed_boot d d' -> bootable g d ->
  bootable g d' /\ forall k, out_of_log g k -> logical g d' k = logical g d k.
Proof.
  induction 1 as [d|d d1 d2 Hstep _ IH]; intros Hd; [done|].
  destruct Hstep as [d s' c Hs]. destruct (boot_completes d Hd) as (s2 & E & Hdk & _).
  rewrite Hs in E. injection E as <-. rewrite Hdk, crash_at_puts in IH.
  destruct (recover_prefix d c _ Hd eq_refl) as [Hb Hlog]. destruct (IH Hb) as [Hb2 Hlog2].
  split; [done|]. intros k Hk. by rewrite Hlog2, Hlog.
Qed.

(** *** Commit *)

(** The log between operations of one transaction: the header on the disk is
    empty, and the superblock is not part of the transaction. *)
Record running (s : lst) (v : (Z * Z) -> block) (ss : list Z) : Prop := {
  rn_rep : lrep g s v ss ∅;
  rn_disk : bootable g (dk (lb s));
  rn_empty : head_list (disk_get (dk (lb s)) (hk g)) = [];
  rn_sb : 1 ∉ ss
}.

Lemma home_s32 ss : Forall (home_ok g) ss -> Forall (fun x => - 2 ^ 31 <= x < 2 ^ 31) ss.
Proof. intros Hss. eapply Forall_impl; [exact Hss|]. intros x [? _ _]. lia. Qed.

Lemma log_writes_ok v ss : (forall k, block_ok (v k)) -> Forall block_ok (log_writes g v ss).*2.
Proof.
  intros Hv. apply Forall_forall. intros b (i & Hi)%list_elem_of_lookup. unfold log_writes in Hi.
  rewrite list_lookup_fmap, list_lookup_imap in Hi. destruct (ss !! i); [|done]. injection Hi as <-. apply Hv.
Qed.

(** Writing log blocks only changes log blocks. *)
Lemma log_prefix v ss d c k :
  Z.of_nat (length ss) <= g_size g - 1 ->
  (forall i, Z.of_nat i < g_size g - 1 -> k <> lk g i) ->
  disk_get (disk_puts (take c (log_writes g v ss)) d) k = disk_get d k.
Proof.
  intros Hlen Hk. rewrite disk_get_puts. apply upds_other.
  intros (i & Hi & E)%keys_take%log_writes_keys. apply (Hk i); [lia|done].
Qed.

Lemma hk_ne_lk' i : Z.of_nat i < g_size g - 1 -> hk g <> lk g i.
Proof. intros _. apply hk_ne_lk. Qed.

Lemma before_commit v ss d c d' :
  (forall k, block_ok (v k)) -> Z.of_nat (length ss) <= g_size g - 1 ->
  bootable g d -> head_list (disk_get d (hk g)) = [] ->
  d' = disk_puts (take c (log_writes g v ss)) d ->
  bootable g d' /\ (forall k, out_of_log g k -> logical g d' k = disk_get d k).
Proof.
  intros Hv Hlen [Hok Hgeo Hh Hsb] He ->.
  pose proof (log_prefix v ss d c (hk g) Hlen hk_ne_lk') as Ehk.
  split; [split|].
  - apply disk_ok_puts; [|done]. rewrite fmap_take. by apply Forall_take, log_writes_ok.
  - rewrite log_prefix; [done..|]. intros i Hi. apply (out_ne_lk g); [apply sb_out|done].
  - by rewrite Ehk.
  - by rewrite Ehk.
  - intros k Hk. rewrite logical_empty by by rewrite Ehk.
    apply log_prefix; [done|]. intros i Hi. by apply (out_ne_lk g).
Qed.

(** The disk when the header has just been written: the commit point. *)
Definition commit_point (v : (Z * Z) -> block) (ss : list Z) (d : disk) : disk :=
  disk_puts (log_writes g v ss ++ [(hk g, head_block ss (v (hk g)))]) d.

Lemma commit_point_get v ss d k : Z.of_nat (length ss) <= g_size g - 1 -> out_of_log g k ->
  disk_get (commit_point v ss d) k = disk_get d k.
Proof.
  intros Hlen Hk. unfold commit_point. rewrite disk_get_puts, upds_app. cbn [upds foldl fst snd].
  rewrite upd_ne by by apply (out_ne_hk g Hg). apply upds_other.
  intros (i & Hi & E)%log_writes_keys. apply (out_ne_lk g k i Hk); [lia|done].
Qed.

Lemma commit_point_head v ss d :
  disk_get (commit_point v ss d) (hk g) = head_block ss (v (hk g)).
Proof. unfold commit_point. rewrite disk_get_puts, upds_app. apply upd_same. Qed.

Lemma commit_point_ok v ss d :
  (forall k, block_ok (v k)) -> Forall (home_ok g) ss -> Z.of_nat (length ss) <= g_size g - 1 ->
  1 ∉ ss -> bootable g d ->
  bootable g (commit_point v ss d) /\ head_list (disk_get (commit_point v ss d) (hk g)) = ss.
Proof.
  intros Hv Hss Hlen H1 [Hok Hgeo Hh Hsb]. pose proof (head_room g Hg ss Hlen) as Hroom.
  assert (head_list (disk_get (commit_point v ss d) (hk g)) = ss) as E.
  { rewrite commit_point_head. apply head_list_block; [done|apply Hv|by apply home_s32]. }
  split; [split|done].
  - unfold commit_point. apply disk_ok_puts; [|done]. rewrite fmap_app, Forall_app.
    split; [by apply log_writes_ok|]. constructor; [|done]. by apply head_block_ok.
  - rewrite commit_point_get; [done..|apply sb_out].
  - split; [|by rewrite E]. rewrite commit_point_head, head_n_block; [lia|done|apply Hv].
  - by rewrite E.
Qed.

Lemma commit_point_installs v ss d :
  Z.of_nat (length ss) <= g_size g - 1 ->
  install_writes g (disk_get (commit_point v ss d)) ss = home_writes g v ss.
Proof.
  intros Hlen. rewrite <- (install_after_log g v ss (head_block ss (v (hk g)))).
  apply install_writes_ext. intros i Hi. unfold commit_point. rewrite disk_get_puts.
  rewrite !upds_app. cbn [upds foldl fst snd]. rewrite !upd_ne by apply lk_ne_hk.
  apply upds_shadow. unfold log_writes. rewrite list_elem_of_fmap.
  destruct (lookup_lt_is_Some_2 ss i Hi) as [x Hx]. exists (lk g i, v (gk g x)). split; [done|].
  apply list_elem_of_lookup. exists i. by rewrite list_lookup_imap, Hx.
Qed.

(** [commit] writes the log and the header, and then exactly what recovery
    would write from there. *)
Lemma commit_writes_split v ss d :
  Forall (home_ok g) ss -> Z.of_nat (length ss) <= g_size g - 1 -> (forall k, block_ok (v k)) ->
  commit_writes g v ss =
    (log_writes g v ss ++ [(hk g, head_block ss (v (hk g)))]) ++
    recover_writes g (disk_get (commit_point v ss d)).
Proof.
  intros Hss Hlen Hv. unfold commit_writes, recover_writes.
  rewrite commit_point_head, head_list_block;
    [|by apply (head_room g Hg)|apply Hv|by apply home_s32].
  by rewrite commit_point_installs.
Qed.

Lemma logical_commit_point v ss d k :
  (forall k, block_ok (v k)) -> Forall (home_ok g) ss -> Z.of_nat (length ss) <= g_size g - 1 ->
  (forall k, k ∉ home_set g ss -> v k = disk_get d k) -> out_of_log g k ->
  logical g (commit_point v ss d) k = v k.
Proof.
  intros Hv Hss Hlen Hclean Hk. unfold logical.
  rewrite commit_point_head, head_list_block, commit_point_installs, home_writes_get by
    (done || apply Hv || by apply (head_room g Hg) || by apply home_s32).
  case_decide; [done|]. rewrite commit_point_get by done. symmetry. by apply Hclean.
Qed.

(** The state of the disk after [c] writes of [commit]. *)
Lemma commit_prefix s v ss c :
  running s v ss ->
  let d' := disk_puts (take c (commit_writes g v ss)) (dk (lb s)) in
  bootable g d' /\ forall k, out_of_log g k ->
    logical g d' k = if Nat.leb c (length ss) then disk_get (dk (lb s)) k else v k.
Proof.
  intros [[_ _ Hnd Hh Hr R] Hb He H1] d'. pose proof (br_vok _ _ _ _ R) as Hv.
  assert (length (log_writes g v ss) = length ss) as Hlw by apply length_imap.
  destruct (Nat.leb_spec c (length ss)) as [Hc|Hc].
  - apply (before_commit v ss (dk (lb s)) c); try done. subst d'. unfold commit_writes.
    rewrite <- app_assoc, take_app_le by lia. done.
  - destruct (commit_point_ok v ss (dk (lb s)) Hv Hh Hr H1 Hb) as [Hbp Hhd].
    set (dp := commit_point v ss (dk (lb s))) in *.
    assert (d' = disk_puts (take (c - S (length ss)) (recover_writes g (disk_get dp))) dp) as Hd'.
    { subst d'. rewrite (commit_writes_split v ss (dk (lb s)) Hh Hr Hv). fold dp.
      rewrite take_app_ge by (rewrite length_app; simpl; lia).
      rewrite disk_puts_app, length_app, Hlw. simpl. by rewrite Nat.add_1_r. }
    destruct (recover_prefix dp _ d' Hbp Hd') as [Hb' Hlog]. split; [done|].
    intros k Hk. rewrite Hlog by done. apply logical_commit_point; try done.
    intros k' Hk'. apply (br_clean _ _ _ _ R); [done|set_solver].
Qed.

(** C1: a crash at any point of [commit], followed by any number of boots that
    themselves crash, is recovered by the next boot to the whole transaction
    or to none of it: every block outside the log region is as it was on the
    disk before the transaction when at most [length ss] sectors had been
    written (the log blocks), and as the buffer cache had it otherwise. *)
Theorem commit_crash_safe s v ss :
  running s v ss -> (0 < length ss)%nat ->
  exists s', commit s = Ret tt s' /\ forall c d',
    rtc crashed_boot (crash_at (dk (lb s)) (dk (lb s')) c) d' ->
    exists s2, initlog (boot d') = Ret tt s2 /\ forall k, out_of_log g k ->
      disk_get (dk (lb s2)) k = if Nat.leb c (length ss) then disk_get (dk (lb s)) k else v k.
Proof.
  intros Hrun Hpos. pose proof Hrun as [[Hl _ Hnd Hh Hr R] _ _ _]. destruct s as [l b]. cbn [lg lb] in *.
  assert (0 < Z.of_nat (length ss) <= g_size g - 1) as Hr' by lia.
  destruct (proj1 (wp_eq _ _ _) (commit_spec g Hg l b v ss Hl Hnd Hh Hr' R))
    as ([] & s' & E & b' & -> & _ & Hdk).
  exists (mklst (set_lh_n 0 l) b'). split; [exact E|]. clear E. intros c d'.
  cbn [lb]. rewrite Hdk, crash_at_puts. intros Hboots.
  destruct (commit_prefix _ v ss c Hrun) as [Hb Hlog]. cbn [lb] in *.
  destruct (crashed_boots _ d' Hboots Hb) as [Hb' Hlog'].
  destruct (boot_completes d' Hb') as (s2 & Hs2 & _). exists s2. split; [exact Hs2|].
  intros k Hk. rewrite (boot_logical d' s2 Hb' Hs2 k Hk), (Hlog' k Hk). exact (Hlog k Hk).
Qed.

(** C7: recovery is idempotent under crashes: however many boots are cut short
    after however many of their writes, a boot that completes leaves in every
    block outside the log what the first disk stood for, an empty log and a
    clean buffer cache. *)
Theorem recovery_idempotent d d' :
  bootable g d -> rtc crashed_boot d d' ->
  exists s, initlog (boot d') = Ret tt s /\ lrep g s (disk_get (dk (lb s))) [] ∅ /\
    head_list (disk_get (dk (lb s)) (hk g)) = [] /\
    forall k, out_of_log g k -> disk_get (dk (lb s)) k = logical g d k.
Proof.
  intros Hb Hboots. destruct (crashed_boots d d' Hboots Hb) as [Hb' Hlog].
  destruct (boot_completes d' Hb') as (s & Hs & _ & Hrep & _ & _ & He).
  exists s. split; [exact Hs|]. split; [exact Hrep|]. split; [exact He|].
  intros k Hk. rewrite (boot_logical d' s Hb' Hs k Hk). exact (Hlog k Hk).
Qed.
End on_geometry.
End crash.

(** ** Witnesses on the memory disk *)

Module CrashWitness.

#[local] Instance dev : BlockDev := memide_dev 1024.

(** A file system of 1024 blocks with the log in the last 30. *)
Definition sb_block : block :=
  put32 0 1024 (put32 4 941 (put32 8 200 (put32 12 30 zero_block))).
Definition d0 : disk := mkdisk {[(1, 1) := sb_block]} [].
Definition g0 : geom := mkgeom 1 994 30.

(** A transaction that fills block 70 with the byte 7. *)
Definition open_txn : M lst nat :=
  begin_op ;;
  bp <- lift (bread 1 70) ;;
  lift (write_data bp (replicate 512 7)) ;;
  ret bp.
Definition txn : M lst unit :=
  bp <- open_txn ;;
  log_write bp ;;
  lift (brelse bp).

Lemma geom_ok_g0 : geom_ok g0.
Proof.
  split; simpl; [change NODEV with 4294967295; lia|lia|change LOGSIZE with 30; lia|lia|].
  intros x Hx. unfold in_region in Hx. simpl in *. lia.
Qed.

Lemma bootable_d0 : bootable g0 d0.
Proof.
  split.
  - intros k. unfold disk_get, img_get, d0. simpl. destruct (decide (k = (1, 1))) as [->|Hne].
    + rewrite lookup_singleton_eq. simpl. do 4 (apply put32_block_ok; [lia|]). apply zero_block_ok.
    + rewrite lookup_singleton_ne by done. apply zero_block_ok.
  - vm_compute. reflexivity.
  - assert (head_n (disk_get d0 (hk g0)) = 0) as E by (vm_compute; reflexivity).
    split; [rewrite E; simpl; lia|]. unfold head_list. rewrite E. constructor.
  - assert (head_list (disk_get d0 (hk g0)) = []) as -> by (vm_compute; reflexivity). set_solver.
Qed.

Lemma home_70 : home_ok g0 70.
Proof. split; simpl; [lia|unfold in_region; simpl; lia|lia]. Qed.

Abbreviation v70 s := (upd (disk_get (dk (lb s))) (1, 70) (replicate 512 7)).

Lemma open_txn_spec s : running g0 s (disk_get (dk (lb s))) [] ->
  l_outstanding (lg s) = 0 -> l_committing (lg s) = 0 ->
  wp open_txn s (fun i s' => lrep g0 s' (v70 s) [] {[(1, 70)]} /\ holds (lb s') i (1, 70) /\
    l_outstanding (lg s') = 1 /\ l_committing (lg s') = 0 /\ dk (lb s') = dk (lb s)).
Proof.
  intros [Hrep Hb He H1] Ho Hc. unfold open_txn.
  eapply wp_seq; [apply (begin_op_spec g0 s _ _ _ Hrep Hc); rewrite Ho; done|].
  intros _ [l1 b1] (Hrep1 & Eb & Ho1 & Hc1). cbn [lb lg] in *. subst b1.
  pose proof (lr_cache _ _ _ _ _ Hrep1) as R1. cbn [lb] in R1.
  eapply wp_lift_seq.
  { apply (bread_spec _ _ _ _ 1 70 R1); [done|set_solver| |done]. right. vm_compute. lia. }
  intros i b2 (R2 & Hh2 & _ & Hdk2 & _).
  eapply wp_lift_seq; [apply (write_data_spec _ _ _ _ i (1, 70) (replicate 512 7) R2 Hh2)|].
  { split; [by rewrite length_replicate|]. apply Forall_replicate. unfold is_u8. lia. }
  intros _ b3 (R3 & Hk3 & Hdk3 & _). apply wp_ret. cbn [lb lg]. destruct Hrep1.
  split_and!; [by split|by apply Hk3|lia|done|by rewrite Hdk3, Hdk2].
Qed.

Lemma txn_running s : running g0 s (disk_get (dk (lb s))) [] ->
  l_outstanding (lg s) = 0 -> l_committing (lg s) = 0 ->
  wp txn s (fun _ s' => running g0 s' (v70 s) [70] /\ l_outstanding (lg s') = 1 /\ l_committing (lg s') = 0).
Proof.
  intros Hrun Ho Hc. eapply wp_seq; [by apply open_txn_spec|].
  intros i [l3 b3] (Hrep3 & Hh3 & Ho3 & Hc3 & Hdk3). cbn [lb lg] in *. destruct Hrun as [_ Hb He H1].
  eapply wp_seq; [apply (log_write_spec g0 geom_ok_g0 _ _ _ _ i 70 Hrep3 Hh3 home_70); [done|cbn [lg]; lia]|].
  intros _ [l4 b4] (Hrep4 & Ho4 & Hc4 & Hk4 & Hdk4). cbn [lb lg] in *.
  apply wp_lift. eapply wp_conseq.
  { apply (brelse_spec _ _ _ _ i (1, 70) (lr_cache _ _ _ _ _ Hrep4)); [by apply Hk4|left].
    apply elem_of_home_set. exists 70. split; [done|set_solver]. }
  intros _ b5 (R5 & _ & Hdk5 & _).
  assert (dk b5 = dk (lb s)) as Edk by (rewrite Hdk5; cbn [lb]; by rewrite Hdk4, Hdk3).
  cbn [lg]. split_and!; [|lia|lia].
  split; cbn [lb]; rewrite ?Edk; [|done|done|set_solver].
  destruct Hrep4. by split.
Qed.

Definition s0 : lst := match initlog (boot d0) with Ret _ s => s | _ => boot d0 end.
Definition sm : nat * lst := match open_txn s0 with Ret i s => (i, s) | _ => (0%nat, s0) end.
Definition s1 : lst := match txn s0 with Ret _ s => s | _ => s0 end.


Lemma sb_outside : ~ in_region g0 1.
Proof. unfold in_region. simpl. lia. Qed.

Lemma sb_on : on_device (ROOTDEV, 1).
Proof. split; [reflexivity|simpl; lia]. Qed.

Lemma s0_running : running g0 s0 (disk_get (dk (lb s0))) [] /\ l_outstanding (lg s0) = 0 /\
  l_committing (lg s0) = 0.
Proof.
  destruct (boot_completes g0 geom_ok_g0 sb_on d0 bootable_d0) as (s & E & Hdk & Hrep & Ho & Hc & He).
  unfold s0. rewrite E. clear E. split; [|split; [exact Ho|exact Hc]].
  split; [exact Hrep| |exact He|apply not_elem_of_nil].
  rewrite Hdk. rewrite <- (take_ge (recover_writes g0 (disk_get d0)) _ (le_n _)).
  apply (recover_prefix g0 geom_ok_g0 sb_outside sb_on d0 _ _ bootable_d0 eq_refl).
Qed.

Lemma s1_running : running g0 s1 (v70 s0) [70] /\ l_outstanding (lg s1) = 1 /\ l_committing (lg s1) = 0.
Proof.
  destruct s0_running as (Hrun & Ho & Hc).
  destruct (proj1 (wp_eq _ _ _) (txn_running s0 Hrun Ho Hc)) as ([] & s & E & Hs).
  unfold s1. rewrite E. exact Hs.
Qed.

Lemma sm_open : lrep g0 sm.2 (v70 s0) [] {[(1, 70)]} /\ holds (lb sm.2) sm.1 (1, 70) /\
  l_outstanding (lg sm.2) = 1.
Proof.
  destruct s0_running as (Hrun & Ho & Hc).
  destruct (proj1 (wp_eq _ _ _) (open_txn_spec s0 Hrun Ho Hc)) as (i & s & E & Hs & Hh & Hos & _).
  unfold sm. rewrite E. split; [exact Hs|]. split; [exact Hh|exact Hos].
Qed.

Lemma commit_crash_safe_witness :
  exists s', commit s1 = Ret tt s' /\ forall c d',
    rtc crashed_boot (crash_at (dk (lb s1)) (dk (lb s')) c) d' ->
    exists s2, initlog (boot d') = Ret tt s2 /\ forall k, out_of_log g0 k ->
      disk_get (dk (lb s2)) k = if Nat.leb c 1 then disk_get (dk (lb s1)) k
                                else v70 s0 k.
Proof.
  apply (commit_crash_safe g0 geom_ok_g0 sb_outside sb_on s1 _ [70] (proj1 s1_running)). simpl. lia.
Defined.

Lemma recovery_idempotent_witness :
  exists s, initlog (boot d0) = Ret tt s /\ lrep g0 s (disk_get (dk (lb s))) [] ∅ /\
    head_list (disk_get (dk (lb s)) (hk g0)) = [] /\
    forall k, out_of_log g0 k -> disk_get (dk (lb s)) k = logical g0 d0 k.
Proof.
  apply (recovery_idempotent g0 geom_ok_g0 sb_outside sb_on d0 d0 bootable_d0). apply rtc_refl.
Defined.

Lemma log_write_absorbs_witness :
  exists s', log_write sm.1 sm.2 = Ret tt s' /\ lrep g0 s' (v70 s0) [70] {[(1, 70)]} /\
    (forall j k, holds (lb sm.2) j k -> holds (lb s') j k) /\ dk (lb s') = dk (lb sm.2).
Proof.
  destruct sm_open as (Hr & Hh & Ho).
  apply (log_write_absorbs g0 geom_ok_g0 sm.2 _ [] _ sm.1 70 Hr Hh home_70); [simpl; lia|rewrite Ho; lia].
Defined.

Lemma begin_op_reserves_witness :
  exists s', begin_op s0 = Ret tt s' /\ lrep g0 s' (disk_get (dk (lb s0))) [] ∅ /\ lb s' = lb s0 /\
    l_outstanding (lg s') = l_outstanding (lg s0) + 1 /\ l_committing (lg s') = 0.
Proof.
  destruct s0_running as (Hrun & Ho & Hc).
  pose proof (begin_op_reserves g0 s0 _ [] ∅ (rn_rep _ _ _ _ Hrun)) as Hb. rewrite decide_True in Hb; [exact Hb|].
  split; [exact Hc|]. rewrite Ho. simpl. unfold LOGSIZE, MAXOPBLOCKS. lia.
Defined.

Lemma end_op_commits_witness :
  exists s' v', end_op s1 = Ret tt s' /\ lrep g0 s' v' [] ∅ /\
    (forall k, out_of_log g0 k -> v' k = v70 s0 k /\ disk_get (dk (lb s')) k = v70 s0 k) /\
    l_outstanding (lg s') = 0 /\ l_committing (lg s') = 0 /\ ChLog ∈ woken (lb s').
Proof.
  destruct s1_running as (Hrun & Ho & Hc).
  exact (end_op_commits g0 geom_ok_g0 s1 _ [70] (rn_rep _ _ _ _ Hrun) Hc Ho).
Defined.
End CrashWitness.

(** ** The reservation of [begin_op] and the capacity of the log *)

Module Capacity.
Section capacity.
Context `{BlockDev} (g : geom) (Hg : geom_ok g).

(** What an operation does to a block: the operations that [begin_op] admitted
    together share the log, so the order of their blocks is one sequence. *)
Definition log_block (x : Z) : M lst unit :=
  bp <- lift (bread (g_dev g) x) ;;
  log_write bp ;;
  lift (brelse bp).
Definition begin_ops (n : nat) : M lst unit := for_each (seq 0 n) (fun _ => begin_op).

Lemma home_set_small ss : NoDup ss -> Z.of_nat (length ss) <= g_size g - 1 -> (size (home_set g ss ∪ ∅) < NBUF)%nat.
Proof.
  intros Hnd Hr. rewrite union_empty_r_L, size_home_set by done. pose proof (go_size _ Hg) as Hs.
  change LOGSIZE with 30 in Hs. change NBUF with 30%nat. lia.
Qed.

Lemma bread_home s v ss x : lrep g s v ss ∅ -> home_ok g x ->
  wp (lift (bread (g_dev g) x)) s (fun i s' => lrep g s' v ss {[gk g x]} /\ holds (lb s') i (gk g x) /\
    lg s' = lg s).
Proof.
  intros [Hl Hlk Hnd Hh Hr R] Hx. destruct s as [l b]. cbn [lg lb] in *. apply wp_lift. eapply wp_conseq.
  { apply (bread_spec _ _ _ _ (g_dev g) x R); [by apply dev_ne|set_solver|right; by apply home_set_small|apply Hx]. }
  intros i b' (R' & Hi & _). rewrite union_empty_r_L in R'. by split_and!.
Qed.

Lemma log_block_ok s v ss x : lrep g s v ss ∅ -> 1 <= l_outstanding (lg s) -> home_ok g x -> x ∉ ss ->
  Z.of_nat (length ss) < g_size g - 1 ->
  wp (log_block x) s (fun _ s' => lrep g s' v (ss ++ [x]) ∅ /\ l_outstanding (lg s') = l_outstanding (lg s)).
Proof.
  intros Hr Ho Hx Hin Hlen. eapply wp_seq; [by apply (bread_home s v ss x)|]. intros i s1 (Hr1 & Hi & Hl1). rewrite <- Hl1 in Ho |- *.
  eapply wp_seq; [by apply (log_write_spec g Hg s1 v ss {[gk g x]} i x)|]. intros [] [l2 b2] (Hr2 & Ho2 & _ & Hk & _). cbn [lg lb] in *.
  unfold absorb in Hr2. rewrite decide_False in Hr2 by done. apply wp_lift. eapply wp_conseq.
  { apply (brelse_spec _ _ _ _ i (gk g x) (lr_cache _ _ _ _ _ Hr2)); [by apply Hk|left]. apply elem_of_home_set. set_solver. }
  intros [] b3 (R3 & _). rewrite difference_diag_L in R3. split; [|done]. destruct Hr2. by split.
Qed.

Lemma log_block_full s v ss x : lrep g s v ss ∅ -> home_ok g x -> Z.of_nat (length ss) = g_size g - 1 ->
  exists s', log_block x s = Panic "too big a transaction" s'.
Proof.
  intros Hr Hx Hlen. destruct (proj1 (wp_eq _ _ _) (bread_home s v ss x Hr Hx)) as (i & s1 & E & Hr1 & _).
  exists s1. unfold log_block, bind. rewrite E. unfold log_write, bind, gets.
  pose proof (lr_log _ _ _ _ _ Hr1) as Hl. rewrite (la_n _ _ _ Hl), (la_size _ _ _ Hl), Hlen, Z.leb_refl. by rewrite orb_true_r.
Qed.

Lemma log_blocks_fit v xs : forall s ss, lrep g s v ss ∅ -> 1 <= l_outstanding (lg s) -> Forall (home_ok g) xs -> NoDup (ss ++ xs) ->
  if Z.of_nat (length (ss ++ xs)) <=? g_size g - 1
  then exists s', for_each xs log_block s = Ret tt s' /\ lrep g s' v (ss ++ xs) ∅
  else exists s', for_each xs log_block s = Panic "too big a transaction" s'.
Proof.
  induction xs as [|x xs IH]; intros s ss Hr Ho Hh Hnd.
  { rewrite app_nil_r. rewrite (proj2 (Z.leb_le _ _)) by apply Hr. by exists s. }
  apply Forall_cons in Hh as [Hx Hh]. assert (x ∉ ss) as Hin by (apply NoDup_app in Hnd as (_ & Hd & _); intros Hs; by apply (Hd x Hs), elem_of_cons; left).
  cbn [for_each]. destruct (decide (Z.of_nat (length ss) = g_size g - 1)) as [Hfull|Hroom].
  - rewrite length_app. cbn [length]. rewrite (proj2 (Z.leb_gt _ _)) by lia.
    destruct (log_block_full s v ss x Hr Hx Hfull) as [s' E]. exists s'. unfold bind. by rewrite E.
  - pose proof (lr_room _ _ _ _ _ Hr).
    destruct (wp_eq_tt _ _ _ (log_block_ok s v ss x Hr Ho Hx Hin ltac:(lia))) as (s1 & E & Hr1 & Ho1).
    specialize (IH s1 (ss ++ [x]) Hr1 ltac:(lia) Hh). rewrite <- app_assoc in IH. unfold bind. rewrite E. by apply IH.
Qed.

Lemma begin_ops_ok v ss n : forall s, lrep g s v ss ∅ -> l_committing (lg s) = 0 ->
  Z.of_nat (length ss) + (l_outstanding (lg s) + Z.of_nat n) * MAXOPBLOCKS <= LOGSIZE ->
  exists s', begin_ops n s = Ret tt s' /\ lrep g s' v ss ∅ /\ lb s' = lb s /\
    l_outstanding (lg s') = l_outstanding (lg s) + Z.of_nat n /\ l_committing (lg s') = 0.
Proof.
  unfold begin_ops. generalize 0%nat. induction n as [|n IH]; intros k s Hr Hc Hroom; cbn [seq for_each].
  { exists s. rewrite Z.add_0_r. by split_and!. }
  unfold MAXOPBLOCKS, LOGSIZE in *.
  destruct (wp_eq_tt _ _ _ (begin_op_spec g s v ss _ Hr Hc ltac:(unfold MAXOPBLOCKS, LOGSIZE; lia))) as (s1 & E & Hr1 & Hb1 & Ho1 & Hc1).
  destruct (IH (S k) s1 Hr1 Hc1 ltac:(lia)) as (s' & E' & Hr' & Hb' & Ho' & Hc'). unfold bind. rewrite E. exists s'.
  split_and!; [done|done|congruence|lia|done].
Qed.

(** C38: the capacity of the log.  From any state with an empty transaction,
    [begin_op] admits LOGSIZE / MAXOPBLOCKS = 3 operations at once and makes a
    fourth wait.  The admitted operations, whatever the order in which they log
    their blocks [xs], all distinct, get them into the transaction when they
    are at most the blocks of the log less the one of its header, and one block
    more makes [log_write] panic. *)
Theorem log_capacity s v xs : lrep g s v [] ∅ -> l_outstanding (lg s) = 0 -> l_committing (lg s) = 0 ->
  Forall (home_ok g) xs -> NoDup xs ->
  exists s3, begin_ops (Z.to_nat (LOGSIZE / MAXOPBLOCKS)) s = Ret tt s3 /\ begin_op s3 = Sleep ChLog s3 /\
    if Z.of_nat (length xs) <=? g_size g - 1
    then exists s', for_each xs log_block s3 = Ret tt s' /\ lrep g s' v xs ∅
    else exists s', for_each xs log_block s3 = Panic "too big a transaction" s'.
Proof.
  intros Hr Ho Hc Hh Hnd. change (Z.to_nat (LOGSIZE / MAXOPBLOCKS)) with 3%nat.
  destruct (begin_ops_ok v [] 3 s Hr Hc) as (s3 & E & Hr3 & _ & Ho3 & Hc3); [rewrite Ho; done|]. rewrite Ho in Ho3.
  exists s3. split; [done|]. split; [|by apply (log_blocks_fit v xs s3 []); [|lia| |]].
  pose proof (begin_op_waits g s3 v [] ∅ Hr3) as Hw. apply Hw. rewrite Ho3. unfold LOGSIZE, MAXOPBLOCKS. cbn. lia.
Qed.
End capacity.

#[local] Instance dev : BlockDev := memide_dev 1024.

(** Thirty blocks for the three operations, ten each, are one too many; with
    nine each they fit. *)
Lemma log_capacity_witness :
  (exists s3 s', begin_ops (Z.to_nat (LOGSIZE / MAXOPBLOCKS)) CrashWitness.s0 = Ret tt s3 /\
     for_each (seqZ 100 30) (log_block CrashWitness.g0) s3 = Panic "too big a transaction" s') /\
  (exists s3 s', begin_ops (Z.to_nat (LOGSIZE / MAXOPBLOCKS)) CrashWitness.s0 = Ret tt s3 /\
     for_each (seqZ 100 27) (log_block CrashWitness.g0) s3 = Ret tt s').
Proof.
  destruct CrashWitness.s0_running as (Hrun & Ho & Hc).
  assert (forall n, (n <= 30)%nat -> Forall (home_ok CrashWitness.g0) (seqZ 100 (Z.of_nat n))) as Hh.
  { intros n Hn. apply Forall_forall. intros x Hx%elem_of_seqZ. split; cbn; [lia|unfold in_region; cbn; lia|lia]. }
  pose proof (fun xs => log_capacity CrashWitness.g0 CrashWitness.geom_ok_g0 CrashWitness.s0 _ xs (rn_rep _ _ _ _ Hrun) Ho Hc) as H.
  clear Hrun Ho Hc. revert H. generalize CrashWitness.s0. intros s0 H. split.
  - destruct (H (seqZ 100 30) (Hh 30%nat ltac:(lia)) (NoDup_seqZ _ _)) as (s3 & E & _ & E'). exists s3.
    change (_ <=? _) with false in E'. destruct E' as [s' E']. exists s'. split; [exact E|exact E'].
  - destruct (H (seqZ 100 27) (Hh 27%nat ltac:(lia)) (NoDup_seqZ _ _)) as (s3 & E & _ & E'). exists s3.
    change (_ <=? _) with true in E'. destruct E' as (s' & E' & _). exists s'. split; [exact E|exact E'].
Defined.
End Capacity.
