(* ===== verification/CString.v ===== *)
(** Byte and string routines: string.c (kernel) and ulib.c (user library).

    Routines that write through pointers that may overlap ([memmove], [memset])
    work on a byte memory; routines that only read a string take the bytes from
    the pointer on ([s i] is [s[i]]), and the copying routines whose buffers do
    not overlap return the bytes they store.  Scans that run until a NUL take
    fuel, and are shown to return with it. *)

From S2P Require Import Prelude.

(** ** Definitions *)

Definition mem : Type := Z -> Z.
Definition wr (a x : Z) (m : mem) : mem := fun b => if b =? a then x else m b.

(** x86.h [stosb] and [stosl]: store a byte / a little-endian long [cnt] times. *)
Fixpoint stosb (cnt : nat) (a data : Z) (m : mem) : mem :=
  match cnt with
  | O => m
  | S k => stosb k (a + 1) data (wr a (u8 data) m)
  end.
Definition wr_long (a data : Z) (m : mem) : mem :=
  wr (a + 3) (u8 (Z.shiftr data 24)) (wr (a + 2) (u8 (Z.shiftr data 16))
    (wr (a + 1) (u8 (Z.shiftr data 8)) (wr a (u8 data) m))).
Fixpoint stosl (cnt : nat) (a data : Z) (m : mem) : mem :=
  match cnt with
  | O => m
  | S k => stosl k (a + 4) data (wr_long a data m)
  end.

Module Kstring.

(** string.c [memset] *)
Definition memset (dst c n : Z) (m : mem) : mem :=
  if (Z.rem (s32 dst) 4 =? 0) && (n mod 4 =? 0) then
    let c := Z.land c 255 in
    stosl (Z.to_nat (n / 4)) dst
      (Z.lor (Z.lor (Z.lor (Z.shiftl c 24) (Z.shiftl c 16)) (Z.shiftl c 8)) c) m
  else stosb (Z.to_nat n) dst c m.

(** string.c [memcmp] *)
Fixpoint memcmp (s1 s2 : nat -> Z) (n : nat) : Z :=
  match n with
  | O => 0
  | S k =>
      if negb (s1 O =? s2 O) then s1 O - s2 O
      else memcmp (fun i => s1 (S i)) (fun i => s2 (S i)) k
  end.

(** string.c [memmove]: the two copying loops and the choice between them. *)
Fixpoint copy_down (n : nat) (d s : Z) (m : mem) : mem :=
  match n with
  | O => m
  | S k => copy_down k (d - 1) (s - 1) (wr (d - 1) (m (s - 1)) m)
  end.
Fixpoint copy_up (n : nat) (d s : Z) (m : mem) : mem :=
  match n with
  | O => m
  | S k => copy_up k (d + 1) (s + 1) (wr d (m s) m)
  end.
Definition memmove (dst src n : Z) (m : mem) : mem :=
  if (src <? dst) && (dst <? u32 (src + n)) then copy_down (Z.to_nat n) (dst + n) (src + n) m
  else copy_up (Z.to_nat n) dst src m.

(** string.c [memcpy] *)
Definition memcpy (dst src n : Z) (m : mem) : mem := memmove dst src n m.

(** string.c [strncmp] *)
Fixpoint strncmp (p q : nat -> Z) (n : nat) : Z :=
  match n with
  | O => 0
  | S k =>
      if negb (p O =? 0) && (p O =? q O) then strncmp (fun i => p (S i)) (fun i => q (S i)) k
      else u8 (p O) - u8 (q O)
  end.

(** string.c [strncpy]: the bytes stored from [s] on. *)
Fixpoint strncpy_loop (t : nat -> Z) (n : nat) : list Z :=
  match n with
  | O => []
  | S k => t O :: (if t O =? 0 then replicate k 0 else strncpy_loop (fun i => t (S i)) k)
  end.
Definition strncpy (t : nat -> Z) (n : Z) : list Z := strncpy_loop t (Z.to_nat n).

(** string.c [safestrcpy]: the bytes stored from [s] on.  [k] is [n] after the
    decrement of the loop test. *)
Fixpoint safestrcpy_loop (t : nat -> Z) (k : nat) : list Z :=
  match k with
  | O => [0]
  | S k' => t O :: (if t O =? 0 then [0] else safestrcpy_loop (fun i => t (S i)) k')
  end.
Definition safestrcpy (t : nat -> Z) (n : Z) : list Z :=
  if n <=? 0 then [] else safestrcpy_loop t (Z.to_nat (n - 1)).

(** string.c [strlen] *)
Fixpoint strlen_from (fuel : nat) (s : nat -> Z) (n : nat) : option nat :=
  match fuel with
  | O => None
  | S f => if s n =? 0 then Some n else strlen_from f s (S n)
  end.
Definition strlen (fuel : nat) (s : nat -> Z) : option nat := strlen_from fuel s 0.

End Kstring.

Module Ulib.

(** ulib.c [strcpy]: the bytes stored, up to and with the NUL. *)
Fixpoint strcpy (fuel : nat) (t : nat -> Z) : option (list Z) :=
  match fuel with
  | O => None
  | S f =>
      if t O =? 0 then Some [0]
      else match strcpy f (fun i => t (S i)) with Some l => Some (t O :: l) | None => None end
  end.

(** ulib.c [strcmp] *)
Fixpoint strcmp (fuel : nat) (p q : nat -> Z) : option Z :=
  match fuel with
  | O => None
  | S f =>
      if negb (p O =? 0) && (p O =? q O) then strcmp f (fun i => p (S i)) (fun i => q (S i))
      else Some (u8 (p O) - u8 (q O))
  end.

(** ulib.c [strlen] *)
Definition strlen (fuel : nat) (s : nat -> Z) : option nat := Kstring.strlen_from fuel s 0.

(** ulib.c [memset] *)
Definition memset (dst c n : Z) (m : mem) : mem := stosb (Z.to_nat n) dst c m.

(** ulib.c [strchr]: the index of the first [c], if it comes before the NUL. *)
Fixpoint strchr (fuel : nat) (s : nat -> Z) (c : Z) (i : nat) : option (option nat) :=
  match fuel with
  | O => None
  | S f =>
      if s i =? 0 then Some None
      else if s i =? c then Some (Some i)
      else strchr f s c (S i)
  end.

(** ulib.c [atoi], on a string given as its bytes (a missing byte is the NUL). *)
Fixpoint atoi_loop (s : list Z) (n : Z) : Z :=
  match s with
  | c :: s' => if (48 <=? c) && (c <=? 57) then atoi_loop s' (s32 (n * 10 + c - 48)) else n
  | [] => n
  end.
Definition atoi (s : list Z) : Z := atoi_loop s 0.

(** ulib.c [memmove] *)
Definition memmove (dst src n : Z) (m : mem) : mem := Kstring.copy_up (Z.to_nat n) dst src m.

(** ulib.c [gets]: [input] is what successive one-byte reads of descriptor 0
    return, [None] standing for a read that returns less than 1. *)
Fixpoint gets_loop (room : nat) (input : list (option Z)) : list Z :=
  match room, input with
  | S r, Some c :: rest => c :: (if (c =? 10) || (c =? 13) then [] else gets_loop r rest)
  | _, _ => []
  end.
Definition gets (max : Z) (input : list (option Z)) : list Z :=
  gets_loop (Z.to_nat (max - 1)) input ++ [0].

End Ulib.

(** ** Properties *)

Lemma wr_same a x m : wr a x m a = x.
Proof. unfold wr. by rewrite Z.eqb_refl. Qed.

Lemma wr_ne a b x m : b <> a -> wr a x m b = m b.
Proof. intros. unfold wr. by rewrite (proj2 (Z.eqb_neq _ _)). Qed.

Lemma stosb_spec cnt : forall a data m b,
  stosb cnt a data m b = if decide (a <= b < a + Z.of_nat cnt) then u8 data else m b.
Proof.
  induction cnt as [|k IH]; intros a data m b; simpl; [case_decide; [lia|done]|].
  rewrite IH. destruct (decide (b = a)) as [->|Hne].
  - rewrite decide_False, decide_True by lia. apply wr_same.
  - rewrite wr_ne by done. do 2 case_decide; lia || done.
Qed.

(** The replicated word of [memset], byte by byte. *)
Definition rep4 (c : Z) : Z :=
  Z.lor (Z.lor (Z.lor (Z.shiftl c 24) (Z.shiftl c 16)) (Z.shiftl c 8)) c.

Lemma rep4_bytes c : 0 <= c < 256 ->
  u8 (rep4 c) = c /\ u8 (Z.shiftr (rep4 c) 8) = c /\
  u8 (Z.shiftr (rep4 c) 16) = c /\ u8 (Z.shiftr (rep4 c) 24) = c.
Proof.
  intros Hc.
  assert (forallb (fun i => let c := Z.of_nat i in (u8 (rep4 c) =? c) && (u8 (Z.shiftr (rep4 c) 8) =? c) &&
    (u8 (Z.shiftr (rep4 c) 16) =? c) && (u8 (Z.shiftr (rep4 c) 24) =? c)) (seq 0 256) = true) as H
    by (vm_compute; reflexivity).
  rewrite forallb_forall in H. specialize (H (Z.to_nat c)).
  rewrite Z2Nat.id in H by lia. cbv zeta in H. rewrite !andb_true_iff, !Z.eqb_eq in H.
  destruct H as [[[? ?] ?] ?]; [|done]. apply in_seq. lia.
Qed.

Lemma stosl_spec cnt : forall a c m b, 0 <= c < 256 ->
  stosl cnt a (rep4 c) m b = if decide (a <= b < a + 4 * Z.of_nat cnt) then c else m b.
Proof.
  induction cnt as [|k IH]; intros a c m b Hc; cbn [stosl]; [case_decide; [lia|done]|].
  rewrite IH by done. destruct (rep4_bytes c Hc) as (E0 & E1 & E2 & E3).
  unfold wr_long, wr. rewrite E0, E1, E2, E3.
  destruct (decide (a + 4 <= b < _)); [rewrite decide_True by lia; done|].
  repeat case_bool; subst; repeat case_decide; lia || done.
Qed.

(** [memset] stores the low byte of [c] in exactly the [n] bytes from
    [dst] on, whether it stores bytes or, when both are multiples of four,
    longs. *)
Lemma memset_fills dst c n m b : 0 <= n ->
  Kstring.memset dst c n m b = if decide (dst <= b < dst + n) then u8 c else m b.
Proof.
  intros Hn. unfold Kstring.memset. fold (rep4 (Z.land c 255)).
  assert (Z.land c 255 = u8 c) as ->.
  { change 255 with (Z.ones 8). by rewrite Z.land_ones. }
  case_match eqn:E; [|rewrite stosb_spec, Z2Nat.id by lia; done].
  apply andb_true_iff in E as [_ E%Z.eqb_eq].
  rewrite stosl_spec by (apply Z.mod_pos_bound; lia).
  rewrite Z2Nat.id by (apply Z.div_pos; lia).
  replace (4 * (n / 4)) with n; [done|]. pose proof (Z.div_mod n 4). lia.
Qed.

(** *** memmove *)

Lemma copy_down_spec n : forall d s m b, s <= d ->
  Kstring.copy_down n d s m b =
    if decide (d - Z.of_nat n <= b < d) then m (b - d + s) else m b.
Proof.
  induction n as [|k IH]; intros d s m b Hs; cbn [Kstring.copy_down]; [case_decide; [lia|done]|].
  rewrite IH by lia. destruct (decide (b = d - 1)) as [->|Hb].
  - rewrite decide_False, decide_True, wr_same by lia. f_equal. lia.
  - case_decide.
    + rewrite wr_ne, decide_True by lia. f_equal. lia.
    + rewrite wr_ne by done. rewrite decide_False by lia. done.
Qed.

Lemma copy_up_spec n : forall d s m b, d <= s \/ s + Z.of_nat n <= d ->
  Kstring.copy_up n d s m b =
    if decide (d <= b < d + Z.of_nat n) then m (b - d + s) else m b.
Proof.
  induction n as [|k IH]; intros d s m b Hs; cbn [Kstring.copy_up]; [case_decide; [lia|done]|].
  rewrite IH by lia. destruct (decide (b = d)) as [->|Hb].
  - rewrite decide_False, decide_True, wr_same by lia. f_equal. lia.
  - case_decide.
    + rewrite wr_ne, decide_True by lia. f_equal. lia.
    + rewrite wr_ne by done. rewrite decide_False by lia. done.
Qed.

Lemma memmove_spec dst src n m b :
  0 <= n -> 0 <= src -> src + n < 2 ^ 32 ->
  Kstring.memmove dst src n m b =
    if decide (dst <= b < dst + n) then m (b - dst + src) else m b.
Proof.
  intros Hn Hs Hr. unfold Kstring.memmove. rewrite u32_small by lia.
  destruct (Z.ltb_spec src dst), (Z.ltb_spec dst (src + n)); cbn [andb].
  - rewrite copy_down_spec by lia. rewrite Z2Nat.id by lia.
    replace (b - (dst + n) + (src + n)) with (b - dst + src) by lia.
    do 2 case_decide; lia || done.
  - rewrite copy_up_spec, Z2Nat.id by lia. done.
  - rewrite copy_up_spec, Z2Nat.id by lia. done.
  - rewrite copy_up_spec, Z2Nat.id by lia. done.
Qed.

(** The kernel's [memmove] copies the [n] bytes at [src] to [dst] as they
    were before the call, for every way the two ranges can overlap, and
    changes nothing else. *)
Theorem memmove_copies dst src n m b :
  0 <= n -> 0 <= src -> src + n < 2 ^ 32 ->
  Kstring.memmove dst src n m b =
    if decide (dst <= b < dst + n) then m (b - dst + src) else m b.
Proof. apply memmove_spec. Qed.

Lemma memmove_copies_witness : Kstring.memmove 12 10 4 (fun a => a) 14 = 12.
Proof. rewrite (memmove_copies 12 10 4); [reflexivity|lia|lia|lia]. Defined.

(** The user library's [memmove] only copies upwards: it agrees with the
    kernel's when the destination does not start inside the source, and
    otherwise (here, moving four bytes up by one) repeats the first byte. *)
Theorem ulib_memmove_forward :
  (forall dst src n m b, 0 <= n -> dst <= src \/ src + n <= dst ->
     Ulib.memmove dst src n m b = if decide (dst <= b < dst + n) then m (b - dst + src) else m b) /\
  (Ulib.memmove 11 10 4 (fun a => a) <$> [11; 12; 13; 14] = [10; 10; 10; 10] /\
   Kstring.memmove 11 10 4 (fun a => a) <$> [11; 12; 13; 14] = [10; 11; 12; 13]).
Proof.
  split; [|split; reflexivity]. intros dst src n m b Hn Hd. unfold Ulib.memmove.
  rewrite copy_up_spec, Z2Nat.id by (rewrite ?Z2Nat.id; lia). done.
Qed.

(** *** Strings *)

(** The string at [p], at most [n] bytes of it. *)
Fixpoint cname (n : nat) (p : nat -> Z) : list Z :=
  match n with
  | O => []
  | S k => if p O =? 0 then [] else p O :: cname k (fun i => p (S i))
  end.

(** The bytes of a list as a pointer to its first element. *)
Definition at_list (l : list Z) : nat -> Z := fun i => default 0 (l !! i).

Lemma at_list_u8 l : Forall is_u8 l -> forall i, is_u8 (at_list l i).
Proof.
  intros Hl i. unfold at_list. destruct (l !! i) as [x|] eqn:E; simpl; [by eapply Forall_lookup_1|].
  unfold is_u8. lia.
Qed.

Lemma cname_ext n : forall p q, (forall i, (i < n)%nat -> p i = q i) -> cname n p = cname n q.
Proof.
  induction n as [|k IH]; intros p q E; simpl; [done|]. rewrite (E O) by lia.
  destruct (_ =? _); [done|]. f_equal. apply IH. intros i Hi. apply E. lia.
Qed.

Lemma cname_length n : forall p, (length (cname n p) <= n)%nat.
Proof. induction n; intros p; simpl; [lia|]. destruct (_ =? _); simpl; [lia|]. specialize (IHn (fun i => p (S i))). lia. Qed.

Lemma cname_nonzero n : forall p, Forall (fun c => c <> 0) (cname n p).
Proof.
  induction n; intros p; simpl; [constructor|]. destruct (Z.eqb_spec (p O) 0); [constructor|].
  constructor; auto.
Qed.

Lemma strncmp_zero n : forall p q,
  (forall i, is_u8 (p i)) -> (forall i, is_u8 (q i)) ->
  Kstring.strncmp p q n = 0 <-> cname n p = cname n q.
Proof.
  induction n as [|k IH]; intros p q Hp Hq; simpl; [done|].
  assert (u8 (p O) = p O) as Ep by (apply Z.mod_small, Hp).
  assert (u8 (q O) = q O) as Eq by (apply Z.mod_small, Hq). rewrite Ep, Eq.
  destruct (Z.eqb_spec (p O) 0) as [Hz|Hz]; simpl.
  - rewrite Hz. destruct (Z.eqb_spec (q O) 0) as [Hz'|Hz']; [split; [done|lia]|].
    split; [lia|done].
  - destruct (Z.eqb_spec (p O) (q O)) as [E|E].
    + rewrite IH by auto. rewrite <- E, (proj2 (Z.eqb_neq _ _) Hz). split; [intros Ec; by rewrite Ec|]. intros Ec. by injection Ec.
    + split; [lia|]. destruct (Z.eqb_spec (q O) 0); [done|]. intros [= ? _]. lia.
Qed.

(** [strncmp] returns zero exactly when the two strings agree, up to the
    first NUL and at most [n] bytes of them. *)
Theorem strncmp_zero_iff n p q :
  (forall i, is_u8 (p i)) -> (forall i, is_u8 (q i)) ->
  Kstring.strncmp p q n = 0 <-> cname n p = cname n q.
Proof. apply strncmp_zero. Qed.

Lemma strncmp_zero_iff_witness :
  Kstring.strncmp (at_list [97; 98; 0; 5]) (at_list [97; 98; 0; 9]) 14 = 0 <->
  cname 14 (at_list [97; 98; 0; 5]) = cname 14 (at_list [97; 98; 0; 9]).
Proof.
  apply (strncmp_zero_iff 14); apply at_list_u8; repeat constructor; unfold is_u8; lia.
Defined.

Lemma length_strncpy_loop n : forall t, length (Kstring.strncpy_loop t n) = n.
Proof.
  induction n as [|k IH]; intros t; simpl; [done|]. f_equal. case_match; [apply length_replicate|apply IH].
Qed.

Lemma cname_strncpy_loop n : forall t, cname n (at_list (Kstring.strncpy_loop t n)) = cname n t.
Proof.
  induction n as [|k IH]; intros t; simpl; [done|].
  change (at_list _ O) with (t O). destruct (t O =? 0); [done|]. f_equal. apply (IH (fun i => t (S i))).
Qed.

Lemma strncpy_loop_pad n : forall t i, (length (cname n t) <= i < n)%nat ->
  Kstring.strncpy_loop t n !! i = Some 0.
Proof.
  induction n as [|k IH]; intros t i Hi; [lia|]. simpl in *.
  destruct (Z.eqb_spec (t O) 0) as [E|E]; simpl in Hi.
  - destruct i as [|i]; simpl; [by rewrite E|]. apply lookup_replicate. split; [done|lia].
  - destruct i as [|i]; simpl; [lia|]. apply IH. lia.
Qed.

(** [strncpy] stores exactly [n] bytes: the source string as far as it
    fits, then zeros; reading the copy back gives the same string. *)
Lemma strncpy_copies t n : 0 <= n ->
  length (Kstring.strncpy t n) = Z.to_nat n /\
  cname (Z.to_nat n) (at_list (Kstring.strncpy t n)) = cname (Z.to_nat n) t /\
  (forall i, (length (cname (Z.to_nat n) t) <= i < Z.to_nat n)%nat -> Kstring.strncpy t n !! i = Some 0).
Proof.
  intros Hn. unfold Kstring.strncpy.
  split; [apply length_strncpy_loop|]. split; [apply cname_strncpy_loop|]. apply strncpy_loop_pad.
Qed.

Lemma safestrcpy_loop_spec k : forall t,
  exists tail, Kstring.safestrcpy_loop t k = cname k t ++ 0 :: tail /\
    (length (Kstring.safestrcpy_loop t k) <= S k)%nat.
Proof.
  induction k as [|k IH]; intros t; simpl; [by exists []|].
  destruct (Z.eqb_spec (t O) 0) as [E|E].
  - exists [0]. rewrite E. simpl. split; [done|lia].
  - destruct (IH (fun i => t (S i))) as (tail & -> & Hl). exists tail. simpl. split; [done|].
    rewrite length_app in *. simpl in *. lia.
Qed.

(** [safestrcpy] never stores more than [n] bytes and what it stores is the
    first [n-1] bytes of the string at most, always followed by a NUL. *)
Lemma safestrcpy_terminates t n : 0 < n ->
  exists tail, Kstring.safestrcpy t n = cname (Z.to_nat (n - 1)) t ++ 0 :: tail /\
    Z.of_nat (length (Kstring.safestrcpy t n)) <= n.
Proof.
  intros Hn. unfold Kstring.safestrcpy. rewrite (proj2 (Z.leb_gt _ _)) by lia.
  destruct (safestrcpy_loop_spec (Z.to_nat (n - 1)) t) as (tail & E & Hl). exists tail. split; [done|lia].
Qed.

(** [strlen] with enough fuel. *)
Lemma strlen_from_spec n : forall fuel s i, s (i + n)%nat = 0 ->
  (forall j, (j < n)%nat -> s (i + j)%nat <> 0) -> (n < fuel)%nat ->
  Kstring.strlen_from fuel s i = Some (i + n)%nat.
Proof.
  induction n as [|n IH]; intros fuel s i Hz Hnz Hf; (destruct fuel as [|f]; [lia|]); simpl.
  - rewrite Nat.add_0_r in *. by rewrite Hz.
  - rewrite (proj2 (Z.eqb_neq _ _)) by (rewrite <- (Nat.add_0_r i); apply Hnz; lia).
    rewrite (IH f s (S i)); [f_equal; lia| |intros j Hj|lia].
    + by rewrite <- Hz; f_equal; lia.
    + replace (S i + j)%nat with (i + S j)%nat by lia. apply Hnz. lia.
Qed.

(** ** Words in memory *)
Definition ld_long (a : Z) (m : mem) : Z :=
  m a + 2 ^ 8 * m (a + 1) + 2 ^ 16 * m (a + 2) + 2 ^ 24 * m (a + 3).

Lemma ld_wr_long_same a x m : ld_long a (wr_long a x m) = u32 x.
Proof.
  unfold ld_long, wr_long.
  rewrite (wr_ne (a + 3) a), (wr_ne (a + 2) a), (wr_ne (a + 1) a), (wr_ne (a + 3) (a + 1)), (wr_ne (a + 2) (a + 1)),
    (wr_ne (a + 3) (a + 2)), !wr_same by lia.
  rewrite !Z.shiftr_div_pow2 by lia. unfold u8, u32.
  pose proof (Z.div_mod x (2 ^ 8) ltac:(lia)) as E1.
  pose proof (Z.div_mod (x / 2 ^ 8) (2 ^ 8) ltac:(lia)) as E2.
  pose proof (Z.div_mod (x / 2 ^ 16) (2 ^ 8) ltac:(lia)) as E3.
  pose proof (Z.div_mod (x / 2 ^ 24) (2 ^ 8) ltac:(lia)) as E4.
  rewrite Z.div_div in E2, E3, E4 by lia.
  change (2 ^ 8 * 2 ^ 8) with (2 ^ 16) in E2. change (2 ^ 16 * 2 ^ 8) with (2 ^ 24) in E3.
  change (2 ^ 24 * 2 ^ 8) with (2 ^ 32) in E4. pose proof (Z.div_mod x (2 ^ 32) ltac:(lia)). lia.
Qed.

Lemma wr_long_out a x m b : b < a \/ a + 4 <= b -> wr_long a x m b = m b.
Proof. intros H. unfold wr_long. by rewrite !wr_ne by lia. Qed.

Lemma ld_long_ext a m m' : (forall b, a <= b < a + 4 -> m' b = m b) -> ld_long a m' = ld_long a m.
Proof. intros H. unfold ld_long. by rewrite !H by lia. Qed.
