(* ===== verification/Fs.v ===== *)
(** The file system below the system calls: fs.c.

    Block allocation ([balloc], [bfree]), the inode cache ([iget], [ilock],
    [iput], ...), inode contents ([bmap], [readi], [writei], [itrunc]).  The
    state is the log with its buffer cache (Log.v) together with the inode
    cache; an inode pointer is an index into [icache.inode], so it is never
    null.  The device switch is a parameter, since its entries are function
    pointers installed at run time; it works on a state component [ext] of its
    own besides the file system's. *)

From S2P Require Import Prelude Params BlockDev Bio Log.

(** ** State *)

(** [struct inode] (file.h) *)
Record inode : Type := mkinode {
  i_dev : Z;
  i_inum : Z;
  i_ref : Z;
  i_flags : Z;
  i_type : Z;
  i_major : Z;
  i_minor : Z;
  i_nlink : Z;
  i_size : Z;
  i_addrs : list Z
}.

Definition zero_inode : inode := mkinode 0 0 0 0 0 0 0 0 0 (replicate 13 0).
#[export] Instance inode_inhabited : Inhabited inode := populate zero_inode.

Record icache : Type := mkicache { ic_lock : bool; ic_inode : list inode }.

Record fsst (E : Type) : Type := mkfs { fl : lst; ic : icache; ext : E }.
Arguments mkfs {E} _ _ _.
Arguments fl {E} _.
Arguments ic {E} _.
Arguments ext {E} _.

Definition set_i_ref (x : Z) (i : inode) : inode :=
  mkinode (i_dev i) (i_inum i) x (i_flags i) (i_type i) (i_major i) (i_minor i) (i_nlink i) (i_size i) (i_addrs i).
Definition set_i_flags (x : Z) (i : inode) : inode :=
  mkinode (i_dev i) (i_inum i) (i_ref i) x (i_type i) (i_major i) (i_minor i) (i_nlink i) (i_size i) (i_addrs i).
Definition set_i_type (x : Z) (i : inode) : inode :=
  mkinode (i_dev i) (i_inum i) (i_ref i) (i_flags i) x (i_major i) (i_minor i) (i_nlink i) (i_size i) (i_addrs i).
Definition set_i_dev3 (maj min nl : Z) (i : inode) : inode :=
  mkinode (i_dev i) (i_inum i) (i_ref i) (i_flags i) (i_type i) maj min nl (i_size i) (i_addrs i).
Definition set_i_nlink (x : Z) (i : inode) : inode :=
  set_i_dev3 (i_major i) (i_minor i) x i.
Definition set_i_size (x : Z) (i : inode) : inode :=
  mkinode (i_dev i) (i_inum i) (i_ref i) (i_flags i) (i_type i) (i_major i) (i_minor i) (i_nlink i) x (i_addrs i).
Definition set_i_addrs (l : list Z) (i : inode) : inode :=
  mkinode (i_dev i) (i_inum i) (i_ref i) (i_flags i) (i_type i) (i_major i) (i_minor i) (i_nlink i) (i_size i) l.
Definition set_i_addr (n : nat) (x : Z) (i : inode) : inode := set_i_addrs (<[n := x]> (i_addrs i)) i.

(** ** [struct dinode] (fs.h): the 64 bytes of an inode in its disk block *)

Record dinode : Type := mkdinode {
  d_type : Z;
  d_major : Z;
  d_minor : Z;
  d_nlink : Z;
  d_size : Z;
  d_addrs : list Z
}.

(** Where inode [inum] is in the block [IBLOCK(inum)]. *)
Definition dinode_off (inum : Z) : nat := Z.to_nat (inum mod IPB * DINODE_SIZE).

Definition get_dinode (off : nat) (d : block) : dinode :=
  mkdinode (s16 (get16 off d)) (s16 (get16 (off + 2) d)) (s16 (get16 (off + 4) d))
    (s16 (get16 (off + 6) d)) (get32 (off + 8) d)
    ((fun i => get32 (off + 12 + 4 * i) d) <$> seq 0 13).

Fixpoint put_addrs (off : nat) (l : list Z) (d : block) : block :=
  match l with
  | [] => d
  | x :: l' => put_addrs (off + 4) l' (put32 off x d)
  end.
Definition put_dinode (off : nat) (x : dinode) (d : block) : block :=
  put_addrs (off + 12) (d_addrs x)
    (put32 (off + 8) (d_size x) (put16 (off + 6) (u16 (d_nlink x)) (put16 (off + 4) (u16 (d_minor x))
      (put16 (off + 2) (u16 (d_major x)) (put16 off (u16 (d_type x)) d))))).

(** [struct stat] (stat.h) *)
Record stat : Type := mkstat { st_type : Z; st_dev : Z; st_ino : Z; st_nlink : Z; st_size : Z }.

(** ** Operations *)

Section with_device.
Context `{BlockDev} {E : Type}.
Abbreviation FS := (M (fsst E)).

Definition put_fl (l : lst) (s : fsst E) : fsst E := mkfs l (ic s) (ext s).
Definition put_ic (c : icache) (s : fsst E) : fsst E := mkfs (fl s) c (ext s).
Definition liftl {A} (m : M lst A) : FS A := zoom fl put_fl m.
Definition liftb {A} (m : M bst A) : FS A := liftl (lift m).

(** An entry of [devsw] (file.h). *)
Record devops : Type := mkdevops {
  dv_read : option (nat -> Z -> FS (Z * list Z));
  dv_write : option (nat -> list Z -> Z -> FS Z)
}.

Definition inode_of (s : fsst E) (ip : nat) : inode := ic_inode (ic s) !!! ip.
Definition update_inode (ip : nat) (f : inode -> inode) : FS unit :=
  modify (fun s => put_ic (mkicache (ic_lock (ic s)) (<[ip := f (inode_of s ip)]> (ic_inode (ic s)))) s).
Definition get_inode (ip : nat) : FS inode := gets (fun s => inode_of s ip).

Definition acquire_icache : FS unit :=
  l <- gets (fun s => ic_lock (ic s)) ;;
  if l then panic "acquire" else modify (fun s => put_ic (mkicache true (ic_inode (ic s))) s).
Definition release_icache : FS unit :=
  l <- gets (fun s => ic_lock (ic s)) ;;
  if l then modify (fun s => put_ic (mkicache false (ic_inode (ic s))) s) else panic "release".

(** fs.c [iinit]: the cache starts zeroed. *)
Definition iinit : icache := mkicache false (replicate NINODE zero_inode).

(** fs.c [bzero] *)
Definition bzero (dv bno : Z) : FS unit :=
  bp <- liftb (bread (u32 dv) (u32 bno)) ;;
  liftb (write_data bp zero_block) ;;
  liftl (log_write bp) ;;
  liftb (brelse bp).

(** fs.c [balloc]: the inner loop tries bit [bi] of the bitmap block [bp]; the
    outer loop goes through the bitmap blocks. *)
Definition bit_of (d : list Z) (bi : Z) : bool :=
  testf (d !!! Z.to_nat (bi / 8)) (Z.shiftl 1 (bi mod 8)).
Definition set_bit (bi : Z) (d : list Z) : list Z :=
  <[Z.to_nat (bi / 8) := Z.lor (d !!! Z.to_nat (bi / 8)) (Z.shiftl 1 (bi mod 8))]> d.
Definition clear_bit (bi : Z) (d : list Z) : list Z :=
  <[Z.to_nat (bi / 8) := Z.land (d !!! Z.to_nat (bi / 8)) (Z.lnot (Z.shiftl 1 (bi mod 8)))]> d.

Definition balloc_bit (dv b : Z) (bp : nat) (bi : nat) : FS (option Z) :=
  let bi := Z.of_nat bi in
  d <- liftb (read_data bp) ;;
  if negb (bit_of d bi) then
    liftb (write_data bp (set_bit bi d)) ;;
    liftl (log_write bp) ;;
    liftb (brelse bp) ;;
    bzero dv (b + bi) ;;
    ret (Some (b + bi))
  else ret None.
Definition balloc_block (dv : Z) (sb : superblock) (k : nat) : FS (option Z) :=
  let b := Z.of_nat k * BPB in
  bp <- liftb (bread dv (BBLOCK b (sb_ninodes sb))) ;;
  r <- for_find (seq 0 (Z.to_nat (Z.min BPB (sb_size sb - b)))) (balloc_bit dv b bp) ;;
  match r with
  | Some b => ret (Some b)
  | None => liftb (brelse bp) ;; ret None
  end.
Definition balloc (dv : Z) : FS Z :=
  sb <- liftl (readsb dv) ;;
  r <- for_find (seq 0 (Z.to_nat ((sb_size sb + BPB - 1) / BPB))) (balloc_block dv sb) ;;
  match r with
  | Some b => ret b
  | None => panic "balloc: out of blocks"
  end.

(** fs.c [bfree] *)
Definition bfree (dv b : Z) : FS unit :=
  sb <- liftl (readsb dv) ;;
  bp <- liftb (bread dv (BBLOCK b (sb_ninodes sb))) ;;
  let bi := b mod BPB in
  d <- liftb (read_data bp) ;;
  if negb (bit_of d bi) then panic "freeing free block"
  else
    liftb (write_data bp (clear_bit bi d)) ;;
    liftl (log_write bp) ;;
    liftb (brelse bp).

(** fs.c [iget]: the scan remembers the first empty slot. *)
Fixpoint iget_scan (l : list inode) (i : nat) (dv inum : Z) (empty : option nat) : option nat * option nat :=
  match l with
  | [] => (None, empty)
  | ip :: l' =>
      if (0 <? i_ref ip) && (i_dev ip =? dv) && (i_inum ip =? inum) then (Some i, empty)
      else iget_scan l' (S i) dv inum
             (match empty with
              | Some _ => empty
              | None => if i_ref ip =? 0 then Some i else None
              end)
  end.
Definition iget (dv inum : Z) : FS nat :=
  acquire_icache ;;
  l <- gets (fun s => ic_inode (ic s)) ;;
  match iget_scan l 0 dv inum None with
  | (Some i, _) =>
      update_inode i (fun x => set_i_ref (i_ref x + 1) x) ;;
      release_icache ;;
      ret i
  | (None, None) => panic "iget: no inodes"
  | (None, Some i) =>
      update_inode i (fun x => mkinode dv inum 1 0 (i_type x) (i_major x) (i_minor x) (i_nlink x) (i_size x) (i_addrs x)) ;;
      release_icache ;;
      ret i
  end.

(** fs.c [ialloc] *)
Definition ialloc_try (dv ty : Z) (inum : nat) : FS (option nat) :=
  let inum := Z.of_nat inum in
  bp <- liftb (bread dv (IBLOCK inum)) ;;
  d <- liftb (read_data bp) ;;
  let off := dinode_off inum in
  if d_type (get_dinode off d) =? 0 then
    liftb (write_data bp (put16 off (u16 ty) (splice off (replicate (Z.to_nat DINODE_SIZE) 0) d))) ;;
    liftl (log_write bp) ;;
    liftb (brelse bp) ;;
    ip <- iget dv inum ;;
    ret (Some ip)
  else
    liftb (brelse bp) ;;
    ret None.
Definition ialloc (dv ty : Z) : FS nat :=
  sb <- liftl (readsb dv) ;;
  r <- for_find (seq 1 (Z.to_nat (sb_ninodes sb - 1))) (ialloc_try dv ty) ;;
  match r with
  | Some ip => ret ip
  | None => panic "ialloc: no inodes"
  end.

(** fs.c [iupdate] *)
Definition to_dinode (i : inode) : dinode :=
  mkdinode (i_type i) (i_major i) (i_minor i) (i_nlink i) (i_size i) (i_addrs i).
Definition iupdate (ip : nat) : FS unit :=
  i <- get_inode ip ;;
  bp <- liftb (bread (i_dev i) (IBLOCK (i_inum i))) ;;
  d <- liftb (read_data bp) ;;
  liftb (write_data bp (put_dinode (dinode_off (i_inum i)) (to_dinode i) d)) ;;
  liftl (log_write bp) ;;
  liftb (brelse bp).

(** fs.c [idup] *)
Definition idup (ip : nat) : FS nat :=
  acquire_icache ;;
  update_inode ip (fun x => set_i_ref (i_ref x + 1) x) ;;
  release_icache ;;
  ret ip.

(** fs.c [ilock]; the [while] loop on I_BUSY is one test per call. *)
Definition of_dinode (x : dinode) (i : inode) : inode :=
  mkinode (i_dev i) (i_inum i) (i_ref i) (i_flags i) (d_type x) (d_major x) (d_minor x) (d_nlink x)
    (d_size x) (d_addrs x).
Definition ilock (ip : nat) : FS unit :=
  i <- get_inode ip ;;
  if i_ref i <? 1 then panic "ilock"
  else
    acquire_icache ;;
    i <- get_inode ip ;;
    if testf (i_flags i) I_BUSY then release_icache ;; park (ChInode ip)
    else
      update_inode ip (fun x => set_i_flags (Z.lor (i_flags x) I_BUSY) x) ;;
      release_icache ;;
      i <- get_inode ip ;;
      when (negb (testf (i_flags i) I_VALID)) (
        bp <- liftb (bread (i_dev i) (IBLOCK (i_inum i))) ;;
        d <- liftb (read_data bp) ;;
        update_inode ip (of_dinode (get_dinode (dinode_off (i_inum i)) d)) ;;
        liftb (brelse bp) ;;
        update_inode ip (fun x => set_i_flags (Z.lor (i_flags x) I_VALID) x) ;;
        i <- get_inode ip ;;
        when (i_type i =? 0) (panic "ilock: no type")).

(** fs.c [iunlock] *)
Definition iunlock (ip : nat) : FS unit :=
  i <- get_inode ip ;;
  if negb (testf (i_flags i) I_BUSY) || (i_ref i <? 1) then panic "iunlock"
  else
    acquire_icache ;;
    update_inode ip (fun x => set_i_flags (Z.land (i_flags x) (Z.lnot I_BUSY)) x) ;;
    liftb (wakeup (ChInode ip)) ;;
    release_icache.

(** fs.c [bmap] *)
Definition bmap (ip : nat) (bn : Z) : FS Z :=
  i <- get_inode ip ;;
  if bn <? NDIRECT then
    let addr := i_addrs i !!! Z.to_nat bn in
    if addr =? 0 then
      addr <- balloc (i_dev i) ;;
      update_inode ip (set_i_addr (Z.to_nat bn) addr) ;;
      ret addr
    else ret addr
  else
    let bn := bn - NDIRECT in
    if bn <? NINDIRECT then
      addr <- (let addr := i_addrs i !!! Z.to_nat NDIRECT in
               if addr =? 0 then
                 addr <- balloc (i_dev i) ;;
                 update_inode ip (set_i_addr (Z.to_nat NDIRECT) addr) ;;
                 ret addr
               else ret addr) ;;
      bp <- liftb (bread (i_dev i) addr) ;;
      d <- liftb (read_data bp) ;;
      addr <- (let addr := get32 (4 * Z.to_nat bn) d in
               if addr =? 0 then
                 addr <- balloc (i_dev i) ;;
                 d <- liftb (read_data bp) ;;
                 liftb (write_data bp (put32 (4 * Z.to_nat bn) addr d)) ;;
                 liftl (log_write bp) ;;
                 ret addr
               else ret addr) ;;
      liftb (brelse bp) ;;
      ret addr
    else panic "bmap: out of range".

(** fs.c [itrunc] *)
Definition itrunc_direct (ip : nat) (k : nat) : FS unit :=
  i <- get_inode ip ;;
  let addr := i_addrs i !!! k in
  when (negb (addr =? 0)) (
    bfree (i_dev i) addr ;;
    update_inode ip (set_i_addr k 0)).
Definition itrunc_indirect (dv : Z) (bp : nat) (j : nat) : FS unit :=
  d <- liftb (read_data bp) ;;
  let addr := get32 (4 * j) d in
  when (negb (addr =? 0)) (bfree dv addr).
Definition itrunc (ip : nat) : FS unit :=
  for_each (seq 0 (Z.to_nat NDIRECT)) (itrunc_direct ip) ;;
  i <- get_inode ip ;;
  let addr := i_addrs i !!! Z.to_nat NDIRECT in
  when (negb (addr =? 0)) (
    bp <- liftb (bread (i_dev i) addr) ;;
    for_each (seq 0 (Z.to_nat NINDIRECT)) (itrunc_indirect (i_dev i) bp) ;;
    liftb (brelse bp) ;;
    bfree (i_dev i) addr ;;
    update_inode ip (set_i_addr (Z.to_nat NDIRECT) 0)) ;;
  update_inode ip (set_i_size 0) ;;
  iupdate ip.

(** fs.c [iput] *)
Definition iput (ip : nat) : FS unit :=
  acquire_icache ;;
  i <- get_inode ip ;;
  (if (i_ref i =? 1) && testf (i_flags i) I_VALID && (i_nlink i =? 0) then
     if testf (i_flags i) I_BUSY then panic "iput busy"
     else
       update_inode ip (fun x => set_i_flags (Z.lor (i_flags x) I_BUSY) x) ;;
       release_icache ;;
       itrunc ip ;;
       update_inode ip (set_i_type 0) ;;
       iupdate ip ;;
       acquire_icache ;;
       update_inode ip (set_i_flags 0) ;;
       liftb (wakeup (ChInode ip))
   else ret tt) ;;
  update_inode ip (fun x => set_i_ref (i_ref x - 1) x) ;;
  release_icache.

(** fs.c [iunlockput] *)
Definition iunlockput (ip : nat) : FS unit := iunlock ip ;; iput ip.

(** fs.c [stati] *)
Definition stati (ip : nat) : FS stat :=
  i <- get_inode ip ;;
  ret (mkstat (i_type i) (s32 (i_dev i)) (i_inum i) (i_nlink i) (i_size i)).

(** fs.c [readi]: the value returned and the bytes stored at [dst].  Every
    round of the loop copies at least one byte, so [n] rounds are enough. *)
Fixpoint readi_loop (fuel : nat) (ip : nat) (off tot n : Z) (dst : list Z) : FS (list Z) :=
  if tot <? n then
    match fuel with
    | O => fault "readi: fuel"
    | S f =>
        i <- get_inode ip ;;
        addr <- bmap ip (off / BSIZE) ;;
        bp <- liftb (bread (i_dev i) addr) ;;
        let m := Z.min (n - tot) (BSIZE - off mod BSIZE) in
        d <- liftb (read_data bp) ;;
        liftb (brelse bp) ;;
        readi_loop f ip (off + m) (tot + m) n
          (dst ++ slice (Z.to_nat (off mod BSIZE)) (Z.to_nat m) d)
    end
  else ret dst.
Definition readi (devsw : Z -> devops) (ip : nat) (off n : Z) : FS (Z * list Z) :=
  i <- get_inode ip ;;
  if i_type i =? T_DEV then
    if (i_major i <? 0) || (NDEV <=? i_major i) then ret (-1, [])
    else match dv_read (devsw (i_major i)) with
         | None => ret (-1, [])
         | Some rd => rd ip n
         end
  else if (i_size i <? off) || (u32 (off + n) <? off) then ret (-1, [])
  else
    let n := if i_size i <? u32 (off + n) then i_size i - off else n in
    dst <- readi_loop (Z.to_nat n) ip off 0 n [] ;;
    ret (s32 n, dst).

(** fs.c [writei]; [src] holds the bytes to write. *)
Fixpoint writei_loop (fuel : nat) (ip : nat) (src : list Z) (off tot n : Z) : FS Z :=
  if tot <? n then
    match fuel with
    | O => fault "writei: fuel"
    | S f =>
        i <- get_inode ip ;;
        addr <- bmap ip (off / BSIZE) ;;
        bp <- liftb (bread (i_dev i) addr) ;;
        let m := Z.min (n - tot) (BSIZE - off mod BSIZE) in
        d <- liftb (read_data bp) ;;
        liftb (write_data bp (splice (Z.to_nat (off mod BSIZE)) (slice (Z.to_nat tot) (Z.to_nat m) src) d)) ;;
        liftl (log_write bp) ;;
        liftb (brelse bp) ;;
        writei_loop f ip src (off + m) (tot + m) n
    end
  else ret off.
Definition writei (devsw : Z -> devops) (ip : nat) (src : list Z) (off n : Z) : FS Z :=
  i <- get_inode ip ;;
  if i_type i =? T_DEV then
    if (i_major i <? 0) || (NDEV <=? i_major i) then ret (-1)
    else match dv_write (devsw (i_major i)) with
         | None => ret (-1)
         | Some w => w ip src n
         end
  else if (i_size i <? off) || (u32 (off + n) <? off) then ret (-1)
  else if MAXFILE * BSIZE <? u32 (off + n) then ret (-1)
  else
    off <- writei_loop (Z.to_nat n) ip src off 0 n ;;
    i <- get_inode ip ;;
    when ((0 <? n) && (i_size i <? off)) (
      update_inode ip (set_i_size off) ;;
      iupdate ip) ;;
    ret (s32 n).
End with_device.
