(* ===== verification/Dir.v ===== *)
(** Directories and path names: the last two layers of fs.c.

    A directory entry is the 16 bytes of [struct dirent]; a path is the bytes of
    the string, a missing byte standing for the NUL; [name] is the caller's
    buffer of DIRSIZ bytes. *)

From S2P Require Import Prelude Params BlockDev Bio Log CString Fs.

(** ** Definitions *)

(** fs.c [namecmp] *)
Definition namecmp (s t : nat -> Z) : Z := Kstring.strncmp s t (Z.to_nat DIRSIZ).

(** [struct dirent] *)
Definition de_inum (de : list Z) : Z := get16 0 de.
Definition de_name (de : list Z) : nat -> Z := at_list (drop 2 de).
Definition mkdirent (inum : Z) (name : nat -> Z) : list Z :=
  le_bytes 2 (u16 inum) ++ Kstring.strncpy name DIRSIZ.

(** fs.c [skipelem] *)
Definition peek (p : list Z) : Z := at_list p 0.
Fixpoint skip_slashes (p : list Z) : list Z :=
  match p with
  | c :: p' => if c =? 47 then skip_slashes p' else p
  | [] => []
  end.
Fixpoint span_elem (p : list Z) : list Z * list Z :=
  match p with
  | c :: p' =>
      if negb (c =? 47) && negb (c =? 0) then let '(s, r) := span_elem p' in (c :: s, r)
      else ([], p)
  | [] => ([], [])
  end.
Definition skipelem (path name : list Z) : option (list Z * list Z) :=
  let path := skip_slashes path in
  if peek path =? 0 then None
  else
    let '(s, rest) := span_elem path in
    let len := Z.of_nat (length s) in
    let name := if DIRSIZ <=? len then splice 0 (take (Z.to_nat DIRSIZ) s) name
                else splice 0 (s ++ [0]) name in
    Some (skip_slashes rest, name).

Section with_device.
Context `{BlockDev} {E : Type} (devsw : Z -> devops (E := E)).
Abbreviation FS := (M (fsst E)).

(** fs.c [dirlookup]: the inode and the offset of the entry ([*poff]). *)
Definition dirlookup_at (dp : nat) (name : nat -> Z) (k : nat) : FS (option (nat * Z)) :=
  let off := Z.of_nat k * DIRENT_SIZE in
  '(r, de) <- readi devsw dp off DIRENT_SIZE ;;
  if negb (r =? DIRENT_SIZE) then panic "dirlink read"
  else if de_inum de =? 0 then ret None
  else if namecmp name (de_name de) =? 0 then
    i <- get_inode dp ;;
    ip <- iget (i_dev i) (de_inum de) ;;
    ret (Some (ip, off))
  else ret None.
Definition n_dirents (size : Z) : nat := Z.to_nat ((size + DIRENT_SIZE - 1) / DIRENT_SIZE).
Definition dirlookup (dp : nat) (name : nat -> Z) : FS (option (nat * Z)) :=
  i <- get_inode dp ;;
  if negb (i_type i =? T_DIR) then panic "dirlookup not DIR"
  else for_find (seq 0 (n_dirents (i_size i))) (dirlookup_at dp name).

(** fs.c [dirlink] *)
Definition dirlink_at (dp : nat) (k : nat) : FS (option Z) :=
  let off := Z.of_nat k * DIRENT_SIZE in
  '(r, de) <- readi devsw dp off DIRENT_SIZE ;;
  if negb (r =? DIRENT_SIZE) then panic "dirlink read"
  else if de_inum de =? 0 then ret (Some off)
  else ret None.
Definition dirlink (dp : nat) (name : nat -> Z) (inum : Z) : FS Z :=
  o <- dirlookup dp name ;;
  match o with
  | Some (ip, _) => iput ip ;; ret (-1)
  | None =>
      i <- get_inode dp ;;
      o <- for_find (seq 0 (n_dirents (i_size i))) (dirlink_at dp) ;;
      let off := match o with Some off => off | None => Z.of_nat (n_dirents (i_size i)) * DIRENT_SIZE end in
      r <- writei devsw dp (mkdirent inum name) off DIRENT_SIZE ;;
      if negb (r =? DIRENT_SIZE) then panic "dirlink" else ret 0
  end.

(** fs.c [namex]; [cwd] is [proc->cwd].  Every round consumes a byte of the
    path, so [S (length path)] rounds are enough. *)
Fixpoint namex_loop (fuel : nat) (ip : nat) (path : list Z) (parent : bool) (name : list Z) :
    FS (option nat * list Z) :=
  match fuel with
  | O => fault "namex: fuel"
  | S f =>
      match skipelem path name with
      | None =>
          if parent then iput ip ;; ret (None, name)
          else ret (Some ip, name)
      | Some (path, name) =>
          ilock ip ;;
          i <- get_inode ip ;;
          if negb (i_type i =? T_DIR) then
            iunlockput ip ;;
            ret (None, name)
          else if parent && (peek path =? 0) then
            iunlock ip ;;
            ret (Some ip, name)
          else
            o <- dirlookup ip (at_list name) ;;
            match o with
            | None => iunlockput ip ;; ret (None, name)
            | Some (next, _) => iunlockput ip ;; namex_loop f next path parent name
            end
      end
  end.
Definition namex (cwd : nat) (path : list Z) (parent : bool) (name : list Z) : FS (option nat * list Z) :=
  ip <- (if peek path =? 47 then iget ROOTDEV ROOTINO else idup cwd) ;;
  namex_loop (S (length path)) ip path parent name.

(** fs.c [namei] and [nameiparent] *)
Definition namei (cwd : nat) (path : list Z) : FS (option nat) :=
  '(ip, _) <- namex cwd path false (replicate (Z.to_nat DIRSIZ) 0) ;;
  ret ip.
Definition nameiparent (cwd : nat) (path name : list Z) : FS (option nat * list Z) :=
  namex cwd path true name.
End with_device.
