(* ===== verification/FsSpec.v ===== *)
(** Specifications of the file-system routines of fs.c.

    [frep o s v ss B] is the view the routines are specified against: block
    contents [v] (what a reader through the cache sees), transaction [ss],
    buffers [B] held, [o] operations outstanding.  On top of it are the free
    bitmap, the inodes on disk, and the contents of a file as a function of the
    byte offset. *)

From S2P Require Import Prelude Params BlockDev Bio Log Fs.

Section specs.
Context `{BlockDev} {E : Type} (g : geom) (Hg : geom_ok g) (o : Z).
Abbreviation FS := (M (fsst E)).

Record frep (s : fsst E) (v : key -> block) (ss : list Z) (B : gset (Z * Z)) : Prop := {
  fr_log : lrep g (fl s) v ss B;
  fr_out : l_outstanding (lg (fl s)) = o;
  fr_com : l_committing (lg (fl s)) = 0;
  fr_ic : ic_lock (ic s) = false;
  fr_len : length (ic_inode (ic s)) = NINODE
}.

(** Everything but the log state is the same, and handles stay valid. *)
Record fkeep (s s' : fsst E) : Prop := {
  fk_ic : ic s' = ic s;
  fk_ext : ext s' = ext s;
  fk_holds j k : holds (lb (fl s)) j k -> holds (lb (fl s')) j k
}.

Lemma fkeep_refl s : fkeep s s.
Proof. by split. Qed.
Lemma fkeep_trans s1 s2 s3 : fkeep s1 s2 -> fkeep s2 s3 -> fkeep s1 s3.
Proof. intros [A1 A2 A3] [C1 C2 C3]. split; [congruence|congruence|auto]. Qed.

Lemma wp_liftl {A} (m : M lst A) s (Q : A -> fsst E -> Prop) :
  wp m (fl s) (fun a l' => Q a (put_fl l' s)) -> wp (liftl m) s Q.
Proof. intros Hm. by apply wp_zoom. Qed.

Lemma wp_liftb {A} (m : M bst A) s (Q : A -> fsst E -> Prop) :
  wp m (lb (fl s)) (fun a b' => Q a (put_fl (mklst (lg (fl s)) b') s)) -> wp (liftb m) s Q.
Proof. intros Hm. apply wp_liftl. destruct (fl s) as [l b]. by apply wp_lift. Qed.

Lemma frep_cache s v ss B : frep s v ss B -> brep (lb (fl s)) v (home_set g ss) B.
Proof. intros [[] ? ? ? ?]. done. Qed.

(** Replacing the buffer cache of a state. *)
Lemma frep_put s v ss B v' B' b' :
  frep s v ss B -> brep b' v' (home_set g ss) B' ->
  frep (put_fl (mklst (lg (fl s)) b') s) v' ss B'.
Proof. intros [[] ? ? ? ?] R. split; [by split|done..]. Qed.

(** There is a buffer for block [x]: it is pinned, or not all are in use. *)
Definition avail (ss : list Z) (B : gset (Z * Z)) (x : Z) : Prop :=
  gk g x ∉ B /\ on_device (gk g x) /\ (x ∈ ss \/ (length ss + size B < NBUF)%nat).

Lemma size_home_le (ss : list Z) (B : gset key) : NoDup ss -> (size (home_set g ss ∪ B) <= length ss + size B)%nat.
Proof.
  intros Hnd. rewrite <- (size_home_set g ss Hnd), size_union_alt.
  pose proof (subseteq_size (B ∖ home_set g ss) B ltac:(set_solver)). lia.
Qed.

Lemma bread_fs s v ss B x :
  frep s v ss B -> avail ss B x ->
  wp (liftb (bread (g_dev g) x)) s (fun i s' =>
    frep s' v ss ({[gk g x]} ∪ B) /\ holds (lb (fl s')) i (gk g x) /\ fkeep s s' /\
    (gk g x ∈ home_set g ss \/ v (gk g x) = disk_get (dk (lb (fl s'))) (gk g x))).
Proof.
  intros F (HB & Hon & Hroom). pose proof (frep_cache _ _ _ _ F) as R. apply wp_liftb.
  eapply wp_conseq; [apply (bread_spec _ v _ B (g_dev g) x R)|].
  - by apply (dev_ne g Hg).
  - done.
  - destruct Hroom as [Hx|Hsz]; [left; apply elem_of_home_set; eauto|right].
    pose proof (size_home_le ss B (lr_nodup _ _ _ _ _ (fr_log _ _ _ _ F))). lia.
  - done.
  - intros i b' (R' & Hh & Hk & Hdk & _). fold (gk g x) in *. split_and!.
    + by eapply frep_put.
    + done.
    + by split.
    + cbn [fl put_fl lb]. rewrite Hdk. destruct (decide (gk g x ∈ home_set g ss)); [by left|right].
      by apply (br_clean _ _ _ _ R).
Qed.

Lemma read_data_fs s v ss B i k (Q : block -> fsst E -> Prop) :
  frep s v ss B -> holds (lb (fl s)) i k -> Q (v k) s -> wp (liftb (read_data i)) s Q.
Proof.
  intros F Hh HQ. apply wp_liftb.
  apply (read_data_spec _ v _ B i k _ (frep_cache _ _ _ _ F) Hh). by destruct s as [[] ? ?].
Qed.

Lemma write_data_fs s v ss B i k d :
  frep s v ss B -> holds (lb (fl s)) i k -> block_ok d ->
  wp (liftb (write_data i d)) s (fun _ s' =>
    frep s' (upd v k d) ss B /\ fkeep s s').
Proof.
  intros F Hh Hd. apply wp_liftb.
  eapply wp_conseq; [by apply (write_data_spec _ v _ B i k d (frep_cache _ _ _ _ F))|].
  intros _ b' (R' & Hk & _). split; [by eapply frep_put|by split].
Qed.

Lemma log_write_fs s v ss B i x :
  frep s v ss B -> holds (lb (fl s)) i (gk g x) -> home_ok g x ->
  Z.of_nat (length ss) < g_size g - 1 -> 1 <= o ->
  wp (liftl (log_write i)) s (fun _ s' => frep s' v (absorb ss x) B /\ fkeep s s').
Proof.
  intros [Hl Ho Hcom Hic Hlen] Hh Hx Hroom H1. apply wp_liftl.
  eapply wp_conseq; [apply (log_write_spec g Hg _ v ss B i x Hl Hh Hx Hroom); lia|].
  intros _ l' (Hl' & Ho' & Hc' & Hk & _). split; [split; try done; cbn [fl put_fl]; lia|by split].
Qed.

Lemma brelse_fs s v ss B i k :
  frep s v ss B -> holds (lb (fl s)) i k ->
  (k ∈ home_set g ss \/ v k = disk_get (dk (lb (fl s))) k) ->
  wp (liftb (brelse i)) s (fun _ s' => frep s' v ss (B ∖ {[k]}) /\
    ic s' = ic s /\ ext s' = ext s /\
    (forall j k', k' <> k -> holds (lb (fl s)) j k' -> holds (lb (fl s')) j k')).
Proof.
  intros F Hh Hcl. apply wp_liftb.
  eapply wp_conseq; [by apply (brelse_spec _ v _ B i k (frep_cache _ _ _ _ F) Hh)|].
  intros _ b' (R' & Hk & _). split; [by eapply frep_put|done].
Qed.

(** Reading a block: [bp = bread(dev, x); ... bp->data ...; brelse(bp)]. *)
Lemma wp_read_block {A} s v ss B x (K : block -> FS A) (Q : A -> fsst E -> Prop) :
  frep s v ss B -> avail ss B x ->
  (forall s', frep s' v ss B -> fkeep s s' -> wp (K (v (gk g x))) s' Q) ->
  wp (bp <- liftb (bread (g_dev g) x) ;; d <- liftb (read_data bp) ;; liftb (brelse bp) ;; K d) s Q.
Proof.
  intros F Hav HK. eapply wp_seq; [by apply bread_fs|]. intros i s1 (F1 & Hh1 & Hk1 & Hcl).
  apply wp_bind. eapply read_data_fs; [done|done|].
  eapply wp_seq; [by apply (brelse_fs _ _ _ _ _ _ F1 Hh1)|]. intros _ s2 (F2 & Hic & Hext & Hk2).
  apply HK.
  - destruct Hav as (HB & _). replace ((_ ∪ B) ∖ _) with B in F2 by set_solver. done.
  - destruct Hk1 as [A1 A2 A3]. split; [congruence|congruence|].
    intros j k Hj. apply Hk2; [|by apply A3]. intros ->.
    destruct Hav as (HB & _). apply HB. by eapply (holds_busy _ _ _ _ (frep_cache _ _ _ _ F)).
Qed.

(** Updating a block inside a transaction:
    [bp = bread(dev, x); modify bp->data; log_write(bp); brelse(bp)]. *)
Lemma wp_write_held {A} s v ss B B0 i x d (K : FS A) (Q : A -> fsst E -> Prop) :
  frep s v ss B -> holds (lb (fl s)) i (gk g x) -> home_ok g x -> block_ok d ->
  Z.of_nat (length ss) < g_size g - 1 -> 1 <= o -> B = {[gk g x]} ∪ B0 -> gk g x ∉ B0 ->
  (forall s', frep s' (upd v (gk g x) d) (absorb ss x) B0 -> ic s' = ic s -> ext s' = ext s ->
     (forall j k, k <> gk g x -> holds (lb (fl s)) j k -> holds (lb (fl s')) j k) -> wp K s' Q) ->
  wp (liftb (write_data i d) ;; liftl (log_write i) ;; liftb (brelse i) ;; K) s Q.
Proof.
  intros F Hh Hx Hd Hroom H1 -> HB0 HK.
  eapply wp_seq; [by apply (write_data_fs _ _ _ _ _ _ _ F Hh Hd)|]. intros _ s1 (F1 & [A1 A2 A3]).
  eapply wp_seq; [apply (log_write_fs _ _ _ _ _ x F1); auto|]. intros _ s2 (F2 & [C1 C2 C3]).
  eapply wp_seq; [apply (brelse_fs _ _ _ _ i (gk g x) F2); [auto|left]|].
  { apply elem_of_home_set. exists x. split; [done|]. unfold absorb. case_decide; set_solver. }
  intros _ s3 (F3 & Hic & Hext & Hk3). apply HK.
  - replace ((_ ∪ B0) ∖ _) with B0 in F3 by set_solver. done.
  - congruence.
  - congruence.
  - auto.
Qed.

Lemma wp_update_block {A} s v ss B x (f : block -> block) (K : FS A) (Q : A -> fsst E -> Prop) :
  frep s v ss B -> avail ss B x -> home_ok g x -> (forall d, block_ok d -> block_ok (f d)) ->
  Z.of_nat (length ss) < g_size g - 1 -> 1 <= o ->
  (forall s', frep s' (upd v (gk g x) (f (v (gk g x)))) (absorb ss x) B -> fkeep s s' -> wp K s' Q) ->
  wp (bp <- liftb (bread (g_dev g) x) ;; d <- liftb (read_data bp) ;;
      liftb (write_data bp (f d)) ;; liftl (log_write bp) ;; liftb (brelse bp) ;; K) s Q.
Proof.
  intros F Hav Hx Hf Hroom H1 HK. pose proof Hav as (HB & _).
  eapply wp_seq; [by apply bread_fs|]. intros i s1 (F1 & Hh1 & [A1 A2 A3] & _).
  apply wp_bind. eapply read_data_fs; [done|done|].
  eapply (wp_write_held _ _ _ _ B); try done.
  { apply Hf, (br_vok _ _ _ _ (frep_cache _ _ _ _ F)). }
  intros s' F' Hic Hext Hk. apply HK; [done|]. split; [congruence|congruence|].
  intros j k Hj. apply Hk; [|by apply A3]. intros ->. apply HB.
  by eapply (holds_busy _ _ _ _ (frep_cache _ _ _ _ F)).
Qed.

Lemma readsb_fs s v ss B :
  frep s v ss B -> gk g 1 ∉ B -> on_device (gk g 1) -> (length ss + size B < NBUF)%nat ->
  wp (liftl (readsb (g_dev g))) s (fun sb s' => sb = sb_decode (v (gk g 1)) /\ frep s' v ss B /\ fkeep s s').
Proof.
  intros F HB Hon Hroom. apply wp_liftl. pose proof (frep_cache _ _ _ _ F) as R.
  destruct s as [[l b] c e]. cbn [fl lb] in *.
  eapply wp_conseq; [apply (readsb_spec l b v _ B (g_dev g) R)|].
  - unfold is_u32. destruct Hg as [Hd _ _ _ _]. change NODEV with (2 ^ 32 - 1) in Hd. lia.
  - by apply (dev_ne g Hg).
  - done.
  - pose proof (size_home_le ss B (lr_nodup _ _ _ _ _ (fr_log _ _ _ _ F))). lia.
  - done.
  - intros sb s' (b' & -> & -> & R' & _ & Hk). split; [done|]. unfold put_fl. cbn [ic ext].
    split; [by apply (frep_put _ _ _ _ _ _ b' F)|by split].
Qed.

(** ** Block allocation *)

Context (sb : superblock).

Definition bitmap_of (b : Z) : Z := BBLOCK b (sb_ninodes sb).
Definition data_start : Z := bitmap_of (sb_size sb - 1) + 1.
Definition data_block (b : Z) : Prop := data_start <= b < g_start g.

(** The shape of a file system: inode blocks, bitmap, data blocks, log. *)
Record layout : Prop := {
  ly_size : 0 < sb_size sb < 2 ^ 31;
  ly_inodes : 0 < sb_ninodes sb;
  ly_log : g_start g + g_size g = sb_size sb;
  ly_data : data_start <= g_start g;
  ly_on x : 0 <= x < sb_size sb -> on_device (gk g x)
}.
Context (Hly : layout).

Lemma BPB_val : BPB = 4096. Proof. done. Qed.
Lemma IPB_val : IPB = 8. Proof. done. Qed.

Lemma bitmap_range b : 0 <= b < sb_size sb -> 3 <= bitmap_of b < data_start.
Proof.
  intros Hb. unfold data_start, bitmap_of, BBLOCK. rewrite BPB_val, IPB_val.
  destruct Hly as [_ Hi _ _ _].
  pose proof (Z.div_pos (sb_ninodes sb) 8). pose proof (Z.div_pos b 4096).
  pose proof (Z.div_le_mono b (sb_size sb - 1) 4096). lia.
Qed.

Lemma home_below x : 0 <= x < g_start g -> home_ok g x.
Proof.
  intros Hx. destruct Hly as [Hs _ Hl _ Hon], Hg as [_ _ Hgs _ _]. split; [lia| |].
  - unfold in_region. lia.
  - apply Hon. lia.
Qed.

Lemma bitmap_home b : 0 <= b < sb_size sb -> home_ok g (bitmap_of b).
Proof. intros Hb. pose proof (bitmap_range b Hb). destruct Hly as [_ _ _ Hd _]. apply home_below. lia. Qed.

Lemma data_home b : data_block b -> home_ok g b.
Proof.
  intros [H1 H2]. apply home_below. destruct Hly as [Hs _ _ _ _].
  pose proof (bitmap_range 0 ltac:(lia)). lia.
Qed.

(** Whether the bitmap marks block [b] used. *)
Definition used (v : key -> block) (b : Z) : bool := bit_of (v (gk g (bitmap_of b))) (b mod BPB).

(** What the bitmap promises: only data blocks are free, so every block of the
    log is marked used.  The images of mkfs.c, which leave the log free, do not
    have this. *)
Record bitmap_ok (v : key -> block) : Prop := {
  bo_sb : sb_decode (v (gk g 1)) = sb;
  bo_free b : 0 <= b < sb_size sb -> used v b = false -> data_block b
}.

(** Buffers held by the caller of [balloc]: data blocks in use. *)
Definition held_used (v : key -> block) (B : gset (Z * Z)) : Prop :=
  (size B <= 1)%nat /\ forall k, k ∈ B -> exists x, k = gk g x /\ data_block x /\ used v x = true.

Lemma gk_inj x y : gk g x = gk g y -> x = y.
Proof. intros E'. by injection E'. Qed.

Lemma avail_meta v B ss x : held_used v B -> (length ss < 29)%nat -> 0 <= x < data_start -> avail ss B x.
Proof.
  intros [HB Hk] Hss Hx. destruct Hly as [_ _ _ Hd _]. split_and!.
  - intros (y & E' & [Hy _] & _)%Hk. apply gk_inj in E'. lia.
  - apply (ho_on g), home_below. lia.
  - right. unfold NBUF. lia.
Qed.

(** Bits of a bitmap block. *)
Lemma bit_index bi : 0 <= bi < BPB -> (Z.to_nat (bi / 8) < 512)%nat /\ 0 <= bi mod 8 < 8.
Proof.
  rewrite BPB_val. intros Hb. split; [|apply Z.mod_pos_bound; lia].
  pose proof (Z.div_lt_upper_bound bi 8 512). pose proof (Z.div_pos bi 8). lia.
Qed.

Lemma bit_of_set (d : list Z) bi bj : block_ok d -> 0 <= bi < BPB -> 0 <= bj < BPB ->
  bit_of (set_bit bi d) bj = if decide (bj = bi) then true else bit_of d bj.
Proof.
  intros [Hl _] Hi Hj. destruct (bit_index bi Hi) as [Hi1 Hi2], (bit_index bj Hj) as [Hj1 Hj2].
  unfold bit_of, set_bit. rewrite !Z.shiftl_1_l, !testf_pow2 by lia.
  destruct (decide (bi / 8 = bj / 8)) as [E8|E8].
  - rewrite E8, list_lookup_total_insert_eq by lia.
    rewrite Z.lor_spec, Z.pow2_bits_eqb by lia.
    pose proof (Z.div_mod bi 8). pose proof (Z.div_mod bj 8).
    case_decide; [subst; rewrite Z.eqb_refl; by rewrite orb_true_r|].
    rewrite (proj2 (Z.eqb_neq _ _)) by lia. by rewrite orb_false_r.
  - rewrite list_lookup_total_insert_ne by (pose proof (Z.div_pos bi 8); pose proof (Z.div_pos bj 8); lia).
    rewrite decide_False by congruence. done.
Qed.

Lemma set_bit_ok (d : list Z) bi : block_ok d -> 0 <= bi < BPB -> block_ok (set_bit bi d).
Proof.
  intros [Hl Hf] Hi. destruct (bit_index bi Hi) as [Hi1 Hi2]. split; [by unfold set_bit; rewrite length_insert|].
  apply Forall_insert; [done|].
  assert (is_u8 (d !!! Z.to_nat (bi / 8))) as Hu.
  { destruct (lookup_lt_is_Some_2 d (Z.to_nat (bi / 8))) as [x Hx]; [lia|].
    rewrite (list_lookup_total_correct _ _ _ Hx). by eapply Forall_lookup_1. }
  rewrite Z.shiftl_1_l. pose proof (Z.pow_pos_nonneg 2 (bi mod 8) ltac:(lia) ltac:(lia)) as Hp.
  unfold is_u8 in *. set (x := d !!! _) in *. split; [apply Z.lor_nonneg; lia|].
  assert (0 <= Z.lor x (2 ^ (bi mod 8))) as Hn by (apply Z.lor_nonneg; lia).
  destruct (decide (Z.lor x (2 ^ (bi mod 8)) = 0)) as [->|]; [done|].
  apply Z.log2_lt_pow2; [lia|]. rewrite Z.log2_lor, Z.log2_pow2 by lia.
  apply Z.max_lub_lt; [|lia]. destruct (decide (x = 0)) as [->|]; [done|].
  apply Z.log2_lt_pow2; lia.
Qed.

(** *** balloc *)

(** What an allocation does to the blocks. *)
Definition alloc_view (v : key -> block) (b : Z) : key -> block :=
  upd (upd v (gk g (bitmap_of b)) (set_bit (b mod BPB) (v (gk g (bitmap_of b))))) (gk g b) zero_block.

Definition alloc_post (s : fsst E) (v : key -> block) (ss : list Z) (B : gset (Z * Z)) (b : Z) (s' : fsst E) : Prop :=
  0 <= b < sb_size sb /\ used v b = false /\
  frep s' (alloc_view v b) (absorb (absorb ss (bitmap_of b)) b) B /\ fkeep s s'.

Lemma mod_block k bi : 0 <= bi < BPB -> (k * BPB + bi) mod BPB = bi /\ (k * BPB + bi) / BPB = k.
Proof.
  rewrite BPB_val. intros Hb. rewrite Z.add_comm, Z.mod_add, Z.div_add by lia.
  rewrite Z.mod_small, Z.div_small by lia. lia.
Qed.

Lemma bitmap_of_block k bi : 0 <= bi < BPB -> bitmap_of (k * BPB + bi) = bitmap_of (k * BPB).
Proof.
  intros Hb. unfold bitmap_of, BBLOCK. destruct (mod_block k bi Hb) as [_ ->].
  destruct (mod_block k 0 ltac:(rewrite BPB_val; lia)) as [_ Ek]. rewrite Z.add_0_r in Ek. by rewrite Ek.
Qed.

Lemma bzero_fs s v ss B x :
  frep s v ss B -> avail ss B x -> home_ok g x -> Z.of_nat (length ss) < g_size g - 1 -> 1 <= o ->
  wp (bzero (g_dev g) x) s (fun _ s' =>
    frep s' (upd v (gk g x) zero_block) (absorb ss x) B /\ fkeep s s').
Proof.
  intros F Hav Hx Hroom H1. pose proof Hav as (HB & _). unfold bzero.
  rewrite (u32_dev g Hg), (home_u32 g x Hx).
  eapply wp_seq; [by apply bread_fs|]. intros i s1 (F1 & Hh1 & [A1 A2 A3] & _).
  apply wp_tail3. apply (wp_write_held _ _ _ _ B _ _ _ _ _ F1 Hh1 Hx zero_block_ok Hroom H1 eq_refl HB).
  intros s' F' Hic Hext Hk. apply wp_ret. split; [done|]. split; [congruence|congruence|].
  intros j k Hj. apply Hk; [|by apply A3]. intros ->. apply HB.
  by eapply (holds_busy _ _ _ _ (frep_cache _ _ _ _ F)).
Qed.

(** Room in the log for an allocation: the bitmap block (unless it is already
    part of the transaction) and the new block. *)
Definition balloc_room (ss : list Z) : Prop :=
  forall b, 0 <= b < sb_size sb -> Z.of_nat (length (absorb ss (bitmap_of b))) + 1 <= g_size g - 1.

Lemma length_absorb_ge ss x : (length ss <= length (absorb ss x))%nat.
Proof. unfold absorb. case_decide; rewrite ?length_app; lia. Qed.

Lemma balloc_room_28 ss : balloc_room ss -> Z.of_nat (length ss) + 1 <= g_size g - 1 /\ (length ss <= 28)%nat.
Proof.
  intros Hr. destruct Hly as [Hs _ _ _ _]. specialize (Hr 0 ltac:(lia)).
  pose proof (length_absorb_ge ss (bitmap_of 0)). destruct Hg as [_ _ Hgs _ _].
  change LOGSIZE with 30 in Hgs. lia.
Qed.

(** One round of the inner loop of [balloc], on a free bit. *)
Lemma balloc_bit_free s v ss B k bi bp :
  let b := Z.of_nat k * BPB + Z.of_nat bi in
  frep s v ss ({[gk g (bitmap_of (Z.of_nat k * BPB))]} ∪ B) ->
  holds (lb (fl s)) bp (gk g (bitmap_of (Z.of_nat k * BPB))) ->
  bitmap_ok v -> held_used v B -> balloc_room ss -> 1 <= o ->
  Z.of_nat bi < BPB -> b < sb_size sb -> used v b = false ->
  wp (balloc_bit (g_dev g) (Z.of_nat k * BPB) bp bi) s (fun r s' => r = Some b /\
    frep s' (alloc_view v b) (absorb (absorb ss (bitmap_of b)) b) B /\
    ic s' = ic s /\ ext s' = ext s /\
    (forall j k', k' <> gk g (bitmap_of b) -> holds (lb (fl s)) j k' -> holds (lb (fl s')) j k')).
Proof.
  intros b F Hh Hbm Hheld Hroom H1 Hbi Hb Hfree. pose proof (balloc_room_28 ss Hroom) as [Hr1 Hr28].
  pose proof (br_vok _ _ _ _ (frep_cache _ _ _ _ F)) as Hv.
  assert (0 <= b < sb_size sb) as Hb' by (split; [unfold b; rewrite BPB_val; lia|done]).
  pose proof (bo_free _ Hbm b Hb' Hfree) as Hdata.
  destruct (mod_block (Z.of_nat k) (Z.of_nat bi) ltac:(lia)) as [Emod _]. fold b in Emod.
  pose proof (bitmap_of_block (Z.of_nat k) (Z.of_nat bi) ltac:(lia)) as Ebm. fold b in Ebm.
  rewrite <- Ebm in *. set (bm := bitmap_of b) in *.
  pose proof (bitmap_range b Hb') as Hbmr. fold bm in Hbmr.
  assert (gk g bm ∉ B) as HbmB.
  { intros (y & E' & [Hy _] & _)%Hheld. apply gk_inj in E'. lia. }
  unfold balloc_bit. apply wp_bind. eapply read_data_fs; [done|done|].
  unfold used in Hfree. rewrite Emod in Hfree. fold bm in Hfree. rewrite Hfree. cbn [negb].
  apply (wp_write_held _ _ _ _ B _ bm _ _ _ F Hh (bitmap_home b Hb')); [|lia|done|done|done|].
  { apply set_bit_ok; [apply Hv|lia]. }
  intros s1 F1 Hic1 Hext1 Hk1. fold b.
  pose proof (length_absorb ss bm) as Hlen. pose proof (Hroom b Hb') as Hrb. fold bm in Hrb.
  eapply wp_seq; [apply (bzero_fs _ _ _ _ b F1)|].
  - split_and!; [|by apply (ho_on g), data_home|right].
    + intros (y & E' & _ & Hy)%Hheld. apply gk_inj in E' as <-. unfold used in Hy.
      rewrite Emod in Hy. fold bm in Hy. congruence.
    + pose proof (proj1 Hheld). pose proof Hg as [_ _ Hgs _ _]. change LOGSIZE with 30 in Hgs. unfold NBUF. lia.
  - by apply data_home.
  - lia.
  - done.
  - intros _ s2 (F2 & [A1 A2 A3]). apply wp_ret. split_and!; [done| |congruence|congruence|auto].
    unfold alloc_view. rewrite Emod. fold bm. done.
Qed.

(** One bitmap block: allocate from it, or find that it is full. *)
Lemma balloc_block_fs s v ss B k :
  frep s v ss B -> bitmap_ok v -> held_used v B ->
  balloc_room ss -> 1 <= o -> Z.of_nat k * BPB < sb_size sb ->
  wp (balloc_block (g_dev g) sb k) s (fun r s' =>
    match r with
    | Some b => alloc_post s v ss B b s'
    | None => frep s' v ss B /\ fkeep s s' /\
        forall b, Z.of_nat k * BPB <= b < Z.of_nat k * BPB + BPB -> b < sb_size sb -> used v b = true
    end).
Proof.
  intros F Hbm Hheld Hroom H1 Hk. set (kb := Z.of_nat k * BPB) in *.
  assert (0 <= kb) as Hkb by (unfold kb; rewrite BPB_val; lia).
  pose proof (bitmap_range kb ltac:(lia)) as Hr.
  assert (avail ss B (bitmap_of kb)) as Hav.
  { apply (avail_meta v); [done| |lia]. pose proof (balloc_room_28 ss Hroom). lia. }
  unfold balloc_block. fold kb (bitmap_of kb).
  eapply wp_seq; [by apply bread_fs|]. intros bp s1 (F1 & Hh1 & [A1 A2 A3] & Hcl1).
  assert (forall j k', holds (lb (fl s)) j k' -> k' <> gk g (bitmap_of kb)) as Hne.
  { intros j k' Hj ->. apply (proj1 Hav). by eapply (holds_busy _ _ _ _ (frep_cache _ _ _ _ F)). }
  eapply wp_seq.
  { apply (wp_for_find (fun pre s' => s' = s1 /\ forall bi, bi ∈ pre -> used v (kb + Z.of_nat bi) = true)
      (fun r s' => match r with
         | Some b => alloc_post s v ss B b s'
         | None => s' = s1 /\ forall bi, bi ∈ seq 0 (Z.to_nat (Z.min BPB (sb_size sb - kb))) ->
             used v (kb + Z.of_nat bi) = true
         end)).
    - split; [done|]. intros bi ?%elem_of_nil. done.
    - intros pre bi post s' Hl [-> Hpre].
      assert (bi ∈ seq 0 (Z.to_nat (Z.min BPB (sb_size sb - kb)))) as Hbi by (rewrite Hl; set_solver).
      apply elem_of_seq in Hbi.
      destruct (used v (kb + Z.of_nat bi)) eqn:Hu.
      + destruct (mod_block (Z.of_nat k) (Z.of_nat bi) ltac:(rewrite BPB_val in *; lia)) as [Emod _].
        pose proof (bitmap_of_block (Z.of_nat k) (Z.of_nat bi) ltac:(rewrite BPB_val in *; lia)) as Ebm.
        fold kb in Emod, Ebm.
        unfold balloc_bit. apply wp_bind. eapply read_data_fs; [done|done|].
        unfold used in Hu. rewrite Emod, Ebm in Hu. rewrite Hu. cbn [negb]. apply wp_ret. split; [done|].
        intros bj [Hj| ->%list_elem_of_singleton]%elem_of_app; [by apply Hpre|].
        unfold used. by rewrite Emod, Ebm.
      + eapply wp_conseq; [apply (balloc_bit_free s1 v ss B k bi bp); try done; fold kb; lia|].
        intros r s' (-> & F' & Hic & Hext & Hk'). fold kb in F', Hk' |- *.
        pose proof (bitmap_of_block (Z.of_nat k) (Z.of_nat bi) ltac:(rewrite BPB_val in *; lia)) as Ebm.
        fold kb in Ebm.
        split_and!; [lia|lia|done|done|]. split; [congruence|congruence|].
        intros j k' Hj. apply Hk'; [rewrite Ebm; by apply (Hne j)|by apply A3].
    - intros s' [-> Hall]. done. }
  intros [b|] s2; [intros Hp; by apply wp_ret|]. intros [-> Hall].
  eapply wp_seq; [by apply (brelse_fs _ _ _ _ _ _ F1 Hh1)|]. intros _ s3 (F3 & Hic & Hext & Hk3).
  apply wp_ret. split_and!.
  - destruct Hav as (HB & _). replace ((_ ∪ B) ∖ _) with B in F3 by set_solver. done.
  - split; [congruence|congruence|]. intros j k' Hj. apply Hk3; [by apply (Hne j)|by apply A3].
  - intros b Hb Hsz. specialize (Hall (Z.to_nat (b - kb))).
    rewrite Z2Nat.id in Hall by lia. replace (kb + (b - kb)) with b in Hall by lia.
    apply Hall, elem_of_seq. lia.
Qed.

(** [balloc] returns a free block, marked used and zeroed, if there is one. *)
Lemma balloc_fs s v ss B :
  frep s v ss B -> bitmap_ok v -> held_used v B ->
  balloc_room ss -> 1 <= o ->
  (exists b, 0 <= b < sb_size sb /\ used v b = false) ->
  wp (balloc (g_dev g)) s (fun b s' => alloc_post s v ss B b s').
Proof.
  intros F Hbm Hheld Hroom H1 (b0 & Hb0 & Hfree). pose proof Hly as [Hsz _ _ _ _].
  pose proof (bitmap_range 0 ltac:(lia)) as Hr0. pose proof (balloc_room_28 ss Hroom) as [Hr1 Hr29].
  destruct (avail_meta v B ss 1 Hheld ltac:(lia) ltac:(lia)) as (H1B & H1on & _).
  unfold balloc. eapply wp_seq.
  { apply (readsb_fs _ _ _ _ F H1B H1on). pose proof (proj1 Hheld). unfold NBUF. lia. }
  intros sb' s1 (-> & F1 & Hk1). rewrite (bo_sb _ Hbm).
  set (n := Z.to_nat ((sb_size sb + BPB - 1) / BPB)).
  assert (Z.of_nat n = (sb_size sb + BPB - 1) / BPB) as Hn.
  { unfold n. rewrite Z2Nat.id; [done|]. apply Z.div_pos; rewrite ?BPB_val; lia. }
  eapply wp_seq.
  { apply (wp_for_find (fun pre s' => frep s' v ss B /\ fkeep s s' /\
        forall k b, k ∈ pre -> Z.of_nat k * BPB <= b < Z.of_nat k * BPB + BPB -> b < sb_size sb -> used v b = true)
      (fun r s' => match r with Some b => alloc_post s v ss B b s' | None => False end)).
    - split_and!; [done|done|]. intros k b ?%elem_of_nil. done.
    - intros pre k post s' Hl (F' & Hk' & Hpre).
      assert (k ∈ seq 0 n) as Hkn by (rewrite Hl; set_solver). apply elem_of_seq in Hkn.
      eapply wp_conseq; [apply (balloc_block_fs s' v ss B k F' Hbm Hheld Hroom H1)|].
      { rewrite BPB_val in *. pose proof (Z.div_mod (sb_size sb + 4096 - 1) 4096).
        pose proof (Z.mod_pos_bound (sb_size sb + 4096 - 1) 4096). nia. }
      intros [b|] s2.
      + intros (Hb & Hu & F2 & Hk2). split_and!; try done; try lia. by eapply fkeep_trans.
      + intros (F2 & Hk2 & Hall). split_and!; [done|by eapply fkeep_trans|].
        intros k' b [Hin| ->%list_elem_of_singleton]%elem_of_app Hb Hs; [by apply (Hpre k')|by apply Hall].
    - intros s' (_ & _ & Hall).
      assert (used v b0 = true) as Hc; [|congruence].
      apply (Hall (Z.to_nat (b0 / BPB))); [|rewrite Z2Nat.id by (apply Z.div_pos; rewrite ?BPB_val; lia)|lia].
      + apply elem_of_seq. split; [lia|]. cbn. rewrite BPB_val in *.
        pose proof (Z.div_mod b0 4096). pose proof (Z.mod_pos_bound b0 4096).
        pose proof (Z.div_mod (sb_size sb + 4096 - 1) 4096).
        pose proof (Z.mod_pos_bound (sb_size sb + 4096 - 1) 4096).
        apply Nat2Z.inj_lt. rewrite Hn, Z2Nat.id by (apply Z.div_pos; lia). nia.
      + rewrite BPB_val. pose proof (Z.div_mod b0 4096). pose proof (Z.mod_pos_bound b0 4096). lia. }
  intros [b|] s2; [intros Hp; by apply wp_ret|done].
Qed.

(** *** The blocks after an allocation *)

Lemma bitmap_not_data b x : 0 <= b < sb_size sb -> data_start <= x -> bitmap_of b <> x.
Proof. intros Hb Hx. pose proof (bitmap_range b Hb). lia. Qed.

Lemma gk_ne x y : x <> y -> gk g x <> gk g y.
Proof. intros Hne E'. by apply Hne, gk_inj. Qed.

Lemma alloc_other v b x : x <> b -> x <> bitmap_of b -> alloc_view v b (gk g x) = v (gk g x).
Proof. intros H1 H2. unfold alloc_view. by rewrite !upd_ne by by apply gk_ne. Qed.

Lemma alloc_new v b : alloc_view v b (gk g b) = zero_block.
Proof. apply upd_same. Qed.

Lemma alloc_used v b b' : data_block b -> 0 <= b < sb_size sb -> 0 <= b' < sb_size sb ->
  block_ok (v (gk g (bitmap_of b))) ->
  used (alloc_view v b) b' = if decide (b' = b) then true else used v b'.
Proof.
  intros [Hd _] Hb Hb' Hok. unfold used, alloc_view.
  rewrite upd_ne by (apply gk_ne; by apply bitmap_not_data).
  destruct (decide (bitmap_of b' = bitmap_of b)) as [Ebm|Ebm].
  - rewrite Ebm, upd_same, bit_of_set; try done; try (apply Z.mod_pos_bound; rewrite BPB_val; lia).
    unfold bitmap_of, BBLOCK in Ebm. rewrite BPB_val in *.
    pose proof (Z.div_mod b 4096). pose proof (Z.div_mod b' 4096).
    do 2 case_decide; subst; lia || done.
  - rewrite upd_ne by by apply gk_ne. rewrite decide_False by congruence. done.
Qed.

Lemma alloc_bitmap_ok v b : data_block b -> 0 <= b < sb_size sb ->
  (forall k, block_ok (v k)) -> bitmap_ok v -> bitmap_ok (alloc_view v b).
Proof.
  intros Hd Hb Hv [Hs Hf]. pose proof (bitmap_range b Hb). split.
  - rewrite alloc_other; [done| |lia]. destruct Hd. lia.
  - intros b' Hb'. rewrite alloc_used by done. case_decide; [done|]. by apply Hf.
Qed.

(** How an operation on one file may change the blocks: blocks in use stay in
    use, and a data block in use that does not belong to [own] keeps its
    contents, as does every metadata block that is not a bitmap block. *)
Record grows (v v' : key -> block) (own : Z -> Prop) : Prop := {
  gr_used x : 0 <= x < sb_size sb -> used v x = true -> used v' x = true;
  gr_data x : data_block x -> used v x = true -> ~ own x -> v' (gk g x) = v (gk g x);
  gr_meta x : 0 <= x < data_start -> (forall b, 0 <= b < sb_size sb -> bitmap_of b <> x) ->
    v' (gk g x) = v (gk g x)
}.

Lemma grows_refl v own : grows v v own.
Proof. by split. Qed.

Lemma data_lt_size x : data_block x -> 0 <= x < sb_size sb.
Proof.
  intros [H1 H2]. destruct Hly as [Hs _ Hl _ _], Hg as [_ _ Hgs _ _].
  pose proof (bitmap_range 0 ltac:(lia)). lia.
Qed.

Lemma grows_trans v1 v2 v3 own : grows v1 v2 own -> grows v2 v3 own -> grows v1 v3 own.
Proof.
  intros [A1 A2 A3] [C1 C2 C3]. split.
  - auto.
  - intros x Hx Hu Ho. rewrite C2; [by apply A2|done| |done]. apply A1; [by apply data_lt_size|done].
  - intros x Hx Hb. rewrite C3; [by apply A3|done..].
Qed.

Lemma grows_weaken v v' (own own' : Z -> Prop) :
  (forall x, own x -> own' x) -> grows v v' own -> grows v v' own'.
Proof. intros Hw [A1 A2 A3]. split; auto. Qed.

Lemma alloc_grows v b own : data_block b -> 0 <= b < sb_size sb -> used v b = false ->
  (forall k, block_ok (v k)) -> grows v (alloc_view v b) own.
Proof.
  intros Hd Hb Hf Hv. split.
  - intros x Hx Hu. rewrite alloc_used by done. by case_decide.
  - intros x Hx Hu _. apply alloc_other; [congruence|]. destruct Hx.
    pose proof (bitmap_range b Hb). lia.
  - intros x Hx Hnb. apply alloc_other; [destruct Hd; lia|]. intros ->. by apply (Hnb b).
Qed.

(** Enough free blocks. *)
Definition nfree (v : key -> block) (n : nat) : Prop :=
  exists l, NoDup l /\ length l = n /\ forall b, b ∈ l -> 0 <= b < sb_size sb /\ used v b = false.

Lemma nfree_one v n : nfree v (S n) -> exists b, 0 <= b < sb_size sb /\ used v b = false.
Proof. intros ([|b l] & _ & Hl & Hb); [done|]. exists b. apply Hb. set_solver. Qed.

Lemma nfree_le v n m : (m <= n)%nat -> nfree v n -> nfree v m.
Proof.
  intros Hm (l & Hnd & Hl & Hb). exists (take m l). split_and!.
  - rewrite <- (take_drop m l) in Hnd. by apply NoDup_app in Hnd as [? _].
  - rewrite length_take. lia.
  - intros b Hin. apply Hb. rewrite <- (take_drop m l). set_solver.
Qed.

Lemma alloc_nfree v b n : data_block b -> 0 <= b < sb_size sb -> (forall k, block_ok (v k)) ->
  nfree v (S n) -> nfree (alloc_view v b) n.
Proof.
  intros Hd Hb Hv (l & Hnd & Hl & Hf). 
  assert (exists l', NoDup l' /\ length l' = n /\ forall x, x ∈ l' -> x ∈ l /\ x <> b) as (l' & Hnd' & Hl' & Hx).
  { destruct (decide (b ∈ l)) as [(l1 & l2 & ->)%list_elem_of_split|Hni].
    - exists (l1 ++ l2). rewrite length_app in *. simpl in Hl. apply NoDup_app in Hnd as (N1 & N2 & N3).
      apply NoDup_cons in N3 as [N3 N4]. split_and!; [|lia|].
      + apply NoDup_app. split_and!; [done|set_solver|done].
      + intros x Hx. split; [set_solver|]. intros ->. set_solver.
    - destruct l as [|a l]; [done|]. exists l. apply NoDup_cons in Hnd as [? ?]. split_and!; [done|simpl in Hl; lia|].
      intros x Hx. set_solver. }
  exists l'. split_and!; try done. intros x Hin. destruct (Hx x Hin) as [Hxl Hne].
  destruct (Hf x Hxl) as [Hr Hu]. split; [done|]. rewrite alloc_used by done. by rewrite decide_False.
Qed.
End specs.
