(* ===== verification/FileSpec.v ===== *)
(** Contents of inodes: the specifications of fs.c [bmap], [readi], [writei].

    A file is its bytes: [content v I o] is byte [o] of the file whose cached
    inode is [I], read through the direct addresses and the indirect block.
    The specifications say what each routine does to that function, that the
    blocks of other files and the metadata are left alone, and how much of the
    log each needs. *)

From S2P Require Import Prelude Params BlockDev Bio Log Fs FsSpec.

Section file.
Context `{BlockDev} {E : Type} (g : geom) (Hg : geom_ok g) (o : Z) (Ho : 1 <= o).
Context (sb : superblock) (Hly : layout g sb) (Hone : sb_size sb <= BPB).
Abbreviation FS := (M (fsst E)).
Abbreviation cap := (g_size g - 1).
Abbreviation bm := (bitmap_of sb 0).
Abbreviation used := (used g sb).
Abbreviation data_block := (data_block g sb).

(** ** Addresses and contents *)

Definition ind (I : inode) : Z := i_addrs I !!! 12%nat.

Definition addr_of (v : key -> block) (I : inode) (bn : Z) : Z :=
  if bn <? NDIRECT then i_addrs I !!! Z.to_nat bn
  else if ind I =? 0 then 0
  else get32 (4 * Z.to_nat (bn - NDIRECT)) (v (gk g (ind I))).

Definition content (v : key -> block) (I : inode) (p : Z) : Z :=
  let a := addr_of v I (p / BSIZE) in
  if a =? 0 then 0 else (v (gk g a) : list Z) !!! Z.to_nat (p mod BSIZE).

Definition in_file (bn : Z) : Prop := 0 <= bn < MAXFILE.

Definition owns (v : key -> block) (I : inode) (x : Z) : Prop :=
  x <> 0 /\ (x = ind I \/ exists bn, in_file bn /\ addr_of v I bn = x).

Record ino_ok (v : key -> block) (I : inode) : Prop := {
  io_len : length (i_addrs I) = 13%nat;
  io_dev : i_dev I = g_dev g;
  io_own x : owns v I x -> data_block x /\ used v x = true;
  io_inj bn bn' : in_file bn -> in_file bn' -> addr_of v I bn = addr_of v I bn' ->
    addr_of v I bn <> 0 -> bn = bn';
  io_ind bn : in_file bn -> addr_of v I bn <> 0 -> addr_of v I bn <> ind I
}.

Lemma consts : NDIRECT = 12 /\ NINDIRECT = 128 /\ MAXFILE = 140 /\ BSIZE = 512.
Proof. done. Qed.

Lemma owns_addr v I bn : in_file bn -> addr_of v I bn <> 0 -> owns v I (addr_of v I bn).
Proof. intros Hb Hn. split; [done|]. right. eauto. Qed.

Lemma owns_ind v I : ind I <> 0 -> owns v I (ind I).
Proof. intros Hn. split; [done|by left]. Qed.

Lemma data_nonzero x : data_block x -> x <> 0.
Proof.
  intros [Hd _]. destruct Hly as [Hs _ _ _ _]. pose proof (bitmap_range g sb Hly 0 ltac:(lia)). lia.
Qed.

Lemma bitmap_one b : 0 <= b < sb_size sb -> bitmap_of sb b = bm.
Proof.
  intros Hb. unfold bitmap_of, BBLOCK. rewrite (Z.div_small b), (Z.div_small 0); [done|rewrite BPB_val; lia|lia].
Qed.

(** ** Adding one block to a file *)

(** The addresses and used bits after block [b] became block [n] of the file. *)
Record extends (v : key -> block) (I : inode) (v' : key -> block) (I' : inode) (n b : Z) : Prop := {
  ex_len : length (i_addrs I') = 13%nat;
  ex_dev : i_dev I' = i_dev I;
  ex_ind : ind I' = ind I;
  ex_new : addr_of v' I' n = b;
  ex_old bn : in_file bn -> bn <> n -> addr_of v' I' bn = addr_of v I bn;
  ex_was : addr_of v I n = 0;
  ex_data : data_block b;
  ex_fresh : used v b = false;
  ex_used x : 0 <= x < sb_size sb -> used v' x = if decide (x = b) then true else used v x
}.

Lemma extends_ok v I v' I' n b : extends v I v' I' n b -> ino_ok v I -> in_file n -> ino_ok v' I'.
Proof.
  intros [El Ed Ei En Eo Ew Edt Ef Eu] [Il Idv Iown Iinj Iind] Hn.
  assert (b <> 0) as Hb0 by by apply data_nonzero.
  assert (forall bn, in_file bn -> addr_of v I bn <> b) as Hnb.
  { intros bn Hbn Eb. destruct (Iown b) as [_ Hu]; [rewrite <- Eb; apply owns_addr; congruence|congruence]. }
  assert (ind I <> b) as Hib.
  { intros Eb. destruct (Iown b) as [_ Hu]; [rewrite <- Eb; apply owns_ind; congruence|congruence]. }
  split; [done|congruence| | |].
  - intros x [Hx Hox]. assert (data_block x) as Hdx.
    { destruct Hox as [->|(bn & Hbn & Ex)].
      - rewrite Ei in *. by apply (Iown (ind I)), owns_ind.
      - destruct (decide (bn = n)) as [->|Hne]; [congruence|].
        rewrite Eo in Ex by done. subst x. by apply (Iown _), owns_addr. }
    split; [done|]. rewrite Eu by (by apply (data_lt_size g Hg sb Hly)). case_decide; [done|].
    destruct Hox as [->|(bn & Hbn & Ex)].
    + rewrite Ei in *. by apply (Iown (ind I)), owns_ind.
    + destruct (decide (bn = n)) as [->|Hne]; [congruence|].
      rewrite Eo in Ex by done. subst x. by apply (Iown _), owns_addr.
  - intros b1 b2 H1 H2. destruct (decide (b1 = n)) as [->|N1], (decide (b2 = n)) as [->|N2]; [done| | |].
    + rewrite En, Eo by done. intros Eb. by destruct (Hnb b2 H2).
    + rewrite En, Eo by done. intros Eb. by destruct (Hnb b1 H1).
    + rewrite !Eo by done. by apply Iinj.
  - intros b1 H1. destruct (decide (b1 = n)) as [->|N1].
    + rewrite En, Ei. congruence.
    + rewrite Eo, Ei by done. by apply Iind.
Qed.

Lemma extends_content v I v' I' n b : extends v I v' I' n b -> ino_ok v I -> in_file n ->
  v' (gk g b) = zero_block ->
  (forall x, owns v I x -> x <> ind I -> v' (gk g x) = v (gk g x)) ->
  forall p, 0 <= p < MAXFILE * BSIZE -> content v' I' p = content v I p.
Proof.
  intros [El Ed Ei En Eo Ew Edt Ef Eu] HI Hn Hz Hk p Hp.
  assert (in_file (p / BSIZE)) as Hpb.
  { unfold in_file. destruct consts as (_ & _ & EM & EB). rewrite EM, EB in *.
    pose proof (Z.div_pos p 512). pose proof (Z.div_lt_upper_bound p 512 140). lia. }
  unfold content. destruct (decide (p / BSIZE = n)) as [<-|Hne].
  - rewrite En, Ew, Hz. rewrite (proj2 (Z.eqb_neq _ _) (data_nonzero b Edt)). simpl.
    apply list_lookup_total_correct, lookup_replicate. split; [done|].
    pose proof (Z.mod_pos_bound p BSIZE). destruct consts as (_ & _ & _ & EB). rewrite EB in *. lia.
  - rewrite Eo by done. destruct (Z.eqb_spec (addr_of v I (p / BSIZE)) 0) as [|Hnz]; [done|].
    rewrite Hk; [done|by apply owns_addr|by apply (io_ind _ _ HI)].
Qed.

(** ** States with one inode changed *)

Definition with_inode (ip : nat) (I : inode) (s : fsst E) : fsst E :=
  put_ic (mkicache (ic_lock (ic s)) (<[ip := I]> (ic_inode (ic s)))) s.

Lemma wp_update_inode ip f s (Q : unit -> fsst E -> Prop) :
  Q tt (with_inode ip (f (inode_of s ip)) s) -> wp (update_inode ip f) s Q.
Proof. apply wp_modify. Qed.

Lemma frep_with_inode s v ss B ip I : frep g o s v ss B -> frep g o (with_inode ip I s) v ss B.
Proof. intros [A1 A2 A3 A4]. split; try done. simpl. by rewrite length_insert. Qed.

Lemma inode_of_with s v ss B ip I : frep g o s v ss B -> (ip < NINODE)%nat ->
  inode_of (with_inode ip I s) ip = I.
Proof. intros F Hip. apply list_lookup_total_insert_eq. by rewrite (fr_len _ _ _ _ _ _ F). Qed.

Lemma inode_of_with_ne s ip j I : j <> ip -> inode_of (with_inode ip I s) j = inode_of s j.
Proof. intros. by apply list_lookup_total_insert_ne. Qed.

Lemma inode_of_ic (s s' : fsst E) ip : ic s' = ic s -> inode_of s' ip = inode_of s ip.
Proof. unfold inode_of. by intros ->. Qed.

(** A step on the file of inode [ip], whose contents become [c]. *)
Record file_step (ip : nat) (s : fsst E) (v : key -> block) (s' : fsst E) (v' : key -> block) (ss' : list Z)
    (c : Z -> Z) : Prop := {
  st_rep : frep g o s' v' ss' ∅;
  st_bits : bitmap_ok g sb v';
  st_ino : ino_ok v' (inode_of s' ip);
  st_meta : inode_of s' ip = set_i_addrs (i_addrs (inode_of s' ip)) (inode_of s ip);
  st_others j : j <> ip -> inode_of s' j = inode_of s j;
  st_ext : ext s' = ext s;
  st_content p : 0 <= p < MAXFILE * BSIZE -> content v' (inode_of s' ip) p = c p;
  st_addrs bn : in_file bn -> addr_of v (inode_of s ip) bn <> 0 ->
    addr_of v' (inode_of s' ip) bn = addr_of v (inode_of s ip) bn;
  st_grows : grows g sb v v' (owns v (inode_of s ip));
  st_owns x : owns v' (inode_of s' ip) x -> owns v (inode_of s ip) x \/ used v x = false
}.

Lemma file_step_refl ip s v ss : frep g o s v ss ∅ -> bitmap_ok g sb v -> ino_ok v (inode_of s ip) ->
  file_step ip s v s v ss (content v (inode_of s ip)).
Proof. intros F Hb HI. split; try done; [by destruct (inode_of s ip)|auto]. Qed.

Lemma file_step_weaken ip s v s' v' ss' c c' :
  file_step ip s v s' v' ss' c -> (forall p, 0 <= p < MAXFILE * BSIZE -> c p = c' p) ->
  file_step ip s v s' v' ss' c'.
Proof. intros [] Hc. split; try done. intros p Hp. rewrite <- Hc by done. auto. Qed.

Lemma file_step_trans ip s v s1 v1 ss1 s2 v2 ss2 c1 c2 :
  file_step ip s v s1 v1 ss1 c1 -> file_step ip s1 v1 s2 v2 ss2 c2 -> file_step ip s v s2 v2 ss2 c2.
Proof.
  intros [A1 A2 A3 A4 A5 A6 A7 A8 A9 A10] [C1 C2 C3 C4 C5 C6 C7 C8 C9 C10]. split; try done.
  - rewrite C4. rewrite A4. done.
  - intros j Hj. rewrite C5 by done. auto.
  - congruence.
  - intros bn Hbn Hnz. rewrite C8, A8; try done. by rewrite A8.
  - destruct A9 as [G1 G2 G3], C9 as [K1 K2 K3]. split.
    + auto.
    + intros x Hx Hu Hno. rewrite K2; [by apply G2|done|apply G1; [by apply (data_lt_size g Hg sb Hly)|done]|].
      intros [?|?]%A10; [done|congruence].
    + intros x Hx Hnb. rewrite K3; auto.
  - intros x Hox. destruct (io_own _ _ C3 x Hox) as [Hd _].
    destruct (C10 x Hox) as [Hx|Hx]; [by apply A10|]. right.
    destruct (used v x) eqn:Hu; [|done].
    rewrite (gr_used _ _ _ _ _ A9 x (data_lt_size g Hg sb Hly x Hd) Hu) in Hx. done.
Qed.

(** ** Allocation steps *)

Lemma alloc_keep v b x : 0 <= b < sb_size sb -> used v b = false -> data_block x -> used v x = true ->
  alloc_view g sb v b (gk g x) = v (gk g x).
Proof.
  intros Hb Hf [Hx _] Hu. apply alloc_other; [congruence|].
  pose proof (bitmap_range g sb Hly b Hb). lia.
Qed.

Lemma lookup_set_addr I (n m : nat) b : length (i_addrs I) = 13%nat -> (n < 13)%nat ->
  i_addrs (set_i_addr n b I) !!! m = if decide (m = n) then b else i_addrs I !!! m.
Proof.
  intros Hl Hn. simpl. case_decide; subst; [apply list_lookup_total_insert_eq; lia|].
  by apply list_lookup_total_insert_ne.
Qed.

Lemma direct_extends v I n b :
  ino_ok v I -> (forall k, block_ok (v k)) -> 0 <= n < NDIRECT -> addr_of v I n = 0 ->
  data_block b -> used v b = false ->
  extends v I (alloc_view g sb v b) (set_i_addr (Z.to_nat n) b I) n b.
Proof.
  intros HI Hv Hn Hz Hd Hf. pose proof (data_lt_size g Hg sb Hly b Hd) as Hb.
  pose proof (io_len _ _ HI) as Hl. destruct consts as (E12 & _).
  assert (forall m, i_addrs (set_i_addr (Z.to_nat n) b I) !!! m =
    if decide (m = Z.to_nat n) then b else i_addrs I !!! m) as Hlk.
  { intros m. apply lookup_set_addr; [done|]. rewrite E12 in Hn. lia. }
  assert (ind (set_i_addr (Z.to_nat n) b I) = ind I) as Ei.
  { unfold ind. rewrite Hlk, decide_False; [done|]. rewrite E12 in Hn. lia. }
  split; try done.
  - simpl. by rewrite length_insert.
  - unfold addr_of. rewrite (proj2 (Z.ltb_lt _ _)) by lia. rewrite Hlk. by rewrite decide_True.
  - intros bn Hbn Hne. unfold addr_of. rewrite Ei. destruct (Z.ltb_spec bn NDIRECT).
    + rewrite Hlk, decide_False; [done|]. unfold in_file in Hbn. lia.
    + destruct (Z.eqb_spec (ind I) 0); [done|].
      destruct (io_own _ _ HI (ind I) (owns_ind v I n0)) as [Hdi Hui]. by rewrite alloc_keep.
  - intros x Hx. by apply (alloc_used g sb).
Qed.

Lemma get32_zero_block n : (n < 128)%nat -> get32 (4 * n) zero_block = 0.
Proof.
  intros Hn. unfold get32, slice, zero_block. rewrite drop_replicate, take_replicate.
  replace (4 `min` (512 - 4 * n))%nat with 4%nat by lia. done.
Qed.

(** A new, empty, indirect block changes no address. *)
Lemma indirect_addrs v I b bn :
  ino_ok v I -> ind I = 0 -> data_block b -> in_file bn ->
  addr_of (alloc_view g sb v b) (set_i_addr 12 b I) bn = addr_of v I bn.
Proof.
  intros HI Hi Hd Hbn. pose proof (io_len _ _ HI) as Hl. unfold addr_of. rewrite Hi. destruct consts as (E12 & _ & E140 & _).
  unfold in_file in Hbn. rewrite E12, E140 in *.
  destruct (Z.ltb_spec bn 12).
  - rewrite lookup_set_addr by lia. rewrite decide_False by lia. done.
  - assert (ind (set_i_addr 12 b I) = b) as ->.
    { unfold ind. rewrite lookup_set_addr by lia. by rewrite decide_True. }
    rewrite (proj2 (Z.eqb_neq _ _) (data_nonzero b Hd)), alloc_new. simpl.
    apply get32_zero_block. lia.
Qed.

(** Costs: what an allocation for this file may still add to the log besides
    data blocks: the bitmap block and the indirect block. *)
Definition pend (ss : list Z) (I : inode) : Z :=
  Z.of_nat (length ss) + (if decide (bm ∈ ss) then 0 else 1) +
  (if decide (ind I <> 0 /\ ind I ∈ ss) then 0 else 1).

Lemma length_absorb_eq ss x : Z.of_nat (length (absorb ss x)) = Z.of_nat (length ss) + if decide (x ∈ ss) then 0 else 1.
Proof. unfold absorb. case_decide; rewrite ?length_app; simpl; lia. Qed.

Lemma elem_absorb ss x y : y ∈ absorb ss x <-> y = x \/ y ∈ ss.
Proof. unfold absorb. case_decide; set_solver. Qed.

Lemma pend_room ss I : pend ss I + 1 <= cap -> balloc_room g sb ss.
Proof.
  intros Hp b Hb. rewrite bitmap_one by done. rewrite length_absorb_eq. unfold pend in Hp.
  repeat case_decide; lia.
Qed.

Lemma pend_room0 ss I : ind I = 0 -> pend ss I <= cap -> balloc_room g sb ss.
Proof.
  intros Hi Hp b Hb. rewrite bitmap_one by done. rewrite length_absorb_eq. unfold pend in Hp.
  rewrite (decide_False (P := ind I <> 0 /\ ind I ∈ ss)) in Hp by tauto. lia.
Qed.

Lemma pend_len ss I : Z.of_nat (length ss) <= pend ss I.
Proof. unfold pend. repeat case_decide; lia. Qed.

(** The transaction after an allocation. *)
Abbreviation after ss b := (absorb (absorb ss (bitmap_of sb b)) b).

Lemma pend_after ss b I I' : 0 <= b < sb_size sb -> ind I' = ind I -> pend (after ss b) I' <= pend ss I + 1.
Proof.
  intros Hb Ei. unfold pend. rewrite Ei, bitmap_one, !length_absorb_eq by done.
  rewrite (decide_True (P := bm ∈ absorb (absorb ss bm) b)) by (rewrite !elem_absorb; auto).
  assert (ind I ∈ ss -> ind I ∈ absorb (absorb ss bm) b) by (rewrite !elem_absorb; auto).
  repeat case_decide; try lia; tauto.
Qed.

Lemma pend_after_ind ss b I I' : 0 <= b < sb_size sb -> ind I = 0 -> ind I' = b -> b <> 0 ->
  pend (after ss b) I' <= pend ss I.
Proof.
  intros Hb Ei Ei' Hnz. unfold pend. rewrite Ei, Ei', bitmap_one, !length_absorb_eq by done.
  rewrite (decide_True (P := bm ∈ absorb (absorb ss bm) b)) by (rewrite !elem_absorb; auto).
  rewrite (decide_True (P := b <> 0 /\ b ∈ absorb (absorb ss bm) b)) by (rewrite !elem_absorb; auto).
  rewrite (decide_False (P := 0 <> 0 /\ 0 ∈ ss)) by tauto.
  repeat case_decide; lia.
Qed.

(** ** bmap *)

Definition nz (x : Z) : nat := if x =? 0 then 1 else 0.

Definition bmap_post (ip : nat) (s : fsst E) (v : key -> block) (ss : list Z) (bn addr : Z) (s' : fsst E) : Prop :=
  exists v' ss', file_step ip s v s' v' ss' (content v (inode_of s ip)) /\
    addr_of v' (inode_of s' ip) bn = addr /\ addr <> 0 /\
    (addr_of v (inode_of s ip) bn = 0 -> addr ∈ ss') /\
    (addr_of v (inode_of s ip) bn <> 0 -> v' = v /\ ss' = ss /\ ic s' = ic s) /\
    pend ss' (inode_of s' ip) <= pend ss (inode_of s ip) + Z.of_nat (nz (addr_of v (inode_of s ip) bn)) /\
    (forall n, nfree g sb v (n + 1 + nz (ind (inode_of s ip))) -> nfree g sb v' (n + nz (ind (inode_of s' ip)))).

Lemma held_none v : held_used g sb v ∅.
Proof. split; [rewrite size_empty; lia|set_solver]. Qed.

(** Allocating block [n] of the file into an inode slot. *)
Lemma alloc_direct_step s v ss ip n b s1 :
  frep g o s v ss ∅ -> bitmap_ok g sb v -> ino_ok v (inode_of s ip) -> (ip < NINODE)%nat ->
  0 <= n < NDIRECT -> addr_of v (inode_of s ip) n = 0 -> alloc_post g o sb s v ss ∅ b s1 ->
  bmap_post ip s v ss n b (with_inode ip (set_i_addr (Z.to_nat n) b (inode_of s1 ip)) s1).
Proof.
  intros F Hbits HI Hip Hn Hz (Hb & Hf & F1 & [Hic Hext _]).
  pose proof (br_vok _ _ _ _ (frep_cache _ _ _ _ _ _ F)) as Hv.
  pose proof (bo_free _ _ _ Hbits b Hb Hf) as Hd.
  rewrite (inode_of_ic s s1 ip Hic). set (I := inode_of s ip) in *.
  pose proof (direct_extends v I n b HI Hv Hn Hz Hd Hf) as Hex.
  assert (in_file n) as Hnf by (unfold in_file; destruct consts as (E12 & _ & E140 & _); lia).
  set (I' := set_i_addr (Z.to_nat n) b I) in *. set (s' := with_inode ip I' s1).
  assert (inode_of s' ip = I') as EI' by by eapply inode_of_with.
  unfold bmap_post. fold I. exists (alloc_view g sb v b), (after ss b). rewrite EI'.
  split_and!.
  - split; rewrite ?EI'; fold I.
    + by apply frep_with_inode.
    + by apply (alloc_bitmap_ok g sb Hly).
    + by eapply extends_ok.
    + done.
    + intros j Hj. unfold s'. rewrite inode_of_with_ne by done. by apply inode_of_ic.
    + done.
    + apply (extends_content v I _ I' n b Hex HI Hnf); [apply alloc_new|].
      intros x Hx _. destruct (io_own _ _ HI x Hx). by apply alloc_keep.
    + intros bn Hbn Hnz. apply (ex_old _ _ _ _ _ _ Hex); [done|]. intros ->. done.
    + by apply (alloc_grows g sb Hly).
    + intros x Hx. pose proof Hx as [Hx0 Hor]. destruct (decide (x = b)) as [->|Hne]; [by right|left].
      split; [done|]. destruct Hor as [->|(bn & Hbn & Ex)]; [left; apply (ex_ind _ _ _ _ _ _ Hex)|right].
      exists bn. split; [done|]. destruct (decide (bn = n)) as [->|Hnn].
      * rewrite (ex_new _ _ _ _ _ _ Hex) in Ex. congruence.
      * by rewrite <- (ex_old _ _ _ _ _ _ Hex).
  - apply (ex_new _ _ _ _ _ _ Hex).
  - by apply data_nonzero.
  - intros _. rewrite elem_absorb. by left.
  - intros Hc. by destruct Hc.
  - rewrite Hz. change (Z.of_nat (nz 0)) with 1. apply pend_after; [done|apply (ex_ind _ _ _ _ _ _ Hex)].
  - intros m Hm. rewrite (ex_ind _ _ _ _ _ _ Hex). apply (alloc_nfree g Hg sb Hly); try done.
    replace (S (m + nz (ind I)))%nat with (m + 1 + nz (ind I))%nat by lia. done.
Qed.

Lemma bmap_direct s v ss ip bn :
  frep g o s v ss ∅ -> bitmap_ok g sb v -> ino_ok v (inode_of s ip) -> (ip < NINODE)%nat ->
  0 <= bn < NDIRECT -> pend ss (inode_of s ip) + 2 <= cap ->
  (addr_of v (inode_of s ip) bn = 0 -> nfree g sb v (1 + nz (ind (inode_of s ip)))) ->
  wp (bmap ip bn) s (bmap_post ip s v ss bn).
Proof.
  intros F Hbits HI Hip Hbn Hroom Hfree. set (I := inode_of s ip) in *.
  assert (addr_of v I bn = i_addrs I !!! Z.to_nat bn) as Ea.
  { unfold addr_of. by rewrite (proj2 (Z.ltb_lt _ _)) by lia. }
  unfold bmap. apply wp_bind, wp_gets. fold I. rewrite (proj2 (Z.ltb_lt _ _)) by lia. rewrite <- Ea.
  destruct (Z.eqb_spec (addr_of v I bn) 0) as [Hz|Hnz].
  - rewrite (io_dev _ _ HI). eapply wp_seq.
    { apply (balloc_fs g Hg o sb Hly s v ss ∅ F Hbits (held_none v)); [|done|].
      - apply (pend_room ss I). lia.
      - eapply (nfree_one g Hg sb Hly). by apply Hfree. }
    intros b s1 Hpost. apply wp_bind, wp_update_inode, wp_ret.
    by apply (alloc_direct_step s v ss ip bn b s1).
  - apply wp_ret. exists v, ss. split_and!; try done.
    + by apply file_step_refl.
    + fold I. lia.
    + fold I. intros n. apply (nfree_le g Hg sb Hly). lia.
Qed.

(** Making sure there is an indirect block. *)
Definition ensure_post (ip : nat) (s : fsst E) (v : key -> block) (ss : list Z) (addr : Z) (s' : fsst E) : Prop :=
  exists v' ss', file_step ip s v s' v' ss' (content v (inode_of s ip)) /\
    ind (inode_of s' ip) = addr /\ addr <> 0 /\
    (forall bn, in_file bn -> addr_of v' (inode_of s' ip) bn = addr_of v (inode_of s ip) bn) /\
    (ind (inode_of s ip) <> 0 -> v' = v /\ ss' = ss /\ s' = s) /\
    pend ss' (inode_of s' ip) <= pend ss (inode_of s ip) /\
    (forall n, nfree g sb v (n + nz (ind (inode_of s ip))) -> nfree g sb v' n).

Lemma alloc_indirect_step s v ss ip b s1 :
  frep g o s v ss ∅ -> bitmap_ok g sb v -> ino_ok v (inode_of s ip) -> (ip < NINODE)%nat ->
  ind (inode_of s ip) = 0 -> alloc_post g o sb s v ss ∅ b s1 ->
  ensure_post ip s v ss b (with_inode ip (set_i_addr 12 b (inode_of s1 ip)) s1).
Proof.
  intros F Hbits HI Hip Hi (Hb & Hf & F1 & [Hic Hext _]).
  pose proof (br_vok _ _ _ _ (frep_cache _ _ _ _ _ _ F)) as Hv.
  pose proof (bo_free _ _ _ Hbits b Hb Hf) as Hd.
  rewrite (inode_of_ic s s1 ip Hic). set (I := inode_of s ip) in *.
  pose proof (indirect_addrs v I b) as Haddr.
  set (I' := set_i_addr 12 b I) in *. set (s' := with_inode ip I' s1).
  assert (inode_of s' ip = I') as EI' by by eapply inode_of_with.
  pose proof (io_len _ _ HI) as Hlen.
  assert (ind I' = b) as Ei' by (unfold ind, I'; rewrite lookup_set_addr by lia; by rewrite decide_True).
  assert (forall bn, in_file bn -> addr_of v I bn <> b) as Hnb.
  { intros bn Hbn Eb. destruct (io_own _ _ HI b) as [_ Hu]; [|congruence].
    rewrite <- Eb. apply owns_addr; [done|]. rewrite Eb. by apply data_nonzero. }
  unfold ensure_post. fold I. exists (alloc_view g sb v b), (after ss b). rewrite EI'. split_and!.
  - split; rewrite ?EI'; fold I.
    + by apply frep_with_inode.
    + by apply (alloc_bitmap_ok g sb Hly).
    + destruct HI as [Il Idv Iown Iinj Iind]. split; [unfold I'; simpl; by rewrite length_insert|done| | |].
      * intros x [Hx [->|(bn & Hbn & Ex)]]; [rewrite Ei'|].
        -- split; [done|]. rewrite (alloc_used g sb Hly) by done. by rewrite decide_True.
        -- rewrite Haddr in Ex by done. subst x. destruct (Iown _ (owns_addr v I bn Hbn Hx)) as [Hdx Hux].
           split; [done|]. rewrite (alloc_used g sb Hly) by (done || by apply (data_lt_size g Hg sb Hly)).
           by case_decide.
      * intros b1 b2 H1 H2. rewrite !Haddr by done. by apply Iinj.
      * intros b1 H1. rewrite Haddr, Ei' by done. intros _. by apply Hnb.
    + done.
    + intros j Hj. unfold s'. rewrite inode_of_with_ne by done. by apply inode_of_ic.
    + done.
    + intros p Hp. unfold content. cbv zeta.
      assert (in_file (p / BSIZE)) as Hpb.
      { unfold in_file. destruct consts as (_ & _ & EM & EB). rewrite EM, EB in *.
        pose proof (Z.div_pos p 512). pose proof (Z.div_lt_upper_bound p 512 140). lia. }
      rewrite Haddr by done. destruct (Z.eqb_spec (addr_of v I (p / BSIZE)) 0) as [|Hnz]; [done|].
      destruct (io_own _ _ HI _ (owns_addr v I _ Hpb Hnz)). by rewrite alloc_keep.
    + intros bn Hbn _. by apply Haddr.
    + by apply (alloc_grows g sb Hly).
    + intros x [Hx [->|(bn & Hbn & Ex)]]; [right; by rewrite Ei'|left]. rewrite Haddr in Ex by done.
      split; [done|]. right. eauto.
  - done.
  - by apply data_nonzero.
  - intros bn Hbn. by apply Haddr.
  - done.
  - apply pend_after_ind; try done. by apply data_nonzero.
  - intros n Hn. rewrite Hi in Hn. apply (alloc_nfree g Hg sb Hly); try done.
    change (nz 0) with 1%nat in Hn. by rewrite Nat.add_1_r in Hn.
Qed.

Lemma ensure_indirect s v ss ip (I := inode_of s ip) :
  frep g o s v ss ∅ -> bitmap_ok g sb v -> ino_ok v I -> (ip < NINODE)%nat ->
  pend ss I <= cap -> (ind I = 0 -> nfree g sb v 1) ->
  wp (let addr := i_addrs I !!! Z.to_nat NDIRECT in
      if addr =? 0 then
        addr <- balloc (i_dev I) ;;
        update_inode ip (set_i_addr (Z.to_nat NDIRECT) addr) ;;
        ret addr
      else ret addr) s (ensure_post ip s v ss).
Proof.
  intros F Hbits HI Hip Hroom Hfree. change (Z.to_nat NDIRECT) with 12%nat. fold (ind I). cbv zeta.
  destruct (Z.eqb_spec (ind I) 0) as [Hz|Hnz].
  - rewrite (io_dev _ _ HI). eapply wp_seq.
    { apply (balloc_fs g Hg o sb Hly s v ss ∅ F Hbits (held_none v)); [|done|].
      - by apply (pend_room0 ss I).
      - eapply (nfree_one g Hg sb Hly). by apply Hfree. }
    intros b s1 Hpost. apply wp_bind, wp_update_inode, wp_ret. by apply alloc_indirect_step.
  - apply wp_ret. exists v, ss. split_and!; try done.
    + by apply file_step_refl.
    + fold I. intros n. unfold nz. rewrite (proj2 (Z.eqb_neq _ _) Hnz). by rewrite Nat.add_0_r.
Qed.

(** Entry [bn - NDIRECT] of the indirect block set to [b]. *)
Definition link_view (v : key -> block) (a bn b : Z) : key -> block :=
  upd (alloc_view g sb v b) (gk g a) (put32 (4 * Z.to_nat (bn - NDIRECT)) b (v (gk g a))).

Lemma indirect_extends v I bn b :
  ino_ok v I -> (forall k, block_ok (v k)) -> NDIRECT <= bn -> in_file bn -> ind I <> 0 ->
  addr_of v I bn = 0 -> data_block b -> used v b = false ->
  extends v I (link_view v (ind I) bn b) I bn b.
Proof.
  intros HI Hv Hbn Hnf Hi Hz Hd Hf. pose proof (data_lt_size g Hg sb Hly b Hd) as Hb.
  destruct (io_own _ _ HI (ind I) (owns_ind v I Hi)) as [Hdi Hui].
  destruct consts as (E12 & _ & E140 & _). unfold in_file in *. rewrite E140 in *.
  destruct (Hv (gk g (ind I))) as [Hlen _].
  assert (is_u32 b) as Hub.
  { unfold is_u32. destruct Hly as [Hs _ _ _ _]. lia. }
  split; try done.
  - apply (io_len _ _ HI).
  - unfold addr_of. rewrite (proj2 (Z.ltb_ge _ _)) by done. rewrite (proj2 (Z.eqb_neq _ _) Hi).
    unfold link_view. rewrite upd_same. apply get32_put32_same; [|done]. lia.
  - intros bn' Hbn' Hne. unfold addr_of. destruct (Z.ltb_spec bn' NDIRECT); [done|].
    rewrite (proj2 (Z.eqb_neq _ _) Hi). unfold link_view. rewrite upd_same.
    unfold in_file in Hbn'. rewrite E140 in Hbn'. apply get32_put32_other; lia.
  - intros x Hx. rewrite <- (alloc_used g sb Hly v b x Hd Hb Hx (Hv _)).
    unfold FsSpec.used, link_view. rewrite upd_ne; [done|]. apply gk_ne.
    apply (bitmap_not_data g sb Hly); [done|]. by destruct Hdi.
Qed.

Lemma link_grows v I bn b : ino_ok v I -> (forall k, block_ok (v k)) -> ind I <> 0 ->
  data_block b -> used v b = false -> grows g sb v (link_view v (ind I) bn b) (owns v I).
Proof.
  intros HI Hv Hi Hd Hf. pose proof (data_lt_size g Hg sb Hly b Hd) as Hb.
  destruct (io_own _ _ HI (ind I) (owns_ind v I Hi)) as [[Hdi _] Hui].
  destruct (alloc_grows g sb Hly v b (owns v I) Hd Hb Hf Hv) as [G1 G2 G3]. unfold link_view. split.
  - intros x Hx Hu. unfold FsSpec.used. rewrite upd_ne; [by apply G1|]. apply gk_ne.
    by apply (bitmap_not_data g sb Hly).
  - intros x Hx Hu Hno. rewrite upd_ne; [by apply G2|]. apply gk_ne. intros ->. by apply Hno, owns_ind.
  - intros x Hx Hnb. rewrite upd_ne; [by apply G3|]. apply gk_ne. lia.
Qed.

Lemma link_step s v ss ip bn b s3 :
  bitmap_ok g sb v -> ino_ok v (inode_of s ip) -> (forall k, block_ok (v k)) ->
  NDIRECT <= bn -> in_file bn -> ind (inode_of s ip) <> 0 -> addr_of v (inode_of s ip) bn = 0 ->
  0 <= b < sb_size sb -> used v b = false ->
  frep g o s3 (link_view v (ind (inode_of s ip)) bn b) (absorb (after ss b) (ind (inode_of s ip))) ∅ ->
  ic s3 = ic s -> ext s3 = ext s ->
  bmap_post ip s v ss bn b s3.
Proof.
  intros Hbits HI Hv Hbn Hnf Hi Hz Hb Hf F3 Hic Hext.
  pose proof (bo_free _ _ _ Hbits b Hb Hf) as Hd.
  pose proof (inode_of_ic s s3 ip Hic) as EI. set (I := inode_of s ip) in *.
  pose proof (indirect_extends v I bn b HI Hv Hbn Hnf Hi Hz Hd Hf) as Hex.
  destruct (io_own _ _ HI (ind I) (owns_ind v I Hi)) as [[Hdi _] Hui].
  unfold bmap_post. fold I. exists (link_view v (ind I) bn b), (absorb (after ss b) (ind I)). rewrite EI.
  split_and!.
  - split; rewrite ?EI; fold I.
    + done.
    + destruct (alloc_bitmap_ok g sb Hly v b Hd Hb Hv Hbits) as [C1 C2]. unfold link_view. split.
      * rewrite upd_ne; [done|]. apply gk_ne. pose proof (bitmap_range g sb Hly b Hb). lia.
      * intros b' Hb'. unfold FsSpec.used. rewrite upd_ne; [by apply C2|].
        apply gk_ne. by apply (bitmap_not_data g sb Hly).
    + by eapply extends_ok.
    + by destruct I.
    + intros j _. by apply inode_of_ic.
    + done.
    + apply (extends_content v I _ I bn b Hex HI Hnf).
      * unfold link_view. rewrite upd_ne by (apply gk_ne; congruence). apply alloc_new.
      * intros x Hx Hxi. destruct (io_own _ _ HI x Hx). unfold link_view. rewrite upd_ne by by apply gk_ne.
        by apply alloc_keep.
    + intros bn' Hbn' Hnz. apply (ex_old _ _ _ _ _ _ Hex); [done|]. intros ->. done.
    + by apply link_grows.
    + intros x Hx. pose proof Hx as [Hx0 Hor]. destruct (decide (x = b)) as [->|Hne]; [by right|left].
      split; [done|]. destruct Hor as [->|(bn' & Hbn' & Ex)]; [by left|right].
      exists bn'. split; [done|]. destruct (decide (bn' = bn)) as [->|Hnn].
      * rewrite (ex_new _ _ _ _ _ _ Hex) in Ex. congruence.
      * by rewrite <- (ex_old _ _ _ _ _ _ Hex).
  - apply (ex_new _ _ _ _ _ _ Hex).
  - by apply data_nonzero.
  - intros _. rewrite !elem_absorb. auto.
  - intros Hc. by destruct Hc.
  - rewrite Hz. change (Z.of_nat (nz 0)) with 1. unfold pend. rewrite bitmap_one, !length_absorb_eq by done.
    rewrite (decide_True (P := bm ∈ absorb (absorb (absorb ss bm) b) (ind I))) by (rewrite !elem_absorb; auto).
    rewrite (decide_True (P := ind I <> 0 /\ ind I ∈ absorb (absorb (absorb ss bm) b) (ind I)))
      by (rewrite !elem_absorb; auto).
    assert (ind I ∈ ss -> ind I ∈ absorb (absorb ss bm) b) by (rewrite !elem_absorb; auto).
    repeat case_decide; try lia; tauto.
  - intros m Hm. unfold nz in *. rewrite (proj2 (Z.eqb_neq _ _) Hi) in *. rewrite Nat.add_0_r in *.
    rewrite Nat.add_1_r in Hm.
    destruct (alloc_nfree g Hg sb Hly v b m Hd Hb Hv Hm) as (l & Hl1 & Hl2 & Hl3).
    exists l. split_and!; try done. intros x Hx. destruct (Hl3 x Hx) as [Hr Hu]. split; [done|].
    unfold FsSpec.used, link_view. rewrite upd_ne; [done|]. apply gk_ne. by apply (bitmap_not_data g sb Hly).
Qed.

Lemma cap_29 : cap <= 29.
Proof. destruct Hg as [_ _ Hs _ _]. change LOGSIZE with 30 in Hs. lia. Qed.

Lemma avail_data (ss : list Z) (B : gset key) x : data_block x -> gk g x ∉ B -> (length ss + size B < NBUF)%nat -> avail g ss B x.
Proof. intros Hd HB Hr. split_and!; [done|by apply (ho_on g), (data_home g Hg sb Hly)|by right]. Qed.

(** The part of [bmap] that goes through the indirect block. *)
Definition bmap_tail (dv a bn : Z) : FS Z :=
  bp <- liftb (bread dv a) ;;
  d <- liftb (read_data bp) ;;
  addr <- (let addr := get32 (4 * Z.to_nat bn) d in
           if addr =? 0 then
             addr <- balloc dv ;;
             d <- liftb (read_data bp) ;;
             liftb (write_data bp (put32 (4 * Z.to_nat bn) addr d)) ;;
             liftl (log_write bp) ;;
             ret addr
           else ret addr) ;;
  liftb (brelse bp) ;;
  ret addr.

Lemma bmap_tail_fs s v ss ip bn (I := inode_of s ip) :
  frep g o s v ss ∅ -> bitmap_ok g sb v -> ino_ok v I -> NDIRECT <= bn -> in_file bn -> ind I <> 0 ->
  pend ss I + 2 <= cap -> (addr_of v I bn = 0 -> nfree g sb v 1) ->
  wp (bmap_tail (g_dev g) (ind I) (bn - NDIRECT)) s (bmap_post ip s v ss bn).
Proof.
  intros F Hbits HI Hbn Hnf Hi Hroom Hfree.
  pose proof (br_vok _ _ _ _ (frep_cache _ _ _ _ _ _ F)) as Hv.
  destruct (io_own _ _ HI (ind I) (owns_ind v I Hi)) as [Hdi Hui].
  pose proof (pend_len ss I) as Hpl. pose proof cap_29 as Hc29.
  assert (addr_of v I bn = get32 (4 * Z.to_nat (bn - NDIRECT)) (v (gk g (ind I)))) as Ea.
  { unfold addr_of. rewrite (proj2 (Z.ltb_ge _ _)) by done. by rewrite (proj2 (Z.eqb_neq _ _) Hi). }
  unfold bmap_tail. eapply wp_seq.
  { apply (bread_fs g Hg o s v ss ∅ (ind I) F), avail_data; [done|set_solver|].
    rewrite size_empty. unfold NBUF. lia. }
  intros bp s1 (F1 & Hh1 & [A1 A2 A3] & Hcl1). apply wp_bind.
  eapply (read_data_fs g o); [done|done|]. rewrite <- Ea. cbv zeta.
  destruct (Z.eqb_spec (addr_of v I bn) 0) as [Hz|Hnz].
  - eapply wp_seq.
    { eapply wp_seq.
      { apply (balloc_fs g Hg o sb Hly s1 v ss _ F1 Hbits); [|by apply (pend_room ss I); lia|done|].
        - split; [rewrite union_empty_r_L, size_singleton; lia|].
          intros k Hk. exists (ind I). split; [set_solver|done].
        - eapply (nfree_one g Hg sb Hly). by apply Hfree. }
      intros b s2 (Hb & Hf & F2 & [C1 C2 C3]).
      pose proof (bo_free _ _ _ Hbits b Hb Hf) as Hd.
      apply wp_bind. eapply (read_data_fs g o); [exact F2|by apply C3|].
      rewrite alloc_keep by done.
      eapply wp_seq; [apply (write_data_fs g o _ _ _ _ bp _ _ F2 (C3 _ _ Hh1))|].
      { apply put32_block_ok; [|apply Hv]. unfold in_file in Hnf. destruct consts as (E12 & _ & E140 & _). lia. }
      intros _ s3 (F3 & [D1 D2 D3]).
      eapply wp_seq; [apply (log_write_fs g Hg o _ _ _ _ bp (ind I) F3)|].
      { by apply D3, C3. }
      { by apply (data_home g Hg sb Hly). }
      { rewrite bitmap_one, !length_absorb_eq by done. unfold pend in Hroom. repeat case_decide; lia. }
      { done. }
      intros _ s4 (F4 & [G1 G2 G3]). apply wp_ret.
      refine (_ : (fun addr s' => exists b, addr = b /\ 0 <= b < sb_size sb /\ used v b = false /\
        frep g o s' (link_view v (ind I) bn b) (absorb (after ss b) (ind I)) ({[gk g (ind I)]} ∪ ∅) /\
        holds (lb (fl s')) bp (gk g (ind I)) /\ ic s' = ic s /\ ext s' = ext s) b s4).
      exists b. split_and!; try done; [lia|lia|by apply G3, D3, C3|congruence|congruence]. }
    cbv beta. intros addr s4 (b & -> & Hb & Hf & F4 & Hh4 & Hic & Hext).
    eapply wp_seq; [apply (brelse_fs g o _ _ _ _ _ _ F4 Hh4); left; apply elem_of_home_set|].
    { exists (ind I). split; [done|]. rewrite elem_absorb. by left. }
    intros _ s5 (F5 & Hic5 & Hext5 & _). apply wp_ret.
    replace ((_ ∪ ∅) ∖ _) with (∅ : gset key) in F5 by set_solver.
    apply (link_step s v ss ip bn b s5); try done; congruence.
  - apply wp_bind, wp_ret.
    eapply wp_seq; [apply (brelse_fs g o _ _ _ _ _ _ F1 Hh1 Hcl1)|].
    intros _ s5 (F5 & Hic5 & Hext5 & _). apply wp_ret.
    replace ((_ ∪ ∅) ∖ _) with (∅ : gset key) in F5 by set_solver.
    assert (ic s5 = ic s) as Hic by congruence. pose proof (inode_of_ic s s5 ip Hic) as EI. fold I in EI.
    exists v, ss. rewrite EI. fold I. split_and!; try done; [|lia|].
    + split; rewrite ?EI; fold I; try done; [by destruct I|by intros; apply inode_of_ic|congruence|auto].
    + intros n. apply (nfree_le g Hg sb Hly). lia.
Qed.

(** [bmap] returns the address of block [bn] of the file, allocating it and the
    indirect block if they do not exist; the contents do not change. *)
Lemma bmap_fs s v ss ip bn (I := inode_of s ip) :
  frep g o s v ss ∅ -> bitmap_ok g sb v -> ino_ok v I -> (ip < NINODE)%nat -> in_file bn ->
  pend ss I + 2 <= cap ->
  (addr_of v I bn = 0 -> nfree g sb v (1 + nz (ind I))) ->
  wp (bmap ip bn) s (bmap_post ip s v ss bn).
Proof.
  intros F Hbits HI Hip Hnf Hroom Hfree. destruct (decide (bn < NDIRECT)) as [Hbn|Hbn].
  { apply bmap_direct; try done. destruct Hnf. lia. }
  unfold bmap. apply wp_bind, wp_gets. fold I. rewrite (proj2 (Z.ltb_ge _ _)) by lia.
  destruct consts as (E12 & E128 & E140 & _). unfold in_file in Hnf.
  rewrite (proj2 (Z.ltb_lt (bn - NDIRECT) NINDIRECT)) by lia. cbv zeta. rewrite (io_dev _ _ HI).
  eapply wp_seq.
  { rewrite <- (io_dev _ _ HI). apply (ensure_indirect s v ss ip F Hbits HI Hip); [fold I; lia|].
    intros Hi. fold I in Hi. eapply (nfree_le g Hg sb Hly); [|apply Hfree]; [lia|].
    unfold addr_of. rewrite (proj2 (Z.ltb_ge _ _)) by lia. by rewrite Hi. }
  intros a s1 (v1 & ss1 & Hst & Ha & Hanz & Haddr & Hsame & Hpend & Hnfree).
  pose proof (st_rep _ _ _ _ _ _ _ Hst) as F1. subst a.
  eapply wp_conseq; [apply (bmap_tail_fs s1 v1 ss1 ip bn F1 (st_bits _ _ _ _ _ _ _ Hst) (st_ino _ _ _ _ _ _ _ Hst))|];
    [lia|done|done|fold I in Hpend; lia| |].
  { rewrite Haddr by done. intros Hz. apply Hnfree. fold I. by apply Hfree. }
  intros addr s2 (v2 & ss2 & Hst2 & Ha2 & Hnz2 & Hin & Hsm & Hp2 & Hf2).
  fold I in Hpend, Haddr, Hsame, Hnfree.
  exists v2, ss2. fold I. rewrite Haddr in Hin, Hsm, Hp2 by done. split_and!; try done.
  - eapply file_step_weaken; [by eapply file_step_trans|]. apply (st_content _ _ _ _ _ _ _ Hst).
  - intros Hnz. destruct (Hsm Hnz) as (-> & -> & ->).
    destruct Hsame as (-> & -> & ->); [|done]. intros Hi. apply Hnz. unfold addr_of.
    rewrite (proj2 (Z.ltb_ge _ _)) by lia. by rewrite Hi.
  - lia.
  - intros n Hn. apply Hf2. unfold nz at 1. rewrite (proj2 (Z.eqb_neq _ _) Hanz), Nat.add_0_r. by apply Hnfree.
Qed.

(** ** Reading and writing *)

(** The number of blocks that the [len] bytes from [off] on touch. *)
Definition nblk (off len : Z) : Z :=
  if len <=? 0 then 0 else (off + len - 1) / BSIZE - off / BSIZE + 1.

Lemma nblk_step off len : 0 <= off -> 0 < len ->
  let m := Z.min len (BSIZE - off mod BSIZE) in
  0 < m <= len /\ off mod BSIZE + m <= BSIZE /\ nblk off len = 1 + nblk (off + m) (len - m) /\
  (forall q, off <= q < off + m -> q / BSIZE = off / BSIZE /\ q mod BSIZE = off mod BSIZE + (q - off)).
Proof.
  destruct consts as (_ & _ & _ & EB). rewrite EB. intros Ho' Hl m. set (r := off mod 512) in *.
  pose proof (Z.mod_pos_bound off 512 ltac:(lia)) as Hr. fold r in Hr.
  assert (off = 512 * (off / 512) + r) as Eoff by (apply Z.div_mod; lia). set (k := off / 512) in *.
  assert (forall q, off <= q < off + m -> q / 512 = k /\ q mod 512 = r + (q - off)) as Hq.
  { intros q Hq. assert (0 <= q - 512 * k < 512) by lia.
    split; [symmetry; apply (Z.div_unique q 512 k (q - 512 * k)); lia|].
    replace (r + (q - off)) with (q - 512 * k) by lia. symmetry. apply (Z.mod_unique q 512 k); lia. }
  split_and!; [lia|lia|lia| |done].
  unfold nblk. rewrite EB, (proj2 (Z.leb_gt len 0)) by lia.
  destruct (Z.leb_spec (len - m) 0).
  - destruct (Hq (off + len - 1) ltac:(lia)) as [-> _]. fold k. lia.
  - assert (m = 512 - r) as Em by lia. replace (off + m) with (512 * (k + 1)) by lia.
    rewrite (Z.mul_comm 512 (k + 1)), Z.div_mul by lia. fold k.
    replace (off + len - 1) with ((k + 1) * 512 + (len - m) - 1) by lia. lia.
Qed.

(** Overwriting part of block [bn] of the file. *)
Lemma write_block_content v I bn (w : list Z) (r : nat) (v' : key -> block) :
  ino_ok v I -> (forall k, block_ok (v k)) -> in_file bn -> addr_of v I bn <> 0 ->
  (r + length w <= 512)%nat ->
  v' = upd v (gk g (addr_of v I bn)) (splice r w (v (gk g (addr_of v I bn)))) ->
  (forall b', in_file b' -> addr_of v' I b' = addr_of v I b') /\
  (forall x, used v' x = used v x \/ ~ (0 <= x < sb_size sb)) /\
  (forall p, 0 <= p < MAXFILE * BSIZE -> content v' I p =
     if decide (p / BSIZE = bn /\ Z.of_nat r <= p mod BSIZE < Z.of_nat r + Z.of_nat (length w))
     then w !!! Z.to_nat (p mod BSIZE - Z.of_nat r) else content v I p).
Proof.
  intros HI Hv Hbn Hnz Hlen ->. set (a := addr_of v I bn) in *.
  pose proof (owns_addr v I bn Hbn Hnz) as Hown. destruct (io_own _ _ HI a Hown) as [[Hd _] Hu].
  pose proof (io_ind _ _ HI bn Hbn Hnz) as Hni. fold a in Hni.
  assert (forall b', in_file b' -> addr_of (upd v (gk g a) (splice r w (v (gk g a)))) I b' = addr_of v I b') as Ha.
  { intros b' _. unfold addr_of. rewrite upd_ne; [done|]. by apply gk_ne, not_eq_sym. }
  split_and!; [done| |].
  - intros x. destruct (decide (0 <= x < sb_size sb)) as [Hx|]; [left|by right].
    unfold FsSpec.used. rewrite upd_ne; [done|]. apply gk_ne. by apply (bitmap_not_data g sb Hly).
  - intros p Hp. assert (in_file (p / BSIZE)) as Hpb.
    { unfold in_file. destruct consts as (_ & _ & EM & EB). rewrite EM, EB in *.
      pose proof (Z.div_pos p 512). pose proof (Z.div_lt_upper_bound p 512 140). lia. }
    unfold content. cbv zeta. rewrite Ha by done.
    destruct (Z.eqb_spec (addr_of v I (p / BSIZE)) 0) as [Ez|Ez].
    { rewrite decide_False; [done|]. intros [Ep _]. rewrite Ep in Ez. done. }
    destruct (decide (p / BSIZE = bn)) as [Ep|Ep].
    + rewrite Ep. fold a. rewrite upd_same. destruct (Hv (gk g a)) as [Hl512 _].
      pose proof (Z.mod_pos_bound p BSIZE ltac:(done)) as Hm. change BSIZE with 512 in *.
      case_decide as Hc; rewrite !list_lookup_total_alt; f_equal.
      * rewrite lookup_splice_in by (unfold block in *; lia). f_equal. lia.
      * apply lookup_splice_out; [unfold block in *; lia|]. destruct (decide (p mod 512 < Z.of_nat r)); [left; lia|right].
        destruct (decide (p mod 512 < Z.of_nat r + Z.of_nat (length w))); [|lia]. exfalso. apply Hc. split; [done|lia].
    + rewrite decide_False by tauto. rewrite upd_ne; [done|]. apply gk_ne. intros Ea.
      apply Ep. by apply (io_inj _ _ HI).
Qed.

(** [w] written over [c] at offset [off]. *)
Definition overlay (off : Z) (w : list Z) (c : Z -> Z) (p : Z) : Z :=
  if decide (off <= p < off + Z.of_nat (length w)) then w !!! Z.to_nat (p - off) else c p.

Lemma splice_block_ok r (w d : list Z) : (r + length w <= 512)%nat -> Forall is_u8 w -> block_ok d ->
  block_ok (splice r w d).
Proof. intros Hl Hw [Hd Hf]. split; [rewrite length_splice; lia|by apply Forall_splice]. Qed.

(** The step that stores [w] in an existing block of the file. *)
Lemma store_step s v ss ip bn w r s' :
  frep g o s v ss ∅ -> bitmap_ok g sb v -> ino_ok v (inode_of s ip) -> in_file bn ->
  addr_of v (inode_of s ip) bn <> 0 -> (r + length w <= 512)%nat ->
  let a := addr_of v (inode_of s ip) bn in
  let v' := upd v (gk g a) (splice r w (v (gk g a))) in
  frep g o s' v' (absorb ss a) ∅ -> fkeep s s' ->
  file_step ip s v s' v' (absorb ss a) (overlay (bn * BSIZE + Z.of_nat r) w (content v (inode_of s ip))).
Proof.
  intros F Hbits HI Hbn Hnz Hlen a v' F' [Hic Hext _].
  pose proof (br_vok _ _ _ _ (frep_cache _ _ _ _ _ _ F)) as Hv.
  pose proof (inode_of_ic s s' ip Hic) as EI. set (I := inode_of s ip) in *.
  destruct (write_block_content v I bn w r v' HI Hv Hbn Hnz Hlen eq_refl) as (Ha & Hus & Hc).
  pose proof (owns_addr v I bn Hbn Hnz) as Hown. destruct (io_own _ _ HI a Hown) as [[Hd _] Hu].
  assert (forall x, 0 <= x < sb_size sb -> used v' x = used v x) as Hus'.
  { intros x Hx. destruct (Hus x); [done|tauto]. }
  assert (forall x, owns v' I x <-> owns v I x) as Hown'.
  { intros x. unfold owns. split; (intros [Hx Hor]; split; [done|]);
      (destruct Hor as [?|(b' & Hb' & ?)]; [by left|right; exists b'; split; [done|]]).
    - by rewrite <- Ha.
    - by rewrite Ha. }
  split; rewrite ?EI; fold I; try done.
  - destruct Hbits as [C1 C2]. split.
    + unfold v'. rewrite upd_ne; [done|]. apply gk_ne. destruct Hly as [Hs _ _ _ _].
      pose proof (bitmap_range g sb Hly 0 ltac:(lia)). lia.
    + intros b' Hb'. rewrite Hus' by done. by apply C2.
  - destruct HI as [Il Idv Iown Iinj Iind]. split; try done.
    + intros x Hx. apply Hown' in Hx. destruct (Iown x Hx) as [Hdx Hux]. split; [done|].
      rewrite Hus'; [done|by apply (data_lt_size g Hg sb Hly)].
    + intros b1 b2 H1 H2. rewrite !Ha by done. by apply Iinj.
    + intros b1 H1. rewrite Ha by done. by apply Iind.
  - by destruct I.
  - intros j _. by apply inode_of_ic.
  - intros p Hp. rewrite Hc by done. unfold overlay. change BSIZE with 512 in *.
    pose proof (Z.div_mod p 512 ltac:(lia)) as Edm. pose proof (Z.mod_pos_bound p 512 ltac:(lia)) as Hm.
    destruct (decide (p / 512 = bn)) as [Ep|Ep].
    + case_decide; case_decide; try (exfalso; lia); [|done]. f_equal. lia.
    + rewrite decide_False by tauto. rewrite decide_False; [done|]. nia.
  - intros b' Hb' _. by apply Ha.
  - split.
    + intros x Hx Hux. by rewrite Hus'.
    + intros x Hx Hux Hno. unfold v'. rewrite upd_ne; [done|]. apply gk_ne. intros ->. done.
    + intros x Hx Hnb. unfold v'. rewrite upd_ne; [done|]. apply gk_ne. lia.
  - intros x Hx. left. by apply Hown'.
Qed.

Lemma pend_absorb ss I x : pend (absorb ss x) I <= pend ss I + (if decide (x ∈ ss) then 0 else 1).
Proof.
  unfold pend. rewrite length_absorb_eq. assert (bm ∈ ss -> bm ∈ absorb ss x) by (rewrite elem_absorb; auto).
  assert (ind I ∈ ss -> ind I ∈ absorb ss x) by (rewrite elem_absorb; auto).
  repeat case_decide; try lia; tauto.
Qed.

(** One round of the loop of [writei]. *)
Lemma write_round {A} s v ss ip off (w : list Z) (K : FS A) (Q : A -> fsst E -> Prop) (I := inode_of s ip) :
  frep g o s v ss ∅ -> bitmap_ok g sb v -> ino_ok v I -> (ip < NINODE)%nat ->
  0 <= off -> off / BSIZE < MAXFILE -> off mod BSIZE + Z.of_nat (length w) <= BSIZE -> Forall is_u8 w ->
  pend ss I + 2 <= cap -> nfree g sb v (1 + nz (ind I)) ->
  (forall s' v' ss', file_step ip s v s' v' ss' (overlay off w (content v I)) ->
     addr_of v' (inode_of s' ip) (off / BSIZE) <> 0 ->
     (addr_of v I (off / BSIZE) <> 0 -> ic s' = ic s) ->
     pend ss' (inode_of s' ip) <= pend ss I + 1 ->
     (forall n, nfree g sb v (n + 1 + nz (ind I)) -> nfree g sb v' (n + nz (ind (inode_of s' ip)))) ->
     wp K s' Q) ->
  wp (addr <- bmap ip (off / BSIZE) ;;
      bp <- liftb (bread (i_dev I) addr) ;;
      d <- liftb (read_data bp) ;;
      liftb (write_data bp (splice (Z.to_nat (off mod BSIZE)) w d)) ;;
      liftl (log_write bp) ;;
      liftb (brelse bp) ;;
      K) s Q.
Proof.
  intros F Hbits HI Hip Hoff Hmax Hw Hw8 Hroom Hfree HK.
  assert (in_file (off / BSIZE)) as Hnf by (split; [by apply Z.div_pos|done]).
  pose proof (Z.mod_pos_bound off BSIZE ltac:(done)) as Hm. pose proof cap_29 as Hc29.
  eapply wp_seq; [by apply (bmap_fs s v ss ip (off / BSIZE) F Hbits HI Hip Hnf Hroom)|].
  intros a s1 (v1 & ss1 & Hst & Ha & Hanz & Hnew & Hsame & Hp1 & Hf1). fold I in Hp1, Hnew, Hsame, Hf1.
  pose proof (st_rep _ _ _ _ _ _ _ Hst) as F1. pose proof (st_ino _ _ _ _ _ _ _ Hst) as HI1.
  destruct (io_own _ _ HI1 a) as [Hda Hua].
  { rewrite <- Ha. apply owns_addr; [done|]. by rewrite Ha. }
  pose proof (pend_len ss1 (inode_of s1 ip)) as Hpl1.
  assert (Z.of_nat (nz (addr_of v I (off / BSIZE))) <= 1) as Hnz1 by (unfold nz; case_match; lia).
  rewrite (io_dev _ _ HI).
  apply (wp_update_block g Hg o s1 v1 ss1 ∅ a (splice (Z.to_nat (off mod BSIZE)) w) K Q F1).
  - apply avail_data; [done|set_solver|]. rewrite size_empty. unfold NBUF. lia.
  - by apply (data_home g Hg sb Hly).
  - intros d. apply splice_block_ok; [change BSIZE with 512 in *; lia|done].
  - lia.
  - done.
  - intros s2 F2 Hk2.
    assert (file_step ip s1 v1 s2 (upd v1 (gk g a) (splice (Z.to_nat (off mod BSIZE)) w (v1 (gk g a)))) (absorb ss1 a)
      (overlay off w (content v1 (inode_of s1 ip)))) as Hst2.
    { assert (off / BSIZE * BSIZE + Z.of_nat (Z.to_nat (off mod BSIZE)) = off) as Eoff.
      { pose proof (Z.div_mod off BSIZE ltac:(done)). lia. }
      subst a. rewrite <- Eoff at 5.
      apply store_step; try done; [by apply (st_bits _ _ _ _ _ _ _ Hst)|change BSIZE with 512 in *; lia]. }
    eapply (HK s2 (upd v1 (gk g a) (splice (Z.to_nat (off mod BSIZE)) w (v1 (gk g a)))) (absorb ss1 a)).
    + eapply file_step_weaken; [by eapply file_step_trans|]. intros p Hp. unfold overlay.
      case_decide; [done|]. by apply (st_content _ _ _ _ _ _ _ Hst).
    + rewrite (st_addrs _ _ _ _ _ _ _ Hst2); [congruence|done|congruence].
    + intros Hz. destruct (Hsame Hz) as (_ & _ & Hic). rewrite <- Hic. apply (fk_ic _ _ Hk2).
    + rewrite (inode_of_ic s1 s2 ip (fk_ic _ _ Hk2)).
      pose proof (pend_absorb ss1 (inode_of s1 ip) a) as Hpa. unfold nz in Hp1.
      destruct (Z.eqb_spec (addr_of v I (off / BSIZE)) 0) as [Hz|Hz].
      * rewrite decide_True in Hpa by by apply Hnew. lia.
      * case_decide; lia.
    + intros n Hn. rewrite (inode_of_ic s1 s2 ip (fk_ic _ _ Hk2)).
      destruct (Hf1 n Hn) as (l & L1 & L2 & L3). exists l. split_and!; try done.
      intros x Hx. destruct (L3 x Hx) as [Hr Hu]. split; [done|].
      unfold FsSpec.used. rewrite upd_ne; [done|]. apply gk_ne. apply (bitmap_not_data g sb Hly); [done|]. by destruct Hda.
Qed.

Lemma overlay_ext off w c c' p : c p = c' p -> overlay off w c p = overlay off w c' p.
Proof. intros Ec. unfold overlay. by case_decide. Qed.

Lemma overlay_app off (src : list Z) (tot m len : Z) c p :
  0 <= tot -> 0 <= m <= len -> tot + len <= Z.of_nat (length src) ->
  overlay (off + m) (slice (Z.to_nat (tot + m)) (Z.to_nat (len - m)) src)
    (overlay off (slice (Z.to_nat tot) (Z.to_nat m) src) c) p =
  overlay off (slice (Z.to_nat tot) (Z.to_nat len) src) c p.
Proof.
  intros Ht Hm Hl. unfold overlay. rewrite !length_slice by lia.
  repeat case_decide; try lia; try done; rewrite !list_lookup_total_alt, !lookup_slice;
    repeat case_decide; try lia; do 2 f_equal; lia.
Qed.

Lemma writei_loop_fs (src : list Z) (n : Z) (ip : nat) (fuel : nat) : forall s v ss off tot,
  let I := inode_of s ip in let len := n - tot in
  frep g o s v ss ∅ -> bitmap_ok g sb v -> ino_ok v I -> (ip < NINODE)%nat ->
  Forall is_u8 src -> n <= Z.of_nat (length src) ->
  0 <= off -> 0 <= tot <= n -> off + len <= MAXFILE * BSIZE -> (Z.to_nat len <= fuel)%nat ->
  pend ss I + nblk off len + 1 <= cap -> nfree g sb v (Z.to_nat (nblk off len) + nz (ind I)) ->
  wp (writei_loop fuel ip src off tot n) s (fun r s' => r = off + len /\ exists v' ss',
    file_step ip s v s' v' ss' (overlay off (slice (Z.to_nat tot) (Z.to_nat len) src) (content v I)) /\
    (forall q, off <= q < off + len -> addr_of v' (inode_of s' ip) (q / BSIZE) <> 0) /\
    ((forall q, off <= q < off + len -> addr_of v I (q / BSIZE) <> 0) -> ic s' = ic s) /\
    pend ss' (inode_of s' ip) <= pend ss I + nblk off len /\
    (forall m, nfree g sb v (m + Z.to_nat (nblk off len) + nz (ind I)) -> nfree g sb v' (m + nz (ind (inode_of s' ip))))).
Proof.
  induction fuel as [|f IH]; intros s v ss off tot I len F Hbits HI Hip H8 Hn Hoff Htot Hmax Hfuel Hroom Hfree.
  - assert (len = 0) as El by lia. cbn [writei_loop]. rewrite (proj2 (Z.ltb_ge _ _)) by lia. apply wp_ret.
    split; [lia|]. exists v, ss. split_and!; [|lia|done| |].
    + eapply file_step_weaken; [by apply file_step_refl|]. intros p _. rewrite El. unfold overlay.
      rewrite decide_False; [done|]. rewrite length_slice; lia.
    + fold I. unfold nblk. rewrite El. simpl. lia.
    + intros m. unfold nblk. rewrite El. cbn. by rewrite Nat.add_0_r.
  - cbn [writei_loop]. destruct (Z.ltb_spec tot n) as [Hlt|Hge].
    2:{ apply wp_ret. assert (len = 0) as El by lia. split; [lia|]. exists v, ss. split_and!; [|lia|done| |].
        + eapply file_step_weaken; [by apply file_step_refl|]. intros p _. rewrite El. unfold overlay.
          rewrite decide_False; [done|]. rewrite length_slice; lia.
        + fold I. unfold nblk. rewrite El. simpl. lia.
        + intros m. unfold nblk. rewrite El. cbn. by rewrite Nat.add_0_r. }
    destruct (nblk_step off len Hoff ltac:(lia)) as (Hm & Hmb & Hnb & Hq).
    set (m := Z.min len (BSIZE - off mod BSIZE)) in *. fold len. fold m.
    pose proof (Z.mod_pos_bound off BSIZE ltac:(done)) as Hmod.
    apply wp_bind, wp_gets. fold I.
    assert (length (slice (Z.to_nat tot) (Z.to_nat m) src) = Z.to_nat m) as Hlw by (apply length_slice; lia).
    assert (0 <= nblk (off + m) (len - m)) as Hnn.
    { unfold nblk. case_match; [lia|]. pose proof (Z.div_le_mono (off + m) (off + m + (len - m) - 1) BSIZE). lia. }
    apply (write_round s v ss ip off (slice (Z.to_nat tot) (Z.to_nat m) src)); try done.
    + destruct (Hq off ltac:(lia)) as [_ _]. apply Z.div_lt_upper_bound; [done|]. rewrite Z.mul_comm. lia.
    + rewrite Hlw. lia.
    + unfold slice. by apply Forall_take, Forall_drop.
    + fold I. lia.
    + fold I. eapply (nfree_le g Hg sb Hly); [|exact Hfree]. lia.
    + fold I. intros s1 v1 ss1 Hst Hnz1 Hic1 Hp1 Hf1.
      eapply wp_conseq; [apply (IH s1 v1 ss1 (off + m) (tot + m))|]; try done.
      * by apply (st_rep _ _ _ _ _ _ _ Hst).
      * by apply (st_bits _ _ _ _ _ _ _ Hst).
      * by apply (st_ino _ _ _ _ _ _ _ Hst).
      * lia.
      * lia.
      * lia.
      * lia.
      * replace (n - (tot + m)) with (len - m) by lia. lia.
      * replace (n - (tot + m)) with (len - m) by lia. apply Hf1.
        replace (Z.to_nat (nblk (off + m) (len - m)) + 1 + nz (ind I))%nat
          with (Z.to_nat (nblk off len) + nz (ind I))%nat by lia. done.
      * intros r s2 (-> & v2 & ss2 & Hst2 & Hnz2 & Hic2 & Hp2 & Hf2).
        replace (n - (tot + m)) with (len - m) in * by lia. split; [lia|]. exists v2, ss2. split_and!.
        -- eapply file_step_weaken; [by eapply file_step_trans|]. intros p Hp.
           rewrite <- (overlay_app off src tot m len) by lia.
           apply overlay_ext. by apply (st_content _ _ _ _ _ _ _ Hst).
        -- intros q Hqr. destruct (decide (q < off + m)) as [Hlt2|Hge2]; [|apply Hnz2; lia].
           destruct (Hq q ltac:(lia)) as [-> _]. rewrite (st_addrs _ _ _ _ _ _ _ Hst2); [done| |done].
           split; [by apply Z.div_pos|]. apply Z.div_lt_upper_bound; [done|]. rewrite Z.mul_comm. lia.
        -- intros Hall. rewrite Hic2; [apply Hic1, Hall; lia|]. intros q Hqr.
           rewrite (st_addrs _ _ _ _ _ _ _ Hst); [apply Hall; lia| |apply Hall; lia].
           split; [apply Z.div_pos; [lia|done]|]. apply Z.div_lt_upper_bound; [done|]. rewrite Z.mul_comm. lia.
        -- lia.
        -- intros j Hj. apply Hf2, Hf1.
           by replace (j + Z.to_nat (nblk (off + m) (len - m)) + 1 + nz (ind I))%nat with (j + Z.to_nat (nblk off len) + nz (ind I))%nat by lia.
Qed.
End file.
