(* ===== verification/Dinode.v ===== *)
(** The on-disk inode (fs.h [struct dinode]): the encoding that fs.c [iupdate]
    writes and [ilock] reads. *)

From S2P Require Import Prelude Params BlockDev Bio Log Fs.

(** The values a [dinode] holds. *)
Record dinode_ok (x : dinode) : Prop := {
  dk_type : - 2 ^ 15 <= d_type x < 2 ^ 15;
  dk_major : - 2 ^ 15 <= d_major x < 2 ^ 15;
  dk_minor : - 2 ^ 15 <= d_minor x < 2 ^ 15;
  dk_nlink : - 2 ^ 15 <= d_nlink x < 2 ^ 15;
  dk_size : is_u32 (d_size x);
  dk_addrs : Forall is_u32 (d_addrs x);
  dk_len : length (d_addrs x) = 13%nat
}.

Lemma s16_u16 x : - 2 ^ 15 <= x < 2 ^ 15 -> s16 (u16 x) = x.
Proof.
  intros Hx. unfold s16, u16. rewrite Z.mod_mod by lia. destruct (decide (0 <= x)).
  - rewrite Z.mod_small by lia. destruct (Z.ltb_spec x (2 ^ 15)); lia.
  - rewrite <- (Z.mod_add x 1), Z.mod_small by lia. destruct (Z.ltb_spec (x + 1 * 2 ^ 16) (2 ^ 15)); lia.
Qed.

Lemma slice_put_addrs l : forall off d o n,
  (off + 4 * length l <= length d)%nat -> (o + n <= off \/ off + 4 * length l <= o)%nat ->
  slice o n (put_addrs off l d) = slice o n d.
Proof.
  induction l as [|x l IH]; intros off d o n Hl Ho; cbn [put_addrs length] in *; [done|].
  rewrite IH by (rewrite ?length_put32; lia). unfold put32.
  apply slice_splice_disjoint; rewrite length_le_bytes; lia.
Qed.

Lemma length_put_addrs l : forall off d, (off + 4 * length l <= length d)%nat ->
  length (put_addrs off l d) = length d.
Proof.
  induction l as [|x l IH]; intros off d Hl; cbn [put_addrs length] in *; [done|].
  rewrite IH; rewrite length_put32; lia.
Qed.

Lemma get32_put_addrs l : forall off d i x,
  (off + 4 * length l <= length d)%nat -> l !! i = Some x -> is_u32 x ->
  get32 (off + 4 * i) (put_addrs off l d) = x.
Proof.
  induction l as [|y l IH]; intros off d i x Hl Hi Hx; [done|]. cbn [put_addrs length] in *.
  destruct i as [|i]; simpl in Hi.
  - injection Hi as ->. rewrite Nat.mul_0_r, Nat.add_0_r. unfold get32.
    rewrite slice_put_addrs by (rewrite ?length_put32; lia).
    apply (get32_put32_same off x d); [lia|done].
  - replace (off + 4 * S i)%nat with (off + 4 + 4 * i)%nat by lia.
    apply IH; [rewrite length_put32; lia|done|done].
Qed.

Lemma put_addrs_ok l : forall off d, (off + 4 * length l <= 512)%nat -> block_ok d -> block_ok (put_addrs off l d).
Proof.
  induction l as [|x l IH]; intros off d Hl Hd; cbn [put_addrs length] in *; [done|].
  apply IH; [lia|]. apply put32_block_ok; [lia|done].
Qed.

Lemma put16_block_ok off x d : (off + 2 <= 512)%nat -> block_ok d -> block_ok (put16 off x d).
Proof.
  intros Ho [Hl Hd]. split; [by rewrite length_put16; lia|].
  apply Forall_splice; [apply le_bytes_range|done].
Qed.

Lemma put_dinode_ok off x d : (off + 64 <= 512)%nat -> length (d_addrs x) = 13%nat -> block_ok d ->
  block_ok (put_dinode off x d).
Proof.
  intros Ho Hl Hd. apply put_addrs_ok; [lia|]. apply put32_block_ok; [lia|].
  do 4 (apply put16_block_ok; [lia|]). done.
Qed.

(** Names for the block after each field of [put_dinode] is stored, with its
    length and what the store leaves alone. *)
Ltac name_fields off ty mj mn nl sz d :=
  let d1 := fresh "d1" in let d2 := fresh "d2" in let d3 := fresh "d3" in
  let d4 := fresh "d4" in let d5 := fresh "d5" in
  set (d1 := put16 off (u16 ty) d); set (d2 := put16 (off + 2) (u16 mj) d1);
  set (d3 := put16 (off + 4) (u16 mn) d2); set (d4 := put16 (off + 6) (u16 nl) d3);
  set (d5 := put32 (off + 8) sz d4);
  assert (length d1 = length d) as L1 by (apply length_put16; lia);
  assert (length d2 = length d) as L2 by (rewrite <- L1; apply length_put16; lia);
  assert (length d3 = length d) as L3 by (rewrite <- L2; apply length_put16; lia);
  assert (length d4 = length d) as L4 by (rewrite <- L3; apply length_put16; lia);
  assert (length d5 = length d) as L5 by (rewrite <- L4; apply length_put32; lia);
  assert (forall o n, (o + n <= off + 8 \/ off + 12 <= o)%nat -> slice o n d5 = slice o n d4) as S5
    by (intros; apply slice_splice_disjoint; rewrite length_le_bytes; lia);
  assert (forall o n, (o + n <= off + 6 \/ off + 8 <= o)%nat -> slice o n d4 = slice o n d3) as S4
    by (intros; apply slice_splice_disjoint; rewrite length_le_bytes; lia);
  assert (forall o n, (o + n <= off + 4 \/ off + 6 <= o)%nat -> slice o n d3 = slice o n d2) as S3
    by (intros; apply slice_splice_disjoint; rewrite length_le_bytes; lia);
  assert (forall o n, (o + n <= off + 2 \/ off + 4 <= o)%nat -> slice o n d2 = slice o n d1) as S2
    by (intros; apply slice_splice_disjoint; rewrite length_le_bytes; lia).

(** Everything outside the 64 bytes of the inode is left alone. *)
Lemma slice_put_dinode off x d o n : (off + 64 <= length d)%nat -> length (d_addrs x) = 13%nat ->
  (o + n <= off \/ off + 64 <= o)%nat -> slice o n (put_dinode off x d) = slice o n d.
Proof.
  intros Hl Ha Ho. destruct x as [ty mj mn nl sz addrs]. simpl in *. unfold put_dinode.
  cbn [d_type d_major d_minor d_nlink d_size d_addrs]. name_fields off ty mj mn nl sz d.
  rewrite slice_put_addrs, S5, S4, S3, S2 by lia.
  apply slice_splice_disjoint; rewrite length_le_bytes; lia.
Qed.

Lemma get_put_dinode off x d : (off + 64 <= length d)%nat -> dinode_ok x -> get_dinode off (put_dinode off x d) = x.
Proof.
  intros Hl [H1 H2 H3 H4 H5 H6 H7]. destruct x as [ty mj mn nl sz addrs]. simpl in *.
  unfold get_dinode, put_dinode. cbn [d_type d_major d_minor d_nlink d_size d_addrs].
  name_fields off ty mj mn nl sz d.
  assert (forall y, is_u16 (u16 y)) as Hu by (intros y; apply Z.mod_pos_bound; lia).
  unfold get16, get32. rewrite !slice_put_addrs by lia.
  f_equal.
  - rewrite S5, S4, S3, S2 by lia. fold (get16 off d1). unfold d1.
    rewrite get16_put16_same by (lia || auto). by apply s16_u16.
  - rewrite S5, S4, S3 by lia. fold (get16 (off + 2) d2). unfold d2.
    rewrite get16_put16_same by (lia || auto). by apply s16_u16.
  - rewrite S5, S4 by lia. fold (get16 (off + 4) d3). unfold d3.
    rewrite get16_put16_same by (lia || auto). by apply s16_u16.
  - rewrite S5 by lia. fold (get16 (off + 6) d4). unfold d4.
    rewrite get16_put16_same by (lia || auto). by apply s16_u16.
  - fold (get32 (off + 8) d5). unfold d5. by rewrite get32_put32_same by (lia || done).
  - apply list_eq. intros i. rewrite list_lookup_fmap. destruct (decide (i < 13)%nat) as [Hi|Hi].
    + rewrite lookup_seq_lt by lia. simpl. destruct (lookup_lt_is_Some_2 addrs i) as [y Hy]; [lia|]. rewrite Hy. f_equal.
      apply (get32_put_addrs addrs (off + 12) d5 i y); [lia|done|by eapply Forall_lookup_1].
    + rewrite lookup_ge_None_2 by (rewrite length_seq; lia). symmetry. apply lookup_ge_None_2. lia.
Qed.

Lemma get_put_dinode_other off off' x d : (off + 64 <= length d)%nat -> length (d_addrs x) = 13%nat ->
  (off' + 64 <= off \/ off + 64 <= off')%nat -> get_dinode off' (put_dinode off x d) = get_dinode off' d.
Proof.
  intros Hl Ha Ho. unfold get_dinode, get16, get32. rewrite !slice_put_dinode by lia. f_equal.
  apply list_eq. intros i. rewrite !list_lookup_fmap. destruct (decide (i < 13)%nat) as [Hi|Hi].
  - rewrite lookup_seq_lt by lia. simpl. rewrite slice_put_dinode by lia. done.
  - by rewrite lookup_ge_None_2 by (rewrite length_seq; lia).
Qed.

(** Inodes of the same block do not overlap. *)
Lemma dinode_off_range i : 0 <= i -> (dinode_off i + 64 <= 512)%nat.
Proof.
  intros Hi. unfold dinode_off. change IPB with 8. change DINODE_SIZE with 64.
  pose proof (Z.mod_pos_bound i 8). lia.
Qed.

Lemma dinode_off_disjoint i j : 0 <= i -> 0 <= j -> i <> j -> IBLOCK i = IBLOCK j ->
  (dinode_off j + 64 <= dinode_off i \/ dinode_off i + 64 <= dinode_off j)%nat.
Proof.
  unfold IBLOCK, dinode_off. change IPB with 8. change DINODE_SIZE with 64. intros Hi Hj Hne Eb.
  pose proof (Z.mod_pos_bound i 8). pose proof (Z.mod_pos_bound j 8).
  pose proof (Z.div_mod i 8). pose proof (Z.div_mod j 8). lia.
Qed.
