(* ===== verification/FileData.v ===== *)
(** Files as byte strings: what fs.c [readi] and [writei] do.

    [file_data v I] is the contents of a file; [file_ok v I] is what the file
    system keeps true of a file whose inode is cached and locked: its blocks are
    allocated to it and to no other place in it, it has no holes, and the inode
    on disk agrees with the one in memory. *)

From S2P Require Import Prelude Params BlockDev Bio Log Fs FsSpec FileSpec Dinode.

Section data.
Context `{BlockDev} {E : Type} (g : geom) (Hg : geom_ok g) (o : Z).
Context (sb : superblock) (Hly : layout g sb) (Hone : sb_size sb <= BPB).
Abbreviation FS := (M (fsst E)).
Abbreviation cap := (g_size g - 1).
Abbreviation used := (used g sb).
Abbreviation data_block := (data_block g sb).
Abbreviation content := (content g).
Abbreviation addr_of := (addr_of g).
Abbreviation owns := (owns g).
Abbreviation ino_ok := (ino_ok g sb).

Definition synced (v : key -> block) (I : inode) : Prop :=
  get_dinode (dinode_off (i_inum I)) (v (gk g (IBLOCK (i_inum I)))) = to_dinode I.

Record file_ok (v : key -> block) (I : inode) : Prop := {
  fo_ino : ino_ok v I;
  fo_inum : 0 < i_inum I < sb_ninodes sb;
  fo_size : 0 <= i_size I <= MAXFILE * BSIZE;
  fo_holes p : 0 <= p < i_size I -> addr_of v I (p / BSIZE) <> 0;
  fo_sync : synced v I;
  fo_dinode : dinode_ok (to_dinode I)
}.

Definition file_data (v : key -> block) (I : inode) : list Z :=
  (fun p => content v I (Z.of_nat p)) <$> seq 0 (Z.to_nat (i_size I)).

Lemma length_file_data v I : length (file_data v I) = Z.to_nat (i_size I).
Proof. unfold file_data. by rewrite length_fmap, length_seq. Qed.

Lemma lookup_file_data v I p : (p < Z.to_nat (i_size I))%nat -> file_data v I !! p = Some (content v I (Z.of_nat p)).
Proof. intros Hp. unfold file_data. by rewrite list_lookup_fmap, lookup_seq_lt. Qed.

(** ** Metadata updates *)

(** A block that is neither data nor bitmap nor the superblock: an inode block. *)
Definition inode_block (x : Z) : Prop :=
  1 < x < data_start sb /\ forall b, 0 <= b < sb_size sb -> bitmap_of sb b <> x.

Lemma IBLOCK_ok i : 0 <= i < sb_ninodes sb -> inode_block (IBLOCK i).
Proof.
  intros Hi. unfold IBLOCK. change IPB with 8.
  pose proof (Z.div_pos i 8 ltac:(lia) ltac:(lia)) as Hp.
  pose proof (Z.div_le_mono i (sb_ninodes sb) 8 ltac:(lia) ltac:(lia)) as Hle.
  destruct Hly as [Hs _ _ _ _].
  assert (forall b, 0 <= b < sb_size sb -> i / 8 + 2 < bitmap_of sb b) as Hb.
  { intros b Hb. unfold bitmap_of, BBLOCK. change IPB with 8. rewrite BPB_val. pose proof (Z.div_pos b 4096). lia. }
  split; [|intros b Hbb; pose proof (Hb b Hbb); lia].
  pose proof (bitmap_range g sb Hly 0 ltac:(lia)). pose proof (Hb 0 ltac:(lia)). lia.
Qed.

Section meta.
Context (v : key -> block) (x : Z) (d : block) (Hx : inode_block x).
Abbreviation v' := (upd v (gk g x) d).

Lemma meta_data y : data_block y -> v' (gk g y) = v (gk g y).
Proof. intros [Hy _]. rewrite upd_ne; [done|]. apply gk_ne. destruct Hx as [Hr _]. lia. Qed.

Lemma meta_used y : 0 <= y < sb_size sb -> used v' y = used v y.
Proof. intros Hy. unfold FsSpec.used. rewrite upd_ne; [done|]. apply gk_ne. by apply Hx. Qed.

Lemma meta_bitmap : bitmap_ok g sb v -> bitmap_ok g sb v'.
Proof.
  intros [H1 H2]. split.
  - rewrite upd_ne; [done|]. apply gk_ne. destruct Hx as [Hr _]. lia.
  - intros b Hb. rewrite meta_used by done. by apply H2.
Qed.

Lemma meta_addr I bn : ino_ok v I -> addr_of v' I bn = addr_of v I bn.
Proof.
  intros HI. unfold FileSpec.addr_of. destruct (bn <? NDIRECT); [done|].
  destruct (Z.eqb_spec (ind I) 0) as [|Hi]; [done|]. rewrite meta_data; [done|].
  by apply (io_own _ _ _ _ HI), owns_ind.
Qed.

Lemma meta_owns I y : ino_ok v I -> owns v' I y <-> owns v I y.
Proof. intros HI. unfold FileSpec.owns. by setoid_rewrite (meta_addr I _ HI). Qed.

Lemma meta_ino I : ino_ok v I -> ino_ok v' I.
Proof.
  intros HI. pose proof HI as [H1 H2 H3 H4 H5]. split; try done.
  - intros y Hy. apply meta_owns in Hy; [|done]. destruct (H3 y Hy). split; [done|].
    rewrite meta_used; [done|by apply (data_lt_size g Hg sb Hly)].
  - intros b1 b2. rewrite !meta_addr by done. apply H4.
  - intros b1. rewrite !meta_addr by done. apply H5.
Qed.

Lemma meta_content I p : ino_ok v I -> 0 <= p < MAXFILE * BSIZE -> content v' I p = content v I p.
Proof.
  intros HI Hp. unfold FileSpec.content. cbv zeta. rewrite meta_addr by done.
  destruct (Z.eqb_spec (addr_of v I (p / BSIZE)) 0) as [|Hnz]; [done|]. rewrite meta_data; [done|].
  apply (io_own _ _ _ _ HI), owns_addr; [|done]. split; [apply Z.div_pos; [lia|done]|].
  apply Z.div_lt_upper_bound; [done|]. rewrite Z.mul_comm. lia.
Qed.
End meta.

Lemma iupdate_fs (s : fsst E) v ss ip (I := inode_of s ip) :
  frep g o s v ss ∅ -> 1 <= o -> i_dev I = g_dev g -> 0 <= i_inum I < sb_ninodes sb ->
  length (i_addrs I) = 13%nat -> Z.of_nat (length ss) < cap ->
  wp (iupdate ip) s (fun _ s' =>
    frep g o s' (upd v (gk g (IBLOCK (i_inum I)))
      (put_dinode (dinode_off (i_inum I)) (to_dinode I) (v (gk g (IBLOCK (i_inum I))))))
      (absorb ss (IBLOCK (i_inum I))) ∅ /\ fkeep s s').
Proof.
  intros F Ho Hd Hi Ha Hroom. unfold iupdate. apply wp_bind, wp_gets. fold I. rewrite Hd.
  destruct (IBLOCK_ok _ Hi) as [Hr _]. pose proof (ly_data _ _ Hly) as Hdata.
  assert (home_ok g (IBLOCK (i_inum I))) as Hh by (apply (home_below g Hg sb Hly); lia).
  pose proof (cap_29 g Hg) as Hc.
  apply wp_tail5.
  apply (wp_update_block g Hg o s v ss ∅ (IBLOCK (i_inum I)) (put_dinode (dinode_off (i_inum I)) (to_dinode I))
    (ret tt) _ F); [|done| |lia|done|].
  - split_and!; [set_solver|by destruct Hh|right]. rewrite size_empty. unfold NBUF. lia.
  - intros d. by apply put_dinode_ok; [apply dinode_off_range; lia|].
  - intros s' F' Hk. by apply wp_ret.
Qed.

Lemma addrs_u32 v I : ino_ok v I -> Forall is_u32 (i_addrs I).
Proof.
  intros HI. apply Forall_lookup_2. intros i a Ha. pose proof (lookup_lt_Some _ _ _ Ha) as Hi.
  rewrite (io_len _ _ _ _ HI) in Hi. destruct (decide (a = 0)) as [->|Hnz]; [unfold is_u32; lia|].
  assert (data_block a) as Hd.
  { apply list_lookup_total_correct in Ha. apply (io_own _ _ _ _ HI a). split; [done|].
    destruct (decide (i = 12%nat)) as [->|Hne]; [by left|right]. exists (Z.of_nat i).
    change MAXFILE with 140. split; [unfold in_file; change MAXFILE with 140; lia|].
    unfold FileSpec.addr_of. rewrite (proj2 (Z.ltb_lt _ _)), Nat2Z.id by (change NDIRECT with 12; lia). done. }
  pose proof (data_lt_size g Hg sb Hly a Hd). destruct Hly as [Hs _ _ _ _]. unfold is_u32. lia.
Qed.

Lemma div_in_file p : 0 <= p < MAXFILE * BSIZE -> in_file (p / BSIZE).
Proof.
  intros Hp. split; [apply Z.div_pos; [lia|done]|].
  apply Z.div_lt_upper_bound; [done|]. rewrite Z.mul_comm. lia.
Qed.

(** What a write leaves of the rest of the file system. *)
Record rest_kept (s : fsst E) (ip : nat) (v : key -> block) (s' : fsst E) (v' : key -> block) : Prop := {
  rk_others j : j <> ip -> inode_of s' j = inode_of s j;
  rk_ext : ext s' = ext s;
  rk_used x : 0 <= x < sb_size sb -> used v x = true -> used v' x = true;
  rk_data x : data_block x -> used v x = true -> ~ owns v (inode_of s ip) x -> v' (gk g x) = v (gk g x);
  rk_inode i : 0 < i < sb_ninodes sb -> i <> i_inum (inode_of s ip) ->
    get_dinode (dinode_off i) (v' (gk g (IBLOCK i))) = get_dinode (dinode_off i) (v (gk g (IBLOCK i)));
  rk_owns x : owns v' (inode_of s' ip) x -> owns v (inode_of s ip) x \/ used v x = false
}.

Definition write_post (s : fsst E) (v : key -> block) (ss : list Z) (ip : nat) (src : list Z) (off : Z)
    (s' : fsst E) : Prop :=
  let I := inode_of s ip in let n := Z.of_nat (length src) in
  exists v' ss', frep g o s' v' ss' ∅ /\ bitmap_ok g sb v' /\ file_ok v' (inode_of s' ip) /\
    i_size (inode_of s' ip) = Z.max (i_size I) (off + n) /\
    (forall p, 0 <= p < MAXFILE * BSIZE -> content v' (inode_of s' ip) p = overlay off src (content v I) p) /\
    inode_of s' ip = set_i_size (i_size (inode_of s' ip)) (set_i_addrs (i_addrs (inode_of s' ip)) I) /\
    rest_kept s ip v s' v' /\
    Z.of_nat (length ss') <= pend sb ss I + nblk off n + 1 /\
    (forall m, nfree g sb v (m + Z.to_nat (nblk off n) + nz (ind I)) -> nfree g sb v' (m + nz (ind (inode_of s' ip)))).

Lemma set_same I : I = set_i_size (i_size I) (set_i_addrs (i_addrs I) I).
Proof. by destruct I. Qed.

Lemma slice_all (l : list Z) : slice 0 (length l) l = l.
Proof. unfold slice. rewrite drop_0. by apply take_ge. Qed.

(** The write stays inside the file: the inode does not change. *)
Lemma write_inside s v ss ip src off s1 v1 ss1 (I := inode_of s ip) (n := Z.of_nat (length src)) :
  file_ok v I -> file_step g o sb ip s v s1 v1 ss1 (overlay off src (content v I)) ->
  ic s1 = ic s -> off + n <= i_size I -> pend sb ss1 (inode_of s1 ip) <= pend sb ss I + nblk off n ->
  (forall m, nfree g sb v (m + Z.to_nat (nblk off n) + nz (ind I)) -> nfree g sb v1 (m + nz (ind (inode_of s1 ip)))) ->
  write_post s v ss ip src off s1.
Proof.
  intros [H1 H2 H3 H4 H5 H6] Hst Hic Hsz Hp Hnf. pose proof (inode_of_ic s s1 ip Hic) as EI. fold I in EI.
  pose proof (pend_len sb ss1 (inode_of s1 ip)) as Hpl.
  destruct Hst as [S1 S2 S3 S4 S5 S6 S7 S8 S9 S10]. rewrite EI in *. fold I in S8, S9, S10 |- *.
  unfold write_post. fold I n. exists v1, ss1. rewrite EI. split_and!; [done|done| |lia|done|apply set_same| |lia|done].
  - split; try done.
    + intros p Hpr. rewrite S8; [by apply H4|apply div_in_file; lia|by apply H4].
    + unfold synced. destruct (IBLOCK_ok (i_inum I) ltac:(lia)) as [Hr Hb].
      rewrite (gr_meta _ _ _ _ _ S9); [done|lia|done].
  - split; rewrite ?EI; fold I; try done.
    + apply (gr_used _ _ _ _ _ S9).
    + apply (gr_data _ _ _ _ _ S9).
    + intros i Hi Hne. destruct (IBLOCK_ok i ltac:(lia)) as [Hr Hb].
      rewrite (gr_meta _ _ _ _ _ S9); [done|lia|done].
Qed.

Lemma ino_ok_size v I x : ino_ok v I -> ino_ok v (set_i_size x I).
Proof. intros [H1 H2 H3 H4 H5]. by split. Qed.

(** The write extends the file: the inode gets its new size and is written. *)
Lemma write_extends s v ss ip src off s1 v1 ss1 (I := inode_of s ip) (n := Z.of_nat (length src)) :
  1 <= o -> (ip < NINODE)%nat ->
  file_ok v I -> file_step g o sb ip s v s1 v1 ss1 (overlay off src (content v I)) ->
  (forall q, off <= q < off + n -> addr_of v1 (inode_of s1 ip) (q / BSIZE) <> 0) ->
  0 <= off <= i_size I -> i_size I < off + n <= MAXFILE * BSIZE ->
  pend sb ss1 (inode_of s1 ip) <= pend sb ss I + nblk off n -> pend sb ss I + nblk off n + 1 <= cap ->
  (forall m, nfree g sb v (m + Z.to_nat (nblk off n) + nz (ind I)) -> nfree g sb v1 (m + nz (ind (inode_of s1 ip)))) ->
  wp (update_inode ip (set_i_size (off + n)) ;; iupdate ip) s1 (fun _ s' => write_post s v ss ip src off s').
Proof.
  intros Ho Hip [H1 H2 H3 H4 H5 H6] Hst Hnz Hoff Hsz Hp Hroom Hnf.
  pose proof (pend_len sb ss1 (inode_of s1 ip)) as Hpl.
  destruct Hst as [S1 S2 S3 S4 S5 S6 S7 S8 S9 S10]. set (I1 := inode_of s1 ip) in *. fold I in S4, S8, S9, S10.
  apply wp_bind, wp_update_inode. fold I1. set (I2 := set_i_size (off + n) I1). set (s2 := with_inode ip I2 s1).
  assert (inode_of s2 ip = I2) as E2 by by eapply inode_of_with.
  assert (i_inum I2 = i_inum I) as Einum by (unfold I2; rewrite S4; done).
  pose proof (IBLOCK_ok (i_inum I) ltac:(lia)) as HB. pose proof HB as [Hr Hb].
  eapply wp_conseq.
  { apply (iupdate_fs s2 v1 ss1 ip); [by apply frep_with_inode|done|..]; rewrite ?E2.
    - apply (io_dev _ _ _ _ S3).
    - rewrite Einum. lia.
    - apply (io_len _ _ _ _ S3).
    - lia. }
  rewrite E2, Einum. intros _ s3 (F3 & [Hic3 Hext3 _]).
  set (x := IBLOCK (i_inum I)) in *. set (d := put_dinode _ _ _) in F3. set (v3 := upd v1 (gk g x) d) in *.
  assert (inode_of s3 ip = I2) as E3 by (rewrite <- E2; by apply inode_of_ic).
  assert (ino_ok v1 I2) as HI2 by by apply ino_ok_size.
  assert (dinode_ok (to_dinode I2)) as Hdk.
  { destruct H6 as [D1 D2 D3 D4 D5 D6 D7]. unfold I2. rewrite S4. split; try done.
    - simpl. unfold is_u32. change (MAXFILE * BSIZE) with 71680 in *. lia.
    - exact (addrs_u32 v1 I1 S3).
    - apply (io_len _ _ _ _ S3). }
  assert (length (v1 (gk g x)) = 512%nat) as L512.
  { apply (br_vok _ _ _ _ (frep_cache _ _ _ _ _ _ S1)). }
  pose proof (dinode_off_range (i_inum I) ltac:(lia)) as Hor.
  unfold write_post. fold I n. exists v3, (absorb ss1 x). rewrite E3. split_and!.
  - done.
  - by apply meta_bitmap.
  - split.
    + by apply meta_ino.
    + by rewrite Einum.
    + simpl. lia.
    + intros p Hpr. simpl in Hpr. unfold v3. rewrite meta_addr by done.
      change (addr_of v1 I2) with (addr_of v1 I1).
      destruct (decide (p < off)) as [Hlt|]; [|apply Hnz; lia].
      rewrite S8; [apply H4; lia|apply div_in_file; lia|apply H4; lia].
    + unfold synced. rewrite Einum. fold x. unfold v3. rewrite upd_same. unfold d.
      apply get_put_dinode; [rewrite L512; lia|done].
    + done.
  - simpl. lia.
  - intros p Hpr. unfold v3. rewrite meta_content by done. by apply S7.
  - unfold I2. rewrite S4. done.
  - split; rewrite ?E3; fold I.
    + intros j Hj. rewrite (inode_of_ic s2 s3 j Hic3). unfold s2. rewrite inode_of_with_ne by done. auto.
    + by rewrite Hext3.
    + intros y Hy Hu. unfold v3. rewrite meta_used by done. by apply (gr_used _ _ _ _ _ S9).
    + intros y Hy Hu Hno. unfold v3. rewrite meta_data by done. by apply (gr_data _ _ _ _ _ S9).
    + intros i Hi Hne. destruct (IBLOCK_ok i ltac:(lia)) as [Hri Hbi].
      assert (v1 (gk g (IBLOCK i)) = v (gk g (IBLOCK i))) as Ev1.
      { apply (gr_meta _ _ _ _ _ S9); [lia|done]. }
      unfold v3. destruct (decide (IBLOCK i = x)) as [Ex|Ex].
      * rewrite Ex, upd_same. unfold d. rewrite get_put_dinode_other.
        -- by rewrite <- Ex, Ev1.
        -- rewrite L512. lia.
        -- apply (io_len _ _ _ _ S3).
        -- apply dinode_off_disjoint; lia || done.
      * rewrite upd_ne by by apply gk_ne. by rewrite Ev1.
    + intros y Hy. apply S10. unfold v3 in Hy. by apply meta_owns in Hy.
  - pose proof (length_absorb ss1 x). lia.
  - intros m Hm. destruct (Hnf m Hm) as (l & L1 & L2 & L3). exists l. split_and!; [done|done|]. intros y Hy.
    destruct (L3 y Hy) as [Hyr Hu]. split; [done|]. unfold v3. by rewrite meta_used.
Qed.

(** [writei] of the bytes [src] at offset [off] of a file. *)
Lemma writei_fs devsw (s : fsst E) v ss ip src off (I := inode_of s ip) (n := Z.of_nat (length src)) :
  frep g o s v ss ∅ -> 1 <= o -> bitmap_ok g sb v -> file_ok v I -> i_type I <> T_DEV -> (ip < NINODE)%nat ->
  Forall is_u8 src -> 0 <= off <= i_size I -> off + n <= MAXFILE * BSIZE ->
  pend sb ss I + nblk off n + 1 <= cap -> nfree g sb v (Z.to_nat (nblk off n) + nz (ind I)) ->
  wp (writei devsw ip src off n) s (fun r s' => r = n /\ write_post s v ss ip src off s').
Proof.
  intros F Ho Hbits Hok Hty Hip H8 Hoff Hmax Hroom Hfree. pose proof Hok as [H1 H2 H3 H4 H5 H6].
  change (MAXFILE * BSIZE) with 71680 in *.
  unfold writei. apply wp_bind, wp_gets. fold I. rewrite (proj2 (Z.eqb_neq _ _) Hty).
  rewrite (u32_small (off + n)) by lia. rewrite !(proj2 (Z.ltb_ge _ _)) by lia. cbn [orb].
  change (MAXFILE * BSIZE) with 71680. rewrite (proj2 (Z.ltb_ge _ _)) by lia.
  eapply wp_seq.
  { apply (writei_loop_fs g Hg o Ho sb Hly Hone src n ip (Z.to_nat n) s v ss off 0); try done;
      rewrite ?Z.sub_0_r; fold I; try done; lia. }
  rewrite Z.sub_0_r. fold I.
  assert (slice (Z.to_nat 0) (Z.to_nat n) src = src) as -> by (unfold n; rewrite Nat2Z.id; apply slice_all).
  intros r s1 (-> & v1 & ss1 & Hst & Hnz & Hic & Hp1 & Hnf).
  pose proof (st_meta _ _ _ _ _ _ _ _ _ _ Hst) as Emeta.
  apply wp_bind, wp_gets.
  assert (i_size (inode_of s1 ip) = i_size I) as -> by (rewrite Emeta; done).
  destruct (Z.ltb_spec (i_size I) (off + n)) as [Hgrow|Hin].
  - assert ((0 <? n) = true) as -> by (apply Z.ltb_lt; lia). cbn [andb when].
    eapply wp_seq; [apply (write_extends s v ss ip src off s1 v1 ss1); try done; fold I n;
      change (MAXFILE * BSIZE) with 71680; lia|].
    intros u s2 Hpost. apply wp_ret. split; [apply s32_small; lia|done].
  - rewrite andb_false_r. cbn [when]. apply wp_bind, wp_ret, wp_ret. split; [apply s32_small; lia|].
    apply (write_inside s v ss ip src off s1 v1 ss1); try done.
    apply Hic. intros q Hq. apply H4. lia.
Qed.

(** ** Reading *)

Lemma txn_room (s : fsst E) v ss B : frep g o s v ss B -> (length ss < NBUF)%nat.
Proof.
  intros F. pose proof (lr_room _ _ _ _ _ (fr_log _ _ _ _ _ _ F)).
  destruct Hg as [_ _ Hs _ _]. change LOGSIZE with 30 in Hs. unfold NBUF. lia.
Qed.

(** [bmap] of a block that exists changes nothing. *)
Lemma bmap_mapped (s : fsst E) v ss ip bn (I := inode_of s ip) :
  frep g o s v ss ∅ -> ino_ok v I -> in_file bn -> addr_of v I bn <> 0 ->
  wp (bmap ip bn) s (fun a s' => a = addr_of v I bn /\ frep g o s' v ss ∅ /\ fkeep s s').
Proof.
  intros F HI Hbn Hnz. unfold bmap. apply wp_bind, wp_gets. fold I.
  destruct (Z.ltb_spec bn NDIRECT) as [Hlt|Hge].
  - assert (addr_of v I bn = i_addrs I !!! Z.to_nat bn) as Ea.
    { unfold FileSpec.addr_of. by rewrite (proj2 (Z.ltb_lt _ _)) by lia. }
    cbv zeta. rewrite <- Ea, (proj2 (Z.eqb_neq _ _) Hnz). apply wp_ret. split_and!; [done|done|apply fkeep_refl].
  - unfold in_file in Hbn. change MAXFILE with 140 in Hbn. change NDIRECT with 12 in *. cbv zeta.
    rewrite (proj2 (Z.ltb_lt (bn - 12) NINDIRECT)) by (change NINDIRECT with 128; lia).
    change (Z.to_nat 12) with 12%nat. fold (ind I).
    assert (ind I <> 0 /\ addr_of v I bn = get32 (4 * Z.to_nat (bn - 12)) (v (gk g (ind I)))) as [Hi Ea].
    { unfold FileSpec.addr_of in *. change NDIRECT with 12 in *. rewrite (proj2 (Z.ltb_ge _ _)) in * by lia.
      destruct (Z.eqb_spec (ind I) 0); done. }
    rewrite (proj2 (Z.eqb_neq _ _) Hi). apply wp_bind, wp_ret. rewrite (io_dev _ _ _ _ HI).
    destruct (io_own _ _ _ _ HI (ind I) (owns_ind g v I Hi)) as [Hd _].
    eapply wp_seq.
    { apply (bread_fs g Hg o s v ss ∅ (ind I) F), (avail_data g Hg sb Hly); [done|set_solver|].
      rewrite size_empty, Nat.add_0_r. by eapply txn_room. }
    intros bp s1 (F1 & Hh1 & [A1 A2 A3] & Hcl). apply wp_bind. eapply (read_data_fs g o); [done|done|].
    rewrite <- Ea, (proj2 (Z.eqb_neq _ _) Hnz). apply wp_bind, wp_ret.
    eapply wp_seq; [apply (brelse_fs g o _ _ _ _ _ _ F1 Hh1 Hcl)|]. intros _ s2 (F2 & C1 & C2 & C3).
    apply wp_ret. replace ((_ ∪ ∅) ∖ _) with (∅ : gset key) in F2 by set_solver.
    split_and!; [done|done|]. split; [congruence|congruence|]. intros j k Hj.
    exfalso. by apply (holds_busy _ _ _ _ (frep_cache _ _ _ _ _ _ F)) in Hj.
Qed.

Lemma block_slice v I off m : ino_ok v I -> (forall k, block_ok (v k)) -> 0 <= off -> 0 <= m ->
  off mod BSIZE + m <= BSIZE -> off + m <= MAXFILE * BSIZE -> addr_of v I (off / BSIZE) <> 0 ->
  slice (Z.to_nat (off mod BSIZE)) (Z.to_nat m) (v (gk g (addr_of v I (off / BSIZE)))) =
  (fun i => content v I (off + Z.of_nat i)) <$> seq 0 (Z.to_nat m).
Proof.
  intros HI Hv Hoff Hm Hb Hmax Hnz. destruct (Hv (gk g (addr_of v I (off / BSIZE)))) as [Hl _].
  pose proof (Z.mod_pos_bound off BSIZE ltac:(done)) as Hmod. change BSIZE with 512 in *.
  pose proof (Z.div_mod off 512 ltac:(lia)) as Edm.
  apply list_eq. intros i. rewrite lookup_slice, list_lookup_fmap. case_decide as Hi.
  - rewrite lookup_seq_lt by done. simpl. unfold FileSpec.content. change BSIZE with 512.
    assert ((off + Z.of_nat i) / 512 = off / 512) as Ed.
    { symmetry. apply (Z.div_unique _ 512 _ (off mod 512 + Z.of_nat i)); lia. }
    assert ((off + Z.of_nat i) mod 512 = off mod 512 + Z.of_nat i) as Em.
    { symmetry. apply (Z.mod_unique _ 512 (off / 512)); lia. }
    rewrite Ed, Em, (proj2 (Z.eqb_neq _ _) Hnz). cbv zeta.
    unfold block in *. set (bl := v _) in *.
    destruct (lookup_lt_is_Some_2 bl (Z.to_nat (off mod 512) + i)) as [x Hx]; [lia|].
    rewrite Hx. f_equal. symmetry. apply list_lookup_total_correct. rewrite <- Hx. f_equal. lia.
  - rewrite lookup_ge_None_2 by (rewrite length_seq; lia). done.
Qed.

Lemma seq_content v I off m len : 0 <= m <= len ->
  ((fun i => content v I (off + Z.of_nat i)) <$> seq 0 (Z.to_nat m)) ++
  ((fun i => content v I (off + m + Z.of_nat i)) <$> seq 0 (Z.to_nat (len - m))) =
  (fun i => content v I (off + Z.of_nat i)) <$> seq 0 (Z.to_nat len).
Proof.
  intros Hm. replace (Z.to_nat len) with (Z.to_nat m + Z.to_nat (len - m))%nat by lia.
  rewrite seq_app, fmap_app. f_equal. simpl.
  replace (seq (Z.to_nat m) (Z.to_nat (len - m))) with (Nat.add (Z.to_nat m) <$> seq 0 (Z.to_nat (len - m)))
    by (rewrite fmap_add_seq; f_equal; lia).
  rewrite <- list_fmap_compose.
  apply list_fmap_ext. intros i x _. simpl. f_equal. lia.
Qed.

Lemma readi_loop_fs ip n fuel : forall (s : fsst E) v ss off tot dst (I := inode_of s ip) (len := n - tot),
  frep g o s v ss ∅ -> ino_ok v I -> 0 <= off -> 0 <= tot <= n -> off + len <= MAXFILE * BSIZE ->
  (forall p, off <= p < off + len -> addr_of v I (p / BSIZE) <> 0) -> (Z.to_nat len <= fuel)%nat ->
  wp (readi_loop fuel ip off tot n dst) s (fun r s' =>
    r = dst ++ ((fun i => content v I (off + Z.of_nat i)) <$> seq 0 (Z.to_nat len)) /\
    frep g o s' v ss ∅ /\ fkeep s s').
Proof.
  induction fuel as [|f IH]; intros s v ss off tot dst I len F HI Hoff Htot Hmax Hnz Hfuel.
  - cbn [readi_loop]. rewrite (proj2 (Z.ltb_ge _ _)) by lia. apply wp_ret.
    replace (Z.to_nat len) with 0%nat by lia. simpl. rewrite app_nil_r. split_and!; [done|done|apply fkeep_refl].
  - cbn [readi_loop]. destruct (Z.ltb_spec tot n) as [Hlt|Hge].
    2:{ apply wp_ret. replace (Z.to_nat len) with 0%nat by lia. simpl. rewrite app_nil_r.
        split_and!; [done|done|apply fkeep_refl]. }
    destruct (nblk_step off len Hoff ltac:(lia)) as (Hm & Hmb & _ & _).
    set (m := Z.min len (BSIZE - off mod BSIZE)) in *. fold len. fold m.
    assert (addr_of v I (off / BSIZE) <> 0) as Hnz0 by (apply Hnz; lia).
    assert (in_file (off / BSIZE)) as Hinf by (apply div_in_file; lia).
    apply wp_bind, wp_gets. fold I. rewrite (io_dev _ _ _ _ HI).
    eapply wp_seq; [by apply (bmap_mapped s v ss ip (off / BSIZE) F HI)|].
    fold I. intros a s1 (-> & F1 & Hk1).
    destruct (io_own _ _ _ _ HI _ (owns_addr g v I _ Hinf Hnz0)) as [Hd _].
    apply (wp_read_block g Hg o s1 v ss ∅ (addr_of v I (off / BSIZE)) (fun d =>
      readi_loop f ip (off + m) (tot + m) n (dst ++ slice (Z.to_nat (off mod BSIZE)) (Z.to_nat m) d))).
    + done.
    + apply (avail_data g Hg sb Hly); [done|set_solver|]. rewrite size_empty, Nat.add_0_r. by eapply txn_room.
    + intros s2 F2 Hk2. pose proof (inode_of_ic s s2 ip (eq_trans (fk_ic _ _ Hk2) (fk_ic _ _ Hk1))) as EI.
      eapply wp_conseq; [apply (IH s2 v ss (off + m) (tot + m))|]; rewrite ?EI; fold I; try done; try lia.
      * intros p Hp. apply Hnz. lia.
      * intros r s3 (-> & F3 & Hk3). split_and!; [|done|by eapply fkeep_trans; [eapply fkeep_trans|]].
        rewrite <- app_assoc. f_equal. replace (n - (tot + m)) with (len - m) by lia.
        rewrite <- (seq_content v I off m len) by lia. f_equal.
        apply block_slice; try done; try lia. apply (br_vok _ _ _ _ (frep_cache _ _ _ _ _ _ F)).
Qed.

Lemma readi_fs devsw (s : fsst E) v ss ip off n (I := inode_of s ip) :
  frep g o s v ss ∅ -> file_ok v I -> i_type I <> T_DEV -> 0 <= off < 2 ^ 32 -> 0 <= n < 2 ^ 32 ->
  wp (readi devsw ip off n) s (fun r s' => frep g o s' v ss ∅ /\ fkeep s s' /\
    r = if (i_size I <? off) || (2 ^ 32 <=? off + n) then (-1, [])
        else (Z.min n (i_size I - off), slice (Z.to_nat off) (Z.to_nat n) (file_data v I))).
Proof.
  intros F [H1 H2 H3 H4 H5 H6] Hty Hoff Hn. change (MAXFILE * BSIZE) with 71680 in *.
  unfold readi. apply wp_bind, wp_gets. fold I. rewrite (proj2 (Z.eqb_neq _ _) Hty).
  destruct (Z.ltb_spec (i_size I) off) as [Hgt|Hle]; cbn [orb].
  { apply wp_ret. split_and!; [done|apply fkeep_refl|done]. }
  destruct (Z.leb_spec (2 ^ 32) (off + n)) as [Hov|Hov].
  { rewrite (proj2 (Z.ltb_lt (u32 (off + n)) off)).
    - apply wp_ret. split_and!; [done|apply fkeep_refl|done].
    - unfold u32. rewrite <- (Z.mod_add (off + n) (-1)), Z.mod_small by lia. lia. }
  rewrite u32_small by lia. rewrite (proj2 (Z.ltb_ge (off + n) off)) by lia.
  set (n' := if i_size I <? off + n then i_size I - off else n).
  assert (n' = Z.min n (i_size I - off)) as En by (unfold n'; destruct (Z.ltb_spec (i_size I) (off + n)); lia).
  eapply wp_seq.
  { apply (readi_loop_fs ip n' (Z.to_nat n') s v ss off 0 []); rewrite ?Z.sub_0_r; fold I; try done; try lia.
    - change (MAXFILE * BSIZE) with 71680. lia.
    - intros p Hp. apply H4. lia. }
  rewrite Z.sub_0_r. fold I. intros dst s1 (-> & F1 & Hk1). apply wp_ret. split_and!; [done|done|].
  rewrite s32_small by lia. rewrite <- En. f_equal. simpl.
  apply list_eq. intros i. rewrite list_lookup_fmap, lookup_slice.
  destruct (decide (i < Z.to_nat n')%nat) as [Hi|Hi].
  - rewrite lookup_seq_lt by done. simpl. rewrite decide_True by lia.
    rewrite lookup_file_data by lia. do 2 f_equal. lia.
  - rewrite lookup_ge_None_2 by (rewrite length_seq; lia). simpl.
    case_decide; [|done]. symmetry. apply lookup_ge_None_2. rewrite length_file_data. lia.
Qed.

(** ** The file system's promises *)

Definition disjoint_files (v : key -> block) (I J : inode) : Prop :=
  i_inum I <> i_inum J /\ forall x, owns v I x -> owns v J x -> False.

Lemma other_file s ip v s' v' J : file_ok v (inode_of s ip) -> rest_kept s ip v s' v' -> file_ok v J ->
  disjoint_files v (inode_of s ip) J ->
  (forall x, owns v' J x <-> owns v J x) /\ file_ok v' J /\ file_data v' J = file_data v J.
Proof.
  intros HfI [R1 R2 R3 R4 R5 R6] HfJ [Hne Hdis]. pose proof HfJ as [H1 H2 H3 H4 H5 H6].
  assert (forall x, owns v J x -> v' (gk g x) = v (gk g x)) as Hv.
  { intros x Hx. destruct (io_own _ _ _ _ H1 x Hx) as [Hd Hu]. apply R4; [done|done|]. intros Hi. by apply (Hdis x). }
  assert (forall bn, addr_of v' J bn = addr_of v J bn) as Ha.
  { intros bn. unfold FileSpec.addr_of. destruct (bn <? NDIRECT); [done|].
    destruct (Z.eqb_spec (ind J) 0) as [|Hi]; [done|]. rewrite Hv; [done|by apply owns_ind]. }
  assert (forall x, owns v' J x <-> owns v J x) as Ho.
  { intros x. unfold FileSpec.owns. by setoid_rewrite Ha. }
  assert (forall p, 0 <= p < MAXFILE * BSIZE -> content v' J p = content v J p) as Hc.
  { intros p Hp. unfold FileSpec.content. cbv zeta. rewrite Ha.
    destruct (Z.eqb_spec (addr_of v J (p / BSIZE)) 0) as [|Hnz]; [done|]. rewrite Hv; [done|].
    apply owns_addr; [by apply div_in_file|done]. }
  split_and!; [done| |].
  - split; try done.
    + destruct H1 as [I1 I2 I3 I4 I5]. split; try done.
      * intros x Hx. apply Ho in Hx. destruct (I3 x Hx) as [Hd Hu]. split; [done|].
        apply R3; [by apply (data_lt_size g Hg sb Hly)|done].
      * intros b1 b2. rewrite !Ha. apply I4.
      * intros b1. rewrite Ha. apply I5.
    + intros p Hp. rewrite Ha. by apply H4.
    + unfold synced in *. rewrite R5 by done. done.
  - unfold file_data. apply list_fmap_ext. intros i p Hp. apply lookup_seq in Hp. apply Hc. lia.
Qed.

(** The contents after a write, as a list. *)
Lemma overlay_data v I v' I' src off (n := Z.of_nat (length src)) :
  0 <= i_size I <= MAXFILE * BSIZE -> 0 <= off <= i_size I -> off + n <= MAXFILE * BSIZE ->
  i_size I' = Z.max (i_size I) (off + n) ->
  (forall p, 0 <= p < MAXFILE * BSIZE -> content v' I' p = overlay off src (content v I) p) ->
  file_data v' I' = take (Z.to_nat off) (file_data v I) ++ src ++ drop (Z.to_nat (off + n)) (file_data v I).
Proof.
  intros HsI Hoff Hmax Hsz Hc.
  apply list_eq. intros i. destruct (decide (i < Z.to_nat (i_size (I')))%nat) as [Hi|Hi].
  + rewrite lookup_file_data by done. rewrite Hc by (rewrite Hsz in Hi; lia). unfold overlay. fold n.
    pose proof (length_file_data v I) as HlI.
    destruct (decide (i < Z.to_nat off)%nat) as [Hlt|Hge].
    * rewrite decide_False by lia. rewrite lookup_app_l by (rewrite length_take; lia).
      rewrite lookup_take_lt by done. rewrite lookup_file_data by lia. done.
    * rewrite lookup_app_r by (rewrite length_take; lia). rewrite length_take, HlI.
      replace (i - Z.to_nat off `min` Z.to_nat (i_size I))%nat with (i - Z.to_nat off)%nat by lia.
      case_decide as Hd.
      -- destruct (lookup_lt_is_Some_2 src (i - Z.to_nat off)) as [x Hx]; [lia|].
         rewrite lookup_app_l by lia. rewrite Hx. f_equal. apply list_lookup_total_correct.
         rewrite <- Hx. f_equal. lia.
      -- rewrite lookup_app_r by lia. rewrite lookup_drop.
         replace (Z.to_nat (off + n) + (i - Z.to_nat off - length src))%nat with i by lia.
         rewrite lookup_file_data by lia. done.
  + rewrite lookup_ge_None_2 by (rewrite length_file_data; lia). symmetry. apply lookup_ge_None_2.
    rewrite !length_app, length_take, length_drop, length_file_data. lia.
Qed.

(** What a change of the file [ip] leaves alone, for a file that shares nothing with it. *)
Lemma disjoint_kept s ip v s' v' J :
  file_ok v (inode_of s ip) -> rest_kept s ip v s' v' -> i_inum (inode_of s' ip) = i_inum (inode_of s ip) ->
  file_ok v J -> disjoint_files v (inode_of s ip) J ->
  file_ok v' J /\ file_data v' J = file_data v J /\ disjoint_files v' (inode_of s' ip) J.
Proof.
  intros Hok Hrk Hn HJ HdJ. destruct (other_file s ip v s' v' J Hok Hrk HJ HdJ) as (Hown & HJ' & HdJ').
  split_and!; try done. split; [rewrite Hn; apply HdJ|]. intros x Hx HxJ. apply Hown in HxJ.
  destruct (rk_owns _ _ _ _ _ Hrk x Hx) as [Hx'|Hx']; [by apply (proj2 HdJ x)|].
  destruct (io_own _ _ _ _ (fo_ino _ _ HJ) x HxJ). congruence.
Qed.

(** C12: [writei] of [src] at an offset inside the file replaces exactly those
    bytes, extending the file if it runs past its end; the file stays well
    formed (no holes, blocks its own, inode on disk up to date) and a file that
    shares no block with it keeps its contents and its well-formedness, also
    when the write allocated blocks. *)
Theorem writei_writes devsw (s : fsst E) v ss ip src off (I := inode_of s ip) (n := Z.of_nat (length src)) :
  frep g o s v ss ∅ -> 1 <= o -> bitmap_ok g sb v -> file_ok v I -> i_type I <> T_DEV -> (ip < NINODE)%nat ->
  Forall is_u8 src -> 0 <= off <= i_size I -> off + n <= MAXFILE * BSIZE ->
  pend sb ss I + nblk off n + 1 <= cap -> nfree g sb v (Z.to_nat (nblk off n) + nz (ind I)) ->
  exists s' v' ss', writei devsw ip src off n s = Ret n s' /\
    frep g o s' v' ss' ∅ /\ bitmap_ok g sb v' /\ file_ok v' (inode_of s' ip) /\
    file_data v' (inode_of s' ip) =
      take (Z.to_nat off) (file_data v I) ++ src ++ drop (Z.to_nat (off + n)) (file_data v I) /\
    (forall J, file_ok v J -> disjoint_files v I J ->
       file_ok v' J /\ file_data v' J = file_data v J /\ disjoint_files v' (inode_of s' ip) J).
Proof.
  intros F Ho Hbits Hok Hty Hip H8 Hoff Hmax Hroom Hfree.
  destruct (proj1 (wp_eq _ _ _) (writei_fs devsw s v ss ip src off F Ho Hbits Hok Hty Hip H8 Hoff Hmax Hroom Hfree))
    as (r & s' & Er & -> & v' & ss' & F' & Hb' & Hok' & Hsz & Hc & Hm & Hrk & _).
  exists s', v', ss'. split_and!; try done.
  - apply overlay_data; try done. apply (fo_size _ _ Hok).
  - intros J HJ HdJ. apply (disjoint_kept s ip v s' v' J); try done. by rewrite Hm.
Qed.

(** C13: [readi] returns, and stores at [dst], exactly the bytes of the file
    from [off] on, as many of the [n] as there are; it returns -1 when the
    offset is past the end or the range wraps around 32 bits.  It changes
    neither the blocks nor the cached inodes. *)
Theorem readi_reads devsw (s : fsst E) v ss ip off n (I := inode_of s ip) :
  frep g o s v ss ∅ -> file_ok v I -> i_type I <> T_DEV -> 0 <= off < 2 ^ 32 -> 0 <= n < 2 ^ 32 ->
  exists s', frep g o s' v ss ∅ /\ ic s' = ic s /\
    readi devsw ip off n s =
      Ret (if (i_size I <? off) || (2 ^ 32 <=? off + n) then (-1, [])
           else (Z.min n (i_size I - off), slice (Z.to_nat off) (Z.to_nat n) (file_data v I))) s'.
Proof.
  intros F Hok Hty Hoff Hn.
  destruct (proj1 (wp_eq _ _ _) (readi_fs devsw s v ss ip off n F Hok Hty Hoff Hn)) as (r & s' & Er & F' & Hk & ->).
  exists s'. split_and!; [done|apply (fk_ic _ _ Hk)|done].
Qed.
End data.
