(* ===== verification/FsOps.v ===== *)
(** Transactions and inode locks for callers of the file system: [begin_op] and
    [end_op] when no other operation is running, [ilock] and [iunlock] of a
    cached inode; and what two views of the disk that agree outside the log have
    in common. *)

From S2P Require Import Prelude Params BlockDev Bio Log Fs FsSpec FileSpec Dinode FileData.

(** ** Transactions and inode locks *)

Section steps.
Context `{BlockDev} {E : Type} (g : geom) (Hg : geom_ok g).
Context (sb : superblock) (Hly : layout g sb).

Lemma begin_op_fs (s : fsst E) v : frep g 0 s v [] ∅ ->
  wp (liftl begin_op) s (fun _ s' => frep g 1 s' v [] ∅ /\ fkeep s s').
Proof.
  intros [Hl Ho Hc Hi Hn]. apply wp_liftl.
  eapply wp_conseq; [apply (begin_op_spec g _ v [] ∅ Hl Hc)|].
  - rewrite Ho. vm_compute. discriminate.
  - intros _ l' (Hl' & Hb & Ho' & Hc'). cbn beta. split; [split; try done; cbn [fl put_fl]; lia|].
    split; [done|done|]. cbn [fl put_fl]. by rewrite Hb.
Qed.

Lemma end_op_fs (s : fsst E) v ss : frep g 1 s v ss ∅ ->
  wp (liftl end_op) s (fun _ s' => exists v', frep g 0 s' v' [] ∅ /\
    (forall k, out_of_log g k -> v' k = v k /\ disk_get (dk (lb (fl s'))) k = v k) /\
    ic s' = ic s /\ ext s' = ext s /\ (ss = [] -> v' = v)).
Proof.
  intros [Hl Ho Hc Hi Hn]. apply wp_liftl.
  eapply wp_conseq; [apply (end_op_last_spec g Hg _ v ss Hl Hc Ho)|].
  intros _ l' (v' & Hl' & Hk & Ho' & Hc' & _ & Hnil). exists v'. by split_and!.
Qed.

(** [ilock] of a cached inode that nobody holds. *)
Lemma ilock_fs o (s : fsst E) v ss ip (I := inode_of s ip) :
  frep g o s v ss ∅ -> (ip < NINODE)%nat -> 1 <= i_ref I -> testf (i_flags I) I_VALID = true ->
  testf (i_flags I) I_BUSY = false ->
  wp (ilock ip) s (fun _ s' => s' = with_inode ip (set_i_flags (Z.lor (i_flags I) I_BUSY) I) s).
Proof.
  intros F Hip Hr Hv Hb. pose proof (fr_ic _ _ _ _ _ _ F) as Hlk. pose proof (fr_len _ _ _ _ _ _ F) as Hlen.
  unfold ilock, acquire_icache, release_icache.
  apply wp_bind, wp_gets. fold I. rewrite (proj2 (Z.ltb_ge _ _)) by lia.
  apply wp_bind, wp_bind, wp_gets. rewrite Hlk. apply wp_modify.
  apply wp_bind, wp_gets. change (inode_of (put_ic _ s) ip) with I. rewrite Hb.
  apply wp_bind, wp_modify, wp_bind, wp_bind, wp_gets. cbn [put_ic ic ic_lock]. apply wp_modify.
  change (inode_of (put_ic (mkicache true (ic_inode (ic s))) s) ip) with I. apply wp_bind, wp_gets.
  unfold inode_of at 1. cbn [put_ic ic ic_inode].
  rewrite list_lookup_total_insert_eq by lia. cbn [i_flags set_i_flags].
  rewrite testf_lor, Hv. cbn [orb negb when]. apply wp_ret. unfold with_inode, put_ic. cbn [fl ext]. by rewrite Hlk.
Qed.

(** [iunlock] of an inode that is held. *)
Lemma iunlock_fs o (s : fsst E) v ss ip (I := inode_of s ip) :
  frep g o s v ss ∅ -> (ip < NINODE)%nat -> 1 <= i_ref I -> testf (i_flags I) I_BUSY = true ->
  wp (iunlock ip) s (fun _ s' => frep g o s' v ss ∅ /\ ext s' = ext s /\
    inode_of s' ip = set_i_flags (Z.land (i_flags I) (Z.lnot I_BUSY)) I /\
    ic s' = ic (with_inode ip (set_i_flags (Z.land (i_flags I) (Z.lnot I_BUSY)) I) s)).
Proof.
  intros F Hip Hr Hb. pose proof (fr_ic _ _ _ _ _ _ F) as Hlk. pose proof (fr_len _ _ _ _ _ _ F) as Hlen.
  unfold iunlock, acquire_icache, release_icache.
  apply wp_bind, wp_gets. fold I. rewrite (proj2 (Z.ltb_ge _ _)), Hb by lia. cbn [negb orb].
  apply wp_bind, wp_bind, wp_gets. rewrite Hlk. apply wp_modify.
  apply wp_bind, wp_modify. change (inode_of (put_ic (mkicache true _) s) ip) with I.
  apply wp_bind, wp_liftb. unfold wakeup. apply wp_modify, wp_bind, wp_gets. cbn [put_ic put_fl ic ic_lock].
  apply wp_modify. cbn [put_ic put_fl ic ic_lock ic_inode ext fl]. split_and!; [|done| |].
  - destruct F as [[Hl Hlk' Hnd Hh Hroom R] Ho Hc _ _]. split; try done.
    + split; try done. by destruct R.
    + cbn. by rewrite length_insert.
  - unfold inode_of. cbn [put_ic put_fl ic ic_inode]. rewrite list_lookup_total_insert_eq by lia. done.
  - cbn [put_ic put_fl ic with_inode]. by rewrite Hlk.
Qed.

(** The lock bit of an inode is not part of the file. *)
Lemma file_ok_flags v x I : file_ok g sb v I <-> file_ok g sb v (set_i_flags x I).
Proof. split; intros [[] ? ? ? ? ?]; (split; [split; assumption|assumption..]). Qed.

Lemma testf_lock x : testf (Z.lor x I_BUSY) I_BUSY = true.
Proof. by rewrite testf_lor, orb_comm. Qed.
Lemma testf_unlock x : testf x I_VALID = true -> testf (Z.land (Z.lor x I_BUSY) (Z.lnot I_BUSY)) I_VALID = true.
Proof. intros Hx. by rewrite testf_clear_other, testf_lor, Hx. Qed.

(** ** Contents that agree outside the log *)

Definition agree (v v' : key -> block) : Prop := forall x, 0 <= x < g_start g -> v' (gk g x) = v (gk g x).

Lemma out_of_log_lt x : x < g_start g -> out_of_log g (gk g x).
Proof. intros Hx _ Hr. destruct Hr. cbn in *. lia. Qed.

Section agree.
Context (v v' : key -> block) (Hv : agree v v').

Lemma data_start_pos : 0 < data_start sb.
Proof. pose proof (bitmap_range g sb Hly 0). destruct Hly. lia. Qed.

Lemma agree_used b : 0 <= b < sb_size sb -> used g sb v' b = used g sb v b.
Proof.
  intros Hb. unfold used. rewrite Hv; [done|]. pose proof (bitmap_range g sb Hly b Hb). destruct Hly. lia.
Qed.

Lemma agree_bitmap : bitmap_ok g sb v -> bitmap_ok g sb v'.
Proof.
  intros [H1 H2]. split.
  - rewrite Hv; [done|]. pose proof (bitmap_range g sb Hly 0). destruct Hly. lia.
  - intros b Hb. rewrite agree_used by done. by apply H2.
Qed.

Lemma agree_nfree n : nfree g sb v n -> nfree g sb v' n.
Proof.
  intros (l & Hnd & Hl & Hb). exists l. split_and!; [done|done|]. intros b Hin. destruct (Hb b Hin).
  split; [done|]. by rewrite agree_used.
Qed.

Context (J : inode) (HJ : file_ok g sb v J).

Lemma agree_own x : owns g v J x -> v' (gk g x) = v (gk g x).
Proof.
  intros Hx. destruct (io_own _ _ _ _ (fo_ino _ _ _ _ HJ) x Hx) as [[]_]. pose proof data_start_pos.
  apply Hv. lia.
Qed.

Lemma agree_addr bn : addr_of g v' J bn = addr_of g v J bn.
Proof.
  unfold addr_of. destruct (bn <? NDIRECT); [done|].
  destruct (Z.eqb_spec (ind J) 0) as [|Hi]; [done|]. rewrite agree_own; [done|by apply owns_ind].
Qed.

Lemma agree_owns x : owns g v' J x <-> owns g v J x.
Proof. unfold owns. by setoid_rewrite agree_addr. Qed.

Lemma agree_file_data : file_data g v' J = file_data g v J.
Proof.
  pose proof (fo_size _ _ _ _ HJ). unfold file_data. apply list_fmap_ext. intros i p Hp. apply lookup_seq in Hp.
  unfold content. cbv zeta. rewrite agree_addr.
  destruct (Z.eqb_spec (addr_of g v J (Z.of_nat p / BSIZE)) 0) as [|Hnz]; [done|]. rewrite agree_own; [done|].
  apply owns_addr; [apply div_in_file; lia|done].
Qed.

Lemma agree_file_ok : file_ok g sb v' J.
Proof.
  pose proof HJ as [[I1 I2 I3 I4 I5] H2 H3 H4 H5 H6]. split; try done.
  - split; try done.
    + intros x Hx%agree_owns. destruct (I3 x Hx) as [Hd Hu]. split; [done|].
      rewrite agree_used; [done|]. by apply (data_lt_size g Hg sb Hly).
    + intros b1 b2. rewrite !agree_addr. apply I4.
    + intros b1. rewrite agree_addr. apply I5.
  - intros p Hp. rewrite agree_addr. by apply H4.
  - unfold synced in *. rewrite Hv; [done|]. 
    destruct (IBLOCK_ok g sb Hly (i_inum J)) as [? _]; [lia|]. destruct Hly. lia.
Qed.
End agree.

(** ** Other files *)

(** A change that makes the file [I] into [I'] and keeps every file that shares
    nothing with it. *)
Definition others_kept (v : key -> block) (I : inode) (v' : key -> block) (I' : inode) : Prop :=
  forall J, file_ok g sb v J -> disjoint_files g v I J ->
    file_ok g sb v' J /\ file_data g v' J = file_data g v J /\ disjoint_files g v' I' J.

Lemma others_kept_trans v1 I1 v2 I2 v3 I3 :
  others_kept v1 I1 v2 I2 -> others_kept v2 I2 v3 I3 -> others_kept v1 I1 v3 I3.
Proof.
  intros H12 H23 J HJ Hd. destruct (H12 J HJ Hd) as (HJ2 & E2 & Hd2). destruct (H23 J HJ2 Hd2) as (HJ3 & E3 & Hd3).
  split_and!; [done|congruence|done].
Qed.

Lemma others_kept_agree v v' I : agree v v' -> file_ok g sb v I -> others_kept v I v' I.
Proof.
  intros Hv HI J HJ [Hne Hd]. split_and!; [by eapply agree_file_ok|by apply agree_file_data|].
  split; [done|]. intros x. rewrite !(agree_owns v v' Hv) by done. apply Hd.
Qed.

End steps.
