(* ===== verification/Icache.v ===== *)
(** The inode cache: fs.c [iget], [idup] and the reference counts.

    The invariant is that no two entries in use hold the same inode, so that
    locking an entry locks the inode. *)

From S2P Require Import Prelude Params BlockDev Bio Log Fs.

Section icache.
Context `{BlockDev} {E : Type}.
Abbreviation FS := (M (fsst E)).

Definition caches (dv inum : Z) (I : inode) : Prop := 0 < i_ref I /\ i_dev I = dv /\ i_inum I = inum.

Record icache_ok (s : fsst E) : Prop := {
  co_unlocked : ic_lock (ic s) = false;
  co_len : length (ic_inode (ic s)) = NINODE;
  co_ref i I : ic_inode (ic s) !! i = Some I -> 0 <= i_ref I;
  co_uniq i j I J : ic_inode (ic s) !! i = Some I -> ic_inode (ic s) !! j = Some J ->
    0 < i_ref I -> caches (i_dev I) (i_inum I) J -> i = j
}.

Lemma iget_scan_hit l : forall i dv inum e k e', iget_scan l i dv inum e = (Some k, e') ->
  exists I, (i <= k)%nat /\ l !! (k - i)%nat = Some I /\ caches dv inum I.
Proof.
  induction l as [|I l IH]; intros i dv inum e k e' Hs; simpl in Hs; [done|].
  destruct (Z.ltb_spec 0 (i_ref I)), (Z.eqb_spec (i_dev I) dv), (Z.eqb_spec (i_inum I) inum); simpl in Hs;
    try (apply IH in Hs as (J & H1 & H2 & H3); exists J; split_and!; [lia| |done];
         replace (k - i)%nat with (S (k - S i)) by lia; done).
  injection Hs as <- <-. exists I. rewrite Nat.sub_diag. split_and!; [lia|done|done].
Qed.

Lemma iget_scan_miss l : forall i dv inum e r, iget_scan l i dv inum e = (None, r) ->
  Forall (fun I => ~ caches dv inum I) l /\
  match e with
  | Some _ => r = e
  | None => match r with
            | Some k => (i <= k)%nat /\ exists I, l !! (k - i)%nat = Some I /\ i_ref I = 0
            | None => Forall (fun I => i_ref I <> 0) l
            end
  end.
Proof.
  induction l as [|I l IH]; intros i dv inum e r Hs.
  { simpl in Hs. injection Hs as <-. split; [constructor|]. destruct e; [done|constructor]. }
  cbn [iget_scan] in Hs.
  destruct ((0 <? i_ref I) && (i_dev I =? dv) && (i_inum I =? inum)) eqn:Ec; [done|].
  assert (~ caches dv inum I) as Hnc.
  { intros (H1 & H2 & H3). apply Z.ltb_lt in H1. subst dv inum. by rewrite H1, !Z.eqb_refl in Ec. }
  apply IH in Hs as [Hf Hr]. split; [by constructor|].
  destruct e as [e|]; [done|]. destruct (Z.eqb_spec (i_ref I) 0) as [Hz|Hz].
  - subst r. split; [lia|]. exists I. by rewrite Nat.sub_diag.
  - destruct r as [k|]; [|by constructor]. destruct Hr as (Hk & J & HJ & Hz').
    split; [lia|]. exists J. replace (k - i)%nat with (S (k - S i)) by lia. done.
Qed.

(** The entry that [iget] returns, as a function of the old one. *)
Definition iget_entry (dv inum : Z) (I : inode) : inode :=
  if 0 <? i_ref I then set_i_ref (i_ref I + 1) I
  else mkinode dv inum 1 0 (i_type I) (i_major I) (i_minor I) (i_nlink I) (i_size I) (i_addrs I).

Definition set_entry (k : nat) (I : inode) (s : fsst E) : fsst E :=
  put_ic (mkicache (ic_lock (ic s)) (<[k := I]> (ic_inode (ic s)))) s.

Lemma iget_spec s dv inum :
  icache_ok s ->
  (exists k I, ic_inode (ic s) !! k = Some I /\ (caches dv inum I \/ i_ref I = 0)) ->
  exists k I, iget dv inum s = Ret k (set_entry k (iget_entry dv inum I) s) /\
    ic_inode (ic s) !! k = Some I /\
    (caches dv inum I \/ (i_ref I = 0 /\ Forall (fun J => ~ caches dv inum J) (ic_inode (ic s)))).
Proof.
  intros Hok (k0 & I0 & Hk0 & Hc0). destruct Hok as [Hlk Hlen Href _]. destruct s as [l [lk ins] e]. cbn [ic ic_lock ic_inode] in *.
  subst lk. unfold iget, acquire_icache, release_icache, update_inode, bind, gets, modify, put_ic, inode_of.
  cbn [ic ic_lock ic_inode]. destruct (iget_scan ins 0 dv inum None) as [[k|] r] eqn:Es.
  - apply iget_scan_hit in Es as (I & _ & HI & Hc). rewrite Nat.sub_0_r in HI. exists k, I.
    split_and!; [|done|by left]. unfold set_entry, put_ic, iget_entry. cbn.
    rewrite (list_lookup_total_correct _ _ _ HI). destruct Hc as (Hpos & _).
    by rewrite (proj2 (Z.ltb_lt _ _) Hpos).
  - apply iget_scan_miss in Es as [Hf Hr]. destruct r as [k|].
    + destruct Hr as (_ & I & HI & Hz). rewrite Nat.sub_0_r in HI. exists k, I.
      split_and!; [|done|by right]. unfold set_entry, put_ic, iget_entry. cbn.
      rewrite (list_lookup_total_correct _ _ _ HI), Hz. done.
    + exfalso. rewrite Forall_lookup in Hf, Hr. destruct Hc0 as [Hc|Hz]; [by apply (Hf _ _ Hk0)|by apply (Hr _ _ Hk0)].
Qed.

Lemma iget_entry_caches dv inum I : caches dv inum I \/ i_ref I = 0 -> caches dv inum (iget_entry dv inum I).
Proof.
  unfold iget_entry, caches. intros [(H1 & H2 & H3)|Hz].
  - rewrite (proj2 (Z.ltb_lt _ _) H1). split_and!; simpl; [lia|done|done].
  - rewrite Hz. simpl. split_and!; [lia|done|done].
Qed.

(** C21: [iget] returns an entry for the inode it was asked for, with one more
    reference, taking the existing entry if the inode is cached; when no entry
    is free and the inode is not cached it panics.  The cache never holds an
    inode twice. *)
Theorem iget_unique s dv inum :
  icache_ok s ->
  (exists k I s', iget dv inum s = Ret k s' /\ ic_inode (ic s) !! k = Some I /\
     s' = set_entry k (iget_entry dv inum I) s /\ caches dv inum (iget_entry dv inum I) /\
     i_ref (iget_entry dv inum I) = i_ref I + 1 /\ icache_ok s') \/
  (Forall (fun I => i_ref I <> 0 /\ ~ caches dv inum I) (ic_inode (ic s)) /\
   exists s', iget dv inum s = Panic "iget: no inodes" s').
Proof.
  intros Hok. pose proof Hok as [Hlk Hlen Href Huniq].
  destruct (decide (Exists (fun I => (0 < i_ref I /\ i_dev I = dv /\ i_inum I = inum) \/ i_ref I = 0) (ic_inode (ic s)))) as [Hex|Hno].
  - left. apply Exists_exists in Hex as (I0 & Hin & Hc0). apply list_elem_of_lookup in Hin as [k0 Hk0].
    destruct (iget_spec s dv inum Hok (ex_intro _ k0 (ex_intro _ I0 (conj Hk0 Hc0)))) as (k & I & Er & HI & Hc).
    assert (caches dv inum (iget_entry dv inum I)) as Hce by (apply iget_entry_caches; tauto).
    exists k, I. eexists. split_and!; [exact Er|done|done|done| |].
    { unfold iget_entry. destruct (Z.ltb_spec 0 (i_ref I)); simpl; [done|]. pose proof (Href _ _ HI). lia. }
    assert (k < length (ic_inode (ic s)))%nat as Hk by by eapply lookup_lt_Some.
    split; cbn [set_entry put_ic ic ic_lock ic_inode]; [done|by rewrite length_insert| |].
    + intros i J HJ. apply list_lookup_insert_Some in HJ as [(-> & <- & _)|[_ HJ]]; [destruct Hce; lia|eauto].
    + intros i j J1 J2 H1 H2 Hr Hc2.
      apply list_lookup_insert_Some in H1 as [(<- & <- & _)|[N1 H1]];
        apply list_lookup_insert_Some in H2 as [(<- & <- & _)|[N2 H2]]; [done| | |by eapply Huniq].
      * destruct Hce as (_ & E1 & E2). rewrite E1, E2 in Hc2. destruct Hc as [Hc|[_ Hf]].
        -- destruct Hc as (P1 & <- & <-). by eapply (Huniq k j I J2).
        -- rewrite Forall_lookup in Hf. by destruct (Hf _ _ H2).
      * destruct Hce as (_ & E1 & E2), Hc2 as (_ & E3 & E4). rewrite E1 in E3. rewrite E2 in E4.
        destruct Hc as [Hc|[_ Hf]].
        -- destruct Hc as (P1 & P2 & P3). symmetry. apply (Huniq k i I J1); try done. rewrite P2, P3. done.
        -- rewrite Forall_lookup in Hf. by destruct (Hf _ _ H1).
  - right. apply not_Exists_Forall in Hno; [|apply _].
    assert (Forall (fun I => i_ref I <> 0 /\ ~ caches dv inum I) (ic_inode (ic s))) as Hf.
    { eapply Forall_impl; [exact Hno|]. intros I HI. unfold compose in HI. unfold caches. tauto. }
    split; [done|]. destruct s as [l [lk ins] e]. cbn [ic ic_lock ic_inode] in *. subst lk.
    unfold iget, acquire_icache, bind, gets, modify, put_ic. cbn [ic ic_lock ic_inode].
    rewrite Forall_forall in Hf. destruct (iget_scan ins 0 dv inum None) as [[k|] r] eqn:Es.
    + apply iget_scan_hit in Es as (I & _ & HI & Hc). exfalso. apply list_elem_of_lookup_2 in HI. by apply (proj2 (Hf I HI)).
    + apply iget_scan_miss in Es as [_ Hr]. destruct r as [k|]; [|by eexists].
      destruct Hr as (_ & I & HI & Hz). exfalso. apply list_elem_of_lookup_2 in HI. by apply (proj1 (Hf I HI)).
Qed.
End icache.

Module IcacheW.
#[local] Instance dev : BlockDev := memide_dev 100.
Definition s0 : fsst unit := mkfs (mklst zero_log (mkbst (binit zero_bcache) (mkdisk ∅ []) [])) iinit tt.

Lemma s0_ok : icache_ok s0.
Proof.
  assert (forall i I, ic_inode (ic s0) !! i = Some I -> I = zero_inode) as Hz.
  { intros i I HI. by apply lookup_replicate in HI as [-> _]. }
  split; [done|done| |].
  - intros i I HI. by apply Hz in HI as ->.
  - intros i j I J HI _ Hr. apply Hz in HI as ->. done.
Qed.

Lemma iget_unique_witness :
  (exists k I s', iget 1 1 s0 = Ret k s' /\ ic_inode (ic s0) !! k = Some I /\
     s' = set_entry k (iget_entry 1 1 I) s0 /\ caches 1 1 (iget_entry 1 1 I) /\
     i_ref (iget_entry 1 1 I) = i_ref I + 1 /\ icache_ok s') \/
  (Forall (fun I => i_ref I <> 0 /\ ~ caches 1 1 I) (ic_inode (ic s0)) /\
   exists s', iget 1 1 s0 = Panic "iget: no inodes" s').
Proof. exact (iget_unique s0 1 1 s0_ok). Defined.
End IcacheW.
