(* ===== verification/DirSpec.v ===== *)
(** Directories and path names: the specifications of fs.c [dirlookup],
    [dirlink] and [skipelem].

    A directory is the sequence of its 16-byte entries; [dir_find name data] is
    the first entry in use whose name is [name].  [dirlookup] is that search,
    and [dirlink] makes it find the new entry without changing what it finds
    for any other name. *)

From S2P Require Import Prelude Params BlockDev Bio Log CString Fs FsSpec FileSpec Dinode FileData Icache Dir.

(** ** Path elements *)

Lemma skip_slashes_head p : peek (skip_slashes p) <> 47.
Proof.
  induction p as [|c p IH]; [done|]. simpl. destruct (Z.eqb_spec c 47); [done|]. done.
Qed.

Lemma skip_slashes_split p : exists n, p = replicate n 47 ++ skip_slashes p.
Proof.
  induction p as [|c p [n IH]]; [by exists O|]. simpl. destruct (Z.eqb_spec c 47) as [->|].
  - exists (S n). simpl. by f_equal.
  - by exists O.
Qed.

Lemma span_elem_spec p s r : span_elem p = (s, r) ->
  p = s ++ r /\ Forall (fun c => c <> 47 /\ c <> 0) s /\ (peek r = 47 \/ peek r = 0).
Proof.
  revert s r. induction p as [|c p IH]; intros s r Hs; simpl in Hs.
  - injection Hs as <- <-. split_and!; [done|constructor|by right].
  - destruct (Z.eqb_spec c 47) as [->|N1]; simpl in Hs; [injection Hs as <- <-; split_and!; [done|constructor|by left]|].
    destruct (Z.eqb_spec c 0) as [->|N0]; simpl in Hs; [injection Hs as <- <-; split_and!; [done|constructor|by right]|].
    destruct (span_elem p) as [s' r'] eqn:E. injection Hs as <- <-.
    destruct (IH s' r' eq_refl) as (-> & Hf & Hr). split_and!; [done|by constructor|done].
Qed.

Lemma cname_app n s (t : list Z) : Forall (fun c => c <> 0) s -> (length s <= n)%nat ->
  (n = length s \/ at_list t 0 = 0) -> cname n (at_list (s ++ t)) = s.
Proof.
  revert n. induction s as [|c s IH]; intros n Hs Hl Ht.
  - simpl in *. destruct n as [|n]; [done|]. destruct Ht as [|Ht]; [done|]. simpl. by rewrite Ht.
  - destruct n as [|n]; [simpl in Hl; lia|]. apply Forall_cons in Hs as [Hc Hs]. simpl.
    change (at_list (c :: s ++ t) 0) with c. rewrite (proj2 (Z.eqb_neq _ _) Hc). f_equal.
    apply (IH n Hs); [simpl in Hl; lia|]. destruct Ht; [left; simpl in *; lia|by right].
Qed.

(** [skipelem] strips leading slashes, takes the longest run of bytes
    without a slash as the element, leaves in [name] its first DIRSIZ bytes
    (NUL-terminated when shorter) and returns the rest of the path without its
    leading slashes; it returns 0 exactly when no element is left. *)
Theorem skipelem_spec path name :
  length name = Z.to_nat DIRSIZ ->
  match skipelem path name with
  | None => peek (skip_slashes path) = 0
  | Some (rest, name') =>
      exists pre s mid, path = pre ++ s ++ mid ++ rest /\
        Forall (fun c => c = 47) pre /\ Forall (fun c => c <> 47 /\ c <> 0) s /\ s <> [] /\
        Forall (fun c => c = 47) mid /\ peek rest <> 47 /\ (peek (mid ++ rest) = 47 \/ peek (mid ++ rest) = 0) /\
        length name' = Z.to_nat DIRSIZ /\
        cname (Z.to_nat DIRSIZ) (at_list name') = take (Z.to_nat DIRSIZ) s
  end.
Proof.
  intros Hname. unfold skipelem. destruct (Z.eqb_spec (peek (skip_slashes path)) 0) as [|Hnz]; [done|].
  destruct (span_elem (skip_slashes path)) as [s r] eqn:Es.
  destruct (span_elem_spec _ _ _ Es) as (Esr & Hf & Hr).
  destruct (skip_slashes_split path) as [n1 E1], (skip_slashes_split r) as [n2 E2].
  assert (Forall (fun c => c <> 0) s) as Hf0 by (eapply Forall_impl; [exact Hf|]; tauto).
  change (Z.to_nat DIRSIZ) with 14%nat in *. change DIRSIZ with 14.
  exists (replicate n1 47), s, (replicate n2 47). split_and!.
  - rewrite E1 at 1. by rewrite Esr, <- E2.
  - by apply Forall_replicate.
  - done.
  - intros ->. simpl in Esr. rewrite Esr in Hnz. pose proof (skip_slashes_head path) as Hh. rewrite Esr in Hh.
    destruct Hr; done.
  - by apply Forall_replicate.
  - apply skip_slashes_head.
  - by rewrite <- E2.
  - destruct (Z.leb_spec 14 (Z.of_nat (length s))); rewrite <- Hname; apply length_splice.
    + rewrite length_take. lia.
    + rewrite length_app. simpl. lia.
  - destruct (Z.leb_spec 14 (Z.of_nat (length s))) as [Hl|Hl]; unfold splice; rewrite take_0; cbn [app].
    + apply cname_app; [by apply Forall_take|rewrite length_take; lia|left; rewrite length_take; lia].
    + rewrite (take_ge s), <- app_assoc by lia. apply cname_app; [done|lia|by right].
Qed.

Lemma skipelem_spec_witness :
  exists pre s mid, [47; 97; 47; 47; 98] = pre ++ s ++ mid ++ [98] /\
        Forall (fun c => c = 47) pre /\ Forall (fun c => c <> 47 /\ c <> 0) s /\ s <> [] /\
        Forall (fun c => c = 47) mid /\ peek [98] <> 47 /\ (peek (mid ++ [98]) = 47 \/ peek (mid ++ [98]) = 0) /\
        length (97 :: replicate 13 0) = 14%nat /\
        cname 14 (at_list (97 :: replicate 13 0)) = take 14 s.
Proof. exact (skipelem_spec [47; 97; 47; 47; 98] (replicate 14 0) eq_refl). Defined.

(** ** Directory entries *)

Definition entry (data : list Z) (k : nat) : list Z := slice (16 * k) 16 data.
Definition n_entries (data : list Z) : nat := (length data / 16)%nat.

Definition is_entry (name : nat -> Z) (de : list Z) : bool :=
  negb (de_inum de =? 0) && (namecmp name (de_name de) =? 0).

(** The index of the first entry that satisfies [p], among the [n] from [k] on. *)
Fixpoint first_entry (p : list Z -> bool) (data : list Z) (k n : nat) : option nat :=
  match n with
  | O => None
  | S n' => if p (entry data k) then Some k else first_entry p data (S k) n'
  end.
Definition dir_find (name : nat -> Z) (data : list Z) : option nat :=
  first_entry (is_entry name) data 0 (n_entries data).

Lemma first_entry_some p data n : forall k j, first_entry p data k n = Some j ->
  (k <= j < k + n)%nat /\ p (entry data j) = true /\ forall i, (k <= i < j)%nat -> p (entry data i) = false.
Proof.
  induction n as [|n IH]; intros k j Hj; [done|]. simpl in Hj. destruct (p (entry data k)) eqn:Ep.
  - injection Hj as <-. split; [lia|]. split; [done|]. intros; lia.
  - destruct (IH _ _ Hj) as (H1 & H2 & H3). split; [lia|]. split; [done|].
    intros i Hi. destruct (decide (i = k)) as [->|]; [done|]. apply H3. lia.
Qed.

Lemma first_entry_none p data n : forall k, first_entry p data k n = None ->
  forall i, (k <= i < k + n)%nat -> p (entry data i) = false.
Proof.
  induction n as [|n IH]; intros k Hk i Hi; [lia|]. simpl in Hk. destruct (p (entry data k)) eqn:Ep; [done|].
  destruct (decide (i = k)) as [->|]; [done|]. apply (IH (S k)); [done|lia].
Qed.

Lemma first_entry_intro p data n : forall k j, (k <= j < k + n)%nat -> p (entry data j) = true ->
  (forall i, (k <= i < j)%nat -> p (entry data i) = false) -> first_entry p data k n = Some j.
Proof.
  induction n as [|n IH]; intros k j Hj Hp Hbefore; [lia|]. simpl.
  destruct (decide (j = k)) as [->|Hne]; [by rewrite Hp|].
  rewrite (Hbefore k) by lia. apply IH; [lia|done|]. intros i Hi. apply Hbefore. lia.
Qed.

Lemma first_entry_none_intro p data n : forall k,
  (forall i, (k <= i < k + n)%nat -> p (entry data i) = false) -> first_entry p data k n = None.
Proof.
  induction n as [|n IH]; intros k Hall; [done|]. simpl. rewrite (Hall k) by lia. apply IH.
  intros i Hi. apply Hall. lia.
Qed.

(** A new entry. *)
Lemma length_mkdirent inum name : length (mkdirent inum name) = 16%nat.
Proof.
  unfold mkdirent. rewrite length_app, length_le_bytes. unfold Kstring.strncpy.
  rewrite length_strncpy_loop. done.
Qed.

Lemma de_inum_mk inum name : is_u16 inum -> de_inum (mkdirent inum name) = inum.
Proof.
  intros Hi. unfold de_inum, get16, slice, mkdirent. rewrite drop_0.
  rewrite (take_app_length' _ _ 2) by by rewrite length_le_bytes.
  rewrite le_val_bytes; [by apply Z.mod_small|]. apply Z.mod_pos_bound. lia.
Qed.

Lemma de_name_mk inum name : cname 14 (de_name (mkdirent inum name)) = cname 14 name.
Proof.
  unfold de_name, mkdirent. rewrite (drop_app_length' _ _ 2) by by rewrite length_le_bytes.
  apply (cname_strncpy_loop 14 name).
Qed.

Lemma mkdirent_u8 inum name : (forall i, is_u8 (name i)) -> Forall is_u8 (mkdirent inum name).
Proof.
  intros Hn. unfold mkdirent. apply Forall_app. split; [apply le_bytes_range|].
  unfold Kstring.strncpy. generalize (Z.to_nat DIRSIZ) as k. intros k. revert name Hn.
  induction k as [|k IH]; intros name Hn; simpl; constructor; [done|].
  case_match; [apply Forall_replicate; unfold is_u8; lia|]. apply IH. auto.
Qed.

(** The data of a directory with entry [k] replaced (or appended). *)
Lemma entry_replaced data k w : length w = 16%nat -> (16 * k <= length data)%nat ->
  length data = (16 * n_entries data)%nat ->
  let data' := take (16 * k) data ++ w ++ drop (16 * k + 16) data in
  n_entries data' = (n_entries data `max` S k)%nat /\
  forall j, entry data' j = if decide (j = k) then w else entry data j.
Proof.
  intros Hw Hk Hd data'.
  assert (length data' = (16 * (n_entries data `max` S k))%nat) as Hl.
  { unfold data'. rewrite !length_app, length_take, length_drop. lia. }
  split.
  { unfold n_entries at 1. rewrite Hl, Nat.mul_comm. by rewrite Nat.div_mul. }
  intros j. unfold entry, data'. apply list_eq. intros i. rewrite lookup_slice. case_decide as Hi.
  - destruct (decide (j < k)%nat) as [Hlt|Hge].
    + rewrite decide_False by lia. rewrite lookup_slice, decide_True by done.
      rewrite lookup_app_l by (rewrite length_take; lia). apply lookup_take_lt. lia.
    + rewrite lookup_app_r by (rewrite length_take; lia). rewrite length_take.
      replace (16 * k `min` length data)%nat with (16 * k)%nat by lia.
      destruct (decide (j = k)) as [->|Hne].
      * rewrite lookup_app_l by lia. f_equal. lia.
      * rewrite lookup_app_r by lia. rewrite lookup_drop, lookup_slice, decide_True by done. f_equal. lia.
  - symmetry. case_decide; [apply lookup_ge_None_2; lia|]. rewrite lookup_slice. by rewrite decide_False.
Qed.

(** ** dirlookup and dirlink *)

Section dir.
Context `{BlockDev} {E : Type} (g : geom) (Hg : geom_ok g) (o : Z).
Context (sb : superblock) (Hly : layout g sb) (Hone : sb_size sb <= BPB).
Context (devsw : Z -> devops (E := E)).

(** A directory: a file made of whole entries. *)
Record dir_ok (v : key -> block) (I : inode) : Prop := {
  do_file : file_ok g sb v I;
  do_type : i_type I = T_DIR;
  do_whole : length (file_data g v I) = (16 * n_entries (file_data g v I))%nat
}.

Lemma dir_size v I : dir_ok v I -> i_size I = 16 * Z.of_nat (n_entries (file_data g v I)).
Proof.
  intros [[_ _ Hs _ _ _] _ Hw]. rewrite length_file_data in Hw. lia.
Qed.

Lemma n_dirents_eq v I : dir_ok v I -> n_dirents (i_size I) = n_entries (file_data g v I).
Proof.
  intros Hd. rewrite (dir_size v I Hd). unfold n_dirents. change DIRENT_SIZE with 16.
  set (n := n_entries _). replace (16 * Z.of_nat n + 16 - 1) with (15 + Z.of_nat n * 16) by lia.
  rewrite Z.div_add by lia. change (15 / 16) with 0. lia.
Qed.

(** Reading entry [k]. *)
Lemma read_entry s v ss dp k (I := inode_of s dp) :
  frep g o s v ss ∅ -> dir_ok v I -> (k < n_entries (file_data g v I))%nat ->
  wp (readi devsw dp (Z.of_nat k * DIRENT_SIZE) DIRENT_SIZE) s (fun r s' =>
    r = (16, entry (file_data g v I) k) /\ frep g o s' v ss ∅ /\ fkeep s s').
Proof.
  intros F Hd Hk. pose proof (dir_size v I Hd) as Hsz. pose proof Hd as [Hf Ht _].
  pose proof (fo_size _ _ _ _ Hf) as HsM. change (MAXFILE * BSIZE) with 71680 in HsM.
  change DIRENT_SIZE with 16.
  eapply wp_conseq; [apply (readi_fs g Hg o sb Hly Hone devsw s v ss dp (Z.of_nat k * 16) 16 F)|];
    fold I; [done|rewrite Ht; done|lia|lia|].
  fold I. intros r s' (F' & Hk' & ->). split_and!; try done.
  rewrite (proj2 (Z.ltb_ge _ _)), (proj2 (Z.leb_gt _ _)) by lia. cbn [orb]. f_equal; [lia|].
  unfold entry. f_equal; lia.
Qed.

Lemma icache_ok_keep (s s' : fsst E) : ic s' = ic s -> icache_ok s -> icache_ok s'.
Proof. intros Eic [H1 H2 H3 H4]. split; rewrite Eic; done. Qed.

(** The loop of [dirlookup]: entries that do not match are passed over. *)
Lemma dirlookup_none s v ss dp name (I := inode_of s dp) :
  frep g o s v ss ∅ -> dir_ok v I -> dir_find name (file_data g v I) = None ->
  wp (dirlookup devsw dp name) s (fun r s' => r = None /\ frep g o s' v ss ∅ /\ fkeep s s').
Proof.
  intros F Hd Hnone. pose proof (first_entry_none _ _ _ _ Hnone) as Hall.
  unfold dirlookup. apply wp_bind, wp_gets. fold I. rewrite (do_type _ _ Hd). cbn [Z.eqb negb T_DIR Pos.eqb].
  rewrite (n_dirents_eq v I Hd).
  apply (wp_for_find (fun _ s' => frep g o s' v ss ∅ /\ fkeep s s')).
  - split; [done|apply fkeep_refl].
  - intros pre k post s1 Hl [F1 Hk1].
    assert (k ∈ seq 0 (n_entries (file_data g v I))) as Hk by (rewrite Hl; set_solver). apply elem_of_seq in Hk.
    pose proof (inode_of_ic s s1 dp (fk_ic _ _ Hk1)) as EI. fold I in EI.
    unfold dirlookup_at. eapply wp_seq; [apply (read_entry s1 v ss dp k F1); rewrite EI; [done|lia]|].
    rewrite EI. intros [r de] s2 (Er & F2 & Hk2). injection Er as -> ->.
    change (16 =? DIRENT_SIZE) with true. cbn [negb].
    pose proof (Hall k ltac:(lia)) as Hm. unfold is_entry in Hm. set (de := entry _ k) in *.
    destruct (Z.eqb_spec (de_inum de) 0); [apply wp_ret; split; [done|by eapply fkeep_trans]|].
    cbn [negb andb] in Hm. rewrite Hm. apply wp_ret. split; [done|by eapply fkeep_trans].
  - intros s' [F' Hk']. done.
Qed.

Lemma dirlookup_some s v ss dp name k (I := inode_of s dp) (inum := de_inum (entry (file_data g v I) k)) :
  frep g o s v ss ∅ -> icache_ok s -> dir_ok v I -> dir_find name (file_data g v I) = Some k ->
  (exists j J, ic_inode (ic s) !! j = Some J /\ (caches (g_dev g) inum J \/ i_ref J = 0)) ->
  wp (dirlookup devsw dp name) s (fun r s' => exists ip J s1,
    r = Some (ip, 16 * Z.of_nat k) /\ s' = set_entry ip (iget_entry (g_dev g) inum J) s1 /\
    ic_inode (ic s) !! ip = Some J /\
    (caches (g_dev g) inum J \/ i_ref J = 0 /\ Forall (fun J => ~ caches (g_dev g) inum J) (ic_inode (ic s))) /\
    frep g o s1 v ss ∅ /\ fkeep s s1).
Proof.
  intros F Hc Hd Hsome Hslot. destruct (first_entry_some _ _ _ _ _ Hsome) as (Hkr & Hkm & Hbefore).
  unfold dirlookup. apply wp_bind, wp_gets. fold I. rewrite (do_type _ _ Hd). cbn [Z.eqb negb T_DIR Pos.eqb].
  rewrite (n_dirents_eq v I Hd).
  apply (wp_for_find (fun pre s' => k ∉ pre /\ frep g o s' v ss ∅ /\ fkeep s s')).
  - split_and!; [set_solver|done|apply fkeep_refl].
  - intros pre j post s1 Hl (Hpre & F1 & Hk1).
    assert (j = length pre) as Ej.
    { assert (seq 0 (n_entries (file_data g v I)) !! length pre = Some j) as Hj.
      { rewrite Hl, lookup_app_r, Nat.sub_diag by lia. done. }
      apply lookup_seq in Hj. lia. }
    assert (j < n_entries (file_data g v I))%nat as Hjn.
    { assert (j ∈ seq 0 (n_entries (file_data g v I))) as Hj by (rewrite Hl; set_solver).
      apply elem_of_seq in Hj. lia. }
    assert (j <= k)%nat as Hjk.
    { destruct (decide (j <= k)%nat); [done|]. exfalso. apply Hpre.
      assert (pre = seq 0 j) as ->; [|apply elem_of_seq; lia].
      apply (f_equal (take j)) in Hl. rewrite take_app_length' in Hl by done. rewrite <- Hl, take_seq. f_equal. lia. }
    pose proof (inode_of_ic s s1 dp (fk_ic _ _ Hk1)) as EI. fold I in EI.
    unfold dirlookup_at. eapply wp_seq; [apply (read_entry s1 v ss dp j F1); rewrite EI; [done|lia]|].
    rewrite EI. intros [r de] s2 (Er & F2 & Hk2). injection Er as -> ->.
    change (16 =? DIRENT_SIZE) with true. cbn [negb].
    assert (fkeep s s2) as Hk02 by by eapply fkeep_trans.
    destruct (decide (j = k)) as [->|Hne].
    + fold inum. unfold is_entry in Hkm. apply andb_true_iff in Hkm as [Hi Hm]. fold inum in Hi.
      apply negb_true_iff in Hi. rewrite Hi, Hm. apply wp_bind, wp_gets.
      pose proof (inode_of_ic s s2 dp (fk_ic _ _ Hk02)) as EI2. fold I in EI2. rewrite EI2.
      rewrite (io_dev _ _ _ _ (fo_ino _ _ _ _ (do_file _ _ Hd))).
      destruct (iget_spec s2 (g_dev g) inum) as (ip & J & Er & HJ & HcJ).
      { by apply (icache_ok_keep s); [apply (fk_ic _ _ Hk02)|]. }
      { by rewrite (fk_ic _ _ Hk02). }
      apply wp_bind. eapply wp_of_eq; [exact Er|]. apply wp_ret.
      rewrite (fk_ic _ _ Hk02) in HJ, HcJ. exists ip, J, s2. split_and!; try done.
      change DIRENT_SIZE with 16. do 2 f_equal. lia.
    + pose proof (Hbefore j ltac:(lia)) as Hm. unfold is_entry in Hm. set (de := entry _ j) in *.
      assert (k ∉ pre ++ [j]) as Hpre' by set_solver.
      destruct (Z.eqb_spec (de_inum de) 0); [by apply wp_ret|].
      cbn [negb andb] in Hm. rewrite Hm. by apply wp_ret.
  - intros s' (Hk & _ & _). exfalso. apply Hk, elem_of_seq. lia.
Qed.

(** The slot [dirlink] uses: the first free entry, or the end. *)
Definition free_slot (data : list Z) : nat :=
  match first_entry (fun de => de_inum de =? 0) data 0 (n_entries data) with
  | Some k => k
  | None => n_entries data
  end.

Lemma free_slot_le data : (free_slot data <= n_entries data)%nat.
Proof.
  unfold free_slot. case_match eqn:E'; [|lia]. apply first_entry_some in E' as (? & _). lia.
Qed.

Lemma dirlink_slot s v ss dp (I := inode_of s dp) :
  frep g o s v ss ∅ -> dir_ok v I ->
  wp (for_find (seq 0 (n_dirents (i_size I))) (dirlink_at devsw dp)) s (fun r s' =>
    match r with Some off => off | None => Z.of_nat (n_dirents (i_size I)) * DIRENT_SIZE end =
      16 * Z.of_nat (free_slot (file_data g v I)) /\
    frep g o s' v ss ∅ /\ fkeep s s').
Proof.
  intros F Hd. rewrite (n_dirents_eq v I Hd). set (data := file_data g v I) in *. change DIRENT_SIZE with 16.
  apply (wp_for_find (fun pre s' => pre = seq 0 (length pre) /\
    (forall j, j ∈ pre -> (de_inum (entry data j) =? 0) = false) /\ frep g o s' v ss ∅ /\ fkeep s s')).
  - split_and!; [done|set_solver|done|apply fkeep_refl].
  - intros pre j post s1 Hl (Epre & Hpre & F1 & Hk1).
    assert (j = length pre /\ j < n_entries data)%nat as [Ej Hjn].
    { assert (seq 0 (n_entries data) !! length pre = Some j) as Hj.
      { rewrite Hl, lookup_app_r, Nat.sub_diag by lia. done. }
      apply lookup_seq in Hj. lia. }
    pose proof (inode_of_ic s s1 dp (fk_ic _ _ Hk1)) as EI. fold I in EI.
    unfold dirlink_at. eapply wp_seq; [apply (read_entry s1 v ss dp j F1); rewrite EI; [done|exact Hjn]|].
    rewrite EI. fold data. intros [r de] s2 (Er & F2 & Hk2). injection Er as -> ->.
    change (16 =? DIRENT_SIZE) with true. cbn [negb].
    assert (fkeep s s2) as Hk02 by by eapply fkeep_trans.
    destruct (de_inum (entry data j) =? 0) eqn:Ez; apply wp_ret.
    + split_and!; try done. unfold free_slot.
      rewrite (first_entry_intro _ data (n_entries data) 0 j); [cbv beta iota; change DIRENT_SIZE with 16; lia|lia|done|].
      intros i Hi. apply Hpre. rewrite Epre. apply elem_of_seq. lia.
    + split_and!; try done.
      * rewrite length_app. simpl. rewrite Nat.add_1_r, seq_S. simpl. by rewrite <- Epre, Ej.
      * intros i [Hi| ->%list_elem_of_singleton]%elem_of_app; [by apply Hpre|done].
  - intros s' (_ & Hall & F' & Hk'). split_and!; try done. unfold free_slot.
    rewrite first_entry_none_intro; [lia|]. intros i Hi. apply Hall, elem_of_seq. lia.
Qed.

Lemma is_entry_mk name name' inum : is_u16 inum -> inum <> 0 -> (forall i, is_u8 (name i)) -> (forall i, is_u8 (name' i)) ->
  is_entry name' (mkdirent inum name) = bool_decide (cname 14 name' = cname 14 name).
Proof.
  intros Hi Hnz Hn Hn'. unfold is_entry. rewrite de_inum_mk by done. rewrite (proj2 (Z.eqb_neq _ _) Hnz). cbn [negb andb].
  assert (forall i, is_u8 (de_name (mkdirent inum name) i)) as Hd.
  { apply at_list_u8, Forall_drop, mkdirent_u8. done. }
  pose proof (strncmp_zero 14 name' _ Hn' Hd) as Hz. rewrite de_name_mk in Hz.
  unfold namecmp. change (Z.to_nat DIRSIZ) with 14%nat.
  destruct (Z.eqb_spec (Kstring.strncmp name' (de_name (mkdirent inum name)) 14) 0) as [Ez|Ez].
  - symmetry. apply bool_decide_eq_true. by apply Hz.
  - symmetry. apply bool_decide_eq_false. intros Ec. by apply Ez, Hz.
Qed.

(** What a directory finds after [dirlink]. *)
Lemma dir_find_linked data name inum (k := free_slot data) :
  length data = (16 * n_entries data)%nat -> is_u16 inum -> inum <> 0 -> (forall i, is_u8 (name i)) ->
  dir_find name data = None ->
  let data' := take (16 * k) data ++ mkdirent inum name ++ drop (16 * k + 16) data in
  length data' = (16 * n_entries data')%nat /\
  dir_find name data' = Some k /\ de_inum (entry data' k) = inum /\
  (forall name', (forall i, is_u8 (name' i)) -> cname 14 name' <> cname 14 name ->
     dir_find name' data' = dir_find name' data /\
     forall j, dir_find name' data = Some j -> entry data' j = entry data j).
Proof.
  intros Hw Hi Hnz Hn Hnone data'. pose proof (free_slot_le data) as Hkn. fold k in Hkn.
  destruct (entry_replaced data k (mkdirent inum name) (length_mkdirent inum name) ltac:(lia) Hw) as [En Ee].
  fold data' in En, Ee.
  assert (forall j, (j < n_entries data)%nat -> is_entry name (entry data j) = false) as Hno.
  { intros j Hj. apply (first_entry_none _ _ _ _ Hnone). lia. }
  assert (forall name', (k < n_entries data)%nat -> is_entry name' (entry data k) = false) as Hfree.
  { intros name' Hk. unfold k, free_slot in *. destruct (first_entry _ data 0 _) as [k'|] eqn:Ef; [|lia].
    apply first_entry_some in Ef as (_ & Hz & _). unfold is_entry. by rewrite Hz. }
  split_and!.
  - rewrite En. unfold data'. rewrite !length_app, length_take, length_drop, length_mkdirent. lia.
  - apply first_entry_intro; [rewrite En; lia| |].
    + rewrite Ee, decide_True, is_entry_mk by done. by apply bool_decide_eq_true.
    + intros i Hi'. rewrite Ee, decide_False by lia. apply Hno. lia.
  - by rewrite Ee, decide_True, de_inum_mk.
  - intros name' Hn' Hne.
    assert (forall j, j <> k -> is_entry name' (entry data' j) = is_entry name' (entry data j)) as Heq.
    { intros j Hj. by rewrite Ee, decide_False. }
    assert (is_entry name' (entry data' k) = false) as Hk'.
    { rewrite Ee, decide_True, is_entry_mk by done. by apply bool_decide_eq_false. }
    destruct (dir_find name' data) as [j|] eqn:Ef.
    + destruct (first_entry_some _ _ _ _ _ Ef) as (Hj & Hjm & Hb).
      assert (j <> k) as Hjk by (intros ->; rewrite Hfree in Hjm by lia; done). split.
      * apply first_entry_intro; [rewrite En; lia|by rewrite Heq|].
        intros i Hi'. destruct (decide (i = k)) as [->|]; [done|]. rewrite Heq by done. by apply Hb.
      * intros j' [= <-]. by rewrite Ee, decide_False.
    + split; [|done]. apply first_entry_none_intro. rewrite En. intros i Hi'.
      destruct (decide (i = k)) as [->|]; [done|]. rewrite Heq by done.
      apply (first_entry_none _ _ _ _ Ef). lia.
Qed.

(** [dirlookup] on a directory returns the inode of the first entry in use
    with the given name, with a reference taken on it and the entry's offset,
    and 0 when there is none; the directory does not change. *)
Theorem dirlookup_finds s v ss dp name (I := inode_of s dp) (data := file_data g v I) :
  frep g o s v ss ∅ -> icache_ok s -> dir_ok v I ->
  (exists j J, ic_inode (ic s) !! j = Some J /\ i_ref J = 0) ->
  match dir_find name data with
  | None => exists s', dirlookup devsw dp name s = Ret None s' /\ frep g o s' v ss ∅ /\ ic s' = ic s
  | Some k => exists ip s', dirlookup devsw dp name s = Ret (Some (ip, 16 * Z.of_nat k)) s' /\
      frep g o s' v ss ∅ /\ caches (g_dev g) (de_inum (entry data k)) (inode_of s' ip) /\
      (forall j, j <> ip -> inode_of s' j = inode_of s j)
  end.
Proof.
  intros F Hc Hd (j & J & HJ & Hz). destruct (dir_find name data) as [k|] eqn:Ef.
  - assert (exists j J, ic_inode (ic s) !! j = Some J /\
      (caches (g_dev g) (de_inum (entry (file_data g v (inode_of s dp)) k)) J \/ i_ref J = 0)) as Hslot by eauto.
    destruct (proj1 (wp_eq _ _ _) (dirlookup_some s v ss dp name k F Hc Hd Ef Hslot))
      as (r & s' & Er & ip & J' & s1 & -> & -> & HJ' & HcJ & F1 & Hk1).
    pose proof (iget_entry_caches _ _ _ (match HcJ with or_introl h => or_introl h | or_intror h => or_intror (proj1 h) end)) as Hca.
    exists ip. eexists. split; [exact Er|]. fold I in Hca. fold data in Hca |- *.
    assert (ip < length (ic_inode (ic s1)))%nat as Hip.
    { rewrite (fk_ic _ _ Hk1). by eapply lookup_lt_Some. }
    split_and!.
    + by apply (frep_with_inode g o s1 v ss ∅ ip).
    + unfold inode_of, set_entry. cbn [ic ic_inode put_ic]. by rewrite list_lookup_total_insert_eq.
    + intros j' Hj'. unfold inode_of, set_entry. cbn [ic ic_inode put_ic].
      rewrite list_lookup_total_insert_ne by done. by rewrite (fk_ic _ _ Hk1).
  - destruct (proj1 (wp_eq _ _ _) (dirlookup_none s v ss dp name F Hd Ef)) as (r & s' & Er & -> & F' & Hk').
    exists s'. split_and!; [exact Er|done|apply (fk_ic _ _ Hk')].
Qed.

Lemma dirlink_new s v ss dp name inum (I := inode_of s dp) (data := file_data g v I)
    (off := 16 * Z.of_nat (free_slot data)) :
  frep g o s v ss ∅ -> 1 <= o -> bitmap_ok g sb v -> dir_ok v I -> (dp < NINODE)%nat ->
  (forall i, is_u8 (name i)) -> is_u16 inum -> inum <> 0 -> dir_find name data = None ->
  off + 16 <= MAXFILE * BSIZE -> pend sb ss I + nblk off 16 + 1 <= g_size g - 1 ->
  nfree g sb v (Z.to_nat (nblk off 16) + nz (ind I)) ->
  exists s' v' ss', dirlink devsw dp name inum s = Ret 0 s' /\ frep g o s' v' ss' ∅ /\ bitmap_ok g sb v' /\
    dir_ok v' (inode_of s' dp) /\
    let data' := file_data g v' (inode_of s' dp) in
    dir_find name data' = Some (free_slot data) /\ de_inum (entry data' (free_slot data)) = inum /\
    (forall name', (forall i, is_u8 (name' i)) -> cname 14 name' <> cname 14 name ->
       dir_find name' data' = dir_find name' data /\
       forall j, dir_find name' data = Some j -> entry data' j = entry data j).
Proof.
  intros F Ho Hbits Hd Hdp Hn Hi Hnz Hnone Hmax Hroom Hfree.
  pose proof (free_slot_le data) as Hle. pose proof (dir_size v I Hd) as Hsz. fold data in Hsz.
  set (src := mkdirent inum name) in *. pose proof (length_mkdirent inum name) as Hl16. fold src in Hl16.
  assert (wp (dirlink devsw dp name inum) s (fun r s' => r = 0 /\ exists s1,
    fkeep s s1 /\ write_post g o sb s1 v ss dp src off s')) as Hwp.
  { unfold dirlink. eapply wp_seq; [by apply (dirlookup_none s v ss dp name F Hd)|].
    intros r s1 (-> & F1 & Hk1). apply wp_bind, wp_gets.
    pose proof (inode_of_ic s s1 dp (fk_ic _ _ Hk1)) as E1. fold I in E1.
    eapply wp_seq; [apply (dirlink_slot s1 v ss dp F1); by rewrite E1|].
    rewrite E1. fold data. intros r s2 (Eoff & F2 & Hk2). fold off in Eoff. cbv zeta. rewrite Eoff.
    pose proof (inode_of_ic s1 s2 dp (fk_ic _ _ Hk2)) as E2. rewrite E1 in E2.
    change DIRENT_SIZE with 16. replace 16 with (Z.of_nat (length src)) at 1 by (rewrite Hl16; done).
    eapply wp_seq.
    { apply (writei_fs g Hg o sb Hly Hone devsw s2 v ss dp src off F2 Ho Hbits); rewrite ?E2, ?Hl16.
      - apply Hd.
      - by rewrite (do_type _ _ Hd).
      - done.
      - by apply mkdirent_u8.
      - lia.
      - done.
      - done.
      - done. }
    intros r' s3 (-> & Hpost). rewrite Hl16. change (Z.of_nat 16 =? 16) with true. cbn [negb]. apply wp_ret.
    split; [done|]. exists s2. split; [by eapply fkeep_trans|done]. }
  destruct (proj1 (wp_eq _ _ _) Hwp) as (r & s' & Er & -> & s1 & Hk1 & v' & ss' & F' & Hb' & Hok' & Hsz' & Hc & Hm & _).
  pose proof (inode_of_ic s s1 dp (fk_ic _ _ Hk1)) as E1. fold I in E1. rewrite E1 in *.
  pose proof (fo_size _ _ _ _ (do_file _ _ Hd)) as HsM.
  pose proof (overlay_data g v I v' (inode_of s' dp) src off HsM ltac:(lia) ltac:(rewrite Hl16; lia) Hsz' Hc) as Edata.
  fold data in Edata. rewrite Hl16 in Edata.
  replace (Z.to_nat off) with (16 * free_slot data)%nat in Edata by lia.
  replace (Z.to_nat (off + Z.of_nat 16)) with (16 * free_slot data + 16)%nat in Edata by lia.
  destruct (dir_find_linked data name inum (do_whole _ _ Hd) Hi Hnz Hn Hnone) as (L1 & L2 & L3 & L4).
  fold src in L1, L2, L3, L4. rewrite <- Edata in L1, L2, L3, L4.
  exists s', v', ss'. split_and!; try done. split; [done| |done]. rewrite Hm. simpl. apply (do_type _ _ Hd).
Qed.
(** [iput] right after [iget] takes the reference back and frees nothing: an
    entry that was in use still has references, and a new one is not valid. *)
Lemma iput_undo (s : fsst E) dv inum ip J : ic_lock (ic s) = false -> ic_inode (ic s) !! ip = Some J -> 0 <= i_ref J ->
  iput ip (set_entry ip (iget_entry dv inum J) s) = Ret tt (set_entry ip (set_i_ref (i_ref J) (iget_entry dv inum J)) s).
Proof.
  intros Hl HJ Hr. pose proof (lookup_lt_Some _ _ _ HJ) as Hip. destruct s as [l [lk ins] e]. cbn [ic ic_lock ic_inode] in *. subst lk.
  assert ((i_ref (iget_entry dv inum J) =? 1) && testf (i_flags (iget_entry dv inum J)) I_VALID = false) as Hno.
  { unfold iget_entry. destruct (Z.ltb_spec 0 (i_ref J)); [|done]. cbn [i_ref set_i_ref]. by rewrite (proj2 (Z.eqb_neq (i_ref J + 1) 1)) by lia. }
  assert (i_ref (iget_entry dv inum J) - 1 = i_ref J) as Href.
  { unfold iget_entry. destruct (Z.ltb_spec 0 (i_ref J)); cbn [i_ref set_i_ref]; lia. }
  unfold iput, acquire_icache, release_icache, get_inode, update_inode, bind, gets, modify, set_entry, put_ic, inode_of, ret.
  cbn [ic ic_lock ic_inode]. rewrite list_lookup_total_insert_eq by done. rewrite Hno. cbn [andb ic ic_lock ic_inode].
  rewrite list_lookup_total_insert_eq, list_insert_insert_eq by done. by rewrite Href.
Qed.

Lemma dirlink_exists s v ss dp name inum k (I := inode_of s dp) :
  frep g o s v ss ∅ -> icache_ok s -> dir_ok v I -> dir_find name (file_data g v I) = Some k ->
  (exists j J, ic_inode (ic s) !! j = Some J /\ i_ref J = 0) ->
  exists s', dirlink devsw dp name inum s = Ret (-1) s' /\ frep g o s' v ss ∅ /\
    forall j, i_ref (inode_of s' j) = i_ref (inode_of s j).
Proof.
  intros F Hc Hd Hf (j & J & HJ & Hz). set (n := de_inum (entry (file_data g v I) k)).
  assert (exists j J, ic_inode (ic s) !! j = Some J /\ (caches (g_dev g) n J \/ i_ref J = 0)) as Hslot by eauto.
  destruct (proj1 (wp_eq _ _ _) (dirlookup_some s v ss dp name k F Hc Hd Hf Hslot))
    as (r & s1 & Er & ip & J' & s2 & -> & -> & HJ' & _ & F2 & Hk2). fold I n in Er.
  pose proof (co_ref _ Hc _ _ HJ') as Hr. rewrite <- (fk_ic _ _ Hk2) in HJ'.
  eexists. split; [|split].
  - unfold dirlink, bind at 1. rewrite Er. unfold bind. rewrite (iput_undo s2 (g_dev g) n ip J' (fr_ic _ _ _ _ _ _ F2) HJ' Hr). reflexivity.
  - by apply (frep_with_inode g o s2 v ss ∅ ip).
  - intros j'. unfold inode_of, set_entry. cbn [ic ic_inode put_ic]. rewrite <- (fk_ic _ _ Hk2). pose proof (lookup_lt_Some _ _ _ HJ').
    destruct (decide (ip = j')) as [<-|Hne]; [|by rewrite list_lookup_total_insert_ne].
    rewrite list_lookup_total_insert_eq by done. rewrite (list_lookup_total_correct _ _ _ HJ'). done.
Qed.

(** C14: [dirlink] of a name the directory does not have makes [dirlookup] find
    the new inode number under that name, using the first free entry or
    extending the directory, and changes the result for no other name; the
    directory stays well formed.  When the name is already there it returns
    -1, and neither the disk nor a reference count has changed. *)
Theorem dirlink_adds s v ss dp name inum (I := inode_of s dp) (data := file_data g v I)
    (off := 16 * Z.of_nat (free_slot data)) :
  frep g o s v ss ∅ -> 1 <= o -> bitmap_ok g sb v -> icache_ok s -> dir_ok v I -> (dp < NINODE)%nat ->
  (forall i, is_u8 (name i)) -> is_u16 inum -> inum <> 0 ->
  match dir_find name data with
  | Some _ =>
      (exists j J, ic_inode (ic s) !! j = Some J /\ i_ref J = 0) ->
      exists s', dirlink devsw dp name inum s = Ret (-1) s' /\ frep g o s' v ss ∅ /\
        forall j, i_ref (inode_of s' j) = i_ref (inode_of s j)
  | None =>
      off + 16 <= MAXFILE * BSIZE -> pend sb ss I + nblk off 16 + 1 <= g_size g - 1 ->
      nfree g sb v (Z.to_nat (nblk off 16) + nz (ind I)) ->
      exists s' v' ss', dirlink devsw dp name inum s = Ret 0 s' /\ frep g o s' v' ss' ∅ /\ bitmap_ok g sb v' /\
        dir_ok v' (inode_of s' dp) /\
        let data' := file_data g v' (inode_of s' dp) in
        dir_find name data' = Some (free_slot data) /\ de_inum (entry data' (free_slot data)) = inum /\
        (forall name', (forall i, is_u8 (name' i)) -> cname 14 name' <> cname 14 name ->
           dir_find name' data' = dir_find name' data /\
           forall j, dir_find name' data = Some j -> entry data' j = entry data j)
  end.
Proof.
  intros F Ho Hbits Hc Hd Hdp Hn Hi Hnz. destruct (dir_find name data) as [k|] eqn:Ef.
  - intros Hslot. by apply (dirlink_exists s v ss dp name inum k).
  - intros Hmax Hroom Hfree. by apply (dirlink_new s v ss dp name inum).
Qed.
End dir.
