(* ===== verification/InodeRefs.v ===== *)
(** The inode cache as references to inodes on the disk: fs.c [iget], [idup],
    [ilock], [iunlock] and [iput].

    For callers the cache is a multiset [R] of inode numbers, one for every
    reference, and the set [K] of those that are locked.  An entry in use holds
    an inode of [R] as often as it is referenced, and, once it is valid, what
    the disk says of the inode.  Which entry holds an inode stays the same as
    long as there are references to it. *)

From stdpp Require Import gmultiset.
From S2P Require Import Prelude Params BlockDev Bio Log CString Fs FsSpec FileSpec Dinode FileData Icache FsOps Dir DirSpec.

(** ** Multisets of references *)

Lemma mult_add (n : Z) (R : gmultiset Z) : multiplicity n (R ⊎ {[+ n +]}) = S (multiplicity n R).
Proof. rewrite multiplicity_disj_union, multiplicity_singleton, decide_True by done. lia. Qed.
Lemma mult_add_ne (m n : Z) (R : gmultiset Z) : m <> n -> multiplicity m (R ⊎ {[+ n +]}) = multiplicity m R.
Proof. intros. rewrite multiplicity_disj_union, multiplicity_singleton, decide_False by done. lia. Qed.
Lemma mult_sub (n : Z) (R : gmultiset Z) : multiplicity n (R ∖ {[+ n +]}) = (multiplicity n R - 1)%nat.
Proof. rewrite multiplicity_difference, multiplicity_singleton, decide_True by done. done. Qed.
Lemma mult_sub_ne (m n : Z) (R : gmultiset Z) : m <> n -> multiplicity m (R ∖ {[+ n +]}) = multiplicity m R.
Proof. intros. rewrite multiplicity_difference, multiplicity_singleton, decide_False by done. lia. Qed.

Lemma mult_undo (n : Z) (B : gmultiset Z) : (B ⊎ {[+ n +]}) ∖ {[+ n +]} = B.
Proof. multiset_solver. Qed.
Lemma mult_swap (m n : Z) (B : gmultiset Z) : (B ⊎ {[+ n +]} ⊎ {[+ m +]}) ∖ {[+ n +]} = B ⊎ {[+ m +]}.
Proof. multiset_solver. Qed.

Section refs.
Context `{BlockDev} {E : Type} (g : geom) (Hg : geom_ok g) (o : Z).
Context (sb : superblock) (Hly : layout g sb) (Hone : sb_size sb <= BPB).
Abbreviation FS := (M (fsst E)).

(** The inode on the disk. *)
Definition dino (v : key -> block) (n : Z) : dinode := get_dinode (dinode_off n) (v (gk g (IBLOCK n))).
Definition dnode (v : key -> block) (n : Z) : inode :=
  of_dinode (dino v n) (mkinode (g_dev g) n 1 I_VALID 0 0 0 0 0 []).

(** An inode that has links, so that dropping a reference never frees it. *)
Record live (v : key -> block) (n : Z) : Prop := {
  lv_ok : file_ok g sb v (dnode v n);
  lv_type : d_type (dino v n) <> 0;
  lv_links : d_nlink (dino v n) <> 0
}.

(** A file is its fields on the disk; the count and the flags are the cache's. *)
Lemma file_same v I J : i_dev I = i_dev J -> i_inum I = i_inum J -> to_dinode I = to_dinode J ->
  (file_ok g sb v I -> file_ok g sb v J) /\ file_data g v I = file_data g v J.
Proof.
  destruct I, J. unfold to_dinode. cbn. intros -> -> [= -> -> -> -> -> ->]. split; [|done].
  intros [[] ? ? ? ? ?]. split; [split; assumption|assumption..].
Qed.

Section cache.
Context (v : key -> block) (L : gset Z) (HL : forall n, n ∈ L -> live v n).

Record entry_ok (R : gmultiset Z) (K : gset Z) (I : inode) : Prop := {
  eo_dev : i_dev I = g_dev g;
  eo_live : i_inum I ∈ L;
  eo_ref : i_ref I = Z.of_nat (multiplicity (i_inum I) R);
  eo_busy : testf (i_flags I) I_BUSY = bool_decide (i_inum I ∈ K);
  eo_valid : testf (i_flags I) I_VALID = true -> to_dinode I = dino v (i_inum I);
  eo_locked : i_inum I ∈ K -> testf (i_flags I) I_VALID = true
}.

(** Entry [k] holds inode [n]. *)
Definition at_slot (s : fsst E) (k : nat) (n : Z) : Prop :=
  exists I, ic_inode (ic s) !! k = Some I /\ 0 < i_ref I /\ i_inum I = n.

Record crep (s : fsst E) (R : gmultiset Z) (K : gset Z) : Prop := {
  cr_ref k I : ic_inode (ic s) !! k = Some I -> 0 <= i_ref I;
  cr_in k I : ic_inode (ic s) !! k = Some I -> 0 < i_ref I -> entry_ok R K I;
  cr_at n : n ∈ R -> exists k, at_slot s k n;
  cr_uniq j k n : at_slot s j n -> at_slot s k n -> j = k;
  cr_locked n : n ∈ K -> n ∈ R
}.

Lemma crep_ic (s s' : fsst E) R K : ic s' = ic s -> crep s R K -> crep s' R K.
Proof. unfold at_slot. intros Eic [A1 A2 A3 A4 A5]. split; unfold at_slot in *; rewrite ?Eic; try done. Qed.

Lemma at_slot_ic (s s' : fsst E) k n : ic s' = ic s -> at_slot s k n -> at_slot s' k n.
Proof. unfold at_slot. by intros ->. Qed.

Lemma crep_icache_ok s ss R K : frep g o s v ss ∅ -> crep s R K -> icache_ok s.
Proof.
  intros F [A1 A2 A3 A4 A5]. split; [apply F|apply F|exact A1|].
  intros i j I J HI HJ Hr (Hr' & _ & En). apply (A4 i j (i_inum I)); eexists; eauto.
Qed.

Lemma at_slot_in s R K k n : crep s R K -> at_slot s k n -> n ∈ L /\ n ∈ R.
Proof.
  intros C (I & HI & Hr & <-). destruct (cr_in _ _ _ C k I HI Hr) as [_ B2 B3 _ _ _].
  split; [done|]. apply elem_of_multiplicity. lia.
Qed.

(** Handles stay valid as long as there are references. *)
Definition slots_kept (s s' : fsst E) (R' : gmultiset Z) : Prop :=
  forall j m, at_slot s j m -> m ∈ R' -> at_slot s' j m.

(** Every operation changes one entry, and what is known of one inode. *)
Lemma crep_set s R K k I I' R' K' (n := i_inum I') :
  crep s R K -> ic_inode (ic s) !! k = Some I ->
  (0 < i_ref I /\ i_inum I = n \/ i_ref I = 0 /\ n ∉ R) ->
  0 <= i_ref I' -> (0 < i_ref I' -> entry_ok R' K' I') -> (n ∈ R' -> 0 < i_ref I') ->
  (n ∈ K' -> n ∈ R') ->
  (forall m, m <> n -> multiplicity m R' = multiplicity m R) -> (forall m, m <> n -> (m ∈ K' <-> m ∈ K)) ->
  crep (set_entry k I' s) R' K' /\ slots_kept s (set_entry k I' s) R' /\ (0 < i_ref I' -> at_slot (set_entry k I' s) k n).
Proof.
  intros [A1 A2 A3 A4 A5] Hk HI Hr' Hok Hn Hl HR HK.
  pose proof (lookup_lt_Some _ _ _ Hk) as Hlen.
  assert (forall j, j <> k -> ic_inode (ic (set_entry k I' s)) !! j = ic_inode (ic s) !! j) as Hne.
  { intros j Hj. cbn. by apply list_lookup_insert_ne. }
  assert (ic_inode (ic (set_entry k I' s)) !! k = Some I') as Heq by (cbn; by apply list_lookup_insert_eq).
  assert (forall j m, j <> k -> at_slot (set_entry k I' s) j m <-> at_slot s j m) as Hat.
  { intros j m Hj. unfold at_slot. by rewrite Hne. }
  assert (forall j m, j <> k -> at_slot s j m -> m <> n) as Hother.
  { intros j m Hj Hs ->. destruct HI as [[HI1 HI2]|[_ HnR]].
    - apply Hj, (A4 j k n); [done|]. by exists I.
    - destruct Hs as (J & HJ & HrJ & EJ). destruct (A2 j J HJ HrJ) as [_ _ Er _ _ _].
      apply HnR. rewrite EJ in Er. apply elem_of_multiplicity. lia. }
  split; [split|split].
  - intros j J HJ. destruct (decide (j = k)) as [->|Hj]; [by simplify_eq|]. rewrite Hne in HJ by done. eauto.
  - intros j J HJ HrJ. destruct (decide (j = k)) as [->|Hj]; [simplify_eq; auto|]. rewrite Hne in HJ by done.
    assert (i_inum J <> n) as HJn by (apply (Hother j); [done|by exists J]).
    destruct (A2 j J HJ HrJ) as [B1 B2 B3 B4 B5 B6]. split; try done.
    + by rewrite HR.
    + rewrite B4. apply bool_decide_ext. symmetry. by apply HK.
    + intros HKJ. apply B6. by apply HK.
  - intros m Hm. destruct (decide (m = n)) as [->|Hmn]; [exists k, I'; auto|].
    destruct (A3 m) as [j Hj]; [rewrite elem_of_multiplicity in *; by rewrite <- HR|]. exists j.
    apply Hat; [|done]. intros ->. destruct Hj as (J & HJ & HrJ & EJ). simplify_eq. destruct HI as [[_ ?]|[? _]]; [done|lia].
  - intros j1 j2 m H1 H2. destruct (decide (j1 = k)) as [->|N1], (decide (j2 = k)) as [->|N2]; [done| | |].
    + apply Hat in H2; [|done]. exfalso. apply (Hother _ _ N2 H2). destruct H1 as (J & HJ & _ & <-). by simplify_eq.
    + apply Hat in H1; [|done]. exfalso. apply (Hother _ _ N1 H1). destruct H2 as (J & HJ & _ & <-). by simplify_eq.
    + apply (A4 _ _ m); by apply Hat.
  - intros m Hm. destruct (decide (m = n)) as [->|Hmn]; [auto|].
    rewrite elem_of_multiplicity, HR by done. apply elem_of_multiplicity, A5. by apply HK.
  - intros j m Hs Hm. destruct (decide (j = k)) as [->|Hj]; [|by apply Hat].
    destruct Hs as (J & HJ & HrJ & EJ). simplify_eq. destruct HI as [[_ EI]|[? _]]; [|lia].
    exists I'. rewrite EI in *. auto.
  - intros Hpos. by exists I'.
Qed.

(** What every operation leaves: the new references and locks, and the rest of
    the state. *)
Definition refs_post (s : fsst E) (ss : list Z) (R' : gmultiset Z) (K' : gset Z) (s' : fsst E) : Prop :=
  frep g o s' v ss ∅ /\ crep s' R' K' /\ slots_kept s s' R' /\ ext s' = ext s.

Lemma free_entry s ss R K : frep g o s v ss ∅ -> crep s R K -> (size (dom R) < NINODE)%nat ->
  exists k I, ic_inode (ic s) !! k = Some I /\ i_ref I = 0.
Proof.
  intros F C Hs. destruct (decide (Exists (fun I => i_ref I = 0) (ic_inode (ic s)))) as [Hex|Hno].
  { apply Exists_exists in Hex as (I & Hin & Hz). apply list_elem_of_lookup in Hin as [k Hk]. eauto. }
  exfalso. apply not_Exists_Forall in Hno; [|apply _]. rewrite Forall_lookup in Hno.
  assert (forall k I, ic_inode (ic s) !! k = Some I -> 0 < i_ref I) as Hpos.
  { intros k I HI. pose proof (cr_ref _ _ _ C k I HI). pose proof (Hno k I HI) as Hz. cbn in Hz. lia. }
  assert (NoDup (i_inum <$> ic_inode (ic s))) as Hnd.
  { apply NoDup_alt. intros i j n Hi Hj. rewrite list_lookup_fmap in Hi, Hj.
    apply fmap_Some in Hi as (I & HI & ->), Hj as (J & HJ & En). apply (cr_uniq _ _ _ C i j (i_inum I)); eexists; eauto. }
  assert (list_to_set (i_inum <$> ic_inode (ic s)) ⊆ dom R) as Hsub.
  { intros n. rewrite elem_of_list_to_set, list_elem_of_fmap. intros (I & -> & Hin).
    apply list_elem_of_lookup in Hin as [k Hk]. destruct (cr_in _ _ _ C k I Hk (Hpos k I Hk)) as [_ _ Er _ _ _].
    pose proof (Hpos k I Hk). apply gmultiset_elem_of_dom, elem_of_multiplicity. lia. }
  apply subseteq_size in Hsub. rewrite size_list_to_set, length_fmap in Hsub by done.
  rewrite (fr_len _ _ _ _ _ _ F) in Hsub. lia.
Qed.

(** The entry [iget] returns. *)
Lemma iget_entry_refs s ss R K n k I : frep g o s v ss ∅ -> crep s R K -> n ∈ L -> ic_inode (ic s) !! k = Some I ->
  (caches (g_dev g) n I \/ i_ref I = 0 /\ Forall (fun J => ~ caches (g_dev g) n J) (ic_inode (ic s))) ->
  let s' := set_entry k (iget_entry (g_dev g) n I) s in refs_post s ss (R ⊎ {[+ n +]}) K s' /\ at_slot s' k n.
Proof.
  intros F C Hn HI Hc.
  assert (i_inum (iget_entry (g_dev g) n I) = n) as En.
  { unfold iget_entry. destruct (Z.ltb_spec 0 (i_ref I)); [|done]. destruct Hc as [(_ & _ & ?)|[? _]]; [done|lia]. }
  assert (0 < i_ref I /\ i_inum I = n \/ i_ref I = 0 /\ n ∉ R) as HI'.
  { destruct Hc as [(H1 & _ & H3)|[Hz Hf]]; [by left|right]. split; [done|]. intros Hin.
    destruct (cr_at _ _ _ C n Hin) as (j & J & HJ & Hpos & EJ). rewrite Forall_lookup in Hf. apply (Hf j J HJ).
    split_and!; [done|apply (cr_in _ _ _ C j J HJ Hpos)|done]. }
  assert (0 < i_ref (iget_entry (g_dev g) n I)) as Hpos.
  { unfold iget_entry. destruct (Z.ltb_spec 0 (i_ref I)); cbn; lia. }
  destruct (crep_set s R K k I (iget_entry (g_dev g) n I) (R ⊎ {[+ n +]}) K C HI) as (C' & Hk & Hat); rewrite ?En; try done; try lia.
  - intros _. destruct HI' as [[Hr0 E0]|[Hz Hno]]; unfold iget_entry.
    + rewrite (proj2 (Z.ltb_lt _ _) Hr0). destruct (cr_in _ _ _ C k I HI Hr0) as [B1 B2 B3 B4 B5 B6].
      split; try done. cbn [i_ref i_inum set_i_ref]. rewrite B3, E0, mult_add. lia.
    + rewrite Hz. cbn [Z.ltb Z.compare]. split; cbn [i_dev i_inum i_ref i_flags]; try done.
      * rewrite mult_add. assert (multiplicity n R = 0%nat) as -> by (rewrite elem_of_multiplicity in Hno; lia). done.
      * symmetry. apply bool_decide_eq_false. intros HK. by apply Hno, (cr_locked _ _ _ C).
      * intros HK. exfalso. by apply Hno, (cr_locked _ _ _ C).
  - multiset_solver.
  - intros m Hm. by apply mult_add_ne.
  - split; [|by rewrite En in Hat; apply Hat]. split_and!; [by apply (frep_with_inode g o s v ss ∅ k)|done|done|done].
Qed.

(** There is an entry for inode [n]: it is cached, or not all are in use. *)
Lemma iget_room s ss R K n : frep g o s v ss ∅ -> crep s R K -> (n ∈ R \/ size (dom R) < NINODE)%nat ->
  exists k I, ic_inode (ic s) !! k = Some I /\ (caches (g_dev g) n I \/ i_ref I = 0).
Proof.
  intros F C [Hr|Hr]; [|destruct (free_entry s ss R K F C Hr) as (k & I & ? & ?); eauto].
  destruct (cr_at _ _ _ C n Hr) as (k & I & HI & Hpos & En). exists k, I. split; [done|left].
  split_and!; [done|apply (cr_in _ _ _ C k I HI Hpos)|done].
Qed.

Lemma iget_refs s ss R K n : frep g o s v ss ∅ -> crep s R K -> n ∈ L -> (n ∈ R \/ size (dom R) < NINODE)%nat ->
  wp (iget (g_dev g) n) s (fun k s' => refs_post s ss (R ⊎ {[+ n +]}) K s' /\ at_slot s' k n).
Proof.
  intros F C Hn Hroom.
  destruct (iget_spec s (g_dev g) n (crep_icache_ok _ _ _ _ F C) (iget_room s ss R K n F C Hroom)) as (k & I & Er & HI & Hc).
  eapply wp_of_eq; [exact Er|]. by apply iget_entry_refs.
Qed.

Lemma at_slot_inode s k n : at_slot s k n -> ic_inode (ic s) !! k = Some (inode_of s k) /\ 0 < i_ref (inode_of s k) /\ i_inum (inode_of s k) = n.
Proof. intros (I & HI & Hr & En). unfold inode_of. by rewrite (list_lookup_total_correct _ _ _ HI). Qed.

Lemma at_slot_lt s ss k n : frep g o s v ss ∅ -> at_slot s k n -> (k < NINODE)%nat.
Proof. intros F (I & HI & _). rewrite <- (fr_len _ _ _ _ _ _ F). by eapply lookup_lt_Some. Qed.

(** One entry updated under the cache's lock. *)
Lemma wp_icache_update {A} s ss ip f (k : FS A) (Q : A -> fsst E -> Prop) : frep g o s v ss ∅ -> (ip < NINODE)%nat ->
  wp k (set_entry ip (f (inode_of s ip)) s) Q ->
  wp (acquire_icache ;; update_inode ip f ;; release_icache ;; k) s Q.
Proof.
  intros F Hip Hk. pose proof (fr_ic _ _ _ _ _ _ F) as Hlk. unfold acquire_icache, release_icache.
  apply wp_bind, wp_bind, wp_gets. rewrite Hlk. apply wp_modify, wp_bind, wp_modify.
  apply wp_bind, wp_bind, wp_gets. cbn [put_ic ic ic_lock]. apply wp_modify.
  change (inode_of (put_ic (mkicache true (ic_inode (ic s))) s) ip) with (inode_of s ip).
  unfold set_entry in Hk. rewrite Hlk in Hk. exact Hk.
Qed.

Lemma frep_set_entry (s : fsst E) ss k I : frep g o s v ss ∅ -> frep g o (set_entry k I s) v ss ∅.
Proof. apply frep_with_inode. Qed.

Lemma idup_refs s ss R K ip n : frep g o s v ss ∅ -> crep s R K -> at_slot s ip n ->
  wp (idup ip) s (fun k s' => k = ip /\ refs_post s ss (R ⊎ {[+ n +]}) K s' /\ at_slot s' ip n).
Proof.
  intros F C Hat. destruct (at_slot_inode _ _ _ Hat) as (HI & Hr & En).
  apply (wp_icache_update s ss ip); [done|by eapply at_slot_lt|]. set (I := inode_of s ip) in *.
  destruct (cr_in _ _ _ C ip I HI Hr) as [B1 B2 B3 B4 B5 B6].
  destruct (crep_set s R K ip I (set_i_ref (i_ref I + 1) I) (R ⊎ {[+ n +]}) K C HI) as (C' & Hk & Hat');
    cbn [i_inum set_i_ref i_ref]; rewrite ?En; try done; try lia.
  - intros _. split; try done. cbn [i_ref set_i_ref i_inum]. rewrite B3, En, mult_add. lia.
  - multiset_solver.
  - intros m Hm. by apply mult_add_ne.
  - apply wp_ret. cbn [i_inum set_i_ref i_ref] in Hat'. rewrite En in Hat'. split; [done|]. split; [|apply Hat'; lia].
    split_and!; [by apply frep_set_entry|done|done|done].
Qed.

(** [iput] of an inode with links only drops the reference. *)
Lemma iput_refs s ss R K ip n : frep g o s v ss ∅ -> crep s R K -> at_slot s ip n -> n ∉ K ->
  wp (iput ip) s (fun _ s' => refs_post s ss (R ∖ {[+ n +]}) K s').
Proof.
  intros F C Hat HK. destruct (at_slot_inode _ _ _ Hat) as (HI & Hr & En).
  pose proof (at_slot_lt s ss ip n F Hat) as Hip. pose proof (fr_ic _ _ _ _ _ _ F) as Hlk.
  destruct (cr_in _ _ _ C ip (inode_of s ip) HI Hr) as [B1 B2 B3 B4 B5 B6].
  unfold iput. unfold acquire_icache at 1.
  apply wp_bind, wp_bind, wp_gets. rewrite Hlk. apply wp_modify, wp_bind, wp_gets.
  change (inode_of (put_ic (mkicache true (ic_inode (ic s))) s) ip) with (inode_of s ip).
  assert ((i_ref (inode_of s ip) =? 1) && testf (i_flags (inode_of s ip)) I_VALID && (i_nlink (inode_of s ip) =? 0) = false) as ->.
  { destruct (testf (i_flags (inode_of s ip)) I_VALID) eqn:Hv; [|by rewrite andb_false_r]. rewrite andb_true_r.
    apply andb_false_iff. right. apply Z.eqb_neq. pose proof (lv_links _ _ (HL _ B2)) as Hl.
    rewrite <- (B5 eq_refl) in Hl. exact Hl. }
  apply wp_bind, wp_ret, wp_bind, wp_modify. unfold release_icache. apply wp_bind, wp_gets. cbn [put_ic ic ic_lock]. apply wp_modify.
  change (refs_post s ss (R ∖ {[+ n +]}) K
    (put_ic (mkicache false (<[ip := set_i_ref (i_ref (inode_of s ip) - 1) (inode_of s ip)]> (ic_inode (ic s)))) s)).
  rewrite <- Hlk. set (I := inode_of s ip) in *.
  destruct (crep_set s R K ip I (set_i_ref (i_ref I - 1) I) (R ∖ {[+ n +]}) K C HI) as (C' & Hk & _);
    cbn [i_inum set_i_ref i_ref]; rewrite ?En; try done; try lia.
  - intros Hpos. split; try done. cbn [i_ref set_i_ref i_inum]. rewrite En in B3 |- *. rewrite mult_sub. lia.
  - rewrite En in B3. rewrite elem_of_multiplicity, mult_sub. lia.
  - intros m Hm. by apply mult_sub_ne.
  - split_and!; [by apply (frep_set_entry s ss ip)|done|done|done].
Qed.

(** An operation that changes one entry's fields, its number and count apart. *)
Lemma crep_update s s' ss R K ip n I' K' (I := inode_of s ip) : frep g o s' v ss ∅ -> crep s R K -> at_slot s ip n ->
  ic s' = ic (set_entry ip I' s) -> ext s' = ext s -> i_inum I' = i_inum I -> i_ref I' = i_ref I ->
  entry_ok R K' I' -> (forall m, m <> n -> (m ∈ K' <-> m ∈ K)) ->
  refs_post s ss R K' s' /\ at_slot s' ip n.
Proof.
  intros F' C Hat Hic Hext Ei Er Hok HK. destruct (at_slot_inode _ _ _ Hat) as (HI & Hr & En). fold I in HI, Hr, En.
  destruct (crep_set s R K ip I I' R K' C HI) as (C' & Hk & Hat'); rewrite ?Ei, ?Er, ?En; try done; try lia.
  - intros _. destruct (cr_in _ _ _ C ip I HI Hr) as [_ _ B3 _ _ _]. rewrite En in B3. apply elem_of_multiplicity. lia.
  - split; [|apply (at_slot_ic (set_entry ip I' s)); [done|]; rewrite Ei, En, Er in Hat'; auto].
    split_and!; [done|by eapply crep_ic|intros j m H1 H2; eapply at_slot_ic; eauto|done].
Qed.

Lemma iunlock_refs s ss R K ip n : frep g o s v ss ∅ -> crep s R K -> at_slot s ip n -> n ∈ K ->
  wp (iunlock ip) s (fun _ s' => refs_post s ss R (K ∖ {[n]}) s' /\ at_slot s' ip n).
Proof.
  intros F C Hat HK. destruct (at_slot_inode _ _ _ Hat) as (HI & Hr & En).
  destruct (cr_in _ _ _ C ip _ HI Hr) as [B1 B2 B3 B4 B5 B6]. rewrite En, bool_decide_eq_true_2 in B4 by done.
  eapply wp_conseq; [apply (iunlock_fs g o s v ss ip F); [by eapply at_slot_lt|lia|done]|].
  intros _ s' (F' & Hext & EI & Hic). eapply (crep_update s s' ss R K); try done; [|set_solver].
  split; try done; cbn [i_flags i_inum set_i_flags].
  - rewrite testf_clear_same. symmetry. apply bool_decide_eq_false. set_solver.
  - rewrite testf_clear_other by done. exact B5.
  - set_solver.
Qed.

(** What is known of a locked inode. *)
Record locked (n : Z) (I : inode) : Prop := {
  lk_dinode : to_dinode I = dino v n;
  lk_dev : i_dev I = g_dev g;
  lk_inum : i_inum I = n;
  lk_ok : file_ok g sb v I;
  lk_data : file_data g v I = file_data g v (dnode v n)
}.

Lemma locked_inode s R K ip n : crep s R K -> at_slot s ip n -> n ∈ K -> locked n (inode_of s ip).
Proof.
  intros C Hat HK. destruct (at_slot_inode _ _ _ Hat) as (HI & Hr & En). set (I := inode_of s ip) in *.
  destruct (cr_in _ _ _ C ip _ HI Hr) as [B1 B2 B3 B4 B5 B6]. rewrite En in *.
  pose proof (B5 (B6 HK)) as Ed. destruct (file_same v (dnode v n) I) as [H1 H2]; try done.
  split; try done. apply H1, (lv_ok _ _ (HL _ B2)).
Qed.

(** [ilock] of an inode that is not valid reads it from the disk. *)
Definition loaded (n : Z) (I : inode) : inode :=
  set_i_flags (Z.lor (Z.lor (i_flags I) I_BUSY) I_VALID) (of_dinode (dino v n) I).

Lemma ilock_load (s : fsst E) ss ip n (I := inode_of s ip) : frep g o s v ss ∅ -> (ip < NINODE)%nat -> 0 < i_ref I -> i_dev I = g_dev g ->
  i_inum I = n -> n ∈ L -> testf (i_flags I) I_BUSY = false -> testf (i_flags I) I_VALID = false ->
  wp (ilock ip) s (fun _ s' => frep g o s' v ss ∅ /\ ext s' = ext s /\ ic s' = ic (set_entry ip (loaded n I) s)).
Proof.
  intros F Hip Hr Hd En Hn Hb Hv. pose proof (fr_len _ _ _ _ _ _ F) as Hlen.
  pose proof (fo_inum _ _ _ _ (lv_ok _ _ (HL n Hn))) as Hrange. change (i_inum (dnode v n)) with n in Hrange.
  pose proof (fr_ic _ _ _ _ _ _ F) as Hlk. set (I1 := set_i_flags (Z.lor (i_flags I) I_BUSY) I).
  unfold ilock. apply wp_bind, wp_gets. fold I. rewrite (proj2 (Z.ltb_ge _ _)) by lia.
  unfold acquire_icache, release_icache. apply wp_bind, wp_bind, wp_gets. rewrite Hlk. apply wp_modify, wp_bind, wp_gets.
  change (inode_of (put_ic (mkicache true (ic_inode (ic s))) s) ip) with I. rewrite Hb.
  apply wp_bind, wp_modify, wp_bind, wp_bind, wp_gets. cbn [put_ic ic ic_lock]. apply wp_modify.
  match goal with |- wp _ ?st _ => replace st with (set_entry ip I1 s) by (unfold set_entry; rewrite Hlk; done) end.
  assert (inode_of (set_entry ip I1 s) ip = I1) as EI1 by (apply list_lookup_total_insert_eq; lia).
  apply wp_bind, wp_gets. rewrite EI1. change (i_dev I1) with (i_dev I). change (i_inum I1) with (i_inum I). rewrite Hd, En.
  assert (testf (i_flags I1) I_VALID = false) as -> by (cbn [I1 i_flags set_i_flags]; by rewrite testf_lor, Hv). cbn [negb when].
  pose proof (frep_set_entry s ss ip I1 F) as F1.
  destruct (IBLOCK_ok g sb Hly n ltac:(lia)) as [HB _]. pose proof (ly_data _ _ Hly) as Hdata.
  assert (avail g ss ∅ (IBLOCK n)) as Hav.
  { pose proof (cap_29 g Hg). pose proof (lr_room _ _ _ _ _ (fr_log _ _ _ _ _ _ F)) as Hroom.
    destruct (home_below g Hg sb Hly (IBLOCK n)) as [? ? Hon]; [lia|].
    split_and!; [set_solver|done|right]. rewrite size_empty. unfold NBUF. lia. }
  eapply wp_seq; [exact (bread_fs g Hg o _ v ss ∅ (IBLOCK n) F1 Hav)|]. intros bp s2 (F2 & Hh2 & [Hic2 Hext2 _] & Hcl2).
  apply wp_bind. eapply read_data_fs; [exact F2|exact Hh2|]. apply wp_bind, wp_update_inode.
  rewrite (inode_of_ic _ _ ip Hic2), EI1. fold (dino v n). set (s3 := with_inode ip (of_dinode (dino v n) I1) s2).
  assert (frep g o s3 v ss ({[gk g (IBLOCK n)]} ∪ ∅)) as F3 by (by apply frep_with_inode).
  eapply wp_seq; [exact (brelse_fs g o s3 v ss _ bp _ F3 Hh2 Hcl2)|]. intros _ s4 (F4 & Hic4 & Hext4 & _).
  replace (({[gk g (IBLOCK n)]} ∪ ∅) ∖ {[gk g (IBLOCK n)]}) with (∅ : gset key) in F4 by set_solver.
  assert (inode_of s4 ip = of_dinode (dino v n) I1) as EI4.
  { rewrite (inode_of_ic _ _ ip Hic4). apply list_lookup_total_insert_eq. rewrite Hic2. cbn. rewrite length_insert. lia. }
  apply wp_bind, wp_update_inode. rewrite EI4. fold (loaded n I). set (s5 := with_inode ip _ s4).
  apply wp_bind, wp_gets. 
  assert (ic s5 = ic (set_entry ip (loaded n I) s)) as Hic5.
  { cbn. rewrite Hic4. cbn. rewrite Hic2. cbn. by rewrite !list_insert_insert_eq. }
  assert (i_type (inode_of s5 ip) = d_type (dino v n)) as ->.
  { unfold inode_of. rewrite Hic5. cbn. by rewrite list_lookup_total_insert_eq by lia. }
  rewrite (proj2 (Z.eqb_neq _ _) (lv_type _ _ (HL n Hn))). apply wp_ret.
  split_and!; [by apply frep_with_inode| |done]. cbn. rewrite Hext4. exact Hext2.
Qed.

(** [ilock] reads the inode unless it is valid already. *)
Lemma ilock_refs s ss R K ip n : frep g o s v ss ∅ -> crep s R K -> at_slot s ip n -> n ∉ K ->
  wp (ilock ip) s (fun _ s' => refs_post s ss R ({[n]} ∪ K) s' /\ at_slot s' ip n /\ locked n (inode_of s' ip)).
Proof.
  intros F C Hat HK. destruct (at_slot_inode _ _ _ Hat) as (HI & Hr & En).
  pose proof (at_slot_lt s ss ip n F Hat) as Hip.
  destruct (cr_in _ _ _ C ip _ HI Hr) as [B1 B2 B3 B4 B5 B6]. rewrite En in *. rewrite bool_decide_eq_false_2 in B4 by done.
  assert (forall s', refs_post s ss R ({[n]} ∪ K) s' /\ at_slot s' ip n ->
    refs_post s ss R ({[n]} ∪ K) s' /\ at_slot s' ip n /\ locked n (inode_of s' ip)) as Hlocked.
  { intros s' [Hp Ha]. split_and!; try done. destruct Hp as (_ & C' & _). eapply locked_inode; [done|done|set_solver]. }
  destruct (testf (i_flags (inode_of s ip)) I_VALID) eqn:Hv.
  - eapply wp_conseq; [apply (ilock_fs g o s v ss ip F); try done; lia|]. intros _ s' ->. apply Hlocked.
    eapply (crep_update s _ ss R K); try done; [by apply frep_with_inode| |set_solver].
    split; cbn [i_flags i_inum set_i_flags i_dev i_ref]; rewrite ?En; try done.
    + rewrite testf_lock. symmetry. apply bool_decide_eq_true. set_solver.
    + intros _. by apply B5.
    + intros _. by rewrite testf_lor, Hv.
  - eapply wp_conseq; [by apply (ilock_load s ss ip n)|]. intros _ s' (F' & Hext & Hic). apply Hlocked.
    eapply (crep_update s s' ss R K); try done; [|set_solver].
    split; unfold loaded; cbn [i_flags i_inum set_i_flags i_dev i_ref of_dinode]; rewrite ?En; try done.
    + rewrite testf_lor, testf_lock. symmetry. apply bool_decide_eq_true. set_solver.
    + intros _. rewrite testf_lor. apply orb_true_iff. by right.
Qed.
End cache.
End refs.
