(* ===== verification/Namei.v ===== *)
(** Path names: fs.c [namex], [namei] and [nameiparent] follow a path in the
    tree of directories on the disk.

    A path is the list of its elements.  [walk] looks them up, one after the
    other, in the directories on the disk; it is what [namex] does through the
    inode cache and the buffer cache, taking a reference to the inode it finds
    and dropping the ones to the directories it passes. *)

From stdpp Require Import gmultiset.
From S2P Require Import Prelude Params BlockDev Bio Log CString Fs FsSpec FileSpec Dinode FileData Icache FsOps Dir DirSpec InodeRefs.

(** ** The elements of a path *)

(** The names between the slashes, each cut off after DIRSIZ bytes; [cur] is
    the name being read. *)
Definition flush (cur : list Z) (rest : list (list Z)) : list (list Z) :=
  match cur with [] => rest | _ => take (Z.to_nat DIRSIZ) cur :: rest end.
Fixpoint elems_from (cur path : list Z) : list (list Z) :=
  match path with
  | [] => flush cur []
  | c :: p =>
      if c =? 0 then flush cur []
      else if c =? 47 then flush cur (elems_from [] p)
      else elems_from (cur ++ [c]) p
  end.
Definition elems (path : list Z) : list (list Z) := elems_from [] path.

Lemma elems_slashes pre path : Forall (fun c => c = 47) pre -> elems (pre ++ path) = elems path.
Proof. induction 1 as [|c pre -> _ IH]; [done|]. exact IH. Qed.

Lemma elems_end path : peek path = 0 -> elems path = [].
Proof. destruct path as [|c p]; [done|]. intros Hc. cbn in Hc. by subst c. Qed.

Lemma elems_name cur s mid path : Forall (fun c => c <> 47 /\ c <> 0) s -> Forall (fun c => c = 47) mid ->
  cur ++ s <> [] -> peek (mid ++ path) = 47 \/ peek (mid ++ path) = 0 -> (mid = [] -> elems path = []) ->
  elems_from cur (s ++ mid ++ path) = take (Z.to_nat DIRSIZ) (cur ++ s) :: elems path.
Proof.
  intros Hs Hmid. revert cur. induction Hs as [|c s [N1 N2] Hs IH]; intros cur Hne Hp Hz; cbn [app].
  - rewrite app_nil_r in *. assert (forall l, flush cur l = take (Z.to_nat DIRSIZ) cur :: l) as Hf by (by destruct cur).
    destruct Hmid as [|c mid -> Hmid]; cbn [app elems_from].
    + rewrite Hz by done. destruct path as [|c p]; cbn [elems_from]; [apply Hf|].
      destruct (Z.eqb_spec c 0); [apply Hf|]. destruct (Z.eqb_spec c 47) as [->|]; [|cbn in Hp; lia].
      rewrite Hf. f_equal. by apply Hz.
    + cbn [Z.eqb Pos.eqb]. rewrite Hf. f_equal. by apply elems_slashes.
  - cbn [elems_from]. rewrite (proj2 (Z.eqb_neq _ _) N2), (proj2 (Z.eqb_neq _ _) N1).
    rewrite IH, <- app_assoc; try done. by destruct cur.
Qed.

Lemma elems_from_ne cur path : cur <> [] -> elems_from cur path <> [].
Proof.
  revert cur. induction path as [|c p IH]; intros cur Hc; cbn [elems_from]; [by destruct cur|].
  destruct (c =? 0); [by destruct cur|]. destruct (c =? 47); [by destruct cur|]. apply IH. by destruct cur.
Qed.

Lemma elems_empty path : peek path <> 47 -> (peek path = 0 <-> elems path = []).
Proof.
  intros Hs. split; [apply elems_end|]. destruct path as [|c p]; [done|]. cbn in *. unfold elems. cbn [elems_from].
  destruct (Z.eqb_spec c 0); [done|]. rewrite (proj2 (Z.eqb_neq _ _) Hs). intros He. by apply elems_from_ne in He.
Qed.

(** [skipelem] takes the first element off. *)
Lemma skipelem_elems path name : length name = Z.to_nat DIRSIZ ->
  match skipelem path name with
  | None => elems path = []
  | Some (rest, name') => exists e, elems path = e :: elems rest /\ (length rest < length path)%nat /\
      length name' = Z.to_nat DIRSIZ /\ cname (Z.to_nat DIRSIZ) (at_list name') = e /\ (peek rest = 0 <-> elems rest = [])
  end.
Proof.
  intros Hl. pose proof (skipelem_spec path name Hl) as Hs. destruct (skipelem path name) as [[rest name']|].
  - destruct Hs as (pre & w & mid & -> & Hpre & Hw & Hne & Hmid & Hr & Hp & Hl' & Hn). exists (take (Z.to_nat DIRSIZ) w).
    pose proof (elems_empty rest Hr) as He. split_and!; try done.
    + rewrite elems_slashes by done. apply (elems_name [] w mid rest); try done.
      intros ->. apply He. by destruct Hp.
    + rewrite !length_app. destruct w; [done|]. cbn [length]. lia.
  - destruct (skip_slashes_split path) as [n Ep]. rewrite Ep, elems_slashes by (by apply Forall_replicate). by apply elems_end.
Qed.

(** ** Looking names up on the disk *)

Lemma strncmp_cname n : forall p p' q, cname n p = cname n p' -> Kstring.strncmp p q n = Kstring.strncmp p' q n.
Proof.
  induction n as [|n IH]; intros p p' q Hc; [done|]. cbn [cname Kstring.strncmp] in *.
  destruct (Z.eqb_spec (p 0%nat) 0) as [E|E], (Z.eqb_spec (p' 0%nat) 0) as [E'|E']; try done; cbn [negb andb].
  - by rewrite E, E'.
  - injection Hc as Eh Et. rewrite <- Eh. destruct (p 0%nat =? q 0%nat); [|done]. by apply IH.
Qed.

Lemma dir_find_cname name name' data : cname (Z.to_nat DIRSIZ) name = cname (Z.to_nat DIRSIZ) name' ->
  dir_find name data = dir_find name' data.
Proof.
  intros Hc. unfold dir_find. generalize 0%nat. induction (n_entries data) as [|n IH]; intros k; [done|]. cbn [first_entry].
  unfold is_entry at 1 3. unfold namecmp. rewrite (strncmp_cname _ _ _ _ Hc). by rewrite IH.
Qed.

Lemma cname_at_list n (e : list Z) : Forall (fun c => c <> 0) e -> (length e <= n)%nat -> cname n (at_list e) = e.
Proof.
  intros He Hl. rewrite <- (app_nil_r e) at 1. apply cname_app; [done|done|by right].
Qed.

Section walk.
Context (g : geom).

(** The inode number of entry [name] of directory [n]. *)
Definition child (v : key -> block) (n : Z) (name : list Z) : option Z :=
  let data := file_data g v (dnode g v n) in
  match dir_find (at_list name) data with
  | Some k => Some (de_inum (entry data k))
  | None => None
  end.

(** The inode the path leads to from [n], or, for [parent], the directory that
    its last element names an entry of. *)
Fixpoint walk (v : key -> block) (parent : bool) (n : Z) (es : list (list Z)) : option Z :=
  match es with
  | [] => if parent then None else Some n
  | e :: es' =>
      if negb (d_type (dino g v n) =? T_DIR) then None
      else if parent && bool_decide (es' = []) then Some n
      else match child v n e with
           | Some m => walk v parent m es'
           | None => None
           end
  end.
End walk.

(** A set of inodes of a file system that is closed under looking up names. *)
Record tree_ok (g : geom) (sb : superblock) (v : key -> block) (L : gset Z) : Prop := {
  to_live n : n ∈ L -> live g sb v n;
  to_dir n : n ∈ L -> d_type (dino g v n) = T_DIR -> dir_ok g sb v (dnode g v n);
  to_child n name m : n ∈ L -> d_type (dino g v n) = T_DIR -> child g v n name = Some m -> m ∈ L
}.

(** Two views of the disk that agree outside the log have the same tree. *)
Section agree_tree.
Context `{BlockDev} (g : geom) (Hg : geom_ok g) (sb : superblock) (Hly : layout g sb).
Context (v v' : key -> block) (Hv : agree g v v') (L : gset Z) (HT : tree_ok g sb v L).

Lemma agree_dino n : n ∈ L -> dino g v' n = dino g v n.
Proof.
  intros Hn. destruct (fo_inum _ _ _ _ (lv_ok _ _ _ _ (to_live _ _ _ _ HT n Hn))) as [H1 H2]. cbn in H1, H2.
  unfold dino. rewrite Hv; [done|]. destruct (IBLOCK_ok g sb Hly n) as [? _]; [lia|]. destruct Hly. lia.
Qed.
Lemma agree_dnode n : n ∈ L -> dnode g v' n = dnode g v n.
Proof. intros Hn. unfold dnode. by rewrite agree_dino. Qed.
Lemma agree_data n : n ∈ L -> file_data g v' (dnode g v' n) = file_data g v (dnode g v n).
Proof. intros Hn. rewrite agree_dnode by done. apply (agree_file_data g sb Hly); [done|]. apply (to_live _ _ _ _ HT n Hn). Qed.
Lemma agree_child n name : n ∈ L -> child g v' n name = child g v n name.
Proof. intros Hn. unfold child. by rewrite agree_data. Qed.

Lemma tree_ok_agree : tree_ok g sb v' L.
Proof.
  split.
  - intros n Hn. destruct (to_live _ _ _ _ HT n Hn) as [H1 H2 H3]. split; rewrite ?agree_dino, ?agree_dnode by done; try done.
    by apply (agree_file_ok g Hg sb Hly v v').
  - intros n Hn. rewrite agree_dino by done. intros Ht. destruct (to_dir _ _ _ _ HT n Hn Ht) as [H1 H2 H3].
    split; [rewrite agree_dnode by done; by apply (agree_file_ok g Hg sb Hly v v')|by rewrite agree_dnode|by rewrite agree_data].
  - intros n name m Hn. rewrite agree_dino, agree_child by done. by apply (to_child _ _ _ _ HT).
Qed.

Lemma walk_agree parent es : forall n, n ∈ L -> walk g v' parent n es = walk g v parent n es.
Proof.
  induction es as [|e es IH]; intros n Hn; [done|]. cbn [walk]. rewrite agree_dino, agree_child by done.
  destruct (Z.eqb_spec (d_type (dino g v n)) T_DIR) as [Ht|]; [|done]. cbn [negb]. destruct (parent && _); [done|].
  destruct (child g v n e) as [m|] eqn:Ec; [|done]. apply IH. by eapply (to_child _ _ _ _ HT).
Qed.

(** A path that leads somewhere leads into the tree. *)
Lemma walk_in parent es : forall n m, n ∈ L -> walk g v parent n es = Some m -> m ∈ L.
Proof.
  induction es as [|e es IH]; intros n m Hn; cbn [walk]; [destruct parent; [done|by intros [= <-]]|].
  destruct (Z.eqb_spec (d_type (dino g v n)) T_DIR) as [Ht|]; [|done]. cbn [negb]. destruct (parent && _); [by intros [= <-]|].
  destruct (child g v n e) as [k|] eqn:Ec; [|done]. apply IH. by eapply (to_child _ _ _ _ HT).
Qed.
End agree_tree.

Lemma size_dom_add (B : gmultiset Z) n : (size (dom (B ⊎ {[+ n +]})) <= S (size (dom B)))%nat.
Proof.
  assert (dom (B ⊎ {[+ n +]}) ⊆ {[n]} ∪ dom B) as Hs.
  { intros x. rewrite elem_of_union, elem_of_singleton, !gmultiset_elem_of_dom. multiset_solver. }
  apply subseteq_size in Hs. pose proof (size_union_alt {[n]} (dom B)) as Hu. rewrite size_singleton in Hu.
  pose proof (subseteq_size (dom B ∖ {[n]}) (dom B) ltac:(set_solver)). lia.
Qed.

Section namex.
Context `{BlockDev} {E : Type} (g : geom) (Hg : geom_ok g) (o : Z).
Context (sb : superblock) (Hly : layout g sb) (Hone : sb_size sb <= BPB).
Context (devsw : Z -> devops (E := E)).
Context (v : key -> block) (L : gset Z) (HT : tree_ok g sb v L).
Abbreviation FS := (M (fsst E)).
Abbreviation crep := (InodeRefs.crep (E := E) g v L).
Abbreviation refs_post := (InodeRefs.refs_post (E := E) g o v L).

Lemma refs_post_trans (s1 s2 s3 : fsst E) ss R2 K2 R3 K3 :
  refs_post s1 ss R2 K2 s2 -> refs_post s2 ss R3 K3 s3 -> (forall n, n ∈ R3 -> n ∈ R2) -> refs_post s1 ss R3 K3 s3.
Proof.
  intros (F2 & C2 & S2 & E2) (F3 & C3 & S3 & E3) Hsub. split_and!; [done|done| |congruence].
  intros j n Hn Hin. apply S3; [|done]. apply S2; [done|auto].
Qed.

Lemma refs_post_keep (s1 s2 s3 : fsst E) ss R K : fkeep s1 s2 -> refs_post s2 ss R K s3 -> refs_post s1 ss R K s3.
Proof.
  intros [K1 K2 _] (F & C & S & X). split_and!; [done|done| |congruence].
  intros j n Hj Hn. apply S; [|done]. by eapply at_slot_ic.
Qed.

Lemma iunlockput_refs s ss R K ip n : frep g o s v ss ∅ -> crep s R K -> at_slot s ip n -> n ∈ K ->
  wp (iunlockput ip) s (fun _ s' => refs_post s ss (R ∖ {[+ n +]}) (K ∖ {[n]}) s').
Proof.
  intros F C Hat HK. unfold iunlockput.
  eapply wp_seq; [by apply (iunlock_refs g Hg o sb Hly Hone v L (to_live _ _ _ _ HT) s ss R K ip n)|]. intros _ s1 (P1 & Hat1). pose proof P1 as (F1 & C1 & _ & _).
  eapply wp_conseq; [apply (iput_refs g o sb v L (to_live _ _ _ _ HT) s1 ss R (K ∖ {[n]}) ip n); try done; set_solver|].
  intros [] s2 P2. eapply refs_post_trans; [done|done|]. multiset_solver.
Qed.

Lemma locked_dir n I : n ∈ L -> d_type (dino g v n) = T_DIR -> locked g sb v n I -> dir_ok g sb v I.
Proof.
  intros Hn Ht [K1 K2 K3 K4 K5]. pose proof (to_dir _ _ _ _ HT n Hn Ht) as [_ _ D3]. split; [done| |by rewrite K5].
  rewrite <- Ht, <- K1. done.
Qed.

(** [dirlookup] in a locked directory. *)
Lemma dirlookup_refs s ss R K dp n name e : frep g o s v ss ∅ -> crep s R K -> at_slot s dp n -> n ∈ K ->
  d_type (dino g v n) = T_DIR -> cname (Z.to_nat DIRSIZ) name = cname (Z.to_nat DIRSIZ) (at_list e) -> (size (dom R) < NINODE)%nat ->
  wp (dirlookup devsw dp name) s (fun r s' =>
    match child g v n e with
    | Some m => exists ip off, r = Some (ip, off) /\ refs_post s ss (R ⊎ {[+ m +]}) K s' /\ at_slot s' ip m
    | None => r = None /\ refs_post s ss R K s'
    end).
Proof.
  intros F C Hat HK Ht Hname Hroom. pose proof (locked_inode g sb v L (to_live _ _ _ _ HT) s R K dp n C Hat HK) as Hl.
  destruct (at_slot_in _ _ _ _ _ _ _ _ C Hat) as [Hn _].
  pose proof (locked_dir n _ Hn Ht Hl) as Hd. pose proof (lk_data _ _ _ _ _ Hl) as Edata.
  pose proof (to_child _ _ _ _ HT n e) as Hch. unfold child in *. rewrite <- (dir_find_cname _ _ _ Hname), <- Edata in *.
  destruct (dir_find name (file_data g v (inode_of s dp))) as [k|] eqn:Ef.
  - set (m := de_inum _) in *. 
    eapply wp_conseq; [apply (dirlookup_some g Hg o sb Hly Hone devsw s v ss dp name k F (crep_icache_ok g o v L _ _ _ _ F C) Hd Ef)|].
    + apply (iget_room g o v L s ss R K m F C). by right.
    + cbn beta. intros r s' (ip & J & s1 & -> & -> & HJ & HcJ & F1 & Hk1). fold m.
      exists ip, (16 * Z.of_nat k). split; [done|]. rewrite <- (fk_ic _ _ Hk1) in HJ, HcJ.
      destruct (iget_entry_refs g Hg o sb Hly Hone v L (to_live _ _ _ _ HT) s1 ss R K m ip J) as [P1 Hat1]; try done.
      { by eapply crep_ic; [apply (fk_ic _ _ Hk1)|]. }
      { by apply Hch. }
      split; [|done]. by eapply refs_post_keep.
  - eapply wp_conseq; [apply (dirlookup_none g Hg o sb Hly Hone devsw s v ss dp name F Hd Ef)|].
    cbn beta. intros r s' (-> & F' & Hk'). split; [done|]. split_and!; [done|by eapply crep_ic; [apply (fk_ic _ _ Hk')|]| |apply Hk'].
    intros j m' Hj _. by eapply at_slot_ic; [apply (fk_ic _ _ Hk')|].
Qed.

(** The references after a call: those in [R'], with the handles of [B] kept. *)
Definition kept_post (s : fsst E) (ss : list Z) (B R' : gmultiset Z) (s' : fsst E) : Prop :=
  frep g o s' v ss ∅ /\ crep s' R' ∅ /\ slots_kept s s' B /\ ext s' = ext s.

Lemma kept_post_refs s s' ss B R : refs_post s ss R ∅ s' -> B ⊆ R -> kept_post s ss B R s'.
Proof. intros (F & C & S & X) Hsub. split_and!; try done. intros j n Hj Hn. apply S; [done|multiset_solver]. Qed.

Lemma kept_post_trans s1 s2 s3 ss B R2 K2 R3 : refs_post s1 ss R2 K2 s2 -> kept_post s2 ss B R3 s3 -> B ⊆ R2 ->
  kept_post s1 ss B R3 s3.
Proof.
  intros (_ & _ & S2 & X2) (F & C & S & X) Hsub. split_and!; [done|done| |congruence].
  intros j n Hj Hn. apply S; [|done]. apply S2; [done|multiset_solver].
Qed.

(** What [namex] returns. *)
Definition namex_post (s : fsst E) (ss : list Z) (B : gmultiset Z) (parent : bool) (n : Z) (es : list (list Z))
    (r : option nat * list Z) (s' : fsst E) : Prop :=
  match walk g v parent n es with
  | Some m => exists ip, r.1 = Some ip /\ kept_post s ss B (B ⊎ {[+ m +]}) s' /\ at_slot s' ip m /\
      (parent = true -> last es = Some (cname (Z.to_nat DIRSIZ) (at_list r.2)))
  | None => r.1 = None /\ kept_post s ss B B s'
  end.

Lemma namex_post_trans s1 s2 s3 ss B R2 K2 parent n es r : refs_post s1 ss R2 K2 s2 -> B ⊆ R2 ->
  namex_post s2 ss B parent n es r s3 -> namex_post s1 ss B parent n es r s3.
Proof.
  intros P Hsub. unfold namex_post. destruct (walk g v parent n es) as [m|].
  - intros (ip & E1 & Hk & Hat & Hn). exists ip. split_and!; try done. by eapply kept_post_trans.
  - intros [E1 Hk]. split; [done|]. by eapply kept_post_trans.
Qed.

Lemma iunlockput_back s ss B ip n : frep g o s v ss ∅ -> crep s (B ⊎ {[+ n +]}) ({[n]} ∪ ∅) -> at_slot s ip n ->
  wp (iunlockput ip) s (fun _ s' => refs_post s ss B ∅ s').
Proof.
  intros F C Hat. eapply wp_conseq; [apply (iunlockput_refs s ss _ _ ip n F C Hat); set_solver|]. intros [] s' P.
  rewrite mult_undo in P.
  replace (({[n]} ∪ ∅) ∖ {[n]}) with (∅ : gset Z) in P by set_solver. exact P.
Qed.

Lemma namex_loop_ok parent fuel : forall s ss B ip n path name,
  frep g o s v ss ∅ -> crep s (B ⊎ {[+ n +]}) ∅ -> at_slot s ip n -> (length path < fuel)%nat ->
  length name = Z.to_nat DIRSIZ -> (size (dom B) + 2 <= NINODE)%nat ->
  wp (namex_loop devsw fuel ip path parent name) s (namex_post s ss B parent n (elems path)).
Proof.
  induction fuel as [|f IH]; intros s ss B ip n path name F C Hat Hfuel Hname Hroom; [lia|]. cbn [namex_loop].
  pose proof (skipelem_elems path name Hname) as Hskip. destruct (skipelem path name) as [[rest name']|].
  2:{ rewrite Hskip. unfold namex_post. cbn [walk]. destruct parent.
      - eapply wp_seq; [apply (iput_refs g o sb v L (to_live _ _ _ _ HT) s ss _ ∅ ip n F C Hat); set_solver|].
        intros [] s' P. apply wp_ret. split; [done|]. rewrite mult_undo in P.
        by apply kept_post_refs.
      - apply wp_ret. exists ip. split_and!; try done. split_and!; try done. by intros j m Hj _. }
  destruct Hskip as (e & He & Hlt & Hname' & Hcn & Hend). rewrite He.
  destruct (at_slot_in _ _ _ _ _ _ _ _ C Hat) as [Hn _].
  eapply wp_seq; [apply (ilock_refs g Hg o sb Hly Hone v L (to_live _ _ _ _ HT) s ss _ ∅ ip n F C Hat); set_solver|].
  intros [] s1 (P1 & Hat1 & Hl1). pose proof P1 as (F1 & C1 & _ & _).
  eapply (wp_conseq _ s1 (namex_post s1 ss B parent n (e :: elems rest))).
  2:{ intros r s' Hp. by eapply namex_post_trans; [exact P1|multiset_solver|]. }
  apply wp_bind, wp_gets. assert (i_type (inode_of s1 ip) = d_type (dino g v n)) as -> by (by rewrite <- (lk_dinode _ _ _ _ _ Hl1)).
  unfold namex_post. cbn [walk].
  destruct (Z.eqb_spec (d_type (dino g v n)) T_DIR) as [Ht|Ht]; cbn [negb].
  2:{ eapply wp_seq; [by apply (iunlockput_back s1 ss B ip n)|]. intros [] s2 P2. apply wp_ret. split; [done|]. by apply kept_post_refs. }
  assert ((parent && (peek rest =? 0)) = (parent && bool_decide (elems rest = []))) as ->.
  { f_equal. apply eq_true_iff_eq. rewrite Z.eqb_eq, bool_decide_eq_true. done. }
  destruct (parent && bool_decide (elems rest = [])) eqn:Hstop.
  { apply andb_true_iff in Hstop as [-> Hes%bool_decide_eq_true]. rewrite Hes.
    eapply wp_seq; [apply (iunlock_refs g Hg o sb Hly Hone v L (to_live _ _ _ _ HT) s1 ss _ _ ip n F1 C1 Hat1); set_solver|].
    intros [] s2 (P2 & Hat2). apply wp_ret. exists ip. split_and!; [done| |done|intros _; cbn; by rewrite Hcn].
    replace (({[n]} ∪ ∅) ∖ {[n]}) with (∅ : gset Z) in P2 by set_solver. apply kept_post_refs; [done|multiset_solver]. }
  assert (cname (Z.to_nat DIRSIZ) (at_list name') = cname (Z.to_nat DIRSIZ) (at_list e)) as Hce.
  { subst e. symmetry. apply cname_at_list; [apply cname_nonzero|apply cname_length]. }
  eapply wp_seq; [apply (dirlookup_refs s1 ss _ _ ip n (at_list name') e F1 C1 Hat1); try done; [set_solver|]|].
  { pose proof (size_dom_add B n). lia. }
  intros r s2. destruct (child g v n e) as [m|].
  - intros (next & off & -> & P2 & Hat2). pose proof P2 as (F2 & C2 & S2 & _).
    assert (at_slot s2 ip n) as Hat2' by (apply S2; [done|multiset_solver]).
    eapply wp_seq; [apply (iunlockput_refs s2 ss _ _ ip n F2 C2 Hat2'); set_solver|]. intros [] s3 P3.
    rewrite mult_swap in P3. replace (({[n]} ∪ ∅) ∖ {[n]}) with (∅ : gset Z) in P3 by set_solver. pose proof P3 as (F3 & C3 & S3 & _).
    eapply wp_conseq; [apply (IH s3 ss B next m rest name' F3 C3); try done; [|lia]|].
    { apply S3; [done|multiset_solver]. }
    intros r s' Hp. apply (namex_post_trans s2 s3 s' ss B _ _ parent m (elems rest) r P3) in Hp; [|multiset_solver].
    apply (namex_post_trans s1 s2 s' ss B _ _ parent m (elems rest) r P2) in Hp; [|multiset_solver].
    unfold namex_post in Hp. destruct (walk g v parent m (elems rest)) as [m'|]; [|done].
    destruct Hp as (ip' & E1 & Hk & Ha & Hlast). exists ip'. split_and!; try done. intros ->. cbn [andb] in Hstop.
    apply bool_decide_eq_false in Hstop. rewrite <- Hlast by done. by destruct (elems rest).
  - intros [-> P2]. pose proof P2 as (F2 & C2 & S2 & _).
    eapply wp_seq; [apply (iunlockput_back s2 ss B ip n F2 C2)|].
    { apply S2; [done|multiset_solver]. }
    intros [] s3 P3. apply wp_ret. split; [done|]. apply (kept_post_trans s1 s2 s3 ss B _ _ _ P2); [by apply kept_post_refs|multiset_solver].
Qed.


(** Where a path starts. *)
Definition start (path : list Z) (c : Z) : Z := if peek path =? 47 then ROOTINO else c.

Lemma namex_ok s ss R cwd c path parent name : g_dev g = ROOTDEV -> ROOTINO ∈ L ->
  frep g o s v ss ∅ -> crep s R ∅ -> at_slot s cwd c -> (size (dom R) + 2 <= NINODE)%nat -> length name = Z.to_nat DIRSIZ ->
  wp (namex devsw cwd path parent name) s (namex_post s ss R parent (start path c) (elems path)).
Proof.
  intros Hdev Hroot F C Hat Hroom Hname. unfold namex, start. pose proof (to_live _ _ _ _ HT) as Hlive.
  eapply (wp_seq _ _ s (fun ip s1 => refs_post s ss (R ⊎ {[+ if peek path =? 47 then ROOTINO else c +]}) ∅ s1 /\
    at_slot s1 ip (if peek path =? 47 then ROOTINO else c))).
  - destruct (peek path =? 47).
    + rewrite <- Hdev. apply (iget_refs g Hg o sb Hly Hone v L Hlive); try done. right. lia.
    + eapply wp_conseq; [by apply (idup_refs g Hg o sb Hly Hone v L Hlive)|]. by intros k s1 (-> & P & Ha).
  - intros ip s1 [P1 Hat1]. pose proof P1 as (F1 & C1 & _ & _).
    eapply wp_conseq; [apply (namex_loop_ok parent (S (length path)) s1 ss R ip _ path name F1 C1 Hat1); (done || lia)|].
    intros r s' Hp. eapply namex_post_trans; [exact P1|multiset_solver|exact Hp].
Qed.

(** C5: [namex] follows the path through the directories on the disk.  If the
    walk from the root (for a path that begins with a slash) or the current
    directory arrives at an inode, it returns the cache entry of that inode
    with one reference more; for [nameiparent], the directory and the last
    element in [name].  Otherwise it returns 0.  In both cases the references
    to the directories on the way are dropped again, none is locked, and the
    disk is as it was. *)
Theorem namex_walks s ss R cwd c path parent name : g_dev g = ROOTDEV -> ROOTINO ∈ L ->
  frep g o s v ss ∅ -> crep s R ∅ -> at_slot s cwd c -> (size (dom R) + 2 <= NINODE)%nat -> length name = Z.to_nat DIRSIZ ->
  exists r s', namex devsw cwd path parent name s = Ret r s' /\ ext s' = ext s /\ slots_kept s s' R /\ frep g o s' v ss ∅ /\
    match walk g v parent (start path c) (elems path) with
    | Some m => exists ip, r.1 = Some ip /\ crep s' (R ⊎ {[+ m +]}) ∅ /\ at_slot s' ip m /\
        (parent = true -> last (elems path) = Some (cname (Z.to_nat DIRSIZ) (at_list r.2)))
    | None => r.1 = None /\ crep s' R ∅
    end.
Proof.
  intros Hdev Hroot F C Hat Hroom Hname.
  destruct (proj1 (wp_eq _ _ _) (namex_ok s ss R cwd c path parent name Hdev Hroot F C Hat Hroom Hname)) as (r & s' & Er & Hp).
  exists r, s'. split; [exact Er|]. unfold namex_post in Hp.
  destruct (walk g v parent (start path c) (elems path)) as [m|].
  - destruct Hp as (ip & E1 & (F' & C' & S' & X') & Ha & Hl). split_and!; try done. exists ip. by split_and!.
  - destruct Hp as (E1 & F' & C' & S' & X'). by split_and!.
Qed.
End namex.
