(* ===== verification/FsWitness.v ===== *)
(** A concrete file system on the memory disk, with an empty directory and an
    empty file: the hypotheses of the theorems about files and directories hold
    of it. *)

From S2P Require Import Prelude Params BlockDev Bio Log Fs FsSpec FileSpec Dinode FileData Crash CString Icache Dir DirSpec.

Module FsW.
#[local] Existing Instance CrashWitness.dev.

Definition g0 : geom := CrashWitness.g0.
Definition sb0 : superblock := mksb 1024 941 200 30.

(** The bitmap: blocks 0 to 28 and the log (994 to 1023) in use. *)
Definition bitmap0 : block :=
  foldr (fun b d => set_bit (Z.of_nat b) d) zero_block (seq 0 29 ++ seq 994 30).
(** Inode 5: a regular file with one link and no contents. *)
Definition file5 : dinode := mkdinode T_FILE 0 0 1 0 (replicate 13 0).
(** Inode 1: an empty directory. *)
Definition dir1 : dinode := mkdinode T_DIR 0 0 1 0 (replicate 13 0).
Definition d0 : disk :=
  mkdisk (<[(1, 1) := CrashWitness.sb_block]> (<[(1, 28) := bitmap0]>
    (<[(1, 2) := put_dinode (dinode_off 1) dir1 (put_dinode (dinode_off 5) file5 zero_block)]> ∅))) [].

Definition s_boot : lst := match initlog (boot d0) with Ret _ s => s | _ => boot d0 end.
Definition s_log : lst := match begin_op s_boot with Ret _ s => s | _ => s_boot end.
Definition I5 : inode := mkinode 1 5 1 (Z.lor I_BUSY I_VALID) T_FILE 0 0 1 0 (replicate 13 0).
Definition I1 : inode := mkinode 1 1 1 (Z.lor I_BUSY I_VALID) T_DIR 0 0 1 0 (replicate 13 0).
Definition s0 : fsst unit :=
  mkfs s_log (mkicache false (<[0%nat := I5]> (<[1%nat := I1]> (replicate NINODE zero_inode)))) tt.
Definition v0 : key -> block := disk_get (dk (lb s_boot)).
Definition no_devs : Z -> devops (E := unit) := fun _ => mkdevops None None.

Lemma block_ok_bool (b : block) :
  Nat.eqb (length b) 512 && forallb (fun x => (0 <=? x) && (x <? 256)) b = true -> block_ok b.
Proof.
  intros [Hl Hf]%andb_true_iff. split; [by apply Nat.eqb_eq|]. rewrite forallb_forall in Hf.
  apply Forall_forall. intros x Hx. apply list_elem_of_In in Hx. specialize (Hf x Hx).
  apply andb_true_iff in Hf as [?%Z.leb_le ?%Z.ltb_lt]. unfold is_u8. lia.
Qed.

Lemma d0_bootable : bootable g0 d0.
Proof.
  split.
  - intros k. unfold disk_get, img_get, d0. cbn [img].
    destruct (decide (k = (1, 1))) as [->|N1].
    { rewrite lookup_insert_eq. apply block_ok_bool. vm_compute. reflexivity. }
    rewrite lookup_insert_ne by done. destruct (decide (k = (1, 28))) as [->|N2].
    { rewrite lookup_insert_eq. apply block_ok_bool. vm_compute. reflexivity. }
    rewrite lookup_insert_ne by done. destruct (decide (k = (1, 2))) as [->|N3].
    { rewrite lookup_insert_eq. apply block_ok_bool. vm_compute. reflexivity. }
    rewrite lookup_insert_ne by done. rewrite lookup_empty. apply zero_block_ok.
  - vm_compute. reflexivity.
  - assert (head_n (disk_get d0 (hk g0)) = 0) as E by (vm_compute; reflexivity).
    split; [rewrite E; simpl; lia|]. unfold head_list. rewrite E. constructor.
  - assert (head_list (disk_get d0 (hk g0)) = []) as -> by (vm_compute; reflexivity). set_solver.
Qed.

Lemma s_boot_rep : lrep g0 s_boot v0 [] ∅ /\ l_outstanding (lg s_boot) = 0 /\ l_committing (lg s_boot) = 0.
Proof.
  destruct (boot_completes g0 CrashWitness.geom_ok_g0 CrashWitness.sb_on d0 d0_bootable)
    as (s & E & _ & Hrep & Ho & Hc & _).
  assert (s_boot = s) as Es by (unfold s_boot; rewrite E; reflexivity). clear E.
  unfold v0. rewrite Es. split; [exact Hrep|]. split; [exact Ho|exact Hc].
Qed.

Lemma s_log_rep : lrep g0 s_log v0 [] ∅ /\ l_outstanding (lg s_log) = 1 /\ l_committing (lg s_log) = 0.
Proof.
  destruct s_boot_rep as (Hrep & Ho & Hc). unfold s_log.
  destruct (wp_eq_tt _ _ _ (begin_op_spec g0 s_boot _ [] ∅ Hrep Hc ltac:(rewrite Ho; vm_compute; congruence)))
    as (s' & E & Hrep' & _ & Ho' & Hc').
  rewrite E. clear E. split; [exact Hrep'|]. split; [rewrite Ho', Ho; reflexivity|exact Hc'].
Qed.

Lemma frep0 : frep g0 1 s0 v0 [] ∅.
Proof. destruct s_log_rep as (Hr & Ho & Hc). split; [exact Hr|exact Ho|exact Hc|reflexivity|reflexivity]. Qed.

Lemma layout0 : layout g0 sb0.
Proof.
  split; [vm_compute; split; reflexivity|reflexivity|reflexivity|vm_compute; discriminate|].
  intros x Hx. split; [reflexivity|]. cbn in *. lia.
Qed.

Lemma bitmap_ok0 : bitmap_ok g0 sb0 v0.
Proof.
  split; [vm_compute; reflexivity|].
  assert (forallb (fun i => let b := Z.of_nat i in
    used g0 sb0 v0 b || ((data_start sb0 <=? b) && (b <? g_start g0))) (seq 0 1024) = true) as Hall
    by (vm_compute; reflexivity).
  rewrite forallb_forall in Hall. intros b Hb Hu. cbn in Hb. specialize (Hall (Z.to_nat b)).
  cbv zeta in Hall. rewrite Z2Nat.id in Hall by lia. rewrite Hu in Hall. cbn [orb] in Hall.
  assert (In (Z.to_nat b) (seq 0 1024)) as Hin by (apply in_seq; lia).
  apply Hall in Hin. apply andb_true_iff in Hin as [?%Z.leb_le ?%Z.ltb_lt]. split; assumption.
Qed.

Lemma addr0 I bn : i_addrs I = replicate 13 0 -> in_file bn -> addr_of g0 v0 I bn = 0.
Proof.
  intros Ha Hb. unfold addr_of, ind. rewrite Ha. destruct (Z.ltb_spec bn NDIRECT) as [Hl|Hl]; [|reflexivity].
  unfold in_file in Hb. change NDIRECT with 12 in Hl.
  apply list_lookup_total_correct, lookup_replicate. split; [done|lia].
Qed.

Lemma ino_ok0 I : i_addrs I = replicate 13 0 -> i_dev I = 1 -> ino_ok g0 sb0 v0 I.
Proof.
  intros Ha Hd. split; [by rewrite Ha|done| | |].
  - intros x [Hx [->|(bn & Hb & Ex)]]; [unfold ind in Hx; by rewrite Ha in Hx|].
    rewrite addr0 in Ex by done. by destruct Hx.
  - intros b1 b2 H1 _ _ Hnz. by rewrite addr0 in Hnz.
  - intros b1 H1 Hnz. by rewrite addr0 in Hnz.
Qed.

Lemma file_ok0 : file_ok g0 sb0 v0 I5.
Proof.
  split; [by apply ino_ok0|cbn; lia|change (MAXFILE * BSIZE) with 71680; cbn; lia| |vm_compute; reflexivity|].
  - intros p Hp. cbn in Hp. lia.
  - split; unfold is_u32; cbn -[Z.pow]; unfold T_FILE; try lia. repeat constructor; lia.
Qed.

Lemma dir_ok0 : dir_ok g0 sb0 v0 I1.
Proof.
  split; [|reflexivity|reflexivity].
  split; [by apply ino_ok0|cbn; lia|change (MAXFILE * BSIZE) with 71680; cbn; lia| |vm_compute; reflexivity|].
  - intros p Hp. cbn in Hp. lia.
  - split; unfold is_u32; cbn -[Z.pow]; unfold T_DIR; try lia. repeat constructor; lia.
Qed.

Lemma icache_ok0 : icache_ok s0.
Proof.
  assert (forall i I, ic_inode (ic s0) !! i = Some I -> (i = 0%nat /\ I = I5) \/ (i = 1%nat /\ I = I1) \/ I = zero_inode) as Hz.
  { intros i I HI. cbn [s0 ic ic_inode] in HI. apply list_lookup_insert_Some in HI as [(<- & <- & _)|[_ HI]]; [by left|].
    apply list_lookup_insert_Some in HI as [(<- & <- & _)|[_ HI]]; [by right; left|].
    apply lookup_replicate in HI as [-> _]. by right; right. }
  split; [reflexivity|reflexivity| |].
  - intros i I HI. destruct (Hz i I HI) as [[_ ->]|[[_ ->]| ->]]; cbn; lia.
  - intros i j I J HI HJ Hr (Hr' & Hd & Hn).
    destruct (Hz i I HI) as [[-> ->]|[[-> ->]| ->]], (Hz j J HJ) as [[-> ->]|[[-> ->]| ->]]; cbn in *; done || lia.
Qed.

Lemma nfree0 : nfree g0 sb0 v0 2.
Proof.
  exists [29; 30]. split_and!; [apply (bool_decide_unpack _); vm_compute; exact I|reflexivity|].
  intros b Hb. apply elem_of_cons in Hb as [->|Hb]; [split; [cbn; lia|vm_compute; reflexivity]|].
  apply list_elem_of_singleton in Hb as ->. split; [cbn; lia|vm_compute; reflexivity].
Qed.

Lemma writei_writes_witness :
  exists s' v' ss', writei no_devs 0 [104; 105] 0 2 s0 = Ret 2 s' /\
    frep g0 1 s' v' ss' ∅ /\ bitmap_ok g0 sb0 v' /\ file_ok g0 sb0 v' (inode_of s' 0) /\
    file_data g0 v' (inode_of s' 0) = [104; 105] /\
    (forall J, file_ok g0 sb0 v0 J -> disjoint_files g0 v0 I5 J ->
       file_ok g0 sb0 v' J /\ file_data g0 v' J = file_data g0 v0 J /\ disjoint_files g0 v' (inode_of s' 0) J).
Proof.
  apply (writei_writes g0 CrashWitness.geom_ok_g0 1 sb0 layout0 ltac:(vm_compute; discriminate)
    no_devs s0 v0 [] 0 [104; 105] 0 frep0); [lia|apply bitmap_ok0|apply file_ok0|discriminate| | | | | |].
  - vm_compute. lia.
  - repeat constructor; unfold is_u8; lia.
  - cbn. lia.
  - change (MAXFILE * BSIZE) with 71680. cbn. lia.
  - vm_compute. discriminate.
  - apply nfree0.
Defined.

Lemma readi_reads_witness :
  exists s', frep g0 1 s' v0 [] ∅ /\ ic s' = ic s0 /\ readi no_devs 0 0 10 s0 = Ret (0, []) s'.
Proof.
  apply (readi_reads g0 CrashWitness.geom_ok_g0 1 sb0 layout0 ltac:(vm_compute; discriminate) no_devs s0 v0 [] 0 0 10 frep0 file_ok0);
    [discriminate|lia|lia].
Defined.

Definition name_a : nat -> Z := at_list [97; 98; 99].

Lemma name_a_u8 i : is_u8 (name_a i).
Proof. apply at_list_u8. repeat constructor; unfold is_u8; lia. Qed.

Lemma dirlookup_finds_witness :
  exists s', dirlookup no_devs 1 name_a s0 = Ret None s' /\ frep g0 1 s' v0 [] ∅ /\ ic s' = ic s0.
Proof.
  apply (dirlookup_finds g0 CrashWitness.geom_ok_g0 1 sb0 layout0 ltac:(vm_compute; discriminate)
    no_devs s0 v0 [] 1 name_a frep0 icache_ok0 dir_ok0).
  exists 2%nat, zero_inode. split; reflexivity.
Defined.

Lemma dirlink_adds_witness :
  exists s' v' ss', dirlink no_devs 1 name_a 5 s0 = Ret 0 s' /\ frep g0 1 s' v' ss' ∅ /\ bitmap_ok g0 sb0 v' /\
    dir_ok g0 sb0 v' (inode_of s' 1) /\
    let data' := file_data g0 v' (inode_of s' 1) in
    dir_find name_a data' = Some 0%nat /\ de_inum (entry data' 0) = 5 /\
    (forall name', (forall i, is_u8 (name' i)) -> cname 14 name' <> cname 14 name_a ->
       dir_find name' data' = dir_find name' [] /\
       forall j, dir_find name' [] = Some j -> entry data' j = entry [] j).
Proof.
  assert (dir_find name_a (file_data g0 v0 (inode_of s0 1)) = None) as Hnone by reflexivity.
  pose proof (dirlink_adds g0 CrashWitness.geom_ok_g0 1 sb0 layout0 ltac:(vm_compute; discriminate)
    no_devs s0 v0 [] 1 name_a 5 frep0 ltac:(lia) bitmap_ok0 icache_ok0 dir_ok0) as Hadd.
  rewrite Hnone in Hadd. apply Hadd.
  - vm_compute. lia.
  - apply name_a_u8.
  - unfold is_u16. lia.
  - lia.
  - vm_compute. discriminate.
  - vm_compute. discriminate.
  - apply nfree0.
Defined.
End FsW.
