(* ===== verification/Mmu.v ===== *)
(** The x86 memory management unit: mmu.h.

    Flag bits, the decomposition of a virtual address into directory index,
    table index and offset, page rounding, page-table entries, segment
    descriptors and interrupt gates. *)

From S2P Require Import Prelude Params.

(** ** Flags *)
Definition FL_IF : Z := 0x200.

Definition SEG_KCODE : Z := 1.
Definition SEG_KDATA : Z := 2.
Definition SEG_KCPU : Z := 3.
Definition SEG_UCODE : Z := 4.
Definition SEG_UDATA : Z := 5.
Definition SEG_TSS : Z := 6.
Definition DPL_USER : Z := 3.
Definition STA_X : Z := 8.
Definition STA_W : Z := 2.
Definition STA_R : Z := 2.
Definition STS_T32A : Z := 9.
Definition STS_IG32 : Z := 14.
Definition STS_TG32 : Z := 15.

(** ** Pages *)
Definition NPDENTRIES : Z := 1024.
Definition NPTENTRIES : Z := 1024.
Definition PGSIZE : Z := 4096.
Definition PTXSHIFT : Z := 12.
Definition PDXSHIFT : Z := 22.

Definition PDX (va : Z) : Z := Z.land (Z.shiftr (u32 va) PDXSHIFT) 0x3FF.
Definition PTX (va : Z) : Z := Z.land (Z.shiftr (u32 va) PTXSHIFT) 0x3FF.
Definition PGADDR (d t o : Z) : Z :=
  u32 (Z.lor (Z.lor (Z.shiftl d PDXSHIFT) (Z.shiftl t PTXSHIFT)) o).

Definition PGROUNDUP (sz : Z) : Z := Z.land (u32 (sz + PGSIZE - 1)) (Z.lnot (PGSIZE - 1)).
Definition PGROUNDDOWN (a : Z) : Z := Z.land (u32 a) (Z.lnot (PGSIZE - 1)).

Definition PTE_P : Z := 1.
Definition PTE_W : Z := 2.
Definition PTE_U : Z := 4.
Definition PTE_PS : Z := 128.
Definition PTE_ADDR (pte : Z) : Z := Z.land (u32 pte) (Z.lnot 0xFFF).
Definition PTE_FLAGS (pte : Z) : Z := Z.land (u32 pte) 0xFFF.

(** ** Segment descriptors, in the order of the bit fields of [struct segdesc] *)
Record segdesc : Type := mkseg {
  lim_15_0 : Z; base_15_0 : Z; base_23_16 : Z; sg_type : Z; sg_s : Z; sg_dpl : Z; sg_p : Z;
  lim_19_16 : Z; sg_avl : Z; sg_rsv1 : Z; sg_db : Z; sg_g : Z; base_31_24 : Z }.

Definition SEG (type base lim dpl : Z) : segdesc :=
  mkseg (Z.land (Z.shiftr lim 12) 0xffff) (Z.land (u32 base) 0xffff)
    (Z.land (Z.shiftr (u32 base) 16) 0xff) type 1 dpl 1
    (Z.land (Z.shiftr (u32 lim) 28) 0xf) 0 0 1 1 (Z.shiftr (u32 base) 24).
Definition SEG16 (type base lim dpl : Z) : segdesc :=
  mkseg (Z.land lim 0xffff) (Z.land (u32 base) 0xffff)
    (Z.land (Z.shiftr (u32 base) 16) 0xff) type 1 dpl 1
    (Z.land (Z.shiftr (u32 lim) 16) 0xf) 0 0 1 0 (Z.shiftr (u32 base) 24).

(** ** Gate descriptors *)
Record gatedesc : Type := mkgate {
  off_15_0 : Z; gd_cs : Z; gd_args : Z; gd_rsv1 : Z; gd_type : Z; gd_s : Z; gd_dpl : Z; gd_p : Z; off_31_16 : Z }.

Definition SETGATE (istrap : bool) (sel off d : Z) : gatedesc :=
  mkgate (Z.land (u32 off) 0xffff) sel 0 0 (if istrap then STS_TG32 else STS_IG32) 0 d 1
    (Z.shiftr (u32 off) 16).

(** ** Arithmetic of pages *)

Lemma land_low x n : 0 <= n -> Z.land x (Z.ones n) = x mod 2 ^ n.
Proof. apply Z.land_ones. Qed.

Lemma land_high x n : 0 <= n -> Z.land x (Z.lnot (Z.ones n)) = x - x mod 2 ^ n.
Proof.
  intros Hn. rewrite <- Z.ldiff_land, Z.ldiff_ones_r by done.
  rewrite Z.shiftl_mul_pow2, Z.shiftr_div_pow2 by done.
  pose proof (Z.div_mod x (2 ^ n) ltac:(lia)). lia.
Qed.

Lemma PTE_ADDR_val pte : PTE_ADDR pte = u32 pte - u32 pte mod 4096.
Proof. unfold PTE_ADDR. change 0xFFF with (Z.ones 12). by rewrite land_high. Qed.

Lemma PTE_FLAGS_val pte : PTE_FLAGS pte = u32 pte mod 4096.
Proof. unfold PTE_FLAGS. change 0xFFF with (Z.ones 12). by rewrite land_low. Qed.

Lemma PGROUNDDOWN_val a : PGROUNDDOWN a = u32 a - u32 a mod 4096.
Proof. unfold PGROUNDDOWN. change (PGSIZE - 1) with (Z.ones 12). by rewrite land_high. Qed.

Lemma PGROUNDUP_val a : PGROUNDUP a = u32 (a + 4095) - u32 (a + 4095) mod 4096.
Proof.
  unfold PGROUNDUP. replace (a + PGSIZE - 1) with (a + 4095) by (unfold PGSIZE; lia).
  change (PGSIZE - 1) with (Z.ones 12). by rewrite land_high.
Qed.

Lemma PDX_val va : is_u32 va -> PDX va = va / 2 ^ 22.
Proof.
  intros Hv. unfold is_u32 in Hv. unfold PDX, PDXSHIFT. rewrite u32_small by done.
  change 0x3FF with (Z.ones 10). rewrite land_low, Z.shiftr_div_pow2 by done.
  apply Z.mod_small. split; [apply Z.div_pos; lia|apply Z.div_lt_upper_bound; lia].
Qed.

Lemma PTX_val va : is_u32 va -> PTX va = va / 4096 mod 1024.
Proof.
  intros Hv. unfold is_u32 in Hv. unfold PTX, PTXSHIFT. rewrite u32_small by done.
  change 0x3FF with (Z.ones 10). by rewrite land_low, Z.shiftr_div_pow2 by done.
Qed.

(** Low-order flags do not disturb an aligned address. *)
Lemma land_aligned pa f : pa mod 4096 = 0 -> 0 <= f < 4096 -> Z.land pa f = 0.
Proof.
  intros Ha Hf. apply Z.bits_inj'. intros n Hn. rewrite Z.land_spec, Z.bits_0.
  destruct (Z.ltb_spec n 12) as [Hl|Hl].
  - rewrite <- (Z.mod_pow2_bits_low pa 12 n) by lia. change (2 ^ 12) with 4096. by rewrite Ha, Z.bits_0.
  - rewrite <- (Z.mod_small f (2 ^ 12)) by done. by rewrite Z.mod_pow2_bits_high, andb_false_r by lia.
Qed.

Lemma lor_aligned pa f : pa mod 4096 = 0 -> 0 <= f < 4096 -> Z.lor pa f = pa + f.
Proof.
  intros Ha Hf. pose proof (land_aligned pa f Ha Hf) as H0.
  by rewrite Z.add_nocarry_lxor, Z.lxor_lor.
Qed.

Lemma PTE_ADDR_mk pa f :
  is_u32 pa -> pa mod 4096 = 0 -> 0 <= f < 4096 -> PTE_ADDR (pa + f) = pa /\ PTE_FLAGS (pa + f) = f.
Proof.
  unfold is_u32. intros Hu Ha Hf. rewrite PTE_ADDR_val, PTE_FLAGS_val.
  apply Z.div_exact in Ha; [|done]. set (q := pa / 4096) in *. clearbody q. subst pa.
  rewrite u32_small by lia.
  replace ((4096 * q + f) mod 4096) with f by (rewrite Z.add_comm, Z.mul_comm, Z.mod_add by lia; by rewrite Z.mod_small by lia).
  split; lia.
Qed.

(** The directory index, table index and page offset determine an address. *)
Lemma va_split va : is_u32 va -> va = PDX va * 2 ^ 22 + PTX va * 4096 + va mod 4096.
Proof.
  intros Hv. rewrite PDX_val, PTX_val by done.
  pose proof (Z.div_mod va 4096 ltac:(lia)). pose proof (Z.div_mod (va / 4096) 1024 ltac:(lia)) as E.
  rewrite Z.div_div in E by lia. change (4096 * 1024) with (2 ^ 22) in E. lia.
Qed.

Lemma PDX_range va : 0 <= PDX va < 1024.
Proof. unfold PDX. change 0x3FF with (Z.ones 10). rewrite land_low by done. by apply Z.mod_pos_bound. Qed.

Lemma PTX_range va : 0 <= PTX va < 1024.
Proof. unfold PTX. change 0x3FF with (Z.ones 10). rewrite land_low by done. by apply Z.mod_pos_bound. Qed.
