(* ===== verification/Kalloc.v ===== *)
(** Physical page allocator: kalloc.c.

    Memory is a byte memory indexed by kernel virtual address; the free list is
    threaded through the first word of each free page, as in the code.  The
    allocator is shown to refine a set of free pages: over any sequence of
    allocations, releases, and stores into allocated pages, every page is
    either free or allocated, never both. *)

From S2P Require Import Prelude Params CString Mmu.

(** ** The allocator *)
Record kst : Type := mkk { k_lock : bool; use_lock : bool; freelist : Z; pm : mem }.

Definition set_lock (b : bool) (s : kst) : kst := mkk b (use_lock s) (freelist s) (pm s).
Definition set_freelist (p : Z) (s : kst) : kst := mkk (k_lock s) (use_lock s) p (pm s).
Definition set_pm (m : mem) (s : kst) : kst := mkk (k_lock s) (use_lock s) (freelist s) m.
Definition set_use_lock (b : bool) (s : kst) : kst := mkk (k_lock s) b (freelist s) (pm s).

Definition acquire_kmem : M kst unit :=
  u <- gets use_lock ;;
  when u (l <- gets k_lock ;; if l then panic "acquire" else modify (set_lock true)).
Definition release_kmem : M kst unit :=
  u <- gets use_lock ;;
  when u (l <- gets k_lock ;; if l then modify (set_lock false) else panic "release").

Section kalloc.
(** The first address after the kernel image, from the linker script. *)
Context (kend : Z).

(** kalloc.c [kfree] *)
Definition kfree (v : Z) : M kst unit :=
  if negb (u32 v mod PGSIZE =? 0) || (v <? kend) || (PHYSTOP <=? v2p v) then panic "kfree"
  else
    modify (fun s => set_pm (Kstring.memset v 1 PGSIZE (pm s)) s) ;;
    acquire_kmem ;;
    modify (fun s => set_pm (wr_long v (freelist s) (pm s)) s) ;;
    modify (set_freelist v) ;;
    release_kmem.

(** kalloc.c [kalloc] *)
Definition kalloc : M kst Z :=
  acquire_kmem ;;
  r <- gets freelist ;;
  when (negb (r =? 0)) (modify (fun s => set_freelist (ld_long r (pm s)) s)) ;;
  release_kmem ;;
  ret r.

(** kalloc.c [freerange]; the fuel is one more than the pages of the range. *)
Fixpoint freerange_loop (fuel : nat) (p vend : Z) : M kst unit :=
  match fuel with
  | O => fault "freerange"
  | S f =>
      if u32 (p + PGSIZE) <=? vend then kfree p ;; freerange_loop f (u32 (p + PGSIZE)) vend
      else ret tt
  end.
Definition freerange (vstart vend : Z) : M kst unit :=
  let p := PGROUNDUP vstart in
  freerange_loop (S (Z.to_nat ((vend - p) / PGSIZE))) p vend.

(** kalloc.c [kinit1], [kinit2] *)
Definition kinit1 (vstart vend : Z) : M kst unit :=
  modify (set_lock false) ;; modify (set_use_lock false) ;; freerange vstart vend.
Definition kinit2 (vstart vend : Z) : M kst unit :=
  freerange vstart vend ;; modify (set_use_lock true).

(** ** The free list as a list of pages *)

(** [kernel.ld] links the kernel above KERNBASE. *)
Context (Hend : KERNBASE < kend).

Definition page_ok (v : Z) : Prop :=
  v mod PGSIZE = 0 /\ kend <= v /\ v + PGSIZE <= KERNBASE + PHYSTOP.

Fixpoint chain (m : mem) (p : Z) (L : list Z) : Prop :=
  match L with
  | [] => p = 0
  | q :: L' => p = q /\ chain m (ld_long q m) L'
  end.

Definition in_page (v a : Z) : Prop := v <= a < v + PGSIZE.

Record krep (s : kst) (L : list Z) : Prop := {
  kr_lock : k_lock s = false;
  kr_chain : chain (pm s) (freelist s) L;
  kr_nodup : NoDup L;
  kr_ok : Forall page_ok L }.

Lemma PGSIZE_val : PGSIZE = 4096.
Proof. done. Qed.

Lemma pages_apart v w a : v mod PGSIZE = 0 -> w mod PGSIZE = 0 -> v <> w -> in_page v a -> ~ in_page w a.
Proof.
  rewrite PGSIZE_val. intros Hv%Z.div_exact Hw%Z.div_exact Hne; [|done|done].
  unfold in_page. rewrite PGSIZE_val. nia.
Qed.

Lemma page_ok_u32 v : page_ok v -> is_u32 v /\ v <> 0.
Proof. unfold page_ok, is_u32. rewrite PGSIZE_val. unfold KERNBASE, PHYSTOP in *. lia. Qed.

Lemma page_ok_test v : page_ok v <->
  is_u32 v /\ negb (u32 v mod PGSIZE =? 0) || (v <? kend) || (PHYSTOP <=? v2p v) = false.
Proof.
  rewrite !orb_false_iff, negb_false_iff, Z.eqb_eq, Z.ltb_ge, Z.leb_gt. unfold page_ok, v2p.
  rewrite PGSIZE_val. split.
  - intros H. destruct (page_ok_u32 v H) as [Hu _]. unfold is_u32 in *.
    rewrite !u32_small by (unfold KERNBASE in *; lia). unfold KERNBASE in *. lia.
  - unfold is_u32. intros (Hu & (Hm & He) & Hp). rewrite u32_small in Hm by done.
    rewrite u32_small in Hp by (unfold KERNBASE in *; lia).
    apply Z.div_exact in Hm; [|done]. change PHYSTOP with (57344 * 4096) in *.
    change KERNBASE with (524288 * 4096) in *. rewrite Hm in *. split_and!; [|lia|lia].
    by rewrite Z.mul_comm, Z.mod_mul.
Qed.

(** A chain depends only on the first words of its pages. *)
Lemma chain_ext m m' L : forall p,
  (forall q a, q ∈ L -> q <= a < q + 4 -> m' a = m a) -> chain m p L -> chain m' p L.
Proof.
  induction L as [|q L IH]; intros p H; cbn [chain]; [done|]. intros [-> Hc]. split; [done|].
  rewrite (ld_long_ext q m m') by (intros; apply (H q); [left|done]).
  apply IH; [|done]. intros q' a Hq'. apply H. by right.
Qed.

Lemma acquire_kmem_spec s : k_lock s = false ->
  wp acquire_kmem s (fun _ s' => s' = set_lock (use_lock s) s).
Proof.
  intros Hl. unfold acquire_kmem, wp, bind, gets, when, modify, ret. destruct s as [l u f m]. cbn in *. subst.
  by destruct u.
Qed.

Lemma release_kmem_spec s : k_lock s = use_lock s ->
  wp release_kmem s (fun _ s' => s' = set_lock false s).
Proof.
  intros Hl. unfold release_kmem, wp, bind, gets, when, modify, ret. destruct s as [l u f m]. cbn in *. subst.
  by destruct u.
Qed.

(** What [kfree] leaves in the page: the link, then ones. *)
Definition freed (v next : Z) (m : mem) : mem := wr_long v next (Kstring.memset v 1 PGSIZE m).

Lemma freed_out v next m a : ~ in_page v a -> freed v next m a = m a.
Proof.
  unfold in_page, freed. rewrite PGSIZE_val. intros H. rewrite wr_long_out by lia.
  rewrite memset_fills by done. by rewrite decide_False by lia.
Qed.

Lemma freed_next v next m : ld_long v (freed v next m) = u32 next.
Proof. apply ld_wr_long_same. Qed.

Lemma kfree_spec s L v : krep s L -> page_ok v -> v ∉ L ->
  wp (kfree v) s (fun _ s' => krep s' (v :: L) /\ use_lock s' = use_lock s /\
    pm s' = freed v (freelist s) (pm s)).
Proof.
  intros [Hl Hc Hn Ho] Hv Hi. unfold kfree. destruct (proj1 (page_ok_test v) Hv) as [_ ->].
  apply wp_bind, wp_modify. eapply wp_seq; [by apply acquire_kmem_spec|]. intros [] s1 ->.
  apply wp_bind, wp_modify, wp_bind, wp_modify.
  eapply wp_conseq; [by apply release_kmem_spec|]. intros [] s2 ->. split_and!; [|done|done].
  split; cbn [k_lock freelist pm set_lock set_freelist set_pm chain]; [done| |by constructor|by constructor]. split; [done|].
  fold (freed v (freelist s) (pm s)). rewrite freed_next.
  assert (u32 (freelist s) = freelist s) as ->.
  { apply u32_small. destruct L as [|q L]; cbn in Hc; [lia|]. destruct Hc as [-> _].
    inversion Ho as [|? ? Hq]; subst. by apply page_ok_u32. }
  apply chain_ext with (pm s); [|done]. intros q a Hq Ha. apply freed_out.
  rewrite Forall_forall in Ho. destruct (Ho q Hq) as (Hq1 & _). destruct Hv as (Hv1 & _).
  apply (pages_apart q v); [done|done|by intros ->|]. unfold in_page. rewrite PGSIZE_val. lia.
Qed.

Lemma kfree_panics s v : is_u32 v -> ~ page_ok v -> kfree v s = Panic "kfree" s.
Proof.
  intros Hu Hv. unfold kfree.
  destruct (negb _ || _ || _) eqn:E; [done|]. destruct Hv. by apply page_ok_test.
Qed.

Lemma kalloc_spec s L : krep s L ->
  wp kalloc s (fun p s' => pm s' = pm s /\ use_lock s' = use_lock s /\
    match L with [] => p = 0 /\ krep s' [] | q :: L' => p = q /\ krep s' L' end).
Proof.
  intros [Hl Hc Hn Ho]. unfold kalloc. eapply wp_seq; [by apply acquire_kmem_spec|]. intros [] s1 ->.
  apply wp_bind, wp_gets. cbn [freelist set_lock]. apply wp_bind.
  destruct L as [|q L]; cbn in Hc.
  - rewrite Hc. cbn [when negb Z.eqb]. apply wp_ret.
    eapply wp_seq; [by apply release_kmem_spec|]. intros [] s2 ->. apply wp_ret. by repeat (split; [done|]).
  - destruct Hc as [-> Hc]. inversion Ho as [|? ? Hq Ho']; subst. inversion Hn; subst.
    destruct (page_ok_u32 q Hq) as [_ Hz]. rewrite (proj2 (Z.eqb_neq q 0)) by done.
    cbn [when negb]. apply wp_modify.
    eapply wp_seq; [by apply release_kmem_spec|]. intros [] s2 ->. apply wp_ret. by repeat (split; [done|]).
Qed.

(** ** Initialisation *)

Definition in_range (p vend v : Z) : Prop := v mod PGSIZE = 0 /\ p <= v /\ v + PGSIZE <= vend.

Lemma freerange_loop_spec vend : vend <= KERNBASE + PHYSTOP ->
  forall fuel s L p, krep s L -> p mod PGSIZE = 0 -> kend <= p -> p <= KERNBASE + PHYSTOP ->
  (forall q, q ∈ L -> q + PGSIZE <= p) -> Z.max 0 ((vend - p) / PGSIZE) < Z.of_nat fuel ->
  wp (freerange_loop fuel p vend) s (fun _ s' => use_lock s' = use_lock s /\
    (forall a, ~ p <= a < vend -> pm s' a = pm s a) /\
    exists L', krep s' L' /\ forall v, v ∈ L' <-> v ∈ L \/ in_range p vend v).
Proof.
  intros Htop. induction fuel as [|fuel IH]; intros s L p Hr Hp He Hh Hlow Hf; cbn [freerange_loop].
  { lia. }
  rewrite u32_small by (rewrite PGSIZE_val; unfold KERNBASE, PHYSTOP in *; lia).
  rewrite PGSIZE_val in *. destruct (Z.leb_spec (p + 4096) vend) as [Hle|Hgt].
  - assert (page_ok p) as Hok by (unfold page_ok; rewrite PGSIZE_val; lia).
    eapply wp_seq; [apply (kfree_spec s L p Hr Hok)|].
    { intros Hin%Hlow. lia. }
    intros [] s1 (Hr1 & Hu1 & Hm1).
    eapply wp_conseq; [apply (IH s1 (p :: L) (p + 4096) Hr1)|]; try lia.
    + rewrite <- Zplus_mod_idemp_l, Hp. done.
    + intros q [->|Hq]%elem_of_cons; [lia|]. specialize (Hlow q Hq). lia.
    + replace (vend - p) with (vend - (p + 4096) + 1 * 4096) in Hf by lia. rewrite Z.div_add in Hf by lia.
      pose proof (Z.div_pos (vend - (p + 4096)) 4096). lia.
    + intros [] s' (Hu' & Hm' & L' & Hr' & HL'). split_and!; [congruence| |].
      * intros a Ha. rewrite Hm' by lia. rewrite Hm1. apply freed_out. unfold in_page. rewrite PGSIZE_val. lia.
      * exists L'. split; [done|]. intros v. rewrite HL', elem_of_cons. unfold in_range. rewrite PGSIZE_val. split.
        -- intros [[->|]|]; [right; lia|by left|right; lia].
        -- intros [|(Hm & Hv & Hv')]; [by left; right|]. destruct (decide (v = p)) as [->|]; [by left; left|].
           right. split_and!; [done| |done]. apply Z.div_exact in Hm, Hp; [|done..]. lia.
  - apply wp_ret. split_and!; [done|done|]. exists L. split; [done|]. intros v. unfold in_range. rewrite PGSIZE_val.
    split; [by left|]. intros [|]; [done|lia].
Qed.

Lemma PGROUNDUP_up a : 0 <= a -> a + 4096 < 2 ^ 32 ->
  a <= PGROUNDUP a /\ PGROUNDUP a mod 4096 = 0 /\ forall v, v mod 4096 = 0 -> a <= v -> PGROUNDUP a <= v.
Proof.
  intros Ha Hb. rewrite PGROUNDUP_val, u32_small by lia.
  pose proof (Z.div_mod (a + 4095) 4096 ltac:(lia)). pose proof (Z.mod_pos_bound (a + 4095) 4096 ltac:(lia)).
  split_and!; [lia| |].
  - replace (a + 4095 - (a + 4095) mod 4096) with ((a + 4095) / 4096 * 4096) by lia. by apply Z.mod_mul.
  - intros v Hv%Z.div_exact Hav; [|done]. lia.
Qed.

Lemma freerange_spec s L vstart vend : krep s L -> kend <= vstart -> vstart <= vend ->
  vend <= KERNBASE + PHYSTOP -> (forall q, q ∈ L -> q + PGSIZE <= vstart) ->
  wp (freerange vstart vend) s (fun _ s' => use_lock s' = use_lock s /\
    (forall a, ~ vstart <= a < vend -> pm s' a = pm s a) /\
    exists L', krep s' L' /\ forall v, v ∈ L' <-> v ∈ L \/ in_range vstart vend v).
Proof.
  intros Hr He Hle Htop Hlow. unfold freerange.
  destruct (PGROUNDUP_up vstart) as (H1 & H2 & H3); [unfold KERNBASE in *; lia|unfold KERNBASE, PHYSTOP in *; lia|].
  set (p := PGROUNDUP vstart) in *.
  assert (p <= KERNBASE + PHYSTOP).
  { apply H3; [reflexivity|]. lia. }
  eapply wp_conseq; [apply (freerange_loop_spec vend Htop _ s L p Hr)|]; try done; try lia.
  - intros q Hq%Hlow. lia.
  - intros [] s' (Hu & Hm & L' & Hr' & HL'). split_and!; [done| |].
    + intros a Ha. apply Hm. lia.
    + exists L'. split; [done|]. intros v. rewrite HL'. unfold in_range. rewrite PGSIZE_val in *.
      split; (intros [|(? & ? & ?)]; [by left|right; split_and!; auto; lia]).
Qed.

(** ** Every run of the allocator

    The allocator's state, the pages handed out and not yet returned, and the
    top of the memory given to it.  Between calls, code that holds a page may
    store anything into it. *)
Definition ast : Type := kst * gset Z * Z.

Inductive kstep : ast -> ast -> Prop :=
| step_kalloc s A t p s' :
    kalloc s = Ret p s' -> kstep (s, A, t) (s', if p =? 0 then A else {[p]} ∪ A, t)
| step_kfree s A t v s' :
    v ∈ A -> kfree v s = Ret tt s' -> kstep (s, A, t) (s', A ∖ {[v]}, t)
| step_store s A t v a x :
    v ∈ A -> in_page v a -> kstep (s, A, t) (set_pm (wr a x (pm s)) s, A, t)
| step_kinit2 s A t t' s' :
    t mod PGSIZE = 0 -> t <= t' -> t' <= KERNBASE + PHYSTOP ->
    kinit2 t t' s = Ret tt s' -> kstep (s, A, t) (s', A, t').

Inductive kreach : ast -> Prop :=
| reach_init s0 t s :
    freelist s0 = 0 -> kend <= t -> t <= KERNBASE + PHYSTOP ->
    kinit1 kend t s0 = Ret tt s -> kreach (s, ∅, t)
| reach_step x y : kreach x -> kstep x y -> kreach y.

Definition kinv (x : ast) : Prop :=
  let '(s, A, t) := x in
  kend <= t /\ exists L, krep s L /\ (forall v, v ∈ L -> v ∉ A) /\
    (forall v, v ∈ L \/ v ∈ A <-> in_range kend t v).

Lemma page_ok_range t v : t <= KERNBASE + PHYSTOP -> in_range kend t v -> page_ok v.
Proof. unfold in_range, page_ok. lia. Qed.

Lemma kinv_init s0 t s : freelist s0 = 0 -> kend <= t -> t <= KERNBASE + PHYSTOP ->
  kinit1 kend t s0 = Ret tt s -> kinv (s, ∅, t).
Proof.
  intros H0 He Ht Hk.
  assert (wp (kinit1 kend t) s0 (fun _ s' => kinv (s', ∅, t))) as Hw.
  { unfold kinit1. apply wp_bind, wp_modify, wp_bind, wp_modify.
    eapply wp_conseq; [apply (freerange_spec _ [] kend t)|]; try done.
    - split; [done|done|constructor|constructor].
    - intros q Hq. set_solver.
    - intros [] s' (_ & _ & L & Hr & HL). split; [done|]. exists L. split_and!; [done|set_solver|].
      intros v. rewrite HL. set_solver. }
  unfold wp in Hw. by rewrite Hk in Hw.
Qed.

Lemma kinv_kalloc s A t p s' : t <= KERNBASE + PHYSTOP -> kinv (s, A, t) -> kalloc s = Ret p s' ->
  kinv (s', if p =? 0 then A else {[p]} ∪ A, t).
Proof.
  intros Ht (He & L & Hr & Hd & HL) Hk. pose proof (kalloc_spec s L Hr) as Hw. unfold wp in Hw. rewrite Hk in Hw.
  destruct Hw as (_ & _ & Hw). split; [done|]. destruct L as [|q L].
  - destruct Hw as [-> Hr']. exists []. by split_and!.
  - destruct Hw as [-> Hr']. pose proof (kr_ok _ _ Hr) as Ho. pose proof (kr_nodup _ _ Hr) as Hn.
    inversion Ho as [|? ? Hq]; inversion Hn; subst. destruct (page_ok_u32 q Hq) as [_ Hz].
    rewrite (proj2 (Z.eqb_neq q 0)) by done. exists L. split_and!; [done| |].
    + intros v Hv. specialize (Hd v). set_solver.
    + intros v. rewrite <- HL. set_solver.
Qed.

Lemma kinv_kfree s A t v s' : t <= KERNBASE + PHYSTOP -> kinv (s, A, t) -> v ∈ A -> kfree v s = Ret tt s' ->
  kinv (s', A ∖ {[v]}, t).
Proof.
  intros Ht (He & L & Hr & Hd & HL) Hv Hk.
  assert (page_ok v) as Hok by (apply (page_ok_range t); [done|]; apply HL; by right).
  pose proof (kfree_spec s L v Hr Hok ltac:(intros ?%Hd; done)) as Hw. unfold wp in Hw. rewrite Hk in Hw.
  destruct Hw as (Hr' & _). split; [done|]. exists (v :: L). split_and!; [done| |].
  - intros w [->|Hw]%elem_of_cons; [set_solver|]. specialize (Hd w Hw). set_solver.
  - intros w. rewrite <- HL, elem_of_cons. destruct (decide (w = v)) as [->|]; set_solver.
Qed.

Lemma kinv_store s A t v a x : t <= KERNBASE + PHYSTOP -> kinv (s, A, t) -> v ∈ A -> in_page v a ->
  kinv (set_pm (wr a x (pm s)) s, A, t).
Proof.
  intros Ht (He & L & [Hl Hc Hn Ho] & Hd & HL) Hv Ha. split; [done|]. exists L. split_and!; [|done|done].
  split; [done| |done|done]. cbn [pm freelist set_pm]. apply chain_ext with (pm s); [|done].
  intros q b Hq Hb. apply wr_ne. intros ->.
  assert (q <> v) as Hne by (intros ->; by apply (Hd v)).
  rewrite Forall_forall in Ho. destruct (Ho q Hq) as (Hm & _).
  destruct (proj1 (HL v) (or_intror Hv)) as (Hmv & _).
  apply (pages_apart q v a); try done. unfold in_page. rewrite PGSIZE_val. lia.
Qed.

Lemma kinit2_spec s A t t' : t mod PGSIZE = 0 -> t <= t' -> t' <= KERNBASE + PHYSTOP -> kinv (s, A, t) ->
  wp (kinit2 t t') s (fun _ s' => kinv (s', A, t')).
Proof.
  intros Hm Hle Htop (He & L & Hr & Hd & HL). unfold kinit2.
  eapply wp_seq; [apply (freerange_spec s L t t' Hr He Hle Htop)|].
  { intros q Hq. destruct (proj1 (HL q) (or_introl Hq)) as (_ & _ & H). done. }
  intros [] s1 (_ & _ & L' & [Hl Hc Hn Ho] & HL'). apply wp_modify. split; [lia|]. exists L'.
  split_and!; [by split| |].
  - intros v [Hv|Hv]%HL'; [by apply Hd|]. intros Hu. destruct (proj1 (HL v) (or_intror Hu)) as (_ & _ & H).
    unfold in_range in Hv. rewrite PGSIZE_val in *. lia.
  - intros v. rewrite HL'. assert (v ∈ L \/ in_range t t' v \/ v ∈ A <-> in_range kend t' v); [|tauto].
    assert (in_range kend t v \/ in_range t t' v <-> in_range kend t' v); [|specialize (HL v); tauto].
    unfold in_range. rewrite PGSIZE_val in *. split; [lia|]. intros (Hv & H1 & H2).
    destruct (decide (v + 4096 <= t)); [by left|]. right. split_and!; [done| |done].
    apply Z.div_exact in Hv, Hm; [|done..]. lia.
Qed.

Lemma kinv_kinit2 s A t t' s' : t mod PGSIZE = 0 -> t <= t' -> t' <= KERNBASE + PHYSTOP ->
  kinv (s, A, t) -> kinit2 t t' s = Ret tt s' -> kinv (s', A, t').
Proof.
  intros Hm Hle Htop Hi Hk. pose proof (kinit2_spec s A t t' Hm Hle Htop Hi) as Hw. unfold wp in Hw.
  by rewrite Hk in Hw.
Qed.

Lemma kreach_inv x : kreach x -> kinv x /\ x.2 <= KERNBASE + PHYSTOP.
Proof.
  induction 1 as [s0 t s H0 He Ht Hk|x y _ [Hi Ht] Hs].
  - split; [by apply (kinv_init s0)|done].
  - destruct Hs; cbn in Ht; (split; [|done]);
      eauto using kinv_kalloc, kinv_kfree, kinv_store, kinv_kinit2.
Qed.

(** C31: over any run from [kinit1] of allocations, releases of allocated
    pages, stores into allocated pages and [kinit2], the allocator is safe: the
    next [kalloc] returns a page of the memory it was given that nobody holds,
    or 0 only when every page is held, and changes no memory; [kfree] of a held
    page never panics and leaves every other held page as it was. *)
Theorem kalloc_exclusive s A t :
  kreach (s, A, t) ->
  (exists p s', kalloc s = Ret p s' /\ pm s' = pm s /\
     (if p =? 0 then forall v, in_range kend t v -> v ∈ A else p ∉ A /\ in_range kend t p)) /\
  (forall v, v ∈ A -> exists s', kfree v s = Ret tt s' /\
     forall w a, w ∈ A -> w <> v -> in_page w a -> pm s' a = pm s a).
Proof.
  intros [(He & L & Hr & Hd & HL) Ht]%kreach_inv. cbn in Ht. split.
  - destruct (proj1 (wp_eq _ _ _) (kalloc_spec s L Hr)) as (p & s' & Hk & Hm & _ & Hw).
    exists p, s'. split_and!; [done|done|]. destruct L as [|q L]; destruct Hw as [-> Hr'].
    + intros v [Hv|Hv]%HL; [set_solver|done].
    + pose proof (kr_ok _ _ Hr) as Ho. inversion Ho as [|? ? Hq]; subst.
      rewrite (proj2 (Z.eqb_neq q 0)) by apply (page_ok_u32 q Hq).
      split; [apply Hd; left|apply HL; left; left].
  - intros v Hv. assert (page_ok v) as Hok by (apply (page_ok_range t); [done|]; apply HL; by right).
    destruct (wp_eq_tt _ _ _ (kfree_spec s L v Hr Hok ltac:(intros ?%Hd; done))) as (s' & Hk & _ & _ & Hm).
    exists s'. split; [done|]. intros w a Hw Hne Ha. rewrite Hm. apply freed_out.
    destruct (proj1 (HL w) (or_intror Hw)) as (Hmw & _).
    apply (pages_apart w v); try done. apply Hok.
Qed.
End kalloc.

(** Two pages given at boot, one allocated. *)
Module KallocW.
Definition kend : Z := KERNBASE + 2 * 4096.
Definition s0 : kst := mkk false false 0 (fun _ => 0).
Definition after (m : M kst unit) (s : kst) : kst := match m s with Ret _ s' => s' | _ => s end.
Definition s1 : kst := after (kinit1 kend kend (kend + 2 * 4096)) s0.
Definition s2 : kst := after (p <- kalloc ;; ret tt) s1.

Lemma kalloc_exclusive_witness :
  exists p s', kalloc s2 = Ret p s' /\ pm s' = pm s2 /\
    (if p =? 0 then forall v, in_range kend (kend + 2 * 4096) v -> v ∈ ({[kend + 4096]} : gset Z)
     else p ∉ ({[kend + 4096]} : gset Z) /\ in_range kend (kend + 2 * 4096) p).
Proof.
  apply (kalloc_exclusive kend ltac:(reflexivity) s2 {[kend + 4096]} (kend + 2 * 4096)).
  replace ({[kend + 4096]} : gset Z) with (if kend + 4096 =? 0 then ∅ else {[kend + 4096]} ∪ ∅ : gset Z)
    by (cbn; set_solver).
  apply (reach_step _ (s1, ∅, kend + 2 * 4096)).
  - by apply (reach_init kend s0).
  - apply (step_kalloc kend s1). reflexivity.
Defined.
End KallocW.
