(* ===== verification/Spinlock.v ===== *)
(** Spin locks: spinlock.c.

    Per-CPU interrupt nesting ([pushcli]/[popcli]) and the locks themselves.
    The operations are cut at their shared-memory accesses, and a machine of
    several CPUs interleaves the pieces: mutual exclusion and the interrupt
    discipline are invariants of every interleaving. *)

From S2P Require Import Prelude Params CString Mmu.

(** ** State *)

(** The part of [struct cpu] (proc.h) the locks use, and the EFLAGS register. *)
Record cpu : Type := mkcpu { ncli : Z; intena : Z; eflags : Z }.

Record spinlock : Type := mklock { locked : Z; lk_cpu : option nat; pcs : list Z }.

Record mst : Type := mkm { cpus : nat -> cpu; locks : nat -> spinlock }.

Definition set_cpu (c : nat) (x : cpu) (s : mst) : mst :=
  mkm (fun c' => if (c' =? c)%nat then x else cpus s c') (locks s).
Definition set_lk (l : nat) (x : spinlock) (s : mst) : mst :=
  mkm (cpus s) (fun l' => if (l' =? l)%nat then x else locks s l').

(** ** Operations *)

Definition readeflags (c : nat) : M mst Z := gets (fun s => eflags (cpus s c)).
Definition cli (x : cpu) : cpu := mkcpu (ncli x) (intena x) (Z.land (eflags x) (Z.lnot FL_IF)).
Definition sti (x : cpu) : cpu := mkcpu (ncli x) (intena x) (Z.lor (eflags x) FL_IF).

(** spinlock.c [initlock] *)
Definition initlock (lk : spinlock) : spinlock := mklock 0 None (pcs lk).

(** spinlock.c [pushcli] *)
Definition pushcli (c : nat) : M mst unit :=
  e <- readeflags c ;;
  modify (fun s => set_cpu c (cli (cpus s c)) s) ;;
  n <- gets (fun s => ncli (cpus s c)) ;;
  modify (fun s => let x := cpus s c in set_cpu c (mkcpu (s32 (n + 1)) (intena x) (eflags x)) s) ;;
  when (n =? 0)
    (modify (fun s => let x := cpus s c in set_cpu c (mkcpu (ncli x) (Z.land e FL_IF) (eflags x)) s)).

(** spinlock.c [popcli] *)
Definition popcli (c : nat) : M mst unit :=
  e <- readeflags c ;;
  if testf e FL_IF then panic "popcli - interruptible" else
  modify (fun s => let x := cpus s c in set_cpu c (mkcpu (s32 (ncli x - 1)) (intena x) (eflags x)) s) ;;
  x <- gets (fun s => cpus s c) ;;
  if ncli x <? 0 then panic "popcli" else
  when ((ncli x =? 0) && negb (intena x =? 0)) (modify (fun s => set_cpu c (sti (cpus s c)) s)).

(** spinlock.c [holding] *)
Definition holding (c l : nat) : M mst bool :=
  gets (fun s => negb (locked (locks s l) =? 0) && bool_decide (lk_cpu (locks s l) = Some c)).

(** x86.h [xchg] on [lk->locked] *)
Definition xchg (l : nat) (newval : Z) : M mst Z :=
  lk <- gets (fun s => locks s l) ;;
  modify (set_lk l (mklock newval (lk_cpu lk) (pcs lk))) ;;
  ret (locked lk).

(** spinlock.c [getcallerpcs]: the saved return addresses on the %ebp chain. *)
Fixpoint getcallerpcs_loop (n : nat) (ebp : Z) (m : mem) : list Z :=
  match n with
  | O => []
  | S k =>
      if (ebp =? 0) || (ebp <? KERNBASE) || (ebp =? 0xffffffff) then replicate n 0
      else ld_long (u32 (ebp + 4)) m :: getcallerpcs_loop k (ld_long ebp m) m
  end.
Definition getcallerpcs (v : Z) (m : mem) : list Z := getcallerpcs_loop 10 (u32 (v - 8)) m.

(** spinlock.c [acquire]: up to the first exchange, one exchange, and the
    debugging record after the loop. *)
Definition acquire_start (c l : nat) : M mst unit :=
  pushcli c ;;
  h <- holding c l ;;
  when h (panic "acquire").
Definition acquire_try (l : nat) : M mst bool :=
  old <- xchg l 1 ;; ret (old =? 0).
Definition acquire_record (c l : nat) (p : list Z) : M mst unit :=
  modify (fun s => set_lk l (mklock (locked (locks s l)) (Some c) p) s).

(** [while(xchg(&lk->locked, 1) != 0);] for up to [fuel] rounds. *)
Fixpoint acquire_spin (fuel : nat) (l : nat) : M mst unit :=
  match fuel with
  | O => fault "acquire: still spinning"
  | S f => b <- acquire_try l ;; if b then ret tt else acquire_spin f l
  end.
Definition acquire (fuel : nat) (c l : nat) (p : list Z) : M mst unit :=
  acquire_start c l ;; acquire_spin fuel l ;; acquire_record c l p.

(** spinlock.c [release]: up to the exchange, and from it on. *)
Definition release_start (c l : nat) : M mst unit :=
  h <- holding c l ;;
  if h then modify (fun s => set_lk l (mklock (locked (locks s l)) None (<[0%nat := 0]> (pcs (locks s l)))) s)
  else panic "release".
Definition release_end (c l : nat) : M mst unit :=
  xchg l 0 ;; popcli c.
Definition release (c l : nat) : M mst unit := release_start c l ;; release_end c l.

(** ** Interrupt nesting *)

Definition ints_on (x : cpu) : bool := testf (eflags x) FL_IF.

Lemma FL_IF_pow : FL_IF = 2 ^ 9.
Proof. done. Qed.

Lemma pushcli_spec c s : 0 <= ncli (cpus s c) < 2 ^ 31 - 1 ->
  wp (pushcli c) s (fun _ s' => locks s' = locks s /\ (forall c', c' <> c -> cpus s' c' = cpus s c') /\
    ncli (cpus s' c) = ncli (cpus s c) + 1 /\ ints_on (cpus s' c) = false /\
    intena (cpus s' c) = (if ncli (cpus s c) =? 0 then Z.land (eflags (cpus s c)) FL_IF else intena (cpus s c)) /\
    eflags (cpus s' c) = Z.land (eflags (cpus s c)) (Z.lnot FL_IF)).
Proof.
  intros Hn. unfold pushcli, readeflags. apply wp_bind, wp_gets, wp_bind, wp_modify, wp_bind, wp_gets, wp_bind, wp_modify.
  cbn [cpus set_cpu]. rewrite Nat.eqb_refl. cbn [ncli cli].
  destruct (ncli (cpus s c) =? 0) eqn:E; cbn [when]; [apply wp_modify|apply wp_ret]; cbn [cpus set_cpu locks];
    rewrite ?Nat.eqb_refl; cbn [ncli intena eflags cli]; rewrite s32_small by lia;
    (split_and!; [done| |done|unfold ints_on; cbn [eflags]; apply testf_clear_same|done|done]);
    intros c' Hc'; by rewrite (proj2 (Nat.eqb_neq _ _)).
Qed.

Lemma popcli_spec c s : 1 <= ncli (cpus s c) < 2 ^ 31 -> ints_on (cpus s c) = false ->
  wp (popcli c) s (fun _ s' => locks s' = locks s /\ (forall c', c' <> c -> cpus s' c' = cpus s c') /\
    ncli (cpus s' c) = ncli (cpus s c) - 1 /\ intena (cpus s' c) = intena (cpus s c) /\
    eflags (cpus s' c) = (if (ncli (cpus s c) =? 1) && negb (intena (cpus s c) =? 0)
      then Z.lor (eflags (cpus s c)) FL_IF else eflags (cpus s c))).
Proof.
  intros Hn Hi. unfold popcli, readeflags. apply wp_bind, wp_gets. unfold ints_on in Hi. rewrite Hi.
  apply wp_bind, wp_modify, wp_bind, wp_gets. cbn [cpus set_cpu]. rewrite Nat.eqb_refl. cbn [ncli intena].
  rewrite s32_small by lia. rewrite (proj2 (Z.ltb_ge _ _)) by lia.
  replace (ncli (cpus s c) - 1 =? 0) with (ncli (cpus s c) =? 1)
    by (destruct (Z.eqb_spec (ncli (cpus s c)) 1), (Z.eqb_spec (ncli (cpus s c) - 1) 0); lia).
  destruct ((ncli (cpus s c) =? 1) && negb (intena (cpus s c) =? 0)); cbn [when]; [apply wp_modify|apply wp_ret];
    cbn [cpus set_cpu locks]; rewrite ?Nat.eqb_refl; cbn [ncli intena eflags sti];
    (split_and!; [done| |done|done|done]); intros c' Hc'; by rewrite !(proj2 (Nat.eqb_neq _ _)).
Qed.

(** [k] calls of [pushcli] are outstanding on [c], the first made with flags [e0]. *)
Definition nested (c : nat) (e0 k : Z) (s : mst) : Prop :=
  let x := cpus s c in ncli x = k /\
  if k =? 0 then eflags x = e0
  else intena x = Z.land e0 FL_IF /\ eflags x = Z.land e0 (Z.lnot FL_IF).

Lemma clear_clear e m : Z.land (Z.land e (Z.lnot m)) (Z.lnot m) = Z.land e (Z.lnot m).
Proof. by rewrite <- Z.land_assoc, Z.land_diag. Qed.

Lemma restore_flags e : (if negb (Z.land e FL_IF =? 0) then Z.lor (Z.land e (Z.lnot FL_IF)) FL_IF
  else Z.land e (Z.lnot FL_IF)) = e.
Proof.
  rewrite FL_IF_pow, land_pow2 by lia.
  assert (Z.land e (Z.lnot (2 ^ 9)) = Z.clearbit e 9) as ->.
  { rewrite <- Z.ldiff_land. symmetry. apply Z.clearbit_spec'. }
  destruct (Z.testbit e 9) eqn:E;
    [change (negb (2 ^ 9 =? 0)) with true|change (negb (0 =? 0)) with false]; cbv iota.
  - rewrite <- Z.setbit_spec'. apply Z.bits_inj'. intros n Hn.
    destruct (decide (n = 9)) as [->|]; [by rewrite Z.setbit_eq|].
    by rewrite Z.setbit_neq, Z.clearbit_neq by lia.
  - apply Z.bits_inj'. intros n Hn.
    destruct (decide (n = 9)) as [->|]; [by rewrite Z.clearbit_eq|]. by rewrite Z.clearbit_neq by lia.
Qed.

Lemma nested_off c e0 k s : 0 < k -> nested c e0 k s -> ints_on (cpus s c) = false.
Proof.
  intros Hk [_ H]. rewrite (proj2 (Z.eqb_neq _ _)) in H by lia. destruct H as [_ E].
  unfold ints_on. rewrite E. apply testf_clear_same.
Qed.

Lemma pushcli_nested c e0 k s : 0 <= k < 2 ^ 31 - 1 -> nested c e0 k s ->
  wp (pushcli c) s (fun _ s' => nested c e0 (k + 1) s').
Proof.
  intros Hk [Hn H]. eapply wp_conseq; [apply pushcli_spec; lia|].
  intros _ s' (_ & _ & Hn' & _ & Hi & He). split; [lia|]. rewrite (proj2 (Z.eqb_neq _ _)) by lia.
  rewrite Hi, He, Hn. destruct (k =? 0); [by rewrite H|]. destruct H as [-> ->]. by rewrite clear_clear.
Qed.

Lemma popcli_nested c e0 k s : 0 <= k < 2 ^ 31 - 1 -> nested c e0 (k + 1) s ->
  wp (popcli c) s (fun _ s' => nested c e0 k s').
Proof.
  intros Hk N. pose proof (nested_off c e0 (k + 1) s ltac:(lia) N) as Hoff. destruct N as [Hn H].
  rewrite (proj2 (Z.eqb_neq _ _)) in H by lia. destruct H as [Hi He].
  eapply wp_conseq; [apply popcli_spec; [lia|done]|].
  intros _ s' (_ & _ & Hn' & Hi' & He'). split; [lia|]. rewrite Hi', He', Hi, He, Hn.
  destruct (Z.eqb_spec k 0) as [->|]; cbn [Z.add Z.eqb andb].
  - apply restore_flags.
  - by rewrite (proj2 (Z.eqb_neq (k + 1) 1)) by lia.
Qed.

Definition repeat_op (n : nat) (m : M mst unit) : M mst unit := for_each (seq 0 n) (fun _ => m).

(** [pushcli] and [popcli] nest: on a CPU with no call outstanding,
    [n] calls of [pushcli] followed by [j <= n] of [popcli] return without a
    panic; interrupts stay off while [j < n], and after the last one the flags
    register is what it was before the first [pushcli], on or off. *)
Theorem pushcli_popcli_nest s c n j :
  ncli (cpus s c) = 0 -> (j <= n)%nat -> Z.of_nat n < 2 ^ 31 - 1 ->
  exists s', (repeat_op n (pushcli c) ;; repeat_op j (popcli c)) s = Ret tt s' /\
    ncli (cpus s' c) = Z.of_nat (n - j) /\
    if decide (j < n)%nat then ints_on (cpus s' c) = false else eflags (cpus s' c) = eflags (cpus s c).
Proof.
  intros H0 Hj Hn.
  assert (wp (repeat_op n (pushcli c) ;; repeat_op j (popcli c)) s
    (fun _ s' => nested c (eflags (cpus s c)) (Z.of_nat (n - j)) s')) as Hw.
  { eapply wp_seq.
    - apply (wp_for_seq (fun i s' => nested c (eflags (cpus s c)) (Z.of_nat i) s')); [by split|].
      intros i s1 Hi N. rewrite Nat2Z.inj_succ. apply pushcli_nested; [lia|done].
    - intros [] s1 N. apply (wp_for_seq (fun i s' => nested c (eflags (cpus s c)) (Z.of_nat (n - i)) s')).
      + by rewrite Nat.sub_0_r.
      + intros i s2 Hi N2. apply popcli_nested; [lia|].
        by replace (Z.of_nat (n - S i) + 1) with (Z.of_nat (n - i)) by lia. }
  apply wp_eq_tt in Hw as (s' & E & N). exists s'. split; [done|]. split; [apply N|].
  destruct (decide (j < n)%nat); [apply (nested_off c (eflags (cpus s c)) (Z.of_nat (n - j))); [lia|done]|].
  destruct N as [_ N]. by replace (Z.of_nat (n - j)) with 0 in N by lia.
Qed.

(** ** Several CPUs *)

(** Where a CPU is in [acquire] or [release]. *)
Inductive phase : Type := Run | Spin (l : nat) | Got (l : nat) | Rel (l : nat).

(** The machine, with the locks each CPU has acquired and not released, and
    its explicit [pushcli]s. *)
Record gst : Type := mkg { ms : mst; ph : nat -> phase; held : nat -> list nat; depth : nat -> nat }.

Definition fupd {A} (c : nat) (x : A) (f : nat -> A) : nat -> A := fun c' => if (c' =? c)%nat then x else f c'.

Definition small (c : nat) (m : mst) : Prop := ncli (cpus m c) < 2 ^ 31 - 1.

Inductive mstep : gst -> gst -> Prop :=
| s_push c m p h d m' : p c = Run -> small c m -> pushcli c m = Ret tt m' ->
    mstep (mkg m p h d) (mkg m' p h (fupd c (S (d c)) d))
| s_pop c m p h d n m' : p c = Run -> d c = S n -> popcli c m = Ret tt m' ->
    mstep (mkg m p h d) (mkg m' p h (fupd c n d))
| s_flags c m p h d e : p c = Run -> ncli (cpus m c) = 0 ->
    mstep (mkg m p h d) (mkg (set_cpu c (mkcpu 0 (intena (cpus m c)) e) m) p h d)
| s_acquire c l m p h d m' : p c = Run -> small c m -> l ∉ h c -> acquire_start c l m = Ret tt m' ->
    mstep (mkg m p h d) (mkg m' (fupd c (Spin l) p) h d)
| s_try c l m p h d (b : bool) m' : p c = Spin l -> acquire_try l m = Ret b m' ->
    mstep (mkg m p h d) (mkg m' (fupd c (if b then Got l else Spin l) p) h d)
| s_record c l m p h d pc m' : p c = Got l -> acquire_record c l pc m = Ret tt m' ->
    mstep (mkg m p h d) (mkg m' (fupd c Run p) (fupd c (l :: h c) h) d)
| s_release c l m p h d m' : p c = Run -> l ∈ h c -> release_start c l m = Ret tt m' ->
    mstep (mkg m p h d) (mkg m' (fupd c (Rel l) p) (fupd c (filter (.≠ l) (h c)) h) d)
| s_end c l m p h d m' : p c = Rel l -> release_end c l m = Ret tt m' ->
    mstep (mkg m p h d) (mkg m' (fupd c Run p) h d).

(** A machine that starts with every lock free and no [pushcli] outstanding. *)
Definition mstart (g : gst) : Prop :=
  (forall l, locked (locks (ms g) l) = 0 /\ lk_cpu (locks (ms g) l) = None) /\
  (forall c, ncli (cpus (ms g) c) = 0 /\ ph g c = Run /\ held g c = [] /\ depth g c = O).

Definition owns (g : gst) (c l : nat) : Prop := ph g c = Got l \/ ph g c = Rel l \/ l ∈ held g c.

Definition busy (p : phase) : Z := match p with Run => 0 | _ => 1 end.

Record minv (g : gst) : Prop := {
  mi_bit : forall l, locked (locks (ms g) l) = 0 \/ locked (locks (ms g) l) = 1;
  mi_free : forall c l, owns g c l -> locked (locks (ms g) l) = 1;
  mi_one : forall c c' l, owns g c l -> owns g c' l -> c = c';
  mi_cpu : forall c l, lk_cpu (locks (ms g) l) = Some c <-> l ∈ held g c;
  mi_nodup : forall c, NoDup (held g c);
  mi_phase : forall c l, ph g c = Got l \/ ph g c = Rel l -> l ∉ held g c;
  mi_ncli : forall c, ncli (cpus (ms g) c) = Z.of_nat (depth g c) + Z.of_nat (length (held g c)) + busy (ph g c);
  mi_max : forall c, ncli (cpus (ms g) c) < 2 ^ 31;
  mi_off : forall c, 0 < ncli (cpus (ms g) c) -> ints_on (cpus (ms g) c) = false }.

Lemma fupd_same {A} c (x : A) f : fupd c x f c = x.
Proof. unfold fupd. by rewrite Nat.eqb_refl. Qed.

Lemma fupd_ne {A} c c' (x : A) f : c' <> c -> fupd c x f c' = f c'.
Proof. intros. unfold fupd. by rewrite (proj2 (Nat.eqb_neq _ _)). Qed.

Lemma mstart_inv g : mstart g -> minv g.
Proof.
  intros [Hl Hc]. assert (forall c l, ~ owns g c l) as Hno.
  { intros c l H. destruct (Hc c) as (_ & Hp & Hh & _). unfold owns in H. rewrite Hp, Hh in H. set_solver. }
  split.
  - intros l. left. apply Hl.
  - intros c l H. by destruct (Hno c l).
  - intros c c' l H. by destruct (Hno c l).
  - intros c l. destruct (Hl l) as [_ ->], (Hc c) as (_ & _ & -> & _). set_solver.
  - intros c. destruct (Hc c) as (_ & _ & -> & _). constructor.
  - intros c l. destruct (Hc c) as (_ & -> & _). intros []; done.
  - intros c. destruct (Hc c) as (-> & -> & -> & ->). done.
  - intros c. destruct (Hc c) as (-> & _). lia.
  - intros c. destruct (Hc c) as (-> & _). lia.
Qed.

(** Steps that only touch the CPU. *)
Lemma minv_cpus m p h d m' p' d' : minv (mkg m p h d) -> locks m' = locks m ->
  (forall c l, p' c = Got l <-> p c = Got l) -> (forall c l, p' c = Rel l <-> p c = Rel l) ->
  (forall c, ncli (cpus m' c) = Z.of_nat (d' c) + Z.of_nat (length (h c)) + busy (p' c) /\
     ncli (cpus m' c) < 2 ^ 31 /\ (0 < ncli (cpus m' c) -> ints_on (cpus m' c) = false)) ->
  minv (mkg m' p' h d').
Proof.
  intros I Hl Hg Hr Hc.
  assert (forall c l, owns (mkg m' p' h d') c l <-> owns (mkg m p h d) c l) as Ho.
  { intros c l. unfold owns. cbn. by rewrite Hg, Hr. }
  destruct I. split; cbn in *; rewrite ?Hl.
  - done.
  - intros c l. rewrite Ho. apply mi_free0.
  - intros c c' l. rewrite !Ho. apply mi_one0.
  - done.
  - done.
  - intros c l. rewrite Hg, Hr. apply mi_phase0.
  - intros c. apply Hc.
  - intros c. apply Hc.
  - intros c. apply Hc.
Qed.

Lemma minv_push c m p h d m' : minv (mkg m p h d) -> p c = Run -> small c m -> pushcli c m = Ret tt m' ->
  locks m' = locks m /\
  forall c', ncli (cpus m' c') = ncli (cpus m c') + (if (c' =? c)%nat then 1 else 0) /\
    ncli (cpus m' c') < 2 ^ 31 /\ (0 < ncli (cpus m' c') -> ints_on (cpus m' c') = false).
Proof.
  intros I Hp Hs Hk. pose proof (mi_ncli _ I c) as Hn. pose proof (mi_off _ I) as Hof. pose proof (mi_max _ I) as Hmx.
  cbn in Hn, Hof, Hmx. rewrite Hp in Hn. unfold small in Hs. cbn in Hn.
  pose proof (pushcli_spec c m ltac:(lia)) as Hw. unfold wp in Hw. rewrite Hk in Hw.
  destruct Hw as (Hl & Ho & Hn' & Hoff & _). split; [done|]. intros c'. destruct (Nat.eqb_spec c' c) as [->|Hne].
  - split_and!; [done|lia|done].
  - rewrite Ho by done. split_and!; [lia|apply Hmx|apply Hof].
Qed.

Lemma minv_pop c m p h d m' : minv (mkg m p h d) -> 1 <= ncli (cpus m c) -> popcli c m = Ret tt m' ->
  locks m' = locks m /\
  forall c', ncli (cpus m' c') = ncli (cpus m c') - (if (c' =? c)%nat then 1 else 0) /\
    ncli (cpus m' c') < 2 ^ 31 /\ (0 < ncli (cpus m' c') -> ints_on (cpus m' c') = false).
Proof.
  intros I H1 Hk. pose proof (mi_off _ I) as Hof. pose proof (mi_max _ I) as Hmx. cbn in Hof, Hmx.
  pose proof (popcli_spec c m ltac:(specialize (Hmx c); lia) (Hof c ltac:(lia))) as Hw. unfold wp in Hw. rewrite Hk in Hw.
  destruct Hw as (Hl & Ho & Hn' & Hi & He). split; [done|]. intros c'. destruct (Nat.eqb_spec c' c) as [->|Hne].
  - split_and!; [done|specialize (Hmx c); lia|]. intros Hpos. unfold ints_on. rewrite He.
    rewrite (proj2 (Z.eqb_neq _ 1)) by lia. apply Hof. lia.
  - rewrite Ho by done. split_and!; [lia|apply Hmx|apply Hof].
Qed.

Lemma acquire_start_ret c l m m' : acquire_start c l m = Ret tt m' -> pushcli c m = Ret tt m'.
Proof.
  unfold acquire_start, bind. destruct (pushcli c m) as [[] m1| | |]; try done.
  unfold holding, gets, when, panic, ret. by destruct (_ && _); intros [=->].
Qed.

Lemma release_start_ret c l m m' : release_start c l m = Ret tt m' ->
  m' = set_lk l (mklock (locked (locks m l)) None (<[0%nat := 0]> (pcs (locks m l)))) m.
Proof. unfold release_start, bind, holding, gets, modify, panic. by destruct (_ && _); intros [= <-]. Qed.

Lemma locks_set_lk l x m l' : locks (set_lk l x m) l' = if (l' =? l)%nat then x else locks m l'.
Proof. done. Qed.

(** Steps that leave the CPUs alone. *)
Lemma minv_try c l m p h d b m' : minv (mkg m p h d) -> p c = Spin l -> acquire_try l m = Ret b m' ->
  minv (mkg m' (fupd c (if b then Got l else Spin l) p) h d).
Proof.
  intros I Hp [= <- <-]. destruct I as [Hbit Hfree Hone Hcpu Hnd Hph Hn Hmx Hof]. cbn in *.
  set (b := locked (locks m l) =? 0) in *.
  assert (forall c' l', owns (mkg (set_lk l (mklock 1 (lk_cpu (locks m l)) (pcs (locks m l))) m)
      (fupd c (if b then Got l else Spin l) p) h d) c' l' <->
    owns (mkg m p h d) c' l' \/ (c' = c /\ l' = l /\ b = true)) as Ho.
  { intros c' l'. unfold owns. cbn. destruct (decide (c' = c)) as [->|].
    - rewrite fupd_same, Hp. destruct b; split; intros H; destruct_or?; simplify_eq; naive_solver.
    - rewrite fupd_ne by done. naive_solver. }
  assert (forall c', b = true -> ~ owns (mkg m p h d) c' l) as Hno.
  { intros c' Hb Hw%Hfree. unfold b in Hb. rewrite Hw in Hb. done. }
  split; cbn.
  - intros l'. destruct (l' =? l)%nat; [by right|done].
  - intros c' l' Hw%Ho. destruct (Nat.eqb_spec l' l); [done|]. destruct Hw as [Hw|(_ & -> & _)]; [by eapply Hfree|done].
  - intros c1 c2 l' [H1|(-> & -> & Hb)]%Ho [H2|(-> & ? & Hb')]%Ho; subst; try done.
    + by eapply Hone.
    + by destruct (Hno c1 Hb').
    + by destruct (Hno c2 Hb).
  - intros c' l'. destruct (Nat.eqb_spec l' l) as [->|]; apply Hcpu.
  - done.
  - intros c' l' H. destruct (decide (c' = c)) as [->|].
    + rewrite fupd_same in H. destruct b eqn:Eb; [destruct H as [[= <-]|[=]]|by destruct H].
      intros Hi. apply (Hno c eq_refl). by right; right.
    + rewrite fupd_ne in H by done. by apply Hph.
  - intros c'. rewrite Hn. destruct (decide (c' = c)) as [->|]; [|by rewrite fupd_ne].
    rewrite fupd_same, Hp. by destruct b.
  - done.
  - done.
Qed.

Lemma minv_record c l m p h d pc : minv (mkg m p h d) -> p c = Got l ->
  minv (mkg (set_lk l (mklock (locked (locks m l)) (Some c) pc) m) (fupd c Run p) (fupd c (l :: h c) h) d).
Proof.
  intros I Hp. destruct I as [Hbit Hfree Hone Hcpu Hnd Hph Hn Hmx Hof]. cbn in *.
  assert (owns (mkg m p h d) c l) as Hown by by left.
  match goal with |- minv ?g => assert (forall c' l', owns g c' l' <-> owns (mkg m p h d) c' l') as Ho end.
  { intros c' l'. unfold owns. cbn. destruct (decide (c' = c)) as [->|]; [|by rewrite !fupd_ne].
    rewrite !fupd_same, Hp, elem_of_cons. naive_solver. }
  split; cbn.
  - intros l'. destruct (Nat.eqb_spec l' l) as [->|]; apply Hbit.
  - intros c' l' Hw%Ho%Hfree. destruct (Nat.eqb_spec l' l) as [->|]; done.
  - intros c1 c2 l' H1%Ho H2%Ho. by eapply Hone.
  - intros c' l'. destruct (Nat.eqb_spec l' l) as [->|Hl]; cbn; destruct (decide (c' = c)) as [->|Hc].
    + rewrite fupd_same. split; [by left|done].
    + rewrite fupd_ne by done. split; [intros [= <-]; done|]. intros Hi. destruct Hc. apply (Hone c' c l); [by right; right|done].
    + rewrite fupd_same, elem_of_cons, Hcpu. naive_solver.
    + by rewrite fupd_ne, Hcpu.
  - intros c'. destruct (decide (c' = c)) as [->|]; [|by rewrite fupd_ne]. rewrite fupd_same. constructor; [|done].
    apply Hph. by left.
  - intros c' l' H. destruct (decide (c' = c)) as [->|]; [by rewrite fupd_same in H; destruct H|].
    rewrite fupd_ne in H by done. rewrite fupd_ne by done. by apply Hph.
  - intros c'. rewrite Hn. destruct (decide (c' = c)) as [->|]; [|by rewrite !fupd_ne].
    rewrite !fupd_same, Hp. cbn. lia.
  - done.
  - done.
Qed.

Lemma length_remove_one l (k : list nat) : NoDup k -> l ∈ k -> length k = S (length (filter (.≠ l) k)).
Proof.
  induction 1 as [|x k Hx Hk IH]; [set_solver|]. intros [->|Hi]%elem_of_cons.
  - rewrite filter_cons_False by naive_solver. cbn. f_equal. f_equal.
    clear IH. induction k as [|y k IH]; [done|]. inversion Hk; subst.
    rewrite filter_cons_True by set_solver. f_equal. apply IH; set_solver.
  - rewrite filter_cons_True by (intros ->; done). cbn. by rewrite IH.
Qed.

Lemma minv_release c l m p h d : minv (mkg m p h d) -> p c = Run -> l ∈ h c ->
  minv (mkg (set_lk l (mklock (locked (locks m l)) None (<[0%nat := 0]> (pcs (locks m l)))) m)
    (fupd c (Rel l) p) (fupd c (filter (.≠ l) (h c)) h) d).
Proof.
  intros I Hp Hi. destruct I as [Hbit Hfree Hone Hcpu Hnd Hph Hn Hmx Hof]. cbn in *.
  assert (owns (mkg m p h d) c l) as Hown by by right; right.
  match goal with |- minv ?g => assert (forall c' l', owns g c' l' <-> owns (mkg m p h d) c' l') as Ho end.
  { intros c' l'. unfold owns. cbn. destruct (decide (c' = c)) as [->|]; [|by rewrite !fupd_ne].
    rewrite !fupd_same, Hp, list_elem_of_filter. destruct (decide (l' = l)) as [->|]; naive_solver. }
  split; cbn.
  - intros l'. destruct (Nat.eqb_spec l' l) as [->|]; apply Hbit.
  - intros c' l' Hw%Ho%Hfree. destruct (Nat.eqb_spec l' l) as [->|]; done.
  - intros c1 c2 l' H1%Ho H2%Ho. by eapply Hone.
  - intros c' l'. destruct (Nat.eqb_spec l' l) as [->|Hl]; cbn; destruct (decide (c' = c)) as [->|Hc].
    + rewrite fupd_same, list_elem_of_filter. naive_solver.
    + rewrite fupd_ne by done. split; [done|]. intros Hi'. destruct Hc. apply (Hone c' c l); [by right; right|done].
    + rewrite fupd_same, list_elem_of_filter, Hcpu. naive_solver.
    + by rewrite fupd_ne, Hcpu.
  - intros c'. destruct (decide (c' = c)) as [->|]; [|by rewrite fupd_ne]. rewrite fupd_same. by apply NoDup_filter.
  - intros c' l' H. destruct (decide (c' = c)) as [->|].
    + rewrite !fupd_same in H. rewrite fupd_same. destruct H as [[=]|[= <-]]. rewrite list_elem_of_filter. naive_solver.
    + rewrite fupd_ne in H by done. rewrite fupd_ne by done. by apply Hph.
  - intros c'. rewrite Hn. destruct (decide (c' = c)) as [->|]; [|by rewrite !fupd_ne].
    rewrite !fupd_same, Hp. cbn. pose proof (length_remove_one l (h c) (Hnd c) Hi). lia.
  - done.
  - done.
Qed.

Lemma release_end_split c l m m' : release_end c l m = Ret tt m' ->
  popcli c (set_lk l (mklock 0 (lk_cpu (locks m l)) (pcs (locks m l))) m) = Ret tt m'.
Proof. done. Qed.

(** The exchange that frees the lock. *)
Lemma minv_unlock c l m p h d : minv (mkg m p h d) -> p c = Rel l ->
  let m1 := set_lk l (mklock 0 (lk_cpu (locks m l)) (pcs (locks m l))) m in
  minv (mkg m1 (fupd c (Spin l) p) h d).
Proof.
  intros I Hp m1. destruct I as [Hbit Hfree Hone Hcpu Hnd Hph Hn Hmx Hof]. cbn in *.
  assert (owns (mkg m p h d) c l) as Hown by by right; left.
  assert (l ∉ h c) as Hni by (apply Hph; by right).
  match goal with |- minv ?g => assert (forall c' l', owns g c' l' -> owns (mkg m p h d) c' l' /\ l' <> l) as Ho end.
  { intros c' l' Hw. assert (owns (mkg m p h d) c' l' /\ (c' = c -> l' <> l)) as [Hw' Hne].
    - unfold owns in *. cbn in *. destruct (decide (c' = c)) as [->|].
      + rewrite fupd_same in Hw. split; [naive_solver|]. intros _ ->. naive_solver.
      + rewrite fupd_ne in Hw by done. done.
    - split; [done|]. intros ->. apply Hne; [|done]. by eapply Hone. }
  split; cbn.
  - intros l'. destruct (Nat.eqb_spec l' l) as [->|]; [by left|apply Hbit].
  - intros c' l' [Hw Hne]%Ho. rewrite (proj2 (Nat.eqb_neq _ _)) by done. by eapply Hfree.
  - intros c1 c2 l' [H1 _]%Ho [H2 _]%Ho. by eapply Hone.
  - intros c' l'. destruct (Nat.eqb_spec l' l) as [->|]; apply Hcpu.
  - done.
  - intros c' l' H. destruct (decide (c' = c)) as [->|]; [rewrite fupd_same in H; by destruct H|].
    rewrite fupd_ne in H by done. by apply Hph.
  - intros c'. rewrite Hn. destruct (decide (c' = c)) as [->|]; [|by rewrite fupd_ne].
    by rewrite fupd_same, Hp.
  - done.
  - done.
Qed.

Lemma minv_step g g' : minv g -> mstep g g' -> minv g'.
Proof.
  intros I Hs. destruct Hs as [c m p h d m' Hp Hs Hk|c m p h d n m' Hp Hd Hk|c m p h d e Hp Hz
    |c l m p h d m' Hp Hs Hl Hk|c l m p h d b m' Hp Hk|c l m p h d pc m' Hp Hk|c l m p h d m' Hp Hl Hk|c l m p h d m' Hp Hk].
  - destruct (minv_push c m p h d m' I Hp Hs Hk) as [Hl Hc]. eapply minv_cpus; [exact I|done|done|done|].
    intros c'. destruct (Hc c') as (Hn & ?). split; [|done]. pose proof (mi_ncli _ I c') as Hi. cbn in Hi |- *. rewrite Hn, Hi.
    unfold fupd. destruct (Nat.eqb_spec c' c) as [E|]; [rewrite E|]; lia.
  - pose proof (mi_ncli _ I c) as Hnc. cbn in Hnc. rewrite Hp, Hd in Hnc. cbn [busy] in Hnc.
    destruct (minv_pop c m p h d m' I ltac:(lia) Hk) as [Hl Hc]. eapply minv_cpus; [exact I|done|done|done|].
    intros c'. destruct (Hc c') as (Hn & ?). split; [|done]. pose proof (mi_ncli _ I c') as Hi. cbn in Hi |- *. rewrite Hn, Hi.
    unfold fupd. destruct (Nat.eqb_spec c' c) as [E|]; [rewrite E|]; lia.
  - eapply minv_cpus; [exact I|done|done|done|]. intros c'. cbn.
    pose proof (mi_ncli _ I c') as Hn. pose proof (mi_max _ I c'). pose proof (mi_off _ I c'). cbn in *.
    destruct (Nat.eqb_spec c' c) as [->|]; [|done]. cbn. rewrite Hz in Hn. split_and!; [done|lia|lia].
  - apply acquire_start_ret in Hk. destruct (minv_push c m p h d m' I Hp Hs Hk) as [Hlk Hc].
    eapply minv_cpus; [exact I|done| | |].
    + intros c' l'. unfold fupd. destruct (Nat.eqb_spec c' c) as [->|]; [rewrite Hp|]; done.
    + intros c' l'. unfold fupd. destruct (Nat.eqb_spec c' c) as [->|]; [rewrite Hp|]; done.
    + intros c'. destruct (Hc c') as (Hn & ?). split; [|done]. pose proof (mi_ncli _ I c') as Hi. cbn in Hi |- *. rewrite Hn, Hi.
      unfold fupd. destruct (Nat.eqb_spec c' c) as [E|]; [rewrite E, Hp; cbn|]; lia.
  - by apply (minv_try c l m).
  - injection Hk as <-. by apply minv_record.
  - apply release_start_ret in Hk as ->. by apply minv_release.
  - apply release_end_split in Hk. pose proof (minv_unlock c l m p h d I Hp) as I1. cbv zeta in I1.
    set (m1 := set_lk _ _ _) in *. pose proof (mi_ncli _ I1 c) as Hnc. cbn in Hnc. rewrite fupd_same in Hnc. cbn in Hnc.
    destruct (minv_pop c m1 _ h d m' I1 ltac:(cbn; lia) Hk) as [Hlk Hc].
    eapply minv_cpus; [exact I1|done| | |].
    + intros c' l'. unfold fupd. by destruct (Nat.eqb_spec c' c).
    + intros c' l'. unfold fupd. by destruct (Nat.eqb_spec c' c).
    + intros c'. destruct (Hc c') as (Hn & ?). split; [|done]. pose proof (mi_ncli _ I1 c') as Hi. cbn in Hi |- *. rewrite Hn. change (cpus m1 c') with (cpus m c'). rewrite Hi.
      unfold fupd. destruct (Nat.eqb_spec c' c) as [E|]; [rewrite E|]; cbn; lia.
Qed.

Lemma mreach_inv g0 g : mstart g0 -> rtc mstep g0 g -> minv g.
Proof. intros H0%mstart_inv Hr. induction Hr; eauto using minv_step. Qed.

(** C32: in every interleaving of several CPUs running [acquire] and [release]
    (cut at their atomic exchanges), no lock is ever held by two CPUs, a CPU
    that owns a lock has interrupts off, releasing a lock it holds never panics
    (neither in [release] nor in the final [popcli]), and acquiring a lock it
    does not hold never reports a double acquire. *)
Theorem spinlock_mutex g0 g :
  mstart g0 -> rtc mstep g0 g ->
  (forall c c' l, owns g c l -> owns g c' l -> c = c') /\
  (forall c l, owns g c l -> ints_on (cpus (ms g) c) = false) /\
  (forall c l, ph g c = Run -> l ∈ held g c -> exists m', release c l (ms g) = Ret tt m') /\
  (forall c l, ph g c = Run -> l ∉ held g c -> small c (ms g) -> exists m', acquire_start c l (ms g) = Ret tt m').
Proof.
  intros H0 Hr. pose proof (mreach_inv g0 g H0 Hr) as I. pose proof (mi_ncli _ I) as Hn.
  assert (forall c l, owns g c l -> 0 < ncli (cpus (ms g) c)) as Hpos.
  { intros c l Hw. rewrite Hn. destruct Hw as [->|[->|Hi]]; cbn; try lia.
    destruct (held g c); [set_solver|]. cbn. destruct (ph g c); cbn; lia. }
  split_and!.
  - apply I.
  - intros c l Hw. apply (mi_off _ I). by eapply Hpos.
  - intros c l Hp Hi. pose proof (mi_free _ I c l (or_intror (or_intror Hi))) as Hl.
    assert (wp (release c l) (ms g) (fun _ _ => True)) as (m' & E & _)%wp_eq_tt; [|by exists m'].
    unfold release, release_start, holding, release_end, xchg. apply wp_bind, wp_bind, wp_gets.
    rewrite Hl, bool_decide_true by by apply (mi_cpu _ I). cbn [negb Z.eqb andb]. apply wp_modify.
    repeat first [apply wp_bind|apply wp_gets|apply wp_modify|apply wp_ret].
    pose proof (Hpos c l (or_intror (or_intror Hi))) as Hp1.
    eapply wp_conseq; [apply popcli_spec; cbn|done]; [pose proof (mi_max _ I c); lia|by apply (mi_off _ I)].
  - intros c l Hp Hi Hs.
    assert (wp (acquire_start c l) (ms g) (fun _ _ => True)) as (m' & E & _)%wp_eq_tt; [|by exists m'].
    unfold acquire_start. unfold small in Hs.
    eapply wp_seq; [apply pushcli_spec; rewrite Hn in Hs |- *; destruct (ph g c); cbn in *; lia|].
    intros [] m1 (Hl & _). unfold holding. apply wp_bind, wp_gets. rewrite Hl.
    rewrite bool_decide_false by (by rewrite (mi_cpu _ I)). rewrite andb_false_r. by apply wp_ret.
Qed.

(** A machine at rest, and one lock taken on it. *)
Module SpinW.
Definition m0 : mst := mkm (fun _ => mkcpu 0 0 FL_IF) (fun _ => mklock 0 None (replicate 10 0)).
Definition g0 : gst := mkg m0 (fun _ => Run) (fun _ => []) (fun _ => O).

Lemma g0_start : mstart g0.
Proof. split; intros; by repeat split. Qed.

Lemma take_lock : exists g, rtc mstep g0 g /\ ph g 3 = Run /\ held g 3 = [1%nat].
Proof.
  eexists. split; [|split].
  - eapply rtc_l; [eapply (s_acquire 3 1); [done|vm_compute; done|set_solver|reflexivity]|].
    eapply rtc_l; [eapply (s_try 3 1); reflexivity|].
    eapply rtc_l; [eapply (s_record 3 1 _ _ _ _ []); reflexivity|]. apply rtc_refl.
  - reflexivity.
  - reflexivity.
Qed.

Lemma spinlock_mutex_witness : exists g, rtc mstep g0 g /\ held g 3 = [1%nat] /\
  ints_on (cpus (ms g) 3) = false /\ exists m', release 3 1 (ms g) = Ret tt m'.
Proof.
  destruct take_lock as (g & Hr & Hp & Hh). exists g.
  destruct (spinlock_mutex g0 g g0_start Hr) as (_ & Hoff & Hrel & _).
  assert (1%nat ∈ held g 3) as Hin by (rewrite Hh; set_solver).
  split; [exact Hr|]. split; [exact Hh|]. split.
  - apply (Hoff 3%nat 1%nat). right; right. exact Hin.
  - apply (Hrel 3%nat 1%nat); [exact Hp|exact Hin].
Defined.

Lemma pushcli_popcli_nest_witness :
  exists s', (repeat_op 3 (pushcli 0) ;; repeat_op 3 (popcli 0)) m0 = Ret tt s' /\
    ncli (cpus s' 0) = 0 /\ eflags (cpus s' 0) = FL_IF.
Proof. apply (pushcli_popcli_nest m0 0 3 3); [reflexivity|lia|lia]. Defined.
End SpinW.
