(* ===== verification/Vm.v ===== *)
(** Page tables and user memory: vm.c.

    A page directory and its page tables are pages of the allocator's memory,
    read and written word by word as the code does.  The addresses of the
    kernel image ([data], [end]) come from the linker script and are arguments.
    [loaduvm], which reads a file, is in Exec. *)

From S2P Require Import Prelude Params CString Mmu Kalloc.

Definition ld (a : Z) : M kst Z := gets (fun s => ld_long a (pm s)).
Definition st (a x : Z) : M kst unit := modify (fun s => set_pm (wr_long a x (pm s)) s).

(** Store bytes at consecutive addresses. *)
Fixpoint wr_bytes (a : Z) (l : list Z) (m : mem) : mem :=
  match l with
  | [] => m
  | x :: l' => wr_bytes (a + 1) l' (wr a x m)
  end.

(** ** Segments (vm.c [seginit]): entry 0 of the table is the null descriptor. *)
Definition null_seg : segdesc := mkseg 0 0 0 0 0 0 0 0 0 0 0 0 0.
Definition seginit (cpu_addr : Z) (gdt : list segdesc) : list segdesc :=
  let gdt := <[Z.to_nat SEG_KCODE := SEG (Z.lor STA_X STA_R) 0 0xffffffff 0]> gdt in
  let gdt := <[Z.to_nat SEG_KDATA := SEG STA_W 0 0xffffffff 0]> gdt in
  let gdt := <[Z.to_nat SEG_UCODE := SEG (Z.lor STA_X STA_R) 0 0xffffffff DPL_USER]> gdt in
  let gdt := <[Z.to_nat SEG_UDATA := SEG STA_W 0 0xffffffff DPL_USER]> gdt in
  <[Z.to_nat SEG_KCPU := SEG STA_W cpu_addr 8 0]> gdt.

Section vm.
(** First address after the kernel image, and the start of its data segment. *)
Context (kend kdata : Z).

(** vm.c [walkpgdir]: the address of the PTE for [va], or 0. *)
Definition walkpgdir (pgdir va : Z) (alloc : bool) : M kst Z :=
  let pde := pgdir + 4 * PDX va in
  d <- ld pde ;;
  if testf d PTE_P then ret (p2v (PTE_ADDR d) + 4 * PTX va)
  else if negb alloc then ret 0
  else
    pgtab <- kalloc ;;
    if pgtab =? 0 then ret 0 else
    modify (fun s => set_pm (Kstring.memset pgtab 0 PGSIZE (pm s)) s) ;;
    st pde (Z.lor (Z.lor (Z.lor (v2p pgtab) PTE_P) PTE_W) PTE_U) ;;
    ret (pgtab + 4 * PTX va).

(** vm.c [mappages]; the fuel is the number of pages from [a] to [last]. *)
Fixpoint mappages_loop (fuel : nat) (pgdir a last pa perm : Z) : M kst Z :=
  match fuel with
  | O => fault "mappages"
  | S f =>
      pte <- walkpgdir pgdir a true ;;
      if pte =? 0 then ret (-1) else
      x <- ld pte ;;
      if testf x PTE_P then panic "remap" else
      st pte (Z.lor (Z.lor pa perm) PTE_P) ;;
      if a =? last then ret 0
      else mappages_loop f pgdir (u32 (a + PGSIZE)) last (u32 (pa + PGSIZE)) perm
  end.
Definition mappages (pgdir va size pa perm : Z) : M kst Z :=
  let a := PGROUNDDOWN va in
  let last := PGROUNDDOWN (u32 (u32 va + size - 1)) in
  mappages_loop (S (Z.to_nat (u32 (last - a) / PGSIZE))) pgdir a last pa perm.

(** vm.c [kmap]: virtual start, physical start and end, permissions. *)
Definition kmap : list (Z * Z * Z * Z) :=
  [ (KERNBASE, 0, EXTMEM, PTE_W);
    (KERNLINK, v2p KERNLINK, v2p kdata, 0);
    (kdata, v2p kdata, PHYSTOP, PTE_W);
    (DEVSPACE, DEVSPACE, 0, PTE_W) ].

(** vm.c [setupkvm] *)
Definition setupkvm_one (pgdir : Z) (k : Z * Z * Z * Z) : M kst (option Z) :=
  let '(virt, phys_start, phys_end, perm) := k in
  r <- mappages pgdir virt (u32 (phys_end - phys_start)) phys_start perm ;;
  ret (if r <? 0 then Some 0 else None).
Definition setupkvm : M kst Z :=
  pgdir <- kalloc ;;
  if pgdir =? 0 then ret 0 else
  modify (fun s => set_pm (Kstring.memset pgdir 0 PGSIZE (pm s)) s) ;;
  if DEVSPACE <? p2v PHYSTOP then panic "PHYSTOP too high" else
  r <- for_find kmap (setupkvm_one pgdir) ;;
  match r with
  | Some z => ret z
  | None => ret pgdir
  end.

(** vm.c [inituvm]; the page is used without a check that [kalloc] found one. *)
Definition inituvm (pgdir : Z) (init : list Z) (sz : Z) : M kst unit :=
  if PGSIZE <=? sz then panic "inituvm: more than a page" else
  mem <- kalloc ;;
  if mem =? 0 then fault "inituvm: null page" else
  modify (fun s => set_pm (Kstring.memset mem 0 PGSIZE (pm s)) s) ;;
  mappages pgdir 0 PGSIZE (v2p mem) (Z.lor PTE_W PTE_U) ;;
  modify (fun s => set_pm (wr_bytes mem (take (Z.to_nat sz) init) (pm s)) s).

(** vm.c [deallocuvm]; the fuel is one more than the pages below [oldsz]. *)
Fixpoint deallocuvm_loop (fuel : nat) (pgdir a oldsz : Z) : M kst unit :=
  match fuel with
  | O => fault "deallocuvm"
  | S f =>
      if negb (a <? oldsz) then ret tt else
      pte <- walkpgdir pgdir a false ;;
      if pte =? 0 then
        deallocuvm_loop f pgdir (u32 (u32 (a + (NPTENTRIES - 1) * PGSIZE) + PGSIZE)) oldsz
      else
        x <- ld pte ;;
        when (testf x PTE_P)
          (let pa := PTE_ADDR x in
           if pa =? 0 then panic "kfree" else
           kfree kend (p2v pa) ;;
           st pte 0) ;;
        deallocuvm_loop f pgdir (u32 (a + PGSIZE)) oldsz
  end.
Definition deallocuvm (pgdir oldsz newsz : Z) : M kst Z :=
  if oldsz <=? newsz then ret oldsz else
  deallocuvm_loop (S (Z.to_nat (oldsz / PGSIZE + 1))) pgdir (PGROUNDUP newsz) oldsz ;;
  ret newsz.

(** vm.c [allocuvm]; the result of [mappages] is not used. *)
Fixpoint allocuvm_loop (fuel : nat) (pgdir a oldsz newsz : Z) : M kst Z :=
  match fuel with
  | O => fault "allocuvm"
  | S f =>
      if negb (a <? newsz) then ret newsz else
      mem <- kalloc ;;
      if mem =? 0 then
        deallocuvm pgdir newsz oldsz ;;
        ret 0
      else
        modify (fun s => set_pm (Kstring.memset mem 0 PGSIZE (pm s)) s) ;;
        mappages pgdir a PGSIZE (v2p mem) (Z.lor PTE_W PTE_U) ;;
        allocuvm_loop f pgdir (u32 (a + PGSIZE)) oldsz newsz
  end.
Definition allocuvm (pgdir oldsz newsz : Z) : M kst Z :=
  if KERNBASE <=? newsz then ret 0 else
  if newsz <? oldsz then ret oldsz else
  allocuvm_loop (S (Z.to_nat (newsz / PGSIZE + 1))) pgdir (PGROUNDUP oldsz) oldsz newsz.

(** vm.c [freevm] *)
Definition freevm (pgdir : Z) : M kst unit :=
  if pgdir =? 0 then panic "freevm: no pgdir" else
  deallocuvm pgdir KERNBASE 0 ;;
  for_each (seq 0 (Z.to_nat NPDENTRIES)) (fun i =>
    d <- ld (pgdir + 4 * Z.of_nat i) ;;
    when (testf d PTE_P) (kfree kend (p2v (PTE_ADDR d)))) ;;
  kfree kend pgdir.

(** vm.c [clearpteu] *)
Definition clearpteu (pgdir uva : Z) : M kst unit :=
  pte <- walkpgdir pgdir uva false ;;
  if pte =? 0 then panic "clearpteu" else
  x <- ld pte ;;
  st pte (Z.land x (Z.lnot PTE_U)).

(** vm.c [copyuvm] *)
Fixpoint copyuvm_loop (fuel : nat) (pgdir d i sz : Z) : M kst Z :=
  match fuel with
  | O => fault "copyuvm"
  | S f =>
      if negb (i <? sz) then ret d else
      pte <- walkpgdir pgdir i false ;;
      if pte =? 0 then panic "copyuvm: pte should exist" else
      x <- ld pte ;;
      if negb (testf x PTE_P) then panic "copyuvm: page not present" else
      let pa := PTE_ADDR x in
      let flags := PTE_FLAGS x in
      mem <- kalloc ;;
      if mem =? 0 then freevm d ;; ret 0 else
      modify (fun s => set_pm (Kstring.memmove mem (p2v pa) PGSIZE (pm s)) s) ;;
      r <- mappages d i PGSIZE (v2p mem) flags ;;
      if r <? 0 then freevm d ;; ret 0 else
      copyuvm_loop f pgdir d (u32 (i + PGSIZE)) sz
  end.
Definition copyuvm (pgdir sz : Z) : M kst Z :=
  d <- setupkvm ;;
  if d =? 0 then ret 0 else
  copyuvm_loop (S (Z.to_nat (sz / PGSIZE + 1))) pgdir d 0 sz.

(** vm.c [uva2ka]; the entry is read without a check that there is a table. *)
Definition uva2ka (pgdir uva : Z) : M kst Z :=
  pte <- walkpgdir pgdir uva false ;;
  if pte =? 0 then fault "uva2ka: null pte" else
  x <- ld pte ;;
  if negb (testf x PTE_P) then ret 0 else
  if negb (testf x PTE_U) then ret 0 else
  ret (p2v (PTE_ADDR x)).

(** vm.c [copyout] of the bytes [buf]. *)
Fixpoint copyout_loop (fuel : nat) (pgdir va : Z) (buf : list Z) : M kst Z :=
  match fuel with
  | O => fault "copyout"
  | S f =>
      let len := Z.of_nat (length buf) in
      if negb (0 <? len) then ret 0 else
      let va0 := PGROUNDDOWN va in
      pa0 <- uva2ka pgdir va0 ;;
      if pa0 =? 0 then ret (-1) else
      let n := u32 (PGSIZE - u32 (va - va0)) in
      let n := if len <? n then len else n in
      modify (fun s => set_pm (wr_bytes (pa0 + (va - va0)) (take (Z.to_nat n) buf) (pm s)) s) ;;
      copyout_loop f pgdir (u32 (va0 + PGSIZE)) (drop (Z.to_nat n) buf)
  end.
Definition copyout (pgdir va : Z) (buf : list Z) : M kst Z :=
  copyout_loop (S (length buf)) pgdir va buf.
End vm.
