(* ===== verification/VmSpec.v ===== *)
(** Correctness of page tables: the translation [pteval] a page directory
    stands for, and how the operations of vm.c change it. *)

From S2P Require Import Prelude Params CString Mmu Kalloc Vm.

Definition pde (m : mem) (pgdir i : Z) : Z := ld_long (pgdir + 4 * i) m.
Definition tab (m : mem) (pgdir i : Z) : Z := p2v (PTE_ADDR (pde m pgdir i)).
Definition present (m : mem) (pgdir i : Z) : bool := testf (pde m pgdir i) PTE_P.
Definition slot (m : mem) (pgdir va : Z) : Z := tab m pgdir (PDX va) + 4 * PTX va.

(** The entry the hardware finds for [va]; 0 when there is no table. *)
Definition pteval (m : mem) (pgdir va : Z) : Z :=
  if present m pgdir (PDX va) then ld_long (slot m pgdir va) m else 0.

Section vmspec.
Context (kend : Z) (Hend : KERNBASE < kend).
Notation krep := (krep kend).
Notation page_ok := (page_ok kend).

(** The directory and its tables are distinct pages, none on the free list. *)
Record pd_ok (m : mem) (pgdir : Z) (L : list Z) : Prop := {
  pd_dir : page_ok pgdir;
  pd_used : pgdir ∉ L;
  pd_tab : forall i, 0 <= i < 1024 -> present m pgdir i = true ->
    page_ok (tab m pgdir i) /\ tab m pgdir i ∉ L /\ tab m pgdir i <> pgdir;
  pd_inj : forall i j, 0 <= i < 1024 -> 0 <= j < 1024 -> present m pgdir i = true -> present m pgdir j = true ->
    tab m pgdir i = tab m pgdir j -> i = j }.

(** The addresses that make up the tree. *)
Definition in_tree (m : mem) (pgdir a : Z) : Prop :=
  in_page pgdir a \/ exists i, 0 <= i < 1024 /\ present m pgdir i = true /\ in_page (tab m pgdir i) a.

Lemma krep_set_pm s L m' : krep s L ->
  (forall q a, q ∈ L -> in_page q a -> m' a = pm s a) -> krep (set_pm m' s) L.
Proof.
  intros [Hl Hc Hn Ho] H. split; [done| |done|done]. cbn [pm freelist set_pm].
  apply chain_ext with (pm s); [|done]. intros q a Hq Ha. apply (H q); [done|].
  unfold in_page. rewrite PGSIZE_val. lia.
Qed.

Lemma word_in_page v i b : 0 <= i < 1024 -> v + 4 * i <= b < v + 4 * i + 4 -> in_page v b.
Proof. intros. unfold in_page. rewrite PGSIZE_val. lia. Qed.

Lemma aligned v : page_ok v -> v mod PGSIZE = 0.
Proof. by intros (? & _). Qed.

(** The tree depends only on its own pages. *)
Lemma pde_ext m m' pgdir i : 0 <= i < 1024 -> (forall a, in_page pgdir a -> m' a = m a) ->
  pde m' pgdir i = pde m pgdir i.
Proof. intros Hi H. apply ld_long_ext. intros b Hb. apply H. by apply (word_in_page pgdir i). Qed.

Lemma pteval_ext m m' pgdir va : (forall a, in_tree m pgdir a -> m' a = m a) ->
  pteval m' pgdir va = pteval m pgdir va.
Proof.
  intros H. pose proof (PDX_range va) as Hr.
  assert (pde m' pgdir (PDX va) = pde m pgdir (PDX va)) as E.
  { apply pde_ext; [done|]. intros a Ha. apply H. by left. }
  unfold pteval, slot, present, tab. rewrite E. destruct (testf _ _) eqn:Hp; [|done].
  apply ld_long_ext. intros b Hb. apply H. right. exists (PDX va). split_and!; [lia|lia|done|].
  by apply (word_in_page _ (PTX va)), Hb; apply PTX_range.
Qed.

Lemma pd_ok_ext m m' pgdir L L' : (forall a, in_page pgdir a -> m' a = m a) -> (forall q, q ∈ L' -> q ∈ L) ->
  pd_ok m pgdir L -> pd_ok m' pgdir L'.
Proof.
  intros H HL [Hd Hu Ht Hi].
  assert (forall i, 0 <= i < 1024 -> pde m' pgdir i = pde m pgdir i) as E by (intros; by apply pde_ext).
  split; [done|set_solver| |].
  - intros i Hr. unfold present, tab. rewrite E by done. intros Hp. destruct (Ht i Hr Hp) as (? & ? & ?). set_solver.
  - intros i j Hr Hr'. unfold present, tab. rewrite !E by done. by apply Hi.
Qed.

(** ** Looking up an entry *)

Lemma walk_lookup s pgdir va :
  walkpgdir pgdir va false s =
  Ret (if present (pm s) pgdir (PDX va) then slot (pm s) pgdir va else 0) s.
Proof.
  unfold walkpgdir, bind, ld, gets, ret. fold (pde (pm s) pgdir (PDX va)). unfold slot, tab, present.
  by destruct (testf _ _).
Qed.

Lemma walk_present s pgdir va al : present (pm s) pgdir (PDX va) = true ->
  walkpgdir pgdir va al s = Ret (slot (pm s) pgdir va) s.
Proof.
  intros Hp. unfold walkpgdir, bind, ld, gets, ret. fold (pde (pm s) pgdir (PDX va)).
  unfold present in Hp. by rewrite Hp.
Qed.

(** ** Creating a table *)

Lemma v2p_page q : page_ok q -> v2p q = q - KERNBASE /\ 0 < v2p q /\ v2p q mod 4096 = 0 /\ v2p q + 4096 <= PHYSTOP.
Proof.
  intros (Ha & He & Hb). unfold v2p. rewrite PGSIZE_val in *. unfold KERNBASE, PHYSTOP in *.
  rewrite u32_small by lia. split_and!; [done|lia| |lia].
  rewrite Zminus_mod, Ha. done.
Qed.

Lemma p2v_v2p q : page_ok q -> p2v (v2p q) = q.
Proof.
  intros Hq. destruct (v2p_page q Hq) as (-> & _ & _ & Hb). destruct Hq as (_ & He & _).
  unfold p2v. replace (q - KERNBASE + KERNBASE) with q by lia. apply u32_small.
  unfold KERNBASE, PHYSTOP in *. lia.
Qed.

(** An entry that points at a page. *)
Lemma entry_of_page q f : page_ok q -> 0 <= f < 4096 ->
  PTE_ADDR (Z.lor (v2p q) f) = v2p q /\ PTE_FLAGS (Z.lor (v2p q) f) = f /\ u32 (Z.lor (v2p q) f) = Z.lor (v2p q) f.
Proof.
  intros Hq Hf. destruct (v2p_page q Hq) as (_ & H0 & Ha & Hb). rewrite lor_aligned by done.
  unfold PHYSTOP in Hb. assert (is_u32 (v2p q)) as Hu by (unfold is_u32; lia).
  destruct (PTE_ADDR_mk (v2p q) f Hu Ha Hf) as [E1 E2]. split_and!; [done|done|]. apply u32_small. lia.
Qed.

Lemma testf_entry q f k : page_ok q -> 0 <= f < 4096 -> 0 <= k < 12 ->
  testf (Z.lor (v2p q) f) (2 ^ k) = Z.testbit f k.
Proof.
  intros Hq Hf Hk. rewrite testf_pow2, Z.lor_spec by lia. destruct (v2p_page q Hq) as (_ & _ & Ha & _).
  rewrite <- (Z.mod_pow2_bits_low (v2p q) 12 k) by lia. change (2 ^ 12) with 4096. by rewrite Ha, Z.bits_0.
Qed.

Definition new_table (pgdir i q : Z) (m : mem) : mem :=
  wr_long (pgdir + 4 * i) (Z.lor (v2p q) 7) (Kstring.memset q 0 PGSIZE m).

Lemma lor_flags x : Z.lor (Z.lor (Z.lor x PTE_P) PTE_W) PTE_U = Z.lor x 7.
Proof. by rewrite <- !Z.lor_assoc. Qed.

Lemma new_table_out pgdir i q m a : 0 <= i < 1024 -> ~ in_page q a -> ~ in_page pgdir a -> new_table pgdir i q m a = m a.
Proof.
  intros Hi Hq Hp. unfold new_table. rewrite wr_long_out, memset_fills.
  - unfold in_page in Hq. by rewrite decide_False.
  - done.
  - unfold in_page in Hp. rewrite PGSIZE_val in Hp. lia.
Qed.

Lemma new_table_zero pgdir i q m a : 0 <= i < 1024 -> page_ok q -> page_ok pgdir -> q <> pgdir ->
  in_page q a -> new_table pgdir i q m a = 0.
Proof.
  intros Hi Hq Hp Hne Ha. unfold new_table. rewrite wr_long_out, memset_fills.
  - unfold in_page in Ha. by rewrite decide_True.
  - done.
  - pose proof (pages_apart q pgdir a (aligned q Hq) (aligned pgdir Hp) Hne Ha) as Hno.
    unfold in_page in Hno. rewrite PGSIZE_val in Hno. lia.
Qed.

Lemma new_table_pde pgdir i q m j : page_ok q -> page_ok pgdir -> q <> pgdir -> 0 <= i < 1024 -> 0 <= j < 1024 ->
  pde (new_table pgdir i q m) pgdir j = if decide (j = i) then Z.lor (v2p q) 7 else pde m pgdir j.
Proof.
  intros Hq Hp Hne Hi Hj. unfold pde, new_table. destruct (decide (j = i)) as [->|Hji].
  - rewrite ld_wr_long_same. apply (entry_of_page q 7 Hq). lia.
  - apply ld_long_ext. intros b Hb. rewrite wr_long_out by lia. rewrite memset_fills by done.
    rewrite decide_False; [done|]. intros Hin.
    apply (pages_apart q pgdir b (aligned q Hq) (aligned pgdir Hp) Hne Hin). by apply (word_in_page pgdir j).
Qed.

Lemma ld_zero a m : (forall b, a <= b < a + 4 -> m b = 0) -> ld_long a m = 0.
Proof. intros H. unfold ld_long. by rewrite !H by lia. Qed.

Section new_table.
Context (m : mem) (pgdir : Z) (L : list Z) (i q : Z).
Context (Hpd : pd_ok m pgdir (q :: L)) (Hq : page_ok q) (Hnq : q ∉ L) (Hi : 0 <= i < 1024).
Context (Hno : present m pgdir i = false).
Let m' := new_table pgdir i q m.

Lemma nt_ne : q <> pgdir.
Proof. intros ->. apply (pd_used _ _ _ Hpd). left. Qed.

Lemma nt_pde j : 0 <= j < 1024 -> pde m' pgdir j = if decide (j = i) then Z.lor (v2p q) 7 else pde m pgdir j.
Proof. intros Hj. apply new_table_pde; try done; [apply Hpd|apply nt_ne]. Qed.

Lemma nt_present j : 0 <= j < 1024 -> present m' pgdir j = if decide (j = i) then true else present m pgdir j.
Proof.
  intros Hj. unfold present. rewrite nt_pde by done. destruct (decide (j = i)); [|done].
  change PTE_P with (2 ^ 0). by rewrite testf_entry by (done || lia).
Qed.

Lemma nt_tab j : 0 <= j < 1024 -> tab m' pgdir j = if decide (j = i) then q else tab m pgdir j.
Proof.
  intros Hj. unfold tab. rewrite nt_pde by done. destruct (decide (j = i)); [|done].
  destruct (entry_of_page q 7 Hq ltac:(lia)) as (-> & _). by apply p2v_v2p.
Qed.

Lemma nt_ok : pd_ok m' pgdir L.
Proof.
  destruct Hpd as [Hd Hu Ht Hinj]. split; [done|set_solver| |].
  - intros j Hj. rewrite nt_present, nt_tab by done. destruct (decide (j = i)) as [->|].
    + intros _. split_and!; [done|done|apply nt_ne].
    + intros Hp. destruct (Ht j Hj Hp) as (? & ? & ?). set_solver.
  - intros j k Hj Hk. rewrite !nt_present, !nt_tab by done.
    destruct (decide (j = i)) as [->|], (decide (k = i)) as [->|]; [done| | |by apply Hinj].
    + intros _ Hp E. destruct (Ht k Hk Hp) as (_ & Hn & _). rewrite <- E in Hn. set_solver.
    + intros Hp _ E. destruct (Ht j Hj Hp) as (_ & Hn & _). rewrite E in Hn. set_solver.
Qed.

Lemma nt_pteval va : pteval m' pgdir va = pteval m pgdir va.
Proof.
  pose proof (PDX_range va) as Hr. unfold pteval, slot. rewrite nt_present, nt_tab by done.
  destruct (decide (PDX va = i)) as [->|Hne].
  - rewrite Hno. apply ld_zero. intros b Hb. apply new_table_zero; try done; [apply Hpd|apply nt_ne|].
    by apply (word_in_page q (PTX va)), Hb; apply PTX_range.
  - destruct (present m pgdir (PDX va)) eqn:Hp; [|done]. destruct (pd_tab _ _ _ Hpd _ Hr Hp) as (Hto & Htn & Htd).
    apply ld_long_ext. intros b Hb.
    assert (in_page (tab m pgdir (PDX va)) b) as Hin by (apply (word_in_page _ (PTX va)), Hb; apply PTX_range).
    apply new_table_out; [done| |].
    + apply (pages_apart (tab m pgdir (PDX va)) q b); [by apply aligned|by apply aligned| |done].
      intros E. rewrite E in Htn. set_solver.
    + apply (pages_apart (tab m pgdir (PDX va)) pgdir b); [by apply aligned|apply aligned, Hpd|done|done].
Qed.
End new_table.

(** ** What an operation may touch

    Between two states of a directory, only the tree and pages taken from the
    free list change, and the tree only grows by such pages. *)
Record vm_step (pgdir : Z) (m : mem) (L : list Z) (m' : mem) (L' : list Z) : Prop := {
  vs_frame : forall a, ~ in_tree m pgdir a -> (forall q, q ∈ L -> ~ in_page q a) -> m' a = m a;
  vs_tree : forall a, in_tree m' pgdir a -> in_tree m pgdir a \/ exists q, q ∈ L /\ in_page q a;
  vs_keep : forall j, 0 <= j < 1024 -> present m pgdir j = true -> present m' pgdir j = true;
  vs_sub : exists k, L' = drop k L }.

Lemma vm_step_refl pgdir m L : vm_step pgdir m L m L.
Proof. split; [done|by left|done|by exists O]. Qed.

Lemma elem_of_drop {A} k (l : list A) x : x ∈ drop k l -> x ∈ l.
Proof. intros H. rewrite <- (take_drop k l). apply elem_of_app. by right. Qed.

Lemma vm_step_sub pgdir m L m' L' q : vm_step pgdir m L m' L' -> q ∈ L' -> q ∈ L.
Proof. intros [_ _ _ [k ->]]. apply elem_of_drop. Qed.

Lemma vm_step_trans pgdir m L m1 L1 m2 L2 :
  vm_step pgdir m L m1 L1 -> vm_step pgdir m1 L1 m2 L2 -> vm_step pgdir m L m2 L2.
Proof.
  intros S1 S2. split.
  - intros a Ht Hq. rewrite (vs_frame _ _ _ _ _ S2).
    + by apply (vs_frame _ _ _ _ _ S1).
    + intros [?|(q & Hq1 & Hq2)]%(vs_tree _ _ _ _ _ S1); [done|by apply (Hq q)].
    + intros q Hq1. apply Hq. by eapply vm_step_sub.
  - intros a [Ha|(q & Hq & Ha)]%(vs_tree _ _ _ _ _ S2).
    + by apply (vs_tree _ _ _ _ _ S1).
    + right. exists q. split; [by eapply vm_step_sub|done].
  - intros j Hj Hp. apply (vs_keep _ _ _ _ _ S2); [done|]. by apply (vs_keep _ _ _ _ _ S1).
  - destruct (vs_sub _ _ _ _ _ S1) as [k ->], (vs_sub _ _ _ _ _ S2) as [k' ->]. exists (k + k')%nat.
    by rewrite drop_drop.
Qed.

(** A directory in a consistent allocator state. *)
Record vrep (s : kst) (L : list Z) (pgdir : Z) : Prop := {
  vr_k : krep s L;
  vr_pd : pd_ok (pm s) pgdir L }.

Definition use (m : mem) (pgdir va : Z) : nat := if present m pgdir (PDX va) then 0 else 1.

Lemma use_le m pgdir va : (use m pgdir va <= 1)%nat.
Proof. unfold use. destruct (present m pgdir (PDX va)); lia. Qed.

Lemma walk_create s L pgdir va : vrep s L pgdir -> (use (pm s) pgdir va <= length L)%nat ->
  wp (walkpgdir pgdir va true) s (fun r s' => exists L', L' = drop (use (pm s) pgdir va) L /\ vrep s' L' pgdir /\
    vm_step pgdir (pm s) L (pm s') L' /\
    present (pm s') pgdir (PDX va) = true /\ r = slot (pm s') pgdir va /\
    forall va', pteval (pm s') pgdir va' = pteval (pm s) pgdir va').
Proof.
  intros [Hk Hpd] Huse. unfold use in *. pose proof (PDX_range va) as Hr.
  destruct (present (pm s) pgdir (PDX va)) eqn:Hp.
  - unfold wp. rewrite walk_present by done. exists L. split_and!; [done|by split|apply vm_step_refl|done|done|done].
  - destruct L as [|q L]; [cbn in Huse; lia|]. unfold walkpgdir, ld. apply wp_bind, wp_gets.
    fold (pde (pm s) pgdir (PDX va)). unfold present in Hp. rewrite Hp. cbn [negb].
    eapply wp_seq; [by apply (kalloc_spec kend Hend)|]. intros r s1 (Em & _ & -> & Hk1).
    pose proof (kr_ok _ _ _ Hk) as Ho. pose proof (kr_nodup _ _ _ Hk) as Hnd.
    inversion Ho as [|? ? Hq Ho']; inversion Hnd as [|? ? Hnq Hnd']; subst.
    rewrite (proj2 (Z.eqb_neq q 0)) by apply (page_ok_u32 kend Hend q Hq).
    apply wp_bind, wp_modify. unfold st. apply wp_bind, wp_modify, wp_ret. cbn [pm set_pm].
    rewrite lor_flags, Em. fold (new_table pgdir (PDX va) q (pm s)).
    assert (forall a, in_tree (new_table pgdir (PDX va) q (pm s)) pgdir a ->
      in_tree (pm s) pgdir a \/ in_page q a) as Htree.
    { intros a [Ha|(j & Hj & Hpj & Ha)]; [by left; left|].
      rewrite (nt_present (pm s) pgdir L) in Hpj by done. rewrite (nt_tab (pm s) pgdir L) in Ha by done.
      destruct (decide (j = PDX va)) as [->|]; [by right|]. left. right. eauto. }
    exists L. split_and!.
    + done.
    + split; [|by eapply nt_ok]. apply (krep_set_pm (set_pm _ s1)).
      * apply krep_set_pm; [done|]. intros w a Hw Ha. cbn [pm set_pm]. rewrite ?Em, memset_fills by done.
        rewrite decide_False; [done|]. intros Hin. rewrite Forall_forall in Ho'.
        apply (pages_apart q w a); [by apply aligned|apply aligned; by apply Ho'|by intros ->|done|done].
      * intros w a Hw Ha. cbn [pm set_pm]. unfold new_table. rewrite ?Em, wr_long_out; [done|].
        rewrite Forall_forall in Ho'. assert (w <> pgdir) as Hne.
        { intros ->. apply (pd_used _ _ _ Hpd). by right. }
        pose proof (pages_apart w pgdir a ltac:(apply aligned; by apply Ho') (aligned _ (pd_dir _ _ _ Hpd)) Hne Ha) as Hno.
        unfold in_page in Hno. rewrite PGSIZE_val in Hno. lia.
    + split.
      * intros a Ht Hql. apply new_table_out; [done|apply Hql; left|]. intros Hin. apply Ht. by left.
      * intros a [?|?]%Htree; [by left|]. right. exists q. split; [left|done].
      * intros j Hj Hpj. rewrite (nt_present (pm s) pgdir L) by done. by destruct (decide _).
      * by exists 1%nat.
    + rewrite (nt_present (pm s) pgdir L) by done. by rewrite decide_True.
    + unfold slot. rewrite (nt_tab (pm s) pgdir L) by done. by rewrite decide_True.
    + intros va'. by eapply nt_pteval.
Qed.

(** ** Writing an entry *)

Definition same_page (va va' : Z) : Prop := PDX va = PDX va' /\ PTX va = PTX va'.
#[global] Instance same_page_dec va va' : Decision (same_page va va').
Proof. unfold same_page. apply _. Defined.

Section store.
Context (s : kst) (L : list Z) (pgdir va x : Z).
Context (V : vrep s L pgdir) (Hp : present (pm s) pgdir (PDX va) = true).
Let m' := wr_long (slot (pm s) pgdir va) x (pm s).

Lemma slot_in_tab b : slot (pm s) pgdir va <= b < slot (pm s) pgdir va + 4 -> in_page (tab (pm s) pgdir (PDX va)) b.
Proof. intros Hb. by apply (word_in_page _ (PTX va)), Hb; apply PTX_range. Qed.

Lemma store_out a : ~ in_page (tab (pm s) pgdir (PDX va)) a -> m' a = pm s a.
Proof.
  intros Hn. apply wr_long_out. destruct (decide (slot (pm s) pgdir va <= a < slot (pm s) pgdir va + 4)); [|lia].
  destruct Hn. by apply slot_in_tab.
Qed.

Lemma store_dir a : in_page pgdir a -> m' a = pm s a.
Proof.
  intros Ha. apply store_out. destruct V as [_ [Hd _ Ht _]]. destruct (Ht _ (PDX_range va) Hp) as (Hto & _ & Hne).
  intros Hin. by apply (pages_apart _ pgdir a (aligned _ Hto) (aligned _ Hd) Hne).
Qed.

Lemma store_tab j : 0 <= j < 1024 -> present m' pgdir j = present (pm s) pgdir j /\ tab m' pgdir j = tab (pm s) pgdir j.
Proof. intros Hj. unfold present, tab. by rewrite (pde_ext (pm s) m') by (done || apply store_dir). Qed.

Lemma store_pteval va' : pteval m' pgdir va' = if decide (same_page va va') then u32 x else pteval (pm s) pgdir va'.
Proof.
  pose proof (PDX_range va') as Hr. pose proof (PTX_range va') as Ht'. pose proof (PTX_range va) as Ht.
  destruct (store_tab (PDX va') Hr) as [E1 E2]. unfold pteval, slot. rewrite E1, E2.
  destruct V as [_ Hpd]. destruct (decide (same_page va va')) as [[Ed Et]|Hne].
  - rewrite <- Ed, <- Et, Hp. apply ld_wr_long_same.
  - destruct (present (pm s) pgdir (PDX va')) eqn:Hp'; [|done]. apply ld_long_ext. intros b Hb.
    destruct (decide (PDX va = PDX va')) as [Ed|Ed].
    + apply wr_long_out. unfold slot. rewrite Ed. assert (PTX va <> PTX va') by (intros ?; by destruct Hne). lia.
    + apply store_out.
      apply (pages_apart (tab (pm s) pgdir (PDX va'))); [| | |by apply (word_in_page _ (PTX va'))].
      * apply aligned. by apply (pd_tab _ _ _ Hpd).
      * apply aligned. by apply (pd_tab _ _ _ Hpd), Hp; apply PDX_range.
      * intros E. apply Ed. symmetry. apply (pd_inj _ _ _ Hpd); auto. apply PDX_range.
Qed.

Lemma pte_store_step : vm_step pgdir (pm s) L m' L.
Proof.
  split.
  - intros a Ht _. apply store_out. intros Ha. apply Ht. right. exists (PDX va). by split; [apply PDX_range|].
  - intros a [Ha|(j & Hj & Hpj & Ha)]; [by left; left|]. left. right. exists j.
    destruct (store_tab j Hj) as [E1 E2]. by rewrite <- E1, <- E2.
  - intros j Hj. by destruct (store_tab j Hj) as [-> _].
  - by exists O.
Qed.

Lemma store_vrep : vrep (set_pm m' s) L pgdir.
Proof.
  destruct V as [Hk Hpd]. split.
  - apply krep_set_pm; [done|]. intros q a Hq Ha. apply store_out.
    destruct (pd_tab _ _ _ Hpd _ (PDX_range va) Hp) as (Hto & Htn & _).
    pose proof (kr_ok _ _ _ Hk) as Ho. rewrite Forall_forall in Ho.
    apply (pages_apart q); [by apply aligned, Ho|by apply aligned|by intros ->|done].
  - by apply (pd_ok_ext (pm s) _ pgdir L L); [apply store_dir| |].
Qed.
End store.

Lemma slot_nonzero s L pgdir va : vrep s L pgdir -> present (pm s) pgdir (PDX va) = true -> slot (pm s) pgdir va <> 0.
Proof.
  intros [_ Hpd] Hp. destruct (pd_tab _ _ _ Hpd _ (PDX_range va) Hp) as ((_ & He & _) & _).
  pose proof (PTX_range va). unfold slot, KERNBASE in *. lia.
Qed.

(** ** Mapping a range *)

Lemma same_page_iff a va : is_u32 a -> is_u32 va -> a mod 4096 = 0 -> same_page a va <-> a <= va < a + 4096.
Proof.
  intros Ha Hv Hal. unfold same_page. split.
  - intros [E1 E2]. pose proof (va_split a Ha). pose proof (va_split va Hv).
    pose proof (Z.mod_pos_bound va 4096 ltac:(lia)). lia.
  - intros Hb. apply Z.div_exact in Hal; [|done].
    assert (va / 4096 = a / 4096) as E.
    { symmetry. apply (Z.div_unique va 4096 (a / 4096) (va - a)); [left; lia|lia]. }
    rewrite !PTX_val, !PDX_val by done. rewrite E. split; [|done].
    change (2 ^ 22) with (4096 * 1024). by rewrite <- !Z.div_div, E by lia.
Qed.

Lemma PDX_next a : is_u32 (a + 4096) -> 0 <= a -> a mod 4096 = 0 -> PDX (a + 4096) = PDX a \/ PDX (a + 4096) = PDX a + 1.
Proof.
  unfold is_u32. intros H H0 Ha. rewrite !PDX_val by (unfold is_u32; lia).
  pose proof (Z.div_mod a (2 ^ 22) ltac:(lia)). pose proof (Z.mod_pos_bound a (2 ^ 22) ltac:(lia)).
  destruct (decide (a mod 2 ^ 22 + 4096 < 2 ^ 22)).
  - left. symmetry. apply (Z.div_unique (a + 4096) (2 ^ 22) _ (a mod 2 ^ 22 + 4096)); lia.
  - right. symmetry. apply (Z.div_unique (a + 4096) (2 ^ 22) _ (a mod 2 ^ 22 + 4096 - 2 ^ 22)); lia.
Qed.

Lemma map_round s L pgdir a x (k : M kst Z) (Q : Z -> kst -> Prop) :
  vrep s L pgdir -> (use (pm s) pgdir a <= length L)%nat -> testf (pteval (pm s) pgdir a) PTE_P = false ->
  (forall s', let L' := drop (use (pm s) pgdir a) L in
     vrep s' L' pgdir -> vm_step pgdir (pm s) L (pm s') L' ->
     present (pm s') pgdir (PDX a) = true ->
     (forall va', pteval (pm s') pgdir va' = if decide (same_page a va') then u32 x else pteval (pm s) pgdir va') ->
     wp k s' Q) ->
  wp (pte <- walkpgdir pgdir a true ;;
      if pte =? 0 then ret (-1) else
      y <- ld pte ;;
      if testf y PTE_P then panic "remap" else
      st pte x ;; k) s Q.
Proof.
  intros V Hu Hn Hk. eapply wp_seq; [by apply (walk_create s L pgdir a)|].
  intros r s1 (L1 & -> & V1 & S1 & Hp1 & -> & Hpt).
  rewrite (proj2 (Z.eqb_neq _ 0)) by (by eapply slot_nonzero). unfold ld. apply wp_bind, wp_gets.
  assert (ld_long (slot (pm s1) pgdir a) (pm s1) = pteval (pm s1) pgdir a) as ->.
  { unfold pteval. by rewrite Hp1. }
  rewrite Hpt, Hn. unfold st. apply wp_bind, wp_modify. apply Hk.
  - by apply store_vrep.
  - eapply vm_step_trans; [done|]. by eapply pte_store_step.
  - cbn [pm set_pm]. by destruct (store_tab s1 _ pgdir a x V1 Hp1 (PDX a) (PDX_range a)) as [-> _].
  - intros va'. cbn [pm set_pm]. rewrite (store_pteval s1 _ pgdir a x V1 Hp1). by rewrite Hpt.
Qed.

(** The translation after mapping [n] pages from [a] to [pa]. *)
Definition mapped (a n pa perm : Z) (m : mem) (pgdir va : Z) : Z :=
  if decide (a <= va < a + n * 4096)
  then Z.lor (Z.lor (pa + (va - a) / 4096 * 4096) perm) PTE_P
  else pteval m pgdir va.

Definition need (m : mem) (pgdir a last : Z) : Z := PDX last - PDX a + Z.of_nat (use m pgdir a).

Lemma u32_entry pa perm : 0 <= pa -> pa + 4096 <= 2 ^ 32 -> pa mod 4096 = 0 -> 0 <= perm < 4096 ->
  u32 (Z.lor (Z.lor pa perm) PTE_P) = Z.lor (Z.lor pa perm) PTE_P.
Proof.
  intros H0 Hm Ha Hp. apply u32_small. rewrite <- Z.lor_assoc.
  assert (0 <= Z.lor perm PTE_P < 4096) as Hf.
  { split; [apply Z.lor_nonneg; unfold PTE_P; lia|]. change 4096 with (2 ^ 12).
    destruct (decide (Z.lor perm PTE_P = 0)) as [->|Hnz]; [lia|].
    apply Z.log2_lt_pow2; [assert (0 <= Z.lor perm PTE_P) by (apply Z.lor_nonneg; unfold PTE_P; lia); lia|].
    rewrite Z.log2_lor by (unfold PTE_P; lia). change (Z.log2 PTE_P) with 0.
    destruct (decide (perm = 0)) as [->|]; [done|].
    assert (Z.log2 perm < 12) by (apply Z.log2_lt_pow2; lia). lia. }
  rewrite lor_aligned by done. lia.
Qed.

Lemma mapped_step a n pa perm m m1 pgdir va : 0 <= n -> is_u32 va -> is_u32 a -> a mod 4096 = 0 ->
  u32 (Z.lor (Z.lor pa perm) PTE_P) = Z.lor (Z.lor pa perm) PTE_P ->
  (forall va', pteval m1 pgdir va' = if decide (same_page a va') then u32 (Z.lor (Z.lor pa perm) PTE_P)
     else pteval m pgdir va') ->
  mapped (a + 4096) n (pa + 4096) perm m1 pgdir va = mapped a (n + 1) pa perm m pgdir va.
Proof.
  intros Hn Hv Ha Hal Hu E. unfold mapped. destruct (decide (a + 4096 <= va < a + 4096 + n * 4096)) as [H|H].
  - rewrite decide_True by lia. do 2 f_equal.
    replace (va - a) with (va - (a + 4096) + 1 * 4096) by lia. rewrite Z.div_add by lia. lia.
  - rewrite E. destruct (decide (same_page a va)) as [Hs|Hs]; rewrite same_page_iff in Hs by done.
    + rewrite decide_True by lia. rewrite Hu. do 2 f_equal. rewrite Z.div_small by lia. lia.
    + by rewrite decide_False by lia.
Qed.

Lemma mappages_loop_spec perm pgdir : 0 <= perm < 4096 ->
  forall fuel s L a n pa, vrep s L pgdir ->
  a mod 4096 = 0 -> 0 <= a -> a + (n + 1) * 4096 <= 2 ^ 32 -> 0 <= n -> n < Z.of_nat fuel ->
  pa mod 4096 = 0 -> 0 <= pa -> pa + (n + 1) * 4096 <= 2 ^ 32 ->
  (forall va, a <= va < a + (n + 1) * 4096 -> testf (pteval (pm s) pgdir va) PTE_P = false) ->
  need (pm s) pgdir a (a + n * 4096) <= Z.of_nat (length L) ->
  wp (mappages_loop fuel pgdir a (a + n * 4096) pa perm) s (fun r s' => exists L', r = 0 /\ vrep s' L' pgdir /\
    vm_step pgdir (pm s) L (pm s') L' /\
    Z.of_nat (length L) - need (pm s) pgdir a (a + n * 4096) <= Z.of_nat (length L') /\
    forall va, is_u32 va -> pteval (pm s') pgdir va = mapped a (n + 1) pa perm (pm s) pgdir va).
Proof.
  intros Hperm. induction fuel as [|fuel IH]; [lia|]. intros s L a n pa V Hal H0 Hmax Hn Hf Hpal Hp0 Hpm Hfree Hneed.
  assert (PDX a <= PDX (a + n * 4096)) as Hmono.
  { rewrite !PDX_val by (unfold is_u32; lia). apply Z.div_le_mono; lia. }
  assert (use (pm s) pgdir a <= length L)%nat as Huse by (unfold need in Hneed; lia).
  assert (is_u32 a) as Hua by (unfold is_u32; lia).
  pose proof (u32_entry pa perm Hp0 ltac:(lia) Hpal Hperm) as Hue.
  cbn [mappages_loop]. apply (map_round s L); [done|done|apply Hfree; lia|].
  intros s1 L1 V1 S1 Hpr Hpt.
  assert (length L1 = length L - use (pm s) pgdir a)%nat as HL1 by (unfold L1; by rewrite length_drop).
  destruct (Z.eqb_spec a (a + n * 4096)) as [E|E].
  - assert (n = 0) as -> by lia. apply wp_ret. exists L1. split_and!; [done|done|done|unfold need; lia|].
    intros va Hva. rewrite <- (mapped_step a 0 pa perm (pm s) (pm s1)) by done.
    unfold mapped. by rewrite decide_False by lia.
  - assert (0 < n) as Hn0 by lia. change PGSIZE with 4096. rewrite !u32_small by lia.
    assert (need (pm s1) pgdir (a + 4096) (a + n * 4096) + Z.of_nat (use (pm s) pgdir a) <=
            need (pm s) pgdir a (a + n * 4096)) as Hdec.
    { unfold need. destruct (PDX_next a) as [E1|E1]; [unfold is_u32; lia|done|done| |].
      - unfold use at 1. rewrite E1, Hpr. lia.
      - rewrite E1. pose proof (use_le (pm s1) pgdir (a + 4096)). lia. }
    replace (a + n * 4096) with (a + 4096 + (n - 1) * 4096) in * by lia.
    eapply wp_conseq; [apply (IH s1 L1 (a + 4096) (n - 1) (pa + 4096))|]; try done; try lia.
    + rewrite <- Zplus_mod_idemp_l, Hal. done.
    + rewrite <- Zplus_mod_idemp_l, Hpal. done.
    + intros va Hva. rewrite Hpt. rewrite decide_False by (rewrite same_page_iff by (done || unfold is_u32; lia); lia).
      apply Hfree. lia.
    + intros r s2 (L2 & -> & V2 & S2 & HL2 & Hpt2). exists L2. split_and!; [done|done|by eapply vm_step_trans|lia|].
      intros va Hva. rewrite Hpt2 by done. replace (n + 1) with (n - 1 + 1 + 1) by lia.
      by apply mapped_step; try done; lia.
Qed.

Lemma mappages_spec s L pgdir va size pa perm :
  let a := PGROUNDDOWN va in
  let last := PGROUNDDOWN (va + size - 1) in
  vrep s L pgdir -> is_u32 va -> 1 <= size -> va + size <= 2 ^ 32 ->
  0 <= perm < 4096 -> pa mod 4096 = 0 -> 0 <= pa -> pa + (last - a) + 4096 <= 2 ^ 32 ->
  (forall va', a <= va' < last + 4096 -> testf (pteval (pm s) pgdir va') PTE_P = false) ->
  need (pm s) pgdir a last <= Z.of_nat (length L) ->
  wp (mappages pgdir va size pa perm) s (fun r s' => exists L', r = 0 /\ vrep s' L' pgdir /\
    vm_step pgdir (pm s) L (pm s') L' /\
    Z.of_nat (length L) - need (pm s) pgdir a last <= Z.of_nat (length L') /\
    forall va', is_u32 va' -> pteval (pm s') pgdir va' =
      if decide (a <= va' < last + 4096) then Z.lor (Z.lor (pa + (va' - a) / 4096 * 4096) perm) PTE_P
      else pteval (pm s) pgdir va').
Proof.
  intros a last V Hva Hs Hmax Hperm Hpal Hp0 Hpm Hfree Hneed. unfold is_u32 in Hva.
  unfold mappages. fold a. rewrite (u32_small va), (u32_small (va + size - 1)) by lia. fold last.
  assert (exists k, 0 <= k /\ a = k * 4096) as (k & Hk0 & Ha).
  { unfold a. rewrite PGROUNDDOWN_val, u32_small by lia. exists (va / 4096).
    pose proof (Z.div_mod va 4096 ltac:(lia)). pose proof (Z.div_pos va 4096 ltac:(lia) ltac:(lia)). lia. }
  assert (exists k', k <= k' /\ last = k' * 4096 /\ last + 4096 <= 2 ^ 32) as (k' & Hk' & Hl & Hlm).
  { unfold last. rewrite PGROUNDDOWN_val, u32_small by lia. exists ((va + size - 1) / 4096).
    pose proof (Z.div_mod (va + size - 1) 4096 ltac:(lia)). pose proof (Z.div_mod va 4096 ltac:(lia)).
    pose proof (Z.div_le_mono va (va + size - 1) 4096 ltac:(lia) ltac:(lia)).
    unfold a in Ha. rewrite PGROUNDDOWN_val, u32_small in Ha by lia.
    pose proof (Z.mod_pos_bound (va + size - 1) 4096 ltac:(lia)).
    assert ((va + size - 1) / 4096 < 2 ^ 20) by (apply Z.div_lt_upper_bound; lia). lia. }
  clearbody a last. set (n := k' - k). change PGSIZE with 4096.
  replace last with (a + n * 4096) in * by (unfold n; lia).
  eapply wp_conseq; [apply (mappages_loop_spec perm pgdir Hperm _ s L a n pa)|]; try done; try lia.
  - rewrite Ha. by apply Z.mod_mul.
  - replace (a + n * 4096 - a) with (n * 4096) by lia. rewrite u32_small, Z.div_mul by lia. lia.
  - intros va' Hv. apply Hfree. lia.
  - intros r s' (L' & -> & V' & S' & HL' & Hpt). exists L'. split_and!; [done|done|done|done|].
    intros va' Hv'. rewrite Hpt by done. unfold mapped.
    by replace (a + n * 4096 + 4096) with (a + (n + 1) * 4096) by lia.
Qed.

(** Running out of memory, and mapping a page twice. *)
Lemma mappages_no_memory s pgdir va size pa perm : krep s [] -> present (pm s) pgdir (PDX (PGROUNDDOWN va)) = false ->
  exists s', mappages pgdir va size pa perm s = Ret (-1) s' /\ pm s' = pm s.
Proof.
  intros Hk Hp. unfold mappages. set (n := Z.to_nat _). set (a := PGROUNDDOWN va) in *. cbn [mappages_loop].
  destruct (proj1 (wp_eq _ _ _) (kalloc_spec kend Hend s [] Hk)) as (q & s1 & Ek & Em & _ & -> & _).
  exists s1. split; [|done]. unfold bind, walkpgdir, ld, gets, bind, ret. fold (pde (pm s) pgdir (PDX a)).
  unfold present in Hp. rewrite Hp. cbn [negb]. by rewrite Ek.
Qed.

Lemma mappages_remap s L pgdir va size pa perm : vrep s L pgdir -> testf (pteval (pm s) pgdir (PGROUNDDOWN va)) PTE_P = true ->
  mappages pgdir va size pa perm s = Panic "remap" s.
Proof.
  intros V Hp. unfold mappages. set (n := Z.to_nat _). set (a := PGROUNDDOWN va) in *. cbn [mappages_loop].
  assert (present (pm s) pgdir (PDX a) = true) as Hpr.
  { unfold pteval in Hp. by destruct (present _ _ _). }
  unfold bind at 1. rewrite walk_present by done.
  rewrite (proj2 (Z.eqb_neq _ 0)) by (by eapply slot_nonzero).
  unfold bind, ld, gets. unfold pteval in Hp. rewrite Hpr in Hp. by rewrite Hp.
Qed.

(** [mappages] of a range whose pages are unmapped maps every page of
    it to consecutive physical pages with the given permissions and changes no
    other translation, as soon as the free list has one page for each missing
    table; without a page for the first table it returns -1 and changes nothing,
    and it panics rather than map a page twice. *)
Theorem mappages_maps s L pgdir va size pa perm
    (a := PGROUNDDOWN va) (last := PGROUNDDOWN (va + size - 1)) :
  vrep s L pgdir -> is_u32 va -> 1 <= size -> va + size <= 2 ^ 32 ->
  0 <= perm < 4096 -> pa mod 4096 = 0 -> 0 <= pa -> pa + (last - a) + 4096 <= 2 ^ 32 ->
  ((forall va', a <= va' < last + 4096 -> testf (pteval (pm s) pgdir va') PTE_P = false) ->
   need (pm s) pgdir a last <= Z.of_nat (length L) ->
   exists s' L', mappages pgdir va size pa perm s = Ret 0 s' /\ vrep s' L' pgdir /\
     forall va', is_u32 va' -> pteval (pm s') pgdir va' =
       if decide (a <= va' < last + 4096) then Z.lor (Z.lor (pa + (va' - a) / 4096 * 4096) perm) PTE_P
       else pteval (pm s) pgdir va') /\
  (L = [] -> present (pm s) pgdir (PDX a) = false ->
   exists s', mappages pgdir va size pa perm s = Ret (-1) s' /\ pm s' = pm s) /\
  (testf (pteval (pm s) pgdir a) PTE_P = true -> mappages pgdir va size pa perm s = Panic "remap" s).
Proof.
  intros V Hva Hs Hmax Hperm Hpal Hp0 Hpm. split_and!.
  - intros Hfree Hneed.
    destruct (proj1 (wp_eq _ _ _) (mappages_spec s L pgdir va size pa perm V Hva Hs Hmax Hperm Hpal Hp0 Hpm Hfree Hneed))
      as (r & s' & E & L' & -> & V' & _ & _ & Hpt). eauto.
  - intros -> Hn. apply mappages_no_memory; [apply V|done].
  - by eapply mappages_remap.
Qed.
End vmspec.
