(* ===== verification/UvmSpec.v ===== *)
(** User memory: the bytes a process sees through its page directory
    ([ubyte]), and how [allocuvm], [copyout] and [copyuvm] change them. *)

From S2P Require Import Prelude Params CString Mmu Kalloc Vm VmSpec.

Definition frame (m : mem) (pgdir va : Z) : Z := p2v (PTE_ADDR (pteval m pgdir va)).
Definition is_mapped (m : mem) (pgdir va : Z) : bool := testf (pteval m pgdir va) PTE_P.

(** What user code reads at [va]. *)
Definition ubyte (m : mem) (pgdir va : Z) : option Z :=
  let x := pteval m pgdir va in
  if testf x PTE_P && testf x PTE_U then Some (m (frame m pgdir va + va mod 4096)) else None.

Section uvm.
Context (kend : Z) (Hend : KERNBASE < kend).
Notation krep := (krep kend).
Notation page_ok := (page_ok kend).
Notation vrep := (vrep kend).
Notation pd_ok := (pd_ok kend).

(** A page that is no part of the page-table tree. *)
Definition apart (m : mem) (pgdir q : Z) : Prop :=
  q <> pgdir /\ forall i, 0 <= i < 1024 -> present m pgdir i = true -> q <> tab m pgdir i.

(** User pages are distinct pages outside the tree and the free list. *)
Record uvm_ok (m : mem) (pgdir : Z) (L : list Z) : Prop := {
  uv_page : forall va, 0 <= va < KERNBASE -> is_mapped m pgdir va = true ->
    page_ok (frame m pgdir va) /\ frame m pgdir va ∉ L /\ apart m pgdir (frame m pgdir va);
  uv_inj : forall va va', 0 <= va < KERNBASE -> 0 <= va' < KERNBASE -> is_mapped m pgdir va = true ->
    is_mapped m pgdir va' = true -> frame m pgdir va = frame m pgdir va' -> same_page va va' }.

Record urep (s : kst) (L : list Z) (pgdir : Z) : Prop := {
  ur_v : vrep s L pgdir;
  ur_u : uvm_ok (pm s) pgdir L }.

Lemma apart_tree m pgdir L q a : pd_ok m pgdir L -> page_ok q -> apart m pgdir q -> in_page q a -> ~ in_tree m pgdir a.
Proof.
  intros Hpd Hq [Hne Ht] Ha [Hd|(i & Hi & Hp & Hin)].
  - eapply (pages_apart q pgdir a); try done; [by apply Hq|apply Hpd].
  - eapply (pages_apart q (tab m pgdir i) a); try done; [by apply Hq| |by apply Ht].
    destruct (pd_tab _ _ _ _ Hpd i Hi Hp) as ((? & _) & _). done.
Qed.

Lemma off_in_page q va : in_page q (q + va mod 4096).
Proof. unfold in_page. rewrite PGSIZE_val. pose proof (Z.mod_pos_bound va 4096 ltac:(lia)). lia. Qed.

(** A step that keeps the translation of a user page keeps its bytes. *)
Lemma step_bytes s L pgdir m' L' va : urep s L pgdir -> vm_step pgdir (pm s) L m' L' -> 0 <= va < KERNBASE ->
  is_mapped (pm s) pgdir va = true -> forall a, in_page (frame (pm s) pgdir va) a -> m' a = pm s a.
Proof.
  intros [[Hk Hpd] Hu] S Hva Hm a Ha. destruct (uv_page _ _ _ Hu va Hva Hm) as (Hq & HnL & Hap).
  apply (vs_frame _ _ _ _ _ S).
  - by eapply apart_tree.
  - intros q Hqi. pose proof (kr_ok _ _ _ Hk) as Ho. rewrite Forall_forall in Ho.
    apply (pages_apart (frame (pm s) pgdir va)); [apply Hq|by apply Ho|by intros <-|done].
Qed.

Lemma step_ubyte s L pgdir m' L' va : urep s L pgdir -> vm_step pgdir (pm s) L m' L' -> 0 <= va < KERNBASE ->
  pteval m' pgdir va = pteval (pm s) pgdir va -> ubyte m' pgdir va = ubyte (pm s) pgdir va.
Proof.
  intros U S Hva E. unfold ubyte, frame. rewrite E. destruct (testf _ PTE_P) eqn:Hp; [|done]. cbn [andb].
  destruct (testf _ PTE_U); [|done]. f_equal. eapply step_bytes; eauto. apply off_in_page.
Qed.

(** ** Mapping one page *)

Lemma PGROUNDDOWN_aligned a : is_u32 a -> a mod 4096 = 0 -> PGROUNDDOWN a = a.
Proof. intros Hu Ha. rewrite PGROUNDDOWN_val, u32_small by done. lia. Qed.

Lemma PGROUNDDOWN_end a : 0 <= a -> a + 4096 <= 2 ^ 32 -> a mod 4096 = 0 -> PGROUNDDOWN (a + 4096 - 1) = a.
Proof.
  intros H0 Hm Ha. rewrite PGROUNDDOWN_val, u32_small by lia. replace (a + 4096 - 1) with (a + 4095) by lia.
  rewrite <- (Z.add_mod_idemp_l a 4095), Ha by lia. cbn -[Z.modulo]. rewrite Z.mod_small by lia. lia.
Qed.

Lemma map_page s L pgdir q a flags : vrep s L pgdir -> page_ok q -> 0 <= a -> a + 4096 <= 2 ^ 32 -> a mod 4096 = 0 ->
  0 <= flags < 4096 -> is_mapped (pm s) pgdir a = false -> (use (pm s) pgdir a <= length L)%nat ->
  wp (mappages pgdir a PGSIZE (v2p q) flags) s (fun r s' => exists L', r = 0 /\ vrep s' L' pgdir /\
    vm_step pgdir (pm s) L (pm s') L' /\ (length L - use (pm s) pgdir a <= length L')%nat /\
    forall va, is_u32 va -> pteval (pm s') pgdir va =
      if decide (same_page a va) then Z.lor (v2p q) (Z.lor flags PTE_P) else pteval (pm s) pgdir va).
Proof.
  intros V Hq H0 Hm Ha Hf Hn Hu. destruct (v2p_page kend Hend q Hq) as (_ & Hv0 & Hva & Hvm).
  assert (is_u32 a) as Hua by (unfold is_u32; lia).
  assert (PGROUNDDOWN (a + PGSIZE - 1) = a) as El by (by apply PGROUNDDOWN_end).
  assert (PGROUNDDOWN a = a) as Ea by (by apply PGROUNDDOWN_aligned).
  change PHYSTOP with 0xE000000 in Hvm.
  eapply wp_conseq; [apply (mappages_spec kend Hend s L pgdir a PGSIZE (v2p q) flags)|]; rewrite ?El, ?Ea;
    try done; try (rewrite ?PGSIZE_val; lia).
  - intros va Hv. destruct (decide (same_page a va)) as [Hs|Hs].
    + unfold is_mapped in Hn. unfold pteval, slot in *. destruct Hs as [<- <-]. done.
    + rewrite same_page_iff in Hs by (done || unfold is_u32; lia). lia.
  - unfold need. lia.
  - intros r s' (L' & -> & V' & S' & HL & Hpt). exists L'. split_and!; [done|done|done|unfold need in HL; lia|].
    intros va Hv. rewrite Hpt by done. destruct (decide (same_page a va)) as [Hs|Hs]; rewrite same_page_iff in Hs by done.
    + rewrite decide_True by lia. rewrite Z.div_small by lia. by rewrite Z.mul_0_l, Z.add_0_r, Z.lor_assoc.
    + by rewrite decide_False by lia.
Qed.

Lemma lor_small f : 0 <= f < 4096 -> 0 <= Z.lor f PTE_P < 4096.
Proof.
  intros Hf. assert (0 <= Z.lor f PTE_P) by (apply Z.lor_nonneg; unfold PTE_P; lia). split; [done|].
  change 4096 with (2 ^ 12). destruct (decide (Z.lor f PTE_P = 0)) as [->|]; [lia|].
  apply Z.log2_lt_pow2; [lia|]. rewrite Z.log2_lor by (unfold PTE_P; lia). change (Z.log2 PTE_P) with 0.
  destruct (decide (f = 0)) as [->|]; [done|]. assert (Z.log2 f < 12) by (apply Z.log2_lt_pow2; lia). lia.
Qed.

Lemma entry_frame q f : page_ok q -> 0 <= f < 4096 -> p2v (PTE_ADDR (Z.lor (v2p q) f)) = q.
Proof. intros Hq Hf. destruct (entry_of_page kend Hend q f Hq Hf) as (-> & _). by apply (p2v_v2p kend Hend). Qed.

Lemma entry_user q f : page_ok q -> 0 <= f < 4096 ->
  testf (Z.lor (v2p q) (Z.lor f PTE_P)) PTE_P = true /\
  testf (Z.lor (v2p q) (Z.lor f PTE_P)) PTE_U = Z.testbit f 2.
Proof.
  intros Hq Hf. pose proof (lor_small f Hf). change PTE_U with (2 ^ 2). change PTE_P with (2 ^ 0) at 2.
  rewrite !(testf_entry kend Hend q) by (done || lia). rewrite !Z.lor_spec. split; [apply orb_true_r|].
  apply orb_false_r.
Qed.

(** A fresh page, mapped at an unmapped user address. *)
Definition fresh (m : mem) (pgdir : Z) (L : list Z) (q : Z) : Prop :=
  page_ok q /\ q ∉ L /\ apart m pgdir q /\
  forall va, 0 <= va < KERNBASE -> is_mapped m pgdir va = true -> frame m pgdir va <> q.

Lemma map_user s L pgdir q a flags : urep s L pgdir -> fresh (pm s) pgdir L q -> 0 <= a -> a + 4096 <= KERNBASE ->
  a mod 4096 = 0 -> 0 <= flags < 4096 -> is_mapped (pm s) pgdir a = false ->
  (use (pm s) pgdir a <= length L)%nat ->
  wp (mappages pgdir a PGSIZE (v2p q) flags) s (fun r s' => exists L', r = 0 /\ urep s' L' pgdir /\
    vm_step pgdir (pm s) L (pm s') L' /\ (length L - use (pm s) pgdir a <= length L')%nat /\
    (forall b, in_page q b -> pm s' b = pm s b) /\
    (forall va, 0 <= va < KERNBASE -> is_mapped (pm s') pgdir va = bool_decide (same_page a va) || is_mapped (pm s) pgdir va) /\
    (forall va, 0 <= va < KERNBASE -> frame (pm s') pgdir va = if decide (same_page a va) then q else frame (pm s) pgdir va) /\
    forall va, 0 <= va < KERNBASE -> ubyte (pm s') pgdir va =
      if decide (same_page a va) then (if Z.testbit flags 2 then Some (pm s (q + va mod 4096)) else None)
      else ubyte (pm s) pgdir va).
Proof.
  intros [V Uv] (Hq & HqL & Hap & Hnf) H0 Hmx Ha Hf Hn Hu. pose proof V as [Hk Hpd].
  pose proof (kr_ok _ _ _ Hk) as Ho. rewrite Forall_forall in Ho.
  eapply wp_conseq; [apply (map_page s L pgdir q a flags V); try done; unfold KERNBASE in *; lia|].
  intros r s' (L' & -> & V' & S' & HL & Hpt). exists L'.
  assert (forall va, 0 <= va < KERNBASE -> pteval (pm s') pgdir va =
    if decide (same_page a va) then Z.lor (v2p q) (Z.lor flags PTE_P) else pteval (pm s) pgdir va) as Hpt'.
  { intros va Hva. apply Hpt. unfold is_u32, KERNBASE in *. lia. }
  clear Hpt. destruct (entry_user q flags Hq Hf) as [EP EU].
  assert (forall va, 0 <= va < KERNBASE -> frame (pm s') pgdir va =
    if decide (same_page a va) then q else frame (pm s) pgdir va) as Hfr.
  { intros va Hva. unfold frame. rewrite Hpt' by done. destruct (decide _); [|done].
    apply entry_frame; [done|]. by apply lor_small. }
  assert (forall va, 0 <= va < KERNBASE ->
    is_mapped (pm s') pgdir va = bool_decide (same_page a va) || is_mapped (pm s) pgdir va) as Hmp.
  { intros va Hva. unfold is_mapped. rewrite Hpt' by done. destruct (decide (same_page a va)) as [Hs|Hs].
    - by rewrite bool_decide_true.
    - by rewrite bool_decide_false. }
  assert (forall b, in_page q b -> pm s' b = pm s b) as Hqb.
  { intros b Hb. apply (vs_frame _ _ _ _ _ S').
    - by eapply apart_tree.
    - intros w Hw. apply (pages_apart q); [apply Hq|by apply Ho|by intros ->|done]. }
  assert (forall w, page_ok w -> w ∉ L -> apart (pm s) pgdir w -> apart (pm s') pgdir w) as Hap'.
  { intros w Hw HwL Hwa. split; [apply Hwa|]. intros i Hi Hp ->.
    set (w := tab (pm s') pgdir i) in *.
    assert (in_tree (pm s') pgdir w) as [Ht|(x & Hx & Hxw)]%(vs_tree _ _ _ _ _ S').
    { right. exists i. split_and!; [lia|lia|done|]. unfold in_page. rewrite PGSIZE_val. lia. }
    - revert Ht. eapply apart_tree; try done. unfold in_page. rewrite PGSIZE_val. lia.
    - eapply (pages_apart w x w); [apply Hw|by apply Ho|by intros ->| |done]. unfold in_page. rewrite PGSIZE_val. lia. }
  assert (forall w, w ∈ L' -> w ∈ L) as Hsub by (intros w; by eapply vm_step_sub).
  split_and!; [done| |done|done|done|done|done|].
  - split; [done|]. split.
    + intros va Hva. rewrite Hmp, Hfr by done. destruct (decide (same_page a va)) as [Hs|Hs].
      * intros _. split_and!; [done|auto|by apply Hap'].
      * rewrite bool_decide_false by done. intros Hm. destruct (uv_page _ _ _ Uv va Hva Hm) as (? & ? & ?).
        split_and!; [done|auto|by apply Hap'].
    + intros va va' Hva Hva'. rewrite !Hmp, !Hfr by done.
      destruct (decide (same_page a va)) as [Hs|Hs], (decide (same_page a va')) as [Hs'|Hs'];
        rewrite ?(bool_decide_false _ Hs), ?(bool_decide_false _ Hs').
      * intros _ _ _. destruct Hs as [? ?], Hs' as [? ?]. split; congruence.
      * intros _ Hm' E. by destruct (Hnf va' Hva' Hm').
      * intros Hm _ E. by destruct (Hnf va Hva Hm).
      * apply (uv_inj _ _ _ Uv); done.
  - intros va Hva. destruct (decide (same_page a va)) as [Hs|Hs].
    + unfold ubyte. rewrite Hpt', Hfr by done. rewrite !decide_True by done. rewrite EP, EU. cbn [andb].
      by rewrite Hqb by apply off_in_page.
    + apply (step_ubyte s L pgdir _ L'); [by split|done|done|]. rewrite Hpt' by done. by rewrite decide_False.
Qed.

(** ** Taking a page off the free list and filling it *)

Section take.
Context (s : kst) (q : Z) (L : list Z) (pgdir : Z) (s1 : kst).
Context (U : urep s (q :: L) pgdir) (Hk1 : krep s1 L).
Context (Hout : forall a, ~ in_page q a -> pm s1 a = pm s a).

Lemma tk_ok : page_ok q /\ q ∉ L.
Proof.
  destruct U as [[[_ _ Hn Ho] _] _]. inversion Ho; inversion Hn; by subst.
Qed.

Lemma tk_tree a : in_tree (pm s) pgdir a -> pm s1 a = pm s a.
Proof.
  destruct tk_ok as [Hq _]. destruct U as [[_ Hpd] _]. intros Ha. apply Hout. intros Hin.
  revert Ha. eapply apart_tree; try done. split.
  - intros ->. apply (pd_used _ _ _ _ Hpd). left.
  - intros i Hi Hp ->. destruct (pd_tab _ _ _ _ Hpd i Hi Hp) as (_ & Hn & _). apply Hn. left.
Qed.

Lemma tk_pteval va : pteval (pm s1) pgdir va = pteval (pm s) pgdir va.
Proof. apply pteval_ext, tk_tree. Qed.

Lemma tk_present i : 0 <= i < 1024 -> present (pm s1) pgdir i = present (pm s) pgdir i /\ tab (pm s1) pgdir i = tab (pm s) pgdir i.
Proof.
  intros Hi. unfold present, tab. rewrite (pde_ext (pm s) (pm s1)); [done|done|]. intros a Ha. apply tk_tree. by left.
Qed.

Lemma tk_mapped va : is_mapped (pm s1) pgdir va = is_mapped (pm s) pgdir va.
Proof. unfold is_mapped. by rewrite tk_pteval. Qed.

Lemma tk_frame va : frame (pm s1) pgdir va = frame (pm s) pgdir va.
Proof. unfold frame. by rewrite tk_pteval. Qed.

Lemma tk_apart w : apart (pm s) pgdir w -> apart (pm s1) pgdir w.
Proof. intros [Hn Ht]. split; [done|]. intros i Hi. destruct (tk_present i Hi) as [-> ->]. by apply Ht. Qed.

Lemma tk_urep : urep s1 L pgdir.
Proof.
  destruct U as [[Hk Hpd] Uv]. split; [split; [done|]|split].
  - apply (pd_ok_ext kend Hend (pm s) _ pgdir (q :: L)); [|set_solver|done]. intros a Ha. apply tk_tree. by left.
  - intros va Hva. rewrite tk_mapped, tk_frame. intros Hm. destruct (uv_page _ _ _ Uv va Hva Hm) as (? & ? & ?).
    split_and!; [done|set_solver|by apply tk_apart].
  - intros va va' Hva Hva'. rewrite !tk_mapped, !tk_frame. by apply (uv_inj _ _ _ Uv).
Qed.

Lemma tk_fresh : fresh (pm s1) pgdir L q.
Proof.
  destruct tk_ok as [Hq HqL]. destruct U as [[_ Hpd] Uv]. split_and!; [done|done| |].
  - apply tk_apart. split.
    + intros ->. apply (pd_used _ _ _ _ Hpd). left.
    + intros i Hi Hp ->. destruct (pd_tab _ _ _ _ Hpd i Hi Hp) as (_ & Hn & _). apply Hn. left.
  - intros va Hva. rewrite tk_mapped, tk_frame. intros Hm E.
    destruct (uv_page _ _ _ Uv va Hva Hm) as (_ & Hn & _). apply Hn. rewrite E. left.
Qed.

Lemma tk_ubyte va : 0 <= va < KERNBASE -> ubyte (pm s1) pgdir va = ubyte (pm s) pgdir va.
Proof.
  intros Hva. destruct tk_ok as [Hq HqL]. destruct U as [_ Uv]. unfold ubyte. rewrite tk_pteval, tk_frame.
  destruct (testf _ PTE_P) eqn:Hp; [|done]. cbn [andb]. destruct (testf _ PTE_U); [|done]. f_equal. apply Hout.
  destruct (uv_page _ _ _ Uv va Hva Hp) as (Hf & Hn & _).
  apply (pages_apart (frame (pm s) pgdir va)); [apply Hf|apply Hq|intros E; apply Hn; rewrite E; left|apply off_in_page].
Qed.
End take.

Lemma krep_fill s1 (L : list Z) q m' : krep s1 L -> page_ok q -> q ∉ L -> (forall a, ~ in_page q a -> m' a = pm s1 a) ->
  krep (set_pm m' s1) L.
Proof.
  intros Hk Hq HqL H. apply krep_set_pm; [done|]. intros w a Hw Ha. apply H.
  pose proof (kr_ok _ _ _ Hk) as Ho. rewrite Forall_forall in Ho.
  apply (pages_apart w); [by apply Ho|apply Hq|by intros ->|done].
Qed.

Lemma memset_out q m a : ~ in_page q a -> Kstring.memset q 0 PGSIZE m a = m a.
Proof. intros H. rewrite memset_fills by done. by rewrite decide_False. Qed.

(** [kalloc] and [memset] give a zeroed fresh page. *)
Lemma zeroed_page s q L pgdir (k : Z -> M kst Z) (Q : Z -> kst -> Prop) (k0 : M kst Z) : urep s (q :: L) pgdir ->
  (forall s1, urep s1 L pgdir -> fresh (pm s1) pgdir L q ->
     (forall va, 0 <= va < KERNBASE -> ubyte (pm s1) pgdir va = ubyte (pm s) pgdir va) ->
     (forall va, is_mapped (pm s1) pgdir va = is_mapped (pm s) pgdir va) ->
     (forall va, use (pm s1) pgdir va = use (pm s) pgdir va) ->
     (forall a, in_page q a -> pm s1 a = 0) -> wp (k q) s1 Q) ->
  wp (mem <- kalloc ;; if mem =? 0 then k0 else
      modify (fun s => set_pm (Kstring.memset mem 0 PGSIZE (pm s)) s) ;; k mem) s Q.
Proof.
  intros U Hk. pose proof U as [[Kr _] _]. eapply wp_seq; [by apply (kalloc_spec kend Hend)|].
  intros r s1 (Em & _ & -> & Kr1). destruct (tk_ok s q L pgdir U) as [Hq HqL].
  rewrite (proj2 (Z.eqb_neq q 0)) by apply (page_ok_u32 kend Hend q Hq). apply wp_bind, wp_modify.
  set (s2 := set_pm _ s1).
  assert (krep s2 L) as Kr2 by (apply (krep_fill s1 L q); [done|done|done|]; intros a; apply memset_out).
  assert (forall a, ~ in_page q a -> pm s2 a = pm s a) as Hout by (intros a Ha; cbn; rewrite memset_out by done; by rewrite Em).
  apply Hk.
  - by eapply tk_urep.
  - by eapply tk_fresh.
  - by eapply tk_ubyte.
  - intros va. by eapply tk_mapped.
  - intros va. unfold use. by destruct (tk_present s q L pgdir s2 U Hout (PDX va) (PDX_range va)) as [-> _].
  - intros a Ha. cbn. rewrite memset_fills by done. by rewrite decide_True.
Qed.

(** ** Growing a process *)

(** Pages that [allocuvm] takes for [k] pages from [a]: the pages and the
    missing tables. *)
Definition cost (m : mem) (pgdir a k : Z) : Z :=
  if k =? 0 then 0 else k + need m pgdir a (a + (k - 1) * 4096).

Lemma WU_flags : 0 <= Z.lor PTE_W PTE_U < 4096 /\ Z.testbit (Z.lor PTE_W PTE_U) 2 = true.
Proof. done. Qed.

Lemma cost_step m m1 m2 pgdir a k : 0 < k -> 0 <= a -> a mod 4096 = 0 -> a + k * 4096 <= KERNBASE ->
  use m1 pgdir a = use m pgdir a -> present m2 pgdir (PDX a) = true ->
  cost m2 pgdir (a + 4096) (k - 1) + 1 + Z.of_nat (use m pgdir a) <= cost m pgdir a k.
Proof.
  intros Hk H0 Ha Hm E1 Hp. unfold KERNBASE in Hm. unfold cost. rewrite (proj2 (Z.eqb_neq k 0)) by lia.
  destruct (Z.eqb_spec (k - 1) 0) as [Ek|Ek].
  - unfold need. replace (a + (k - 1) * 4096) with a by lia. lia.
  - replace (a + 4096 + (k - 1 - 1) * 4096) with (a + (k - 1) * 4096) by lia. unfold need.
    destruct (PDX_next a) as [E|E]; [unfold is_u32; lia|done|done| |].
    + unfold use at 1. rewrite E, Hp. lia.
    + pose proof (use_le m2 pgdir (a + 4096)). lia.
Qed.

Lemma allocuvm_loop_spec oldsz newsz pgdir : newsz < KERNBASE ->
  forall fuel s L a k, urep s L pgdir -> 0 <= a -> a mod 4096 = 0 -> 0 <= k -> k < Z.of_nat fuel ->
  a + (k - 1) * 4096 < newsz \/ k = 0 -> newsz <= a + k * 4096 -> a + k * 4096 <= KERNBASE ->
  (forall va, a <= va < a + k * 4096 -> is_mapped (pm s) pgdir va = false) ->
  cost (pm s) pgdir a k <= Z.of_nat (length L) ->
  wp (allocuvm_loop kend fuel pgdir a oldsz newsz) s (fun r s' => r = newsz /\ exists L', urep s' L' pgdir /\
    (forall va, 0 <= va < KERNBASE -> is_mapped (pm s') pgdir va = bool_decide (a <= va < a + k * 4096) || is_mapped (pm s) pgdir va) /\
    forall va, 0 <= va < KERNBASE -> ubyte (pm s') pgdir va =
      if decide (a <= va < a + k * 4096) then Some 0 else ubyte (pm s) pgdir va).
Proof.
  intros Hnew. induction fuel as [|fuel IH]; [lia|].
  intros s L a k U H0 Ha Hk Hf Hlast Htop Hmax Hfree Hc. cbn [allocuvm_loop].
  destruct (decide (k = 0)) as [->|Hk0].
  { rewrite (proj2 (Z.ltb_ge a newsz)) by lia. cbn [negb]. apply wp_ret. split; [done|]. exists L.
    split_and!; [done| |]; intros va Hva; [rewrite bool_decide_false by lia|rewrite decide_False by lia]; done. }
  rewrite (proj2 (Z.ltb_lt a newsz)) by lia. cbn [negb].
  assert (exists q L0, L = q :: L0) as (q & L0 & ->).
  { unfold cost, need in Hc. rewrite (proj2 (Z.eqb_neq k 0)) in Hc by lia.
    assert (PDX a <= PDX (a + (k - 1) * 4096)) by (rewrite !PDX_val by (unfold is_u32, KERNBASE in *; lia); apply Z.div_le_mono; lia).
    destruct L; [cbn in Hc; lia|eauto]. }
  apply (zeroed_page s q L0 pgdir (fun mem => mappages pgdir a PGSIZE (v2p mem) (Z.lor PTE_W PTE_U) ;;
    allocuvm_loop kend fuel pgdir (u32 (a + PGSIZE)) oldsz newsz)); [done|].
  intros s1 U1 Hfq Hub1 Hmp1 Huse1 Hz1. pose proof WU_flags as [Hfl Hfu].
  assert (use (pm s1) pgdir a <= length L0)%nat as Hul.
  { rewrite Huse1. unfold cost, need in Hc. rewrite (proj2 (Z.eqb_neq k 0)) in Hc by lia. cbn [length] in Hc.
    assert (PDX a <= PDX (a + (k - 1) * 4096)) by (rewrite !PDX_val by (unfold is_u32, KERNBASE in *; lia); apply Z.div_le_mono; lia). lia. }
  eapply wp_seq; [apply (map_user s1 L0 pgdir q a _ U1 Hfq); try done; try lia|].
  { rewrite Hmp1. apply Hfree. lia. }
  intros r s2 (L2 & -> & U2 & S2 & HL2 & _ & Hmp2 & _ & Hub2).
  change PGSIZE with 4096. rewrite u32_small by (unfold KERNBASE in *; lia).
  assert (forall va, 0 <= va < KERNBASE -> same_page a va <-> a <= va < a + 4096) as Hsp.
  { intros va Hva. apply same_page_iff; unfold is_u32, KERNBASE in *; (done || lia). }
  assert (present (pm s2) pgdir (PDX a) = true) as Hpr.
  { specialize (Hmp2 a ltac:(unfold KERNBASE in *; lia)). rewrite bool_decide_true in Hmp2 by done.
    unfold is_mapped, pteval in Hmp2. by destruct (present (pm s2) pgdir (PDX a)). }
  pose proof (cost_step (pm s) (pm s1) (pm s2) pgdir a k ltac:(lia) H0 Ha Hmax (Huse1 a) Hpr) as Hcs.
  eapply wp_conseq; [apply (IH s2 L2 (a + 4096) (k - 1) U2)|]; try lia.
  - rewrite <- Zplus_mod_idemp_l, Ha. done.
  - intros va Hva. rewrite Hmp2 by lia. rewrite bool_decide_false by (rewrite Hsp by lia; lia).
    rewrite Hmp1. apply Hfree. lia.
  - rewrite Huse1 in HL2. cbn [length] in Hc. lia.
  - intros r s3 (-> & L3 & U3 & Hmp3 & Hub3). split; [done|]. exists L3. split_and!; [done| |].
    + intros va Hva. rewrite Hmp3, Hmp2, Hmp1 by done.
      destruct (decide (same_page a va)) as [Hs|Hs]; [rewrite (bool_decide_true _ Hs)|rewrite (bool_decide_false _ Hs)];
        rewrite Hsp in Hs by done.
      * rewrite (bool_decide_true (a <= va < a + k * 4096)) by lia. by rewrite orb_true_r.
      * cbn [orb]. f_equal. apply bool_decide_ext. lia.
    + intros va Hva. rewrite Hub3, Hub2, Hub1 by done. destruct (decide (same_page a va)) as [Hs|Hs]; rewrite Hsp in Hs by done.
      * rewrite decide_False by lia. rewrite decide_True by lia. rewrite Hfu. by rewrite Hz1 by apply off_in_page.
      * destruct (decide (a + 4096 <= va < a + 4096 + (k - 1) * 4096)); [by rewrite decide_True by lia|by rewrite decide_False by lia].
Qed.

Definition pages_between (a b : Z) : Z := (b - a) / 4096.

Lemma PGROUNDUP_mono a b : 0 <= a <= b -> b + 4096 < 2 ^ 32 ->
  PGROUNDUP a <= PGROUNDUP b /\ PGROUNDUP b = PGROUNDUP a + pages_between (PGROUNDUP a) (PGROUNDUP b) * 4096 /\
  PGROUNDUP b < b + 4096.
Proof.
  intros Hab Hb. destruct (PGROUNDUP_up a) as (A1 & A2 & A3); [lia|lia|].
  destruct (PGROUNDUP_up b) as (B1 & B2 & B3); [lia|lia|].
  split_and!; [apply A3; [done|lia]| |].
  - unfold pages_between. apply Z.div_exact in A2, B2; [|done..].
    replace (PGROUNDUP b - PGROUNDUP a) with ((PGROUNDUP b / 4096 - PGROUNDUP a / 4096) * 4096) by lia.
    rewrite Z.div_mul by lia. lia.
  - rewrite PGROUNDUP_val, u32_small by lia. pose proof (Z.mod_pos_bound (b + 4095) 4096 ltac:(lia)). lia.
Qed.

(** C30: [allocuvm] to a larger size below KERNBASE, with the pages in between
    unmapped and enough free pages, returns the new size; the process then
    sees zeros in every new page, and every byte it saw before as before.  It
    refuses sizes that reach the kernel and leaves the size alone when it would
    shrink. *)
Theorem allocuvm_grows s L pgdir oldsz newsz (a := PGROUNDUP oldsz) (b := PGROUNDUP newsz) :
  urep s L pgdir -> 0 <= oldsz -> 0 <= newsz ->
  (KERNBASE <= newsz -> allocuvm kend pgdir oldsz newsz s = Ret 0 s) /\
  (newsz < KERNBASE -> newsz < oldsz -> allocuvm kend pgdir oldsz newsz s = Ret oldsz s) /\
  (newsz < KERNBASE -> oldsz <= newsz ->
   (forall va, a <= va < b -> is_mapped (pm s) pgdir va = false) ->
   cost (pm s) pgdir a (pages_between a b) <= Z.of_nat (length L) ->
   exists s' L', allocuvm kend pgdir oldsz newsz s = Ret newsz s' /\ urep s' L' pgdir /\
     forall va, 0 <= va < KERNBASE -> ubyte (pm s') pgdir va =
       if decide (a <= va < b) then Some 0 else ubyte (pm s) pgdir va).
Proof.
  intros U H0 H1. unfold allocuvm. split_and!.
  - intros Hk. by rewrite (proj2 (Z.leb_le _ _)).
  - intros Hk Hlt. rewrite (proj2 (Z.leb_gt _ _)) by done. by rewrite (proj2 (Z.ltb_lt _ _)).
  - intros Hk Hle Hfree Hc. rewrite (proj2 (Z.leb_gt _ _)) by done. rewrite (proj2 (Z.ltb_ge _ _)) by lia.
    destruct (PGROUNDUP_mono oldsz newsz) as (M1 & M2 & M3); [lia|unfold KERNBASE in *; lia|]. fold a b in M1, M2, M3.
    destruct (PGROUNDUP_up oldsz) as (A1 & A2 & _); [lia|unfold KERNBASE in *; lia|].
    destruct (PGROUNDUP_up newsz) as (B1 & B2 & B3); [lia|unfold KERNBASE in *; lia|]. fold a in A1, A2. fold b in B1, B2, B3.
    assert (b <= KERNBASE) as Hb by (apply B3; [done|lia]).
    set (k := pages_between a b) in *. assert (0 <= k) as Hk0 by lia.
    assert (k < Z.of_nat (S (Z.to_nat (newsz / PGSIZE + 1)))) as Hfuel.
    { rewrite PGSIZE_val. pose proof (Z.div_mod newsz 4096 ltac:(lia)). pose proof (Z.mod_pos_bound newsz 4096 ltac:(lia)). lia. }
    destruct (proj1 (wp_eq _ _ _) (allocuvm_loop_spec oldsz newsz pgdir Hk (S (Z.to_nat (newsz / PGSIZE + 1))) s L a k U
      ltac:(lia) A2 Hk0 Hfuel
      ltac:(lia) ltac:(lia) ltac:(lia) ltac:(intros va Hva; apply Hfree; lia) Hc)) as (r & s' & E & -> & L' & U' & _ & Hu).
    exists s', L'. split_and!; [done|done|]. intros va Hva. rewrite Hu by done. by rewrite <- M2.
Qed.
End uvm.
