(* ===== verification/Copyout.v ===== *)
(** Copying into user memory: [uva2ka] and [copyout] of vm.c. *)

From S2P Require Import Prelude Params CString Mmu Kalloc Vm VmSpec UvmSpec.

Lemma wr_bytes_spec l : forall a m b,
  wr_bytes a l m b = if decide (a <= b < a + Z.of_nat (length l)) then l !!! Z.to_nat (b - a) else m b.
Proof.
  induction l as [|x l IH]; intros a m b; cbn [wr_bytes length].
  { by rewrite decide_False by lia. }
  rewrite IH. destruct (decide (a + 1 <= b < a + 1 + Z.of_nat (length l))) as [H|H].
  - rewrite decide_True by lia. replace (Z.to_nat (b - a)) with (S (Z.to_nat (b - (a + 1)))) by lia. done.
  - destruct (decide (b = a)) as [->|].
    + rewrite wr_same, decide_True by lia. by rewrite Z.sub_diag.
    + rewrite wr_ne by done. by rewrite decide_False by lia.
Qed.

Section copyout.
Context (kend : Z) (Hend : KERNBASE < kend).
Notation page_ok := (page_ok kend).
Notation urep := (urep kend).

(** Writing inside the frame of one user page. *)
Section write.
Context (s : kst) (L : list Z) (pgdir va0 off : Z) (l : list Z).
Context (U : urep s L pgdir) (Hva0 : 0 <= va0 < KERNBASE) (Hal : va0 mod 4096 = 0).
Context (Hm : is_mapped (pm s) pgdir va0 = true) (Ho : 0 <= off) (Hl : off + Z.of_nat (length l) <= 4096).
Let m' := wr_bytes (frame (pm s) pgdir va0 + off) l (pm s).

Lemma wu_out a : ~ in_page (frame (pm s) pgdir va0) a -> m' a = pm s a.
Proof.
  intros Hn. unfold m'. rewrite wr_bytes_spec. rewrite decide_False; [done|]. intros Hb. apply Hn.
  unfold in_page. rewrite PGSIZE_val. lia.
Qed.

Lemma wu_tree a : in_tree (pm s) pgdir a -> m' a = pm s a.
Proof.
  intros Ha. apply wu_out. intros Hin. destruct U as [[_ Hpd] Uv].
  destruct (uv_page _ _ _ _ Uv va0 Hva0 Hm) as (Hq & _ & Hap).
  revert Ha. by eapply (apart_tree kend).
Qed.

Lemma wu_pteval va : pteval m' pgdir va = pteval (pm s) pgdir va.
Proof. apply pteval_ext, wu_tree. Qed.

Lemma wu_urep : urep (set_pm m' s) L pgdir.
Proof.
  destruct U as [[Hk Hpd] Uv]. destruct (uv_page _ _ _ _ Uv va0 Hva0 Hm) as (Hq & HnL & Hap).
  assert (forall a, in_page pgdir a -> m' a = pm s a) as Hd by (intros a Ha; apply wu_tree; by left).
  assert (forall i, 0 <= i < 1024 -> pde m' pgdir i = pde (pm s) pgdir i) as He by (intros; by apply pde_ext).
  split; [split|split]; cbn [pm set_pm].
  - apply krep_set_pm; [done|]. intros q a Hq' Ha. apply wu_out.
    pose proof (kr_ok _ _ _ Hk) as Hok. rewrite Forall_forall in Hok.
    apply (pages_apart q); [by apply Hok|apply Hq|by intros ->|done].
  - by apply (pd_ok_ext kend Hend (pm s) m' pgdir L L).
  - intros va Hva. unfold is_mapped, frame. rewrite wu_pteval. intros Hmv.
    destruct (uv_page _ _ _ _ Uv va Hva Hmv) as (? & ? & Hne & Ht). split_and!; [done|done|].
    split; [done|]. intros i Hi. unfold present, tab. rewrite He by done. by apply Ht.
  - intros va va' Hva Hva'. unfold is_mapped, frame. rewrite !wu_pteval. by apply (uv_inj _ _ _ _ Uv).
Qed.

Lemma wu_ubyte va : 0 <= va < KERNBASE -> ubyte m' pgdir va =
  if decide (va0 + off <= va < va0 + off + Z.of_nat (length l))
  then (fun _ => l !!! Z.to_nat (va - (va0 + off))) <$> ubyte (pm s) pgdir va
  else ubyte (pm s) pgdir va.
Proof.
  intros Hva. unfold ubyte, frame. rewrite wu_pteval.
  destruct (testf _ PTE_P) eqn:HP; [|by destruct (decide _)]. cbn [andb].
  destruct (testf _ PTE_U); [|by destruct (decide _)]. fold (frame (pm s) pgdir va).
  destruct U as [_ Uv]. unfold KERNBASE in *.
  destruct (decide (same_page va0 va)) as [Hs|Hs].
  - assert (frame (pm s) pgdir va = frame (pm s) pgdir va0) as Ef.
    { unfold frame, pteval, slot. destruct Hs as [-> ->]. done. }
    rewrite same_page_iff in Hs by (done || unfold is_u32; lia).
    assert (va mod 4096 = va - va0) as ->.
    { symmetry. apply Z.div_exact in Hal; [|done]. apply (Z.mod_unique va 4096 (va0 / 4096)); lia. }
    unfold m'. rewrite wr_bytes_spec, Ef.
    destruct (decide (va0 + off <= va < va0 + off + Z.of_nat (length l))).
    + rewrite decide_True by lia. cbn. do 2 f_equal. lia.
    + by rewrite decide_False by lia.
  - rewrite same_page_iff in Hs by (done || unfold is_u32; lia). rewrite decide_False by lia. f_equal. apply wu_out.
    destruct (uv_page _ _ _ _ Uv va Hva HP) as (Hq & _). destruct (uv_page _ _ _ _ Uv va0 Hva0 Hm) as (Hq0 & _).
    apply (pages_apart (frame (pm s) pgdir va)); [apply Hq|apply Hq0| |apply off_in_page].
    intros E. apply (uv_inj _ _ _ _ Uv) in E; [|done..]. destruct E as [E1 E2].
    apply Hs. apply same_page_iff; try done; unfold is_u32; lia.
Qed.
End write.

(** ** The copy loop *)

Lemma uva2ka_user s L pgdir va : urep s L pgdir -> 0 <= va < KERNBASE -> ubyte (pm s) pgdir va <> None ->
  uva2ka pgdir va s = Ret (frame (pm s) pgdir va) s /\ frame (pm s) pgdir va <> 0 /\ is_mapped (pm s) pgdir va = true.
Proof.
  intros [V Uv] Hva Hu. unfold ubyte in Hu.
  destruct (testf (pteval (pm s) pgdir va) PTE_P) eqn:HP; [|done].
  destruct (testf (pteval (pm s) pgdir va) PTE_U) eqn:HU; [|done].
  destruct (uv_page _ _ _ _ Uv va Hva HP) as ((_ & He & _) & _).
  assert (present (pm s) pgdir (PDX va) = true) as Hpr.
  { unfold pteval in HP. by destruct (present _ _ _). }
  split_and!; [|unfold KERNBASE in *; lia|done].
  unfold uva2ka. unfold bind at 1. rewrite walk_lookup, Hpr.
  rewrite (proj2 (Z.eqb_neq _ 0)) by (by eapply (slot_nonzero kend Hend)).
  unfold bind, ld, gets. unfold frame. unfold pteval in *. rewrite Hpr in *. by rewrite HP, HU.
Qed.

Lemma ubyte_same_page m pgdir va va' : same_page va va' -> ubyte m pgdir va <> None -> ubyte m pgdir va' <> None.
Proof.
  intros [E1 E2]. unfold ubyte, frame, pteval, slot. rewrite E1, E2. by destruct (_ && _).
Qed.

Lemma copyout_loop_spec pgdir : forall fuel s L va buf, urep s L pgdir -> (length buf < fuel)%nat ->
  0 <= va -> va + Z.of_nat (length buf) <= KERNBASE ->
  (forall va', va <= va' < va + Z.of_nat (length buf) -> ubyte (pm s) pgdir va' <> None) ->
  wp (copyout_loop fuel pgdir va buf) s (fun r s' => r = 0 /\ urep s' L pgdir /\
    forall va', 0 <= va' < KERNBASE -> ubyte (pm s') pgdir va' =
      if decide (va <= va' < va + Z.of_nat (length buf)) then Some (buf !!! Z.to_nat (va' - va))
      else ubyte (pm s) pgdir va').
Proof.
  induction fuel as [|fuel IH]; [lia|]. intros s L va buf U Hf H0 Hmax Hok. cbn [copyout_loop].
  destruct (decide (buf = [])) as [->|Hne].
  { cbn. apply wp_ret. split_and!; [done|done|]. intros va' _. by rewrite decide_False by lia. }
  assert (0 < Z.of_nat (length buf)) as Hpos by (destruct buf; [done|cbn; lia]).
  rewrite (proj2 (Z.ltb_lt _ _)) by done. cbn [negb].
  assert (is_u32 va) as Hu by (unfold is_u32, KERNBASE in *; lia).
  rewrite PGROUNDDOWN_val, (u32_small va) by done. set (off := va mod 4096). set (va0 := va - off).
  assert (0 <= off < 4096) as Hoff by (unfold off; apply Z.mod_pos_bound; lia).
  assert (va0 mod 4096 = 0) as Hal by (unfold va0, off; rewrite Zminus_mod_idemp_r, Z.sub_diag; done).
  assert (0 <= va0) as Hv0 by (unfold va0, off; pose proof (Z.mod_le va 4096); lia).
  assert (va0 < KERNBASE) as Hvk by lia.
  assert (va0 + 4096 <= KERNBASE) as Hvk'.
  { pose proof Hal as Hd. apply Z.div_exact in Hd; [|done]. unfold KERNBASE in *. lia. }
  assert (va - va0 = off) as Eo by (unfold va0; lia).
  assert (same_page va0 va) as Hsp by (apply same_page_iff; unfold is_u32, KERNBASE in *; lia).
  assert (same_page va va0) as Hsp' by (destruct Hsp; by split).
  destruct (uva2ka_user s L pgdir va0 U ltac:(lia)) as (E1 & E2 & E3).
  { apply (ubyte_same_page _ _ va); [done|]. apply Hok. lia. }
  eapply wp_bind_eq; [exact E1|].
  rewrite (proj2 (Z.eqb_neq _ 0)) by done. rewrite Eo. change PGSIZE with 4096.
  rewrite (u32_small off), (u32_small (4096 - off)) by lia.
  set (n := if Z.of_nat (length buf) <? 4096 - off then Z.of_nat (length buf) else 4096 - off).
  assert (0 < n <= Z.of_nat (length buf) /\ off + n <= 4096 /\ (n = Z.of_nat (length buf) \/ off + n = 4096)) as (Hn & Hn' & Hn'').
  { unfold n. destruct (Z.ltb_spec (Z.of_nat (length buf)) (4096 - off)); lia. }
  apply wp_bind, wp_modify.
  assert (length (take (Z.to_nat n) buf) = Z.to_nat n) as Hlt by (rewrite length_take; lia).
  set (s2 := set_pm _ s).
  assert (urep s2 L pgdir) as U2 by (apply wu_urep; try done; lia).
  assert (forall va', 0 <= va' < KERNBASE -> ubyte (pm s2) pgdir va' =
    if decide (va <= va' < va + n) then (fun _ => buf !!! Z.to_nat (va' - va)) <$> ubyte (pm s) pgdir va'
    else ubyte (pm s) pgdir va') as Hub.
  { intros va' Hva'. cbn [s2 pm set_pm]. rewrite (wu_ubyte s L pgdir va0 off _ U) by (done || lia).
    rewrite Hlt. replace (va0 + off) with va by lia. rewrite Z2Nat.id by lia.
    destruct (decide (va <= va' < va + n)); [|done]. do 2 f_equal.
    by rewrite list_lookup_total_alt, lookup_take_lt, <- list_lookup_total_alt by lia. }
  assert (Z.of_nat (length (drop (Z.to_nat n) buf)) = Z.of_nat (length buf) - n) as Hld by (rewrite length_drop; lia).
  assert (u32 (va0 + 4096) = va0 + 4096) as -> by (apply u32_small; unfold KERNBASE in *; lia).
  eapply wp_conseq; [apply (IH s2 L (va0 + 4096) (drop (Z.to_nat n) buf) U2)|]; try lia.
  - intros va' Hva'. rewrite Hld in Hva'. rewrite Hub by lia.
    assert (ubyte (pm s) pgdir va' <> None) as Hnn by (apply Hok; lia).
    destruct (decide _); [|done]. by destruct (ubyte (pm s) pgdir va').
  - intros r s3 (-> & U3 & Hub3). split_and!; [done|done|]. intros va' Hva'. rewrite Hub3 by done. rewrite Hld.
    destruct (decide (va0 + 4096 <= va' < va0 + 4096 + (Z.of_nat (length buf) - n))) as [Hb|Hb].
    + rewrite decide_True by lia. f_equal. rewrite !list_lookup_total_alt, lookup_drop. do 2 f_equal. lia.
    + rewrite Hub by done. destruct (decide (va <= va' < va + n)) as [Hc|Hc].
      * rewrite decide_True by lia. specialize (Hok va' ltac:(lia)). by destruct (ubyte (pm s) pgdir va').
      * by rewrite decide_False by lia.
Qed.

(** C20: [copyout] to a range of user-accessible pages returns 0 and changes
    exactly the bytes of the range that the process sees, to the given bytes.
    An address in a page that is mapped but not for user code ends the copy
    with -1.  (An address without a page table is not caught: [uva2ka] reads
    through the null pointer [walkpgdir] returns.) *)
Theorem copyout_writes s L pgdir va buf :
  urep s L pgdir -> 0 <= va -> va + Z.of_nat (length buf) <= KERNBASE ->
  ((forall va', va <= va' < va + Z.of_nat (length buf) -> ubyte (pm s) pgdir va' <> None) ->
   exists s', copyout pgdir va buf s = Ret 0 s' /\ urep s' L pgdir /\
     forall va', 0 <= va' < KERNBASE -> ubyte (pm s') pgdir va' =
       if decide (va <= va' < va + Z.of_nat (length buf)) then Some (buf !!! Z.to_nat (va' - va))
       else ubyte (pm s) pgdir va') /\
  (buf <> [] -> present (pm s) pgdir (PDX va) = true -> ubyte (pm s) pgdir va = None ->
   copyout pgdir va buf s = Ret (-1) s) /\
  (buf <> [] -> present (pm s) pgdir (PDX va) = false ->
   copyout pgdir va buf s = Fault "uva2ka: null pte" s).
Proof.
  intros U H0 Hmax.
  assert (buf <> [] -> same_page (PGROUNDDOWN va) va) as Hsp.
  { intros Hne. assert (0 < Z.of_nat (length buf)) by (destruct buf; [done|cbn; lia]).
    rewrite PGROUNDDOWN_val, u32_small by (unfold KERNBASE in *; lia).
    pose proof (Z.mod_pos_bound va 4096 ltac:(lia)). pose proof (Z.mod_le va 4096 ltac:(lia) ltac:(lia)).
    apply same_page_iff; unfold is_u32, KERNBASE in *; try lia.
    by rewrite Zminus_mod_idemp_r, Z.sub_diag. }
  split_and!.
  - intros Hok. destruct (proj1 (wp_eq _ _ _) (copyout_loop_spec pgdir (S (length buf)) s L va buf U ltac:(lia) H0 Hmax Hok))
      as (r & s' & E & -> & U' & Hub). eauto.
  - intros Hne Hp Hu. unfold copyout. cbn [copyout_loop].
    rewrite (proj2 (Z.ltb_lt _ _)) by (destruct buf; [done|cbn; lia]). cbn [negb].
    destruct (Hsp Hne) as [Ed Et]. unfold bind at 1, uva2ka, bind. rewrite walk_lookup, Ed, Hp.
    rewrite (proj2 (Z.eqb_neq _ 0)).
    2:{ unfold slot. rewrite Ed, Et. apply (slot_nonzero kend Hend s L); [apply U|done]. }
    unfold ld, gets. unfold ubyte, pteval in Hu. rewrite Hp in Hu. unfold slot in *. rewrite Ed, Et.
    by destruct (testf _ PTE_P), (testf _ PTE_U).
  - intros Hne Hp. unfold copyout. cbn [copyout_loop].
    rewrite (proj2 (Z.ltb_lt _ _)) by (destruct buf; [done|cbn; lia]). cbn [negb].
    destruct (Hsp Hne) as [Ed Et]. unfold bind at 1, uva2ka, bind. by rewrite walk_lookup, Ed, Hp.
Qed.
End copyout.
