(* ===== verification/Copyuvm.v ===== *)
(** Building address spaces: [setupkvm] and [copyuvm] of vm.c. *)

From S2P Require Import Prelude Params CString Mmu Kalloc Vm VmSpec UvmSpec.

Section kvm.
Context (kend kdata : Z) (Hend : KERNBASE < kend).
(** kernel.ld: the data segment starts on a page boundary inside the image. *)
Context (Hd1 : KERNLINK < kdata) (Hd2 : kdata mod 4096 = 0) (Hd3 : kdata < KERNBASE + PHYSTOP).
Notation krep := (krep kend).
Notation page_ok := (page_ok kend).
Notation vrep := (vrep kend).
Notation urep := (urep kend).

(** Addresses in the pages of a list. *)
Definition in_pages (L : list Z) (a : Z) : Prop := exists q, q ∈ L /\ in_page q a.

(** The entry of a kernel address in every page table. *)
Definition kpte (va : Z) : Z :=
  let pg x := x - x mod 4096 in
  if decide (KERNBASE <= va < KERNLINK) then Z.lor (Z.lor (pg (va - KERNBASE)) PTE_W) PTE_P
  else if decide (KERNLINK <= va < kdata) then Z.lor (Z.lor (pg (va - KERNBASE)) 0) PTE_P
  else if decide (kdata <= va < KERNBASE + PHYSTOP) then Z.lor (Z.lor (pg (va - KERNBASE)) PTE_W) PTE_P
  else if decide (DEVSPACE <= va) then Z.lor (Z.lor (pg va) PTE_W) PTE_P
  else 0.

Lemma kpte_low va : va < KERNBASE -> kpte va = 0.
Proof.
  intros H. unfold kpte. unfold KERNLINK, DEVSPACE, KERNBASE, EXTMEM in *.
  by rewrite !decide_False by lia.
Qed.

Lemma map_region d s L virt size pa perm : vrep s L d -> virt mod 4096 = 0 -> size mod 4096 = 0 -> pa mod 4096 = 0 ->
  0 <= virt -> 0 < size -> virt + size <= 2 ^ 32 -> 0 <= pa -> pa + size <= 2 ^ 32 -> 0 <= perm < 4096 ->
  (forall va, virt <= va < virt + size -> pteval (pm s) d va = 0) ->
  (Z.to_nat (size / 2 ^ 22 + 2) <= length L)%nat ->
  wp (mappages d virt size pa perm) s (fun r s' => exists L', r = 0 /\ vrep s' L' d /\
    vm_step d (pm s) L (pm s') L' /\ (length L - Z.to_nat (size / 2 ^ 22 + 2) <= length L')%nat /\
    forall va, is_u32 va -> pteval (pm s') d va =
      if decide (virt <= va < virt + size) then Z.lor (Z.lor (pa + (va - virt) / 4096 * 4096) perm) PTE_P
      else pteval (pm s) d va).
Proof.
  intros V Hv Hs Hp H0 H1 H2 H3 H4 Hperm Hfree HL.
  assert (is_u32 virt) as Hu by (unfold is_u32; lia).
  assert (PGROUNDDOWN virt = virt) as Ea by (by apply PGROUNDDOWN_aligned).
  assert (4096 <= size) as Hs4 by (apply Z.div_exact in Hs; [|done]; lia).
  assert ((virt + size - 4096) mod 4096 = 0) as Hal.
  { rewrite Zminus_mod, <- Zplus_mod_idemp_l, Hv, Z.add_0_l, Hs. done. }
  assert (PGROUNDDOWN (virt + size - 1) = virt + size - 4096) as El.
  { replace (virt + size - 1) with (virt + size - 4096 + 4096 - 1) by lia. apply PGROUNDDOWN_end; [lia|lia|done]. }
  assert (need (pm s) d virt (virt + size - 4096) <= size / 2 ^ 22 + 2) as Hn.
  { unfold need. rewrite !PDX_val by (unfold is_u32; lia). pose proof (use_le (pm s) d virt).
    assert ((virt + size - 4096) / 2 ^ 22 <= virt / 2 ^ 22 + size / 2 ^ 22 + 1); [|lia].
    pose proof (Z.div_mod virt (2 ^ 22) ltac:(lia)). pose proof (Z.div_mod size (2 ^ 22) ltac:(lia)).
    pose proof (Z.mod_pos_bound virt (2 ^ 22) ltac:(lia)). pose proof (Z.mod_pos_bound size (2 ^ 22) ltac:(lia)).
    assert ((virt + size - 4096) / 2 ^ 22 < virt / 2 ^ 22 + size / 2 ^ 22 + 2); [|lia].
    apply Z.div_lt_upper_bound; lia. }
  pose proof (Z.div_pos size (2 ^ 22) ltac:(lia) ltac:(lia)).
  eapply wp_conseq; [apply (mappages_spec kend Hend s L d virt size pa perm V); rewrite ?Ea, ?El; try done; try lia|].
  - intros va Hva. rewrite Hfree by lia. done.
  - intros r s' (L' & -> & V' & S' & HL' & Hpt). rewrite Ea, El in HL', Hpt. exists L'.
    split_and!; [done|done|done|lia|]. intros va Hva. rewrite Hpt by done.
    by replace (virt + size - 4096 + 4096) with (virt + size) by lia.
Qed.

Lemma sub_mod x y : y mod 4096 = 0 -> (x - y) mod 4096 = x mod 4096.
Proof. intros H. by rewrite Zminus_mod, H, Z.sub_0_r, Z.mod_mod by lia. Qed.

(** A zeroed directory. *)
Lemma empty_dir s q L : page_ok q -> q ∉ L -> krep s L -> (forall a, in_page q a -> pm s a = 0) ->
  vrep s L q /\ (forall va, pteval (pm s) q va = 0) /\ (forall a, in_tree (pm s) q a -> in_page q a).
Proof.
  intros Hq HqL Hk Hz.
  assert (forall i, 0 <= i < 1024 -> present (pm s) q i = false) as Hp.
  { intros i Hi. unfold present, pde. rewrite ld_zero; [done|]. intros b Hb. apply Hz. by apply (word_in_page q i). }
  split_and!.
  - split; [done|]. split; [done|done| |].
    + intros i Hi Hpi. by rewrite Hp in Hpi.
    + intros i j Hi _ Hpi. by rewrite Hp in Hpi.
  - intros va. unfold pteval. by rewrite Hp by apply PDX_range.
  - intros a [Ha|(i & Hi & Hpi & _)]; [done|]. by rewrite Hp in Hpi.
Qed.

Lemma kmap_sizes : u32 (EXTMEM - 0) = EXTMEM /\ v2p KERNLINK = EXTMEM /\
  v2p kdata = kdata - KERNBASE /\ u32 (v2p kdata - v2p KERNLINK) = kdata - KERNLINK /\
  u32 (PHYSTOP - v2p kdata) = KERNBASE + PHYSTOP - kdata /\ u32 (0 - DEVSPACE) = 2 ^ 32 - DEVSPACE.
Proof.
  assert (v2p kdata = kdata - KERNBASE) as E.
  { apply u32_small. unfold KERNLINK, EXTMEM, KERNBASE, PHYSTOP in *. lia. }
  rewrite E. split_and!; [done|done|done| | |done].
  - change (v2p KERNLINK) with EXTMEM. rewrite u32_small; unfold KERNLINK, EXTMEM, KERNBASE, PHYSTOP in *; lia.
  - rewrite u32_small; unfold KERNLINK, EXTMEM, KERNBASE, PHYSTOP in *; lia.
Qed.

(** Pages for a directory and the tables of the kernel part. *)
Definition KVMPAGES : nat := 72.

Definition kcost (size : Z) : nat := Z.to_nat (size / 2 ^ 22 + 2).

Lemma kmap_round d s L virt ps pe perm size rest (Q : option Z -> kst -> Prop) : vrep s L d ->
  u32 (pe - ps) = size -> virt mod 4096 = 0 -> size mod 4096 = 0 -> ps mod 4096 = 0 ->
  0 <= virt -> 0 < size -> virt + size <= 2 ^ 32 -> 0 <= ps -> ps + size <= 2 ^ 32 -> 0 <= perm < 4096 ->
  (forall va, virt <= va < virt + size -> pteval (pm s) d va = 0) -> (kcost size <= length L)%nat ->
  (forall s' L', vrep s' L' d -> vm_step d (pm s) L (pm s') L' -> (length L - kcost size <= length L')%nat ->
     (forall va, is_u32 va -> pteval (pm s') d va =
        if decide (virt <= va < virt + size) then Z.lor (Z.lor (ps + (va - virt - va mod 4096)) perm) PTE_P
        else pteval (pm s) d va) ->
     wp (for_find rest (setupkvm_one d)) s' Q) ->
  wp (for_find ((virt, ps, pe, perm) :: rest) (setupkvm_one d)) s Q.
Proof.
  intros V Es Hv Hs Hp H0 H1 H2 H3 H4 Hperm Hfree HL Hk. cbn [for_find]. unfold setupkvm_one at 1. rewrite Es.
  apply wp_bind. eapply wp_seq; [by apply (map_region d s L virt size ps perm)|].
  intros r s' (L' & -> & V' & S' & HL' & Hpt). apply wp_ret. cbv beta iota. apply (Hk s' L'); try done.
  intros va Hva. rewrite Hpt by done. destruct (decide _); [|done]. do 3 f_equal.
  rewrite <- (sub_mod va virt) by done. pose proof (Z.div_mod (va - virt) 4096 ltac:(lia)). lia.
Qed.

Ltac kunf := unfold KERNLINK, DEVSPACE, EXTMEM, KERNBASE, PHYSTOP, PTE_W in *.

Lemma kregions_ok m0 m1 m2 m3 m4 d :
  (forall va, pteval m0 d va = 0) ->
  (forall va, is_u32 va -> pteval m1 d va = if decide (KERNBASE <= va < KERNBASE + EXTMEM)
     then Z.lor (Z.lor (0 + (va - KERNBASE - va mod 4096)) PTE_W) PTE_P else pteval m0 d va) ->
  (forall va, is_u32 va -> pteval m2 d va = if decide (KERNLINK <= va < KERNLINK + (kdata - KERNLINK))
     then Z.lor (Z.lor (EXTMEM + (va - KERNLINK - va mod 4096)) 0) PTE_P else pteval m1 d va) ->
  (forall va, is_u32 va -> pteval m3 d va = if decide (kdata <= va < kdata + (KERNBASE + PHYSTOP - kdata))
     then Z.lor (Z.lor (kdata - KERNBASE + (va - kdata - va mod 4096)) PTE_W) PTE_P else pteval m2 d va) ->
  (forall va, is_u32 va -> pteval m4 d va = if decide (DEVSPACE <= va < DEVSPACE + (2 ^ 32 - DEVSPACE))
     then Z.lor (Z.lor (DEVSPACE + (va - DEVSPACE - va mod 4096)) PTE_W) PTE_P else pteval m3 d va) ->
  forall va, is_u32 va -> pteval m4 d va = kpte va.
Proof.
  intros E0 E1 E2 E3 E4 va Hva. rewrite E4, E3, E2, E1, E0 by done. unfold kpte.
  assert ((va - KERNBASE) mod 4096 = va mod 4096) as -> by (by apply sub_mod).
  unfold is_u32 in Hva. kunf. repeat case_decide; try lia; try done; do 2 f_equal; lia.
Qed.

Lemma kcost_sum : (kcost EXTMEM + kcost (kdata - KERNLINK) + kcost (KERNBASE + PHYSTOP - kdata) +
  kcost (2 ^ 32 - DEVSPACE) <= 71)%nat.
Proof.
  unfold kcost. kunf. set (x := kdata - _). set (y := 0x80000000 + _ - kdata).
  assert (0 <= x / 2 ^ 22 /\ 0 <= y / 2 ^ 22 /\ x / 2 ^ 22 + y / 2 ^ 22 <= 55) as (? & ? & ?).
  { pose proof (Z.div_mod x (2 ^ 22) ltac:(lia)). pose proof (Z.mod_pos_bound x (2 ^ 22) ltac:(lia)).
    pose proof (Z.div_mod y (2 ^ 22) ltac:(lia)). pose proof (Z.mod_pos_bound y (2 ^ 22) ltac:(lia)).
    assert (x + y = 233832448) by (unfold x, y; lia).
    split_and!; [apply Z.div_pos; unfold x; lia|apply Z.div_pos; unfold y; lia|lia]. }
  change (0x100000 / 2 ^ 22) with 0. change ((2 ^ 32 - 0xFE000000) / 2 ^ 22) with 8. lia.
Qed.

Lemma setupkvm_spec s L : krep s L -> (KVMPAGES <= length L)%nat ->
  wp (setupkvm kdata) s (fun d s' => exists L', d ∈ L /\ d <> 0 /\ vrep s' L' d /\
    (length L - KVMPAGES <= length L')%nat /\ (exists k, L' = drop k L) /\
    (forall a, in_tree (pm s') d a -> in_pages L a) /\
    (forall a, ~ in_pages L a -> pm s' a = pm s a) /\
    forall va, is_u32 va -> pteval (pm s') d va = kpte va).
Proof.
  intros Hk HL. unfold KVMPAGES in *. destruct L as [|q L]; [cbn in HL; lia|]. unfold setupkvm.
  eapply wp_seq; [by apply (kalloc_spec kend Hend)|]. intros r s1 (Em & _ & -> & Hk1).
  pose proof (kr_ok _ _ _ Hk) as Ho. pose proof (kr_nodup _ _ _ Hk) as Hn. inversion Ho as [|? ? Hq Ho']; inversion Hn; subst.
  destruct (page_ok_u32 kend Hend q Hq) as [_ Hq0]. rewrite (proj2 (Z.eqb_neq q 0)) by done. apply wp_bind, wp_modify.
  change (DEVSPACE <? p2v PHYSTOP) with false. cbv iota.
  set (s2 := set_pm (Kstring.memset q 0 PGSIZE (pm s1)) s1).
  assert (forall a, ~ in_page q a -> pm s2 a = pm s a) as Hout
    by (intros a Ha; cbn; rewrite memset_out by done; by rewrite Em).
  assert (krep s2 L) as Hk2 by (apply (krep_fill kend s1 L q); try done; intros a; apply memset_out).
  destruct (empty_dir s2 q L Hq ltac:(done) Hk2) as (V0 & E0 & T0).
  { intros a Ha. cbn. rewrite memset_fills by done. by rewrite decide_True. }
  cbn [length] in HL. pose proof kcost_sum as Hc. destruct kmap_sizes as (Z1 & Z2 & Z3 & Z4 & Z5 & Z6).
  assert (wp (for_find (kmap kdata) (setupkvm_one q)) s2 (fun r s' => r = None /\ exists L', vrep s' L' q /\
    vm_step q (pm s2) L (pm s') L' /\ (length L - 71 <= length L')%nat /\
    forall va, is_u32 va -> pteval (pm s') q va = kpte va)) as Hw.
  { unfold kmap.
    apply (kmap_round q s2 L _ _ _ _ EXTMEM); try done; try lia. intros s3 L3 V3 S3 N3 E3.
    apply (kmap_round q s3 L3 _ _ _ _ (kdata - KERNLINK)); try done; try (kunf; lia); try lia; try (rewrite Z2; kunf; lia).
    { rewrite Zminus_mod, Hd2. done. }
    { intros va Hva. rewrite E3, E0 by (unfold is_u32; kunf; lia). rewrite decide_False by (kunf; lia). done. }
    rewrite Z2. intros s4 L4 V4 S4 N4 E4.
    apply (kmap_round q s4 L4 _ _ _ _ (KERNBASE + PHYSTOP - kdata)); try done; try (kunf; lia); try lia; try (rewrite Z3; kunf; lia).
    { rewrite Zminus_mod, Hd2. done. }
    { rewrite Z3, Zminus_mod, Hd2. done. }
    { intros va Hva. rewrite E4, E3, E0 by (unfold is_u32; kunf; lia). rewrite !decide_False by (kunf; lia). done. }
    rewrite Z3. intros s5 L5 V5 S5 N5 E5.
    apply (kmap_round q s5 L5 _ _ _ _ (2 ^ 32 - DEVSPACE)); try done; try (kunf; lia); try lia.
    { intros va Hva. rewrite E5, E4, E3, E0 by (unfold is_u32; kunf; lia). rewrite !decide_False by (kunf; lia). done. }
    intros s6 L6 V6 S6 N6 E6. apply wp_ret. split; [done|]. exists L6. split_and!; [done| |lia|].
    - do 3 (eapply vm_step_trans; [eassumption|]). done.
    - by apply (kregions_ok (pm s2) (pm s3) (pm s4) (pm s5)). }
  eapply wp_seq; [exact Hw|]. intros r s' (-> & L' & V' & S' & N' & E'). apply wp_ret.
  exists L'. split_and!; [left|done|done|cbn [length]; lia| | | |done].
  - destruct (vs_sub _ _ _ _ _ S') as [k ->]. by exists (S k).
  - intros a [Ha%T0|(w & Hw' & Ha)]%(vs_tree _ _ _ _ _ S'); [exists q; split; [left|done]|exists w; split; [by right|done]].
  - intros a Ha. rewrite (vs_frame _ _ _ _ _ S').
    + apply Hout. intros Hin. apply Ha. exists q. split; [left|done].
    + intros Hin%T0. apply Ha. exists q. split; [left|done].
    + intros w Hw' Hin. apply Ha. exists w. split; [by right|done].
Qed.

Lemma kpte_flags va : exists x f, kpte va = x + f /\ x mod 4096 = 0 /\ (f = 0 \/ f = 1 \/ f = 3) /\ 0 <= f < 4096.
Proof.
  assert (forall y f, Z.lor (Z.lor (y - y mod 4096) f) PTE_P = (y - y mod 4096) + Z.lor f PTE_P \/ ~ 0 <= Z.lor f PTE_P < 4096) as Hl.
  { intros y f. destruct (decide (0 <= Z.lor f PTE_P < 4096)); [left|by right]. rewrite <- Z.lor_assoc. apply lor_aligned; [|done].
    by rewrite Zminus_mod_idemp_r, Z.sub_diag. }
  assert (forall y, (y - y mod 4096) mod 4096 = 0) as Hm by (intros y; by rewrite Zminus_mod_idemp_r, Z.sub_diag).
  unfold kpte. repeat case_decide.
  - destruct (Hl (va - KERNBASE) PTE_W) as [->|[]]; [|done]. exists (va - KERNBASE - (va - KERNBASE) mod 4096), 3. eauto 10 with lia.
  - destruct (Hl (va - KERNBASE) 0) as [->|[]]; [|done]. exists (va - KERNBASE - (va - KERNBASE) mod 4096), 1. eauto 10 with lia.
  - destruct (Hl (va - KERNBASE) PTE_W) as [->|[]]; [|done]. exists (va - KERNBASE - (va - KERNBASE) mod 4096), 3. eauto 10 with lia.
  - destruct (Hl va PTE_W) as [->|[]]; [|done]. exists (va - va mod 4096), 3. eauto 10 with lia.
  - exists 0, 0. split_and!; auto with lia.
Qed.

(** [setupkvm], with enough free pages, returns a directory whose
    translation is exactly the kernel map: I/O space and kernel data writable,
    kernel text read-only, devices mapped to themselves, no entry for a user
    address and no entry that user code may use. *)
Theorem setupkvm_maps s L :
  krep s L -> (KVMPAGES <= length L)%nat ->
  exists d s' L', setupkvm kdata s = Ret d s' /\ vrep s' L' d /\
    (forall va, is_u32 va -> pteval (pm s') d va = kpte va) /\
    (forall va, is_u32 va -> testf (pteval (pm s') d va) PTE_U = false) /\
    (forall va, va < KERNBASE -> is_u32 va -> pteval (pm s') d va = 0).
Proof.
  intros Hk HL. destruct (proj1 (wp_eq _ _ _) (setupkvm_spec s L Hk HL)) as (d & s' & E & L' & _ & _ & V & _ & _ & _ & _ & P).
  exists d, s', L'. split_and!; [done|done|done| |].
  - intros va Hva. rewrite P by done. destruct (kpte_flags va) as (x & f & -> & Hx & Hf & Hf').
    change PTE_U with (2 ^ 2). rewrite testf_pow2 by lia. rewrite <- lor_aligned by done. rewrite Z.lor_spec.
    rewrite <- (Z.mod_pow2_bits_low x 12 2) by lia. change (2 ^ 12) with 4096. rewrite Hx, Z.bits_0.
    by destruct Hf as [-> | [-> | ->]].
  - intros va Hl Hva. rewrite P by done. by apply kpte_low.
Qed.

(** ** Copying an address space *)

Lemma flags_of x : 0 <= PTE_FLAGS x < 4096 /\ Z.testbit (PTE_FLAGS x) 2 = testf x PTE_U.
Proof.
  rewrite PTE_FLAGS_val. split; [apply Z.mod_pos_bound; lia|]. change PTE_U with (2 ^ 2). rewrite testf_pow2 by lia.
  change 4096 with (2 ^ 12). rewrite Z.mod_pow2_bits_low by lia. unfold u32. by rewrite Z.mod_pow2_bits_low by lia.
Qed.

Section copy.
(** The parent, in the state the copy starts from. *)
Context (s0 : kst) (L0 : list Z) (pgdir : Z) (U0 : urep s0 L0 pgdir).
Notation m0 := (pm s0).

Lemma pages_ok q : q ∈ L0 -> page_ok q.
Proof. destruct U0 as [[[_ _ _ Ho] _] _]. rewrite Forall_forall in Ho. apply Ho. Qed.

Lemma parent_tree a : in_tree m0 pgdir a -> ~ in_pages L0 a.
Proof.
  intros Ht (q & Hq & Ha). pose proof (pages_ok q Hq) as Hok. destruct U0 as [[_ Hpd] _].
  revert Ht. eapply (apart_tree kend); try done. split.
  - intros ->. by apply (pd_used _ _ _ _ Hpd).
  - intros i Hi Hp ->. by destruct (pd_tab _ _ _ _ Hpd i Hi Hp) as (_ & ? & _).
Qed.

Lemma parent_frame va a : 0 <= va < KERNBASE -> is_mapped m0 pgdir va = true -> in_page (frame m0 pgdir va) a ->
  ~ in_pages L0 a.
Proof.
  intros Hva Hm Ha (q & Hq & Hqa). pose proof (pages_ok q Hq) as Hok. destruct U0 as [_ Uv].
  destruct (uv_page _ _ _ _ Uv va Hva Hm) as (Hf & Hn & _).
  eapply (pages_apart (frame m0 pgdir va) q a); [apply Hf|apply Hok|by intros <-|done|done].
Qed.

Definition kept (m : mem) : Prop := forall a, ~ in_pages L0 a -> m a = m0 a.

Lemma kept_pteval m va : kept m -> pteval m pgdir va = pteval m0 pgdir va.
Proof. intros H. apply pteval_ext. intros a Ha. apply H. by apply parent_tree. Qed.

Lemma kept_ubyte m va : kept m -> 0 <= va < KERNBASE -> ubyte m pgdir va = ubyte m0 pgdir va.
Proof.
  intros H Hva. unfold ubyte, frame. rewrite kept_pteval by done.
  destruct (testf _ PTE_P) eqn:HP; [|done]. cbn [andb]. destruct (testf _ PTE_U); [|done]. f_equal. apply H.
  apply (parent_frame va); [done|done|apply off_in_page].
Qed.

(** The child after the pages below [i] are copied. *)
Record cinv (d i : Z) (s : kst) (L : list Z) : Prop := {
  ci_u : urep s L d;
  ci_sub : forall q, q ∈ L -> q ∈ L0;
  ci_tree : forall a, in_tree (pm s) d a -> in_pages L0 a;
  ci_frames : forall va, 0 <= va < KERNBASE -> is_mapped (pm s) d va = true -> frame (pm s) d va ∈ L0;
  ci_kept : kept (pm s);
  ci_mapped : forall va, 0 <= va < KERNBASE -> is_mapped (pm s) d va = bool_decide (va < i);
  ci_ubyte : forall va, 0 <= va < KERNBASE -> ubyte (pm s) d va = if decide (va < i) then ubyte m0 pgdir va else None }.

(** One round: a page is taken, filled from the parent's and mapped. *)
Lemma copy_round d i s q L : cinv d i s (q :: L) -> 0 <= i -> i + 4096 <= KERNBASE -> i mod 4096 = 0 ->
  is_mapped m0 pgdir i = true -> (use (pm s) d i <= length L)%nat ->
  forall s1, krep s1 L -> pm s1 = Kstring.memmove q (frame m0 pgdir i) PGSIZE (pm s) ->
  wp (mappages d i PGSIZE (v2p q) (PTE_FLAGS (pteval m0 pgdir i))) s1 (fun r s' => r = 0 /\ exists L',
    cinv d (i + 4096) s' L' /\ (length L - use (pm s) d i <= length L')%nat /\ present (pm s') d (PDX i) = true).
Proof.
  intros [U Hsub Htree Hfr Hkept Hmp Hub] Hi0 Hik Hal Hpm Huse s1 Hk1 Em.
  destruct (tk_ok kend s q L d U) as [Hq HqL].
  destruct U0 as [_ Uv0]. destruct (uv_page _ _ _ _ Uv0 i ltac:(lia) Hpm) as ((Hf1 & Hf2 & Hf3) & Hf4 & _).
  rewrite PGSIZE_val in Hf3.
  assert (forall b, pm s1 b = if decide (q <= b < q + PGSIZE) then pm s (b - q + frame m0 pgdir i) else pm s b) as Hmv.
  { intros b. rewrite Em. apply memmove_spec; [done|unfold KERNBASE in *; lia|rewrite PGSIZE_val; kunf; lia]. }
  assert (forall a, ~ in_page q a -> pm s1 a = pm s a) as Hout by (intros a Ha; rewrite Hmv; by rewrite decide_False).
  destruct (flags_of (pteval m0 pgdir i)) as [Hfl Hfu].
  assert (urep s1 L d) as U1 by (by eapply tk_urep).
  assert (use (pm s1) d i = use (pm s) d i) as Hue.
  { unfold use. by destruct (tk_present kend s q L d s1 U Hout (PDX i) (PDX_range i)) as [-> _]. }
  assert (forall va, is_mapped (pm s1) d va = is_mapped (pm s) d va) as Hm1 by (intros; by eapply tk_mapped).
  assert (forall va, 0 <= va < KERNBASE -> same_page i va <-> i <= va < i + 4096) as Hsp.
  { intros va Hva. apply same_page_iff; unfold is_u32, KERNBASE in *; (done || lia). }
  eapply wp_conseq; [apply (map_user kend Hend s1 L d q i _ U1 (tk_fresh kend s q L d s1 U Hout)); try done|].
  { rewrite Hm1, Hmp by lia. by rewrite bool_decide_false by lia. }
  { by rewrite Hue. }
  intros r s' (L' & -> & U' & S' & HL' & Hqb & Hmp' & Hfr' & Hub'). split; [done|]. exists L'.
  assert (forall w, w ∈ L -> w ∈ L0) as HL0 by (intros w Hw; apply Hsub; by right).
  assert (q ∈ L0) as HqL0 by (apply Hsub; left).
  split_and!; [split| |].
  - done.
  - intros w Hw. apply HL0. by eapply vm_step_sub.
  - intros a [Ha|(w & Hw & Ha)]%(vs_tree _ _ _ _ _ S'); [|exists w; auto].
    apply Htree. destruct Ha as [Ha|(j & Hj & Hp & Ha)]; [by left|]. right. exists j.
    destruct (tk_present kend s q L d s1 U Hout j Hj) as [E1 E2]. by rewrite <- E1, <- E2.
  - intros va Hva. rewrite Hmp', Hfr' by done. destruct (decide (same_page i va)) as [Hs|Hs]; [done|].
    rewrite (bool_decide_false _ Hs). cbn [orb]. rewrite (tk_frame kend s q L d s1 U Hout), Hm1. by apply Hfr.
  - intros a Ha. rewrite (vs_frame _ _ _ _ _ S').
    + rewrite Hout; [by apply Hkept|]. intros Hin. apply Ha. by exists q.
    + intros Hin. apply Ha, Htree. destruct Hin as [Hin|(j & Hj & Hp & Hin)]; [by left|]. right. exists j.
      destruct (tk_present kend s q L d s1 U Hout j Hj) as [E1 E2]. by rewrite <- E1, <- E2.
    + intros w Hw Hin. apply Ha. exists w. auto.
  - intros va Hva. rewrite Hmp', Hm1, Hmp by done. destruct (decide (same_page i va)) as [Hs|Hs];
      [rewrite (bool_decide_true _ Hs)|rewrite (bool_decide_false _ Hs)]; rewrite Hsp in Hs by done; cbn [orb].
    + by rewrite bool_decide_true by lia.
    + apply bool_decide_ext. lia.
  - intros va Hva. rewrite Hub' by done. destruct (decide (same_page i va)) as [Hs|Hs].
    + rewrite Hfu. rewrite decide_True by (rewrite Hsp in Hs by done; lia). unfold ubyte.
      assert (pteval m0 pgdir va = pteval m0 pgdir i) as E by (unfold pteval, slot; by destruct Hs as [-> ->]).
      assert (frame m0 pgdir va = frame m0 pgdir i) as Ef by (unfold frame; by rewrite E).
      rewrite E, Ef. unfold is_mapped in Hpm. rewrite Hpm. cbn [andb]. destruct (testf _ PTE_U); [|done]. f_equal.
      rewrite Hmv, decide_True by apply off_in_page.
      replace (q + va mod 4096 - q + frame m0 pgdir i) with (frame m0 pgdir i + va mod 4096) by lia.
      apply Hkept. apply (parent_frame i); [lia|done|apply off_in_page].
    + rewrite (tk_ubyte kend s q L d s1 U Hout) by done. rewrite Hub by done. rewrite Hsp in Hs by done.
      destruct (decide (va < i)); [by rewrite decide_True by lia|by rewrite decide_False by lia].
  - lia.
  - specialize (Hmp' i ltac:(lia)). rewrite bool_decide_true in Hmp' by done.
    unfold is_mapped, pteval in Hmp'. by destruct (present (pm s') d (PDX i)).
Qed.

Lemma copyuvm_loop_spec d sz : 0 <= sz < KERNBASE -> d <> 0 ->
  (forall va, 0 <= va < PGROUNDUP sz -> is_mapped m0 pgdir va = true) ->
  forall fuel i k s L, cinv d i s L -> 0 <= i -> i mod 4096 = 0 -> 0 <= k -> k < Z.of_nat fuel ->
  i + k * 4096 = PGROUNDUP sz -> i + k * 4096 <= KERNBASE -> i + (k - 1) * 4096 < sz \/ k = 0 -> sz <= i + k * 4096 ->
  cost (pm s) d i k <= Z.of_nat (length L) ->
  wp (copyuvm_loop kend fuel pgdir d i sz) s (fun r s' => r = d /\ exists L', cinv d (PGROUNDUP sz) s' L').
Proof.
  intros Hsz Hd Hmap. induction fuel as [|fuel IH]; [lia|].
  intros i k s L C Hi Hal Hk Hf Htop Hmax Hlast Hle Hc. cbn [copyuvm_loop].
  destruct (decide (k = 0)) as [->|Hk0].
  { rewrite (proj2 (Z.ltb_ge i sz)) by lia. cbn [negb]. apply wp_ret. split; [done|]. exists L.
    by replace (PGROUNDUP sz) with i by lia. }
  rewrite (proj2 (Z.ltb_lt i sz)) by lia. cbn [negb].
  pose proof C as [U _ _ _ Hkept _ _]. pose proof (Hmap i ltac:(lia)) as Hmi.
  assert (pteval (pm s) pgdir i = pteval m0 pgdir i) as Ep by (by apply kept_pteval).
  assert (present (pm s) pgdir (PDX i) = true) as Hpr.
  { unfold is_mapped in Hmi. rewrite <- Ep in Hmi. unfold pteval in Hmi. by destruct (present (pm s) pgdir (PDX i)). }
  eapply wp_bind_eq; [rewrite walk_lookup, Hpr; reflexivity|].
  assert (slot (pm s) pgdir i <> 0) as Hsl.
  { pose proof (pd_dir _ _ _ _ (vr_pd _ _ _ _ (ur_v _ _ _ _ U0))) as _.
    assert (present m0 pgdir (PDX i) = true) as Hpr0.
    { unfold is_mapped, pteval in Hmi. by destruct (present m0 pgdir (PDX i)). }
    unfold slot, tab. rewrite (pde_ext m0 (pm s)) by (apply PDX_range || (intros a Ha; apply Hkept, parent_tree; by left)).
    apply (slot_nonzero kend Hend s0 L0); [apply U0|done]. }
  rewrite (proj2 (Z.eqb_neq _ 0)) by done. unfold ld. apply wp_bind, wp_gets.
  assert (ld_long (slot (pm s) pgdir i) (pm s) = pteval m0 pgdir i) as ->.
  { rewrite <- Ep. unfold pteval. by rewrite Hpr. }
  unfold is_mapped in Hmi. rewrite Hmi. cbn [negb].
  assert (0 <= PDX (i + (k - 1) * 4096) - PDX i) as Hmono.
  { rewrite !PDX_val by (unfold is_u32, KERNBASE in *; lia).
    pose proof (Z.div_le_mono i (i + (k - 1) * 4096) (2 ^ 22) ltac:(lia) ltac:(lia)). lia. }
  assert (cost (pm s) d i k = k + (PDX (i + (k - 1) * 4096) - PDX i + Z.of_nat (use (pm s) d i))) as Ec
    by (unfold cost; by rewrite (proj2 (Z.eqb_neq k 0))).
  rewrite Ec in Hc. destruct L as [|q L]; [cbn [length] in Hc; lia|].
  eapply wp_seq; [apply (kalloc_spec kend Hend s (q :: L)), U|]. intros r s1 (Em & _ & -> & Hk1).
  destruct (tk_ok kend s q L d U) as [Hq HqL].
  rewrite (proj2 (Z.eqb_neq q 0)) by apply (page_ok_u32 kend Hend q Hq). apply wp_bind, wp_modify.
  fold (frame m0 pgdir i). set (s2 := set_pm _ s1).
  cbn [length] in Hc.
  assert (pm s2 = Kstring.memmove q (frame m0 pgdir i) PGSIZE (pm s)) as Em2 by (cbn; by rewrite Em).
  destruct U0 as [_ Uv0]. destruct (uv_page _ _ _ _ Uv0 i ltac:(lia) Hmi) as ((Hf1 & Hf2 & Hf3) & _).
  assert (krep s2 L) as Hk2.
  { apply (krep_fill kend s1 L q); [done|done|done|]. intros a Ha. rewrite PGSIZE_val in Hf3.
    rewrite memmove_spec by (rewrite ?PGSIZE_val; kunf; lia). unfold in_page in Ha. rewrite decide_False by exact Ha. reflexivity. }
  eapply wp_seq; [apply (copy_round d i s q L C Hi ltac:(lia) Hal Hmi ltac:(lia) s2 Hk2 Em2)|].
  intros r s3 (-> & L3 & C3 & HL3 & Hp3). cbn [Z.ltb Z.compare].
  change PGSIZE with 4096. rewrite u32_small by (unfold KERNBASE in *; lia).
  pose proof (cost_step (pm s) (pm s) (pm s3) d i k ltac:(lia) Hi Hal Hmax eq_refl Hp3) as Hcs.
  rewrite Ec in Hcs.
  clear Em2 Hk2 s2. apply (IH (i + 4096) (k - 1) s3 L3 C3); try lia.
  rewrite <- Zplus_mod_idemp_l, Hal. done.
Qed.
End copy.

(** C19: [copyuvm] of a process whose pages below [sz] are mapped, with enough
    free pages, returns a new page directory in which the child reads at every
    user address what the parent read (guard pages included) and nothing from
    [sz] rounded up on; the parent's memory is unchanged and no page is shared. *)
Theorem copyuvm_copies s L pgdir sz (b := PGROUNDUP sz) (k := b / 4096) :
  urep s L pgdir -> 0 <= sz < KERNBASE ->
  (forall va, 0 <= va < b -> is_mapped (pm s) pgdir va = true) ->
  Z.of_nat KVMPAGES + k + k / 1024 + 1 <= Z.of_nat (length L) ->
  exists d s' L', copyuvm kend kdata pgdir sz s = Ret d s' /\ d <> 0 /\ urep s' L' d /\
    (forall va, 0 <= va < KERNBASE -> ubyte (pm s') d va = if decide (va < b) then ubyte (pm s) pgdir va else None) /\
    (forall va, 0 <= va < KERNBASE -> ubyte (pm s') pgdir va = ubyte (pm s) pgdir va) /\
    (forall va va', 0 <= va < KERNBASE -> 0 <= va' < KERNBASE -> is_mapped (pm s') d va = true ->
       is_mapped (pm s) pgdir va' = true -> frame (pm s') d va <> frame (pm s') pgdir va').
Proof.
  intros U Hsz Hmap HL. pose proof U as [[Hk _] Uv].
  destruct (PGROUNDUP_up sz) as (B1 & B2 & B3); [lia|unfold KERNBASE in *; lia|]. fold b in B1, B2, B3.
  assert (b <= KERNBASE) as Hb by (apply B3; [done|lia]).
  assert (b = k * 4096) as Ebk by (unfold k; apply Z.div_exact in B2; lia).
  assert (b < sz + 4096) as Hb2.
  { unfold b. rewrite PGROUNDUP_val, u32_small by (unfold KERNBASE in *; lia).
    pose proof (Z.mod_pos_bound (sz + 4095) 4096 ltac:(lia)). lia. }
  assert (0 <= k / 1024) by (apply Z.div_pos; lia).
  destruct (proj1 (wp_eq _ _ _) (setupkvm_spec s L Hk ltac:(lia)))
    as (d & s1 & E1 & L1 & HdL & Hd0 & V1 & N1 & (j & EL1) & T1 & K1 & P1).
  assert (forall va, 0 <= va < KERNBASE -> pteval (pm s1) d va = 0) as Z1.
  { intros va Hva. rewrite P1 by (unfold is_u32, KERNBASE in *; lia). apply kpte_low. lia. }
  assert (forall va, 0 <= va < KERNBASE -> is_mapped (pm s1) d va = false) as Hnm.
  { intros va Hva. unfold is_mapped. by rewrite Z1. }
  assert (cinv s L pgdir d 0 s1 L1) as C1.
  { split; try done.
    - split; [done|]. split.
      + intros va Hva Hm. by rewrite Hnm in Hm.
      + intros va va' Hva _ Hm. by rewrite Hnm in Hm.
    - intros q Hq. rewrite EL1 in Hq. by eapply elem_of_drop.
    - intros va Hva Hm. by rewrite Hnm in Hm.
    - intros va Hva. rewrite Hnm by done. by rewrite bool_decide_false by lia.
    - intros va Hva. rewrite decide_False by lia. unfold ubyte. by rewrite Z1. }
  assert (cost (pm s1) d 0 k <= Z.of_nat (length L1)) as Hc.
  { unfold cost. destruct (Z.eqb_spec k 0); [lia|]. unfold need, KVMPAGES in *. pose proof (use_le (pm s1) d 0).
    rewrite !PDX_val by (unfold is_u32, KERNBASE in *; lia). rewrite Z.add_0_l.
    assert ((k - 1) * 4096 / 2 ^ 22 <= k / 1024); [|change (0 / 2 ^ 22) with 0; lia].
    change (2 ^ 22) with (4096 * 1024). rewrite <- Z.div_div, Z.div_mul by lia. apply Z.div_le_mono; lia. }
  assert (k < Z.of_nat (S (Z.to_nat (sz / PGSIZE + 1)))) as Hfuel.
  { rewrite PGSIZE_val. pose proof (Z.div_mod sz 4096 ltac:(lia)). pose proof (Z.mod_pos_bound sz 4096 ltac:(lia)). lia. }
  destruct (proj1 (wp_eq _ _ _) (copyuvm_loop_spec s L pgdir U d sz Hsz Hd0 Hmap (S (Z.to_nat (sz / PGSIZE + 1))) 0 k s1 L1
    C1 ltac:(lia) eq_refl ltac:(lia) Hfuel ltac:(fold b; lia) ltac:(lia) ltac:(lia) ltac:(lia) Hc)) as (r & s2 & E2 & -> & L2 & C2).
  fold b in C2. exists d, s2, L2. split_and!; [|done|apply C2|apply C2| |].
  - unfold copyuvm, bind. rewrite E1, (proj2 (Z.eqb_neq d 0)) by done. exact E2.
  - intros va Hva. apply (kept_ubyte s L pgdir U); [apply C2|done].
  - intros va va' Hva Hva' Hm Hm' E. pose proof (ci_frames _ _ _ _ _ _ _ C2 va Hva Hm) as Hin.
    destruct (uv_page _ _ _ _ Uv va' Hva' Hm') as (_ & Hn & _). apply Hn.
    unfold frame at 1. rewrite <- (kept_pteval s L pgdir U (pm s2)) by apply C2. fold (frame (pm s2) pgdir va'). by rewrite <- E.
Qed.
End kvm.
