(* ===== verification/VmWitness.v ===== *)
(** A concrete memory with a page directory, one user page and a hundred free
    pages: the hypotheses of the theorems about vm.c hold of it; and two
    memories on which vm.c misbehaves. *)

From S2P Require Import Prelude Params CString Mmu Kalloc Vm VmSpec UvmSpec Copyout Copyuvm.

Module VmW.
Definition P (k : Z) : Z := KERNBASE + k * 4096.
Definition kend : Z := P 2.
Definition kdata : Z := KERNLINK + 0x8000.
Definition pgdir : Z := P 2.

(** Free pages 5 to 104, each linked to the next. *)
Definition free_list : list Z := P <$> seqZ 5 100.
Definition links : mem := fun a =>
  let p := a - a mod 4096 in
  if (P 5 <=? p) && (p <? P 104) && (a mod 4096 <? 4) then u8 (Z.shiftr (p + 4096) (8 * (a mod 4096))) else 0.

(** Directory at page 2, table at page 3, user page 4 at address 0. *)
Definition entry (k : Z) : Z := Z.lor (v2p (P k)) 7.
Definition m0 : mem := wr_long (P 2) (entry 3) (wr_long (P 3) (entry 4) (wr (P 4) 42 links)).
Definition s0 : kst := mkk false true (P 5) m0.

Lemma kend_ok : KERNBASE < kend.
Proof. reflexivity. Qed.

Lemma krep0 : krep kend s0 free_list.
Proof.
  split; [reflexivity| | |].
  - vm_compute. repeat split; reflexivity.
  - apply (bool_decide_unpack _). vm_compute. exact I.
  - apply (bool_decide_unpack _). vm_compute. exact I.
Qed.

Lemma links_zero k a : 2 <= k <= 4 -> in_page (P k) a -> links a = 0.
Proof.
  unfold in_page, P, KERNBASE, PGSIZE. intros Hk Ha. unfold links, P, KERNBASE.
  assert (a - a mod 4096 <= 2147483648 + 4 * 4096).
  { pose proof (Z.div_mod a 4096 ltac:(lia)). pose proof (Z.mod_pos_bound a 4096 ltac:(lia)). lia. }
  by rewrite (proj2 (Z.leb_gt _ _)) by lia.
Qed.

Lemma pde0 i : 0 <= i < 1024 -> pde m0 pgdir i = if decide (i = 0) then entry 3 else 0.
Proof.
  intros Hi. destruct (decide (i = 0)) as [->|Hne]; [reflexivity|]. unfold pde. apply ld_zero. intros b Hb.
  unfold m0. unfold pgdir, P in *. rewrite !wr_long_out by (unfold KERNBASE in *; lia).
  rewrite wr_ne by (unfold KERNBASE in *; lia). apply (links_zero 2); [lia|]. by apply (word_in_page _ i).
Qed.

Lemma pteval0 va : pteval m0 pgdir va = if decide (same_page 0 va) then entry 4 else 0.
Proof.
  pose proof (PDX_range va). pose proof (PTX_range va). unfold pteval, present, slot, tab. rewrite pde0 by done.
  assert (same_page 0 va <-> PDX va = 0 /\ PTX va = 0) as Hs.
  { unfold same_page. change (PDX 0) with 0. change (PTX 0) with 0. naive_solver. }
  destruct (decide (PDX va = 0)) as [E|E].
  - change (testf (entry 3) PTE_P) with true. change (p2v (PTE_ADDR (entry 3))) with (P 3). cbv iota.
    destruct (decide (PTX va = 0)) as [E'|E'].
    + rewrite decide_True by tauto. rewrite E'. reflexivity.
    + rewrite decide_False by tauto. apply ld_zero. intros b Hb. unfold m0, P in *.
      rewrite !wr_long_out by (unfold KERNBASE in *; lia). rewrite wr_ne by (unfold KERNBASE in *; lia).
      apply (links_zero 3); [lia|]. by apply (word_in_page _ (PTX va)).
  - change (testf 0 PTE_P) with false. cbv iota. by rewrite decide_False by tauto.
Qed.

Lemma mapped0 va : is_mapped m0 pgdir va = bool_decide (same_page 0 va).
Proof.
  unfold is_mapped. rewrite pteval0. destruct (decide (same_page 0 va)).
  - by rewrite bool_decide_true.
  - by rewrite bool_decide_false.
Qed.

Lemma frame0 va : same_page 0 va -> frame m0 pgdir va = P 4.
Proof. intros H. unfold frame. rewrite pteval0, decide_True by done. reflexivity. Qed.

Lemma used_pages k : 2 <= k <= 4 -> page_ok kend (P k) /\ P k ∉ free_list.
Proof.
  intros Hk. assert (k = 2 \/ k = 3 \/ k = 4) as [-> | [-> | ->]] by lia;
    (split; [vm_compute; repeat split; discriminate|]); apply (bool_decide_unpack _); vm_compute; exact I.
Qed.

Lemma present0 i : 0 <= i < 1024 -> present m0 pgdir i = true -> i = 0 /\ tab m0 pgdir i = P 3.
Proof.
  intros Hi. unfold present, tab. rewrite pde0 by done. destruct (decide (i = 0)); [|done]. intros _. split; [done|reflexivity].
Qed.

Lemma urep0 : urep kend s0 free_list pgdir.
Proof.
  split; [split; [apply krep0|]|]; cbn [s0 pm].
  - split; [apply (used_pages 2); lia|apply (used_pages 2); lia| |].
    + intros i Hi Hp. destruct (present0 i Hi Hp) as [-> ->]. split_and!; [apply (used_pages 3); lia..|discriminate].
    + intros i j Hi Hj Hp Hp' _. destruct (present0 i Hi Hp), (present0 j Hj Hp'). congruence.
  - split.
    + intros va Hva. rewrite mapped0. intros Hs%bool_decide_eq_true. rewrite frame0 by done.
      split_and!; [apply (used_pages 4); lia..|]. split; [discriminate|]. intros i Hi Hp.
      destruct (present0 i Hi Hp) as [_ ->]. discriminate.
    + intros va va' Hva Hva'. rewrite !mapped0. intros [E1 E2]%bool_decide_eq_true [E3 E4]%bool_decide_eq_true _.
      split; congruence.
Qed.

Lemma low_page va : 0 <= va < 4096 -> same_page 0 va.
Proof. intros H. apply same_page_iff; unfold is_u32; (done || lia). Qed.

Lemma high_page va : 4096 <= va < KERNBASE -> ~ same_page 0 va.
Proof. unfold KERNBASE. intros H Hs. apply same_page_iff in Hs; unfold is_u32; (done || lia). Qed.

Lemma mappages_maps_witness : exists s' L', mappages pgdir 8192 4096 (v2p (P 5)) 6 s0 = Ret 0 s' /\ vrep kend s' L' pgdir /\
  forall va', is_u32 va' -> pteval (pm s') pgdir va' =
    if decide (PGROUNDDOWN 8192 <= va' < PGROUNDDOWN (8192 + 4096 - 1) + 4096)
    then Z.lor (Z.lor (v2p (P 5) + (va' - PGROUNDDOWN 8192) / 4096 * 4096) 6) PTE_P else pteval m0 pgdir va'.
Proof.
  destruct (mappages_maps kend kend_ok s0 free_list pgdir 8192 4096 (v2p (P 5)) 6 (ur_v _ _ _ _ urep0)) as [H _];
    [unfold is_u32; lia|lia|lia|lia|reflexivity|vm_compute; discriminate|vm_compute; discriminate|].
  apply H; [|vm_compute; discriminate].
  intros va Hva. cbn [s0 pm]. change (is_mapped m0 pgdir va = false). rewrite mapped0, bool_decide_false; [done|].
  apply high_page. unfold KERNBASE. change (PGROUNDDOWN 8192) with 8192 in Hva.
  change (PGROUNDDOWN (8192 + 4096 - 1)) with 8192 in Hva. lia.
Defined.

Lemma allocuvm_grows_witness : exists s' L', allocuvm kend pgdir 4096 10000 s0 = Ret 10000 s' /\ urep kend s' L' pgdir /\
  forall va, 0 <= va < KERNBASE -> ubyte (pm s') pgdir va =
    if decide (PGROUNDUP 4096 <= va < PGROUNDUP 10000) then Some 0 else ubyte m0 pgdir va.
Proof.
  destruct (allocuvm_grows kend kend_ok s0 free_list pgdir 4096 10000 urep0) as (_ & _ & H); [lia|lia|].
  apply H; [reflexivity|lia| |vm_compute; discriminate].
  intros va Hva. cbn [s0 pm]. rewrite mapped0, bool_decide_false; [done|]. apply high_page. unfold KERNBASE.
  change (PGROUNDUP 4096) with 4096 in Hva. change (PGROUNDUP 10000) with 12288 in Hva. lia.
Defined.

Lemma ubyte0 va : 0 <= va < 4096 -> ubyte m0 pgdir va <> None.
Proof. intros H. unfold ubyte. rewrite pteval0, decide_True by (by apply low_page). discriminate. Qed.

Lemma copyout_writes_witness : exists s', copyout pgdir 10 [1; 2; 3] s0 = Ret 0 s' /\ urep kend s' free_list pgdir /\
  forall va', 0 <= va' < KERNBASE -> ubyte (pm s') pgdir va' =
    if decide (10 <= va' < 10 + 3) then Some ([1; 2; 3] !!! Z.to_nat (va' - 10)) else ubyte m0 pgdir va'.
Proof.
  destruct (copyout_writes kend kend_ok s0 free_list pgdir 10 [1; 2; 3] urep0) as [H _]; [lia|vm_compute; discriminate|].
  apply H.
  intros va Hva. apply ubyte0. cbn [length] in Hva. lia.
Defined.

Lemma copyuvm_copies_witness : exists d s', copyuvm kend kdata pgdir 100 s0 = Ret d s' /\ d <> 0 /\
  forall va, 0 <= va < KERNBASE -> ubyte (pm s') d va = if decide (va < PGROUNDUP 100) then ubyte m0 pgdir va else None.
Proof.
  destruct (copyuvm_copies kend kdata kend_ok ltac:(reflexivity) ltac:(reflexivity) ltac:(reflexivity)
    s0 free_list pgdir 100 urep0) as (d & s' & L' & H1 & H2 & _ & H3 & _); [vm_compute; split; congruence| |vm_compute; discriminate|].
  - intros va Hva. cbn [s0 pm]. rewrite mapped0, bool_decide_true; [done|]. apply low_page.
    change (PGROUNDUP 100) with 4096 in Hva. lia.
  - exists d, s'. split; [exact H1|]. split; [exact H2|exact H3].
Defined.

Lemma setupkvm_maps_witness : exists d s' L', setupkvm kdata s0 = Ret d s' /\ vrep kend s' L' d.
Proof.
  destruct (setupkvm_maps kend kdata kend_ok ltac:(reflexivity) ltac:(reflexivity) ltac:(reflexivity) s0 free_list krep0)
    as (d & s' & L' & H1 & H2 & _); [vm_compute; repeat constructor|].
  exists d, s', L'. split; [exact H1|exact H2].
Defined.
End VmW.

(** Two inputs on which vm.c does not do what its comments say. *)
Module VmBugs.
Import VmW.

(** An empty directory at page 2, and one free page. *)
Definition s_low : kst := mkk false true (P 5) (fun _ => 0).

(** [allocuvm] ignores the failure of [mappages]: when memory runs out
    between the page and its page table, it reports the new size although the
    new page is not mapped. *)
Theorem allocuvm_unmapped :
  match allocuvm kend pgdir 0 4096 s_low with
  | Ret r s' => r = 4096 /\ is_mapped (pm s') pgdir 0 = false /\ freelist s' = 0
  | _ => False
  end.
Proof. vm_compute. repeat split. Qed.

(** A directory whose second table maps page 4 at 0x400000. *)
Definition s_gap : kst :=
  mkk false true 0 (wr_long (P 2 + 4) (entry 3) (wr_long (P 3) (entry 4) (fun _ => 0))).

(** [deallocuvm] skips a whole table's worth of addresses from wherever
    it finds a table missing, not to the end of that table: shrinking from
    0x401000 to 0x1000 leaves the page at 0x400000 mapped (and allocated). *)
Theorem deallocuvm_skips :
  is_mapped (pm s_gap) pgdir 0x400000 = true /\
  match deallocuvm kend pgdir 0x401000 0x1000 s_gap with
  | Ret r s' => r = 0x1000 /\ is_mapped (pm s') pgdir 0x400000 = true /\ freelist s' = 0
  | _ => False
  end.
Proof. vm_compute. repeat split. Qed.
End VmBugs.
