(* ===== verification/Kernel.v ===== *)
(** The kernel state above the file system: proc.h, file.h, pipe.c,
    console.c.

    Processes, open files, pipes, the console and the page allocator, in the slot the file
    system's state keeps for them.  A pipe is the page it is allocated in; the
    table of pipes holds those allocated, so that a use after [kfree] is a
    fault.  Locks are held or free, as seen by the CPU that runs. *)

From S2P Require Import Prelude Params CString Mmu Kalloc Vm BlockDev Bio Log Fs.

(** ** State *)

(** proc.h *)
Inductive procstate : Type := UNUSED | EMBRYO | SLEEPING | RUNNABLE | RUNNING | ZOMBIE.

#[export] Instance procstate_eq_dec : EqDecision procstate.
Proof. solve_decision. Defined.

Record proc : Type := mkproc {
  p_sz : Z; p_pgdir : Z; p_kstack : Z; p_state : procstate; p_pid : Z;
  p_parent : option nat; p_tf : Z; p_context : Z; p_chan : option chan; p_killed : Z;
  p_ofile : list (option nat); p_cwd : option nat; p_name : list Z
}.

Definition zero_proc : proc :=
  mkproc 0 0 0 UNUSED 0 None 0 0 None 0 (replicate NOFILE None) None (replicate 16 0).
#[export] Instance proc_inhabited : Inhabited proc := populate zero_proc.

(** file.h *)
Inductive fdtype : Type := FD_NONE | FD_PIPE | FD_INODE.

Record file : Type := mkfile {
  f_type : fdtype; f_ref : Z; f_readable : bool; f_writable : bool;
  f_pipe : Z; f_ip : nat; f_off : Z
}.
Definition zero_file : file := mkfile FD_NONE 0 false false 0 0 0.
#[export] Instance file_inhabited : Inhabited file := populate zero_file.

(** pipe.c *)
Definition PIPESIZE : Z := 512.
Record pipe : Type := mkpipe {
  pi_lock : bool; pi_data : list Z; nread : Z; nwrite : Z; readopen : bool; writeopen : bool
}.

(** console.c: the variable [input], and the console with its two outputs, the
    cells of the screen with the cursor position the video hardware keeps and
    the bytes sent to the serial port ([uart.c]'s variable [uart] tells whether
    there is one). *)
Definition INPUT_BUF : Z := 128.
Record input : Type := mkinput { in_lock : bool; in_buf : list Z; in_r : Z; in_w : Z; in_e : Z }.
Record console : Type := mkconsole {
  cons_lock : bool; locking : bool; panicked : bool; crt : list Z; cursor : Z;
  uart : bool; uart_out : list Z; inp : input
}.
Definition zero_input : input := mkinput false (replicate (Z.to_nat INPUT_BUF) 0) 0 0 0.
Definition zero_console : console := mkconsole false false false (replicate (80 * 25) 0) 0 false [] zero_input.

Record kx : Type := mkkx {
  km : kst; pt_lock : bool; procs : list proc; initproc : option nat; nextpid : Z;
  cur : option nat; ft_lock : bool; files : list file; pipes : gmap Z pipe;
  tk_lock : bool; ticks : Z; con : console
}.

Definition set_km (x : kst) (s : kx) : kx :=
  mkkx x (pt_lock s) (procs s) (initproc s) (nextpid s) (cur s) (ft_lock s) (files s) (pipes s) (tk_lock s) (ticks s) (con s).
Definition set_pt_lock (x : bool) (s : kx) : kx :=
  mkkx (km s) x (procs s) (initproc s) (nextpid s) (cur s) (ft_lock s) (files s) (pipes s) (tk_lock s) (ticks s) (con s).
Definition set_procs (x : list proc) (s : kx) : kx :=
  mkkx (km s) (pt_lock s) x (initproc s) (nextpid s) (cur s) (ft_lock s) (files s) (pipes s) (tk_lock s) (ticks s) (con s).
Definition set_initproc (x : option nat) (s : kx) : kx :=
  mkkx (km s) (pt_lock s) (procs s) x (nextpid s) (cur s) (ft_lock s) (files s) (pipes s) (tk_lock s) (ticks s) (con s).
Definition set_nextpid (x : Z) (s : kx) : kx :=
  mkkx (km s) (pt_lock s) (procs s) (initproc s) x (cur s) (ft_lock s) (files s) (pipes s) (tk_lock s) (ticks s) (con s).
Definition set_cur (x : option nat) (s : kx) : kx :=
  mkkx (km s) (pt_lock s) (procs s) (initproc s) (nextpid s) x (ft_lock s) (files s) (pipes s) (tk_lock s) (ticks s) (con s).
Definition set_ft_lock (x : bool) (s : kx) : kx :=
  mkkx (km s) (pt_lock s) (procs s) (initproc s) (nextpid s) (cur s) x (files s) (pipes s) (tk_lock s) (ticks s) (con s).
Definition set_files (x : list file) (s : kx) : kx :=
  mkkx (km s) (pt_lock s) (procs s) (initproc s) (nextpid s) (cur s) (ft_lock s) x (pipes s) (tk_lock s) (ticks s) (con s).
Definition set_pipes (x : gmap Z pipe) (s : kx) : kx :=
  mkkx (km s) (pt_lock s) (procs s) (initproc s) (nextpid s) (cur s) (ft_lock s) (files s) x (tk_lock s) (ticks s) (con s).
Definition set_tk_lock (x : bool) (s : kx) : kx :=
  mkkx (km s) (pt_lock s) (procs s) (initproc s) (nextpid s) (cur s) (ft_lock s) (files s) (pipes s) x (ticks s) (con s).
Definition set_ticks (x : Z) (s : kx) : kx :=
  mkkx (km s) (pt_lock s) (procs s) (initproc s) (nextpid s) (cur s) (ft_lock s) (files s) (pipes s) (tk_lock s) x (con s).

Definition set_con (x : console) (s : kx) : kx :=
  mkkx (km s) (pt_lock s) (procs s) (initproc s) (nextpid s) (cur s) (ft_lock s) (files s) (pipes s) (tk_lock s) (ticks s) x.

(** ** Access *)

Definition liftm {A} (m : M kst A) : M kx A := zoom km set_km m.

Definition acquire (get : kx -> bool) (put : bool -> kx -> kx) : M kx unit :=
  l <- gets get ;; if l then panic "acquire" else modify (put true).
Definition release (get : kx -> bool) (put : bool -> kx -> kx) : M kx unit :=
  l <- gets get ;; if l then modify (put false) else panic "release".

Definition get_proc (i : nat) : M kx proc := gets (fun s => procs s !!! i).
Definition upd_proc (i : nat) (f : proc -> proc) : M kx unit :=
  modify (fun s => set_procs (<[i := f (procs s !!! i)]> (procs s)) s).

(** The variable [proc]; a use of it while it is null is a fault. *)
Definition myproc : M kx nat :=
  c <- gets cur ;; match c with Some i => ret i | None => fault "proc" end.

Definition set_p_state (x : procstate) (p : proc) : proc :=
  mkproc (p_sz p) (p_pgdir p) (p_kstack p) x (p_pid p) (p_parent p) (p_tf p) (p_context p) (p_chan p) (p_killed p) (p_ofile p) (p_cwd p) (p_name p).
Definition set_p_pid (x : Z) (p : proc) : proc :=
  mkproc (p_sz p) (p_pgdir p) (p_kstack p) (p_state p) x (p_parent p) (p_tf p) (p_context p) (p_chan p) (p_killed p) (p_ofile p) (p_cwd p) (p_name p).
Definition set_p_parent (x : option nat) (p : proc) : proc :=
  mkproc (p_sz p) (p_pgdir p) (p_kstack p) (p_state p) (p_pid p) x (p_tf p) (p_context p) (p_chan p) (p_killed p) (p_ofile p) (p_cwd p) (p_name p).
Definition set_p_chan (x : option chan) (p : proc) : proc :=
  mkproc (p_sz p) (p_pgdir p) (p_kstack p) (p_state p) (p_pid p) (p_parent p) (p_tf p) (p_context p) x (p_killed p) (p_ofile p) (p_cwd p) (p_name p).
Definition set_p_killed (x : Z) (p : proc) : proc :=
  mkproc (p_sz p) (p_pgdir p) (p_kstack p) (p_state p) (p_pid p) (p_parent p) (p_tf p) (p_context p) (p_chan p) x (p_ofile p) (p_cwd p) (p_name p).
Definition set_p_ofile (x : list (option nat)) (p : proc) : proc :=
  mkproc (p_sz p) (p_pgdir p) (p_kstack p) (p_state p) (p_pid p) (p_parent p) (p_tf p) (p_context p) (p_chan p) (p_killed p) x (p_cwd p) (p_name p).
Definition set_p_cwd (x : option nat) (p : proc) : proc :=
  mkproc (p_sz p) (p_pgdir p) (p_kstack p) (p_state p) (p_pid p) (p_parent p) (p_tf p) (p_context p) (p_chan p) (p_killed p) (p_ofile p) x (p_name p).
Definition set_p_name (x : list Z) (p : proc) : proc :=
  mkproc (p_sz p) (p_pgdir p) (p_kstack p) (p_state p) (p_pid p) (p_parent p) (p_tf p) (p_context p) (p_chan p) (p_killed p) (p_ofile p) (p_cwd p) x.
Definition set_p_mem (sz pgdir : Z) (p : proc) : proc :=
  mkproc sz pgdir (p_kstack p) (p_state p) (p_pid p) (p_parent p) (p_tf p) (p_context p) (p_chan p) (p_killed p) (p_ofile p) (p_cwd p) (p_name p).
Definition set_p_stack (kstack tf context : Z) (p : proc) : proc :=
  mkproc (p_sz p) (p_pgdir p) kstack (p_state p) (p_pid p) (p_parent p) tf context (p_chan p) (p_killed p) (p_ofile p) (p_cwd p) (p_name p).

(** The first index at which a test holds: a loop over a table that leaves at
    the first hit. *)
Fixpoint first_idx {A} (f : A -> bool) (l : list A) : option nat :=
  match l with
  | [] => None
  | x :: l' => if f x then Some O else S <$> first_idx f l'
  end.

Lemma first_idx_some {A} (f : A -> bool) l i : first_idx f l = Some i ->
  exists x, l !! i = Some x /\ f x = true /\ (forall j y, (j < i)%nat -> l !! j = Some y -> f y = false).
Proof.
  revert i. induction l as [|a l IH]; intros i; cbn; [done|]. destruct (f a) eqn:Ea.
  - intros [= <-]. exists a. split_and!; [done|done|]. intros; lia.
  - destruct (first_idx f l) as [k|]; [|done]. cbn. intros [= <-].
    destruct (IH k eq_refl) as (x & Hx & Hf & Hj). exists x. split_and!; [done|done|].
    intros [|j] y Hlt Hy; cbn in Hy; [congruence|]. eapply Hj; [|done]. lia.
Qed.

Lemma first_idx_none {A} (f : A -> bool) l : first_idx f l = None <-> Forall (fun x => f x = false) l.
Proof.
  induction l as [|a l IH]; cbn; [done|]. rewrite Forall_cons. destruct (f a).
  - split; [done|]. by intros [? _].
  - rewrite <- IH. destruct (first_idx f l); cbn; naive_solver.
Qed.

Section lifts.
Context {E : Type}.
Definition put_ext (x : E) (s : fsst E) : fsst E := mkfs (fl s) (ic s) x.
Definition liftk {A} (m : M E A) : M (fsst E) A := zoom (@ext E) put_ext m.
End lifts.
