(* ===== verification/Proc.v ===== *)
(** Processes: proc.c, the operations on the process table.

    A switch of stacks ([swtch]) ends a segment of kernel code: [sleep], [yield]
    and [exit] are cut there, [sched] being the checks made before it.  The
    scheduler then has the table's lock, and the process that runs next releases
    it.  The operations that also use files ([fork], [exit], [userinit]) are
    composed of these in Fork. *)

From S2P Require Import Prelude Params CString Mmu Kalloc Vm BlockDev Bio Log Fs Kernel.

Definition acquire_ptable : M kx unit := acquire pt_lock set_pt_lock.
Definition release_ptable : M kx unit := release pt_lock set_pt_lock.

(** proc.c [pinit] *)
Definition pinit : M kx unit := modify (set_pt_lock false).

Definition is_state (x : procstate) (p : proc) : bool := bool_decide (p_state p = x).

(** Field offsets of [struct trapframe] (x86.h) and [struct context] (proc.h). *)
Definition TF_SIZE : Z := 76.
Definition TF_EAX : Z := 28.
Definition TF_ES : Z := 40.
Definition TF_DS : Z := 44.
Definition TF_TRAPNO : Z := 48.
Definition TF_EIP : Z := 56.
Definition TF_CS : Z := 60.
Definition TF_EFLAGS : Z := 64.
Definition TF_ESP : Z := 68.
Definition TF_SS : Z := 72.
Definition CTX_SIZE : Z := 20.
Definition CTX_EIP : Z := 16.

(** ** Sleep and wakeup *)

(** proc.c [wakeup1], [wakeup] *)
Definition wake1 (c : chan) (p : proc) : proc :=
  if is_state SLEEPING p && bool_decide (p_chan p = Some c) then set_p_state RUNNABLE p else p.
Definition wakeup1 (c : chan) : M kx unit := modify (fun s => set_procs (wake1 c <$> procs s) s).
Definition wakeup (c : chan) : M kx unit := acquire_ptable ;; wakeup1 c ;; release_ptable.

(** The locks other than the process table's. *)
Definition other_locks (s : kx) : bool :=
  ft_lock s || tk_lock s || k_lock (km s) || cons_lock (con s) || in_lock (inp (con s)) ||
  existsb (fun x => pi_lock x.2) (map_to_list (pipes s)).

(** proc.c [sched] up to the switch.  [cpu->ncli] is 1 when no other lock is
    held; holding the lock means that interrupts are off. *)
Definition sched : M kx unit :=
  l <- gets pt_lock ;;
  if negb l then panic "sched ptable.lock" else
  o <- gets other_locks ;;
  if o then panic "sched locks" else
  i <- myproc ;;
  p <- get_proc i ;;
  when (is_state RUNNING p) (panic "sched running").

(** proc.c [yield], before and after the switch *)
Definition yield_start : M kx unit :=
  acquire_ptable ;; i <- myproc ;; upd_proc i (set_p_state RUNNABLE) ;; sched.
Definition yield_end : M kx unit := release_ptable.

(** proc.c [sleep], before and after the switch.  [lk] is the release (then the
    acquisition) of the lock, [None] when it is the process table's own. *)
Definition sleep_start (c : chan) (lk : option (M kx unit)) : M kx unit :=
  me <- gets cur ;;
  match me with
  | None => panic "sleep"
  | Some i =>
      match lk with
      | Some rel => acquire_ptable ;; rel
      | None => ret tt
      end ;;
      upd_proc i (set_p_chan (Some c)) ;;
      upd_proc i (set_p_state SLEEPING) ;;
      sched
  end.
Definition sleep_end (lk : option (M kx unit)) : M kx unit :=
  i <- myproc ;;
  upd_proc i (set_p_chan None) ;;
  match lk with
  | Some acq => release_ptable ;; acq
  | None => ret tt
  end.
(** A call of [sleep] ends the segment. *)
Definition sleep {A} (c : chan) (lk : option (M kx unit)) : M kx A := sleep_start c lk ;; park c.

(** proc.c [kill] *)
Definition kill (pid : Z) : M kx Z :=
  acquire_ptable ;;
  l <- gets procs ;;
  match first_idx (fun p => p_pid p =? pid) l with
  | Some i =>
      upd_proc i (set_p_killed 1) ;;
      p <- get_proc i ;;
      when (is_state SLEEPING p) (upd_proc i (set_p_state RUNNABLE)) ;;
      release_ptable ;;
      ret 0
  | None => release_ptable ;; ret (-1)
  end.

(** ** The scheduler *)

(** vm.c [switchuvm], without the loading of the hardware's registers *)
Definition switchuvm (i : nat) : M kx unit :=
  p <- get_proc i ;;
  when (p_pgdir p =? 0) (panic "switchuvm: no pgdir").

(** One step of proc.c [scheduler]: from entry [from] on, the next process to
    run, up to the switch to it; [None] at the end of the table. *)
Definition next_runnable (from : nat) (l : list proc) : option nat :=
  Nat.add from <$> first_idx (is_state RUNNABLE) (drop from l).
Definition scheduler_scan (from : nat) : M kx (option nat) :=
  l <- gets procs ;;
  match next_runnable from l with
  | Some i =>
      modify (set_cur (Some i)) ;;
      switchuvm i ;;
      upd_proc i (set_p_state RUNNING) ;;
      ret (Some i)
  | None => release_ptable ;; ret None
  end.
(** The start of a pass over the table, and the return from a process. *)
Definition scheduler_pass : M kx (option nat) := acquire_ptable ;; scheduler_scan 0.
Definition scheduler_back (i : nat) : M kx (option nat) := modify (set_cur None) ;; scheduler_scan (S i).
(** The loop of [scheduler], cut at the switches: at [None] a pass begins, at
    [Some i] process [i] has switched back. *)
Definition scheduler (stands : option nat) : M kx (option nat) :=
  match stands with None => scheduler_pass | Some i => scheduler_back i end.

(** ** Creation and end *)

Section proc.
(** The linker's [end] and [data], and the addresses of [trapret] and [forkret]. *)
Context (kend kdata trapret forkret : Z).

(** proc.c [allocproc] *)
Definition allocproc : M kx (option nat) :=
  acquire_ptable ;;
  l <- gets procs ;;
  match first_idx (is_state UNUSED) l with
  | None => release_ptable ;; ret None
  | Some i =>
      upd_proc i (set_p_state EMBRYO) ;;
      n <- gets nextpid ;;
      modify (set_nextpid (s32 (n + 1))) ;;
      upd_proc i (set_p_pid n) ;;
      release_ptable ;;
      kstack <- liftm kalloc ;;
      upd_proc i (fun p => set_p_stack kstack (p_tf p) (p_context p) p) ;;
      if kstack =? 0 then upd_proc i (set_p_state UNUSED) ;; ret None else
      let tf := kstack + KSTACKSIZE - TF_SIZE in
      let ra := tf - 4 in
      let ctx := ra - CTX_SIZE in
      liftm (st ra trapret) ;;
      liftm (modify (fun s => set_pm (Kstring.memset ctx 0 CTX_SIZE (pm s)) s)) ;;
      liftm (st (ctx + CTX_EIP) forkret) ;;
      upd_proc i (set_p_stack kstack tf ctx) ;;
      ret (Some i)
  end.

(** The pieces of proc.c [fork] that change the table: the way out when memory
    is short, the copy of the parent's state, and the start of the child. *)
Definition fork_abort (np : nat) : M kx unit :=
  p <- get_proc np ;;
  liftm (kfree kend (p_kstack p)) ;;
  upd_proc np (fun p => set_p_stack 0 (p_tf p) (p_context p) p) ;;
  upd_proc np (set_p_state UNUSED).
Definition fork_fill (np : nat) : M kx unit :=
  me <- myproc ;;
  q <- get_proc me ;;
  upd_proc np (fun p => set_p_mem (p_sz q) (p_pgdir p) p) ;;
  upd_proc np (set_p_parent (Some me)) ;;
  p <- get_proc np ;;
  liftm (modify (fun s => set_pm (Kstring.memmove (p_tf p) (p_tf q) TF_SIZE (pm s)) s)) ;;
  liftm (st (p_tf p + TF_EAX) 0).
Definition fork_run (np : nat) : M kx unit :=
  acquire_ptable ;; upd_proc np (set_p_state RUNNABLE) ;; release_ptable.

(** proc.c [growproc] *)
Definition growproc (n : Z) : M kx Z :=
  i <- myproc ;;
  p <- get_proc i ;;
  let sz := p_sz p in
  r <- (if 0 <? n then
          r <- liftm (allocuvm kend (p_pgdir p) sz (u32 (sz + n))) ;; ret (if r =? 0 then None else Some r)
        else if n <? 0 then
          r <- liftm (deallocuvm kend (p_pgdir p) sz (u32 (sz + n))) ;; ret (if r =? 0 then None else Some r)
        else ret (Some sz)) ;;
  match r with
  | None => ret (-1)
  | Some sz =>
      upd_proc i (fun p => set_p_mem sz (p_pgdir p) p) ;;
      switchuvm i ;;
      ret 0
  end.

(** proc.c [exit] from the acquisition of the lock to the switch. *)
Definition adopt (me : nat) (i : nat) : M kx unit :=
  p <- get_proc i ;;
  when (bool_decide (p_parent p = Some me))
    (init <- gets initproc ;;
     upd_proc i (set_p_parent init) ;;
     when (is_state ZOMBIE p)
       (match init with Some j => wakeup1 (ChProc j) | None => ret tt end)).
Definition exit_locked : M kx unit :=
  acquire_ptable ;;
  me <- myproc ;;
  p <- get_proc me ;;
  match p_parent p with Some j => wakeup1 (ChProc j) | None => ret tt end ;;
  for_each (seq 0 NPROC) (adopt me) ;;
  upd_proc me (set_p_state ZOMBIE) ;;
  sched.

(** proc.c [wait]: the body of its loop, which a process woken up runs again. *)
Definition child_of (me : nat) (p : proc) : bool := bool_decide (p_parent p = Some me).
Definition reap (i : nat) : M kx Z :=
  p <- get_proc i ;;
  let pid := p_pid p in
  liftm (kfree kend (p_kstack p)) ;;
  upd_proc i (fun p => set_p_stack 0 (p_tf p) (p_context p) p) ;;
  liftm (freevm kend (p_pgdir p)) ;;
  upd_proc i (set_p_state UNUSED) ;;
  upd_proc i (set_p_pid 0) ;;
  upd_proc i (set_p_parent None) ;;
  upd_proc i (fun p => set_p_name (<[0%nat := 0]> (p_name p)) p) ;;
  upd_proc i (set_p_killed 0) ;;
  release_ptable ;;
  ret pid.
Definition wait_loop : M kx Z :=
  me <- myproc ;;
  l <- gets procs ;;
  match first_idx (fun p => child_of me p && is_state ZOMBIE p) l with
  | Some i => reap i
  | None =>
      let havekids := existsb (child_of me) l in
      p <- get_proc me ;;
      if negb havekids || negb (p_killed p =? 0) then release_ptable ;; ret (-1)
      else sleep (ChProc me) None
  end.
Definition wait : M kx Z := acquire_ptable ;; wait_loop.
End proc.
