(* ===== verification/ProcSpec.v ===== *)
(** The process table over every interleaving of the operations of proc.c.

    Each step is a segment of kernel code between two points where the CPU can
    be given up; the rules allow more orders than the kernel has.  The invariant
    says that pids are distinct, that every process has a living parent, and
    that no process sleeps in [wait] while a child of it is a zombie. *)

From S2P Require Import Prelude Params CString Mmu Kalloc Vm BlockDev Bio Log Fs Kernel Proc.

(** Cases on a lookup in a table with one entry changed. *)
Ltac at_entry H k i := destruct (decide (k = i)) as [->|?];
  [rewrite list_lookup_insert_eq in H by (by eapply lookup_lt_Some); injection H as <-
  |rewrite list_lookup_insert_ne in H by done].

Section steps.
Context (kend trapret forkret : Z).

(** The fields the table's operations are about. *)
Definition core (p : proc) : procstate * Z * option nat * option chan := (p_state p, p_pid p, p_parent p, p_chan p).

(** Not a call from [wait]. *)
Definition other_chan (c : chan) : Prop := match c with ChProc _ => False | _ => True end.

(** The process that has just been switched to holds the table's lock. *)
Definition resumed (s : kx) : Prop :=
  exists i p, cur s = Some i /\ pt_lock s = true /\ procs s !! i = Some p /\ p_state p = RUNNING.
Definition switched_out (i : nat) (s : kx) : Prop :=
  exists p, cur s = Some i /\ pt_lock s = true /\ procs s !! i = Some p /\ p_state p <> RUNNING.

Inductive pstep (s : kx) : kx -> Prop :=
| ps_pass r s' : cur s = None -> scheduler_pass s = Ret r s' -> pstep s s'
| ps_back i r s' : switched_out i s -> scheduler_back i s = Ret r s' -> pstep s s'
| ps_resume s' : resumed s -> yield_end s = Ret tt s' -> pstep s s'
| ps_wake_up s' : resumed s -> sleep_end (Some (ret tt)) s = Ret tt s' -> pstep s s'
| ps_wait_more r s' : resumed s -> (sleep_end None ;; wait_loop kend) s = Ret r s' -> pstep s s'
| ps_wait_again c s' : resumed s -> (sleep_end None ;; wait_loop kend) s = Sleep c s' -> pstep s s'
| ps_wait r s' : cur s <> None -> wait kend s = Ret r s' -> pstep s s'
| ps_wait_sleep c s' : cur s <> None -> wait kend s = Sleep c s' -> pstep s s'
| ps_yield s' : cur s <> None -> yield_start s = Ret tt s' -> pstep s s'
| ps_sleep c s' : other_chan c -> pt_lock s = false -> sleep_start c (Some (ret tt)) s = Ret tt s' -> pstep s s'
| ps_wakeup c s' : wakeup c s = Ret tt s' -> pstep s s'
| ps_kill pid r s' : kill pid s = Ret r s' -> pstep s s'
| ps_exit s' : cur s <> initproc s -> exit_locked s = Ret tt s' -> pstep s s'
| ps_alloc r s' : nextpid s < 2 ^ 31 - 1 -> pt_lock s = false -> allocproc trapret forkret s = Ret r s' -> pstep s s'
| ps_fill np p s' : pt_lock s = false -> procs s !! np = Some p -> p_state p = EMBRYO ->
    fork_fill np s = Ret tt s' -> pstep s s'
| ps_run np p s' : procs s !! np = Some p -> p_state p = EMBRYO -> p_parent p <> None ->
    fork_run np s = Ret tt s' -> pstep s s'
| ps_abort np p s' : procs s !! np = Some p -> p_state p = EMBRYO -> p_parent p = None ->
    fork_abort kend np s = Ret tt s' -> pstep s s'
| ps_other s' : core <$> procs s' = core <$> procs s -> initproc s' = initproc s -> nextpid s' = nextpid s ->
    cur s' = cur s -> pt_lock s' = pt_lock s -> pstep s s'.

(** After [userinit]. *)
Definition booted (s : kx) : Prop :=
  exists p, procs s = p :: replicate (NPROC - 1) zero_proc /\ p_state p = RUNNABLE /\ p_pid p = 1 /\
    p_parent p = None /\ initproc s = Some 0%nat /\ nextpid s = 2 /\ cur s = None /\ pt_lock s = false.

Inductive preach (s0 : kx) : kx -> Prop :=
| pr_refl : preach s0 s0
| pr_step s s' : preach s0 s -> pstep s s' -> preach s0 s'.

(** ** The invariant *)

Definition alive (x : procstate) : Prop := x = SLEEPING \/ x = RUNNABLE \/ x = RUNNING.

Record tab_ok (l : list proc) (init : nat) (next : Z) : Prop := {
  to_len : length l = NPROC;
  to_init : exists p, l !! init = Some p /\ alive (p_state p);
  to_pid : forall i p, l !! i = Some p -> p_state p <> UNUSED -> 1 <= p_pid p < next;
  to_pids : forall i j p q, l !! i = Some p -> l !! j = Some q -> p_state p <> UNUSED -> p_state q <> UNUSED ->
    p_pid p = p_pid q -> i = j;
  to_parent : forall i p j, l !! i = Some p -> p_parent p = Some j -> exists q, l !! j = Some q /\ alive (p_state q);
  to_unused : forall i p, l !! i = Some p -> p_state p = UNUSED -> p_parent p = None;
  to_child : forall i p, l !! i = Some p -> p_state p <> UNUSED -> p_state p <> EMBRYO -> i <> init -> p_parent p <> None;
  to_root : forall p, l !! init = Some p -> p_parent p = None;
  to_noself : forall i p, l !! i = Some p -> p_parent p <> Some i;
  to_self : forall i p j, l !! i = Some p -> p_state p = SLEEPING -> p_chan p = Some (ChProc j) -> i = j;
  to_wait : forall i p k z, l !! i = Some p -> p_state p = SLEEPING -> p_chan p = Some (ChProc i) ->
    l !! k = Some z -> p_state z = ZOMBIE -> p_parent z <> Some i
}.

Record pinv (s : kx) : Prop := {
  pv_tab : exists i0, initproc s = Some i0 /\ tab_ok (procs s) i0 (nextpid s);
  pv_next : nextpid s < 2 ^ 31;
  pv_run : forall i p, procs s !! i = Some p -> p_state p = RUNNING -> cur s = Some i;
  pv_cur : forall i, cur s = Some i -> pt_lock s = false -> exists p, procs s !! i = Some p /\ p_state p = RUNNING;
  pv_here : forall i, cur s = Some i -> exists p, procs s !! i = Some p /\ p_state p <> UNUSED /\ p_state p <> EMBRYO
}.

(** ** The table under one change *)

Lemma core_eq p q : core p = core q -> p_state p = p_state q /\ p_pid p = p_pid q /\ p_parent p = p_parent q /\ p_chan p = p_chan q.
Proof. unfold core. by intros [= ? ? ? ?]. Qed.

Lemma alive_live x : alive x -> x <> UNUSED /\ x <> EMBRYO /\ x <> ZOMBIE.
Proof. by intros [-> | [-> | ->]]. Qed.

(** States change within the living ones, and whoever falls asleep does so on
    its own channel only if none of its children is a zombie. *)
Definition same_kin (l : list proc) (k : nat) (p p' : proc) : Prop :=
  p_pid p' = p_pid p /\ p_parent p' = p_parent p /\
  (p_state p' = p_state p \/ alive (p_state p) /\ alive (p_state p')) /\
  (p_state p' = SLEEPING -> p_state p = SLEEPING /\ p_chan p' = p_chan p \/
     forall j, p_chan p' = Some (ChProc j) -> j = k /\
       forall m z, l !! m = Some z -> p_state z = ZOMBIE -> p_parent z <> Some k).

Lemma same_kin_state l k p p' x : same_kin l k p p' -> ~ alive x -> p_state p' = x <-> p_state p = x.
Proof.
  intros (_ & _ & [E | [H1 H2]] & _) Hx; [by rewrite E|]. split; intros <-; by destruct Hx.
Qed.

Lemma tab_ok_states l l' init next : tab_ok l init next -> length l' = length l ->
  (forall k p', l' !! k = Some p' -> exists p, l !! k = Some p /\ same_kin l k p p') -> tab_ok l' init next.
Proof.
  intros T Hlen Hk.
  assert (forall k p, l !! k = Some p -> exists p', l' !! k = Some p' /\ same_kin l k p p') as Hk'.
  { intros k p Hp. destruct (lookup_lt_is_Some_2 l' k) as [p' Hp'].
    { rewrite Hlen. by eapply lookup_lt_Some. }
    destruct (Hk k p' Hp') as (q & Hq & Hs). simplify_eq. eauto. }
  assert (~ alive UNUSED) as NU by (by intros [?|[?|?]]). assert (~ alive EMBRYO) as NE by (by intros [?|[?|?]]).
  assert (~ alive ZOMBIE) as NZ by (by intros [?|[?|?]]).
  assert (forall j q, l !! j = Some q -> alive (p_state q) -> exists q', l' !! j = Some q' /\ alive (p_state q')) as Hal.
  { intros j q Hq Ha. destruct (Hk' j q Hq) as (q' & Hq' & _ & _ & [E|[_ ?]] & _); exists q'; [by rewrite E|done]. }
  destruct T as [T1 (pi & Hpi & Hai) T3 T4 T5 T6 T7 TR TN T8 T9]. split.
  - congruence.
  - eauto.
  - intros i p' Hp' Hs. destruct (Hk i p' Hp') as (p & Hp & K). rewrite (same_kin_state _ _ _ _ _ K NU) in Hs.
    destruct K as (-> & _). eauto.
  - intros i j p' q' Hp' Hq' Hs Ht Hpq. destruct (Hk i p' Hp') as (p & Hp & K). destruct (Hk j q' Hq') as (q & Hq & K2).
    rewrite (same_kin_state _ _ _ _ _ K NU) in Hs. rewrite (same_kin_state _ _ _ _ _ K2 NU) in Ht.
    destruct K as (E1 & _), K2 as (E2 & _). rewrite E1, E2 in Hpq. eauto.
  - intros i p' j Hp' Hj. destruct (Hk i p' Hp') as (p & Hp & _ & E & _). rewrite E in Hj.
    destruct (T5 i p j Hp Hj) as (q & Hq & Ha). eauto.
  - intros i p' Hp' Hs. destruct (Hk i p' Hp') as (p & Hp & K). rewrite (same_kin_state _ _ _ _ _ K NU) in Hs.
    destruct K as (_ & -> & _). eauto.
  - intros i p' Hp' Hs He Hi. destruct (Hk i p' Hp') as (p & Hp & K). rewrite (same_kin_state _ _ _ _ _ K NU) in Hs.
    rewrite (same_kin_state _ _ _ _ _ K NE) in He. destruct K as (_ & -> & _). eauto.
  - intros p' Hp'. destruct (Hk init p' Hp') as (p & Hp & _ & -> & _). eauto.
  - intros i p' Hp'. destruct (Hk i p' Hp') as (p & Hp & _ & -> & _). eauto.
  - intros i p' j Hp' Hs Hc. destruct (Hk i p' Hp') as (p & Hp & _ & _ & _ & K). destruct (K Hs) as [[E1 E2]|K'].
    + rewrite E2 in Hc. eauto.
    + by destruct (K' j Hc) as [-> _].
  - intros i p' k z' Hp' Hs Hc Hz' Hzs. destruct (Hk k z' Hz') as (z & Hz & K2). rewrite (same_kin_state _ _ _ _ _ K2 NZ) in Hzs.
    destruct K2 as (_ & -> & _). destruct (Hk i p' Hp') as (p & Hp & _ & _ & _ & K). destruct (K Hs) as [[E1 E2]|K'].
    + rewrite E2 in Hc. eauto.
    + destruct (K' i Hc) as [_ Hno]. eauto.
Qed.

(** The same, for a change of one entry. *)
Lemma tab_ok_upd l i p p' init next : tab_ok l init next -> l !! i = Some p -> same_kin l i p p' ->
  tab_ok (<[i := p']> l) init next.
Proof.
  intros T Hp K. apply (tab_ok_states l); [done|by rewrite length_insert|]. intros k q Hq.
  destruct (decide (k = i)) as [->|Hne].
  - rewrite list_lookup_insert_eq in Hq by (by eapply lookup_lt_Some). simplify_eq. eauto.
  - rewrite list_lookup_insert_ne in Hq by done. exists q. split; [done|]. split_and!; auto.
Qed.

(** An entry that is not a living process becomes another one, or a new one. *)
Record new_entry (l : list proc) (p p' : proc) (next next' : Z) : Prop := {
  ne_next : next <= next';
  ne_pid : p_state p' <> UNUSED -> 1 <= p_pid p' < next' /\ (p_state p <> UNUSED /\ p_pid p' = p_pid p \/ next <= p_pid p');
  ne_parent : forall j, p_parent p' = Some j -> exists q, l !! j = Some q /\ alive (p_state q);
  ne_unused : p_state p' = UNUSED -> p_parent p' = None;
  ne_child : p_state p' = UNUSED \/ p_state p' = EMBRYO \/ p_parent p' <> None;
  ne_state : p_state p' <> SLEEPING /\ p_state p' <> ZOMBIE
}.

Lemma tab_ok_entry l i p p' init next next' : tab_ok l init next -> l !! i = Some p -> ~ alive (p_state p) ->
  new_entry l p p' next next' -> tab_ok (<[i := p']> l) init next'.
Proof.
  intros T Hp Hna [N1 N2 N3 N4 N5 [N6 N7]].
  assert (forall j q, l !! j = Some q -> alive (p_state q) -> <[i := p']> l !! j = Some q) as Hal.
  { intros j q Hq Ha. rewrite list_lookup_insert_ne; [done|]. intros ->. simplify_eq. }
  destruct T as [T1 (pi & Hpi & Hai) T3 T4 T5 T6 T7 TR TN T8 T9]. split.
  - by rewrite length_insert.
  - eauto.
  - intros k q Hq Hs. at_entry Hq k i; [by apply N2|]. destruct (T3 k q Hq Hs). lia.
  - assert (forall k q, l !! k = Some q -> k <> i -> p_state q <> UNUSED -> p_state p' <> UNUSED -> p_pid q <> p_pid p') as Hd.
    { intros k q Hq Hk Hs Ht E. destruct (N2 Ht) as [_ [[Hu E2]|Hge]].
      - apply Hk. apply (T4 k i q p); congruence.
      - destruct (T3 k q Hq Hs). lia. }
    intros j k q r Hq Hr Hs Ht E. at_entry Hq j i; at_entry Hr k i; [done| | |by eapply T4].
    + by edestruct (Hd k r).
    + by edestruct (Hd j q).
  - intros k q j Hq Hj. at_entry Hq k i.
    + destruct (N3 j Hj) as (r & Hr & Ha). eauto.
    + destruct (T5 k q j Hq Hj) as (r & Hr & Ha). eauto.
  - intros k q Hq Hs. at_entry Hq k i; eauto.
  - intros k q Hq Hs He Hk. at_entry Hq k i; [|eauto]. by destruct N5 as [?|[?|?]].
  - intros q Hq. at_entry Hq init i; [|eauto]. by simplify_eq.
  - intros k q Hq. at_entry Hq k i; [|eauto]. intros Hs. destruct (N3 i Hs) as (r & Hr & Ha). by simplify_eq.
  - intros k q j Hq Hs Hc. at_entry Hq k i; [done|eauto].
  - intros k q m z Hq Hs Hc Hz Hzs. at_entry Hq k i; [done|]. at_entry Hz m i; [done|eauto].
Qed.

(** ** Exit *)

(** What the loop over the children has done after the first [n] entries: only
    parents changed, and processes woken up; and nobody sleeps on the channel of
    [init] if it got a zombie. *)
Definition adopted_at (me init n : nat) (l l' : list proc) : Prop :=
  length l' = length l /\
  forall k p', l' !! k = Some p' -> exists p, l !! k = Some p /\ p_pid p' = p_pid p /\ p_chan p' = p_chan p /\
    p_parent p' = (if bool_decide (k < n)%nat && bool_decide (p_parent p = Some me) then Some init else p_parent p) /\
    (p_state p' = p_state p \/ p_state p = SLEEPING /\ p_state p' = RUNNABLE).
Definition no_sleeper (c : chan) (l : list proc) : Prop :=
  forall i p, l !! i = Some p -> p_state p = SLEEPING -> p_chan p <> Some c.
Definition adopted (me init n : nat) (l l' : list proc) : Prop :=
  adopted_at me init n l l' /\
  forall k z, (k < n)%nat -> l !! k = Some z -> p_state z = ZOMBIE -> p_parent z = Some me -> no_sleeper (ChProc init) l'.

(** The body of the loop, on the table. *)
Definition adopt1 (me init n : nat) (l : list proc) : list proc :=
  let p := l !!! n in
  if bool_decide (p_parent p = Some me) then
    let l1 := <[n := set_p_parent (Some init) p]> l in
    if is_state ZOMBIE p then wake1 (ChProc init) <$> l1 else l1
  else l.

Lemma wake1_state c p : p_pid (wake1 c p) = p_pid p /\ p_chan (wake1 c p) = p_chan p /\ p_parent (wake1 c p) = p_parent p /\
  (p_state (wake1 c p) = p_state p /\ (p_state p = SLEEPING -> p_chan p <> Some c) \/ p_state p = SLEEPING /\ p_state (wake1 c p) = RUNNABLE).
Proof.
  unfold wake1, is_state. destruct (bool_decide_reflect (p_state p = SLEEPING)), (bool_decide_reflect (p_chan p = Some c));
    cbn; split_and!; auto.
Qed.

Lemma wake1_same_kin l c k p : same_kin l k p (wake1 c p).
Proof.
  destruct (wake1_state c p) as (P1 & P2 & P3 & D). unfold same_kin. rewrite P1, P2, P3. destruct D as [[E _]|[E1 E2]].
  - rewrite E. split_and!; auto.
  - rewrite E1, E2. split_and!; [done|done| |done]. right. split; [by left|by right; left].
Qed.

Lemma tab_ok_wake l c init next : tab_ok l init next -> tab_ok (wake1 c <$> l) init next.
Proof.
  intros T. apply (tab_ok_states l); [done|by rewrite length_fmap|]. intros k p' Hp'.
  apply list_lookup_fmap_Some in Hp' as (p & -> & Hp). exists p. split; [done|]. apply wake1_same_kin.
Qed.

Lemma no_sleeper_wake c l : no_sleeper c (wake1 c <$> l).
Proof.
  intros i p' Hp' Hs. apply list_lookup_fmap_Some in Hp' as (p & -> & Hp).
  destruct (wake1_state c p) as (_ & -> & _ & [[E H]|[_ E]]); [rewrite E in Hs; auto|congruence].
Qed.

Lemma no_sleeper_same c l i p p' : no_sleeper c l -> l !! i = Some p -> p_state p' = p_state p -> p_chan p' = p_chan p ->
  no_sleeper c (<[i := p']> l).
Proof. intros H Hp E1 E2 k q Hq Hs. at_entry Hq k i; [|by eapply H]. rewrite E2. eapply H; [done|congruence]. Qed.

Lemma adopted_at_wake me init n l l' c : adopted_at me init n l l' -> adopted_at me init n l (wake1 c <$> l').
Proof.
  intros [A1 A2]. split; [by rewrite length_fmap|]. intros k p' Hk.
  apply list_lookup_fmap_Some in Hk as (q & -> & Hq). destruct (A2 k q Hq) as (p & Hp & B1 & B2 & B3 & B4).
  exists p. destruct (wake1_state c q) as (E1 & E2 & E3 & E4). rewrite E1, E2, E3. split_and!; [done..|].
  destruct E4 as [[-> _]|[E4 ->]]; [done|]. right. split; [|done]. destruct B4 as [E|[E _]]; congruence.
Qed.

Lemma adopted_at_next me init n l l' p : adopted_at me init n l l' -> l' !! n = Some p -> p_parent p <> Some me ->
  adopted_at me init (S n) l l'.
Proof.
  intros [A1 A2] Hp Hm. split; [done|]. intros k p' Hk. destruct (A2 k p' Hk) as (q & Hq & B1 & B2 & B3 & B4).
  exists q. split_and!; try done. destruct (decide (k = n)) as [->|Hne].
  - rewrite bool_decide_false in B3 by lia. simplify_eq. cbn in B3. rewrite B3 in Hm |- *.
    by rewrite (bool_decide_false (p_parent q = Some me)), andb_false_r.
  - by rewrite (bool_decide_ext (k < S n)%nat (k < n)%nat) by lia.
Qed.

Lemma adopted_at_take me init n l l' p : adopted_at me init n l l' -> l' !! n = Some p -> p_parent p = Some me ->
  adopted_at me init (S n) l (<[n := set_p_parent (Some init) p]> l').
Proof.
  intros [A1 A2] Hp Hm. split; [by rewrite length_insert|]. intros k p' Hk. at_entry Hk k n.
  - destruct (A2 n p Hp) as (q & Hq & B1 & B2 & B3 & B4). exists q. split_and!; try done.
    rewrite bool_decide_false in B3 by lia. cbn in B3. rewrite bool_decide_true by lia.
    rewrite bool_decide_true by congruence. done.
  - destruct (A2 k p' Hk) as (q & Hq & B1 & B2 & B3 & B4). exists q. split_and!; try done.
    by rewrite (bool_decide_ext (k < S n)%nat (k < n)%nat) by lia.
Qed.

Lemma adopted_step me init n l l' : adopted me init n l l' -> (n < length l)%nat -> adopted me init (S n) l (adopt1 me init n l').
Proof.
  intros [A W] Hn. destruct (lookup_lt_is_Some_2 l' n) as [p Hp]; [by rewrite (proj1 A)|].
  destruct (proj2 A n p Hp) as (q & Hq & _ & _ & B3 & B4). rewrite bool_decide_false in B3 by lia. cbn in B3.
  unfold adopt1. rewrite (list_lookup_total_correct _ _ _ Hp).
  destruct (bool_decide_reflect (p_parent p = Some me)) as [Hm|Hm].
  - pose proof (adopted_at_take _ _ _ _ _ _ A Hp Hm) as A'. unfold is_state.
    destruct (bool_decide_reflect (p_state p = ZOMBIE)) as [Hz|Hz].
    + split; [by apply adopted_at_wake|]. intros. apply no_sleeper_wake.
    + split; [done|]. intros k z Hk Hz' Hs Hpar. destruct (decide (k = n)) as [->|Hne].
      * exfalso. simplify_eq. destruct B4 as [E|[E _]]; congruence.
      * eapply no_sleeper_same; [eapply (W k z); try done; lia|done|done|done].
  - split; [by eapply adopted_at_next|]. intros k z Hk Hz Hs Hpar. destruct (decide (k = n)) as [->|Hne].
    + exfalso. simplify_eq. congruence.
    + eapply (W k z); try done. lia.
Qed.

Lemma adopt_eq me init n s : initproc s = Some init -> adopt me n s = Ret tt (set_procs (adopt1 me init n (procs s)) s).
Proof.
  intros Hi. unfold adopt, adopt1, bind, get_proc, gets, upd_proc, modify, wakeup1. 
  destruct (bool_decide _); cbn; [|by destruct s]. rewrite Hi. destruct (is_state ZOMBIE _); cbn; done.
Qed.

Lemma adopt_loop me init l : forall n k s, initproc s = Some init -> (k + n <= length l)%nat -> adopted me init k l (procs s) ->
  exists l', for_each (seq k n) (adopt me) s = Ret tt (set_procs l' s) /\ adopted me init (k + n) l l'.
Proof.
  induction n as [|n IH]; intros k s Hi Hk A; cbn [seq for_each].
  - exists (procs s). rewrite Nat.add_0_r. by destruct s.
  - unfold bind. rewrite (adopt_eq me init) by done.
    destruct (IH (S k) (set_procs (adopt1 me init k (procs s)) s)) as (l' & E & A'); [done|lia| |].
    + cbn. apply adopted_step; [done|lia].
    + exists l'. rewrite Nat.add_succ_r. by rewrite E.
Qed.

(** The whole of [exit]'s change of the table. *)
Section exit_table.
Context (l1 l2 : list proc) (me init : nat) (next : Z) (p q : proc) (j : nat).
Context (T : tab_ok l1 init next) (Hp : l1 !! me = Some p) (Hal : alive (p_state p)) (Hne : me <> init)
  (Hj : p_parent p = Some j) (Hno : no_sleeper (ChProc j) l1) (A : adopted me init NPROC l1 l2) (Hq : l2 !! me = Some q).
Abbreviation L := (<[me := set_p_state ZOMBIE q]> l2).

(** Where an entry of the new table comes from. *)
Lemma exit_from k x : L !! k = Some x -> exists r, l1 !! k = Some r /\ p_pid x = p_pid r /\ p_chan x = p_chan r /\
  p_parent x = (if bool_decide (p_parent r = Some me) then Some init else p_parent r) /\
  (k = me /\ p_state x = ZOMBIE \/ k <> me /\ l2 !! k = Some x /\
    (p_state x = p_state r \/ p_state r = SLEEPING /\ p_state x = RUNNABLE)).
Proof.
  destruct A as [[A1 A2] _]. pose proof (to_len _ _ _ T) as Hlen. intros Hx.
  at_entry Hx k me.
  - destruct (A2 me q Hq) as (r & Hr & B1 & B2 & B3 & B4). exists r.
    rewrite bool_decide_true in B3 by (rewrite <- Hlen; by eapply lookup_lt_Some). split_and!; try done. by left.
  - destruct (A2 k x Hx) as (r & Hr & B1 & B2 & B3 & B4). exists r.
    rewrite bool_decide_true in B3 by (rewrite <- Hlen; by eapply lookup_lt_Some). split_and!; try done. by right.
Qed.

Lemma exit_alive k r : l1 !! k = Some r -> alive (p_state r) -> k <> me -> exists x, L !! k = Some x /\ alive (p_state x).
Proof.
  intros Hr Ha Hk. destruct (lookup_lt_is_Some_2 L k) as [x Hx].
  { rewrite length_insert, (proj1 (proj1 A)). by eapply lookup_lt_Some. }
  exists x. split; [done|]. destruct (exit_from k x Hx) as (r' & Hr' & _ & _ & _ & [[? _]|(_ & _ & D)]); [done|].
  simplify_eq. destruct D as [->|[_ ->]]; [done|by right; left].
Qed.

Lemma exit_state k x r y : L !! k = Some x -> l1 !! k = Some r -> p_state r = y -> y = UNUSED \/ y = EMBRYO -> p_state x = y.
Proof.
  intros Hx Hr <- Hy. destruct (exit_from k x Hx) as (r' & Hr' & _ & _ & _ & D). simplify_eq.
  destruct D as [[-> _]|(_ & _ & [?|[E _]])]; [|done|destruct Hy; congruence].
  simplify_eq. destruct (alive_live _ Hal) as (? & ? & _). by destruct Hy.
Qed.

Lemma exit_asleep k x r : L !! k = Some x -> l1 !! k = Some r -> p_state x = SLEEPING -> p_state r = SLEEPING /\ p_chan x = p_chan r /\ l2 !! k = Some x.
Proof.
  intros Hx Hr Hs. destruct (exit_from k x Hx) as (r' & Hr' & _ & E & _ & D). simplify_eq.
  destruct D as [[_ ?]|(_ & ? & [?|[_ ?]])]; [congruence|split_and!; congruence|congruence].
Qed.

Lemma exit_wait i x k z : L !! i = Some x -> p_state x = SLEEPING -> p_chan x = Some (ChProc i) ->
  L !! k = Some z -> p_state z = ZOMBIE -> p_parent z <> Some i.
Proof.
  intros Hx Hs Hc Hz Hzs. destruct (exit_from i x Hx) as (r & Hr & _). destruct (exit_asleep i x r Hx Hr Hs) as (Hrs & Hrc & Hx2).
  rewrite Hrc in Hc. destruct (exit_from k z Hz) as (rz & Hrz & _ & _ & E & D). rewrite E. destruct D as [[-> _]|(Hk & _ & D)].
  - simplify_eq. rewrite Hj, bool_decide_false.
    + intros [= E2]. apply (Hno i r Hr Hrs). congruence.
    + intros [= E2]. apply (to_noself _ _ _ T me p Hp). congruence.
  - destruct D as [D|[_ ?]]; [|congruence]. rewrite Hzs in D. symmetry in D. case_bool_decide as Hm.
    + intros [= ->]. assert (k < NPROC)%nat as Hlt by (rewrite <- (to_len _ _ _ T); by eapply lookup_lt_Some).
      apply (proj2 A k rz Hlt Hrz D Hm i x Hx2 Hs). congruence.
    + by eapply (to_wait _ _ _ T).
Qed.

Lemma tab_ok_exit : tab_ok L init next.
Proof.
  assert (exists x, L !! init = Some x /\ alive (p_state x)) as Hi.
  { destruct (to_init _ _ _ T) as (r & Hr & Ha). eapply exit_alive; eauto. }
  assert (forall k x r, L !! k = Some x -> l1 !! k = Some r -> p_state x <> UNUSED -> p_state r <> UNUSED) as HU.
  { intros k x r Hx Hr Hs Hr'. by destruct Hs; eapply exit_state; eauto. }
  split.
  - rewrite length_insert, (proj1 (proj1 A)). apply T.
  - done.
  - intros k x Hx Hs. destruct (exit_from k x Hx) as (r & Hr & -> & _). eapply (to_pid _ _ _ T); eauto.
  - intros i k x y Hx Hy Hs Ht. destruct (exit_from i x Hx) as (r & Hr & -> & _). destruct (exit_from k y Hy) as (u & Hu & -> & _).
    eapply (to_pids _ _ _ T); eauto.
  - intros k x m Hx Hm. destruct (exit_from k x Hx) as (r & Hr & _ & _ & E & _). rewrite E in Hm. case_bool_decide as Hme; [by simplify_eq|].
    destruct (to_parent _ _ _ T k r m Hr Hm) as (u & Hu & Ha). eapply exit_alive; [done..|]. intros ->. by apply Hme.
  - intros k x Hx Hs. destruct (exit_from k x Hx) as (r & Hr & _ & _ & E & D). rewrite E.
    assert (p_state r = UNUSED) as Hru by (destruct D as [[_ ?]|(_ & _ & [?|[_ ?]])]; congruence).
    by rewrite (to_unused _ _ _ T k r Hr Hru).
  - intros k x Hx Hs He Hk. destruct (exit_from k x Hx) as (r & Hr & _ & _ & E & _). rewrite E. case_bool_decide; [done|].
    eapply (to_child _ _ _ T); [done| | |done]; intros Hr'; [apply Hs|apply He]; eapply exit_state; eauto.
  - intros x Hx. destruct (exit_from init x Hx) as (r & Hr & _ & _ & -> & _). by rewrite (to_root _ _ _ T r Hr).
  - intros k x Hx. destruct (exit_from k x Hx) as (r & Hr & _ & _ & -> & _). case_bool_decide as Hme.
    + intros [= ->]. rewrite (to_root _ _ _ T r Hr) in Hme. done.
    + by eapply (to_noself _ _ _ T).
  - intros k x m Hx Hs Hc. destruct (exit_from k x Hx) as (r & Hr & _). destruct (exit_asleep k x r Hx Hr Hs) as (Hrs & E & _).
    rewrite E in Hc. by eapply (to_self _ _ _ T).
  - intros. by eapply exit_wait.
Qed.
End exit_table.
End steps.
