(* ===== verification/ProcInv.v ===== *)
(** The process table's invariant holds in every reachable state: one lemma for
    each segment of proc.c, and the scheduler's fairness. *)

From S2P Require Import Prelude Params CString Mmu Kalloc Vm BlockDev Bio Log Fs Kernel Proc ProcSpec.

(** ** Runs *)

Lemma bind_ret {S A B} (m : M S A) (k : A -> M S B) s b s' : bind m k s = Ret b s' ->
  exists a s1, m s = Ret a s1 /\ k a s1 = Ret b s'.
Proof. unfold bind. destruct (m s); try done. eauto. Qed.

Lemma liftm_ret {A} (m : M kst A) s a s' : liftm m s = Ret a s' -> exists x, s' = set_km x s.
Proof. unfold liftm, zoom. destruct (m (km s)); intros [= ? <-]; eauto. Qed.

Lemma acquire_ret s s' : acquire_ptable s = Ret tt s' -> pt_lock s = false /\ s' = set_pt_lock true s.
Proof. unfold acquire_ptable, acquire, bind, gets. destruct (pt_lock s); cbn; [done|]. by intros [= <-]. Qed.
Lemma release_ret s s' : release_ptable s = Ret tt s' -> pt_lock s = true /\ s' = set_pt_lock false s.
Proof. unfold release_ptable, release, bind, gets. destruct (pt_lock s); cbn; [|done]. by intros [= <-]. Qed.

Lemma myproc_ret s i s' : myproc s = Ret i s' -> cur s = Some i /\ s' = s.
Proof. unfold myproc, bind, gets. destruct (cur s); [|done]. by intros [= <- <-]. Qed.

Lemma sched_ret s s' : sched s = Ret tt s' -> s' = s /\ pt_lock s = true.
Proof.
  unfold sched, bind, gets. destruct (pt_lock s); cbn; [|done]. destruct (other_locks s); [done|].
  unfold myproc, bind, gets. destruct (cur s); [|done]. cbn. unfold get_proc, gets. destruct (is_state RUNNING _); [done|]. by intros [= <-].
Qed.

Lemma insert_twice (l : list proc) i (f g : proc -> proc) :
  <[i := g (<[i := f (l !!! i)]> l !!! i)]> (<[i := f (l !!! i)]> l) = <[i := g (f (l !!! i))]> l.
Proof.
  destruct (decide (i < length l)%nat) as [Hi|Hi].
  - by rewrite list_lookup_total_insert_eq, list_insert_insert_eq by done.
  - by rewrite !list_insert_ge by (rewrite ?list_insert_ge; lia).
Qed.

(** Two updates of one entry are one update. *)
Lemma upd_upd i f g s : (upd_proc i f ;; upd_proc i g) s = upd_proc i (fun p => g (f p)) s.
Proof. unfold upd_proc, bind, modify. cbn. by rewrite insert_twice. Qed.

(** ** Code that does not sleep *)

Definition nosleep {S A} (m : M S A) : Prop := forall s c s', m s <> Sleep c s'.

Lemma nosleep_ret {S A} (a : A) : nosleep (ret (S := S) a). Proof. done. Qed.
Lemma nosleep_panic {S A} msg : nosleep (panic (S := S) (A := A) msg). Proof. done. Qed.
Lemma nosleep_fault {S A} msg : nosleep (fault (S := S) (A := A) msg). Proof. done. Qed.
Lemma nosleep_gets {S A} (f : S -> A) : nosleep (gets f). Proof. done. Qed.
Lemma nosleep_modify {S} (f : S -> S) : nosleep (modify f). Proof. done. Qed.
Lemma nosleep_bind {S A B} (m : M S A) (k : A -> M S B) : nosleep m -> (forall a, nosleep (k a)) -> nosleep (bind m k).
Proof. intros H1 H2 s c s'. unfold bind. destruct (m s) eqn:E; try done; [by apply H2|]. by destruct (H1 s c0 s0). Qed.
Lemma nosleep_when {S} b (m : M S unit) : nosleep m -> nosleep (when b m).
Proof. by destruct b. Qed.
Lemma nosleep_if {S A} (b : bool) (m1 m2 : M S A) : nosleep m1 -> nosleep m2 -> nosleep (if b then m1 else m2).
Proof. by destruct b. Qed.
Lemma nosleep_for_each {S X} (l : list X) (f : X -> M S unit) : (forall x, nosleep (f x)) -> nosleep (for_each l f).
Proof. intros H. induction l; cbn; [done|]. by apply nosleep_bind. Qed.
Lemma nosleep_liftm {A} (m : M kst A) : nosleep m -> nosleep (liftm m).
Proof. intros H s c s'. unfold liftm, zoom. destruct (m (km s)) eqn:E; try done. by destruct (H (km s) c0 s0). Qed.

Create HintDb nosleep.
#[export] Hint Resolve nosleep_ret nosleep_panic nosleep_fault nosleep_gets nosleep_modify nosleep_bind nosleep_when
  nosleep_if nosleep_for_each nosleep_liftm : nosleep.

Lemma nosleep_kfree kend v : nosleep (kfree kend v).
Proof. unfold kfree, acquire_kmem, release_kmem. auto 20 with nosleep. Qed.
Lemma nosleep_kalloc : nosleep kalloc.
Proof. unfold kalloc, acquire_kmem, release_kmem. auto 20 with nosleep. Qed.
#[export] Hint Resolve nosleep_kfree nosleep_kalloc : nosleep.
Lemma nosleep_walk pgdir va alloc : nosleep (walkpgdir pgdir va alloc).
Proof. unfold walkpgdir, ld, st. auto 20 with nosleep. Qed.
#[export] Hint Resolve nosleep_walk : nosleep.
Lemma nosleep_freevm kend pgdir : nosleep (freevm kend pgdir).
Proof.
  assert (forall f a o, nosleep (deallocuvm_loop kend f pgdir a o)) as H.
  { induction f; intros; cbn [deallocuvm_loop]; unfold ld, st; auto 20 with nosleep. }
  unfold freevm, deallocuvm, ld. auto 20 with nosleep.
Qed.

Lemma nosleep_myproc : nosleep myproc.
Proof. apply nosleep_bind; [done|]. by intros []. Qed.
#[export] Hint Resolve nosleep_freevm nosleep_myproc : nosleep.
Lemma nosleep_sched : nosleep sched.
Proof. unfold sched, get_proc. auto 20 with nosleep. Qed.
Lemma nosleep_upd_proc i f : nosleep (upd_proc i f). Proof. done. Qed.
Lemma nosleep_release get put : nosleep (release get put).
Proof. unfold release. auto with nosleep. Qed.
#[export] Hint Resolve nosleep_sched nosleep_upd_proc nosleep_release : nosleep.

Lemma bind_sleep {S A B} (m : M S A) (k : A -> M S B) s c s' : bind m k s = Sleep c s' -> nosleep m ->
  exists a s1, m s = Ret a s1 /\ k a s1 = Sleep c s'.
Proof. unfold bind. destruct (m s) eqn:E; try done; [eauto|]. intros _ H. by destruct (H s c0 s0). Qed.

(** Takes a run apart into the runs of its parts. *)
Ltac run1 H :=
  let a := fresh "a" in let s1 := fresh "s" in let H1 := fresh "R" in
  apply bind_ret in H as (a & s1 & H1 & H);
  first [ apply acquire_ret in H1 as [? ->] | apply release_ret in H1 as [? ->] | apply myproc_ret in H1 as [? ->]
        | destruct a; apply acquire_ret in H1 as [? ->] | destruct a; apply release_ret in H1 as [? ->]
        | apply liftm_ret in H1 as [? ->]
        | destruct a; injection H1 as <- | injection H1 as <- <- ];
  cbn [km pt_lock procs initproc nextpid cur set_km set_pt_lock set_procs set_initproc set_nextpid set_cur] in *.

(** The same, with the updates of one entry collapsed as they come; the bound
    on the entry's index is in the context. *)
Ltac run1e H := run1 H; rewrite ?list_lookup_total_insert_eq, ?list_insert_insert_eq in H by done.

Section inv.
Context (kend trapret forkret : Z).

(** The running process is the current one, and the current one exists. *)
Definition cur_ok (s : kx) : Prop :=
  (forall i p, procs s !! i = Some p -> p_state p = RUNNING -> cur s = Some i) /\
  forall i, cur s = Some i -> exists p, procs s !! i = Some p /\ p_state p <> UNUSED /\ p_state p <> EMBRYO /\
    (pt_lock s = false -> p_state p = RUNNING).

Lemma pinv_iff s : pinv s <-> (exists i0, initproc s = Some i0 /\ tab_ok (procs s) i0 (nextpid s)) /\ nextpid s < 2 ^ 31 /\ cur_ok s.
Proof.
  split.
  - intros [P1 P2 P3 P4 P5]. split_and!; [done|done|]. split; [done|]. intros i Hi. destruct (P5 i Hi) as (p & Hp & ? & ?).
    exists p. split_and!; [done|done|done|]. intros Hl. destruct (P4 i Hi Hl) as (q & Hq & ?). by simplify_eq.
  - intros (P1 & P2 & P3 & P4). split; [done|done|done| |].
    + intros i Hi Hl. destruct (P4 i Hi) as (p & Hp & _ & _ & H). eauto.
    + intros i Hi. destruct (P4 i Hi) as (p & Hp & ? & ? & _). eauto.
Qed.

(** A change of one entry within the living states. *)
Lemma upd_inv s i p p' s' : pinv s -> procs s !! i = Some p -> same_kin (procs s) i p p' ->
  procs s' = <[i := p']> (procs s) -> initproc s' = initproc s -> nextpid s' = nextpid s -> cur_ok s' -> pinv s'.
Proof.
  rewrite !pinv_iff. intros ((i0 & Hi & T) & Hn & _) Hp K E1 E2 E3 C. split_and!; [|by rewrite E3|done].
  exists i0. rewrite E1, E2, E3. split; [done|]. by eapply tab_ok_upd.
Qed.

Lemma scan_inv from s s' r : (exists i0, initproc s = Some i0 /\ tab_ok (procs s) i0 (nextpid s)) -> nextpid s < 2 ^ 31 ->
  (forall i p, procs s !! i = Some p -> p_state p <> RUNNING) -> cur s = None -> pt_lock s = true ->
  scheduler_scan from s = Ret r s' -> pinv s'.
Proof.
  intros (i0 & Hi & T) Hn Hnr Hc Hl H. apply pinv_iff. unfold scheduler_scan in H. run1 H.
  destruct (next_runnable from (procs s)) as [i|] eqn:En.
  - unfold next_runnable in En. destruct (first_idx _ _) as [k|] eqn:Ek; [|done]. injection En as <-.
    apply first_idx_some in Ek as (p & Hp & Hs & _). rewrite lookup_drop in Hp.
    unfold is_state in Hs. apply bool_decide_eq_true in Hs. set (i := (from + k)%nat) in *. run1 H.
    apply bind_ret in H as (u & s1 & R & H). assert (s1 = set_cur (Some i) s) as ->.
    { unfold switchuvm, bind, get_proc, gets, when in R. destruct (_ =? 0); [done|]. by injection R. }
    run1 H. injection H as <- <-. unfold cur_ok. cbn. rewrite (list_lookup_total_correct _ _ _ Hp).
    assert (i < length (procs s))%nat as Hlt by (by eapply lookup_lt_Some). split_and!; [|done| |].
    + exists i0. split; [done|]. eapply tab_ok_upd; [done|done|]. unfold same_kin. cbn. split_and!; try done. right.
      rewrite Hs. split; [by right; left|by right; right].
    + intros j q Hq Hr. at_entry Hq j i; [done|]. by destruct (Hnr j q Hq).
    + intros j [= <-]. rewrite list_lookup_insert_eq by done. eexists. by split_and!.
  - run1 H. injection H as <- <-. unfold cur_ok. cbn. split_and!; [eauto|done| |].
    + intros i p Hp Hr. by destruct (Hnr i p Hp).
    + cbn. by rewrite Hc.
Qed.

(** No process runs when the CPU is in the scheduler. *)
Lemma idle_none s : pinv s -> cur s = None -> forall i p, procs s !! i = Some p -> p_state p <> RUNNING.
Proof. intros P Hc i p Hp Hr. rewrite (pv_run _ P i p Hp Hr) in Hc. done. Qed.

Lemma pass_inv s s' r : pinv s -> cur s = None -> scheduler_pass s = Ret r s' -> pinv s'.
Proof.
  intros P Hc H. unfold scheduler_pass in H. run1 H. eapply scan_inv; [..|exact H]; cbn; [apply P|apply P|by apply idle_none|done|done].
Qed.

Lemma back_inv s s' i r : pinv s -> switched_out i s -> scheduler_back i s = Ret r s' -> pinv s'.
Proof.
  intros P (p & Hc & Hl & Hp & Hs) H. unfold scheduler_back in H. run1 H.
  eapply scan_inv; [..|exact H]; cbn; [apply P|apply P| |done|done].
  intros k q Hq Hr. pose proof (pv_run _ P k q Hq Hr). simplify_eq.
Qed.

(** Releasing the lock in the process that runs. *)
Lemma unlock_inv s : pinv s -> resumed s -> pinv (set_pt_lock false s).
Proof.
  intros P (i & p & Hc & Hl & Hp & Hs). apply pinv_iff in P as (P1 & P2 & P3 & P4). apply pinv_iff.
  split_and!; [done|done|]. split; [done|]. cbn. intros j Hj. simplify_eq. exists p. split_and!; congruence.
Qed.

Lemma same_kin_chan l i p x : p_state p = RUNNING -> same_kin l i p (set_p_chan x p).
Proof. intros Hs. unfold same_kin. cbn. rewrite Hs. split_and!; auto. done. Qed.

(** [proc->chan = 0] after a sleep. *)
Lemma tidy_inv s i : pinv s -> resumed s -> cur s = Some i ->
  let s' := set_procs (<[i := set_p_chan None (procs s !!! i)]> (procs s)) s in pinv s' /\ resumed s'.
Proof.
  intros P (j & p & Hc & Hl & Hp & Hs) Hi. assert (j = i) as -> by congruence. cbn. rewrite (list_lookup_total_correct _ _ _ Hp).
  assert (i < length (procs s))%nat as Hlt by (by eapply lookup_lt_Some). split.
  - eapply upd_inv; [done|done|by apply same_kin_chan|done..|]. apply pinv_iff in P as (_ & _ & P3 & P4). split; cbn.
    + intros k q Hq Hr. at_entry Hq k i; [done|eauto].
    + intros k Hk. assert (k = i) as -> by congruence. rewrite list_lookup_insert_eq by done. eexists. split; [done|]. cbn. rewrite Hs. done.
  - exists i, (set_p_chan None p). cbn. rewrite list_lookup_insert_eq by done. done.
Qed.

Lemma wake_up_inv s s' : pinv s -> resumed s -> sleep_end (Some (ret tt)) s = Ret tt s' -> pinv s'.
Proof.
  intros P R H. unfold sleep_end in H. run1 H. destruct (tidy_inv s a P R) as [P' R']; [done|].
  run1 H. run1 H. injection H as <-. by apply unlock_inv.
Qed.

(** The current process gives up the CPU with the lock held. *)
Lemma leave_inv s i p p' : pinv s -> cur s = Some i -> pt_lock s = true -> procs s !! i = Some p -> same_kin (procs s) i p p' ->
  p_state p' = SLEEPING \/ p_state p' = RUNNABLE -> pinv (set_procs (<[i := p']> (procs s)) s).
Proof.
  intros P Hc Hl Hp K Hs. assert (i < length (procs s))%nat as Hlt by (by eapply lookup_lt_Some).
  eapply upd_inv; [done|done|done|done..|]. apply pinv_iff in P as (_ & _ & P3 & P4). split; cbn.
  - intros k q Hq Hr. at_entry Hq k i; [destruct Hs; congruence|eauto].
  - intros k Hk. assert (k = i) as -> by congruence. rewrite list_lookup_insert_eq by done. exists p'. split; [done|].
    destruct Hs as [-> | ->]; split_and!; congruence.
Qed.

(** Taking the lock in the process that runs. *)
Lemma lock_inv s i : pinv s -> cur s = Some i -> pt_lock s = false -> pinv (set_pt_lock true s) /\ resumed (set_pt_lock true s).
Proof.
  intros P Hc Hl. destruct (pv_cur _ P i Hc Hl) as (p & Hp & Hs). split; [|by exists i, p].
  apply pinv_iff in P as (P1 & P2 & P3 & P4). apply pinv_iff. split_and!; [done|done|]. split; [done|].
  intros k Hk. destruct (P4 k Hk) as (q & Hq & ? & ? & _). exists q. by split_and!.
Qed.

Lemma yield_inv s s' : pinv s -> cur s <> None -> yield_start s = Ret tt s' -> pinv s'.
Proof.
  intros P Hc H. unfold yield_start in H. run1 H. run1 H. run1 H. apply sched_ret in H as [-> _].
  destruct (lock_inv s a) as [P' (j & p & Hj & _ & Hp & Hs)]; [done..|]. cbn in Hj, Hp. assert (j = a) as -> by congruence.
  rewrite (list_lookup_total_correct _ _ _ Hp). eapply (leave_inv (set_pt_lock true s)); [done|done|done|done| |by right].
  unfold same_kin. cbn. rewrite Hs. split_and!; try done. right. split; [by right; right|by right; left].
Qed.

(** Falling asleep: on the process's own channel, only without zombie children. *)
Lemma asleep_kin l i p c : p_state p = RUNNING ->
  (forall j, c = ChProc j -> j = i /\ forall m z, l !! m = Some z -> p_state z = ZOMBIE -> p_parent z <> Some i) ->
  same_kin l i p (set_p_state SLEEPING (set_p_chan (Some c) p)).
Proof.
  intros Hs Hc. unfold same_kin. cbn. rewrite Hs. split_and!; [done|done| |].
  - right. split; [by right; right|by left].
  - intros _. right. intros j [= E]. by apply Hc.
Qed.

Lemma sleep_marks s s' i p c : pinv s -> resumed s -> cur s = Some i -> procs s !! i = Some p ->
  (forall j, c = ChProc j -> j = i /\ forall m z, procs s !! m = Some z -> p_state z = ZOMBIE -> p_parent z <> Some i) ->
  (upd_proc i (set_p_chan (Some c)) ;; upd_proc i (set_p_state SLEEPING) ;; sched) s = Ret tt s' -> pinv s'.
Proof.
  intros P (j & q & Hj & Hl & Hq & Hs) Hi Hp Hc H. assert (j = i) as -> by congruence. assert (q = p) as -> by congruence.
  run1 H. run1 H. apply sched_ret in H as [-> _].
  rewrite (insert_twice (procs s) i (set_p_chan (Some c)) (set_p_state SLEEPING)), (list_lookup_total_correct _ _ _ Hp).
  eapply (leave_inv s); [done|done|done|done|by apply asleep_kin|by left].
Qed.

Lemma sleep_inv s s' c : pinv s -> other_chan c -> pt_lock s = false -> sleep_start c (Some (ret tt)) s = Ret tt s' -> pinv s'.
Proof.
  intros P Ho Hl H. unfold sleep_start in H. run1 H. destruct (cur s) as [i|] eqn:Hc; [|done].
  apply bind_ret in H as (u & s1 & R & H). run1 R. injection R as <- <-.
  destruct (lock_inv s i) as [P' R']; [done..|]. destruct R' as (j & p & Hj & R').
  assert (j = i) as -> by (cbn in Hj; congruence).
  eapply sleep_marks; [exact P'|exists i, p; done|done|apply R'| |exact H]. intros j ->. by destruct Ho.
Qed.

(** Entries that are not alive are not the running one. *)
Lemma entry_inv s s' i p p' : pinv s -> procs s !! i = Some p -> ~ alive (p_state p) -> cur s <> Some i ->
  new_entry (procs s) p p' (nextpid s) (nextpid s') -> p_state p' <> RUNNING -> procs s' = <[i := p']> (procs s) ->
  initproc s' = initproc s -> cur s' = cur s -> nextpid s' < 2 ^ 31 -> (pt_lock s' = false -> cur s <> None -> pt_lock s = false \/ resumed s) ->
  pinv s'.
Proof.
  intros P Hp Hna Hci N Hr E1 E2 E3 Hn Hl. pose proof P as P0. apply pinv_iff in P as ((i0 & Hi & T) & _ & P3 & P4).
  apply pinv_iff. split_and!; [|done|split].
  - exists i0. rewrite E1, E2. split; [done|]. by eapply tab_ok_entry.
  - rewrite E1, E3. intros k q Hq Hs. at_entry Hq k i; [done|eauto].
  - rewrite E1, E3. intros k Hk. destruct (P4 k Hk) as (q & Hq & ? & ? & H). exists q.
    rewrite list_lookup_insert_ne by congruence. split_and!; [done..|]. intros Hf.
    destruct (Hl Hf) as [?|(j & r & Hj & _ & Hr' & ?)]; [congruence|auto|]. assert (j = k) as -> by congruence. by simplify_eq.
Qed.

Lemma unused_entry l p p' next : p_state p' = UNUSED -> p_parent p' = None -> new_entry l p p' next next.
Proof. intros Hs Hp. split; rewrite ?Hs, ?Hp; auto; try done; lia. Qed.

Lemma reap_inv s s' i p r : pinv s -> resumed s -> procs s !! i = Some p -> p_state p = ZOMBIE ->
  reap kend i s = Ret r s' -> pinv s'.
Proof.
  intros P R Hp Hs H. assert (i < length (procs s))%nat as Hlt by (by eapply lookup_lt_Some).
  unfold reap in H. do 10 run1e H. injection H as _ <-.
  destruct R as (j & q & Hj & Hl & Hq & Hqs).
  eapply (entry_inv s _ i p); [exact P|exact Hp| | | | |reflexivity|done|done|apply P|].
  - rewrite Hs. by intros [?|[?|?]].
  - rewrite Hj. intros [= ->]. congruence.
  - by apply unused_entry.
  - done.
  - intros _ _. right. by exists j, q.
Qed.

(** The scan of [wait] found no zombie child. *)
Lemma no_zombie me l : first_idx (fun p => child_of me p && is_state ZOMBIE p) l = None ->
  forall m z, l !! m = Some z -> p_state z = ZOMBIE -> p_parent z <> Some me.
Proof.
  intros H m z Hz Hs Hp. apply first_idx_none in H. rewrite Forall_lookup in H. specialize (H m z Hz).
  unfold child_of, is_state in H. by rewrite !bool_decide_true in H.
Qed.

Lemma wait_loop_inv s s' r : pinv s -> resumed s -> wait_loop kend s = Ret r s' -> pinv s'.
Proof.
  intros P R H. unfold wait_loop in H. run1 H. run1 H. destruct (first_idx _ _) as [i|] eqn:Ei.
  - apply first_idx_some in Ei as (p & Hp & Hf & _). apply andb_prop in Hf as [_ Hz]. unfold is_state in Hz.
    apply bool_decide_eq_true in Hz. by eapply reap_inv.
  - run1 H. destruct (_ || _).
    + run1 H. injection H as <- <-. by apply unlock_inv.
    + unfold sleep in H. apply bind_ret in H as (? & ? & _ & H). done.
Qed.

Lemma wait_sleep_inv s s' c : pinv s -> resumed s -> wait_loop kend s = Sleep c s' -> pinv s'.
Proof.
  intros P R H. unfold wait_loop in H. apply bind_sleep in H as (me & s1 & H1 & H); [|apply nosleep_myproc].
  apply myproc_ret in H1 as [Hme ->]. apply bind_sleep in H as (l & s1 & H1 & H); [|done]. injection H1 as <- <-.
  destruct (first_idx _ _) as [i|] eqn:Ei.
  - exfalso. revert H. unfold reap, get_proc, release_ptable. apply nosleep_bind; auto 30 with nosleep.
  - apply bind_sleep in H as (p & s1 & H1 & H); [|done]. injection H1 as <- <-. destruct (_ || _).
    + exfalso. revert H. unfold release_ptable. apply nosleep_bind; auto with nosleep.
    + unfold sleep in H. pose proof R as (j & q & Hj & _ & Hq & _). assert (j = me) as -> by congruence.
      unfold sleep_start, bind at 1 2, gets in H. rewrite Hme in H. unfold bind at 1, ret in H.
      destruct ((upd_proc me _ ;; _) s) as [u s2|?|?|?] eqn:E; [|done| |done].
      * injection H as _ <-. destruct u. eapply sleep_marks; [exact P|exact R|exact Hme|exact Hq| |exact E].
        intros j [= ->]. split; [done|]. by apply no_zombie.
      * exfalso. revert E. apply nosleep_bind; auto with nosleep.
Qed.

(** A change of many entries that leaves the running one alone. *)
Lemma states_inv s s' : pinv s -> length (procs s') = length (procs s) ->
  (forall k p', procs s' !! k = Some p' -> exists p, procs s !! k = Some p /\ same_kin (procs s) k p p' /\
     (p_state p' = RUNNING <-> p_state p = RUNNING)) ->
  initproc s' = initproc s -> nextpid s' = nextpid s -> cur s' = cur s -> pt_lock s' = pt_lock s -> pinv s'.
Proof.
  intros P Hlen Hk E1 E2 E3 E4. apply pinv_iff in P as ((i0 & Hi & T) & Hn & P3 & P4). apply pinv_iff. rewrite E1, E2.
  split_and!; [|done|split].
  - exists i0. split; [done|]. apply (tab_ok_states (procs s)); [done|done|]. intros k p' Hp'.
    destruct (Hk k p' Hp') as (p & ? & ? & _). eauto.
  - rewrite E3. intros k p' Hp' Hs. destruct (Hk k p' Hp') as (p & Hp & _ & HR). apply (P3 k p Hp). by apply HR.
  - rewrite E3, E4. intros k Hc. destruct (P4 k Hc) as (p & Hp & H1 & H2 & H3).
    destruct (lookup_lt_is_Some_2 (procs s') k) as [p' Hp']; [rewrite Hlen; by eapply lookup_lt_Some|].
    destruct (Hk k p' Hp') as (q & Hq & K & HR). simplify_eq. exists p'. split; [done|].
    split_and!; [..|by intros; apply HR, H3].
    + rewrite (same_kin_state _ _ _ _ _ K); [done|by intros [?|[?|?]]].
    + rewrite (same_kin_state _ _ _ _ _ K); [done|by intros [?|[?|?]]].
Qed.

Lemma wakeup_inv s s' c : pinv s -> wakeup c s = Ret tt s' -> pinv s'.
Proof.
  intros P H. unfold wakeup in H. run1 H. run1 H. apply release_ret in H as [_ ->].
  eapply (states_inv s); [done|cbn; by rewrite length_fmap| |done..]. cbn. intros k p' Hp'.
  apply list_lookup_fmap_Some in Hp' as (p & -> & Hp). exists p. split_and!; [done|apply wake1_same_kin|..].
  all: destruct (wake1_state c p) as (_ & _ & _ & [[E _]|[E1 E2]]); rewrite ?E, ?E1, ?E2; done.
Qed.

Lemma upd_states_inv s i f s' : pinv s -> (forall p, procs s !! i = Some p -> same_kin (procs s) i p (f p) /\
    (p_state (f p) = RUNNING <-> p_state p = RUNNING)) ->
  procs s' = <[i := f (procs s !!! i)]> (procs s) ->
  initproc s' = initproc s -> nextpid s' = nextpid s -> cur s' = cur s -> pt_lock s' = pt_lock s -> pinv s'.
Proof.
  intros P Hf E. apply states_inv; [done|by rewrite E, length_insert|]. rewrite E. intros k p' Hp'.
  destruct (lookup_lt_is_Some_2 (procs s) k) as [p Hp].
  { apply lookup_lt_Some in Hp'. by rewrite length_insert in Hp'. }
  exists p. split; [done|]. destruct (decide (k = i)) as [->|Hne].
  - rewrite list_lookup_insert_eq in Hp' by (by eapply lookup_lt_Some).
    rewrite (list_lookup_total_correct _ _ _ Hp) in Hp'. simplify_eq. by apply Hf.
  - rewrite list_lookup_insert_ne in Hp' by done. simplify_eq. split; [|done]. split_and!; auto.
Qed.

Definition kill1 (p : proc) : proc :=
  if is_state SLEEPING p then set_p_state RUNNABLE (set_p_killed 1 p) else set_p_killed 1 p.

Lemma kill_inv s s' pid r : pinv s -> kill pid s = Ret r s' -> pinv s'.
Proof.
  intros P H. unfold kill in H. run1 H. run1 H. destruct (first_idx _ _) as [i|] eqn:Ei.
  - apply first_idx_some in Ei as (p & Hp & _). assert (i < length (procs s))%nat as Hlt by (by eapply lookup_lt_Some).
    run1e H. run1e H. apply bind_ret in H as (u & s1 & H1 & H). run1 H. injection H as <- <-.
    assert (procs s1 = <[i := kill1 (procs s !!! i)]> (procs s) /\
      s1 = set_procs (procs s1) (set_pt_lock true s)) as [E1 E2].
    { unfold kill1, when, is_state in *. cbn [p_state set_p_killed] in H1. destruct (bool_decide _); injection H1 as _ <-; cbn;
        rewrite ?list_lookup_total_insert_eq, ?list_insert_insert_eq by done; done. }
    rewrite E2. eapply (upd_states_inv s i kill1); [done| |exact E1|done..]. intros q Hq. unfold kill1, is_state.
    destruct (bool_decide_reflect (p_state q = SLEEPING)) as [Hs|Hs]; unfold same_kin; cbn.
    + rewrite Hs. split; [split_and!; try done|done]. right. split; [by left|by right; left].
    + split; [split_and!; auto|done].
  - run1 H. injection H as <- <-. eapply (states_inv s); [done|done| |done..]. intros k p Hp. exists p.
    split; [done|]. split; [split_and!; auto|done].
Qed.

Lemma other_inv s s' : pinv s -> core <$> procs s' = core <$> procs s -> initproc s' = initproc s -> nextpid s' = nextpid s ->
  cur s' = cur s -> pt_lock s' = pt_lock s -> pinv s'.
Proof.
  intros P E. apply states_inv; [done|by rewrite <- !(length_fmap core), E|]. intros k p' Hp'.
  assert ((core <$> procs s) !! k = Some (core p')) as Hc by (by rewrite <- E, list_lookup_fmap, Hp').
  apply list_lookup_fmap_Some in Hc as (p & Hc & Hp). exists p. split; [done|].
  apply core_eq in Hc as (E1 & E2 & E3 & E4). unfold same_kin. rewrite E1, E2, E3, E4. split; [split_and!; auto|done].
Qed.

(** ** Creation *)

Lemma embryo_not_alive p : p_state p = EMBRYO -> ~ alive (p_state p).
Proof. intros ->. by intros [?|[?|?]]. Qed.

Lemma embryo_not_cur s i p : pinv s -> procs s !! i = Some p -> p_state p = EMBRYO \/ p_state p = UNUSED -> cur s <> Some i.
Proof. intros P Hp Hs Hc. destruct (pv_here _ P i Hc) as (q & Hq & ? & ?). simplify_eq. by destruct Hs. Qed.

Lemma fill_inv s s' np p : pinv s -> pt_lock s = false -> procs s !! np = Some p -> p_state p = EMBRYO ->
  fork_fill np s = Ret tt s' -> pinv s'.
Proof.
  intros P Hl Hp Hs H. assert (np < length (procs s))%nat as Hlt by (by eapply lookup_lt_Some).
  destruct (pv_tab _ P) as (i0 & _ & T).
  unfold fork_fill in H. run1 H. do 5 run1e H. apply liftm_ret in H as [km2 ->]. rewrite (list_lookup_total_correct _ _ _ Hp).
  eapply (entry_inv s _ np p); [exact P|exact Hp|by apply embryo_not_alive|by eapply embryo_not_cur; eauto| | |reflexivity|done|done|apply P|by left].
  2: by cbn; rewrite Hs.
  split; cbn; [lia| | | |by right; left|by rewrite Hs].
  - intros _. assert (p_state p <> UNUSED) as Hu by congruence. split; [by eapply (to_pid _ _ _ T)|by left].
  - intros j [= <-]. destruct (pv_cur _ P a) as (q & Hq & Hqs); [done..|]. exists q. split; [done|]. by right; right.
  - by rewrite Hs.
Qed.

Lemma run_inv s s' np p : pinv s -> procs s !! np = Some p -> p_state p = EMBRYO -> p_parent p <> None ->
  fork_run np s = Ret tt s' -> pinv s'.
Proof.
  intros P Hp Hs Hpar H. destruct (pv_tab _ P) as (i0 & _ & T). unfold fork_run in H. run1 H. run1 H. apply release_ret in H as [_ ->].
  rewrite (list_lookup_total_correct _ _ _ Hp).
  eapply (entry_inv s _ np p); [exact P|exact Hp|by apply embryo_not_alive|by eapply embryo_not_cur; eauto| | |reflexivity|done|done|apply P|by left].
  2: done.
  split; cbn; [lia| | |done|by right; right|done].
  - intros _. assert (p_state p <> UNUSED) as Hu by congruence. split; [by eapply (to_pid _ _ _ T)|by left].
  - intros j Hj. by eapply (to_parent _ _ _ T).
Qed.

Lemma abort_inv s s' np p : pinv s -> procs s !! np = Some p -> p_state p = EMBRYO -> p_parent p = None ->
  fork_abort kend np s = Ret tt s' -> pinv s'.
Proof.
  intros P Hp Hs Hpar H. assert (np < length (procs s))%nat as Hlt by (by eapply lookup_lt_Some).
  unfold fork_abort in H. do 3 run1e H. injection H as <-. rewrite list_lookup_total_insert_eq, list_insert_insert_eq by done.
  rewrite (list_lookup_total_correct _ _ _ Hp).
  eapply (entry_inv s _ np p); [exact P|exact Hp|by apply embryo_not_alive|by eapply embryo_not_cur; eauto| | |reflexivity|done|done|apply P|by left].
  - by apply unused_entry.
  - done.
Qed.

Lemma unused_alloc l p next : p_state p = UNUSED -> p_parent p = None -> 1 <= next ->
  forall k tf c, new_entry l p (set_p_stack k tf c (set_p_pid next (set_p_state EMBRYO p))) next (next + 1).
Proof.
  intros Hs Hp Hn k tf c. split; cbn; try done; [lia| | |by right; left].
  - intros _. split; [lia|]. right. lia.
  - by rewrite Hp.
Qed.

Lemma alloc_inv s s' r : pinv s -> nextpid s < 2 ^ 31 - 1 -> allocproc trapret forkret s = Ret r s' -> pinv s'.
Proof.
  intros P Hn H. destruct (pv_tab _ P) as (i0 & _ & T). assert (1 <= nextpid s) as Hn1.
  { destruct (to_init _ _ _ T) as (p & Hp & Ha). destruct (alive_live _ Ha) as (Hu & _).
    pose proof (to_pid _ _ _ T i0 p Hp Hu). lia. }
  unfold allocproc in H. run1 H. run1 H. destruct (first_idx _ _) as [i|] eqn:Ei.
  2:{ run1 H. injection H as <- <-. by eapply (other_inv s). }
  apply first_idx_some in Ei as (p & Hp & Hs & _). unfold is_state in Hs. apply bool_decide_eq_true in Hs.
  assert (i < length (procs s))%nat as Hlt by (by eapply lookup_lt_Some).
  assert (~ alive (p_state p)) as Hna by (rewrite Hs; by intros [?|[?|?]]).
  assert (cur s <> Some i) as Hci by (eapply embryo_not_cur; eauto).
  pose proof (to_unused _ _ _ T i p Hp Hs) as Hpar.
  do 7 run1e H. rewrite (list_lookup_total_correct _ _ _ Hp) in H. rewrite (s32_small (nextpid s + 1)) in H by lia.
  match type of H with context [if ?x =? 0 then _ else _] => destruct (x =? 0) end.
  - run1e H. injection H as <- <-. eapply (entry_inv s _ i p); [exact P|exact Hp|done|done| | |reflexivity|done|done|cbn; lia|by left].
    + split; cbn; try done; [lia|by rewrite Hpar|by left].
    + done.
  - do 4 run1e H. injection H as <- <-.
    eapply (entry_inv s _ i p); [exact P|exact Hp|done|done| | |reflexivity|done|done|cbn; lia|by left].
    + by apply (unused_alloc (procs s) p (nextpid s)).
    + done.
Qed.

(** ** Exit *)

Lemma exit_inv s s' : pinv s -> cur s <> initproc s -> exit_locked s = Ret tt s' -> pinv s'.
Proof.
  intros P Hci H. unfold exit_locked in H. run1 H. run1 H. run1 H.
  destruct (lock_inv s a) as [P' (i & p & Hi & _ & Hp & Hs)]; [done..|]. cbn in Hi, Hp. assert (i = a) as -> by congruence.
  apply pinv_iff in P' as ((i0 & Hi0 & T) & Hn & P3 & P4). cbn in Hi0, T, Hn, P3, P4.
  assert (a <> i0) as Hne by congruence. rewrite (list_lookup_total_correct _ _ _ Hp) in H.
  assert (exists j, p_parent p = Some j) as [j Hj].
  { destruct (p_parent p) eqn:E; [eauto|]. by destruct (to_child _ _ _ T a p Hp ltac:(congruence) ltac:(congruence) Hne). }
  rewrite Hj in H. run1 H. apply bind_ret in H as (u & s1 & RL & H).
  set (l1 := wake1 (ChProc j) <$> procs s) in *.
  assert (l1 !! a = Some (wake1 (ChProc j) p)) as Hp1 by (unfold l1; by rewrite list_lookup_fmap, Hp).
  pose proof (tab_ok_wake _ (ChProc j) _ _ T) as T1. fold l1 in T1.
  assert (alive (p_state (wake1 (ChProc j) p))) as Hal.
  { destruct (wake1_state (ChProc j) p) as (_ & _ & _ & [[-> _]|[? _]]); [rewrite Hs; by right; right|congruence]. }
  destruct (adopt_loop a i0 l1 NPROC 0 (set_procs l1 (set_pt_lock true s))) as (l2 & E & A); [done|rewrite (to_len _ _ _ T1); lia| |].
  { split; [split; [done|]|by intros; lia]. intros k q Hq. exists q. split_and!; auto. }
  rewrite E in RL. injection RL as _ <-. run1 H. apply sched_ret in H as [-> _].
  cbn in A. destruct (lookup_lt_is_Some_2 l2 a) as [q Hq]; [rewrite (proj1 (proj1 A)); by eapply lookup_lt_Some|].
  rewrite (list_lookup_total_correct _ _ _ Hq). assert (a < length l2)%nat as Hlt by (by eapply lookup_lt_Some).
  apply pinv_iff. unfold cur_ok. cbn. split_and!; [|done| |].
  - exists i0. split; [done|]. eapply tab_ok_exit; [exact T1|exact Hp1|done|done| |apply no_sleeper_wake|done|done].
    by destruct (wake1_state (ChProc j) p) as (_ & _ & -> & _).
  - intros k x Hx Hr. at_entry Hx k a; [done|]. destruct (proj2 (proj1 A) k x Hx) as (y & Hy & _ & _ & _ & D).
    assert (p_state y = RUNNING) as Hyr by (destruct D as [?|[_ ?]]; congruence).
    unfold l1 in Hy. apply list_lookup_fmap_Some in Hy as (w & -> & Hw). apply (P3 k w Hw).
    destruct (wake1_state (ChProc j) w) as (_ & _ & _ & [[? _]|[_ ?]]); congruence.
  - intros k Hk. assert (k = a) as -> by congruence. rewrite list_lookup_insert_eq by done. eexists. by split_and!.
Qed.

Lemma step_inv s s' : pinv s -> pstep kend trapret forkret s s' -> pinv s'.
Proof.
  intros P [].
  - by eapply pass_inv.
  - by eapply back_inv.
  - apply release_ret in H0 as [_ ->]. by apply unlock_inv.
  - by eapply wake_up_inv.
  - apply bind_ret in H0 as (u & s1 & RL & H0). unfold sleep_end in RL. run1 RL. run1 RL. injection RL as _ <-.
    destruct (tidy_inv s a P H) as [P' R']; [done|]. by eapply wait_loop_inv.
  - apply bind_sleep in H0 as (u & s1 & RL & H0).
    2:{ unfold sleep_end. auto with nosleep. }
    unfold sleep_end in RL. run1 RL. run1 RL. injection RL as _ <-.
    destruct (tidy_inv s a P H) as [P' R']; [done|]. by eapply wait_sleep_inv.
  - unfold wait in H0. run1 H0. destruct (cur s) as [i|] eqn:Hc; [|done].
    destruct (lock_inv s i) as [P' R']; [done..|]. by eapply wait_loop_inv.
  - unfold wait in H0. apply bind_sleep in H0 as (u & s1 & RL & H0).
    2:{ unfold acquire_ptable, acquire. auto with nosleep. }
    destruct u. apply acquire_ret in RL as [Hl ->]. destruct (cur s) as [i|] eqn:Hc; [|done].
    destruct (lock_inv s i) as [P' R']; [done..|]. by eapply wait_sleep_inv.
  - by eapply yield_inv.
  - by eapply sleep_inv.
  - by eapply wakeup_inv.
  - by eapply kill_inv.
  - by eapply exit_inv.
  - by eapply alloc_inv.
  - by eapply fill_inv.
  - by eapply run_inv.
  - by eapply abort_inv.
  - by eapply other_inv.
Qed.
End inv.
