(* ===== verification/ProcThm.v ===== *)
(** What the process table guarantees, and the scheduler's fairness. *)

From S2P Require Import Prelude Params CString Mmu Kalloc Vm BlockDev Bio Log Fs Kernel Proc ProcSpec ProcInv.

Lemma booted_inv s : booted s -> pinv s.
Proof.
  intros (p & Hl & Hs & Hpid & Hpar & Hi & Hn & Hc & Hk). apply pinv_iff.
  assert (forall k q, procs s !! k = Some q -> k = 0%nat /\ q = p \/ q = zero_proc) as Hat.
  { rewrite Hl. intros [|k] q Hq; [left; cbn in Hq; by simplify_eq|]. right.
    change (replicate (NPROC - 1) zero_proc !! k = Some q) in Hq. by apply lookup_replicate in Hq as [-> _]. }
  assert (procs s !! 0%nat = Some p) as H0 by (by rewrite Hl).
  split_and!; [|rewrite Hn; lia|split].
  - exists 0%nat. split; [done|]. rewrite Hn. split.
    + by rewrite Hl.
    + exists p. split; [done|]. rewrite Hs. by right; left.
    + intros k q Hq Hu. destruct (Hat k q Hq) as [[_ ->]| ->]; [lia|done].
    + intros k m q r Hq Hr Hu Hv _. destruct (Hat k q Hq) as [[-> _]| ->]; [|done]. by destruct (Hat m r Hr) as [[-> _]| ->].
    + intros k q j Hq Hj. destruct (Hat k q Hq) as [[_ ->]| ->]; [congruence|done].
    + intros k q Hq Hu. destruct (Hat k q Hq) as [[_ ->]| ->]; [congruence|done].
    + intros k q Hq Hu He Hk0. destruct (Hat k q Hq) as [[-> _]| ->]; done.
    + intros q Hq. by simplify_eq.
    + intros k q Hq. destruct (Hat k q Hq) as [[_ ->]| ->]; [congruence|done].
    + intros k q j Hq Hs'. destruct (Hat k q Hq) as [[_ ->]| ->]; [congruence|done].
    + intros k q m z Hq Hs'. destruct (Hat k q Hq) as [[_ ->]| ->]; [congruence|done].
  - intros k q Hq Hr. destruct (Hat k q Hq) as [[_ ->]| ->]; [congruence|done].
  - by rewrite Hc.
Qed.

Lemma reach_inv kend trapret forkret s0 s : pinv s0 -> preach kend trapret forkret s0 s -> pinv s.
Proof. intros P H. induction H; [done|]. by eapply step_inv. Qed.

(** C18: over every interleaving of the scheduler, sleep, wakeup, yield, kill,
    fork, exit and wait from boot on (for fewer than 2^31 - 2 forks): the pids
    in use are distinct; every process and zombie but the first has a parent
    that is alive, so orphans always reach init; a process asleep in [wait] has
    no zombie child (no wakeup is lost); and only the current process is in the
    running state. *)
Theorem ptable_safe kend trapret forkret s0 s : booted s0 -> preach kend trapret forkret s0 s ->
  (forall i j p q, procs s !! i = Some p -> procs s !! j = Some q -> p_state p <> UNUSED -> p_state q <> UNUSED ->
     p_pid p = p_pid q -> i = j) /\
  (forall i p, procs s !! i = Some p -> p_state p <> UNUSED -> p_state p <> EMBRYO -> initproc s <> Some i ->
     exists j q, p_parent p = Some j /\ procs s !! j = Some q /\ alive (p_state q)) /\
  (forall i p k z, procs s !! i = Some p -> p_state p = SLEEPING -> p_chan p = Some (ChProc i) ->
     procs s !! k = Some z -> p_state z = ZOMBIE -> p_parent z <> Some i) /\
  (forall i p, procs s !! i = Some p -> p_state p = RUNNING -> cur s = Some i).
Proof.
  intros B R. pose proof (reach_inv _ _ _ _ _ (booted_inv _ B) R) as P. destruct (pv_tab _ P) as (i0 & Hi & T). split_and!.
  - apply T.
  - intros i p Hp Hu He Hne. assert (i <> i0) as Hd by congruence. pose proof (to_child _ _ _ T i p Hp Hu He Hd) as Hpar.
    destruct (p_parent p) as [j|] eqn:E; [|done]. destruct (to_parent _ _ _ T i p j Hp E) as (q & Hq & Ha). eauto.
  - apply T.
  - apply P.
Qed.

(** ** Fairness *)

(** The scheduler's segments one after the other, each on the state in which it
    finds the kernel, and what they return: the process that is run next, or
    [None] at the end of a pass. *)
Inductive schedule : option nat -> list kx -> list (option nat) -> Prop :=
| sc_end stands : schedule stands [] []
| sc_more stands s r s' ss rs : scheduler stands s = Ret r s' -> schedule r ss rs -> schedule stands (s :: ss) (r :: rs).

(** Where the scan of the table goes on. *)
Definition scan_from (stands : option nat) : nat := match stands with None => 0 | Some i => S i end.

Definition ready (j : nat) (s : kx) : Prop :=
  length (procs s) = NPROC /\ exists p, procs s !! j = Some p /\ p_state p = RUNNABLE.

Lemma next_bounds pos t i : next_runnable pos t = Some i -> (pos <= i < length t)%nat.
Proof.
  unfold next_runnable. destruct (first_idx _ _) as [k|] eqn:E; [|done]. intros [= <-].
  apply first_idx_some in E as (x & Hx & _). rewrite lookup_drop in Hx. apply lookup_lt_Some in Hx. lia.
Qed.

Lemma next_ready pos s j : ready j s -> (pos <= j)%nat -> exists i, next_runnable pos (procs s) = Some i /\ (pos <= i <= j)%nat.
Proof.
  intros (_ & p & Hp & Hs) Hle. assert (drop pos (procs s) !! (j - pos)%nat = Some p) as Hd.
  { rewrite lookup_drop. by replace (pos + (j - pos))%nat with j by lia. }
  assert (is_state RUNNABLE p = true) as Hr by (by apply bool_decide_eq_true).
  unfold next_runnable. destruct (first_idx _ _) as [k|] eqn:E; cbn.
  - exists (pos + k)%nat. split; [done|]. apply first_idx_some in E as (_ & _ & _ & Hmin).
    destruct (decide (j - pos < k)%nat) as [Hlt|]; [|lia]. rewrite (Hmin _ _ Hlt Hd) in Hr. done.
  - apply first_idx_none in E. rewrite Forall_lookup in E. rewrite (E _ _ Hd) in Hr. done.
Qed.

(** A segment runs the next runnable process from where the scan stands. *)
Lemma scan_picks from s r s' : scheduler_scan from s = Ret r s' -> r = next_runnable from (procs s).
Proof.
  unfold scheduler_scan. unfold bind at 1, gets. destruct (next_runnable from (procs s)) as [i|]; intros H.
  - apply bind_ret in H as (? & ? & _ & H). apply bind_ret in H as (? & ? & _ & H). apply bind_ret in H as (? & ? & _ & H). by injection H.
  - apply bind_ret in H as (? & ? & _ & H). by injection H.
Qed.

Lemma scheduler_picks stands s r s' : scheduler stands s = Ret r s' -> r = next_runnable (scan_from stands) (procs s).
Proof.
  destruct stands as [i|]; intros H; apply bind_ret in H as (? & s1 & H1 & H); apply scan_picks in H as ->.
  - by injection H1 as _ <-.
  - unfold acquire_ptable, acquire, bind, gets in H1. destruct (pt_lock s); [done|]. by injection H1 as _ <-.
Qed.

Lemma picks_ahead j stands ss rs : schedule stands ss rs -> (scan_from stands <= j)%nat -> Forall (ready j) ss ->
  (j - scan_from stands < length ss)%nat -> Some j ∈ rs.
Proof.
  induction 1 as [|stands s r s' ss rs Hs _ IH]; intros Hle Hr Hn; cbn [length] in Hn; [lia|]. inversion Hr; subst.
  apply scheduler_picks in Hs. destruct (next_ready (scan_from stands) s j) as (i & E & Hi); [done..|]. rewrite E in Hs. subst r.
  destruct (decide (i = j)) as [->|]; [by left|]. right. cbn [scan_from] in IH. apply IH; [lia|done|lia].
Qed.

Lemma picks_behind j stands ss rs : schedule stands ss rs -> (j < scan_from stands <= NPROC)%nat -> Forall (ready j) ss ->
  (NPROC - scan_from stands + 1 + j < length ss)%nat -> Some j ∈ rs.
Proof.
  induction 1 as [|stands s r s' ss rs Hs Hrun IH]; intros Hle Hr Hn; cbn [length] in Hn; [lia|]. inversion Hr as [|? ? [Hlen _]]; subst.
  apply scheduler_picks in Hs. right. destruct r as [i|]; symmetry in Hs.
  - apply next_bounds in Hs. cbn [scan_from] in IH. apply IH; [lia|done|lia].
  - apply (picks_ahead j None ss rs Hrun); cbn [scan_from]; [lia|done|lia].
Qed.

(** The CPU is in the scheduler. *)
Definition in_scheduler (stands : option nat) (s : kx) : Prop :=
  match stands with None => cur s = None /\ pt_lock s = false | Some i => switched_out i s end.

Lemma scheduler_returns stands s : in_scheduler stands s ->
  (forall i p, procs s !! i = Some p -> p_state p = RUNNABLE -> p_pgdir p <> 0) ->
  exists r s', scheduler stands s = Ret r s' /\
    match r with
    | Some i => cur s' = Some i /\ exists p, procs s' !! i = Some p /\ p_state p = RUNNING
    | None => pt_lock s' = false /\ procs s' = procs s
    end.
Proof.
  intros Hin Hpg.
  assert (exists s1, scheduler stands s = scheduler_scan (scan_from stands) s1 /\ procs s1 = procs s /\ pt_lock s1 = true) as (s1 & -> & E & Hl).
  { destruct stands as [i|]; cbn.
    - destruct Hin as (p & _ & Hl & _). by exists (set_cur None s).
    - destruct Hin as [_ Hl]. exists (set_pt_lock true s). split; [|done].
      unfold scheduler_pass, bind at 1, acquire_ptable, acquire, bind, gets. rewrite Hl. reflexivity. }
  unfold scheduler_scan, bind at 1, gets. rewrite E. destruct (next_runnable _ (procs s)) as [i|] eqn:En.
  - assert (exists p, procs s !! i = Some p /\ p_state p = RUNNABLE) as (p & Hp & Hst).
    { unfold next_runnable in En. destruct (first_idx _ _) as [k|] eqn:Ek; [|done]. injection En as <-.
      apply first_idx_some in Ek as (p & Hp & Hst & _). rewrite lookup_drop in Hp. exists p. split; [done|]. by apply bool_decide_eq_true in Hst. }
    exists (Some i). unfold bind, modify, switchuvm, get_proc, gets, when. cbn [procs set_cur]. unfold bind. cbn.
    rewrite E, (list_lookup_total_correct _ _ _ Hp), (proj2 (Z.eqb_neq _ 0)) by (by eapply Hpg).
    eexists. split; [reflexivity|]. split; [done|]. cbn. rewrite E. eexists.
    split; [apply list_lookup_insert_eq; by eapply lookup_lt_Some|done].
  - exists None. unfold bind, release_ptable, release, bind, gets. rewrite Hl. eexists. split; [reflexivity|]. by split.
Qed.

(** C34: the scheduler is fair.  Its segments return: each runs a process, or
    ends a pass over the table.  And a process that is runnable whenever the
    scheduler looks is run within NPROC + 1 segments, wherever the scan stands
    and whatever the processes that run in between do to the kernel. *)
Theorem scheduler_fair j :
  (forall stands s, in_scheduler stands s -> (forall i p, procs s !! i = Some p -> p_state p = RUNNABLE -> p_pgdir p <> 0) ->
     exists r s', scheduler stands s = Ret r s' /\
       match r with
       | Some i => cur s' = Some i /\ exists p, procs s' !! i = Some p /\ p_state p = RUNNING
       | None => pt_lock s' = false /\ procs s' = procs s
       end) /\
  (forall stands ss rs, schedule stands ss rs -> (scan_from stands <= NPROC)%nat -> Forall (ready j) ss ->
     (NPROC + 1 <= length ss)%nat -> Some j ∈ rs).
Proof.
  split; [apply scheduler_returns|]. intros stands ss rs Hrun Hpos Hss Hn. assert (j < NPROC)%nat as Hj.
  { destruct ss as [|s ss]; [cbn [length] in Hn; lia|]. inversion Hss as [|? ? [<- (p & Hp & _)]]. by eapply lookup_lt_Some. }
  destruct (decide (scan_from stands <= j)%nat); [eapply picks_ahead|eapply picks_behind]; try done; lia.
Qed.

(** ** A system *)

Module ProcW.

Definition page : Z := KERNBASE + 0x400000.
Definition init_proc : proc := mkproc 4096 page page RUNNABLE 1 None (page + 4000) (page + 3900) None 0 (replicate NOFILE None) None (replicate 16 0).
Definition b0 : kx := mkkx (mkk false false page (fun _ => 0)) false (init_proc :: replicate (NPROC - 1) zero_proc)
  (Some 0%nat) 2 None false (replicate NFILE zero_file) ∅ false 0 zero_console.

Definition after {A} (m : M kx A) (s : kx) : kx := match m s with Ret _ s' => s' | _ => s end.
Definition returns {A} (m : M kx A) (s : kx) : bool := match m s with Ret _ _ => true | _ => false end.

Lemma after_unit (m : M kx unit) s : returns m s = true -> m s = Ret tt (after m s).
Proof. unfold returns, after. by destruct (m s) as [[]| | |]. Qed.
Lemma after_some {A} (m : M kx A) s : returns m s = true -> exists r, m s = Ret r (after m s).
Proof. unfold returns, after. destruct (m s); [eauto|done..]. Qed.

(** Init runs, forks, yields to the child, and the child exits. *)
Definition b1 := after scheduler_pass b0.
Definition b2 := after yield_end b1.
Definition b3 := after (allocproc 0 0) b2.
Definition b4 := after (fork_fill 1) b3.
Definition b5 := after (fork_run 1) b4.
Definition b6 := set_procs (<[1%nat := set_p_mem 4096 page (procs b5 !!! 1%nat)]> (procs b5)) b5.
Definition b7 := after yield_start b6.
Definition b8 := after (scheduler_back 0) b7.
Definition b9 := after yield_end b8.
Definition b10 := after exit_locked b9.

Lemma b0_booted : booted b0.
Proof. exists init_proc. by split_and!. Qed.

Lemma b10_reach : preach 0 0 0 b0 b10.
Proof.
  eapply pr_step; [|eapply ps_exit; [|apply after_unit]; [vm_compute; discriminate|vm_compute; reflexivity]].
  eapply pr_step; [|eapply ps_resume; [|apply after_unit; vm_compute; reflexivity]].
  2:{ eexists 1%nat, _. split_and!; vm_compute; reflexivity. }
  eapply pr_step; [|edestruct (after_some (scheduler_back 0) b7) as [r Hr]; [vm_compute; reflexivity|eapply ps_back; [|exact Hr]]].
  2:{ eexists. split_and!; [vm_compute; reflexivity..|vm_compute; discriminate]. }
  eapply pr_step; [|eapply ps_yield; [|apply after_unit; vm_compute; reflexivity]; vm_compute; discriminate].
  eapply pr_step; [|apply (ps_other _ _ _ b5 b6); vm_compute; reflexivity].
  eapply pr_step; [|eapply (ps_run _ _ _ _ 1); [| | |apply after_unit; vm_compute; reflexivity]; vm_compute; [reflexivity|reflexivity|discriminate]].
  eapply pr_step; [|eapply (ps_fill _ _ _ _ 1); [| | |apply after_unit; vm_compute; reflexivity]; vm_compute; reflexivity].
  eapply pr_step; [|edestruct (after_some (allocproc 0 0) b2) as [r Hr]; [vm_compute; reflexivity|eapply ps_alloc; [| |exact Hr]; vm_compute; reflexivity]].
  eapply pr_step; [|eapply ps_resume; [|apply after_unit; vm_compute; reflexivity]].
  2:{ eexists 0%nat, _. split_and!; vm_compute; reflexivity. }
  eapply pr_step; [|edestruct (after_some scheduler_pass b0) as [r Hr]; [vm_compute; reflexivity|eapply ps_pass; [|exact Hr]; reflexivity]].
  apply pr_refl.
Qed.

(** The zombie child of this run has init as its living parent. *)
Lemma ptable_safe_witness : exists j q, p_parent (procs b10 !!! 1%nat) = Some j /\ procs b10 !! j = Some q /\ alive (p_state q).
Proof.
  destruct (ptable_safe 0 0 0 b0 b10 b0_booted b10_reach) as (_ & H & _).
  apply (H 1%nat); [vm_compute; reflexivity|vm_compute; discriminate..].
Defined.

(** A process has switched back while init is the only runnable one; then init
    runs and yields, again and again. *)
Definition c1 : kx := set_pt_lock true (set_cur (Some 63%nat) b0).
Fixpoint yielding (n : nat) : list kx := match n with O => [c1] | S n' => c1 :: b0 :: yielding n' end.

Lemma yielding_schedule n : forall i, i = 63%nat \/ i = 0%nat -> exists rs, schedule (Some i) (yielding n) rs.
Proof.
  assert (forall i, i = 63%nat \/ i = 0%nat -> scheduler (Some i) c1 = Ret None (after (scheduler (Some i)) c1)) as H1.
  { intros i [-> | ->]; vm_compute; reflexivity. }
  assert (scheduler None b0 = Ret (Some 0%nat) (after (scheduler None) b0)) as H2 by (vm_compute; reflexivity).
  induction n as [|n IH]; intros i Hi.
  - eexists. eapply sc_more; [by apply H1|apply sc_end].
  - destruct (IH 0%nat) as [rs Hrs]; [by right|]. eexists. eapply sc_more; [by apply H1|]. eapply sc_more; [exact H2|exact Hrs].
Qed.

Lemma scheduler_fair_witness :
  (exists r s', scheduler None b0 = Ret r s') /\ exists rs, schedule (Some 63%nat) (yielding 32) rs /\ Some 0%nat ∈ rs.
Proof.
  split.
  - destruct (proj1 (scheduler_fair 0) None b0) as (r & s' & E & _); [by split| |eauto].
    intros [|i] p Hp; [by injection Hp as <-|]. intros Hr. change (replicate 63 zero_proc !! i = Some p) in Hp.
    apply lookup_replicate in Hp as [-> _]. discriminate.
  - destruct (yielding_schedule 32 63 (or_introl eq_refl)) as [rs Hrs]. exists rs. split; [exact Hrs|].
    apply (proj2 (scheduler_fair 0) (Some 63%nat) (yielding 32) rs Hrs); [vm_compute; lia| |vm_compute; lia].
    assert (ready 0 c1 /\ ready 0 b0) as [Hc Hb] by (split; (split; [reflexivity|]); exists init_proc; split; reflexivity).
    generalize 32%nat. intros n. induction n as [|n IH]; cbn [yielding]; auto.
Defined.

(** [kill(0)] finds an unused entry of the table (its pid is 0), reports
    success and leaves its [killed] flag set, and [allocproc] does not clear it:
    the next process created is born killed. *)
Theorem kill_zero_hits_unused :
  returns (kill 0) b2 = true /\ (match kill 0 b2 with Ret r _ => r | _ => -1 end) = 0 /\
  (let s := after (allocproc 0 0) (after (kill 0) b2) in
   p_state (procs s !!! 1%nat) = EMBRYO /\ p_pid (procs s !!! 1%nat) = 2 /\ p_killed (procs s !!! 1%nat) = 1).
Proof. cbv zeta. split_and!; vm_compute; reflexivity. Qed.
End ProcW.
