(* ===== verification/Ring.v ===== *)
(** Ring buffers indexed by 32-bit counters, shared by pipe.c and console.c.

    Both keep a queue in an array of [N] bytes between two counters that only
    grow, modulo 2^32, and index the array modulo [N].  This is correct because
    [N] divides 2^32. *)

From S2P Require Import Prelude.

(** Sizes for which the indexing survives the wrap-around of the counters. *)
Class RingSize (N : Z) : Prop := { rs_pos : 0 < N; rs_div : (N | 2 ^ 32) }.

(** The ring [data], read from counter [r] on, holds [q]. *)
Record ring (N : Z) (data : list Z) (r : Z) (q : list Z) : Prop := {
  rg_len : length data = Z.to_nat N;
  rg_r : 0 <= r < 2 ^ 32;
  rg_size : Z.of_nat (length q) <= N;
  rg_data : forall i x, q !! i = Some x -> data !! Z.to_nat ((r + Z.of_nat i) mod N) = Some x
}.

Section ring.
Context (N : Z) `{!RingSize N}.

Lemma u32_mod_ring x : u32 x mod N = x mod N.
Proof.
  unfold u32. destruct (rs_div (N := N)) as [k Hk]. pose proof (rs_pos (N := N)). symmetry.
  rewrite (Z.div_mod x (2 ^ 32)) at 1 by lia. rewrite Hk at 1.
  replace (k * N * (x / 2 ^ 32)) with ((k * (x / 2 ^ 32)) * N) by lia. rewrite Z.add_comm. apply Z.mod_add. lia.
Qed.

Lemma u32_add_inj a i j : 0 <= i < 2 ^ 32 -> 0 <= j < 2 ^ 32 -> u32 (a + i) = u32 (a + j) -> i = j.
Proof.
  unfold u32. intros Hi Hj H.
  assert ((i - j) mod 2 ^ 32 = 0) as Hm.
  { replace (i - j) with ((a + i) - (a + j)) by lia. rewrite Zminus_mod, H, Z.sub_diag. done. }
  apply Z.mod_divide in Hm as [k Hk]; [|lia]. nia.
Qed.

Lemma u32_add_u32 a b : u32 (u32 a + b) = u32 (a + b).
Proof. unfold u32. by rewrite Zplus_mod_idemp_l. Qed.

(** Positions fewer than [N] apart are distinct. *)
Lemma ring_ne r i j : 0 <= i < j -> j - i < N -> Z.to_nat ((r + j) mod N) <> Z.to_nat ((r + i) mod N).
Proof.
  intros Hij HN E. pose proof (rs_pos (N := N)). apply Z2Nat.inj in E; [|apply Z.mod_pos_bound; lia..].
  assert ((j - i) mod N = 0) as Hm.
  { replace (j - i) with ((r + j) - (r + i)) by lia. by rewrite Zminus_mod, E, Z.sub_diag. }
  rewrite Z.mod_small in Hm by lia. lia.
Qed.

Lemma ring_idx r : (Z.to_nat (r mod N) < Z.to_nat N)%nat.
Proof. pose proof (rs_pos (N := N)). pose proof (Z.mod_pos_bound r N). lia. Qed.

(** A byte stored at the end, at any counter that is [r] plus the length
    modulo 2^32. *)
Lemma ring_push data r q x w : ring N data r q -> Z.of_nat (length q) < N -> w = u32 (r + Z.of_nat (length q)) ->
  ring N (<[Z.to_nat (w mod N) := x]> data) r (q ++ [x]).
Proof.
  intros [H0 H1 H3 H4] Hlt ->. rewrite u32_mod_ring. split.
  - by rewrite length_insert.
  - done.
  - rewrite length_app. cbn. lia.
  - intros i y Hy. apply lookup_app_Some in Hy as [Hy|[Hge Hy]].
    + rewrite list_lookup_insert_ne; [by apply H4|]. apply lookup_lt_Some in Hy. apply ring_ne; lia.
    + apply list_lookup_singleton_Some in Hy as [Hi <-]. replace i with (length q) by lia.
      apply list_lookup_insert_eq. rewrite H0. apply ring_idx.
Qed.

(** The byte at the front. *)
Lemma ring_front data r x q : ring N data r (x :: q) -> data !!! Z.to_nat (r mod N) = x.
Proof. intros [_ _ _ H]. specialize (H 0%nat x eq_refl). rewrite Z.add_0_r in H. by apply list_lookup_total_correct. Qed.

Lemma ring_pop data r x q : ring N data r (x :: q) -> ring N data (u32 (r + 1)) q.
Proof.
  intros [H0 H1 H3 H4]. split; [done|apply u32_range|cbn [length] in H3; lia|].
  intros i y Hy. specialize (H4 (S i) y Hy). rewrite <- H4. f_equal. f_equal.
  rewrite <- (u32_mod_ring (r + Z.of_nat (S i))), <- u32_mod_ring, u32_add_u32. do 2 f_equal. lia.
Qed.

(** A prefix of what is held, and the last byte. *)
Lemma ring_prefix data r q1 q2 : ring N data r (q1 ++ q2) -> ring N data r q1.
Proof.
  intros [H0 H1 H3 H4]. split; [done|done|rewrite length_app in H3; lia|].
  intros i y Hy. apply H4. by apply lookup_app_l_Some.
Qed.

Lemma ring_back data r q x w : ring N data r (q ++ [x]) -> w = u32 (r + Z.of_nat (length q)) ->
  data !!! Z.to_nat (w mod N) = x.
Proof.
  intros [H0 H1 H3 H4] ->. rewrite u32_mod_ring. apply list_lookup_total_correct, H4.
  rewrite lookup_app_r, Nat.sub_diag by lia. done.
Qed.

(** The difference of the two counters is the length. *)
Lemma ring_len_eq r i j : 0 <= i <= N -> 0 <= j <= N -> N < 2 ^ 32 ->
  (u32 (r + i) =? u32 (r + j)) = bool_decide (i = j).
Proof.
  intros Hi Hj HN. destruct (Z.eqb_spec (u32 (r + i)) (u32 (r + j))) as [E|E].
  - rewrite bool_decide_true; [done|]. eapply u32_add_inj; [| |exact E]; lia.
  - rewrite bool_decide_false; [done|]. intros ->. done.
Qed.
End ring.
