(* ===== verification/Pipe.v ===== *)
(** Pipes: pipe.c.

    The ring buffer with its two counters, which wrap at 2^32.  A call that
    sleeps ends its segment, and goes on after the wakeup from the test it
    slept in, with what is left of its work; [pipealloc], which uses the file
    table, is in File. *)

From S2P Require Import Prelude Params Ring CString Mmu Kalloc Vm BlockDev Bio Log Fs Kernel Proc.

(** ** Operations *)

Definition get_pipe (p : Z) : M kx pipe :=
  x <- gets (fun s => pipes s !! p) ;;
  match x with Some pi => ret pi | None => fault "pipe" end.
Definition put_pipe (p : Z) (pi : pipe) : M kx unit := modify (fun s => set_pipes (<[p := pi]> (pipes s)) s).

Definition set_pi_lock (x : bool) (pi : pipe) : pipe :=
  mkpipe x (pi_data pi) (nread pi) (nwrite pi) (readopen pi) (writeopen pi).
Definition acquire_pipe (p : Z) : M kx unit :=
  pi <- get_pipe p ;; if pi_lock pi then panic "acquire" else put_pipe p (set_pi_lock true pi).
Definition release_pipe (p : Z) : M kx unit :=
  pi <- get_pipe p ;; if pi_lock pi then put_pipe p (set_pi_lock false pi) else panic "release".

(** The tests and moves of one byte. *)
Definition is_full (pi : pipe) : bool := nwrite pi =? u32 (nread pi + PIPESIZE).
Definition is_empty (pi : pipe) : bool := nread pi =? nwrite pi.
Definition push (x : Z) (pi : pipe) : pipe :=
  mkpipe (pi_lock pi) (<[Z.to_nat (nwrite pi mod PIPESIZE) := x]> (pi_data pi)) (nread pi) (u32 (nwrite pi + 1))
    (readopen pi) (writeopen pi).
Definition front (pi : pipe) : Z := pi_data pi !!! Z.to_nat (nread pi mod PIPESIZE).
Definition pop (pi : pipe) : pipe :=
  mkpipe (pi_lock pi) (pi_data pi) (u32 (nread pi + 1)) (nwrite pi) (readopen pi) (writeopen pi).

Definition killed : M kx bool := i <- myproc ;; p <- get_proc i ;; ret (negb (p_killed p =? 0)).

(** pipe.c [pipewrite], from the test of its loop on, with [src] still to be
    written; [n] is the value it returns in the end. *)
Fixpoint pipewrite_loop (p : Z) (src : list Z) (n : Z) : M kx Z :=
  match src with
  | [] =>
      wakeup (ChPipeRead p) ;;
      release_pipe p ;;
      ret n
  | x :: src' =>
      pi <- get_pipe p ;;
      if is_full pi then
        k <- killed ;;
        if negb (readopen pi) || k then release_pipe p ;; ret (-1) else
        wakeup (ChPipeRead p) ;;
        sleep (ChPipeWrite p) (Some (release_pipe p))
      else
        put_pipe p (push x pi) ;;
        pipewrite_loop p src' n
  end.
Definition pipewrite (p : Z) (src : list Z) (n : Z) : M kx Z :=
  acquire_pipe p ;; pipewrite_loop p (take (Z.to_nat n) src) n.

(** pipe.c [piperead]: the number of bytes read, and the bytes. *)
Fixpoint piperead_copy (p : Z) (n : nat) : M kx (list Z) :=
  match n with
  | O => ret []
  | S n' =>
      pi <- get_pipe p ;;
      if is_empty pi then ret [] else
      put_pipe p (pop pi) ;;
      rest <- piperead_copy p n' ;;
      ret (front pi :: rest)
  end.
Definition piperead_loop (p : Z) (n : Z) : M kx (Z * list Z) :=
  pi <- get_pipe p ;;
  if is_empty pi && writeopen pi then
    k <- killed ;;
    if k then release_pipe p ;; ret (-1, []) else
    sleep (ChPipeRead p) (Some (release_pipe p))
  else
    l <- piperead_copy p (Z.to_nat n) ;;
    wakeup (ChPipeWrite p) ;;
    release_pipe p ;;
    ret (Z.of_nat (length l), l).
Definition piperead (p : Z) (n : Z) : M kx (Z * list Z) := acquire_pipe p ;; piperead_loop p n.

(** After a wakeup. *)
Definition pipewrite_resume (p : Z) (src : list Z) (n : Z) : M kx Z :=
  sleep_end (Some (acquire_pipe p)) ;; pipewrite_loop p src n.
Definition piperead_resume (p : Z) (n : Z) : M kx (Z * list Z) :=
  sleep_end (Some (acquire_pipe p)) ;; piperead_loop p n.

(** pipe.c [pipeclose]; the page goes back when both ends are closed. *)
Definition pipeclose (kend : Z) (p : Z) (writable : bool) : M kx unit :=
  acquire_pipe p ;;
  pi <- get_pipe p ;;
  (if writable then
     put_pipe p (mkpipe (pi_lock pi) (pi_data pi) (nread pi) (nwrite pi) (readopen pi) false) ;;
     wakeup (ChPipeRead p)
   else
     put_pipe p (mkpipe (pi_lock pi) (pi_data pi) (nread pi) (nwrite pi) false (writeopen pi)) ;;
     wakeup (ChPipeWrite p)) ;;
  pi <- get_pipe p ;;
  release_pipe p ;;
  when (negb (readopen pi) && negb (writeopen pi))
    (modify (fun s => set_pipes (delete p (pipes s)) s) ;;
     liftm (kfree kend p)).

(** ** The queue a pipe holds *)

Record pipe_rep (pi : pipe) (q : list Z) : Prop := {
  pr_len : length (pi_data pi) = Z.to_nat PIPESIZE;
  pr_nread : 0 <= nread pi < 2 ^ 32;
  pr_nwrite : nwrite pi = u32 (nread pi + Z.of_nat (length q));
  pr_size : Z.of_nat (length q) <= PIPESIZE;
  pr_data : forall i x, q !! i = Some x -> pi_data pi !! Z.to_nat ((nread pi + Z.of_nat i) mod PIPESIZE) = Some x
}.

Lemma PIPESIZE_val : PIPESIZE = 512. Proof. done. Qed.

#[export] Instance pipe_ring_size : RingSize PIPESIZE.
Proof. split; [done|]. by exists 8388608. Qed.

Lemma pipe_rep_ring pi q : pipe_rep pi q -> ring PIPESIZE (pi_data pi) (nread pi) q.
Proof. by intros []. Qed.

Lemma is_full_spec pi q : pipe_rep pi q -> is_full pi = bool_decide (Z.of_nat (length q) = PIPESIZE).
Proof. intros [_ H1 H2 H3 _]. unfold is_full. rewrite H2. apply (ring_len_eq PIPESIZE); unfold PIPESIZE in *; lia. Qed.

Lemma is_empty_spec pi q : pipe_rep pi q -> is_empty pi = bool_decide (q = []).
Proof.
  intros [_ H1 H2 H3 _]. unfold is_empty. rewrite H2. replace (nread pi) with (u32 (nread pi + 0)) at 1 by (rewrite Z.add_0_r, u32_small; lia).
  rewrite (ring_len_eq PIPESIZE) by (unfold PIPESIZE in *; lia). apply bool_decide_ext. destruct q; cbn; naive_solver lia.
Qed.

Lemma push_rep pi q x : pipe_rep pi q -> Z.of_nat (length q) < PIPESIZE -> pipe_rep (push x pi) (q ++ [x]).
Proof.
  intros Hp Hlt. destruct (ring_push PIPESIZE _ _ _ x (nwrite pi) (pipe_rep_ring _ _ Hp) Hlt) as [R1 R2 R3 R4]; [by destruct Hp|].
  split; cbn; [done|done| |done|done]. destruct Hp as [_ _ -> _ _]. rewrite u32_add_u32, length_app. cbn. f_equal. lia.
Qed.

Lemma pop_rep pi x q : pipe_rep pi (x :: q) -> front pi = x /\ pipe_rep (pop pi) q.
Proof.
  intros Hp. pose proof (pipe_rep_ring _ _ Hp) as Hr. split; [by eapply (ring_front PIPESIZE)|].
  destruct (ring_pop PIPESIZE _ _ _ _ Hr) as [R1 R2 R3 R4]. split; cbn; [done|done| |done|done].
  destruct Hp as [_ _ -> _ _]. rewrite u32_add_u32. cbn [length]. f_equal. lia.
Qed.
