(* ===== verification/PipeSpec.v ===== *)
(** A pipe is a bounded queue, and its sleepers are woken: what [pipewrite],
    [piperead] and [pipeclose] do to the queue, and to the processes that sleep
    on the pipe. *)

From S2P Require Import Prelude Params CString Mmu Kalloc Vm BlockDev Bio Log Fs Kernel Proc Pipe.

(** ** Runs, with the pipe's lock held *)

(** The state with the pipe and the process table replaced. *)
Definition with_pipe (p : Z) (pi : pipe) (l : list proc) (s : kx) : kx :=
  set_procs l (set_pipes (<[p := pi]> (pipes s)) s).

Lemma with_pipe_twice p pi pi' l l' s : with_pipe p pi' l' (with_pipe p pi l s) = with_pipe p pi' l' s.
Proof. unfold with_pipe, set_procs, set_pipes. cbn. by rewrite insert_insert_eq. Qed.

Lemma with_pipe_id p pi s : pipes s !! p = Some pi -> with_pipe p pi (procs s) s = s.
Proof. intros H. unfold with_pipe, set_procs, set_pipes. cbn. rewrite insert_id by done. by destruct s. Qed.

Lemma get_pipe_eq p pi l s : get_pipe p (with_pipe p pi l s) = Ret pi (with_pipe p pi l s).
Proof. unfold get_pipe, bind, gets. cbn. by rewrite lookup_insert_eq. Qed.

Lemma put_pipe_eq p pi pi' l s : put_pipe p pi' (with_pipe p pi l s) = Ret tt (with_pipe p pi' l s).
Proof. unfold put_pipe, modify, with_pipe, set_procs, set_pipes. cbn. by rewrite insert_insert_eq. Qed.

Lemma release_pipe_eq p pi l s : pi_lock pi = true -> release_pipe p (with_pipe p pi l s) = Ret tt (with_pipe p (set_pi_lock false pi) l s).
Proof. intros Hl. unfold release_pipe, bind. rewrite get_pipe_eq, Hl. apply put_pipe_eq. Qed.

Lemma wakeup_eq c p pi l s : pt_lock s = false -> wakeup c (with_pipe p pi l s) = Ret tt (with_pipe p pi (wake1 c <$> l) s).
Proof.
  intros Hl. unfold wakeup, acquire_ptable, release_ptable, acquire, release, bind, gets, wakeup1, modify, with_pipe, set_procs, set_pipes, set_pt_lock.
  cbn. rewrite Hl. cbn. done.
Qed.

(** The process [i] of the table, asleep on [c]. *)
Definition asleep (i : nat) (c : chan) (l : list proc) : list proc :=
  <[i := set_p_state SLEEPING (set_p_chan (Some c) (l !!! i))]> l.

(** No lock other than the pipe's is held. *)
Definition quiet (p : Z) (s : kx) : Prop :=
  pt_lock s = false /\ forall pi, pi_lock pi = false -> other_locks (set_pipes (<[p := pi]> (pipes s)) s) = false.

Lemma sleep_eq {A} c p pi l i s : quiet p s -> cur s = Some i -> pi_lock pi = true -> (i < length l)%nat ->
  sleep (A := A) c (Some (release_pipe p)) (with_pipe p pi l s) =
  Sleep c (set_pt_lock true (with_pipe p (set_pi_lock false pi) (asleep i c l) s)).
Proof.
  intros [Hl Ho] Hc Hpl Hi. specialize (Ho (set_pi_lock false pi) eq_refl).
  unfold sleep, sleep_start, acquire_ptable, acquire, bind, gets. cbn [cur with_pipe set_procs set_pipes]. rewrite Hc.
  cbn [pt_lock with_pipe set_procs set_pipes]. rewrite Hl. unfold modify.
  change (set_pt_lock true (with_pipe p pi l s)) with (with_pipe p pi l (set_pt_lock true s)). rewrite (release_pipe_eq p pi) by done.
  unfold upd_proc, modify. cbn [procs with_pipe set_procs]. unfold sched, bind, gets, myproc, get_proc.
  cbn [pt_lock with_pipe set_procs set_pipes set_pt_lock cur procs]. cbn [negb].
  match goal with |- context [other_locks ?t] => replace (other_locks t) with false by (symmetry; exact Ho) end.
  unfold bind, gets. cbn [cur with_pipe set_procs set_pipes set_pt_lock]. rewrite Hc. unfold ret. cbn [procs set_procs].
  rewrite !list_lookup_total_insert_eq by (rewrite ?length_insert; done).
  unfold with_pipe, set_procs, set_pipes, set_pt_lock, asleep, park, when. cbn -[insert list_insert].
  by rewrite list_insert_insert_eq.
Qed.

Lemma killed_eq p pi l i me s : cur s = Some i -> l !! i = Some me ->
  killed (with_pipe p pi l s) = Ret (negb (p_killed me =? 0)) (with_pipe p pi l s).
Proof.
  intros Hc Hm. unfold killed, myproc, get_proc, bind, gets. cbn. rewrite Hc. cbn.
  by rewrite (list_lookup_total_correct _ _ _ Hm).
Qed.

(** ** Writing *)

Section ops.
Context (p : Z) (i : nat) (me : proc) (s : kx).
Context (Hq : quiet p s) (Hc : cur s = Some i) (Hme : procs s !! i = Some me).

(** A pipe locked by the caller that holds [q], with given ends. *)
Definition held (pi : pipe) (q : list Z) (ro wo : bool) : Prop :=
  pi_lock pi = true /\ pipe_rep pi q /\ readopen pi = ro /\ writeopen pi = wo.

Definition room (q : list Z) : nat := (Z.to_nat PIPESIZE - length q)%nat.

Lemma held_push pi q ro wo x : held pi q ro wo -> Z.of_nat (length q) < PIPESIZE -> held (push x pi) (q ++ [x]) ro wo.
Proof. intros (H1 & H2 & H3 & H4) Hlt. split_and!; [done|by apply push_rep|done|done]. Qed.

Lemma room_push q x : (0 < room q)%nat -> room (q ++ [x]) = (room q - 1)%nat /\ Z.of_nat (length q) < PIPESIZE.
Proof. unfold room. rewrite length_app, PIPESIZE_val. cbn [length]. change (Z.to_nat 512) with 512%nat. lia. Qed.

Lemma held_full pi q ro wo : held pi q ro wo -> is_full pi = bool_decide (room q = 0%nat).
Proof.
  intros (_ & R & _). rewrite (is_full_spec pi q R). pose proof (pr_size _ _ R) as Hs. apply bool_decide_ext.
  unfold room. rewrite PIPESIZE_val in *. change (Z.to_nat 512) with 512%nat. lia.
Qed.

(** Everything fits. *)
Lemma write_fits n src : forall pi q ro wo, held pi q ro wo -> (length src <= room q)%nat ->
  exists pi', pipewrite_loop p src n (with_pipe p pi (procs s) s) =
    Ret n (with_pipe p (set_pi_lock false pi') (wake1 (ChPipeRead p) <$> procs s) s) /\ held pi' (q ++ src) ro wo.
Proof.
  induction src as [|x src IH]; intros pi q ro wo H Hr; cbn [pipewrite_loop]; unfold bind.
  - rewrite wakeup_eq by apply Hq. rewrite release_pipe_eq by apply H. exists pi. by rewrite app_nil_r.
  - cbn [length] in Hr. rewrite get_pipe_eq, (held_full pi q ro wo H), bool_decide_false by lia. rewrite put_pipe_eq.
    destruct (room_push q x) as [Hr1 Hr2]; [lia|].
    destruct (IH (push x pi) (q ++ [x]) ro wo) as (pi' & E & H'); [by apply held_push|lia|].
    exists pi'. rewrite E. by rewrite <- app_assoc in H'.
Qed.

(** The pipe fills up first. *)
Lemma write_fills n src : forall pi q ro wo, held pi q ro wo -> (room q < length src)%nat ->
  exists pi', held pi' (q ++ take (room q) src) ro wo /\
  pipewrite_loop p src n (with_pipe p pi (procs s) s) =
    if negb ro || negb (p_killed me =? 0) then Ret (-1) (with_pipe p (set_pi_lock false pi') (procs s) s)
    else Sleep (ChPipeWrite p) (set_pt_lock true (with_pipe p (set_pi_lock false pi')
           (asleep i (ChPipeWrite p) (wake1 (ChPipeRead p) <$> procs s)) s)).
Proof.
  induction src as [|x src IH]; intros pi q ro wo H Hr; cbn [length] in Hr; [lia|]. cbn [pipewrite_loop]; unfold bind.
  rewrite get_pipe_eq, (held_full pi q ro wo H). case_bool_decide as Hf.
  - exists pi. rewrite Hf, take_0, app_nil_r. split; [done|]. rewrite (killed_eq p pi (procs s) i me) by done.
    destruct H as (H1 & H2 & H3 & H4). rewrite H3. destruct (negb ro || _).
    + by rewrite release_pipe_eq.
    + rewrite wakeup_eq by apply Hq. apply sleep_eq; [done|done|done|]. rewrite length_fmap. by eapply lookup_lt_Some.
  - rewrite put_pipe_eq. destruct (room_push q x) as [Hr1 Hr2]; [lia|].
    destruct (IH (push x pi) (q ++ [x]) ro wo) as (pi' & H' & E); [by apply held_push|lia|].
    exists pi'. rewrite E. split; [|done]. rewrite Hr1, <- app_assoc in H'. destruct (room q) as [|r]; [lia|].
    cbn [take]. by replace (S r - 1)%nat with r in H' by lia.
Qed.

(** ** Reading *)

Lemma held_pop pi x q ro wo : held pi (x :: q) ro wo -> front pi = x /\ held (pop pi) q ro wo.
Proof. intros (H1 & H2 & H3 & H4). destruct (pop_rep pi x q H2) as [? ?]. split; [done|]. by split_and!. Qed.

Lemma copy_eq n : forall pi q ro wo, held pi q ro wo ->
  exists pi', piperead_copy p n (with_pipe p pi (procs s) s) = Ret (take n q) (with_pipe p pi' (procs s) s) /\
    held pi' (drop n q) ro wo.
Proof.
  induction n as [|n IH]; intros pi q ro wo H; cbn [piperead_copy]; unfold bind.
  - exists pi. by rewrite take_0, drop_0.
  - rewrite get_pipe_eq, (is_empty_spec pi q) by apply H. destruct q as [|x q].
    + rewrite bool_decide_true by done. exists pi. done.
    + rewrite bool_decide_false by done. rewrite put_pipe_eq. destruct (held_pop pi x q ro wo H) as [Hf H'].
      destruct (IH (pop pi) q ro wo H') as (pi' & E & H2). rewrite E. exists pi'. rewrite Hf. done.
Qed.

Lemma read_eq n pi q ro wo : held pi q ro wo ->
  exists pi', held pi' (drop (Z.to_nat n) q) ro wo /\
  piperead_loop p n (with_pipe p pi (procs s) s) =
    if bool_decide (q = []) && wo then
      if negb (p_killed me =? 0) then Ret (-1, []) (with_pipe p (set_pi_lock false pi') (procs s) s)
      else Sleep (ChPipeRead p) (set_pt_lock true (with_pipe p (set_pi_lock false pi') (asleep i (ChPipeRead p) (procs s)) s))
    else Ret (Z.of_nat (length (take (Z.to_nat n) q)), take (Z.to_nat n) q)
           (with_pipe p (set_pi_lock false pi') (wake1 (ChPipeWrite p) <$> procs s) s).
Proof.
  intros H. unfold piperead_loop, bind. rewrite get_pipe_eq, (is_empty_spec pi q) by apply H.
  pose proof H as (H1 & H2 & H3 & H4). rewrite H4. destruct (bool_decide (q = []) && wo) eqn:E.
  - apply andb_prop in E as [Eq _]. apply bool_decide_eq_true in Eq as ->. rewrite (killed_eq p pi (procs s) i me) by done.
    exists pi. rewrite drop_nil. split; [done|]. destruct (negb _).
    + by rewrite release_pipe_eq.
    + apply sleep_eq; [done..|]. by eapply lookup_lt_Some.
  - destruct (copy_eq (Z.to_nat n) pi q ro wo H) as (pi' & Ec & H'). exists pi'. split; [done|]. rewrite Ec.
    rewrite wakeup_eq by apply Hq. rewrite release_pipe_eq by apply H'. done.
Qed.
End ops.
