(* ===== verification/PipeThm.v ===== *)
(** What a pipe promises its readers and writers. *)

From S2P Require Import Prelude Params CString Mmu Kalloc Vm BlockDev Bio Log Fs Kernel Proc Pipe PipeSpec.

(** The pipe [p], not in use by anyone, holds [q]. *)
Definition pipe_at (s : kx) (p : Z) (pi : pipe) (q : list Z) : Prop :=
  pipes s !! p = Some pi /\ pi_lock pi = false /\ pipe_rep pi q.

Lemma acquire_pipe_eq p pi s : pipes s !! p = Some pi -> pi_lock pi = false ->
  acquire_pipe p s = Ret tt (with_pipe p (set_pi_lock true pi) (procs s) s).
Proof. intros Hp Hl. unfold acquire_pipe, get_pipe, bind, gets. rewrite Hp. unfold ret. rewrite Hl. by destruct s. Qed.

Lemma held_acquired s p pi q : pipe_at s p pi q -> held (set_pi_lock true pi) q (readopen pi) (writeopen pi).
Proof. intros (_ & _ & R). split_and!; try done. by destruct R. Qed.

Lemma held_released p pi q ro wo l s s' : held pi q ro wo -> pipes s' = pipes (with_pipe p (set_pi_lock false pi) l s) ->
  pipe_at s' p (set_pi_lock false pi) q.
Proof. intros (_ & R & _) E. split_and!; [rewrite E; cbn; by rewrite lookup_insert_eq|done|by destruct R]. Qed.

(** C23: a pipe is a queue of at most 512 bytes, also when its counters wrap.
    [pipewrite] appends its bytes and returns their number; if they do not fit
    it fills the pipe and sleeps, or returns -1 if nobody can read any more or
    the process is killed.  [piperead] takes bytes from the front; on an empty
    pipe it sleeps while there is a writer, and returns 0 when there is none. *)
Theorem pipe_is_queue p i me s pi q src n :
  quiet p s -> cur s = Some i -> procs s !! i = Some me -> pipe_at s p pi q ->
  let len := Z.of_nat (length src) in
  let dead := negb (p_killed me =? 0) in
  ((length src <= room q)%nat -> exists s' pi', pipewrite p src len s = Ret len s' /\ pipe_at s' p pi' (q ++ src)) /\
  ((room q < length src)%nat -> exists s' pi', pipe_at s' p pi' (q ++ take (room q) src) /\
     pipewrite p src len s = if negb (readopen pi) || dead then Ret (-1) s' else Sleep (ChPipeWrite p) s') /\
  (exists s' pi', pipe_at s' p pi' (drop (Z.to_nat n) q) /\
     piperead p n s = if bool_decide (q = []) && writeopen pi then if dead then Ret (-1, []) s' else Sleep (ChPipeRead p) s'
                      else Ret (Z.of_nat (length (take (Z.to_nat n) q)), take (Z.to_nat n) q) s').
Proof.
  intros Hq Hc Hm Hat len dead. pose proof (held_acquired _ _ _ _ Hat) as H. destruct Hat as (Hp & Hl & _).
  unfold pipewrite, piperead, bind. rewrite (acquire_pipe_eq p pi s Hp Hl).
  replace (take (Z.to_nat len) src) with src by (unfold len; by rewrite Nat2Z.id, firstn_all). split_and!.
  - intros Hr. destruct (write_fits p s Hq len src _ q _ _ H Hr) as (pi' & E & H'). rewrite E.
    eexists _, _. split; [done|]. by eapply held_released.
  - intros Hr. destruct (write_fills p i me s Hq Hc Hm len src _ q _ _ H Hr) as (pi' & H' & E). rewrite E. fold dead.
    destruct (negb (readopen pi) || dead); eexists _, _; (split; [|reflexivity]); by eapply held_released.
  - destruct (read_eq p i me s Hq Hc Hm n _ q _ _ H) as (pi' & H' & E). rewrite E. fold dead.
    destruct (bool_decide (q = []) && writeopen pi); [destruct dead|];
      eexists _, _; (split; [|reflexivity]); by eapply held_released.
Qed.

(** ** Sleepers *)

(** Readers sleep on an empty pipe, writers on a full one, and both ends are open. *)
Definition sleepers (p : Z) (q : list Z) (ro wo : bool) (l : list proc) : Prop :=
  forall k x, l !! k = Some x -> p_state x = SLEEPING ->
    (p_chan x = Some (ChPipeRead p) -> q = [] /\ ro = true /\ wo = true) /\
    (p_chan x = Some (ChPipeWrite p) -> room q = 0%nat /\ ro = true /\ wo = true).

Definition pipe_ok (p : Z) (s : kx) : Prop :=
  exists pi q, pipe_at s p pi q /\ sleepers p q (readopen pi) (writeopen pi) (procs s).

Definition nobody (c : chan) (l : list proc) : Prop :=
  forall k x, l !! k = Some x -> p_state x = SLEEPING -> p_chan x <> Some c.

(** A wakeup leaves nobody asleep on its channel, and the others as they were. *)
Lemma wake_asleep c (l : list proc) (k : nat) x : (wake1 c <$> l) !! k = Some x -> p_state x = SLEEPING -> l !! k = Some x /\ p_chan x <> Some c.
Proof.
  intros Hx Hs. apply list_lookup_fmap_Some in Hx as (y & -> & Hy). unfold wake1, is_state in *.
  destruct (bool_decide_reflect (p_state y = SLEEPING)), (bool_decide_reflect (p_chan y = Some c)); cbn in *; done.
Qed.

Lemma asleep_at i c l k x : (i < length l)%nat -> asleep i c l !! k = Some x -> p_state x = SLEEPING -> l !! k = Some x \/ p_chan x = Some c.
Proof.
  intros Hi Hx Hs. unfold asleep in Hx. destruct (decide (k = i)) as [->|Hne].
  - rewrite list_lookup_insert_eq in Hx by done. injection Hx as <-. by right.
  - rewrite list_lookup_insert_ne in Hx by done. by left.
Qed.

Lemma room_app q (src : list Z) : (length src <= room q)%nat -> room q = 0%nat -> src = [].
Proof. intros H1 H2. destruct src; [done|]. cbn [length] in H1. lia. Qed.

Lemma room_filled q (src : list Z) : (room q < length src)%nat -> room (q ++ take (room q) src) = 0%nat.
Proof. intros H. unfold room at 1. rewrite length_app, length_take. unfold room in *. lia. Qed.

Lemma sleepers_wrote p q src ro wo l : sleepers p q ro wo l -> (length src <= room q)%nat ->
  sleepers p (q ++ src) ro wo (wake1 (ChPipeRead p) <$> l).
Proof.
  intros S Hr k x Hx Hs. destruct (wake_asleep _ _ _ _ Hx Hs) as [Hx' Hne]. destruct (S k x Hx' Hs) as [_ HW].
  split; [done|]. intros Hch. destruct (HW Hch) as (H0 & ? & ?). rewrite (room_app q src Hr H0), app_nil_r. done.
Qed.

Lemma sleepers_filled p q src ro wo l i : sleepers p q ro wo l -> (room q < length src)%nat -> ro = true -> wo = true -> (i < length l)%nat ->
  sleepers p (q ++ take (room q) src) ro wo (asleep i (ChPipeWrite p) (wake1 (ChPipeRead p) <$> l)).
Proof.
  intros S Hr -> -> Hi k x Hx Hs. apply asleep_at in Hx; [|by rewrite length_fmap|done]. split.
  - intros Hch. destruct Hx as [Hx|Hx]; [|congruence]. by destruct (wake_asleep _ _ _ _ Hx Hs).
  - intros _. split_and!; [by apply room_filled|done|done].
Qed.

Lemma sleepers_closed p q q' wo l : sleepers p q false wo l -> sleepers p q' false wo l.
Proof. intros S k x Hx Hs. destruct (S k x Hx Hs) as [H1 H2]. split; intros Hch; [by destruct (H1 Hch) as (_ & ? & _)|by destruct (H2 Hch) as (_ & ? & _)]. Qed.

Lemma sleepers_read p q n ro wo l : sleepers p q ro wo l -> bool_decide (q = []) && wo = false ->
  sleepers p (drop n q) ro wo (wake1 (ChPipeWrite p) <$> l).
Proof.
  intros S Hb k x Hx Hs. destruct (wake_asleep _ _ _ _ Hx Hs) as [Hx' Hne]. destruct (S k x Hx' Hs) as [HR _].
  split; [|done]. intros Hch. destruct (HR Hch) as (-> & _ & ->). rewrite bool_decide_true in Hb by done. done.
Qed.

Lemma sleepers_waits p ro wo l i : sleepers p [] ro wo l -> ro = true -> wo = true -> (i < length l)%nat ->
  sleepers p [] ro wo (asleep i (ChPipeRead p) l).
Proof.
  intros S -> -> Hi k x Hx Hs. apply asleep_at in Hx; [|done..]. destruct Hx as [Hx|Hx]; [by apply (S k x)|].
  split; [done|]. intros Hch. congruence.
Qed.

(** A run that returned or fell asleep. *)
Definition outcome {A} (m : M kx A) (s s' : kx) : Prop := (exists r, m s = Ret r s') \/ exists c, m s = Sleep c s'.

Lemma outcome_eq {A} (m : M kx A) s s' r t : m s = Ret r t -> outcome m s s' -> s' = t.
Proof. intros E [[r' H]|[c H]]; rewrite E in H; congruence. Qed.
Lemma outcome_sleep {A} (m : M kx A) s s' c t : m s = Sleep c t -> outcome m s s' -> s' = t.
Proof. intros E [[r' H]|[c' H]]; rewrite E in H; congruence. Qed.

Lemma pipe_ok_intro p pi q ro wo l s s' : held pi q ro wo -> pipes s' = pipes (with_pipe p (set_pi_lock false pi) l s) ->
  sleepers p q ro wo (procs s') -> pipe_ok p s'.
Proof.
  intros H E S. exists (set_pi_lock false pi), q. split; [by eapply held_released|]. cbn [readopen writeopen set_pi_lock].
  by destruct H as (_ & _ & -> & ->).
Qed.

Lemma bind_eq {S A B} (m : M S A) (k : A -> M S B) t a t1 : m t = Ret a t1 -> bind m k t = k a t1.
Proof. unfold bind. by intros ->. Qed.

Section wakeups.
Context (p : Z) (i : nat) (me : proc) (s : kx).
Context (Hq : quiet p s) (Hc : cur s = Some i) (Hme : procs s !! i = Some me) (Hok : pipe_ok p s).

(** The segments of a write and of a read that follow the acquisition of the lock. *)
Lemma write_ok src n s' : p_killed me = 0 -> (forall pi, pipes s !! p = Some pi -> writeopen pi = true) ->
  outcome (acquire_pipe p ;; pipewrite_loop p src n) s s' -> pipe_ok p s'.
Proof.
  intros Hk Hw Ho. destruct Hok as (pi & q & Hat & S). pose proof (held_acquired _ _ _ _ Hat) as H. destruct Hat as (Hp & Hl & _).
  specialize (Hw pi Hp). assert (i < length (procs s))%nat as Hi by (by eapply lookup_lt_Some).
  pose proof (bind_eq _ (fun _ => pipewrite_loop p src n) _ _ _ (acquire_pipe_eq p pi s Hp Hl)) as E0.
  destruct (decide (length src <= room q)%nat) as [Hr|Hr].
  - destruct (write_fits p s Hq n src _ q _ _ H Hr) as (pi' & E & H'). rewrite <- E0 in E.
    apply (outcome_eq _ _ _ _ _ E) in Ho as ->. eapply pipe_ok_intro; [done|done|]. by apply sleepers_wrote.
  - destruct (write_fills p i me s Hq Hc Hme n src _ q _ _ H ltac:(lia)) as (pi' & H' & E). rewrite <- E0, Hk in E. cbn in E.
    destruct (readopen pi) eqn:Er; cbn in E.
    + apply (outcome_sleep _ _ _ _ _ E) in Ho as ->. eapply pipe_ok_intro; [done|done|]. apply sleepers_filled; try done. lia.
    + apply (outcome_eq _ _ _ _ _ E) in Ho as ->. eapply pipe_ok_intro; [done|done|]. by eapply sleepers_closed.
Qed.

Lemma read_ok n s' : (forall pi, pipes s !! p = Some pi -> readopen pi = true) ->
  outcome (acquire_pipe p ;; piperead_loop p n) s s' -> pipe_ok p s'.
Proof.
  intros Hw Ho. destruct Hok as (pi & q & Hat & S). pose proof (held_acquired _ _ _ _ Hat) as H. destruct Hat as (Hp & Hl & _).
  specialize (Hw pi Hp). assert (i < length (procs s))%nat as Hi by (by eapply lookup_lt_Some).
  destruct (read_eq p i me s Hq Hc Hme n _ q _ _ H) as (pi' & H' & E).
  rewrite <- (bind_eq _ (fun _ => piperead_loop p n) _ _ _ (acquire_pipe_eq p pi s Hp Hl)) in E.
  destruct (bool_decide (q = []) && writeopen pi) eqn:Eb; [destruct (negb _)|].
  - apply (outcome_eq _ _ _ _ _ E) in Ho as ->. apply andb_prop in Eb as [Eq _]. apply bool_decide_eq_true in Eq as ->.
    rewrite drop_nil in H'. by eapply pipe_ok_intro.
  - apply (outcome_sleep _ _ _ _ _ E) in Ho as ->. apply andb_prop in Eb as [Eq Ew]. apply bool_decide_eq_true in Eq as ->.
    rewrite drop_nil in H'. eapply pipe_ok_intro; [done|done|]. by apply sleepers_waits.
  - apply (outcome_eq _ _ _ _ _ E) in Ho as ->. eapply pipe_ok_intro; [done|done|]. by apply sleepers_read.
Qed.

(** The pipe without one of its ends. *)
Definition closed (writable : bool) (pi : pipe) : pipe :=
  mkpipe (pi_lock pi) (pi_data pi) (nread pi) (nwrite pi) (if writable then readopen pi else false) (if writable then false else writeopen pi).

Lemma sleepers_end (w : bool) q ro wo l : sleepers p q ro wo l -> nobody (if w then ChPipeWrite p else ChPipeRead p) l ->
  sleepers p q (if w then ro else false) (if w then false else wo) (wake1 (if w then ChPipeRead p else ChPipeWrite p) <$> l).
Proof.
  intros S N k x Hx Hs. destruct (wake_asleep _ _ _ _ Hx Hs) as [Hx' Hne]. pose proof (N k x Hx' Hs). destruct w; done.
Qed.

Lemma close_end (w : bool) pi l :
  (if w then
     put_pipe p (mkpipe (pi_lock pi) (pi_data pi) (nread pi) (nwrite pi) (readopen pi) false) ;; wakeup (ChPipeRead p)
   else
     put_pipe p (mkpipe (pi_lock pi) (pi_data pi) (nread pi) (nwrite pi) false (writeopen pi)) ;; wakeup (ChPipeWrite p))
    (with_pipe p pi l s) =
  Ret tt (with_pipe p (closed w pi) (wake1 (if w then ChPipeRead p else ChPipeWrite p) <$> l) s).
Proof. destruct w; rewrite (bind_eq _ _ _ _ _ (put_pipe_eq p pi _ l s)), wakeup_eq by apply Hq; done. Qed.

Lemma close_ok kend (w : bool) s' : nobody (if w then ChPipeWrite p else ChPipeRead p) (procs s) ->
  pipeclose kend p w s = Ret tt s' -> pipes s' !! p = None \/ pipe_ok p s'.
Proof.
  intros N E. destruct Hok as (pi & q & Hat & S). pose proof (held_acquired _ _ _ _ Hat) as H. destruct Hat as (Hp & Hl & _).
  unfold pipeclose in E. rewrite (bind_eq _ _ _ _ _ (acquire_pipe_eq p pi s Hp Hl)) in E.
  rewrite (bind_eq _ _ _ _ _ (get_pipe_eq _ _ _ _)), (bind_eq _ _ _ _ _ (close_end w _ _)) in E.
  rewrite (bind_eq _ _ _ _ _ (get_pipe_eq _ _ _ _)) in E.
  set (pi2 := closed w (set_pi_lock true pi)) in *.
  assert (held pi2 q (if w then readopen pi else false) (if w then false else writeopen pi)) as H2.
  { destruct H as (? & [] & _). split_and!; try done. }
  rewrite (bind_eq _ _ _ _ _ (release_pipe_eq p pi2 _ s (proj1 H2))) in E. unfold when in E. destruct (_ && _).
  - left. unfold bind, modify, liftm, zoom in E. destruct (kfree kend p _); try done. injection E as _ <-. cbn.
    apply lookup_delete_eq.
  - right. injection E as <-. eapply pipe_ok_intro; [exact H2|done|]. by apply sleepers_end.
Qed.
End wakeups.

(** ** Every run *)

(** Process [i] goes on after a sleep: it has the table's lock from the scheduler,
    and gives it up. *)
Definition woken_up (i : nat) (s : kx) : kx :=
  set_procs (<[i := set_p_chan None (procs s !!! i)]> (procs s)) s.

Lemma resume_eq {A} p i (m : M kx A) s : quiet p s -> cur s = Some i ->
  (sleep_end (Some (acquire_pipe p)) ;; m) (set_pt_lock true s) = (acquire_pipe p ;; m) (woken_up i s).
Proof.
  intros [Hl _] Hc. unfold sleep_end, bind at 1, myproc, bind at 1, bind at 1, gets at 1. cbn [cur set_pt_lock]. rewrite Hc.
  unfold ret at 1. unfold upd_proc, bind at 1, modify at 1. unfold bind at 1, release_ptable, release, bind at 1, gets at 1.
  cbn [pt_lock set_procs set_pt_lock procs]. unfold modify at 1, bind.
  replace (set_pt_lock false _) with (woken_up i s); [done|]. destruct s. cbn in *. by subst.
Qed.

Definition end_open (writable : bool) (p : Z) (s : kx) : Prop :=
  forall pi, pipes s !! p = Some pi -> (if writable then writeopen pi else readopen pi) = true.

(** What may happen to a pipe: calls by processes that hold the end they use, from
    their beginning or from a wakeup on; the closing of an end that nobody uses
    any more; and anything else in the kernel that leaves the pipe alone and
    puts nobody to sleep on it, as scheduling, wakeups and [kill] do.  A writer
    has not been killed. *)
Inductive pipe_step (kend p : Z) (s : kx) : kx -> Prop :=
| pp_write i me src s' : quiet p s -> cur s = Some i -> procs s !! i = Some me -> p_killed me = 0 -> end_open true p s ->
    outcome (pipewrite p src (Z.of_nat (length src))) s s' -> pipe_step kend p s s'
| pp_write_more i me src n s' : quiet p s -> cur s = Some i -> procs s !! i = Some me -> p_killed me = 0 -> end_open true p s ->
    outcome (pipewrite_resume p src n) (set_pt_lock true s) s' -> pipe_step kend p s s'
| pp_read i me n s' : quiet p s -> cur s = Some i -> procs s !! i = Some me -> end_open false p s ->
    outcome (piperead p n) s s' -> pipe_step kend p s s'
| pp_read_more i me n s' : quiet p s -> cur s = Some i -> procs s !! i = Some me -> end_open false p s ->
    outcome (piperead_resume p n) (set_pt_lock true s) s' -> pipe_step kend p s s'
| pp_close (w : bool) s' : quiet p s -> nobody (if w then ChPipeWrite p else ChPipeRead p) (procs s) ->
    pipeclose kend p w s = Ret tt s' -> pipe_step kend p s s'
| pp_other (s' : kx) : pipes s' !! p = pipes s !! p ->
    (forall (k : nat) x, procs s' !! k = Some x -> p_state x = SLEEPING -> p_chan x = Some (ChPipeRead p) \/ p_chan x = Some (ChPipeWrite p) ->
       exists y : proc, procs s !! k = Some y /\ p_state y = SLEEPING /\ p_chan y = p_chan x) ->
    pipe_step kend p s s'.

Lemma woken_ok p i s me : procs s !! i = Some me -> quiet p s -> pipe_ok p s ->
  quiet p (woken_up i s) /\ pipe_ok p (woken_up i s) /\ procs (woken_up i s) !! i = Some (set_p_chan None me).
Proof.
  intros Hm [Q1 Q2] (pi & q & Hat & S). assert (i < length (procs s))%nat as Hi by (by eapply lookup_lt_Some). split_and!.
  - split; [done|]. intros x Hx. exact (Q2 x Hx).
  - exists pi, q. split; [exact Hat|]. intros k x Hx Hs. cbn in Hx. destruct (decide (k = i)) as [->|Hne].
    + rewrite list_lookup_insert_eq in Hx by done. injection Hx as <-. by split.
    + rewrite list_lookup_insert_ne in Hx by done. by apply (S k).
  - cbn. rewrite list_lookup_insert_eq by done. by rewrite (list_lookup_total_correct _ _ _ Hm).
Qed.

(** Nothing can be done with a pipe that is gone. *)
Lemma gone_acquire {A} p (m : M kx A) s s' : pipes s !! p = None -> outcome (acquire_pipe p ;; m) s s' -> False.
Proof.
  intros Hn [[r H]|[c H]]; unfold acquire_pipe, get_pipe, bind, gets in H; rewrite Hn in H; done.
Qed.

Lemma step_ok kend p s s' : pipe_step kend p s s' -> pipes s !! p = None \/ pipe_ok p s -> pipes s' !! p = None \/ pipe_ok p s'.
Proof.
  intros [i me src ? Q Hc Hm Hk He Ho|i me src n ? Q Hc Hm Hk He Ho|i me n ? Q Hc Hm He Ho|i me n ? Q Hc Hm He Ho|w ? Q Hn Ho|? Hp Hs] Hok.
  - unfold pipewrite in Ho. rewrite Nat2Z.id, firstn_all in Ho. destruct Hok as [Hn|Hok]; [by apply gone_acquire in Ho|]. right. by eapply write_ok.
  - unfold outcome, pipewrite_resume in Ho. rewrite (resume_eq p i _ s Q Hc) in Ho. destruct Hok as [Hn|Hok]; [by apply gone_acquire in Ho|].
    right. destruct (woken_ok p i s me Hm Q Hok) as (Q' & Hok' & Hm'). by eapply (write_ok p i _ (woken_up i s) Q' Hc Hm' Hok').
  - destruct Hok as [Hn|Hok]; [by apply gone_acquire in Ho|]. right. by eapply read_ok.
  - unfold outcome, piperead_resume in Ho. rewrite (resume_eq p i _ s Q Hc) in Ho. destruct Hok as [Hn|Hok]; [by apply gone_acquire in Ho|].
    right. destruct (woken_ok p i s me Hm Q Hok) as (Q' & Hok' & Hm'). by eapply (read_ok p i _ (woken_up i s) Q' Hc Hm' Hok').
  - destruct Hok as [Hn'|Hok]; [|by eapply close_ok]. exfalso. eapply gone_acquire; [exact Hn'|]. left. by eexists.
  - destruct Hok as [Hn|(pi & q & (Hp1 & Hp2 & Hp3) & S)]; [left; congruence|]. right. exists pi, q.
    split; [by split; [congruence|]|]. intros k x Hx Hst.
    split; intros Hch; (destruct (Hs k x Hx Hst) as (y & Hy & Hy1 & Hy2); [auto|]); rewrite <- Hy2 in Hch; by apply (S k y).
Qed.

(** C33: no wakeup is lost on a pipe.  Take any sequence, from a pipe on which
    nobody sleeps, of [pipewrite] calls by writers that are not killed, of
    [piperead] calls, of both resumed after a wakeup, of [pipeclose] and of
    other activity of the kernel.  As long as the pipe exists, a reader that is
    asleep sleeps on an empty pipe that still has its write end, and a writer
    that is asleep on a full one that still has its read end. *)
Theorem pipe_wakeups kend p s s' pi q : pipe_at s p pi q ->
  nobody (ChPipeRead p) (procs s) -> nobody (ChPipeWrite p) (procs s) -> rtc (pipe_step kend p) s s' ->
  pipes s' !! p = None \/
  exists pi' q', pipe_at s' p pi' q' /\ forall k x, procs s' !! k = Some x -> p_state x = SLEEPING ->
    (p_chan x = Some (ChPipeRead p) -> q' = [] /\ writeopen pi' = true) /\
    (p_chan x = Some (ChPipeWrite p) -> length q' = Z.to_nat PIPESIZE /\ readopen pi' = true).
Proof.
  intros Hat Hr Hw Hrun. assert (pipes s !! p = None \/ pipe_ok p s) as Hok.
  { right. exists pi, q. split; [done|]. intros k x Hx Hs. split; intros Hch; [by destruct (Hr k x Hx Hs)|by destruct (Hw k x Hx Hs)]. }
  clear Hat Hr Hw. induction Hrun as [s|s s1 s' Hstep _ IH]; [|by apply IH; eapply step_ok].
  destruct Hok as [?|(pi' & q' & Hat & S)]; [by left|]. right. exists pi', q'. split; [done|]. intros k x Hx Hs.
  destruct (S k x Hx Hs) as [H1 H2]. split; intros Hch; [destruct (H1 Hch) as (? & ? & ?)|destruct (H2 Hch) as (E & ? & ?)]; [done|].
  split; [|done]. destruct Hat as (_ & _ & R). pose proof (pr_size _ _ R). unfold room in E. lia.
Qed.

(** ** A pipe *)

Module PipeW.
Definition pg : Z := KERNBASE + 0x400000.
Definition proc_in (x : procstate) (c : option chan) (k : Z) : proc :=
  mkproc 4096 pg pg x 1 None 0 0 c k (replicate NOFILE None) None [].
(** The counters are about to wrap. *)
Definition pi0 : pipe := mkpipe false (replicate 512 0) (2 ^ 32 - 1) (2 ^ 32 - 1) true true.
Definition s0 (k : Z) : kx := mkkx (mkk false false 0 (fun _ => 0)) false
  [proc_in RUNNING None k; proc_in SLEEPING (Some (ChPipeRead pg)) 0] (Some 0%nat) 3 (Some 0%nat) false [] {[pg := pi0]} false 0 zero_console.

Lemma pi0_rep : pipe_rep pi0 [].
Proof. split; [reflexivity|cbn; lia|reflexivity|cbn; unfold PIPESIZE; lia|]. intros j x Hx. by destruct j. Qed.

Lemma s0_at k : pipe_at (s0 k) pg pi0 [].
Proof. split_and!; [by cbn; rewrite lookup_singleton_eq|done|apply pi0_rep]. Qed.

Lemma s0_quiet k : quiet pg (s0 k).
Proof.
  split; [done|]. intros pi Hpi. unfold other_locks. cbn [ft_lock tk_lock km k_lock s0 set_pipes pipes orb].
  rewrite insert_singleton_eq, map_to_list_singleton. cbn. by rewrite Hpi.
Qed.

Lemma pipe_is_queue_witness : exists s' pi', pipewrite pg [7; 8] 2 (s0 0) = Ret 2 s' /\ pipe_at s' pg pi' [7; 8].
Proof.
  destruct (pipe_is_queue pg 0 (proc_in RUNNING None 0) (s0 0) pi0 [] [7; 8] 0 (s0_quiet 0) eq_refl eq_refl (s0_at 0)) as [H _].
  apply H. vm_compute. lia.
Defined.

(** A reader finds the pipe empty and sleeps; another process runs and writes. *)
Definition start : kx := set_procs [proc_in RUNNING None 0; proc_in RUNNABLE None 0] (s0 0).
Definition left_in {A} (m : M kx A) (s : kx) : kx := match m s with Ret _ s' | Sleep _ s' => s' | _ => s end.
Definition t1 : kx := left_in (piperead pg 10) start.
Definition t2 : kx := set_pt_lock false (set_cur (Some 1%nat) t1).
Definition t3 : kx := left_in (pipewrite pg [7; 8] 2) t2.

Lemma quiet_at s pi : pt_lock s = false -> pipes s = {[pg := pi]} -> other_locks (set_pipes ∅ s) = false -> quiet pg s.
Proof.
  intros Hl Hp Ho. split; [done|]. intros x Hx. rewrite Hp, insert_singleton_eq.
  revert Ho. unfold other_locks. cbn. rewrite map_to_list_singleton. cbn. by rewrite Hx.
Qed.

Lemma t3_reached : rtc (pipe_step 0 pg) start t3.
Proof.
  eapply rtc_l; [eapply (pp_read 0 pg start 0%nat (proc_in RUNNING None 0) 10 t1)|].
  - apply (quiet_at start pi0); [done|done|by vm_compute].
  - done.
  - done.
  - intros pi Hpi. cbn in Hpi. rewrite lookup_singleton_eq in Hpi. by injection Hpi as <-.
  - right. exists (ChPipeRead pg). vm_compute. reflexivity.
  - eapply rtc_l; [eapply (pp_other 0 pg t1 t2)|eapply rtc_once, (pp_write 0 pg t2 1%nat (proc_in RUNNABLE None 0) [7; 8] t3)].
    + reflexivity.
    + intros k x Hx Hs Hc. exists x. by split_and!.
    + apply (quiet_at t2 pi0); [done|vm_compute; reflexivity|by vm_compute].
    + reflexivity.
    + vm_compute. reflexivity.
    + reflexivity.
    + intros pi Hpi. assert (pipes t2 = {[pg := pi0]}) as E by (vm_compute; reflexivity). rewrite E, lookup_singleton_eq in Hpi. by injection Hpi as <-.
    + left. exists 2. vm_compute. reflexivity.
Qed.

Lemma pipe_wakeups_witness : pipes t3 !! pg = None \/ exists pi' q', pipe_at t3 pg pi' q' /\
  (p_state (procs t3 !!! 0%nat) = SLEEPING -> p_chan (procs t3 !!! 0%nat) = Some (ChPipeRead pg) -> q' = []).
Proof.
  destruct (pipe_wakeups 0 pg start t3 pi0 [] (s0_at 0)) as [H|(pi' & q' & Hat & H)].
  - intros [|[|k]] x Hx; [by injection Hx as <-..|done].
  - intros [|[|k]] x Hx; [by injection Hx as <-..|done].
  - exact t3_reached.
  - left. exact H.
  - right. exists pi', q'. split; [exact Hat|]. intros Hs Hc.
    destruct (H 0%nat (procs t3 !!! 0%nat)) as [H1 _]; [vm_compute; reflexivity|exact Hs|]. by destruct (H1 Hc).
Defined.

(** A killed writer is outside that theorem: it fills the pipe, returns -1, and
    leaves the reader asleep although there are 512 bytes to read. *)
Lemma killed_writer_no_wakeup :
  match pipewrite pg (replicate 513 7) 513 (s0 1) with
  | Ret r s' => r = -1 /\ p_state (procs s' !!! 1%nat) = SLEEPING /\
                (is_empty <$> pipes s' !! pg) = Some false
  | _ => False
  end.
Proof. vm_compute. done. Qed.
End PipeW.
