(* ===== verification/File.v ===== *)
(** Open files: file.c, and pipe.c [pipealloc].

    The table of open files with its reference counts, over the file system and
    the pipes.  Bytes read are returned, and bytes to write are given, as lists;
    the system calls move them from and to user memory. *)

From S2P Require Import Prelude Params CString Mmu Kalloc Vm BlockDev Bio Log Fs Dir Kernel Proc Pipe.

Definition acquire_ftable : M kx unit := acquire ft_lock set_ft_lock.
Definition release_ftable : M kx unit := release ft_lock set_ft_lock.

Definition get_file (f : nat) : M kx file := gets (fun s => files s !!! f).
Definition upd_file (f : nat) (g : file -> file) : M kx unit :=
  modify (fun s => set_files (<[f := g (files s !!! f)]> (files s)) s).

Definition set_f_ref (x : Z) (f : file) : file :=
  mkfile (f_type f) x (f_readable f) (f_writable f) (f_pipe f) (f_ip f) (f_off f).
Definition set_f_off (x : Z) (f : file) : file :=
  mkfile (f_type f) (f_ref f) (f_readable f) (f_writable f) (f_pipe f) (f_ip f) x.

(** file.c [fileinit] *)
Definition fileinit : M kx unit := modify (set_ft_lock false).

(** file.c [filealloc] *)
Definition filealloc : M kx (option nat) :=
  acquire_ftable ;;
  l <- gets files ;;
  match first_idx (fun f => f_ref f =? 0) l with
  | Some i =>
      upd_file i (set_f_ref 1) ;;
      release_ftable ;;
      ret (Some i)
  | None => release_ftable ;; ret None
  end.

(** file.c [filedup] *)
Definition filedup (f : nat) : M kx nat :=
  acquire_ftable ;;
  x <- get_file f ;;
  if f_ref x <? 1 then panic "filedup" else
  upd_file f (set_f_ref (s32 (f_ref x + 1))) ;;
  release_ftable ;;
  ret f.

(** file.c [fileclose] up to the release of the lock: the file to close, if this
    was the last reference. *)
Definition fileclose_ref (f : nat) : M kx (option file) :=
  acquire_ftable ;;
  x <- get_file f ;;
  if f_ref x <? 1 then panic "fileclose" else
  let r := f_ref x - 1 in
  upd_file f (set_f_ref r) ;;
  if 0 <? r then release_ftable ;; ret None else
  ff <- get_file f ;;
  upd_file f (fun x => mkfile FD_NONE 0 (f_readable x) (f_writable x) (f_pipe x) (f_ip x) (f_off x)) ;;
  release_ftable ;;
  ret (Some ff).

Section with_device.
Context `{BlockDev} (kend : Z) (devsw : Z -> devops (E := kx)).
Abbreviation FS := (M (fsst kx)).

(** file.c [fileclose] *)
Definition fileclose (f : nat) : FS unit :=
  o <- liftk (fileclose_ref f) ;;
  match o with
  | None => ret tt
  | Some ff =>
      match f_type ff with
      | FD_PIPE => liftk (pipeclose kend (f_pipe ff) (f_writable ff))
      | FD_INODE =>
          liftl begin_op ;;
          iput (f_ip ff) ;;
          liftl end_op
      | FD_NONE => ret tt
      end
  end.

(** file.c [filestat] *)
Definition filestat (f : nat) : FS (option stat) :=
  x <- liftk (get_file f) ;;
  match f_type x with
  | FD_INODE =>
      ilock (f_ip x) ;;
      st <- stati (f_ip x) ;;
      iunlock (f_ip x) ;;
      ret (Some st)
  | _ => ret None
  end.

(** file.c [fileread]: the value returned and the bytes stored. *)
Definition fileread (f : nat) (n : Z) : FS (Z * list Z) :=
  x <- liftk (get_file f) ;;
  if negb (f_readable x) then ret (-1, []) else
  match f_type x with
  | FD_PIPE => liftk (piperead (f_pipe x) n)
  | FD_INODE =>
      ilock (f_ip x) ;;
      r <- readi devsw (f_ip x) (f_off x) (u32 n) ;;
      when (0 <? r.1) (liftk (upd_file f (fun x => set_f_off (u32 (f_off x + r.1)) x))) ;;
      iunlock (f_ip x) ;;
      ret r
  | FD_NONE => panic "fileread"
  end.

(** file.c [filewrite]; every round of the loop writes at least one byte, so
    [n] rounds are enough. *)
Definition FILEMAX : Z := ((LOGSIZE - 1 - 1 - 2) / 2) * 512.
Fixpoint filewrite_loop (fuel : nat) (f ip : nat) (src : list Z) (i n : Z) : FS Z :=
  if i <? n then
    match fuel with
    | O => fault "filewrite: fuel"
    | S k =>
        let n1 := if FILEMAX <? n - i then FILEMAX else n - i in
        liftl begin_op ;;
        ilock ip ;;
        x <- liftk (get_file f) ;;
        r <- writei devsw ip (drop (Z.to_nat i) src) (f_off x) n1 ;;
        when (0 <? r) (liftk (upd_file f (fun x => set_f_off (u32 (f_off x + r)) x))) ;;
        iunlock ip ;;
        liftl end_op ;;
        if r <? 0 then ret i
        else if negb (r =? n1) then panic "short filewrite"
        else filewrite_loop k f ip src (i + r) n
    end
  else ret i.
Definition filewrite (f : nat) (src : list Z) (n : Z) : FS Z :=
  x <- liftk (get_file f) ;;
  if negb (f_writable x) then ret (-1) else
  match f_type x with
  | FD_PIPE => liftk (pipewrite (f_pipe x) src n)
  | FD_INODE =>
      i <- filewrite_loop (Z.to_nat n) f (f_ip x) src 0 n ;;
      ret (if i =? n then n else -1)
  | FD_NONE => panic "filewrite"
  end.

(** pipe.c [pipealloc]; [data] starts with what the page held. *)
Definition PIPE_DATA : Z := 52.
Definition pipe_bad (f0 f1 : option nat) : FS (option (nat * nat)) :=
  match f0 with Some f => fileclose f | None => ret tt end ;;
  match f1 with Some f => fileclose f | None => ret tt end ;;
  ret None.
Definition pipealloc : FS (option (nat * nat)) :=
  o0 <- liftk filealloc ;;
  match o0 with
  | None => pipe_bad None None
  | Some f0 =>
      o1 <- liftk filealloc ;;
      match o1 with
      | None => pipe_bad (Some f0) None
      | Some f1 =>
          p <- liftk (liftm kalloc) ;;
          if p =? 0 then pipe_bad (Some f0) (Some f1) else
          m <- liftk (gets (fun s => pm (km s))) ;;
          let data := map (fun k => m (p + PIPE_DATA + Z.of_nat k)) (seq 0 (Z.to_nat PIPESIZE)) in
          liftk (put_pipe p (mkpipe false data 0 0 true true)) ;;
          liftk (upd_file f0 (fun x => mkfile FD_PIPE (f_ref x) true false p (f_ip x) (f_off x))) ;;
          liftk (upd_file f1 (fun x => mkfile FD_PIPE (f_ref x) false true p (f_ip x) (f_off x))) ;;
          ret (Some (f0, f1))
      end
  end.
End with_device.
