(* ===== verification/FileRefs.v ===== *)
(** Reference counts of open files: over every sequence of [filealloc],
    [filedup] and [fileclose], the count of a file is the number of references
    handed out and not yet closed. *)

From S2P Require Import Prelude Params CString Mmu Kalloc Vm BlockDev Bio Log Fs Dir Kernel Proc Pipe File.

(** How many of the references [H] are to [f]. *)
Definition count (f : nat) (H : list nat) : Z := Z.of_nat (length (filter (fun x => x = f) H)).

(** Drop one reference to [f]. *)
Fixpoint drop_ref (f : nat) (H : list nat) : list nat :=
  match H with
  | [] => []
  | x :: H' => if decide (x = f) then H' else x :: drop_ref f H'
  end.

(** The table together with the references that are held.  A reference is
    duplicated or closed only by someone who holds it. *)
Inductive fstep : kx * list nat -> kx * list nat -> Prop :=
| fs_alloc s H f s' : Z.of_nat (length H) < 2 ^ 31 - 1 -> filealloc s = Ret (Some f) s' -> fstep (s, H) (s', f :: H)
| fs_none s H s' : filealloc s = Ret None s' -> fstep (s, H) (s', H)
| fs_dup s H f s' : f ∈ H -> Z.of_nat (length H) < 2 ^ 31 - 1 -> filedup f s = Ret f s' -> fstep (s, H) (s', f :: H)
| fs_close s H f o s' : f ∈ H -> fileclose_ref f s = Ret o s' -> fstep (s, H) (s', drop_ref f H)
| fs_use s H f g s' : (forall x, f_ref (g x) = f_ref x) -> upd_file f g s = Ret tt s' -> fstep (s, H) (s', H).

Inductive freach (a : kx * list nat) : kx * list nat -> Prop :=
| fr_refl : freach a a
| fr_step b c : freach a b -> fstep b c -> freach a c.

Record finv (s : kx) (H : list nat) : Prop := {
  fi_lock : ft_lock s = false;
  fi_ref : forall f x, files s !! f = Some x -> f_ref x = count f H;
  fi_in : forall f, f ∈ H -> (f < length (files s))%nat;
  fi_len : Z.of_nat (length H) < 2 ^ 31
}.

Lemma count_cons f g H : count f (g :: H) = (if decide (g = f) then 1 else 0) + count f H.
Proof. unfold count. rewrite filter_cons. case_decide; cbn [length]; lia. Qed.

Lemma count_pos f H : f ∈ H <-> 1 <= count f H.
Proof.
  induction H as [|g H IH].
  - split; [by intros ?%elem_of_nil|]. by unfold count; cbn.
  - rewrite count_cons, elem_of_cons. pose proof (Zle_0_nat (length (filter (fun x => x = f) H))) as Hp. fold (count f H) in Hp.
    case_decide as E; [subst; split; [lia|by left]|]. rewrite Z.add_0_l, <- IH. naive_solver.
Qed.

Lemma count_le f H : 0 <= count f H <= Z.of_nat (length H).
Proof. unfold count. pose proof (length_filter (fun x => x = f) H). lia. Qed.

Lemma count_drop f g H : f ∈ H -> count g (drop_ref f H) = count g H - (if decide (f = g) then 1 else 0).
Proof.
  induction H as [|x H IH]; [by intros ?%elem_of_nil|]. intros Hin. cbn [drop_ref]. destruct (decide (x = f)) as [E|E].
  - subst x. rewrite count_cons. lia.
  - apply elem_of_cons in Hin as [->|Hin]; [done|]. rewrite !count_cons, IH by done. lia.
Qed.

Lemma drop_ref_in f g H : g ∈ drop_ref f H -> g ∈ H.
Proof. induction H as [|x H IH]; cbn; [done|]. case_decide; rewrite ?elem_of_cons; naive_solver. Qed.

Lemma drop_ref_length f H : (length (drop_ref f H) <= length H)%nat.
Proof. induction H as [|x H IH]; cbn; [lia|]. case_decide; cbn; lia. Qed.

(** A change of the count of one file. *)
Lemma finv_upd s H f x y s' H' : finv s H -> files s !! f = Some x -> files s' = <[f := y]> (files s) -> ft_lock s' = false ->
  f_ref y = count f H' -> (forall g, g <> f -> count g H' = count g H) ->
  (forall g, g ∈ H' -> g = f \/ g ∈ H) -> Z.of_nat (length H') < 2 ^ 31 -> finv s' H'.
Proof.
  intros [L R I N] Hx E Hl Hy Ho Hin Hn. assert (f < length (files s))%nat as Hf by (by eapply lookup_lt_Some). split; [done| | |done].
  - rewrite E. intros g z Hz. destruct (decide (g = f)) as [->|Hne].
    + rewrite list_lookup_insert_eq in Hz by done. by simplify_eq.
    + rewrite list_lookup_insert_ne in Hz by done. rewrite Ho by done. eauto.
  - rewrite E, length_insert. intros g Hg. destruct (Hin g Hg) as [->|?]; eauto.
Qed.

Lemma acquire_ft s : ft_lock s = false -> acquire_ftable s = Ret tt (set_ft_lock true s).
Proof. intros E. unfold acquire_ftable, acquire, bind, gets. by rewrite E. Qed.
Lemma release_ft s : ft_lock s = true -> release_ftable s = Ret tt (set_ft_lock false s).
Proof. intros E. unfold release_ftable, release, bind, gets. by rewrite E. Qed.

Lemma set_ft_back s : ft_lock s = false -> set_ft_lock false (set_ft_lock true s) = s.
Proof. destruct s. cbn. by intros ->. Qed.

(** ** The operations *)

Lemma filealloc_eq s H : finv s H ->
  match first_idx (fun f => f_ref f =? 0) (files s) with
  | Some f => filealloc s = Ret (Some f) (set_files (<[f := set_f_ref 1 (files s !!! f)]> (files s)) s)
  | None => filealloc s = Ret None s
  end.
Proof.
  intros [L _ _ _]. unfold filealloc, bind. rewrite (acquire_ft s L). cbn [gets]. unfold gets. cbn [files set_ft_lock].
  destruct (first_idx _ _); unfold upd_file, modify; rewrite release_ft by done; unfold ret; f_equal; destruct s; cbn in *; by rewrite L.
Qed.

Lemma filedup_eq s H f x : finv s H -> files s !! f = Some x -> 1 <= f_ref x < 2 ^ 31 - 1 ->
  filedup f s = Ret f (set_files (<[f := set_f_ref (f_ref x + 1) x]> (files s)) s).
Proof.
  intros [L _ _ _] Hx Hr. unfold filedup, bind. rewrite (acquire_ft s L). unfold get_file, gets. cbn [files set_ft_lock].
  rewrite (list_lookup_total_correct _ _ _ Hx). destruct (Z.ltb_spec (f_ref x) 1); [lia|].
  unfold upd_file, modify. cbn [files set_ft_lock]. rewrite (list_lookup_total_correct _ _ _ Hx), s32_small by lia.
  rewrite release_ft by done. unfold ret. f_equal. destruct s; cbn in *. by rewrite L.
Qed.

Definition freed_file (x : file) : file := mkfile FD_NONE 0 (f_readable x) (f_writable x) (f_pipe x) (f_ip x) (f_off x).

Lemma fileclose_eq s H f x : finv s H -> files s !! f = Some x -> 1 <= f_ref x ->
  fileclose_ref f s = if 1 <? f_ref x then Ret None (set_files (<[f := set_f_ref (f_ref x - 1) x]> (files s)) s)
                      else Ret (Some (set_f_ref 0 x)) (set_files (<[f := freed_file x]> (files s)) s).
Proof.
  intros [L _ _ _] Hx Hr. assert (f < length (files s))%nat as Hf by (by eapply lookup_lt_Some).
  unfold fileclose_ref, bind. rewrite (acquire_ft s L). unfold get_file, gets. cbn [files set_ft_lock].
  rewrite (list_lookup_total_correct _ _ _ Hx). destruct (Z.ltb_spec (f_ref x) 1); [lia|].
  unfold upd_file, modify. cbn [files set_ft_lock set_files]. rewrite (list_lookup_total_correct _ _ _ Hx).
  destruct (Z.ltb_spec 0 (f_ref x - 1)), (Z.ltb_spec 1 (f_ref x)); try lia.
  - rewrite release_ft by done. unfold ret. f_equal. destruct s; cbn in *. by rewrite L.
  - assert (f_ref x = 1) as E1 by lia. cbn [files set_files set_ft_lock]. rewrite list_lookup_total_insert_eq, list_insert_insert_eq by done. rewrite release_ft by done.
    unfold ret. rewrite E1. change (1 - 1) with 0. f_equal. destruct s; cbn in *. by rewrite L.
Qed.

Lemma finv_file s H f : finv s H -> f ∈ H -> exists x, files s !! f = Some x /\ f_ref x = count f H /\ 1 <= f_ref x < 2 ^ 31.
Proof.
  intros F Hf. destruct (lookup_lt_is_Some_2 (files s) f (fi_in _ _ F f Hf)) as [x Hx]. exists x. split; [done|].
  pose proof (fi_ref _ _ F f x Hx) as E. split; [done|]. rewrite E. pose proof (count_le f H). pose proof (fi_len _ _ F).
  apply count_pos in Hf. lia.
Qed.

Lemma fresh_count s H f : finv s H -> first_idx (fun f => f_ref f =? 0) (files s) = Some f ->
  exists x, files s !! f = Some x /\ count f H = 0.
Proof.
  intros F E. apply first_idx_some in E as (x & Hx & H0 & _). exists x. split; [done|].
  rewrite <- (fi_ref _ _ F f x Hx). by apply Z.eqb_eq.
Qed.

Lemma finv_step s H s' H' : finv s H -> fstep (s, H) (s', H') -> finv s' H'.
Proof.
  intros F St. inversion St; subst.
  - pose proof (filealloc_eq s H F) as E. destruct (first_idx _ _) as [g|] eqn:Ef; [|congruence].
    assert (g = f) as -> by congruence. assert (s' = set_files (<[f := set_f_ref 1 (files s !!! f)]> (files s)) s) as -> by congruence.
    destruct (fresh_count s H f F Ef) as (x & Hx & H0). eapply (finv_upd s H f x); [done|done|done|apply F| | | |].
    + cbn. rewrite count_cons, decide_True by done. lia.
    + intros g Hg. rewrite count_cons, decide_False by done. lia.
    + intros g. rewrite elem_of_cons. naive_solver.
    + cbn [length]. lia.
  - pose proof (filealloc_eq s H' F) as E. destruct (first_idx _ _); [congruence|]. by replace s' with s by congruence.
  - destruct (finv_file s H f F) as (x & Hx & Hc & Hr); [done|]. pose proof (count_le f H).
    pose proof (filedup_eq s H f x F Hx ltac:(lia)) as E. assert (s' = set_files (<[f := set_f_ref (f_ref x + 1) x]> (files s)) s) as -> by congruence.
    eapply (finv_upd s H f x); [done|done|done|apply F| | | |].
    + cbn. rewrite count_cons, decide_True by done. lia.
    + intros g Hg. rewrite count_cons, decide_False by done. lia.
    + intros g. rewrite elem_of_cons. naive_solver.
    + cbn [length]. lia.
  - destruct (finv_file s H f F) as (x & Hx & Hc & Hr); [done|]. pose proof (fileclose_eq s H f x F Hx ltac:(lia)) as E.
    assert (exists y, s' = set_files (<[f := y]> (files s)) s /\ f_ref y = f_ref x - 1) as (y & -> & Hy).
    { destruct (Z.ltb_spec 1 (f_ref x)); [exists (set_f_ref (f_ref x - 1) x)|exists (freed_file x)]; (split; [congruence|cbn; lia]). }
    eapply (finv_upd s H f x); [done|done|done|apply F| | | |].
    + rewrite count_drop, decide_True by done. lia.
    + intros g Hg. rewrite count_drop, decide_False by done. lia.
    + intros g Hg. right. by eapply drop_ref_in.
    + pose proof (drop_ref_length f H). pose proof (fi_len _ _ F). lia.
  - match goal with E : upd_file _ _ _ = _ |- _ => injection E as <- end. destruct F as [L R I N]. split; cbn; [done| |by rewrite length_insert|done].
    intros k x Hx. destruct (decide (k = f)) as [->|Hne].
    + assert (f < length (files s))%nat as Hf by (apply lookup_lt_Some in Hx; by rewrite length_insert in Hx).
      rewrite list_lookup_insert_eq in Hx by done. injection Hx as <-.
      match goal with Hg : forall x, f_ref (g x) = f_ref x |- _ => rewrite Hg end. apply R. by apply list_lookup_lookup_total_lt.
    + rewrite list_lookup_insert_ne in Hx by done. by apply R.
Qed.

(** The table at boot. *)
Definition no_files (s : kx) : Prop := ft_lock s = false /\ Forall (fun x => f_ref x = 0) (files s).

Lemma finv_reach s0 s H : no_files s0 -> freach (s0, []) (s, H) -> finv s H.
Proof.
  intros [L Z0] R. remember (s0, []) as a eqn:Ea. remember (s, H) as b eqn:Eb. revert s H Eb. induction R as [|b c R IH St]; intros s H Eb.
  - rewrite Ea in Eb. injection Eb as <- <-. split; [done| |by intros ? ?%elem_of_nil|cbn; lia].
    intros f x Hx. rewrite Forall_lookup in Z0. by rewrite (Z0 f x Hx).
  - subst c. destruct b as [t G]. eapply finv_step; [|exact St]. by apply IH.
Qed.

(** C22: reference counting of open files is exact.  After any sequence of
    [filealloc], [filedup] and [fileclose] by holders of references (fewer than
    2^31 at a time), the count of a file is the number of references to it;
    [filealloc] never returns a file that is referenced, and fails only when
    every file is; [filedup] and [fileclose] of a reference that is held do not
    panic; and a file is closed for good exactly with its last reference. *)
Theorem file_refs s0 s H : no_files s0 -> freach (s0, []) (s, H) ->
  (forall f x, files s !! f = Some x -> f_ref x = count f H) /\
  (exists o s', filealloc s = Ret o s' /\ match o with Some f => f ∉ H /\ (f < length (files s))%nat
                                        | None => forall f, (f < length (files s))%nat -> f ∈ H end) /\
  (forall f, f ∈ H -> Z.of_nat (length H) < 2 ^ 31 - 1 -> exists s', filedup f s = Ret f s') /\
  (forall f, f ∈ H -> exists o s', fileclose_ref f s = Ret o s' /\ (is_Some o <-> count f H = 1)).
Proof.
  intros H0 R. pose proof (finv_reach s0 s H H0 R) as F. split_and!.
  - apply F.
  - pose proof (filealloc_eq s H F) as E. destruct (first_idx _ _) as [f|] eqn:Ef; eexists _, _; (split; [exact E|]).
    + destruct (fresh_count s H f F Ef) as (x & Hx & Hz). split; [|by eapply lookup_lt_Some]. rewrite count_pos. lia.
    + intros f Hf. destruct (lookup_lt_is_Some_2 _ _ Hf) as [x Hx]. apply first_idx_none in Ef. rewrite Forall_lookup in Ef.
      specialize (Ef f x Hx). apply Z.eqb_neq in Ef. apply count_pos. rewrite (fi_ref _ _ F f x Hx) in Ef. pose proof (count_le f H). lia.
  - intros f Hf Hn. destruct (finv_file s H f F Hf) as (x & Hx & Hc & Hr). pose proof (count_le f H).
    eexists. apply (filedup_eq s H f x F Hx). lia.
  - intros f Hf. destruct (finv_file s H f F Hf) as (x & Hx & Hc & Hr). rewrite (fileclose_eq s H f x F Hx) by lia.
    destruct (Z.ltb_spec 1 (f_ref x)); eexists _, _; (split; [reflexivity|]).
    + split; [by intros [? ?]|lia].
    + split; [lia|by eexists].
Qed.

Module FileW.
Definition s0 : kx := mkkx (mkk false false 0 (fun _ => 0)) false [] None 1 None false (replicate NFILE zero_file) ∅ false 0 zero_console.
Definition after {A} (m : M kx A) (s : kx) : kx := match m s with Ret _ s' => s' | _ => s end.

(** A file is opened, duplicated and closed once. *)
Definition s1 : kx := after filealloc s0.
Definition s2 : kx := after (filedup 0) s1.
Definition s3 : kx := after (fileclose_ref 0) s2.

Lemma s3_reach : freach (s0, []) (s3, [0%nat]).
Proof.
  eapply fr_step; [|apply (fs_close s2 [0; 0]%nat 0 None s3); [by left|vm_compute; reflexivity]].
  eapply fr_step; [|apply (fs_dup s1 [0]%nat 0 s2); [by left|cbn; lia|vm_compute; reflexivity]].
  eapply fr_step; [apply fr_refl|]. apply fs_alloc; [cbn; lia|vm_compute; reflexivity].
Qed.

Lemma file_refs_witness : exists o s', fileclose_ref 0 s3 = Ret o s' /\ (is_Some o <-> count 0 [0%nat] = 1).
Proof.
  destruct (file_refs s0 s3 [0%nat]) as (_ & _ & _ & H).
  - split; [reflexivity|]. apply Forall_replicate. reflexivity.
  - apply s3_reach.
  - apply H. by left.
Defined.
End FileW.
