(* ===== verification/FileWrite.v ===== *)
(** Writing an open file: file.c [filewrite] over the log, the inode cache and
    the inode operations.

    A call splits the bytes into rounds; each round is one transaction
    ([begin_op], [ilock], [writei], [iunlock], [end_op]).  When no other
    operation is running, each [end_op] commits, so that the call returns with
    the bytes in the file and the file on the disk.  The last part shows what
    two calls can do to each other. *)

From S2P Require Import Prelude Params CString Mmu Kalloc Vm BlockDev Bio Log Fs FsSpec FileSpec Dinode FileData.
From S2P Require Import FsOps Dir Kernel Proc Pipe File Crash FsWitness.

Section loops.
Context `{BlockDev} {E : Type}.

(** Only the first [n] bytes at [src] are written. *)
Lemma writei_loop_take fuel ip src src' off tot n (s : fsst E) :
  0 <= tot -> take (Z.to_nat n) src = take (Z.to_nat n) src' ->
  writei_loop fuel ip src off tot n s = writei_loop fuel ip src' off tot n s.
Proof.
  intros Ht Hs. revert off tot s Ht. induction fuel as [|f IH]; intros off tot s Ht; cbn [writei_loop];
    (destruct (Z.ltb_spec tot n) as [Hlt|]; [|done]); [done|].
  set (m := Z.min (n - tot) (BSIZE - off mod BSIZE)).
  assert (0 < m <= n - tot) as Hm.
  { pose proof (Z.mod_pos_bound off BSIZE ltac:(done)). lia. }
  assert (slice (Z.to_nat tot) (Z.to_nat m) src = slice (Z.to_nat tot) (Z.to_nat m) src') as ->.
  { assert (forall l : list Z, slice (Z.to_nat tot) (Z.to_nat m) l = slice (Z.to_nat tot) (Z.to_nat m) (take (Z.to_nat n) l)) as E'.
    { intros l. unfold slice. rewrite skipn_firstn_comm, firstn_firstn. f_equal. lia. }
    rewrite (E' src), (E' src'). by rewrite Hs. }
  unfold bind.
  repeat match goal with |- match ?x with _ => _ end = _ => destruct x; try done end.
  apply IH. lia.
Qed.

Lemma writei_take devsw ip src off n (s : fsst E) : i_type (inode_of s ip) <> T_DEV ->
  writei devsw ip src off n s = writei devsw ip (take (Z.to_nat n) src) off n s.
Proof.
  intros Hty. unfold writei, get_inode, bind, gets. rewrite (proj2 (Z.eqb_neq _ _) Hty).
  destruct ((i_size (inode_of s ip) <? off) || (u32 (off + n) <? off)); [done|].
  destruct (MAXFILE * BSIZE <? u32 (off + n)); [done|].
  rewrite (writei_loop_take _ ip src (take (Z.to_nat n) src)); [done|lia|]. by rewrite take_take, Nat.min_id.
Qed.
End loops.

(** ** The call *)

(** A sequence of calls that yields the result of one of them. *)
Lemma wp_then {S X A B} (a b h j : M S unit) (c : M S X) (d : X -> M S A) (e : A -> M S unit) (k : A -> M S B) s
    (P : A -> S -> Prop) (Q : B -> S -> Prop) :
  wp (a ;; b ;; x <- c ;; r <- d x ;; e r ;; h ;; j ;; ret r) s P ->
  (forall r s', P r s' -> wp (k r) s' Q) ->
  wp (a ;; b ;; x <- c ;; r <- d x ;; e r ;; h ;; j ;; k r) s Q.
Proof.
  unfold wp, bind, ret. intros HP HQ.
  repeat match goal with |- context [match ?m ?s' with Ret _ _ => _ | _ => _ end] =>
    lazymatch m with k _ => fail | _ => destruct (m s'); try done end end.
  by apply HQ.
Qed.

(** How many blocks a round can touch. *)
Lemma nblk_le off n : 0 <= off -> 0 < n <= FILEMAX -> nblk off n <= 14.
Proof.
  intros Ho Hn. unfold nblk. rewrite (proj2 (Z.leb_gt _ _)) by lia. change FILEMAX with 6656 in Hn.
  change BSIZE with 512. pose proof (Z.div_mod off 512). pose proof (Z.mod_pos_bound off 512).
  assert ((off + n - 1) / 512 <= off / 512 + 13); [|lia]. apply Z.lt_succ_r, Z.div_lt_upper_bound; lia.
Qed.

(** Splitting a write counts the block at the split at most twice. *)
Lemma nblk_split off a b : 0 <= off -> 0 < a -> 0 < b -> nblk off a + nblk (off + a) b <= nblk off (a + b) + 1.
Proof.
  intros Ho Ha Hb. unfold nblk. rewrite !(proj2 (Z.leb_gt _ _)) by lia.
  replace (off + a + b - 1) with (off + (a + b) - 1) by lia. change BSIZE with 512.
  pose proof (Z.div_le_mono (off + a - 1) (off + a) 512). lia.
Qed.

Lemma nblk_nonneg off len : 0 <= off -> 0 <= nblk off len.
Proof.
  intros Ho. unfold nblk. destruct (Z.leb_spec len 0); [done|].
  pose proof (Z.div_le_mono off (off + len - 1) BSIZE ltac:(done)). lia.
Qed.

(** Enough free blocks for a write, the indirect block apart. *)
Definition need (off len : Z) : Z := nblk off len + len / FILEMAX.

Lemma need_nonneg off len : 0 <= off -> 0 <= len -> 0 <= need off len.
Proof.
  intros Ho Hl. pose proof (nblk_nonneg off len Ho). unfold need.
  pose proof (Z.div_pos len FILEMAX Hl). change FILEMAX with 6656 in *. lia.
Qed.

Lemma need_one off len : 0 <= off -> 0 < len -> nblk off len <= need off len.
Proof. intros Ho Hl. unfold need. pose proof (Z.div_pos len FILEMAX). change FILEMAX with 6656 in *. lia. Qed.

Lemma need_step off len : 0 <= off -> FILEMAX < len -> nblk off FILEMAX + need (off + FILEMAX) (len - FILEMAX) <= need off len.
Proof.
  intros Ho Hl. unfold need. pose proof (nblk_split off FILEMAX (len - FILEMAX) Ho ltac:(done) ltac:(lia)) as Hs.
  replace (FILEMAX + (len - FILEMAX)) with len in Hs by lia.
  replace (len / FILEMAX) with ((len - FILEMAX) / FILEMAX + 1); [lia|].
  rewrite <- Z.div_add by done. f_equal. lia.
Qed.

Lemma splice_splice (D a b : list Z) off : (off <= length D)%nat ->
  let D1 := take off D ++ a ++ drop (off + length a) D in
  take (off + length a) D1 ++ b ++ drop (off + length a + length b) D1 =
  take off D ++ (a ++ b) ++ drop (off + length (a ++ b)) D.
Proof.
  intros Ho D1. assert (length (take off D ++ a) = off + length a)%nat as Hl.
  { rewrite length_app, length_take. lia. }
  unfold D1. rewrite (app_assoc (take off D)). rewrite take_app_length' by done.
  rewrite drop_app_ge, drop_drop by lia. rewrite Hl, length_app, <- !app_assoc. do 4 f_equal. lia.
Qed.

Lemma rounds_data (D src : list Z) off i m (n := Z.of_nat (length src)) :
  0 <= off <= Z.of_nat (length D) -> 0 <= i -> 0 <= m -> i + m <= n ->
  let D1 := take (Z.to_nat off) D ++ take (Z.to_nat m) (drop (Z.to_nat i) src) ++ drop (Z.to_nat (off + m)) D in
  take (Z.to_nat (off + m)) D1 ++ drop (Z.to_nat (i + m)) src ++ drop (Z.to_nat (off + (n - i))) D1 =
  take (Z.to_nat off) D ++ drop (Z.to_nat i) src ++ drop (Z.to_nat (off + (n - i))) D.
Proof.
  intros Ho Hi Hm Hn D1.
  set (a := take (Z.to_nat m) (drop (Z.to_nat i) src)). set (b := drop (Z.to_nat (i + m)) src).
  assert (drop (Z.to_nat i) src = a ++ b) as Eab.
  { unfold a, b. rewrite Z2Nat.inj_add, <- drop_drop by lia. by rewrite take_drop. }
  assert (length a = Z.to_nat m) as La by (unfold a; rewrite length_take, length_drop; lia).
  assert (length b = Z.to_nat (n - i - m)) as Lb by (unfold b; rewrite length_drop; lia).
  pose proof (splice_splice D a b (Z.to_nat off) ltac:(lia)) as E. cbv zeta in E.
  rewrite length_app, La, Lb in E. rewrite Eab. unfold D1.
  replace (Z.to_nat (off + m)) with (Z.to_nat off + Z.to_nat m)%nat by lia.
  replace (Z.to_nat (off + (n - i))) with (Z.to_nat off + Z.to_nat m + Z.to_nat (n - i - m))%nat by lia.
  etrans; [exact E|]. by rewrite Nat.add_assoc.
Qed.

Section call.
Context `{BlockDev} (g : geom) (Hg : geom_ok g) (Hcap : 18 <= g_size g).
Context (sb : superblock) (Hly : layout g sb) (Hone : sb_size sb <= BPB).
Context (devsw : Z -> devops (E := kx)).

(** No operation is running; [f] is open for writing on the file [ip], which
    holds [data], at offset [off]; the inode is cached and nobody holds it. *)
Record open_file (s : fsst kx) (v : key -> block) (f ip : nat) (off : Z) (data : list Z) : Prop := {
  of_rep : frep g 0 s v [] ∅;
  of_bits : bitmap_ok g sb v;
  of_ok : file_ok g sb v (inode_of s ip);
  of_data : file_data g v (inode_of s ip) = data;
  of_ty : i_type (inode_of s ip) <> T_DEV;
  of_ref : 1 <= i_ref (inode_of s ip);
  of_valid : testf (i_flags (inode_of s ip)) I_VALID = true;
  of_free : testf (i_flags (inode_of s ip)) I_BUSY = false;
  of_ip : (ip < NINODE)%nat;
  of_f : (f < length (files (ext s)))%nat;
  of_kind : f_type (files (ext s) !!! f) = FD_INODE;
  of_writable : f_writable (files (ext s) !!! f) = true;
  of_inode : f_ip (files (ext s) !!! f) = ip;
  of_off : f_off (files (ext s) !!! f) = off
}.

(** The disk holds the file system, the blocks of the log apart. *)
Definition on_disk (s : fsst kx) (v : key -> block) : Prop :=
  forall x, 0 <= x < g_start g -> disk_get (dk (lb (fl s))) (gk g x) = v (gk g x).

Record written (s : fsst kx) (v : key -> block) (f ip : nat) (off : Z) (data : list Z) (m : nat)
    (s' : fsst kx) (v' : key -> block) : Prop := {
  wr_file : open_file s' v' f ip off data;
  wr_disk : on_disk s' v';
  wr_others : others_kept g sb v (inode_of s ip) v' (inode_of s' ip);
  wr_free : nfree g sb v' (m + nz (ind (inode_of s' ip)))
}.

(** [writei] in a round: there is room in the log and on the disk. *)
Lemma round_writei s v ip src off n1 (I := inode_of s ip) :
  frep g 1 s v [] ∅ -> bitmap_ok g sb v -> file_ok g sb v I -> i_type I <> T_DEV -> (ip < NINODE)%nat ->
  Forall is_u8 src -> 0 <= off <= i_size I -> 0 < n1 <= FILEMAX -> n1 <= Z.of_nat (length src) ->
  off + n1 <= MAXFILE * BSIZE -> nfree g sb v (Z.to_nat (nblk off n1) + nz (ind I)) ->
  wp (writei devsw ip src off n1) s (fun r s' => r = n1 /\ write_post g 1 sb s v [] ip (take (Z.to_nat n1) src) off s').
Proof.
  intros F Hbits Hok Hty Hip H8 Hoff Hn1 Hlen Hmax Hfree.
  pose proof (nblk_le off n1 ltac:(lia) Hn1) as Hnb.
  assert (Z.of_nat (length (take (Z.to_nat n1) src)) = n1) as El by (rewrite length_take; lia).
  unfold wp. rewrite writei_take by done.
  pose proof (writei_fs g Hg 1 sb Hly Hone devsw s v [] ip (take (Z.to_nat n1) src) off F) as Hw.
  rewrite El in Hw. apply Hw; try done; [by apply Forall_take|].
  unfold pend. rewrite decide_False by set_solver. rewrite decide_False by set_solver. cbn [length]. lia.
Qed.

(** The end of a round, after [writei]. *)
Lemma round_end s v ss f ip r (I := inode_of s ip) (x := files (ext s) !!! f) :
  frep g 1 s v ss ∅ -> (ip < NINODE)%nat -> 1 <= i_ref I -> testf (i_flags I) I_BUSY = true -> 0 < r ->
  wp (when (0 <? r) (liftk (upd_file f (fun x => set_f_off (u32 (f_off x + r)) x))) ;;
      iunlock ip ;; liftl end_op ;; ret r) s
    (fun r' s' => r' = r /\ exists v', frep g 0 s' v' [] ∅ /\ agree g v v' /\ on_disk s' v' /\
       inode_of s' ip = set_i_flags (Z.land (i_flags I) (Z.lnot I_BUSY)) I /\
       files (ext s') = <[f := set_f_off (u32 (f_off x + r)) x]> (files (ext s))).
Proof.
  intros F Hip Href Hbusy Hr. rewrite (proj2 (Z.ltb_lt _ _) Hr). cbn [when].
  apply wp_bind, wp_zoom, wp_modify. set (s1 := put_ext _ s).
  assert (frep g 1 s1 v ss ∅) as F1 by (destruct F; by split).
  eapply wp_seq; [exact (iunlock_fs g 1 s1 v ss ip F1 Hip Href Hbusy)|]. intros _ s2 (F2 & Hext & EI & _).
  eapply wp_seq; [exact (end_op_fs g Hg s2 v ss F2)|]. intros _ s3 (v' & F3 & Hv & Hic' & Hext' & _).
  apply wp_ret. split; [done|]. exists v'. split_and!; [done| | | |].
  - intros y Hy. apply Hv, out_of_log_lt. lia.
  - intros y Hy. destruct (Hv (gk g y)) as [-> ->]; [apply out_of_log_lt; lia|done].
  - by rewrite (inode_of_ic _ _ _ Hic').
  - by rewrite Hext', Hext.
Qed.

(** The round leaves the file open with the bytes written. *)
Lemma round_close s v f ip off data piece m s2 s3 (I := inode_of s ip) (n1 := Z.of_nat (length piece)) :
  open_file s v f ip off data -> inode_of s2 ip = set_i_flags (Z.lor (i_flags I) I_BUSY) I -> ext s2 = ext s ->
  0 <= off <= Z.of_nat (length data) -> 0 < n1 -> off + n1 <= MAXFILE * BSIZE ->
  write_post g 1 sb s2 v [] ip piece off s3 ->
  nfree g sb v (m + Z.to_nat (nblk off n1) + nz (ind I)) ->
  wp (when (0 <? n1) (liftk (upd_file f (fun x => set_f_off (u32 (f_off x + n1)) x))) ;;
      iunlock ip ;; liftl end_op ;; ret n1) s3
    (fun r s' => r = n1 /\ exists v', written s v f ip (off + n1)
       (take (Z.to_nat off) data ++ piece ++ drop (Z.to_nat (off + n1)) data) m s' v').
Proof.
  intros O E2 Hext Hoff Hn1 Hmax (v3 & ss3 & F3 & Hb3 & Hok3 & Hsz3 & Hc3 & Hm3 & Hrk & _ & Hnf) Hfree.
  pose proof O as [F Hbits Hok Hdata Hty Href Hvalid Hbusy Hip Hf Hk Hw Hi Ho].
  fold I in Hok, Hdata, Hty, Href, Hvalid, Hbusy. fold n1 in Hsz3, Hnf.
  assert (ext s3 = ext s) as Hext3 by (rewrite (rk_ext _ _ _ _ _ _ _ Hrk); exact Hext).
  pose proof (fo_size _ _ _ _ Hok) as HsI. rewrite <- Hdata, length_file_data in Hoff.
  rewrite E2 in *. set (I1 := set_i_flags (Z.lor (i_flags I) I_BUSY) I) in *.
  assert (file_data g v3 (inode_of s3 ip) = take (Z.to_nat off) data ++ piece ++ drop (Z.to_nat (off + n1)) data) as Hd3.
  { rewrite <- Hdata. apply (overlay_data g v I1); try done. cbn [i_size I1 set_i_flags]. lia. }
  set (I3 := inode_of s3 ip) in *.
  assert (i_flags I3 = Z.lor (i_flags I) I_BUSY /\ i_ref I3 = i_ref I /\ i_type I3 = i_type I /\ i_inum I3 = i_inum I)
    as (Efl & Er & Et & En) by (rewrite Hm3; done).
  eapply wp_conseq; [apply (round_end s3 v3 ss3 f ip n1 F3 Hip); fold I3; try done|]; rewrite ?Er, ?Efl; [done|apply testf_lock|].
  fold I3. rewrite Efl, Hext3, Ho. intros r s' (-> & v' & F' & Hv & Hdk & EI' & Efs). split; [done|]. exists v'.
  set (x := files (ext s) !!! f) in *.
  assert (files (ext s') !!! f = set_f_off (u32 (off + n1)) x) as Ef by (rewrite Efs; by apply list_lookup_total_insert_eq).
  assert (file_ok g sb v3 (inode_of s' ip)) as Hok' by (rewrite EI'; by apply file_ok_flags).
  split; [split| | |]; rewrite ?Ef; try done.
  - by apply (agree_bitmap g sb Hly v3 v').
  - by apply (agree_file_ok g Hg sb Hly v3 v').
  - rewrite (agree_file_data g sb Hly v3 v') by done. by rewrite EI'.
  - rewrite EI'. cbn [i_type set_i_flags]. by rewrite Et.
  - rewrite EI'. cbn [i_ref set_i_flags]. by rewrite Er.
  - rewrite EI'. by apply testf_unlock.
  - rewrite EI'. apply testf_clear_same.
  - by rewrite Efs, length_insert.
  - cbn [f_off set_f_off]. apply u32_small. change (MAXFILE * BSIZE) with 71680 in *. lia.
  - apply (others_kept_trans _ _ _ _ v3 (inode_of s' ip)); [|by apply others_kept_agree].
    rewrite EI'. intros J HJ HdJ. apply (disjoint_kept g Hg sb Hly s2 ip v s3 v3 J); rewrite ?E2; try done.
    by apply file_ok_flags.
  - rewrite EI'. apply (agree_nfree g sb Hly v3 v' Hv), Hnf, Hfree.
Qed.

(** One round. *)
Lemma filewrite_round s v f ip off data src n1 m :
  open_file s v f ip off data -> 0 <= off <= Z.of_nat (length data) -> 0 < n1 <= FILEMAX ->
  n1 <= Z.of_nat (length src) -> off + n1 <= MAXFILE * BSIZE -> Forall is_u8 src ->
  nfree g sb v (m + Z.to_nat (nblk off n1) + nz (ind (inode_of s ip))) ->
  wp (liftl begin_op ;; ilock ip ;;
      x <- liftk (get_file f) ;;
      r <- writei devsw ip src (f_off x) n1 ;;
      when (0 <? r) (liftk (upd_file f (fun x => set_f_off (u32 (f_off x + r)) x))) ;;
      iunlock ip ;; liftl end_op ;; ret r) s
    (fun r s' => r = n1 /\ exists v', written s v f ip (off + n1)
       (take (Z.to_nat off) data ++ take (Z.to_nat n1) src ++ drop (Z.to_nat (off + n1)) data) m s' v').
Proof.
  intros O Hoff Hn1 Hlen Hmax H8 Hfree. pose proof O as [F Hbits Hok Hdata Hty Href Hvalid Hbusy Hip Hf Hk Hw Hi Ho].
  set (I := inode_of s ip) in *.
  eapply wp_seq; [apply (begin_op_fs g s v F)|]. intros _ s1 (F1 & [Hic Hext _]).
  pose proof (inode_of_ic s s1 ip Hic) as EI. fold I in EI.
  eapply wp_seq; [apply (ilock_fs g 1 s1 v [] ip F1); rewrite ?EI; assumption|]. rewrite EI.
  set (I1 := set_i_flags (Z.lor (i_flags I) I_BUSY) I). intros _ s2 ->.
  pose proof (inode_of_with g 1 s1 v [] ∅ ip I1 F1 Hip) as E1.
  apply wp_bind, wp_zoom, wp_gets. cbn beta.
  change (wp (r <- writei devsw ip src (f_off (files (ext s1) !!! f)) n1 ;;
    when (0 <? r) (liftk (upd_file f (fun x => set_f_off (u32 (f_off x + r)) x))) ;;
    iunlock ip ;; liftl end_op ;; ret r) (with_inode ip I1 s1)
    (fun r s' => r = n1 /\ exists v', written s v f ip (off + n1)
       (take (Z.to_nat off) data ++ take (Z.to_nat n1) src ++ drop (Z.to_nat (off + n1)) data) m s' v')).
  rewrite Hext, Ho. set (s2 := with_inode ip I1 s1) in *.
  eapply wp_seq; [apply (round_writei s2 v ip src off n1); rewrite ?E1; try done|].
  { by apply frep_with_inode. }
  { by apply file_ok_flags. }
  { rewrite <- Hdata, length_file_data in Hoff. pose proof (fo_size _ _ _ _ Hok). cbn [i_size I1 set_i_flags]. lia. }
  { eapply (nfree_le g Hg sb Hly); [|exact Hfree]. change (ind I1) with (ind I). lia. }
  intros r s3 (-> & Hpost). assert (n1 = Z.of_nat (length (take (Z.to_nat n1) src))) as El by (rewrite length_take; lia).
  pose proof (round_close s v f ip off data (take (Z.to_nat n1) src) m s2 s3 O E1 Hext Hoff) as Hc.
  rewrite <- El in Hc. apply Hc; try done. lia.
Qed.

(** The rounds. *)
Lemma filewrite_loop_ok fuel s v f ip off data src i (n := Z.of_nat (length src)) :
  open_file s v f ip off data -> Forall is_u8 src -> 0 <= off <= Z.of_nat (length data) ->
  0 <= i < n -> n - i <= Z.of_nat fuel -> off + (n - i) <= MAXFILE * BSIZE ->
  nfree g sb v (Z.to_nat (need off (n - i)) + nz (ind (inode_of s ip))) ->
  wp (filewrite_loop devsw fuel f ip src i n) s (fun r s' => r = n /\ exists v',
    written s v f ip (off + (n - i))
      (take (Z.to_nat off) data ++ drop (Z.to_nat i) src ++ drop (Z.to_nat (off + (n - i))) data) 0 s' v').
Proof.
  revert s v off data i. induction fuel as [|k IH]; intros s v off data i O H8 Hoff Hi Hfuel Hmax Hfree; [lia|].
  cbn [filewrite_loop]. rewrite (proj2 (Z.ltb_lt i n)) by lia.
  assert (0 < FILEMAX) as HF by done.
  assert (forall n1, 0 < n1 <= FILEMAX -> n1 <= n - i -> n1 <= Z.of_nat (length (drop (Z.to_nat i) src))) as Hd
    by (intros n1 _ ?; rewrite length_drop; lia).
  destruct (Z.ltb_spec FILEMAX (n - i)) as [Hlong|Hshort].
  - pose proof (need_step off (n - i) ltac:(lia) Hlong) as Hneed. pose proof (nblk_nonneg off FILEMAX ltac:(lia)).
    pose proof (need_nonneg (off + FILEMAX) (n - i - FILEMAX) ltac:(lia) ltac:(lia)) as Hn0.
    eapply wp_then; [apply (filewrite_round s v f ip off data (drop (Z.to_nat i) src) FILEMAX
      (Z.to_nat (need (off + FILEMAX) (n - i - FILEMAX))) O); try done|].
    { apply Hd; [done|lia]. } { lia. } { by apply Forall_drop. }
    { eapply (nfree_le g Hg sb Hly); [|exact Hfree]. lia. }
    intros r s1 (-> & v1 & [O1 D1 K1 N1]). rewrite Z.eqb_refl. cbn [negb].
    assert (FILEMAX <= Z.of_nat (length (drop (Z.to_nat i) src))) as Hl by (apply Hd; lia).
    change (FILEMAX <? 0) with false. cbv iota.
    eapply wp_conseq; [apply (IH s1 v1 (off + FILEMAX) _ (i + FILEMAX) O1 H8)|].
    { rewrite !length_app, !length_take, length_drop. lia. } { lia. } { lia. } { lia. }
    { by replace (n - (i + FILEMAX)) with (n - i - FILEMAX) by lia. }
    intros r s' (-> & v' & [O' D' K' N']). split; [done|]. exists v'. split; try done; [|by eapply others_kept_trans].
    replace (off + FILEMAX + (n - (i + FILEMAX))) with (off + (n - i)) in O' by lia.
    unfold n in O'. rewrite rounds_data in O' by lia. exact O'.
  - eapply wp_then; [apply (filewrite_round s v f ip off data (drop (Z.to_nat i) src) (n - i) 0 O); try done|].
    { lia. } { apply Hd; lia. } { by apply Forall_drop. }
    { eapply (nfree_le g Hg sb Hly); [|exact Hfree]. pose proof (need_one off (n - i)). lia. }
    intros r s1 (-> & v1 & W1).
    rewrite (proj2 (Z.ltb_ge (n - i) 0)), Z.eqb_refl by lia. cbn [negb].
    replace (i + (n - i)) with n by lia.
    rewrite (take_ge (drop (Z.to_nat i) src)) in W1 by (rewrite length_drop; lia).
    destruct k; cbn [filewrite_loop]; rewrite Z.ltb_irrefl; by apply wp_ret; eauto.
Qed.

(** C4: When no other operation is running, [filewrite] of [n] bytes at the
    offset of an open file, with room for them in the file and on the disk,
    returns [n] after however many rounds it takes.  The file then holds the
    bytes at that place and its other bytes as before, the offset has moved past
    them, the inode is unlocked, a file that shares nothing with it is as it
    was, and all of this is on the disk. *)
Theorem filewrite_durable s v f ip off data src (n := Z.of_nat (length src)) :
  open_file s v f ip off data -> Forall is_u8 src -> src <> [] -> 0 <= off <= Z.of_nat (length data) ->
  off + n <= MAXFILE * BSIZE -> nfree g sb v (Z.to_nat (need off n) + nz (ind (inode_of s ip))) ->
  exists s' v', filewrite devsw f src n s = Ret n s' /\
    open_file s' v' f ip (off + n) (take (Z.to_nat off) data ++ src ++ drop (Z.to_nat (off + n)) data) /\
    on_disk s' v' /\ others_kept g sb v (inode_of s ip) v' (inode_of s' ip).
Proof.
  intros O H8 Hne Hoff Hmax Hfree.
  assert (0 < n) as Hn by (destruct src; [done|cbn [length] in n; lia]).
  assert (wp (filewrite devsw f src n) s (fun r s' => r = n /\ exists v', written s v f ip (off + n)
    (take (Z.to_nat off) data ++ src ++ drop (Z.to_nat (off + n)) data) 0 s' v')) as Hw.
  { unfold filewrite. apply wp_bind, wp_zoom, wp_gets. fold (put_ext (ext s) s). cbn beta.
    rewrite (of_writable _ _ _ _ _ _ O), (of_kind _ _ _ _ _ _ O), (of_inode _ _ _ _ _ _ O). cbn [negb].
    replace (put_ext (ext s) s) with s by by destruct s.
    eapply wp_seq; [apply (filewrite_loop_ok (Z.to_nat n) s v f ip off data src 0 O H8 Hoff); rewrite ?Z.sub_0_r; (done || lia)|].
    rewrite Z.sub_0_r. intros r s' (-> & v' & W). apply wp_ret. rewrite Z.eqb_refl. eauto. }
  apply wp_eq in Hw as (r & s' & E & -> & v' & [Ho Hd Hk _]). exists s', v'. by split_and!.
Qed.
End call.

(** ** A concrete file, and two writers *)

Module WriteW.
#[local] Existing Instance CrashWitness.dev.

Definition no_devs : Z -> devops (E := kx) := fun _ => mkdevops None None.
Definition open_on (ip : nat) : file := mkfile FD_INODE 1 true true 0 ip 0.
Definition kx0 : kx :=
  mkkx (mkk false false 0 (fun _ => 0)) false [] None 1 None false [open_on 0; open_on 1] ∅ false 0 zero_console.

(** Inode 5 of the file system of [FsW], cached and not locked. *)
Definition I5 : inode := set_i_flags I_VALID FsW.I5.
Definition s0 : fsst kx := Fs.mkfs FsW.s_boot (mkicache false (<[0%nat := I5]> (replicate NINODE zero_inode))) kx0.

Lemma open0 : open_file FsW.g0 FsW.sb0 s0 FsW.v0 0 0 0 [].
Proof.
  destruct FsW.s_boot_rep as (Hr & Ho & Hc).
  split; [|exact FsW.bitmap_ok0|apply file_ok_flags, FsW.file_ok0| | | | | | | | | | | ].
  { split; [exact Hr|exact Ho|exact Hc|reflexivity|reflexivity]. }
  all: change (inode_of s0 0) with I5.
  { reflexivity. } { discriminate. } { cbn; lia. } { reflexivity. } { reflexivity. }
  { unfold NINODE. lia. } { cbn; lia. } all: reflexivity.
Qed.

Lemma filewrite_durable_witness : exists s' v', filewrite no_devs 0 [104; 105] 2 s0 = Ret 2 s' /\
  open_file FsW.g0 FsW.sb0 s' v' 0 0 2 [104; 105] /\ on_disk FsW.g0 s' v' /\
  others_kept FsW.g0 FsW.sb0 FsW.v0 I5 v' (inode_of s' 0).
Proof.
  apply (filewrite_durable FsW.g0 CrashWitness.geom_ok_g0 ltac:(vm_compute; discriminate) FsW.sb0 FsW.layout0
    ltac:(vm_compute; discriminate) no_devs s0 FsW.v0 0 0 0 [] [104; 105] open0).
  - repeat constructor; unfold is_u8; lia.
  - discriminate.
  - cbn; lia.
  - vm_compute; discriminate.
  - exact FsW.nfree0.
Defined.

(** Two empty files on the disk, inodes 5 and 9, each open for writing. *)
Definition d2 : disk := mkdisk (<[(1, 3) := put_dinode (dinode_off 9) FsW.file5 zero_block]> (img FsW.d0)) [].
Definition s_boot2 : lst := match initlog (boot d2) with Ret _ s => s | _ => boot d2 end.
Definition I9 : inode := mkinode 1 9 1 I_VALID T_FILE 0 0 1 0 (replicate 13 0).
Definition s2 : fsst kx :=
  Fs.mkfs s_boot2 (mkicache false (<[0%nat := I5]> (<[1%nat := I9]> (replicate NINODE zero_inode)))) kx0.
Definition page : list Z := replicate (Z.to_nat FILEMAX) 7.

(** A first round of each of two calls: both are admitted by [begin_op] before
    either writes. *)
Definition two_rounds : M (fsst kx) Z :=
  liftl begin_op ;; liftl begin_op ;;
  ilock 0 ;; writei no_devs 0 page 0 FILEMAX ;;
  ilock 1 ;; writei no_devs 1 page 0 FILEMAX.

(** A round of [filewrite] is sized against the whole log, but [begin_op]
    reserves only MAXOPBLOCKS blocks for it.  Each of two calls completes when
    it runs alone; when [begin_op] has admitted both, the second write finds
    the log full and the kernel panics. *)
Example filewrite_overflows :
  (exists s', filewrite no_devs 0 page FILEMAX s2 = Ret FILEMAX s') /\
  (exists s', filewrite no_devs 1 page FILEMAX s2 = Ret FILEMAX s') /\
  (exists s', two_rounds s2 = Panic "too big a transaction" s').
Proof.
  assert (forall f, match filewrite no_devs f page FILEMAX s2 with Ret r _ => r = FILEMAX | _ => False end ->
    exists s', filewrite no_devs f page FILEMAX s2 = Ret FILEMAX s') as Hret.
  { intros f Hf. destruct (filewrite no_devs f page FILEMAX s2); try done. rewrite Hf. eauto. }
  assert (match two_rounds s2 with Panic m _ => m = "too big a transaction"%string | _ => False end) as Hp
    by (vm_compute; reflexivity).
  split; [apply Hret; vm_compute; reflexivity|]. split; [apply Hret; vm_compute; reflexivity|].
  destruct (two_rounds s2); try done. rewrite Hp. eauto.
Qed.
End WriteW.
