(* ===== verification/Fork.v ===== *)
(** proc.c: the operations that also use the file system and open files
    ([userinit], [fork], [exit], [forkret]), composed of the pieces in Proc. *)

From S2P Require Import Prelude Params CString Mmu Kalloc Vm BlockDev Bio Log Fs Dir Kernel Proc Pipe File.

(** Store a 16-bit field of a trap frame. *)
Definition st_short (a x : Z) : M kst unit := modify (fun s => set_pm (wr_bytes a (le_bytes 2 x) (pm s)) s).

Section with_device.
Context `{BlockDev} (kend kdata trapret forkret_addr : Z) (devsw : Z -> devops (E := kx)).
Abbreviation FS := (M (fsst kx)).

(** proc.c [userinit]; the process is used without a check that there is one.
    [initcode] is the program linked into the kernel. *)
Definition userinit (initcode : list Z) : FS unit :=
  o <- liftk (allocproc trapret forkret_addr) ;;
  liftk (modify (set_initproc o)) ;;
  match o with
  | None => fault "userinit"
  | Some i =>
      pgdir <- liftk (liftm (setupkvm kdata)) ;;
      liftk (upd_proc i (fun p => set_p_mem (p_sz p) pgdir p)) ;;
      if pgdir =? 0 then panic "userinit: out of memory?" else
      liftk (liftm (inituvm pgdir initcode (Z.of_nat (length initcode)))) ;;
      liftk (upd_proc i (fun p => set_p_mem PGSIZE (p_pgdir p) p)) ;;
      p <- liftk (get_proc i) ;;
      let tf := p_tf p in
      let ds := Z.lor (Z.shiftl SEG_UDATA 3) DPL_USER in
      liftk (liftm (modify (fun s => set_pm (Kstring.memset tf 0 TF_SIZE (pm s)) s))) ;;
      liftk (liftm (st_short (tf + TF_CS) (Z.lor (Z.shiftl SEG_UCODE 3) DPL_USER))) ;;
      liftk (liftm (st_short (tf + TF_DS) ds)) ;;
      liftk (liftm (st_short (tf + TF_ES) ds)) ;;
      liftk (liftm (st_short (tf + TF_SS) ds)) ;;
      liftk (liftm (st (tf + TF_EFLAGS) FL_IF)) ;;
      liftk (liftm (st (tf + TF_ESP) PGSIZE)) ;;
      liftk (liftm (st (tf + TF_EIP) 0)) ;;
      liftk (upd_proc i (fun p => set_p_name (splice 0 (Kstring.safestrcpy (at_list [105; 110; 105; 116; 99; 111; 100; 101]) 16) (p_name p)) p)) ;;
      d <- namei devsw 0 [47] ;;
      liftk (upd_proc i (set_p_cwd d)) ;;
      liftk (upd_proc i (set_p_state RUNNABLE))
  end.

(** proc.c [fork] *)
Definition dup_fd (q : proc) (np : nat) (fd : nat) : M kx unit :=
  match p_ofile q !!! fd with
  | Some f => g <- filedup f ;; upd_proc np (fun p => set_p_ofile (<[fd := Some g]> (p_ofile p)) p)
  | None => ret tt
  end.
Definition fork : FS Z :=
  o <- liftk (allocproc trapret forkret_addr) ;;
  match o with
  | None => ret (-1)
  | Some np =>
      me <- liftk myproc ;;
      q <- liftk (get_proc me) ;;
      d <- liftk (liftm (copyuvm kend kdata (p_pgdir q) (p_sz q))) ;;
      liftk (upd_proc np (fun p => set_p_mem (p_sz p) d p)) ;;
      if d =? 0 then liftk (fork_abort kend np) ;; ret (-1) else
      liftk (fork_fill np) ;;
      liftk (for_each (seq 0 NOFILE) (dup_fd q np)) ;;
      match p_cwd q with
      | None => fault "idup"
      | Some c => c' <- idup c ;; liftk (upd_proc np (set_p_cwd (Some c')))
      end ;;
      liftk (upd_proc np (fun p => set_p_name (splice 0 (Kstring.safestrcpy (at_list (p_name q)) 16) (p_name p)) p)) ;;
      p <- liftk (get_proc np) ;;
      liftk (fork_run np) ;;
      ret (p_pid p)
  end.

(** proc.c [exit], up to the switch it does not come back from. *)
Definition close_fd (me : nat) (fd : nat) : FS unit :=
  p <- liftk (get_proc me) ;;
  match p_ofile p !!! fd with
  | Some f =>
      fileclose kend f ;;
      liftk (upd_proc me (fun p => set_p_ofile (<[fd := None]> (p_ofile p)) p))
  | None => ret tt
  end.
Definition exit : FS unit :=
  me <- liftk myproc ;;
  init <- liftk (gets initproc) ;;
  if bool_decide (init = Some me) then panic "init exiting" else
  for_each (seq 0 NOFILE) (close_fd me) ;;
  liftl begin_op ;;
  p <- liftk (get_proc me) ;;
  match p_cwd p with
  | None => fault "iput"
  | Some c => iput c
  end ;;
  liftl end_op ;;
  liftk (upd_proc me (set_p_cwd None)) ;;
  liftk exit_locked.

(** proc.c [forkret]; [first] is its static variable, and the result its value
    from then on. *)
Definition forkret (first : bool) : FS bool :=
  liftk release_ptable ;;
  if first then liftl initlog ;; ret false else ret first.
End with_device.
