(* ===== verification/Syscall.v ===== *)
(** System calls: syscall.c (arguments and dispatch) and sysproc.c.

    The kernel reads and writes user memory through the current page table:
    the page must be present, and writable for a store ([CR0_WP] is set). *)

From S2P Require Import Prelude Params CString Mmu Kalloc Vm BlockDev Bio Log Fs Dir Kernel Proc Pipe File Fork.

(** ** User memory *)

Definition uaddr (pgdir va : Z) (write : bool) : M kst Z :=
  pte <- walkpgdir pgdir va false ;;
  if pte =? 0 then fault "page fault" else
  x <- ld pte ;;
  if negb (testf x PTE_P) || (write && negb (testf x PTE_W)) then fault "page fault" else
  ret (p2v (PTE_ADDR x) + va mod PGSIZE).
Fixpoint uread (pgdir va : Z) (n : nat) : M kst (list Z) :=
  match n with
  | O => ret []
  | S k =>
      a <- uaddr pgdir va false ;;
      x <- gets (fun s => pm s a) ;;
      l <- uread pgdir (u32 (va + 1)) k ;;
      ret (x :: l)
  end.
Fixpoint uwrite (pgdir va : Z) (l : list Z) : M kst unit :=
  match l with
  | [] => ret tt
  | x :: l' =>
      a <- uaddr pgdir va true ;;
      modify (fun s => set_pm (wr a x (pm s)) s) ;;
      uwrite pgdir (u32 (va + 1)) l'
  end.

Definition curproc : M kx proc := i <- myproc ;; get_proc i.
Definition user_read (va : Z) (n : nat) : M kx (list Z) := p <- curproc ;; liftm (uread (p_pgdir p) va n).
Definition user_write (va : Z) (l : list Z) : M kx unit := p <- curproc ;; liftm (uwrite (p_pgdir p) va l).

(** ** Arguments *)

(** syscall.c [fetchint]; [None] is the result -1. *)
Definition fetchint (addr : Z) : M kx (option Z) :=
  p <- curproc ;;
  if (p_sz p <=? addr) || (p_sz p <? u32 (addr + 4)) then ret None else
  l <- user_read addr 4 ;;
  ret (Some (s32 (le_val l))).

(** syscall.c [fetchstr]: the string, without its NUL.  The fuel is the number
    of bytes up to the end of the process. *)
Fixpoint fetchstr_loop (fuel : nat) (s : Z) : M kx (option (list Z)) :=
  match fuel with
  | O => ret None
  | S f =>
      l <- user_read s 1 ;;
      if le_val l =? 0 then ret (Some []) else
      r <- fetchstr_loop f (s + 1) ;;
      ret (app l <$> r)
  end.
Definition fetchstr (addr : Z) : M kx (option (list Z)) :=
  p <- curproc ;;
  if p_sz p <=? addr then ret None else fetchstr_loop (Z.to_nat (p_sz p - addr)) addr.

(** syscall.c [argint], [argptr], [argstr] *)
Definition argint (n : Z) : M kx (option Z) :=
  p <- curproc ;;
  esp <- liftm (ld (p_tf p + TF_ESP)) ;;
  fetchint (u32 (esp + 4 + 4 * n)).
Definition argptr (n size : Z) : M kx (option Z) :=
  o <- argint n ;;
  match o with
  | None => ret None
  | Some i =>
      p <- curproc ;;
      ret (if (p_sz p <=? u32 i) || (p_sz p <? u32 (u32 i + size)) then None else Some (u32 i))
  end.
Definition argstr (n : Z) : M kx (option (list Z)) :=
  o <- argint n ;;
  match o with
  | None => ret None
  | Some addr => fetchstr (u32 addr)
  end.

(** ** Processes: sysproc.c *)

Definition acquire_ticks : M kx unit := acquire tk_lock set_tk_lock.
Definition release_ticks : M kx unit := release tk_lock set_tk_lock.

Section with_device.
Context `{BlockDev} (kend kdata trapret forkret_addr : Z) (devsw : Z -> devops (E := kx)).
Abbreviation FS := (M (fsst kx)).

(** A system call returns a value, or not at all ([exit]). *)
Definition sys_fork : FS (option Z) := r <- fork kend kdata trapret forkret_addr ;; ret (Some r).
Definition sys_exit : FS (option Z) := exit kend ;; ret None.
Definition sys_wait : FS (option Z) := r <- liftk (wait kend) ;; ret (Some r).
Definition sys_kill : M kx Z :=
  o <- argint 0 ;;
  match o with None => ret (-1) | Some pid => kill pid end.
Definition sys_getpid : M kx Z := p <- curproc ;; ret (p_pid p).
Definition sys_sbrk : M kx Z :=
  o <- argint 0 ;;
  match o with
  | None => ret (-1)
  | Some n =>
      p <- curproc ;;
      let addr := s32 (p_sz p) in
      r <- growproc kend n ;;
      ret (if r <? 0 then -1 else addr)
  end.

(** sysproc.c [sys_sleep], from the test of its loop on; the comparison with
    the signed [n] is an unsigned one. *)
Definition sleep_loop (n ticks0 : Z) : M kx Z :=
  t <- gets ticks ;;
  if u32 (t - ticks0) <? u32 n then
    p <- curproc ;;
    if negb (p_killed p =? 0) then release_ticks ;; ret (-1)
    else sleep ChTicks (Some release_ticks)
  else release_ticks ;; ret 0.
Definition sys_sleep : M kx Z :=
  o <- argint 0 ;;
  match o with
  | None => ret (-1)
  | Some n =>
      acquire_ticks ;;
      t <- gets ticks ;;
      sleep_loop n t
  end.
Definition sys_uptime : M kx Z :=
  acquire_ticks ;;
  t <- gets ticks ;;
  release_ticks ;;
  ret (s32 t).
End with_device.
