(* ===== verification/SyscallSpec.v ===== *)
(** System call arguments stay inside the process: what [fetchint], [fetchstr]
    and [argptr] accept. *)

From S2P Require Import Prelude Params CString Mmu Kalloc Vm BlockDev Bio Log Fs Dir Kernel Proc ProcInv Pipe File Fork Syscall.

(** The current process is [p]. *)
Definition running (s : kx) (p : proc) : Prop := exists i, cur s = Some i /\ procs s !! i = Some p.

Lemma curproc_eq s p : running s p -> curproc s = Ret p s.
Proof.
  intros (i & Hc & Hp). unfold curproc, myproc, get_proc, bind, gets. rewrite Hc. cbn.
  by rewrite (list_lookup_total_correct _ _ _ Hp).
Qed.

Lemma running_km s p x : running s p -> running (set_km x s) p.
Proof. done. Qed.

(** Reads of user memory change nothing but, at most, the allocator's part. *)
Lemma user_read_km va n s l s' : user_read va n s = Ret l s' -> exists x, s' = set_km x s.
Proof.
  intros H. unfold user_read, curproc, get_proc in H. apply bind_ret in H as (p & s1 & H1 & H).
  apply bind_ret in H1 as (i & s2 & H2 & H1). apply myproc_ret in H2 as [_ ->]. injection H1 as <- <-. by apply liftm_ret in H.
Qed.

Lemma uread_length pgdir : forall n va s l s', uread pgdir va n s = Ret l s' -> length l = n.
Proof.
  induction n as [|n IH]; intros va s l s' H; cbn in H; [by injection H as <- <-|].
  apply bind_ret in H as (a & s1 & _ & H). apply bind_ret in H as (x & s2 & _ & H). apply bind_ret in H as (l' & s3 & H1 & H).
  injection H as <- <-. cbn. by rewrite (IH _ _ _ _ H1).
Qed.

Lemma fetchint_ret s p addr v s' : running s p -> 0 <= addr -> 0 <= p_sz p <= KERNBASE -> fetchint addr s = Ret (Some v) s' ->
  addr + 4 <= p_sz p /\ exists x, s' = set_km x s.
Proof.
  intros R Ha Hsz H. unfold fetchint in H. unfold bind at 1 in H. rewrite (curproc_eq s p R) in H.
  destruct (Z.leb_spec (p_sz p) addr); cbn in H; [done|]. destruct (Z.ltb_spec (p_sz p) (u32 (addr + 4))) as [|Hle]; [done|].
  unfold KERNBASE in Hsz. rewrite u32_small in Hle by lia. split; [done|].
  apply bind_ret in H as (l & s1 & H1 & H). apply user_read_km in H1 as [x ->]. injection H as _ <-. eauto.
Qed.

Lemma fetchstr_loop_ret : forall fuel a s l s', fetchstr_loop fuel a s = Ret (Some l) s' -> (length l < fuel)%nat.
Proof.
  induction fuel as [|fuel IH]; intros a s l s' H; cbn in H; [done|].
  apply bind_ret in H as (b & s1 & H1 & H). destruct (_ =? 0); [injection H as <- <-; cbn; lia|].
  apply bind_ret in H as (r & s2 & H2 & H). injection H as H <-. destruct r as [r|]; [|done]. injection H as <-.
  assert (length b = 1)%nat as Hb.
  { unfold user_read in H1. apply bind_ret in H1 as (p & s3 & _ & H1). unfold liftm, zoom in H1.
    destruct (uread _ _ _ _) eqn:E; try done. injection H1 as <- <-. by eapply uread_length. }
  rewrite length_app, Hb. pose proof (IH _ _ _ _ H2). lia.
Qed.

Lemma u32_signed i : 0 <= u32 i < 2 ^ 32. Proof. apply u32_range. Qed.

(** What the kernel accepts from a user program lies inside the process,
    without overflow: an int fetched at an address has its four bytes below
    [sz]; a string ends with its NUL below [sz]; a buffer of non-negative size
    ends at or below [sz]. *)
Theorem arg_bounds s p : running s p -> 0 <= p_sz p <= KERNBASE ->
  (forall addr v s', 0 <= addr -> fetchint addr s = Ret (Some v) s' -> addr + 4 <= p_sz p) /\
  (forall addr l s', fetchstr addr s = Ret (Some l) s' -> addr + Z.of_nat (length l) < p_sz p) /\
  (forall n size a s', 0 <= size < 2 ^ 31 -> argptr n size s = Ret (Some a) s' -> 0 <= a /\ a + size <= p_sz p).
Proof.
  intros R Hsz. split_and!.
  - intros addr v s' Ha H. by apply (fetchint_ret s p addr v s').
  - intros addr l s' H. unfold fetchstr in H. unfold bind at 1 in H. rewrite (curproc_eq s p R) in H.
    destruct (Z.leb_spec (p_sz p) addr); [done|]. apply fetchstr_loop_ret in H. lia.
  - intros n size a s' Hs H. unfold argptr in H. apply bind_ret in H as (o & s1 & H1 & H). destruct o as [i|]; [|done].
    assert (running s1 p) as R1.
    { unfold argint in H1. unfold bind at 1 in H1. rewrite (curproc_eq s p R) in H1. apply bind_ret in H1 as (e & s2 & H2 & H1).
      apply liftm_ret in H2 as [x ->]. apply fetchint_ret with (p := p) in H1 as [_ [y ->]]; [done|done|apply u32_range|done]. }
    unfold bind at 1 in H. rewrite (curproc_eq s1 p R1) in H. injection H as H _.
    destruct (Z.leb_spec (p_sz p) (u32 i)) as [|Hi]; cbn in H; [done|].
    destruct (Z.ltb_spec (p_sz p) (u32 (u32 i + size))) as [|Hle]; [done|]. injection H as <-.
    pose proof (u32_range i). unfold KERNBASE in Hsz. rewrite u32_small in Hle by lia. lia.
Qed.

(** ** A process *)

Module SysW.
(** A page directory, a page table and a frame; the first user page is mapped. *)
Definition pd : Z := KERNBASE + 0x400000.
Definition pt : Z := KERNBASE + 0x401000.
Definition fr : Z := KERNBASE + 0x402000.
Definition tf : Z := KERNBASE + 0x403000.
Definition m0 : mem := wr_long pd (v2p pt + 7) (wr_long pt (v2p fr + 7) (wr_long (tf + TF_ESP) 100 (wr_long (fr + 104) 200 (fun _ => 0)))).
Definition me : proc := mkproc 4096 pd 0 RUNNING 1 None tf 0 None 0 (replicate NOFILE None) None [].
Definition s0 : kx := mkkx (mkk false false 0 m0) false [me] None 2 (Some 0%nat) false [] ∅ false 0 zero_console.

Definition value_of {A} (d : A) (m : M kx A) (s : kx) : A := match m s with Ret a _ => a | _ => d end.
Definition after {A} (m : M kx A) (s : kx) : kx := match m s with Ret _ s' => s' | _ => s end.
Lemma run_value {A} (d a : A) (m : M kx A) s : value_of d m s = a -> a <> d -> m s = Ret a (after m s).
Proof. unfold value_of, after. destruct (m s); congruence. Qed.

Lemma arg_bounds_witness : 0 <= 200 /\ 200 + 16 <= p_sz me.
Proof.
  destruct (arg_bounds s0 me) as (_ & _ & H).
  - exists 0%nat. split; reflexivity.
  - unfold me, KERNBASE. cbn [p_sz]. lia.
  - apply (H 0 16 200 (after (argptr 0 16) s0)); [lia|]. apply (run_value None); [vm_compute; reflexivity|discriminate].
Defined.

(** A negative size is accepted. *)
Lemma argptr_negative_size : value_of None (argptr 0 (-100)) s0 = Some 200.
Proof. vm_compute. reflexivity. Qed.
End SysW.
