(* ===== verification/Sysfile.v ===== *)
(** File-system calls: sysfile.c.

    The calls fetch their arguments from user memory, and run the operations of
    file.c and fs.c between [begin_op] and [end_op].  The bytes of a write are
    fetched before it and those of a read are stored after it. *)

From S2P Require Import Prelude Params CString Mmu Kalloc Vm BlockDev Bio Log Fs Dir Kernel Proc Pipe File Fork Syscall.

(** sysfile.c [argfd]: the descriptor and the file. *)
Definition fd_file (fd : Z) : M kx (option (nat * nat)) :=
  if (fd <? 0) || (Z.of_nat NOFILE <=? fd) then ret None else
  p <- curproc ;;
  ret (pair (Z.to_nat fd) <$> p_ofile p !!! Z.to_nat fd).
Definition argfd (n : Z) : M kx (option (nat * nat)) :=
  o <- argint n ;;
  match o with
  | None => ret None
  | Some fd => fd_file fd
  end.

Definition set_fd (fd : nat) (o : option nat) : M kx unit :=
  i <- myproc ;; upd_proc i (fun p => set_p_ofile (<[fd := o]> (p_ofile p)) p).

(** sysfile.c [fdalloc] *)
Definition fdalloc (f : nat) : M kx (option nat) :=
  p <- curproc ;;
  match first_idx (fun o => negb (bool_decide (is_Some o))) (take NOFILE (p_ofile p)) with
  | Some fd => set_fd fd (Some f) ;; ret (Some fd)
  | None => ret None
  end.

(** sysfile.c [sys_dup] *)
Definition do_dup (a : option (nat * nat)) : M kx Z :=
  match a with
  | None => ret (-1)
  | Some (_, f) =>
      o <- fdalloc f ;;
      match o with
      | None => ret (-1)
      | Some fd => filedup f ;; ret (Z.of_nat fd)
      end
  end.
Definition sys_dup : M kx Z := a <- argfd 0 ;; do_dup a.

(** The arguments of [read] and [write]: the file, the buffer and its size. *)
Definition arg_rw : M kx (option (nat * Z * Z)) :=
  a <- argfd 0 ;;
  match a with
  | None => ret None
  | Some (_, f) =>
      o <- argint 2 ;;
      match o with
      | None => ret None
      | Some n => q <- argptr 1 n ;; ret ((fun p => (f, p, n)) <$> q)
      end
  end.

Section with_device.
Context `{BlockDev} (kend : Z) (devsw : Z -> devops (E := kx)).
Abbreviation FS := (M (fsst kx)).

(** sysfile.c [sys_read], [sys_write], [sys_close], [sys_fstat] *)
Definition sys_read : FS Z :=
  a <- liftk arg_rw ;;
  match a with
  | None => ret (-1)
  | Some (f, p, n) =>
      r <- fileread devsw f n ;;
      liftk (user_write p r.2) ;;
      ret r.1
  end.
Definition sys_write : FS Z :=
  a <- liftk arg_rw ;;
  match a with
  | None => ret (-1)
  | Some (f, p, n) =>
      x <- liftk (get_file f) ;;
      src <- (if f_writable x then liftk (user_read p (Z.to_nat n)) else ret []) ;;
      filewrite devsw f src n
  end.
Definition do_close (a : option (nat * nat)) : FS Z :=
  match a with
  | None => ret (-1)
  | Some (fd, f) =>
      liftk (set_fd fd None) ;;
      fileclose kend f ;;
      ret 0
  end.
Definition sys_close : FS Z := a <- liftk (argfd 0) ;; do_close a.
Definition STAT_SIZE : Z := 20.
Definition put_stat (p : Z) (t : stat) : M kx unit :=
  user_write p (le_bytes 2 (u16 (st_type t))) ;;
  user_write (u32 (p + 4)) (le_bytes 4 (u32 (st_dev t))) ;;
  user_write (u32 (p + 8)) (le_bytes 4 (u32 (st_ino t))) ;;
  user_write (u32 (p + 12)) (le_bytes 2 (u16 (st_nlink t))) ;;
  user_write (u32 (p + 16)) (le_bytes 4 (u32 (st_size t))).
Definition sys_fstat : FS Z :=
  a <- liftk (argfd 0) ;;
  match a with
  | None => ret (-1)
  | Some (_, f) =>
      q <- liftk (argptr 1 STAT_SIZE) ;;
      match q with
      | None => ret (-1)
      | Some p =>
          o <- filestat f ;;
          match o with
          | None => ret (-1)
          | Some t => liftk (put_stat p t) ;; ret 0
          end
      end
  end.

Definition cwd : FS nat :=
  p <- liftk curproc ;; match p_cwd p with Some c => ret c | None => fault "cwd" end.
Definition kname : list Z := replicate (Z.to_nat DIRSIZ) 0.
(** End the operation with a failure. *)
Definition fail_op : FS Z := liftl end_op ;; ret (-1).

(** sysfile.c [sys_link] *)
Definition link_bad (ip : nat) : FS Z :=
  ilock ip ;;
  i <- get_inode ip ;;
  update_inode ip (set_i_nlink (s16 (i_nlink i - 1))) ;;
  iupdate ip ;;
  iunlockput ip ;;
  fail_op.
Definition do_link (old new : list Z) : FS Z :=
  liftl begin_op ;;
  c <- cwd ;;
  o <- namei devsw c old ;;
  match o with
  | None => fail_op
  | Some ip =>
      ilock ip ;;
      i <- get_inode ip ;;
      if i_type i =? T_DIR then iunlockput ip ;; fail_op else
      update_inode ip (set_i_nlink (s16 (i_nlink i + 1))) ;;
      iupdate ip ;;
      iunlock ip ;;
      ' (d, name) <- nameiparent devsw c new kname ;;
      match d with
      | None => link_bad ip
      | Some dp =>
          ilock dp ;;
          di <- get_inode dp ;;
          i <- get_inode ip ;;
          r <- (if negb (i_dev di =? i_dev i) then ret (-1) else dirlink devsw dp (at_list name) (i_inum i)) ;;
          iunlockput dp ;;
          if r <? 0 then link_bad ip else
          iput ip ;;
          liftl end_op ;;
          ret 0
      end
  end.
Definition sys_link : FS Z :=
  a <- liftk (argstr 0) ;;
  match a with
  | None => ret (-1)
  | Some old =>
      b <- liftk (argstr 1) ;;
      match b with
      | None => ret (-1)
      | Some new => do_link old new
      end
  end.

(** sysfile.c [isdirempty]: the entries after the first two. *)
Definition used_entry (dp : nat) (k : nat) : FS (option unit) :=
  ' (r, de) <- readi devsw dp (Z.of_nat k * DIRENT_SIZE) DIRENT_SIZE ;;
  if negb (r =? DIRENT_SIZE) then panic "isdirempty: readi" else
  ret (if de_inum de =? 0 then None else Some tt).
Definition isdirempty (dp : nat) : FS bool :=
  i <- get_inode dp ;;
  o <- for_find (seq 2 (n_dirents (i_size i) - 2)) (used_entry dp) ;;
  ret (match o with Some _ => false | None => true end).

(** sysfile.c [sys_unlink] *)
Definition do_unlink (path : list Z) : FS Z :=
  liftl begin_op ;;
  c <- cwd ;;
  ' (d, name) <- nameiparent devsw c path kname ;;
  match d with
  | None => fail_op
  | Some dp =>
      ilock dp ;;
      if (namecmp (at_list name) (at_list [46]) =? 0) || (namecmp (at_list name) (at_list [46; 46]) =? 0)
      then iunlockput dp ;; fail_op else
      o <- dirlookup devsw dp (at_list name) ;;
      match o with
      | None => iunlockput dp ;; fail_op
      | Some (ip, off) =>
          ilock ip ;;
          i <- get_inode ip ;;
          if i_nlink i <? 1 then panic "unlink: nlink < 1" else
          e <- (if i_type i =? T_DIR then isdirempty ip else ret true) ;;
          if negb e then iunlockput ip ;; iunlockput dp ;; fail_op else
          r <- writei devsw dp (replicate (Z.to_nat DIRENT_SIZE) 0) off DIRENT_SIZE ;;
          if negb (r =? DIRENT_SIZE) then panic "unlink: writei" else
          i <- get_inode ip ;;
          when (i_type i =? T_DIR)
            (di <- get_inode dp ;;
             update_inode dp (set_i_nlink (s16 (i_nlink di - 1))) ;;
             iupdate dp) ;;
          iunlockput dp ;;
          i <- get_inode ip ;;
          update_inode ip (set_i_nlink (s16 (i_nlink i - 1))) ;;
          iupdate ip ;;
          iunlockput ip ;;
          liftl end_op ;;
          ret 0
      end
  end.
Definition sys_unlink : FS Z :=
  a <- liftk (argstr 0) ;; match a with None => ret (-1) | Some path => do_unlink path end.

(** sysfile.c [create]: the inode, locked. *)
Definition create (path : list Z) (type major minor : Z) : FS (option nat) :=
  c <- cwd ;;
  ' (d, name) <- nameiparent devsw c path kname ;;
  match d with
  | None => ret None
  | Some dp =>
      ilock dp ;;
      o <- dirlookup devsw dp (at_list name) ;;
      match o with
      | Some (ip, _) =>
          iunlockput dp ;;
          ilock ip ;;
          i <- get_inode ip ;;
          if (type =? T_FILE) && (i_type i =? T_FILE) then ret (Some ip)
          else iunlockput ip ;; ret None
      | None =>
          di <- get_inode dp ;;
          ip <- ialloc (i_dev di) type ;;
          ilock ip ;;
          update_inode ip (set_i_dev3 (s16 major) (s16 minor) 1) ;;
          iupdate ip ;;
          i <- get_inode ip ;;
          when (type =? T_DIR)
            (di <- get_inode dp ;;
             update_inode dp (set_i_nlink (s16 (i_nlink di + 1))) ;;
             iupdate dp ;;
             r <- dirlink devsw ip (at_list [46]) (i_inum i) ;;
             if r <? 0 then panic "create dots" else
             r <- dirlink devsw ip (at_list [46; 46]) (i_inum di) ;;
             when (r <? 0) (panic "create dots")) ;;
          r <- dirlink devsw dp (at_list name) (i_inum i) ;;
          if r <? 0 then panic "create: dirlink" else
          iunlockput dp ;;
          ret (Some ip)
      end
  end.

(** sysfile.c [sys_open] *)
Definition open_inode (path : list Z) (omode : Z) : FS (option nat) :=
  if testf omode O_CREATE then create path T_FILE 0 0 else
  c <- cwd ;;
  o <- namei devsw c path ;;
  match o with
  | None => ret None
  | Some ip =>
      ilock ip ;;
      i <- get_inode ip ;;
      if (i_type i =? T_DIR) && negb (omode =? O_RDONLY) then iunlockput ip ;; ret None else ret (Some ip)
  end.
Definition open_fd : FS (option (nat * nat)) :=
  o <- liftk filealloc ;;
  match o with
  | None => ret None
  | Some f =>
      d <- liftk (fdalloc f) ;;
      match d with
      | None => fileclose kend f ;; ret None
      | Some fd => ret (Some (f, fd))
      end
  end.
Definition do_open (path : list Z) (omode : Z) : FS Z :=
  liftl begin_op ;;
  o <- open_inode path omode ;;
  match o with
  | None => fail_op
  | Some ip =>
      d <- open_fd ;;
      match d with
      | None => iunlockput ip ;; fail_op
      | Some (f, fd) =>
          iunlock ip ;;
          liftl end_op ;;
          liftk (upd_file f (fun x => mkfile FD_INODE (f_ref x) (negb (testf omode O_WRONLY))
            (testf omode O_WRONLY || testf omode O_RDWR) (f_pipe x) ip 0)) ;;
          ret (Z.of_nat fd)
      end
  end.
Definition sys_open : FS Z :=
  a <- liftk (argstr 0) ;;
  match a with
  | None => ret (-1)
  | Some path =>
      m <- liftk (argint 1) ;;
      match m with None => ret (-1) | Some omode => do_open path omode end
  end.

(** sysfile.c [sys_mkdir], [sys_mknod]: the arguments are fetched inside the
    operation. *)
Definition finish_create (o : option nat) : FS Z :=
  match o with
  | None => fail_op
  | Some ip => iunlockput ip ;; liftl end_op ;; ret 0
  end.
Definition sys_mkdir : FS Z :=
  liftl begin_op ;;
  a <- liftk (argstr 0) ;;
  match a with
  | None => fail_op
  | Some path => o <- create path T_DIR 0 0 ;; finish_create o
  end.
Definition sys_mknod : FS Z :=
  liftl begin_op ;;
  a <- liftk (argstr 0) ;;
  match a with
  | None => fail_op
  | Some path =>
      ma <- liftk (argint 1) ;;
      match ma with
      | None => fail_op
      | Some major =>
          mi <- liftk (argint 2) ;;
          match mi with
          | None => fail_op
          | Some minor => o <- create path T_DEV major minor ;; finish_create o
          end
      end
  end.

(** sysfile.c [sys_chdir] *)
Definition do_chdir (path : list Z) : FS Z :=
  c <- cwd ;;
  o <- namei devsw c path ;;
  match o with
  | None => fail_op
  | Some ip =>
      ilock ip ;;
      i <- get_inode ip ;;
      if negb (i_type i =? T_DIR) then iunlockput ip ;; fail_op else
      iunlock ip ;;
      iput c ;;
      liftl end_op ;;
      me <- liftk myproc ;;
      liftk (upd_proc me (set_p_cwd (Some ip))) ;;
      ret 0
  end.
Definition sys_chdir : FS Z :=
  liftl begin_op ;;
  a <- liftk (argstr 0) ;;
  match a with
  | None => fail_op
  | Some path => do_chdir path
  end.

(** sysfile.c [sys_pipe] *)
Definition do_pipe : FS (option (nat * nat)) :=
  o <- pipealloc kend ;;
  match o with
  | None => ret None
  | Some (rf, wf) =>
      d0 <- liftk (fdalloc rf) ;;
      d1 <- (match d0 with None => ret None | Some _ => liftk (fdalloc wf) end) ;;
      match d0, d1 with
      | Some fd0, Some fd1 => ret (Some (fd0, fd1))
      | _, _ =>
          match d0 with Some fd0 => liftk (set_fd fd0 None) | None => ret tt end ;;
          fileclose kend rf ;;
          fileclose kend wf ;;
          ret None
      end
  end.
Definition sys_pipe : FS Z :=
  q <- liftk (argptr 0 8) ;;
  match q with
  | None => ret (-1)
  | Some a =>
      o <- do_pipe ;;
      match o with
      | None => ret (-1)
      | Some (fd0, fd1) =>
          liftk (user_write a (le_bytes 4 (Z.of_nat fd0))) ;;
          liftk (user_write (u32 (a + 4)) (le_bytes 4 (Z.of_nat fd1))) ;;
          ret 0
      end
  end.
End with_device.
