(* ===== verification/Exec.v ===== *)
(** Program loading: exec.c, elf.h, vm.c [loaduvm], sysfile.c [sys_exec]; the
    dispatch of system calls (syscall.c [syscall]) and traps (trap.c). *)

From S2P Require Import Prelude Params CString Mmu Kalloc Vm BlockDev Bio Log Fs Dir Kernel Proc Pipe File Fork Syscall Sysfile.

(** ** elf.h *)
Definition ELF_MAGIC : Z := 0x464C457F.
Definition ELF_PROG_LOAD : Z := 1.
Record elfhdr : Type := mkelf { elf_magic : Z; elf_entry : Z; elf_phoff : Z; elf_phnum : Z }.
Record proghdr : Type := mkph { ph_type : Z; ph_off : Z; ph_vaddr : Z; ph_filesz : Z; ph_memsz : Z }.
Definition ELFHDR_SIZE : Z := 52.
Definition PROGHDR_SIZE : Z := 32.
Definition get_elfhdr (l : list Z) : elfhdr := mkelf (get32 0 l) (get32 24 l) (get32 28 l) (get16 44 l).
Definition get_proghdr (l : list Z) : proghdr := mkph (get32 0 l) (get32 4 l) (get32 8 l) (get32 16 l) (get32 20 l).

Section with_device.
Context `{BlockDev} (kend kdata trapret forkret_addr : Z) (devsw : Z -> devops (E := kx)).
Abbreviation FS := (M (fsst kx)).

(** vm.c [loaduvm]; the fuel is one more than the pages of the segment. *)
Fixpoint loaduvm_loop (fuel : nat) (pgdir addr : Z) (ip : nat) (offset i sz : Z) : FS Z :=
  match fuel with
  | O => fault "loaduvm"
  | S f =>
      if negb (i <? sz) then ret 0 else
      pte <- liftk (liftm (walkpgdir pgdir (u32 (addr + i)) false)) ;;
      if pte =? 0 then panic "loaduvm: address should exist" else
      x <- liftk (liftm (ld pte)) ;;
      let pa := PTE_ADDR x in
      let n := if sz - i <? PGSIZE then sz - i else PGSIZE in
      ' (r, l) <- readi devsw ip (u32 (offset + i)) n ;;
      liftk (liftm (modify (fun s => set_pm (wr_bytes (p2v pa) l (pm s)) s))) ;;
      if negb (u32 r =? n) then ret (-1) else
      loaduvm_loop f pgdir addr ip offset (u32 (i + PGSIZE)) sz
  end.
Definition loaduvm (pgdir addr : Z) (ip : nat) (offset sz : Z) : FS Z :=
  if negb (addr mod PGSIZE =? 0) then panic "loaduvm: addr must be page aligned" else
  loaduvm_loop (S (Z.to_nat (sz / PGSIZE + 1))) pgdir addr ip offset 0 sz.

(** ** exec.c *)

(** The way out, with what has been acquired so far. *)
Definition exec_bad (pgdir : Z) (ip : option nat) : FS Z :=
  when (negb (pgdir =? 0)) (liftk (liftm (freevm kend pgdir))) ;;
  match ip with
  | Some ip => iunlockput ip ;; liftl end_op
  | None => ret tt
  end ;;
  ret (-1).

(** The loop over the program headers: the size of the image, or a failure. *)
Fixpoint load_segments (n : nat) (ip : nat) (pgdir off sz : Z) : FS (option Z) :=
  match n with
  | O => ret (Some sz)
  | S n' =>
      ' (r, l) <- readi devsw ip (u32 off) PROGHDR_SIZE ;;
      if negb (u32 r =? PROGHDR_SIZE) then ret None else
      let ph := get_proghdr l in
      if negb (ph_type ph =? ELF_PROG_LOAD) then load_segments n' ip pgdir (s32 (off + PROGHDR_SIZE)) sz else
      if ph_memsz ph <? ph_filesz ph then ret None else
      sz <- liftk (liftm (allocuvm kend pgdir sz (u32 (ph_vaddr ph + ph_memsz ph)))) ;;
      if sz =? 0 then ret None else
      r <- loaduvm pgdir (ph_vaddr ph) ip (ph_off ph) (ph_filesz ph) ;;
      if r <? 0 then ret None else
      load_segments n' ip pgdir (s32 (off + PROGHDR_SIZE)) sz
  end.

(** The loop over the arguments: the stack pointer and the addresses of the
    strings on the new stack, or a failure. *)
Fixpoint push_args (pgdir : Z) (argc : nat) (argv : list (list Z)) (sp : Z) : M kst (option (Z * list Z)) :=
  match argv with
  | [] => ret (Some (sp, []))
  | s :: argv' =>
      if (MAXARG <=? argc)%nat then ret None else
      let sp := Z.land (u32 (sp - (Z.of_nat (length s) + 1))) 0xfffffffc in
      r <- copyout pgdir sp (s ++ [0]) ;;
      if r <? 0 then ret None else
      o <- push_args pgdir (S argc) argv' sp ;;
      ret ((fun x => (x.1, sp :: x.2)) <$> o)
  end.

(** The words below the strings: a return address, argc, argv and the vector. *)
Definition ustack (sp : Z) (ptrs : list Z) : list Z :=
  let argc := Z.of_nat (length ptrs) in
  [0xffffffff; argc; u32 (sp - (argc + 1) * 4)] ++ ptrs ++ [0].

Fixpoint last_elem (path last : list Z) : list Z :=
  match path with
  | [] => last
  | c :: path' => last_elem path' (if c =? 47 then path' else last)
  end.

(** From the end of the file's use to the commitment. *)
Definition exec_stack (path : list Z) (argv : list (list Z)) (pgdir sz entry : Z) : FS Z :=
  let sz := PGROUNDUP sz in
  sz <- liftk (liftm (allocuvm kend pgdir sz (u32 (sz + 2 * PGSIZE)))) ;;
  if sz =? 0 then exec_bad pgdir None else
  liftk (liftm (clearpteu pgdir (u32 (sz - 2 * PGSIZE)))) ;;
  o <- liftk (liftm (push_args pgdir 0 argv sz)) ;;
  match o with
  | None => exec_bad pgdir None
  | Some (sp, ptrs) =>
      let words := ustack sp ptrs in
      let sp := u32 (sp - Z.of_nat (length words) * 4) in
      r <- liftk (liftm (copyout pgdir sp (words ≫= le_bytes 4))) ;;
      if r <? 0 then exec_bad pgdir None else
      me <- liftk myproc ;;
      liftk (upd_proc me (fun p => set_p_name (splice 0 (Kstring.safestrcpy (at_list (last_elem path path)) 16) (p_name p)) p)) ;;
      p <- liftk (get_proc me) ;;
      let oldpgdir := p_pgdir p in
      liftk (upd_proc me (set_p_mem sz pgdir)) ;;
      liftk (liftm (st (p_tf p + TF_EIP) entry)) ;;
      liftk (liftm (st (p_tf p + TF_ESP) sp)) ;;
      liftk (switchuvm me) ;;
      liftk (liftm (freevm kend oldpgdir)) ;;
      ret 0
  end.

(** exec.c [exec]; [stack] is what the variable [elf] holds before the read.
    The comparison of the signed result of [readi] is an unsigned one. *)
Definition exec (stack path : list Z) (argv : list (list Z)) : FS Z :=
  liftl begin_op ;;
  c <- cwd ;;
  o <- namei devsw c path ;;
  match o with
  | None => liftl end_op ;; ret (-1)
  | Some ip =>
      ilock ip ;;
      ' (r, l) <- readi devsw ip 0 ELFHDR_SIZE ;;
      let elf := get_elfhdr (splice 0 l stack) in
      if u32 r <? ELFHDR_SIZE then exec_bad 0 (Some ip) else
      if negb (elf_magic elf =? ELF_MAGIC) then exec_bad 0 (Some ip) else
      pgdir <- liftk (liftm (setupkvm kdata)) ;;
      if pgdir =? 0 then exec_bad 0 (Some ip) else
      o <- load_segments (Z.to_nat (elf_phnum elf)) ip pgdir (s32 (elf_phoff elf)) 0 ;;
      match o with
      | None => exec_bad pgdir (Some ip)
      | Some sz =>
          iunlockput ip ;;
          liftl end_op ;;
          exec_stack path argv pgdir sz (elf_entry elf)
      end
  end.

(** sysfile.c [sys_exec]: the argument vector ends in a null pointer, before
    MAXARG entries. *)
Fixpoint fetch_argv (fuel : nat) (uargv : Z) : M kx (option (list (list Z))) :=
  match fuel with
  | O => ret None
  | S f =>
      o <- fetchint uargv ;;
      match o with
      | None => ret None
      | Some uarg =>
          if uarg =? 0 then ret (Some []) else
          s <- fetchstr (u32 uarg) ;;
          match s with
          | None => ret None
          | Some a => r <- fetch_argv f (u32 (uargv + 4)) ;; ret (cons a <$> r)
          end
      end
  end.
Definition sys_exec (stack : list Z) : FS Z :=
  a <- liftk (argstr 0) ;;
  match a with
  | None => ret (-1)
  | Some path =>
      u <- liftk (argint 1) ;;
      match u with
      | None => ret (-1)
      | Some uargv =>
          o <- liftk (fetch_argv MAXARG (u32 uargv)) ;;
          match o with
          | None => ret (-1)
          | Some argv => exec stack path argv
          end
      end
  end.

(** ** syscall.c [syscall] *)

(** The table [syscalls]; [None] where it has no entry. *)
Definition value (m : FS Z) : FS (option Z) := r <- m ;; ret (Some r).
Definition syscalls (stack : list Z) (num : Z) : option (FS (option Z)) :=
  nth_error
    [ sys_fork kend kdata trapret forkret_addr; sys_exit kend; sys_wait kend; value (sys_pipe kend);
      value (sys_read devsw); value (liftk sys_kill); value (sys_exec stack); value sys_fstat;
      value (sys_chdir devsw); value (liftk sys_dup); value (liftk sys_getpid); value (liftk (sys_sbrk kend));
      value (liftk sys_sleep); value (liftk sys_uptime); value (sys_open kend devsw); value (sys_write devsw);
      value (sys_mknod devsw); value (sys_unlink devsw); value (sys_link devsw); value (sys_mkdir devsw);
      value (sys_close kend) ] (Z.to_nat (num - 1)).

Definition set_eax (x : Z) : M kx unit := p <- curproc ;; liftm (st (p_tf p + TF_EAX) (u32 x)).
(** The result says whether the call returned. *)
Definition syscall (stack : list Z) : FS bool :=
  p <- liftk curproc ;;
  e <- liftk (liftm (ld (p_tf p + TF_EAX))) ;;
  let num := s32 e in
  match (if 0 <? num then syscalls stack num else None) with
  | Some f =>
      r <- f ;;
      match r with Some v => liftk (set_eax v) ;; ret true | None => ret false end
  | None => liftk (set_eax (-1)) ;; ret true
  end.

(** ** trap.c *)

Definition T_SYSCALL : Z := 64.
Definition T_IRQ0 : Z := 32.
Definition IRQ_TIMER : Z := 0.
Definition IRQ_KBD : Z := 1.
Definition IRQ_COM1 : Z := 4.
Definition IRQ_IDE : Z := 14.
Definition IRQ_SPURIOUS : Z := 31.

(** trap.c [tvinit]: the gate of each vector; [vectors] is in vectors.S. *)
Definition tvinit (vectors : Z -> Z) : list gatedesc :=
  <[Z.to_nat T_SYSCALL := SETGATE true (Z.shiftl SEG_KCODE 3) (vectors T_SYSCALL) DPL_USER]>
    (map (fun i => SETGATE false (Z.shiftl SEG_KCODE 3) (vectors (Z.of_nat i)) 0) (seq 0 256)).

(** The timer's interrupt on the first CPU. *)
Definition tick : M kx unit :=
  acquire_ticks ;;
  modify (fun s => set_ticks (u32 (ticks s + 1)) s) ;;
  wakeup ChTicks ;;
  release_ticks.

Definition is_killed : M kx bool :=
  c <- gets cur ;;
  match c with
  | None => ret false
  | Some i => p <- get_proc i ;; ret (negb (p_killed p =? 0))
  end.

(** trap.c [trap] up to the point where the process may give up the CPU; the
    result says whether it does.  [intr] is the handler of a device's interrupt,
    and the acknowledgement of interrupts and the messages are left out. *)
Definition trap_irq (intr : Z -> FS unit) (cpu_id trapno cs : Z) : FS unit :=
  if trapno =? T_IRQ0 + IRQ_TIMER then when (cpu_id =? 0) (liftk tick)
  else if (trapno =? T_IRQ0 + IRQ_IDE) || (trapno =? T_IRQ0 + IRQ_KBD) || (trapno =? T_IRQ0 + IRQ_COM1) then intr trapno
  else if (trapno =? T_IRQ0 + IRQ_IDE + 1) || (trapno =? T_IRQ0 + 7) || (trapno =? T_IRQ0 + IRQ_SPURIOUS) then ret tt
  else
    c <- liftk (gets cur) ;;
    match c with
    | None => panic "trap"
    | Some i => if Z.land cs 3 =? 0 then panic "trap" else liftk (upd_proc i (set_p_killed 1))
    end.
Definition trap (intr : Z -> FS unit) (stack : list Z) (cpu_id tf : Z) : FS bool :=
  trapno <- liftk (liftm (ld (tf + TF_TRAPNO))) ;;
  w <- liftk (liftm (ld (tf + TF_CS))) ;;
  let cs := u16 w in
  if trapno =? T_SYSCALL then
    k <- liftk is_killed ;;
    if k then exit kend ;; ret false else
    me <- liftk myproc ;;
    liftk (upd_proc me (fun p => set_p_stack (p_kstack p) tf (p_context p) p)) ;;
    b <- syscall stack ;;
    if negb b then ret false else
    k <- liftk is_killed ;;
    (if k then exit kend else ret tt) ;;
    ret false
  else
    trap_irq intr cpu_id trapno cs ;;
    k <- liftk is_killed ;;
    if k && (Z.land cs 3 =? DPL_USER) then exit kend ;; ret false else
    c <- liftk (gets cur) ;;
    match c with
    | None => ret false
    | Some i =>
        p <- liftk (get_proc i) ;;
        if is_state RUNNING p && (trapno =? T_IRQ0 + IRQ_TIMER) then liftk yield_start ;; ret true
        else ret false
    end.
(** After the process has been given the CPU again. *)
Definition trap_resume (cs : Z) : FS unit :=
  liftk yield_end ;;
  k <- liftk is_killed ;;
  when (k && (Z.land cs 3 =? DPL_USER)) (exit kend).
End with_device.
