(* ===== verification/Sh.v ===== *)
(** The shell: sh.c.

    The command line is the bytes before its NUL; pointers into it are offsets,
    and the parser's [*ps] is the state.  Commands are the source's five kinds
    of node; an argument is the pair of offsets [(argv[i], eargv[i])].  The
    shell's [panic] ends the process, like a kernel panic ends the model's run.
    [malloc] is taken to succeed, as the constructors take it. *)

From S2P Require Import Prelude Params CString.

(** ** Commands *)

Definition MAXARGS : nat := 10.

Inductive cmd : Type :=
| EXEC (argv : list (nat * nat))
| REDIR (c : cmd) (file efile : nat) (mode fd : Z)
| PIPE (left right : cmd)
| LIST (left right : cmd)
| BACK (c : cmd).

Definition execcmd : cmd := EXEC [].
Definition redircmd (subcmd : cmd) (file efile : nat) (mode fd : Z) : cmd := REDIR subcmd file efile mode fd.
Definition pipecmd (left right : cmd) : cmd := PIPE left right.
Definition listcmd (left right : cmd) : cmd := LIST left right.
Definition backcmd (subcmd : cmd) : cmd := BACK subcmd.

(** ** Tokens *)

(** " \t\r\n\v" and "<|>&;()" *)
Definition whitespace : list Z := [32; 9; 13; 10; 11].
Definition symbols : list Z := [60; 124; 62; 38; 59; 40; 41].

(** [strchr(set, c) != 0] for a set without NUL. *)
Definition chr_in (c : Z) (set : list Z) : bool := bool_decide (c ∈ set).

Section parser.
Context (buf : list Z).
Notation P := (M nat).

Definition es : nat := length buf.
Definition char (s : nat) : Z := at_list buf s.

(** Advance [s] to the first byte where [p] fails, or to the end. *)
Fixpoint scan_loop (fuel : nat) (p : Z -> bool) (s : nat) : nat :=
  match fuel with
  | O => s
  | S f => if (s <? es)%nat && p (char s) then scan_loop f p (S s) else s
  end.
Definition scan (p : Z -> bool) (s : nat) : nat := scan_loop (es - s) p s.
Definition skip_ws (s : nat) : nat := scan (fun c => chr_in c whitespace) s.
Definition skip_word (s : nat) : nat := scan (fun c => negb (chr_in c whitespace) && negb (chr_in c symbols)) s.

(** sh.c [gettoken]: the token, where it starts and where it ends. *)
Definition gettoken : P (Z * nat * nat) :=
  s <- gets (fun s => s) ;;
  let s := skip_ws s in
  let q := s in
  let c := char s in
  let '(ret', s) :=
    if c =? 0 then (c, s)
    else if chr_in c [124; 40; 41; 59; 38; 60] then (c, S s)
    else if c =? 62 then
      (let s := S s in if char s =? 62 then (43, S s) else (c, s))
    else (97, skip_word s) in
  let eq := s in
  modify (fun _ => skip_ws s) ;;
  ret (ret', q, eq).

(** sh.c [peek] *)
Definition peek (toks : list Z) : P bool :=
  modify skip_ws ;;
  s <- gets (fun s => s) ;;
  ret (negb (char s =? 0) && chr_in (char s) toks).

(** ** Parsing *)

(** The redirections read by the loop of sh.c [parseredirs], in order. *)
Definition redir_of (tok : Z) (q eq : nat) (c : cmd) : cmd :=
  if tok =? 60 then redircmd c q eq O_RDONLY 0
  else if tok =? 62 then redircmd c q eq (Z.lor O_WRONLY O_CREATE) 1
  else if tok =? 43 then redircmd c q eq (Z.lor O_WRONLY O_CREATE) 1
  else c.
Fixpoint redir_loop (fuel : nat) : P (list (Z * nat * nat)) :=
  match fuel with
  | O => fault "parseredirs"
  | S f =>
      b <- peek [60; 62] ;;
      if b then
        ' (tok, _, _) <- gettoken ;;
        ' (t, q, eq) <- gettoken ;;
        if negb (t =? 97) then panic "missing file for redirection" else
        rest <- redir_loop f ;;
        ret ((tok, q, eq) :: rest)
      else ret []
  end.
Definition wrap (rs : list (Z * nat * nat)) (c : cmd) : cmd :=
  foldl (fun c '(tok, q, eq) => redir_of tok q eq c) c rs.
Definition parseredirs (fuel : nat) (c : cmd) : P cmd :=
  rs <- redir_loop fuel ;; ret (wrap rs c).

(** The argument loop of sh.c [parseexec].  The node [cmd] is filled in while
    redirections are already wrapped around it, so the loop collects both. *)
Fixpoint args_loop (fuel : nat) (argv : list (nat * nat)) (rs : list (Z * nat * nat)) : P cmd :=
  match fuel with
  | O => fault "parseexec"
  | S f =>
      b <- peek [124; 41; 38; 59] ;;
      if b then ret (wrap rs (EXEC argv)) else
      ' (tok, q, eq) <- gettoken ;;
      if tok =? 0 then ret (wrap rs (EXEC argv)) else
      if negb (tok =? 97) then panic "syntax" else
      let argv := argv ++ [(q, eq)] in
      if (MAXARGS <=? length argv)%nat then panic "too many args" else
      rs' <- redir_loop f ;;
      args_loop f argv (rs ++ rs')
  end.

(** [while(peek(ps, es, "&"))] of sh.c [parseline] *)
Fixpoint back_loop (fuel : nat) (c : cmd) : P cmd :=
  match fuel with
  | O => fault "parseline"
  | S f =>
      b <- peek [38] ;;
      if b then gettoken ;; back_loop f (backcmd c) else ret c
  end.

(** sh.c [parseline], [parsepipe], [parseexec], [parseblock] *)
Fixpoint parseline (fuel : nat) : P cmd :=
  match fuel with
  | O => fault "parseline"
  | S f =>
      c <- parsepipe f ;;
      c <- back_loop f c ;;
      b <- peek [59] ;;
      if b then gettoken ;; r <- parseline f ;; ret (listcmd c r) else ret c
  end
with parsepipe (fuel : nat) : P cmd :=
  match fuel with
  | O => fault "parsepipe"
  | S f =>
      c <- parseexec f ;;
      b <- peek [124] ;;
      if b then gettoken ;; r <- parsepipe f ;; ret (pipecmd c r) else ret c
  end
with parseexec (fuel : nat) : P cmd :=
  match fuel with
  | O => fault "parseexec"
  | S f =>
      b <- peek [40] ;;
      if b then parseblock f else
      rs <- redir_loop f ;;
      args_loop f [] rs
  end
with parseblock (fuel : nat) : P cmd :=
  match fuel with
  | O => fault "parseblock"
  | S f =>
      b <- peek [40] ;;
      if negb b then panic "parseblock" else
      gettoken ;;
      c <- parseline f ;;
      b <- peek [41] ;;
      if negb b then panic "syntax - missing )" else
      gettoken ;;
      parseredirs f c
  end.

(** sh.c [parsecmd], before [nulterminate] and without the message that shows
    the leftovers; the fuel covers every nesting the line can have. *)
Definition parse_fuel : nat := 4 * es + 5.
Definition parsecmd : P cmd :=
  c <- parseline parse_fuel ;;
  peek [] ;;
  s <- gets (fun s => s) ;;
  if negb (s =? es)%nat then panic "syntax" else ret c.
End parser.

(** sh.c [nulterminate]: the line with a NUL at the end of every string. *)
Fixpoint nulterminate (c : cmd) (b : list Z) : list Z :=
  match c with
  | EXEC argv => foldl (fun b '(_, eq) => <[eq := 0]> b) b argv
  | REDIR c _ efile _ _ => <[efile := 0]> (nulterminate c b)
  | PIPE l r => nulterminate r (nulterminate l b)
  | LIST l r => nulterminate r (nulterminate l b)
  | BACK c => nulterminate c b
  end.
