(* ===== verification/ShSpec.v ===== *)
(** The shell's parser always answers, and what it answers is well formed. *)

From S2P Require Import Prelude Params CString Sh.

(** [ok m s Q]: from [s], [m] returns in [Q] or calls [panic]. *)
Definition ok {S A} (m : M S A) (s : S) (Q : A -> S -> Prop) : Prop :=
  match m s with
  | Ret a s' => Q a s'
  | Panic _ _ => True
  | _ => False
  end.

Lemma ok_bind {S A B} (m : M S A) (k : A -> M S B) s (Q : A -> S -> Prop) (R : B -> S -> Prop) :
  ok m s Q -> (forall a s', Q a s' -> ok (k a) s' R) -> ok (bind m k) s R.
Proof. unfold ok, bind. intros H Hk. destruct (m s); [by apply Hk|done|done|done]. Qed.

Lemma ok_bind_eq {S A B} (m : M S A) (k : A -> M S B) s a s' (R : B -> S -> Prop) :
  m s = Ret a s' -> ok (k a) s' R -> ok (bind m k) s R.
Proof. unfold ok, bind. by intros ->. Qed.

Lemma ok_conseq {S A} (m : M S A) s (Q R : A -> S -> Prop) :
  ok m s Q -> (forall a s', Q a s' -> R a s') -> ok m s R.
Proof. unfold ok. destruct (m s); auto. Qed.

Definition wordc (c : Z) : Prop := c <> 0 /\ c ∉ whitespace /\ c ∉ symbols.

Lemma chr_in_spec c l : chr_in c l = true <-> c ∈ l.
Proof. apply bool_decide_eq_true. Qed.

Section total.
Context (buf : list Z) (Hnz : Forall (fun c => c <> 0) buf).
Notation es := (es buf).
Notation char := (char buf).

Lemma char_lt s : (s < es)%nat <-> char s <> 0.
Proof.
  unfold Sh.es, Sh.char, at_list. rewrite Forall_forall in Hnz. split.
  - intros [x Hx]%lookup_lt_is_Some_2. rewrite Hx. cbn. apply Hnz. by eapply list_elem_of_lookup_2.
  - intros H. apply lookup_lt_is_Some_1. destruct (buf !! s); [eauto|done].
Qed.

Lemma scan_loop_spec p : forall fuel s, (s <= es)%nat -> (es - s <= fuel)%nat ->
  let s' := scan_loop buf fuel p s in
  (s <= s' <= es)%nat /\ (forall i, (s <= i < s')%nat -> p (char i) = true) /\ (s' = es \/ p (char s') = false).
Proof.
  induction fuel as [|fuel IH]; intros s Hs Hf; cbn [scan_loop].
  { split_and!; [lia|lia|lia|left; lia]. }
  destruct (Nat.ltb_spec s es); cbn [andb].
  - destruct (p (char s)) eqn:E.
    + destruct (IH (S s)) as (H1 & H2 & H3); [lia|lia|]. split_and!; [lia|lia| |done].
      intros i Hi. destruct (decide (i = s)) as [->|]; [done|]. apply H2. lia.
    + split_and!; [lia|lia|lia|by right].
  - split_and!; [lia|lia|lia|left; lia].
Qed.

Lemma scan_spec p s : (s <= es)%nat ->
  let s' := scan buf p s in
  (s <= s' <= es)%nat /\ (forall i, (s <= i < s')%nat -> p (char i) = true) /\ (s' = es \/ p (char s') = false).
Proof. intros Hs. by apply scan_loop_spec. Qed.

Lemma skip_ws_spec s : (s <= es)%nat ->
  (s <= skip_ws buf s <= es)%nat /\ char (skip_ws buf s) ∉ whitespace.
Proof.
  intros Hs. destruct (scan_spec (fun c => chr_in c whitespace) s Hs) as (H1 & _ & H3).
  fold (skip_ws buf s) in *. split; [done|]. destruct H3 as [E|E].
  - rewrite E. assert (char es = 0) as ->; [|apply (bool_decide_unpack _); vm_compute; exact I].
    destruct (decide (char es = 0)) as [|Hn]; [done|]. apply char_lt in Hn. lia.
  - intros Hin%chr_in_spec. congruence.
Qed.

Lemma peek_spec toks s : (s <= es)%nat ->
  exists b s', peek buf toks s = Ret b s' /\ (s <= s' <= es)%nat /\ (b = true -> (s' < es)%nat /\ char s' ∈ toks) /\
    char s' ∉ whitespace.
Proof.
  intros Hs. destruct (skip_ws_spec s Hs) as [H1 H2]. eexists _, _. split; [reflexivity|]. split_and!; [lia|lia| |done].
  intros [Hb1 Hb2]%andb_true_iff. split; [|by apply chr_in_spec]. apply char_lt. by destruct (Z.eqb_spec (char (skip_ws buf s)) 0).
Qed.

(** A string of the command line: a maximal run of word characters. *)
Definition tok_wf (t : nat * nat) : Prop :=
  (t.1 < t.2 <= es)%nat /\ (forall i, (t.1 <= i < t.2)%nat -> wordc (char i)) /\ ~ wordc (char t.2).

Lemma gettoken_spec s : (s <= es)%nat ->
  exists t q eq s', gettoken buf s = Ret (t, q, eq) s' /\ (s <= q <= eq)%nat /\ (eq <= s' <= es)%nat /\
    (t <> 0 -> (q < eq)%nat) /\ (t = 97 -> tok_wf (q, eq)) /\ ((s < es)%nat -> (s < s')%nat).
Proof.
  intros Hs. destruct (skip_ws_spec s Hs) as [H1 H2]. unfold gettoken, bind, gets, modify, ret.
  set (q := skip_ws buf s) in *.
  destruct (Z.eqb_spec (char q) 0) as [E0|E0].
  { destruct (skip_ws_spec q) as [H3 _]; [lia|]. eexists _, _, _, _. split; [reflexivity|].
    assert (~ (q < es)%nat) by (by intros Hc%char_lt). rewrite E0. split_and!; first [lia|done|congruence]. }
  pose proof (proj2 (char_lt q) E0) as Hq.
  destruct (chr_in (char q) [124; 40; 41; 59; 38; 60]) eqn:E1.
  { destruct (skip_ws_spec (S q)) as [H3 _]; [lia|]. eexists _, _, _, _. split; [reflexivity|]. split_and!; try lia.
    intros E. apply chr_in_spec in E1. rewrite E in E1. set_solver by lia. }
  destruct (Z.eqb_spec (char q) 62) as [E2|E2].
  { destruct (Z.eqb_spec (char (S q)) 62) as [E3|E3].
    - assert (S q < es)%nat by (apply char_lt; rewrite E3; done). destruct (skip_ws_spec (S (S q))) as [H3 _]; [lia|].
      eexists _, _, _, _. split; [reflexivity|]. split_and!; try lia.
    - destruct (skip_ws_spec (S q)) as [H3 _]; [lia|]. eexists _, _, _, _. split; [reflexivity|].
      split_and!; try lia. }
  destruct (scan_spec (fun c => negb (chr_in c whitespace) && negb (chr_in c symbols)) q ltac:(lia)) as (H3 & H4 & H5).
  fold (skip_word buf q) in H3, H4, H5.
  assert (forall c, negb (chr_in c whitespace) && negb (chr_in c symbols) = true -> c <> 0 -> wordc c) as Hw.
  { intros c [Ha Hb]%andb_true_iff Hc. apply negb_true_iff in Ha, Hb. split_and!; [done| |].
    - intros Hin%chr_in_spec. congruence.
    - intros Hin%chr_in_spec. congruence. }
  assert (char q ∉ symbols) as Hsy.
  { intros Hin. assert (char q ∈ [124; 40; 41; 59; 38; 60] \/ char q = 62) as [H|H] by (unfold symbols in Hin; set_solver).
    - apply chr_in_spec in H. congruence.
    - done. }
  assert (q < skip_word buf q)%nat as Hlt.
  { destruct (decide (skip_word buf q = q)) as [E|]; [|lia]. destruct H5 as [H5|H5]; [lia|]. rewrite E in H5.
    apply andb_false_iff in H5 as [H5|H5]; apply negb_false_iff, chr_in_spec in H5; done. }
  destruct (skip_ws_spec (skip_word buf q)) as [H6 _]; [lia|].
  eexists _, _, _, _. split; [reflexivity|]. split_and!; try lia. intros _. split_and!; cbn [fst snd]; [lia|lia| |].
  - intros i Hi. apply Hw; [by apply H4|]. apply char_lt. lia.
  - intros (Hc0 & Hc1 & Hc2). destruct H5 as [H5|H5].
    + rewrite <- char_lt in Hc0. lia.
    + apply andb_false_iff in H5 as [H5|H5]; apply negb_false_iff, chr_in_spec in H5; done.
Qed.

Fixpoint cmd_wf (c : cmd) : Prop :=
  match c with
  | EXEC argv => Forall tok_wf argv /\ (length argv < MAXARGS)%nat
  | REDIR c q eq _ _ => cmd_wf c /\ tok_wf (q, eq)
  | PIPE l r | LIST l r => cmd_wf l /\ cmd_wf r
  | BACK c => cmd_wf c
  end.

Definition redir_wf (r : Z * nat * nat) : Prop := tok_wf (r.1.2, r.2).

Lemma wrap_wf rs : forall c, cmd_wf c -> Forall redir_wf rs -> cmd_wf (wrap rs c).
Proof.
  induction rs as [|[[t q] eq] rs IH]; intros c Hc Hr; [done|]. inversion Hr as [|? ? H1 H2]; subst.
  cbn. apply IH; [|done]. unfold redir_of. by repeat case_match.
Qed.

Definition advance (s : nat) (s' : nat) : Prop := (s <= s' <= es)%nat.

Lemma redir_loop_ok : forall f s, (s <= es)%nat -> (es - s < f)%nat ->
  ok (redir_loop buf f) s (fun rs s' => advance s s' /\ Forall redir_wf rs).
Proof.
  induction f as [|f IH]; intros s Hs Hf; [lia|]. cbn [redir_loop].
  destruct (peek_spec [60; 62] s Hs) as (b & s1 & E1 & H1 & Hb & _). eapply ok_bind_eq; [exact E1|].
  destruct b; [|split; [done|constructor]]. destruct (Hb eq_refl) as [Hlt _].
  destruct (gettoken_spec s1) as (t & q & eq & s2 & E2 & H2 & H3 & _ & _ & Hp); [lia|]. eapply ok_bind_eq; [exact E2|]. cbv beta iota.
  destruct (gettoken_spec s2) as (t' & q' & eq' & s3 & E3 & H4 & H5 & _ & Hw & _); [lia|]. eapply ok_bind_eq; [exact E3|]. cbv beta iota.
  destruct (Z.eqb_spec t' 97) as [E|E]; cbn [negb]; [|exact I]. specialize (Hp Hlt).
  eapply ok_bind; [apply IH; lia|]. intros rs s4 [Ha Hr]. unfold advance in *. split; [lia|]. constructor; [by apply Hw|done].
Qed.

Lemma args_loop_ok : forall f s argv rs, (s <= es)%nat -> (es - s < f)%nat ->
  Forall tok_wf argv -> (length argv < MAXARGS)%nat -> Forall redir_wf rs ->
  ok (args_loop buf f argv rs) s (fun c s' => advance s s' /\ cmd_wf c).
Proof.
  induction f as [|f IH]; intros s argv rs Hs Hf Ha Hl Hr; [lia|]. cbn [args_loop].
  assert (cmd_wf (wrap rs (EXEC argv))) as Hwf by (apply wrap_wf; [by split|done]).
  destruct (peek_spec [124; 41; 38; 59] s Hs) as (b & s1 & E1 & H1 & Hb & _). eapply ok_bind_eq; [exact E1|].
  destruct b; [by split|].
  destruct (gettoken_spec s1) as (t & q & eq & s2 & E2 & H2 & H3 & Hq & Hw & Hp); [lia|]. eapply ok_bind_eq; [exact E2|]. cbv beta iota.
  destruct (Z.eqb_spec t 0) as [E|E]; [split; [unfold advance; lia|done]|].
  destruct (Z.eqb_spec t 97) as [E'|E']; cbn [negb]; [|exact I].
  destruct (Nat.leb_spec MAXARGS (length (argv ++ [(q, eq)]))) as [Hm|Hm]; [exact I|]. specialize (Hq E).
  eapply ok_bind; [apply redir_loop_ok; lia|]. intros rs' s3 [H4 H5]. unfold advance in *.
  eapply ok_conseq; [apply IH; try lia; try done|].
  - apply Forall_app. split; [done|]. constructor; [by apply Hw|constructor].
  - by apply Forall_app.
  - intros c s4 [H6 H7]. split; [lia|done].
Qed.

Lemma back_loop_ok : forall f s c, (s <= es)%nat -> (es - s < f)%nat -> cmd_wf c ->
  ok (back_loop buf f c) s (fun c s' => advance s s' /\ cmd_wf c).
Proof.
  induction f as [|f IH]; intros s c Hs Hf Hc; [lia|]. cbn [back_loop].
  destruct (peek_spec [38] s Hs) as (b & s1 & E1 & H1 & Hb & _). eapply ok_bind_eq; [exact E1|].
  destruct b; [|by split]. destruct (Hb eq_refl) as [Hlt _].
  destruct (gettoken_spec s1) as (t & q & eq & s2 & E2 & H2 & H3 & _ & _ & Hp); [lia|]. eapply ok_bind_eq; [exact E2|]. cbv beta iota.
  specialize (Hp Hlt). eapply ok_conseq; [apply IH; [lia|lia|done]|]. intros c' s3 [H4 H5]. unfold advance in *.
  split; [lia|done].
Qed.

(** A symbol peeked at is consumed by the next [gettoken]. *)
Lemma ok_peek toks s {A} (k : bool -> M nat A) (Q : A -> nat -> Prop) : (s <= es)%nat ->
  (forall s', advance s s' -> ok (k false) s' Q) ->
  (forall s', advance s s' -> (s' < es)%nat -> ok (k true) s' Q) ->
  ok (b <- peek buf toks ;; k b) s Q.
Proof.
  intros Hs Hf Ht. destruct (peek_spec toks s Hs) as (b & s1 & E1 & H1 & Hb & _). eapply ok_bind_eq; [exact E1|].
  destruct b; [|by apply Hf]. apply Ht; [done|]. by apply Hb.
Qed.

Lemma ok_gettoken s {A} (k : M nat A) (Q : A -> nat -> Prop) : (s < es)%nat ->
  (forall s', advance (S s) s' -> ok k s' Q) -> ok (gettoken buf ;; k) s Q.
Proof.
  intros Hs Hk. destruct (gettoken_spec s) as (t & q & eq & s2 & E2 & H2 & H3 & _ & _ & Hp); [lia|].
  eapply ok_bind_eq; [exact E2|]. cbv beta iota. apply Hk. specialize (Hp Hs). unfold advance. lia.
Qed.

Lemma parse_ok : forall f,
  (forall s, (s <= es)%nat -> (4 * (es - s) + 4 <= f)%nat -> ok (parseline buf f) s (fun c s' => advance s s' /\ cmd_wf c)) /\
  (forall s, (s <= es)%nat -> (4 * (es - s) + 3 <= f)%nat -> ok (parsepipe buf f) s (fun c s' => advance s s' /\ cmd_wf c)) /\
  (forall s, (s <= es)%nat -> (4 * (es - s) + 2 <= f)%nat -> ok (parseexec buf f) s (fun c s' => advance s s' /\ cmd_wf c)) /\
  (forall s, (s <= es)%nat -> (4 * (es - s) + 1 <= f)%nat -> ok (parseblock buf f) s (fun c s' => advance s s' /\ cmd_wf c)).
Proof.
  unfold advance. induction f as [|f (IHl & IHp & IHe & IHb)]; [split_and!; intros; lia|].
  split_and!; intros s Hs Hf.
  - cbn [parseline]. eapply ok_bind; [apply IHp; lia|]. intros c s1 [H1 Hc1].
    eapply ok_bind; [apply back_loop_ok; [lia|lia|done]|]. intros c2 s2 [H2 Hc2]. unfold advance in H2.
    apply ok_peek; unfold advance; [lia|intros s3 H3; split; [lia|done]|]. intros s3 H3 Hlt.
    apply ok_gettoken; unfold advance; [lia|]. intros s4 H4.
    eapply ok_bind; [apply IHl; lia|]. intros r s5 [H5 Hr]. split; [lia|done].
  - cbn [parsepipe]. eapply ok_bind; [apply IHe; lia|]. intros c s1 [H1 Hc1].
    apply ok_peek; unfold advance; [lia|intros s3 H3; split; [lia|done]|]. intros s3 H3 Hlt.
    apply ok_gettoken; unfold advance; [lia|]. intros s4 H4.
    eapply ok_bind; [apply IHp; lia|]. intros r s5 [H5 Hr]. split; [lia|done].
  - cbn [parseexec]. apply ok_peek; unfold advance; [lia| |].
    + intros s1 H1. eapply ok_bind; [apply redir_loop_ok; lia|]. intros rs s2 [H2 Hr]. unfold advance in H2.
      eapply ok_conseq; [apply args_loop_ok; try done; try lia; unfold MAXARGS; cbn; lia|].
      intros c s3 [H3 Hc]. unfold advance in H3. split; [lia|done].
    + intros s1 H1 Hlt. eapply ok_conseq; [apply IHb; lia|]. intros c s3 [H3 Hc]. split; [lia|done].
  - cbn [parseblock]. apply ok_peek; unfold advance; [lia|intros s1 H1; exact I|]. intros s1 H1 Hlt. cbn [negb].
    apply ok_gettoken; unfold advance; [lia|]. intros s2 H2.
    eapply ok_bind; [apply IHl; lia|]. intros c s3 [H3 Hc].
    apply ok_peek; unfold advance; [lia|intros s4 H4; exact I|]. intros s4 H4 Hlt4. cbn [negb].
    apply ok_gettoken; unfold advance; [lia|]. intros s5 H5. unfold parseredirs.
    eapply ok_bind; [apply redir_loop_ok; lia|]. intros rs s6 [H6 Hr]. unfold advance in H6.
    split; [lia|]. by apply wrap_wf.
Qed.

Lemma parsecmd_ok : ok (parsecmd buf) 0%nat (fun c s' => s' = es /\ cmd_wf c).
Proof.
  unfold parsecmd. eapply ok_bind; [apply (parse_ok (parse_fuel buf)); unfold parse_fuel; lia|].
  intros c s1 [H1 Hc]. unfold advance in H1. apply ok_peek; unfold advance; [lia| |].
  - intros s2 H2. unfold ok, bind, gets. by destruct (Nat.eqb_spec s2 es).
  - intros s2 H2 _. unfold ok, bind, gets. by destruct (Nat.eqb_spec s2 es).
Qed.
End total.

(** C26: the shell's parser is total: for every command line it either
    reports an error (one of its panics) or returns a command having read the
    whole line; the recursion and the loops never exhaust their fuel.  In a
    command it returns, every string is a non-empty maximal run of characters
    that are neither blank nor special, and no command has more than nine
    arguments. *)
Theorem parsecmd_total buf :
  Forall (fun c => c <> 0) buf ->
  (exists c, parsecmd buf 0%nat = Ret c (length buf) /\ cmd_wf buf c) \/
  (exists msg s', parsecmd buf 0%nat = Panic msg s').
Proof.
  intros Hnz. pose proof (parsecmd_ok buf Hnz) as H. unfold ok in H.
  destruct (parsecmd buf 0%nat) as [c s'|msg s'| |]; [|by eauto|done|done].
  left. exists c. by destruct H as [-> H].
Qed.

(** The bytes of "echo hi > f". *)
Lemma parsecmd_total_witness :
  let buf := [101; 99; 104; 111; 32; 104; 105; 32; 62; 32; 102] in
  (exists c, parsecmd buf 0%nat = Ret c (length buf) /\ cmd_wf buf c) \/
  (exists msg s', parsecmd buf 0%nat = Panic msg s').
Proof.
  intros buf. apply parsecmd_total. repeat constructor; discriminate.
Defined.

(** ** Terminating the strings *)

Fixpoint strs (c : cmd) : list (nat * nat) :=
  match c with
  | EXEC argv => argv
  | REDIR c q eq _ _ => (q, eq) :: strs c
  | PIPE l r | LIST l r => strs l ++ strs r
  | BACK c => strs c
  end.

Lemma at_insert (b : list Z) k i : at_list (<[k := 0]> b) i = if decide (i = k) then 0 else at_list b i.
Proof.
  unfold at_list. destruct (decide (i = k)) as [->|Hne]; [|by rewrite list_lookup_insert_ne].
  destruct (decide (k < length b)%nat); [by rewrite list_lookup_insert_eq|].
  by rewrite lookup_ge_None_2 by (rewrite length_insert; lia).
Qed.

Lemma at_nulterminate c : forall b i,
  at_list (nulterminate c b) i = if decide (i ∈ (strs c).*2) then 0 else at_list b i.
Proof.
  induction c as [argv|c IH q eq md fd|l IHl r IHr|l IHl r IHr|c IH]; intros b i; cbn [nulterminate strs].
  - revert b. induction argv as [|[q eq] argv IH]; intros b; cbn [foldl fmap list_fmap]; [by rewrite decide_False by set_solver|].
    rewrite IH, at_insert. cbn [snd]. destruct (decide (i ∈ argv.*2)) as [Hi|Hi].
    + by rewrite decide_True by (by right).
    + destruct (decide (i = eq)) as [->|Hne]; [by rewrite decide_True by left|].
      rewrite decide_False; [done|]. intros [?|?]%elem_of_cons; done.
  - rewrite at_insert, IH. cbn [fmap list_fmap snd]. destruct (decide (i = eq)) as [->|Hne]; [by rewrite decide_True by left|].
    destruct (decide (i ∈ (strs c).*2)); [by rewrite decide_True by (by right)|].
    rewrite decide_False; [done|]. intros [?|?]%elem_of_cons; done.
  - rewrite IHr, IHl. destruct (decide (i ∈ (strs l ++ strs r).*2)) as [H|H]; rewrite fmap_app, elem_of_app in H;
      destruct (decide (i ∈ (strs r).*2)), (decide (i ∈ (strs l).*2)); done || tauto.
  - rewrite IHr, IHl. destruct (decide (i ∈ (strs l ++ strs r).*2)) as [H|H]; rewrite fmap_app, elem_of_app in H;
      destruct (decide (i ∈ (strs r).*2)), (decide (i ∈ (strs l).*2)); done || tauto.
  - apply IH.
Qed.

Lemma strs_wf buf c : cmd_wf buf c -> Forall (tok_wf buf) (strs c).
Proof.
  induction c; cbn [cmd_wf strs].
  - by intros [? _].
  - intros [? ?]. constructor; auto.
  - intros [? ?]. apply Forall_app; auto.
  - intros [? ?]. apply Forall_app; auto.
  - auto.
Qed.

(** After [nulterminate], every string of a parsed command, read as a C
    string from where it starts, is exactly the characters the parser saw:
    the NULs written for one string never fall inside another. *)
Theorem nulterminate_strings buf c s' q eq :
  Forall (fun c => c <> 0) buf -> parsecmd buf 0%nat = Ret c s' -> (q, eq) ∈ strs c ->
  let b := nulterminate c (buf ++ [0]) in
  (forall i, (q <= i < eq)%nat -> at_list b i = at_list buf i /\ at_list b i <> 0) /\ at_list b eq = 0.
Proof.
  intros Hnz E Hin b. pose proof (parsecmd_ok buf Hnz) as H. unfold ok in H. rewrite E in H.
  destruct H as [_ Hwf%strs_wf]. rewrite Forall_forall in Hwf. destruct (Hwf _ Hin) as (Hr & Hword & _). cbn [fst snd] in *.
  unfold b. split.
  - intros i Hi. rewrite at_nulterminate. destruct (Hword i Hi) as [Hc _]. unfold char in Hc.
    rewrite decide_False.
    + assert (at_list (buf ++ [0]) i = at_list buf i) as ->; [|done]. unfold at_list.
      rewrite lookup_app_l; [done|]. unfold es in Hr. lia.
    + intros ([q' eq'] & E' & Hin')%list_elem_of_fmap. cbn in E'. subst eq'.
      destruct (Hwf _ Hin') as (_ & _ & Hno). apply Hno. by apply Hword.
  - rewrite at_nulterminate, decide_True; [done|]. apply list_elem_of_fmap. by exists (q, eq).
Qed.

Lemma nulterminate_strings_witness :
  at_list (nulterminate (EXEC [(0, 2); (3, 4)]%nat) ([108; 115; 32; 97] ++ [0])) 2%nat = 0.
Proof.
  apply (nulterminate_strings [108; 115; 32; 97] (EXEC [(0, 2); (3, 4)]%nat) 4 0 2);
    [repeat constructor; discriminate|vm_compute; reflexivity|left].
Defined.
