(* ===== verification/ShPrint.v ===== *)
(** Printing commands and parsing them back: the grammar of the shell, its
    tokens separated by single spaces, and the proof that [parsecmd] recovers
    the command from its text. *)

From S2P Require Import Prelude Params CString Sh ShSpec.

(** ** Texts *)

Inductive token : Type := TWord (w : list Z) | TSym (c : Z) | TApp.

Definition tokstr (t : token) : list Z :=
  match t with TWord w => w | TSym c => [c] | TApp => [62; 62] end.
Definition kind (t : token) : Z :=
  match t with TWord _ => 97 | TSym c => c | TApp => 43 end.
Definition text (ts : list token) : list Z := flat_map (fun t => tokstr t ++ [32]) ts.

Definition word_ok (w : list Z) : Prop := w <> [] /\ Forall wordc w.
Definition token_ok (t : token) : Prop :=
  match t with TWord w => word_ok w | TSym c => c ∈ symbols | TApp => True end.

(** ** The grammar *)

Inductive rdir : Type := RIn (w : list Z) | ROut (w : list Z) | RApp (w : list Z).

Inductive ex : Type :=
| EExec (args : list (list Z)) (rs : list rdir)
| EBlock (l : line) (rs : list rdir)
with pipeline : Type :=
| P1 (e : ex)
| PBar (e : ex) (p : pipeline)
with line : Type :=
| L1 (p : pipeline) (n : nat)
| LSeq (p : pipeline) (n : nat) (l : line).

Definition tk_rdir (r : rdir) : list token :=
  match r with
  | RIn w => [TSym 60; TWord w]
  | ROut w => [TSym 62; TWord w]
  | RApp w => [TApp; TWord w]
  end.
Definition tk_rdirs (rs : list rdir) : list token := flat_map tk_rdir rs.

Fixpoint tk_ex (e : ex) : list token :=
  match e with
  | EExec args rs => (TWord <$> args) ++ tk_rdirs rs
  | EBlock l rs => TSym 40 :: tk_line l ++ TSym 41 :: tk_rdirs rs
  end
with tk_pipe (p : pipeline) : list token :=
  match p with
  | P1 e => tk_ex e
  | PBar e p => tk_ex e ++ TSym 124 :: tk_pipe p
  end
with tk_line (l : line) : list token :=
  match l with
  | L1 p n => tk_pipe p ++ replicate n (TSym 38)
  | LSeq p n l => tk_pipe p ++ replicate n (TSym 38) ++ TSym 59 :: tk_line l
  end.

(** ** Commands with their strings *)

Inductive wcmd : Type :=
| WExec (argv : list (list Z))
| WRedir (c : wcmd) (file : list Z) (mode fd : Z)
| WPipe (l r : wcmd)
| WList (l r : wcmd)
| WBack (c : wcmd).

Fixpoint words (buf : list Z) (c : cmd) : wcmd :=
  match c with
  | EXEC argv => WExec ((fun '(q, eq) => take (eq - q) (drop q buf)) <$> argv)
  | REDIR c q eq mode fd => WRedir (words buf c) (take (eq - q) (drop q buf)) mode fd
  | PIPE l r => WPipe (words buf l) (words buf r)
  | LIST l r => WList (words buf l) (words buf r)
  | BACK c => WBack (words buf c)
  end.

Definition den_rdir (c : wcmd) (r : rdir) : wcmd :=
  match r with
  | RIn w => WRedir c w O_RDONLY 0
  | ROut w | RApp w => WRedir c w (Z.lor O_WRONLY O_CREATE) 1
  end.

Fixpoint den_ex (e : ex) : wcmd :=
  match e with
  | EExec args rs => foldl den_rdir (WExec args) rs
  | EBlock l rs => foldl den_rdir (den_line l) rs
  end
with den_pipe (p : pipeline) : wcmd :=
  match p with
  | P1 e => den_ex e
  | PBar e p => WPipe (den_ex e) (den_pipe p)
  end
with den_line (l : line) : wcmd :=
  match l with
  | L1 p n => Nat.iter n WBack (den_pipe p)
  | LSeq p n l => WList (Nat.iter n WBack (den_pipe p)) (den_line l)
  end.

Definition rdir_ok (r : rdir) : Prop := match r with RIn w | ROut w | RApp w => word_ok w end.

Fixpoint ok_ex (e : ex) : Prop :=
  match e with
  | EExec args rs => Forall word_ok args /\ (length args < MAXARGS)%nat /\ Forall rdir_ok rs
  | EBlock l rs => ok_line l /\ Forall rdir_ok rs
  end
with ok_pipe (p : pipeline) : Prop :=
  match p with
  | P1 e => ok_ex e
  | PBar e p => ok_ex e /\ ok_pipe p
  end
with ok_line (l : line) : Prop :=
  match l with
  | L1 p n => ok_pipe p
  | LSeq p n l => ok_pipe p /\ ok_line l
  end.

(** ** Reading tokens *)

Section read.
Context (buf : list Z).
Notation es := (es buf).
Notation char := (char buf).

(** The parser stands at the first of the tokens [ts]. *)
Definition at_tok (p : nat) (ts : list token) : Prop :=
  drop p buf = text ts /\ (p <= es)%nat /\ Forall token_ok ts.

Lemma scan_eq f s s' : (s <= s' <= es)%nat -> (forall i, (s <= i < s')%nat -> f (char i) = true) ->
  s' = es \/ f (char s') = false -> scan buf f s = s'.
Proof.
  intros Hs Ht Hf. destruct (scan_spec buf f s ltac:(lia)) as (H1 & H2 & H3).
  destruct (Nat.lt_trichotomy (scan buf f s) s') as [Hl|[|Hl]]; [|done|].
  - destruct H3 as [H3|H3]; [lia|]. rewrite Ht in H3 by lia. done.
  - destruct Hf as [Hf|Hf]; [lia|]. rewrite H2 in Hf by lia. done.
Qed.

Lemma char_at p ts i : at_tok p ts -> char (p + i) = at_list (text ts) i.
Proof. intros (E & _). unfold Sh.char, at_list. by rewrite <- E, lookup_drop. Qed.

Lemma first_char t ts : token_ok t -> exists c l, text (t :: ts) = c :: l /\ c ∉ whitespace /\ c <> 0.
Proof.
  intros Ht. destruct t as [w|c|].
  - destruct Ht as [Hne Hw]. destruct w as [|c w]; [done|]. inversion Hw as [|? ? (H0 & H1 & _)]; subst.
    eexists c, _. split; [reflexivity|done].
  - eexists c, _. split; [reflexivity|]. cbn in Ht. unfold symbols, whitespace in *. set_solver by lia.
  - eexists 62, _. split; [reflexivity|]. unfold whitespace. split; [set_solver by lia|done].
Qed.

Lemma at_char p ts : at_tok p ts ->
  match ts with [] => p = es | _ => (p < es)%nat end /\ char p ∉ whitespace /\
  (char p = 0 <-> ts = []).
Proof.
  intros A. pose proof A as (E & Hp & Hok). pose proof (char_at p ts 0 A) as Hc. rewrite Nat.add_0_r in Hc.
  destruct ts as [|t ts].
  - cbn in E, Hc. assert (p = es) as -> by (apply drop_nil_inv in E; unfold Sh.es in *; lia).
    rewrite Hc. split_and!; [done| |done]. apply (bool_decide_unpack _). vm_compute. exact I.
  - inversion Hok as [|? ? Ht]; subst. destruct (first_char t ts Ht) as (c & l & Et & Hw & H0).
    rewrite Et in Hc. cbn in Hc. rewrite Hc. split_and!; [|done|done].
    assert (length (drop p buf) = S (length l)) as Hl by (by rewrite E, Et). rewrite length_drop in Hl. unfold Sh.es in *. lia.
Qed.

Lemma skip_ws_at p ts : at_tok p ts -> skip_ws buf p = p.
Proof.
  intros A. destruct (at_char p ts A) as (_ & Hw & _). destruct A as (_ & Hp & _).
  apply scan_eq; [lia|lia|]. right. destruct (chr_in (char p) whitespace) eqn:E; [|done]. by apply chr_in_spec in E.
Qed.

Definition len (t : token) : nat := length (tokstr t).

Lemma at_next p t ts : at_tok p (t :: ts) -> at_tok (p + len t + 1) ts.
Proof.
  intros (E & Hp & Hok). inversion Hok; subst. unfold at_tok. cbn [text flat_map] in E. split_and!; [| |done].
  - rewrite <- Nat.add_assoc, <- drop_drop, E, <- app_assoc. cbn [app]. rewrite drop_app_ge by (unfold len; lia).
    replace (len t + 1 - length (tokstr t))%nat with 1%nat by (unfold len; lia). done.
  - assert (length (drop p buf) = length ((tokstr t ++ [32]) ++ text ts)) as Hl by (by rewrite E).
    rewrite length_drop, !length_app in Hl. cbn in Hl. unfold len, Sh.es in *. lia.
Qed.

(** After a token there is one space. *)
Lemma skip_after p t ts : at_tok p (t :: ts) -> skip_ws buf (p + len t) = (p + len t + 1)%nat /\ char (p + len t) = 32.
Proof.
  intros A. pose proof (at_next p t ts A) as A'. pose proof A as (E & Hp & _).
  assert (char (p + len t) = 32) as Hc.
  { rewrite (char_at p _ _ A). unfold at_list, len. cbn [text flat_map]. rewrite <- app_assoc, lookup_app_r by lia.
    by rewrite Nat.sub_diag. }
  split; [|done]. destruct (at_char _ _ A') as (_ & Hw & _). destruct A' as (_ & Hp' & _).
  apply scan_eq; [lia| |].
  - intros i Hi. replace i with (p + len t)%nat by lia. by rewrite Hc.
  - right. destruct (chr_in (char (p + len t + 1)) whitespace) eqn:E'; [|done]. by apply chr_in_spec in E'.
Qed.

Lemma gettoken_at p t ts : at_tok p (t :: ts) ->
  gettoken buf p = Ret (kind t, p, (p + len t)%nat) (p + len t + 1)%nat /\
  at_tok (p + len t + 1) ts /\ take (p + len t - p) (drop p buf) = tokstr t.
Proof.
  intros A. pose proof (skip_ws_at p _ A) as Es. destruct (skip_after p t ts A) as [Ea Ec].
  destruct (at_char p _ A) as (Hlt & Hw & Hz). pose proof (at_next p t ts A) as A'.
  split_and!; [|done|].
  2:{ destruct A as (E & _). rewrite E. cbn [text flat_map]. replace (p + len t - p)%nat with (length (tokstr t)) by (unfold len; lia).
      by rewrite <- app_assoc, take_app_length. }
  unfold gettoken, bind, gets, modify, ret. rewrite Es.
  assert (forall i, char (p + i) = at_list (text (t :: ts)) i) as Hch by (intros i; by apply char_at).
  pose proof (Hch 0%nat) as Hc0. rewrite Nat.add_0_r in Hc0.
  destruct (Z.eqb_spec (char p) 0) as [E0|E0]; [by apply Hz in E0|].
  pose proof A as (_ & Hp & Hok). inversion Hok as [|? ? Ht Hok']; subst.
  destruct t as [w|c|]; cbn [kind].
  - destruct Ht as [Hne Hwd]. assert (wordc (char p)) as (_ & _ & Hs).
    { rewrite Hc0. destruct w as [|c w]; [done|]. by inversion Hwd. }
    assert (chr_in (char p) [124; 40; 41; 59; 38; 60] = false) as ->.
    { destruct (chr_in _ _) eqn:E; [|done]. apply chr_in_spec in E. destruct Hs. unfold symbols. set_solver. }
    assert (char p =? 62 = false) as ->.
    { apply Z.eqb_neq. intros E. apply Hs. rewrite E. unfold symbols. set_solver. }
    assert (skip_word buf p = p + len (TWord w))%nat as ->; [|by rewrite Ea].
    apply scan_eq.
    + destruct A' as (_ & ? & _). lia.
    + intros i Hi. replace i with (p + (i - p))%nat by lia. rewrite Hch. unfold at_list. cbn [text flat_map tokstr].
      unfold len in Hi. cbn [tokstr] in Hi. rewrite <- app_assoc, lookup_app_l by lia.
      destruct (lookup_lt_is_Some_2 w (i - p) ltac:(lia)) as [c Hc]. rewrite Hc. cbn.
      rewrite Forall_lookup in Hwd. destruct (Hwd _ _ Hc) as (_ & H1 & H2).
      apply andb_true_iff. split; apply negb_true_iff; (destruct (chr_in c _) eqn:Ei; [|done]); by apply chr_in_spec in Ei.
    + right. rewrite Ec. done.
  - cbn in Hc0, Ht. change (char p = c) in Hc0. rewrite Hc0.
    assert (len (TSym c) = 1%nat) as El by done. rewrite El in *.
    replace (p + 1)%nat with (S p) in * by lia. unfold symbols in Ht.
    destruct (decide (c = 62)) as [->|Hne].
    + change (chr_in 62 [124; 40; 41; 59; 38; 60]) with false. cbv iota. change (62 =? 62) with true. cbv iota.
      rewrite Ec. change (32 =? 62) with false. cbv iota. by rewrite Ea.
    + assert (chr_in c [124; 40; 41; 59; 38; 60] = true) as -> by (apply chr_in_spec; set_solver). by rewrite Ea.
  - change (char p = 62) in Hc0. rewrite Hc0. change (chr_in 62 [124; 40; 41; 59; 38; 60]) with false.
    change (62 =? 62) with true. cbv iota. pose proof (Hch 1%nat) as Hc1. rewrite Nat.add_1_r in Hc1.
    change (char (S p) = 62) in Hc1. rewrite Hc1. change (62 =? 62) with true. cbv iota.
    change (len TApp) with 2%nat in *. replace (p + 2)%nat with (S (S p)) in * by lia. by rewrite Ea.
Qed.

Definition peeks (ts : list token) (toks : list Z) : bool :=
  match ts with
  | [] => false
  | t :: _ => chr_in (match t with TWord w => at_list w 0 | TSym c => c | TApp => 62 end) toks
  end.

Lemma peek_at p ts toks : at_tok p ts -> peek buf toks p = Ret (peeks ts toks) p.
Proof.
  intros A. unfold peek, bind, gets, modify, ret. rewrite (skip_ws_at p ts A). f_equal.
  destruct (at_char p ts A) as (_ & _ & Hz). pose proof (char_at p ts 0 A) as Hc. rewrite Nat.add_0_r in Hc.
  destruct ts as [|t ts]; cbn [peeks].
  - by rewrite (proj2 Hz).
  - destruct (Z.eqb_spec (char p) 0) as [E|_]; [by apply Hz in E|]. cbn [negb andb]. f_equal. rewrite Hc.
    pose proof A as (_ & _ & Hok). inversion Hok as [|? ? Ht]; subst.
    destruct t as [w|c|]; [|done|done]. destruct Ht as [Hne _]. by destruct w.
Qed.

(** At the end of the line [gettoken] returns 0. *)
Lemma gettoken_end p : at_tok p [] -> gettoken buf p = Ret (0, p, p) p.
Proof.
  intros A. pose proof (skip_ws_at p _ A) as Es. destruct (at_char p _ A) as (_ & _ & Hz).
  unfold gettoken, bind, gets, modify, ret. rewrite Es, (proj2 Hz) by done. cbn. by rewrite Es.
Qed.

(** ** Parsing what was printed *)

(** What may follow a construct: the end of the line or one of [cs]. *)
Definition follow (ts : list token) (cs : list Z) : Prop :=
  match ts with
  | [] => True
  | TSym c :: _ => c ∈ cs
  | _ => False
  end.

Lemma follow_peeks ts cs toks : follow ts cs -> (forall c, c ∈ cs -> c ∉ toks) -> peeks ts toks = false.
Proof.
  intros Hf Hd. destruct ts as [|[w|c|] ts]; cbn in *; try done.
  destruct (chr_in c toks) eqn:E; [|done]. apply chr_in_spec in E. by destruct (Hd c).
Qed.

Lemma word_peeks w ts toks : word_ok w -> (forall c, c ∈ toks -> c ∈ symbols) -> peeks (TWord w :: ts) toks = false.
Proof.
  intros [Hne Hw] Hs. cbn. destruct w as [|c w]; [done|]. inversion Hw as [|? ? (_ & _ & Hc)]; subst. cbn.
  destruct (chr_in c toks) eqn:E; [|done]. apply chr_in_spec in E. by destruct Hc; apply Hs.
Qed.

Lemma at_cons p t ts : at_tok p (t :: ts) -> token_ok t.
Proof. intros (_ & _ & H). by inversion H. Qed.

Ltac sym_solver := unfold symbols; set_solver by lia.

(** Redirections. *)
Lemma redir_loop_at rs : forall f p rest, at_tok p (tk_rdirs rs ++ rest) -> (length rs < f)%nat ->
  peeks rest [60; 62] = false ->
  exists rs' p', redir_loop buf f p = Ret rs' p' /\ at_tok p' rest /\
    forall c, words buf (wrap rs' c) = foldl den_rdir (words buf c) rs.
Proof.
  induction rs as [|r rs IH]; intros f p rest A Hf Hr; (destruct f as [|f]; [cbn in Hf; lia|]); cbn [redir_loop].
  - unfold bind. rewrite (peek_at p rest) by done. rewrite Hr. exists [], p. done.
  - cbn [tk_rdirs flat_map] in A. fold (tk_rdirs rs) in A. rewrite <- app_assoc in A.
    assert (exists k w, tk_rdir r = [k; TWord w] /\ peeks (k :: TWord w :: tk_rdirs rs ++ rest) [60; 62] = true /\
      forall q eq c, words buf (redir_of (kind k) q eq c) = den_rdir (words buf c)
        (match r with RIn _ => RIn | ROut _ => ROut | RApp _ => RApp end (take (eq - q) (drop q buf))) /\
        r = (match r with RIn _ => RIn | ROut _ => ROut | RApp _ => RApp end w)) as (k & w & Ek & Hp & Hd).
    { destruct r as [w|w|w]; [exists (TSym 60), w|exists (TSym 62), w|exists TApp, w]; by split_and!. }
    rewrite Ek in A. cbn [app] in A. unfold bind at 1. rewrite (peek_at p _ _ A), Hp.
    destruct (gettoken_at p _ _ A) as (E1 & A1 & _). unfold bind at 1. rewrite E1. cbv beta iota.
    destruct (gettoken_at _ _ _ A1) as (E2 & A2 & T2). unfold bind at 1. rewrite E2. cbv beta iota.
    cbn [kind]. change (negb (97 =? 97)) with false. cbv iota.
    destruct (IH f _ rest A2) as (rs' & p' & E3 & A3 & W3); [cbn in Hf; lia|done|]. unfold bind. rewrite E3.
    eexists _, p'. split_and!; [reflexivity|done|]. intros c.
    destruct (Hd (p + len k + 1)%nat (p + len k + 1 + len (TWord w))%nat c) as [Hd1 Hd2].
    etransitivity; [apply (W3 (redir_of (kind k) (p + len k + 1) (p + len k + 1 + len (TWord w)) c))|].
    rewrite Hd1, T2. cbn [tokstr]. by rewrite <- Hd2.
Qed.

Definition wargs (argv : list (nat * nat)) : list (list Z) := (fun '(q, eq) => take (eq - q) (drop q buf)) <$> argv.

Lemma wrap_app rs rs' c : wrap (rs ++ rs') c = wrap rs' (wrap rs c).
Proof. apply foldl_app. Qed.

Lemma word_not_redir w ts : word_ok w -> peeks (TWord w :: ts) [60; 62] = false.
Proof. intros Hw. apply word_peeks; [done|]. intros c Hc. sym_solver. Qed.

Lemma args_loop_at ws : forall f p rest argv rs0 rs,
  at_tok p ((TWord <$> ws) ++ tk_rdirs rs ++ rest) -> (ws = [] -> rs = []) -> Forall word_ok ws ->
  (length argv + length ws < MAXARGS)%nat -> (length ws + length rs < f)%nat -> follow rest [124; 41; 38; 59] ->
  exists c p' argv', args_loop buf f argv rs0 p = Ret c p' /\ at_tok p' rest /\ wargs argv' = wargs argv ++ ws /\
    words buf c = foldl den_rdir (words buf (wrap rs0 (EXEC argv'))) rs.
Proof.
  induction ws as [|w ws IH]; intros f p rest argv rs0 rs A He Hw Hl Hf Hr; (destruct f as [|f]; [lia|]); cbn [args_loop].
  - rewrite He in * by done. cbn [tk_rdirs flat_map fmap list_fmap app] in A. unfold bind. rewrite (peek_at p _ _ A).
    exists (wrap rs0 (EXEC argv)), p, argv. rewrite app_nil_r.
    destruct rest as [|[w|c|] rest]; cbn in Hr; try done.
    + cbn [peeks]. rewrite (gettoken_end p A). by cbn.
    + cbn [peeks]. by rewrite (proj2 (chr_in_spec _ _)).
  - inversion Hw as [|? ? Hw1 Hw2]; subst. cbn [fmap list_fmap app] in A.
    unfold bind at 1. rewrite (peek_at p _ _ A), word_peeks; [|done|intros c Hc; sym_solver].
    destruct (gettoken_at p _ _ A) as (E1 & A1 & T1). unfold bind at 1. rewrite E1. cbv beta iota. cbn [kind].
    change (97 =? 0) with false. change (negb (97 =? 97)) with false. cbv iota.
    rewrite length_app. cbn [length] in Hl, Hf |- *. destruct (Nat.leb_spec MAXARGS (length argv + 1)); [lia|].
    assert (exists rs' p2 rs2, redir_loop buf f (p + len (TWord w) + 1)%nat = Ret rs' p2 /\
      at_tok p2 ((TWord <$> ws) ++ tk_rdirs rs2 ++ rest) /\ (ws = [] -> rs2 = []) /\ (length ws + length rs2 < f)%nat /\
      forall c, foldl den_rdir (words buf (wrap rs' c)) rs2 = foldl den_rdir (words buf c) rs)
      as (rs' & p2 & rs2 & E2 & A2 & He2 & Hf2 & W2).
    { destruct ws as [|w' ws].
      - destruct (redir_loop_at rs f _ rest A1) as (rs' & p2 & E2 & A2 & W2); [cbn in Hf; lia| |].
        { apply (follow_peeks _ _ _ Hr). intros c Hc. set_solver by lia. }
        exists rs', p2, []. split_and!; [exact E2|exact A2|done|cbn in *; lia|intros c; apply W2].
      - destruct (redir_loop_at [] f _ _ A1) as (rs' & p2 & E2 & A2 & W2); [cbn in Hf |- *; lia| |].
        { inversion Hw2; subst. by apply word_not_redir. }
        exists rs', p2, rs. split_and!; [exact E2|exact A2|done|cbn in *; lia|intros c; by rewrite W2]. }
    unfold bind. rewrite E2.
    destruct (IH f p2 rest (argv ++ [(p, (p + len (TWord w))%nat)]) (rs0 ++ rs') rs2 A2 He2 Hw2) as (c & p' & argv' & E3 & A3 & G3 & W3);
      [rewrite length_app; cbn; lia|done|done|].
    exists c, p', argv'. split_and!; [done|done| |].
    + rewrite G3. unfold wargs. rewrite fmap_app. cbn [fmap list_fmap]. rewrite T1. cbn [tokstr]. by rewrite <- app_assoc.
    + by rewrite W3, wrap_app, W2.
Qed.

Lemma back_loop_at n : forall f p rest c, at_tok p (replicate n (TSym 38) ++ rest) -> (n < f)%nat ->
  peeks rest [38] = false ->
  exists c' p', back_loop buf f c p = Ret c' p' /\ at_tok p' rest /\ words buf c' = Nat.iter n WBack (words buf c).
Proof.
  induction n as [|n IH]; intros f p rest c A Hf Hr; (destruct f as [|f]; [lia|]); cbn [back_loop]; unfold bind at 1.
  - rewrite (peek_at p _ _ A). cbn [replicate app] in *. rewrite Hr. by exists c, p.
  - rewrite (peek_at p _ _ A). cbn [replicate app] in *. change (peeks _ [38]) with true. cbv iota.
    destruct (gettoken_at p _ _ A) as (E1 & A1 & _). unfold bind at 1. rewrite E1.
    destruct (IH f _ rest (backcmd c) A1) as (c' & p' & E & A' & W); [lia|done|]. exists c', p'. split_and!; [done|done|].
    rewrite W. cbn [words backcmd]. by rewrite Nat.iter_succ_r.
Qed.

Scheme ex_ind' := Induction for ex Sort Prop
  with pipeline_ind' := Induction for pipeline Sort Prop
  with line_ind' := Induction for line Sort Prop.
Combined Scheme grammar_ind from ex_ind', pipeline_ind', line_ind'.

Lemma replicate_follow n rest cs : follow rest cs -> 38 ∈ cs -> follow (replicate n (TSym 38) ++ rest) cs.
Proof. intros H1 H2. by destruct n. Qed.

Lemma follow_weaken ts cs cs' : follow ts cs -> (forall c, c ∈ cs -> c ∈ cs') -> follow ts cs'.
Proof. intros H1 H2. destruct ts as [|[w|c|] ts]; cbn in *; auto. Qed.

Lemma tk_rdirs_length rs : length (tk_rdirs rs) = (2 * length rs)%nat.
Proof.
  induction rs as [|r rs IH]; [done|]. change (tk_rdirs (r :: rs)) with (tk_rdir r ++ tk_rdirs rs).
  rewrite length_app, IH. destruct r; cbn; lia.
Qed.

Definition parses_ex (e : ex) : Prop := ok_ex e -> forall f p rest, at_tok p (tk_ex e ++ rest) ->
  (4 * length (tk_ex e) + 2 <= f)%nat -> follow rest [124; 41; 38; 59] ->
  exists c p', parseexec buf f p = Ret c p' /\ at_tok p' rest /\ words buf c = den_ex e.
Definition parses_pipe (x : pipeline) : Prop := ok_pipe x -> forall f p rest, at_tok p (tk_pipe x ++ rest) ->
  (4 * length (tk_pipe x) + 3 <= f)%nat -> follow rest [41; 38; 59] ->
  exists c p', parsepipe buf f p = Ret c p' /\ at_tok p' rest /\ words buf c = den_pipe x.
Definition parses_line (l : line) : Prop := ok_line l -> forall f p rest, at_tok p (tk_line l ++ rest) ->
  (4 * length (tk_line l) + 4 <= f)%nat -> follow rest [41] ->
  exists c p', parseline buf f p = Ret c p' /\ at_tok p' rest /\ words buf c = den_line l.

Lemma parses_exec args rs : parses_ex (EExec args rs).
Proof.
  intros (Hw & Hl & Hr) f p rest A Hf Hfol. destruct f as [|f]; [lia|]. cbn [parseexec].
  cbn [tk_ex] in A, Hf. rewrite length_app, length_fmap, tk_rdirs_length in Hf. rewrite <- app_assoc in A.
  assert (peeks ((TWord <$> args) ++ tk_rdirs rs ++ rest) [40] = false) as Hp.
  { destruct args as [|w args]; [|inversion Hw; subst; apply word_peeks; [done|intros c Hc; sym_solver]].
    destruct rs as [|r rs]; [|by destruct r]. cbn. apply (follow_peeks _ _ _ Hfol). intros c Hc. set_solver by lia. }
  unfold bind at 1. rewrite (peek_at p _ _ A), Hp.
  assert (peeks rest [60; 62] = false) as Hpr by (apply (follow_peeks _ _ _ Hfol); intros c Hc; set_solver by lia).
  destruct args as [|w args].
  - destruct (redir_loop_at rs f p rest A) as (rs' & p2 & E2 & A2 & W2); [lia|done|]. unfold bind. rewrite E2.
    destruct (args_loop_at [] f p2 rest [] rs' [] A2) as (c & p' & argv' & E3 & A3 & G3 & W3);
      [done|constructor|unfold MAXARGS; cbn; lia|cbn; lia|done|].
    exists c, p'. split_and!; [done|done|]. rewrite W3. cbn [foldl]. rewrite W2. cbn [words den_ex].
    unfold wargs in G3. cbn in G3. by rewrite G3.
  - destruct (redir_loop_at [] f p _ A) as (rs' & p2 & E2 & A2 & W2); [cbn; lia|inversion Hw; subst; by apply word_not_redir|].
    unfold bind. rewrite E2.
    destruct (args_loop_at (w :: args) f p2 rest [] rs' rs A2) as (c & p' & argv' & E3 & A3 & G3 & W3);
      [done|done|cbn in *; lia|cbn in *; lia|done|].
    exists c, p'. split_and!; [done|done|]. rewrite W3, W2. cbn [words den_ex foldl].
    unfold wargs in G3. cbn in G3. by rewrite G3.
Qed.

Lemma parses_block l rs : parses_line l -> parses_ex (EBlock l rs).
Proof.
  intros IH (Hok & Hr) f p rest A Hf Hfol. cbn [tk_ex app] in A, Hf. cbn [length] in Hf.
  rewrite length_app in Hf. cbn [length] in Hf. rewrite tk_rdirs_length in Hf.
  destruct f as [|[|f]]; [lia|lia|]. cbn [parseexec parseblock]. unfold bind at 1. rewrite (peek_at p _ _ A).
  change (peeks _ [40]) with true. cbv iota. unfold bind at 1. rewrite (peek_at p _ _ A).
  change (peeks _ [40]) with true. cbn [negb].
  destruct (gettoken_at p _ _ A) as (E1 & A1 & _). unfold bind at 1. rewrite E1.
  rewrite <- app_assoc in A1. cbn [app] in A1.
  destruct (IH Hok f _ _ A1) as (c & p2 & E2 & A2 & W2); [lia|cbn; set_solver|].
  unfold bind at 1. rewrite E2. unfold bind at 1. rewrite (peek_at p2 _ _ A2). change (peeks _ [41]) with true. cbn [negb].
  destruct (gettoken_at p2 _ _ A2) as (E3 & A3 & _). unfold bind at 1. rewrite E3. unfold parseredirs.
  destruct (redir_loop_at rs f _ rest A3) as (rs' & p4 & E4 & A4 & W4); [lia| |].
  { apply (follow_peeks _ _ _ Hfol). intros c' Hc. set_solver by lia. }
  unfold bind. rewrite E4. exists (wrap rs' c), p4. split_and!; [done|done|]. by rewrite W4, W2.
Qed.

Lemma parses_one e : parses_ex e -> parses_pipe (P1 e).
Proof.
  intros IH Hok f p rest A Hf Hfol. cbn [tk_pipe] in A, Hf. destruct f as [|f]; [lia|]. cbn [parsepipe].
  destruct (IH Hok f p rest A) as (c & p1 & E1 & A1 & W1); [lia|apply (follow_weaken _ _ _ Hfol); set_solver|].
  unfold bind at 1. rewrite E1. unfold bind at 1. rewrite (peek_at p1 _ _ A1).
  rewrite (follow_peeks _ _ _ Hfol) by (intros c' Hc; set_solver by lia). by exists c, p1.
Qed.

Lemma parses_bar e x : parses_ex e -> parses_pipe x -> parses_pipe (PBar e x).
Proof.
  intros IHe IHx (Hoke & Hokx) f p rest A Hf Hfol. cbn [tk_pipe] in A, Hf. rewrite length_app in Hf. cbn [length] in Hf.
  rewrite <- app_assoc in A. cbn [app] in A. destruct f as [|f]; [lia|]. cbn [parsepipe].
  destruct (IHe Hoke f p _ A) as (c & p1 & E1 & A1 & W1); [lia|cbn; set_solver|].
  unfold bind at 1. rewrite E1. unfold bind at 1. rewrite (peek_at p1 _ _ A1). change (peeks _ [124]) with true. cbv iota.
  destruct (gettoken_at p1 _ _ A1) as (E2 & A2 & _). unfold bind at 1. rewrite E2.
  destruct (IHx Hokx f _ rest A2) as (r & p3 & E3 & A3 & W3); [lia|done|]. unfold bind. rewrite E3.
  eexists _, p3. split_and!; [reflexivity|done|]. cbn [words pipecmd den_pipe]. by rewrite W1, W3.
Qed.

Lemma parses_back x n : parses_pipe x -> parses_line (L1 x n).
Proof.
  intros IH Hok f p rest A Hf Hfol. cbn [tk_line] in A, Hf. rewrite length_app, length_replicate in Hf.
  rewrite <- app_assoc in A. destruct f as [|f]; [lia|]. cbn [parseline].
  destruct (IH Hok f p _ A) as (c & p1 & E1 & A1 & W1).
  { lia. } { apply replicate_follow; [|set_solver]. apply (follow_weaken _ _ _ Hfol). set_solver. }
  unfold bind at 1. rewrite E1.
  destruct (back_loop_at n f p1 rest c A1) as (c2 & p2 & E2 & A2 & W2); [lia| |].
  { apply (follow_peeks _ _ _ Hfol). intros c' Hc. set_solver by lia. }
  unfold bind at 1. rewrite E2. unfold bind at 1. rewrite (peek_at p2 _ _ A2).
  rewrite (follow_peeks _ _ _ Hfol) by (intros c' Hc; set_solver by lia). exists c2, p2. split_and!; [done|done|].
  rewrite W2, W1. done.
Qed.

Lemma parses_seq x n l : parses_pipe x -> parses_line l -> parses_line (LSeq x n l).
Proof.
  intros IHx IHl (Hokx & Hokl) f p rest A Hf Hfol. cbn [tk_line] in A, Hf.
  rewrite !length_app, length_replicate in Hf. cbn [length] in Hf.
  rewrite <- !app_assoc in A. cbn [app] in A. destruct f as [|f]; [lia|]. cbn [parseline].
  destruct (IHx Hokx f p _ A) as (c & p1 & E1 & A1 & W1).
  { lia. } { apply replicate_follow; cbn; set_solver. }
  unfold bind at 1. rewrite E1.
  destruct (back_loop_at n f p1 _ c A1) as (c2 & p2 & E2 & A2 & W2); [lia|done|].
  unfold bind at 1. rewrite E2. unfold bind at 1. rewrite (peek_at p2 _ _ A2). change (peeks _ [59]) with true. cbv iota.
  destruct (gettoken_at p2 _ _ A2) as (E3 & A3 & _). unfold bind at 1. rewrite E3.
  destruct (IHl Hokl f _ rest A3) as (r & p4 & E4 & A4 & W4); [lia|done|]. unfold bind. rewrite E4.
  eexists _, p4. split_and!; [reflexivity|done|]. cbn [words listcmd den_line]. by rewrite W2, W1, W4.
Qed.

Lemma parse_at l : parses_line l.
Proof.
  revert l. apply (grammar_ind parses_ex parses_pipe parses_line);
    auto using parses_exec, parses_block, parses_one, parses_bar, parses_back, parses_seq.
Qed.
End read.

Lemma tokens_ok :
  (forall e, ok_ex e -> Forall token_ok (tk_ex e)) /\ (forall x, ok_pipe x -> Forall token_ok (tk_pipe x)) /\
  (forall l, ok_line l -> Forall token_ok (tk_line l)).
Proof.
  assert (forall rs, Forall rdir_ok rs -> Forall token_ok (tk_rdirs rs)) as Hr.
  { induction 1 as [|r rs H _ IH]; [constructor|]. change (tk_rdirs (r :: rs)) with (tk_rdir r ++ tk_rdirs rs).
    apply Forall_app. split; [|done]. destruct r; repeat constructor; try apply H; unfold symbols; set_solver. }
  assert (forall c, c ∈ symbols -> forall n, Forall token_ok (replicate n (TSym c))) as Hrep.
  { intros c Hc n. induction n; constructor; done. }
  assert (40 ∈ symbols /\ 41 ∈ symbols /\ 124 ∈ symbols /\ 38 ∈ symbols /\ 59 ∈ symbols) as (? & ? & ? & ? & ?)
    by (unfold symbols; set_solver).
  apply grammar_ind.
  - intros args rs (Hw & _ & Hrs). cbn. apply Forall_app. split; [by apply Forall_fmap|auto].
  - intros l IH rs (Hl & Hrs). cbn. constructor; [done|]. apply Forall_app. split; [auto|]. constructor; auto.
  - intros e IH He. auto.
  - intros e IHe x IHx (He & Hx). cbn. apply Forall_app. split; [auto|]. constructor; auto.
  - intros x IH n Hx. cbn. apply Forall_app. auto.
  - intros x IHx n l IHl (Hx & Hl). cbn. apply Forall_app. split; [auto|]. apply Forall_app. split; [auto|]. constructor; auto.
Qed.

Lemma text_length ts : (length ts <= length (text ts))%nat.
Proof. induction ts as [|t ts IH]; [done|]. change (text (t :: ts)) with ((tokstr t ++ [32]) ++ text ts).
  rewrite !length_app. cbn [length]. lia. Qed.

(** C25: parsing inverts printing: for every command of the shell's grammar
    (redirections in any number, blocks, pipelines, background and sequences;
    at most nine arguments per command), [parsecmd] reads its text to the end
    and returns the command, with the same strings. *)
Theorem parsecmd_print l (buf := text (tk_line l)) :
  ok_line l -> exists c, parsecmd buf 0%nat = Ret c (length buf) /\ words buf c = den_line l.
Proof.
  intros Hl. assert (at_tok buf 0 (tk_line l ++ [])) as A.
  { rewrite app_nil_r. split_and!; [by rewrite drop_0|lia|by apply tokens_ok]. }
  pose proof (text_length (tk_line l)) as Hlen. fold buf in Hlen.
  destruct (parse_at buf l Hl (parse_fuel buf) 0%nat [] A) as (c & p' & E & A' & W); [unfold parse_fuel, es; lia|done|].
  exists c. split; [|done]. destruct (at_char buf p' [] A') as (Ep & _). unfold es in Ep.
  unfold parsecmd. unfold bind at 1. rewrite E. unfold bind at 1. rewrite (peek_at buf p' _ _ A').
  unfold bind, gets, es. rewrite <- Ep, Nat.eqb_refl. done.
Qed.

(** The text of "(cat < in | wc > out &) ; echo done". *)
Lemma parsecmd_print_witness :
  let l := LSeq (P1 (EBlock (L1 (PBar (EExec [[99; 97; 116]] [RIn [105; 110]]) (P1 (EExec [[119; 99]] [ROut [111; 117; 116]]))) 1) []))
             0 (L1 (P1 (EExec [[101; 99; 104; 111]; [100; 111; 110; 101]] [])) 0) in
  exists c, parsecmd (text (tk_line l)) 0%nat = Ret c (length (text (tk_line l))) /\ words (text (tk_line l)) c = den_line l.
Proof.
  intros l. apply (parsecmd_print l).
  assert (forall c, 97 <= c <= 122 -> wordc c) as Hw.
  { intros c Hc. split_and!; [lia| |]; intros Hin; unfold whitespace, symbols in Hin;
      repeat (apply elem_of_cons in Hin as [?|Hin]; [lia|]); by apply elem_of_nil in Hin. }
  unfold l. cbn [ok_line ok_pipe ok_ex].
  repeat match goal with
  | |- _ /\ _ => split
  | |- Forall _ _ => constructor
  | |- rdir_ok _ => cbn [rdir_ok]
  | |- word_ok _ => split
  | |- wordc _ => apply Hw; lia
  | |- _ <> _ => discriminate
  | |- (_ < _)%nat => unfold MAXARGS; cbn; lia
  end.
Defined.
