(* ===== verification/ShRun.v ===== *)
(** Running commands: [runcmd], [fork1], [panic], [getcmd] and the main loop of
    sh.c.

    A user program is the tree of system calls it makes, each with what it
    does for every result; [runcmd] never returns, so its tree has no other end
    than [exit].  A small model of the file descriptors a process holds then
    shows how [runcmd] connects a pipeline. *)

From S2P Require Import Prelude Params CString Sh.

(** ** Programs *)

Inductive sys : Type :=
| SClose (fd : Z)
| SOpen (path : nat) (mode : Z)
| SExec (path : nat) (argv : list nat)
| SFork
| SWait
| SDup (fd : Z)
| SChdir (path : list Z)
| SPrintf (fd : Z) (fmt : string) (arg : option nat).   (* the string at an offset of the line *)

Inductive prog : Type :=
| Do (c : sys) (k : Z -> prog)
| DoPipe (k : Z -> Z -> Z -> prog)   (* the result, p[0] and p[1] *)
| Exit.

Notation "'call' c 'as' r 'then' k" := (Do c (fun r => k)) (at level 200, r name, c at level 99, k at level 200).
Notation "'call' c 'then' k" := (Do c (fun _ => k)) (at level 200, c at level 99, k at level 200).

Module Run.

(** sh.c [panic], [fork1] *)
Definition panic (msg : string) : prog := call SPrintf 2 msg None then Exit.
Definition fork1 (k : Z -> prog) : prog :=
  call SFork as pid then if pid =? -1 then panic "fork" else k pid.

(** sh.c [runcmd] *)
Fixpoint runcmd (c : cmd) : prog :=
  match c with
  | EXEC [] => Exit
  | EXEC (((q, _) :: _) as argv) =>
      call SExec q argv.*1 then
      call SPrintf 2 "exec %s failed" (Some q) then
      Exit
  | REDIR c file _ mode fd =>
      call SClose fd then
      call SOpen file mode as r then
      if r <? 0 then (call SPrintf 2 "open %s failed" (Some file) then Exit) else runcmd c
  | LIST l r =>
      fork1 (fun pid => if pid =? 0 then runcmd l else call SWait then runcmd r)
  | PIPE l r =>
      DoPipe (fun res p0 p1 =>
      if res <? 0 then panic "pipe" else
      fork1 (fun pid =>
      if pid =? 0 then
        call SClose 1 then call SDup p1 then call SClose p0 then call SClose p1 then runcmd l
      else
      fork1 (fun pid =>
      if pid =? 0 then
        call SClose 0 then call SDup p0 then call SClose p0 then call SClose p1 then runcmd r
      else
        call SClose p0 then call SClose p1 then call SWait then call SWait then Exit)))
  | BACK c =>
      fork1 (fun pid => if pid =? 0 then runcmd c else Exit)
  end.

(** sh.c [getcmd]: the line read, or [None] at the end of the input. *)
Definition getcmd (nbuf : Z) (input : list (option Z)) : option (list Z) :=
  let b := Ulib.gets nbuf input in
  if at_list b 0 =? 0 then None else Some b.

(** One round of the loop of sh.c [main] on the line [buf] (with its newline):
    [cd] runs in the shell itself, anything else in a child. *)
Definition main_round (buf : list Z) (next : prog) : prog :=
  if (at_list buf 0 =? 99) && (at_list buf 1 =? 100) && (at_list buf 2 =? 32) then
    call SChdir (drop 3 (removelast buf)) as r then
    if r <? 0 then (call SPrintf 2 "cannot cd %s" (Some 3%nat) then next) else next
  else
    fork1 (fun pid =>
    if pid =? 0 then
      match parsecmd buf 0%nat with
      | Ret c _ => runcmd c
      | Panic msg _ => panic msg
      | _ => Exit
      end
    else call SWait then next).
End Run.

(** ** File descriptors *)

(** What a descriptor refers to. *)
Inductive obj : Type :=
| Std (n : Z)
| PipeR (id : nat)
| PipeW (id : nat)
| File (path : nat) (mode : Z).

Definition fds : Type := list (option obj).

Fixpoint lowest (t : fds) (i : nat) : nat :=
  match t with
  | Some _ :: t' => lowest t' (S i)
  | _ => i
  end.
Definition alloc_fd (o : option obj) (t : fds) : fds := <[lowest t 0 := o]> t.

(** The programs executed, each with the descriptors it starts with, when every
    system call succeeds; a fork lists the child's first.  [n] is the number of
    pipes made so far. *)
Fixpoint execs (p : prog) (t : fds) (n : nat) : list (list nat * fds) * nat :=
  match p with
  | Exit => ([], n)
  | DoPipe k =>
      let p0 := lowest t 0 in
      let t := alloc_fd (Some (PipeR n)) t in
      let p1 := lowest t 0 in
      let t := alloc_fd (Some (PipeW n)) t in
      execs (k 0 (Z.of_nat p0) (Z.of_nat p1)) t (S n)
  | Do c k =>
      match c with
      | SExec _ argv => ([(argv, t)], n)
      | SFork =>
          let '(l1, n1) := execs (k 0) t n in
          let '(l2, n2) := execs (k 1) t n1 in
          (l1 ++ l2, n2)
      | SClose fd => execs (k 0) (<[Z.to_nat fd := None]> t) n
      | SDup fd => execs (k (Z.of_nat (lowest t 0))) (alloc_fd (t !!! Z.to_nat fd) t) n
      | SOpen path mode => execs (k (Z.of_nat (lowest t 0))) (alloc_fd (Some (File path mode)) t) n
      | SWait | SChdir _ | SPrintf _ _ _ => execs (k 0) t n
      end
  end.

(** The command [a1 | a2 | ... | am]. *)
Fixpoint pipeline (a : list (nat * nat)) (rest : list (list (nat * nat))) : cmd :=
  match rest with
  | [] => EXEC a
  | b :: rest' => PIPE (EXEC a) (pipeline b rest')
  end.

(** The shell's descriptors: input [i], output [o] and errors, the rest free. *)
Definition std_fds (i o : obj) : fds := Some i :: Some o :: Some (Std 2) :: replicate 13 None.

(** How the commands of a pipeline are to be connected, from input [i] on and
    with pipes numbered from [n]. *)
Fixpoint connected (i : obj) (a : list (nat * nat)) (rest : list (list (nat * nat))) (n : nat) : list (list nat * fds) :=
  match rest with
  | [] => [(a.*1, std_fds i (Std 1))]
  | b :: rest' => (a.*1, std_fds i (PipeW n)) :: connected (PipeR n) b rest' (S n)
  end.

(** [runcmd] on a pipeline of any length starts each command with its
    input the read end of the pipe the previous one writes, its output the
    write end of its own pipe, the ends of the line on the shell's input and
    output, and no other pipe descriptor left open (so that a reader sees the
    end of its input when the writer exits). *)
Theorem runcmd_pipeline rest : forall a i n,
  Forall (fun a => a <> []) (a :: rest) ->
  execs (Run.runcmd (pipeline a rest)) (std_fds i (Std 1)) n = (connected i a rest n, (n + length rest)%nat).
Proof.
  induction rest as [|b rest IH]; intros a i n Hne; inversion Hne as [|? ? Ha Hr]; subst; cbn [pipeline connected].
  - destruct a as [|[q eq] a]; [done|]. cbn. by rewrite Nat.add_0_r.
  - destruct a as [|[q eq] a]; [done|]. cbn [Run.runcmd].
    cbn -[Run.runcmd pipeline connected length Nat.add].
    match goal with |- context [execs ?p ?t (S n)] =>
      change (execs p t (S n)) with (execs p (std_fds (PipeR n) (Std 1)) (S n)) end.
    rewrite IH by done. rewrite app_nil_r. f_equal. cbn [length]. lia.
Qed.

Lemma runcmd_pipeline_witness :
  execs (Run.runcmd (pipeline [(0, 2)]%nat [[(5, 7)]%nat])) (std_fds (Std 0) (Std 1)) 0 =
  ([([0]%nat, std_fds (Std 0) (PipeW 0)); ([5]%nat, std_fds (PipeR 0) (Std 1))], 1%nat).
Proof.
  apply (runcmd_pipeline [[(5, 7)]%nat] [(0, 2)]%nat (Std 0) 0). repeat constructor; discriminate.
Defined.
