(* ===== verification/Grep.v ===== *)
(** grep: grep.c.

    The matcher works on C strings, given by the bytes before the NUL; the
    input loop works on the program's 1024-byte buffer.  The matcher is proved
    equivalent to a definition of the patterns' language. *)

From S2P Require Import Prelude Params CString.

(** ** The matcher *)

(** grep.c [matchstar]; [mh] is [matchhere] of the rest of the pattern. *)
Definition matchstar (mh : list Z -> bool) (c : Z) : list Z -> bool :=
  fix loop (text : list Z) : bool :=
    if mh text then true
    else match text with
         | [] => false
         | t :: text' => if (t =? c) || (c =? 46) then loop text' else false
         end.

(** grep.c [matchhere]; 42 is '*', 36 is '$', 46 is '.'. *)
Fixpoint matchhere (re text : list Z) : bool :=
  match re with
  | [] => true
  | c :: re1 =>
      match re1 with
      | d :: re2 =>
          if d =? 42 then matchstar (matchhere re2) c text
          else match text with
               | [] => false
               | t :: text' => if (c =? 46) || (c =? t) then matchhere re1 text' else false
               end
      | [] =>
          if c =? 36 then match text with [] => true | _ => false end
          else match text with
               | [] => false
               | t :: text' => if (c =? 46) || (c =? t) then matchhere re1 text' else false
               end
      end
  end.

(** grep.c [match]; 94 is '^'. *)
Fixpoint match_anywhere (re text : list Z) : bool :=
  if matchhere re text then true
  else match text with
       | [] => false
       | _ :: text' => match_anywhere re text'
       end.
Definition match_ (re text : list Z) : bool :=
  match re with
  | c :: re1 => if c =? 94 then matchhere re1 text else match_anywhere re text
  | [] => match_anywhere re text
  end.

(** ** The input loop *)

Definition BUFSZ : nat := 1024.

(** [strchr(p, '\n')] in the buffer: the index of the newline, [None] at a NUL
    before one, and a fault when the buffer ends first. *)
Fixpoint find_nl (b : list Z) (i : nat) : M (list Z) (option nat) :=
  match b with
  | [] => fault "strchr past the buffer"
  | c :: b' => if c =? 10 then ret (Some i) else if c =? 0 then ret None else find_nl b' (S i)
  end.

(** The loop over the lines of the buffer from [p] on, which returns the last
    [p] and the buffer; the state is what has been written to the output.  The
    newline of a line becomes a NUL for [match], and is put back only if the
    line matches. *)
Fixpoint lines_loop (fuel : nat) (pattern buf : list Z) (p : nat) : M (list Z) (nat * list Z) :=
  match fuel with
  | O => fault "grep"
  | S f =>
      r <- find_nl (drop p buf) p ;;
      match r with
      | None => ret (p, buf)
      | Some q =>
          let line := take (q - p) (drop p buf) in
          if match_ pattern line
          then modify (fun out => out ++ line ++ [10]) ;; lines_loop f pattern buf (S q)
          else lines_loop f pattern (<[q := 0]> buf) (S q)
      end
  end.

(** grep.c [grep], on the results of the successive [read]s; a [read] to an
    address before the buffer is a fault. *)
Fixpoint grep (pattern : list Z) (buf : list Z) (m : Z) (reads : list (list Z)) : M (list Z) unit :=
  match reads with
  | [] => ret tt
  | chunk :: reads' =>
      if m <? 0 then fault "read before the buffer" else
      let chunk := take (BUFSZ - Z.to_nat m) chunk in
      let n := Z.of_nat (length chunk) in
      if n =? 0 then ret tt else
      let buf := splice (Z.to_nat m) chunk buf in
      let m := m + n in
      r <- lines_loop (S BUFSZ) pattern buf 0 ;;
      let (p, buf) := r in
      let m := if (p =? 0)%nat then 0 else m in
      if 0 <? m then
        let m := m - Z.of_nat p in
        grep pattern (splice 0 (take (Z.to_nat m) (drop p buf)) buf) m reads'
      else grep pattern buf m reads'
  end.

(** ** The language of a pattern *)

Inductive atom : Type := Lit (c : Z) | Any.
Inductive item : Type := One (a : atom) | Star (a : atom).

Definition atom_of (c : Z) : atom := if c =? 46 then Any else Lit c.

(** The items of a pattern, and whether it ends in '$'. *)
Fixpoint parse (re : list Z) : list item * bool :=
  match re with
  | [] => ([], false)
  | c :: re1 =>
      match re1 with
      | d :: re2 =>
          if d =? 42 then (Star (atom_of c) :: (parse re2).1, (parse re2).2)
          else (One (atom_of c) :: (parse re1).1, (parse re1).2)
      | [] => if c =? 36 then ([], true) else ([One (atom_of c)], false)
      end
  end.

Definition sat (a : atom) (c : Z) : Prop := match a with Any => True | Lit d => c = d end.

Fixpoint lang (l : list item) (w : list Z) : Prop :=
  match l with
  | [] => w = []
  | One a :: l' => exists c v, w = c :: v /\ sat a c /\ lang l' v
  | Star a :: l' => exists u v, w = u ++ v /\ Forall (sat a) u /\ lang l' v
  end.

(** [text] starts with a word of the pattern, and ends with it if anchored. *)
Definition here (re text : list Z) : Prop :=
  exists u v, text = u ++ v /\ lang (parse re).1 u /\ ((parse re).2 = true -> v = []).

Lemma sat_atom c t : sat (atom_of c) t <-> (c =? 46) || (c =? t) = true.
Proof.
  unfold atom_of. destruct (Z.eqb_spec c 46); cbn; [done|]. rewrite Z.eqb_eq. split; congruence.
Qed.

Lemma matchstar_spec mh (P : list Z -> Prop) c : (forall text, mh text = true <-> P text) ->
  forall text, matchstar mh c text = true <-> exists u v, text = u ++ v /\ Forall (sat (atom_of c)) u /\ P v.
Proof.
  intros Hm. induction text as [|t text IH]; cbn [matchstar].
  - destruct (mh []) eqn:E.
    + split; [|done]. intros _. exists [], []. split_and!; [done|constructor|by apply Hm].
    + split; [done|]. intros (u & v & Huv & _ & Hv). symmetry in Huv. apply app_eq_nil in Huv as [-> ->]. apply Hm in Hv. congruence.
  - destruct (mh (t :: text)) eqn:E.
    + split; [|done]. intros _. exists [], (t :: text). split_and!; [done|constructor|by apply Hm].
    + fold (matchstar mh c). assert (sat (atom_of c) t <-> (t =? c) || (c =? 46) = true) as Hs.
      { rewrite sat_atom, orb_comm, (Z.eqb_sym c t). done. }
      destruct ((t =? c) || (c =? 46)) eqn:Et.
      * rewrite IH. split.
        -- intros (u & v & -> & Hu & Hv). exists (t :: u), v. split_and!; [done| |done]. constructor; [by apply Hs|done].
        -- intros (u & v & Huv & Hu & Hv). destruct u as [|t' u]; cbn in Huv.
           ++ subst v. apply Hm in Hv. congruence.
           ++ simplify_eq. inversion Hu; subst. eauto.
      * split; [done|]. intros (u & v & Huv & Hu & Hv). destruct u as [|t' u]; cbn in Huv.
        -- subst v. apply Hm in Hv. congruence.
        -- simplify_eq. inversion Hu as [|? ? H1]; subst. apply Hs in H1. done.
Qed.

(** One step of [matchhere] on an ordinary character. *)
Lemma here_one c re text (P : list Z -> Prop) :
  (forall text, matchhere re text = true <-> P text) ->
  match text with
  | [] => false
  | t :: text' => if (c =? 46) || (c =? t) then matchhere re text' else false
  end = true <-> exists t text', text = t :: text' /\ sat (atom_of c) t /\ P text'.
Proof.
  intros Hm. destruct text as [|t text].
  - split; [done|]. by intros (? & ? & ? & _).
  - pose proof (sat_atom c t) as Hs. destruct ((c =? 46) || (c =? t)).
    + rewrite Hm. split; [intros; by exists t, text; split_and!; [|apply Hs|]|]. intros (? & ? & ? & ? & ?). by simplify_eq.
    + split; [done|]. intros (? & ? & ? & H & _). simplify_eq. by apply Hs in H.
Qed.

Lemma matchhere_spec : forall n re text, (length re <= n)%nat -> matchhere re text = true <-> here re text.
Proof.
  induction n as [|n IH]; intros re text Hn.
  { destruct re; [|cbn in Hn; lia]. split; [|done]. intros _. exists [], text. by split_and!. }
  destruct re as [|c re1].
  { split; [|done]. intros _. exists [], text. by split_and!. }
  cbn in Hn. destruct re1 as [|d re2].
  - cbn [matchhere]. unfold here. cbn [parse]. destruct (Z.eqb_spec c 36) as [->|Hc].
    + cbn [fst snd lang]. split.
      * destruct text; [|done]. intros _. by exists [], [].
      * intros (u & v & -> & -> & Hv). by rewrite Hv.
    + rewrite (here_one c [] text (fun _ => True)) by done. cbn [fst snd lang]. split.
      * intros (t & text' & -> & Hs & _). exists [t], text'. split_and!; [done|by exists t, []|done].
      * intros (u & v & -> & (t & w & -> & Hs & ->) & _). by exists t, v.
  - cbn [length] in Hn. cbn [matchhere]. fold (matchhere (d :: re2)). unfold here. cbn [parse]. fold (parse (d :: re2)).
    destruct (Z.eqb_spec d 42) as [->|Hd].
    + rewrite (matchstar_spec (matchhere re2) (here re2)) by (intros; apply IH; lia). cbn [fst snd lang]. split.
      * intros (u & v & -> & Hu & (u' & v' & -> & Hl & Hv)). exists (u ++ u'), v'. rewrite <- app_assoc.
        split_and!; [done|by exists u, u'|done].
      * intros (w & v & -> & (u & u' & -> & Hu & Hl) & Hv). exists u, (u' ++ v). rewrite <- app_assoc.
        split_and!; [done|done|]. by exists u', v.
    + rewrite (here_one c (d :: re2) text (here (d :: re2))) by (intros; apply IH; cbn; lia). cbn [fst snd lang]. split.
      * intros (t & text' & -> & Hs & (u & v & -> & Hl & Hv)). exists (t :: u), v. split_and!; [done|by exists t, u|done].
      * intros (w & v & -> & (t & u & -> & Hs & Hl) & Hv). exists t, (u ++ v). split_and!; [done|done|]. by exists u, v.
Qed.

Lemma match_anywhere_spec re text : match_anywhere re text = true <-> exists pre rest, text = pre ++ rest /\ here re rest.
Proof.
  induction text as [|t text IH]; cbn [match_anywhere].
  - destruct (matchhere re []) eqn:E.
    + split; [|done]. intros _. exists [], []. split; [done|]. by apply (matchhere_spec (length re)).
    + split; [done|]. intros (pre & rest & Hp & Hh). symmetry in Hp. apply app_eq_nil in Hp as [-> ->].
      apply (matchhere_spec (length re)) in Hh; [congruence|lia].
  - destruct (matchhere re (t :: text)) eqn:E.
    + split; [|done]. intros _. exists [], (t :: text). split; [done|]. by apply (matchhere_spec (length re)).
    + rewrite IH. split.
      * intros (pre & rest & -> & Hh). by exists (t :: pre), rest.
      * intros (pre & rest & Hp & Hh). destruct pre as [|t' pre]; cbn in Hp.
        -- subst rest. apply (matchhere_spec (length re)) in Hh; [congruence|lia].
        -- simplify_eq. by exists pre, rest.
Qed.

(** C27: the matcher accepts exactly the texts that contain a word of the
    pattern's language: somewhere, or at the start if the pattern begins with
    '^', and at the end if it ends with '$'.  ('.' stands for any character,
    'c*' for any number of c.) *)
Theorem match_language re text :
  match_ re text = true <->
  match re with
  | 94 :: re1 => exists u v, text = u ++ v /\ lang (parse re1).1 u /\ ((parse re1).2 = true -> v = [])
  | _ => exists pre u v, text = pre ++ u ++ v /\ lang (parse re).1 u /\ ((parse re).2 = true -> v = [])
  end.
Proof.
  assert (match_anywhere re text = true <->
    exists pre u v, text = pre ++ u ++ v /\ lang (parse re).1 u /\ ((parse re).2 = true -> v = [])) as Ha.
  { rewrite match_anywhere_spec. split.
    - intros (pre & rest & -> & u & v & -> & H). by exists pre, u, v.
    - intros (pre & u & v & -> & H). exists pre, (u ++ v). split; [done|]. by exists u, v. }
  unfold match_. destruct re as [|c re1]; [done|]. destruct (Z.eqb_spec c 94) as [->|Hne].
  - apply (matchhere_spec (length re1)). lia.
  - rewrite Ha. destruct c as [|c|c]; try done. do 7 (destruct c as [c|c|]; try done).
Qed.

(** A zeroed buffer. *)
Definition buf0 : list Z := replicate BUFSZ 0.

(** ** The lines that are printed *)

(** A byte of a line's text. *)
Definition in_line (c : Z) : bool := negb (c =? 10) && negb (c =? 0).
(** Lines as they are in a file. *)
Definition text_of (lines : list (list Z)) : list Z := concat ((fun l => l ++ [10]) <$> lines).

Lemma text_of_cons l lines : text_of (l :: lines) = l ++ 10 :: text_of lines.
Proof. unfold text_of. rewrite fmap_cons. cbn [concat]. by rewrite <- app_assoc. Qed.

Lemma find_nl_line l : forall r i s, forallb in_line l = true -> find_nl (l ++ 10 :: r) i s = Ret (Some (i + length l)%nat) s.
Proof.
  induction l as [|c l IH]; intros r i s Hl; cbn [app find_nl length]; [by rewrite Nat.add_0_r|].
  cbn in Hl. apply andb_true_iff in Hl as [Hc Hl]. unfold in_line in Hc. destruct (c =? 10), (c =? 0); try done. rewrite IH by done.
  do 2 f_equal. lia.
Qed.

Lemma find_nl_end l : forall r i s, forallb in_line l = true -> find_nl (l ++ 0 :: r) i s = Ret None s.
Proof.
  induction l as [|c l IH]; intros r i s Hl; cbn [app find_nl]; [done|].
  cbn in Hl. apply andb_true_iff in Hl as [Hc Hl]. unfold in_line in Hc. destruct (c =? 10), (c =? 0); try done. by apply IH.
Qed.

(** The loop over a buffer that holds [lines] and an unfinished line from [p] on. *)
Lemma lines_loop_prints pattern tail z : forallb in_line tail = true -> forall lines fuel pre out,
  Forall (fun l => forallb in_line l = true) lines -> (length lines < fuel)%nat ->
  exists p buf, lines_loop fuel pattern (pre ++ text_of lines ++ tail ++ 0 :: z) (length pre) out =
    Ret (p, buf) (out ++ text_of (filter (fun l => match_ pattern l = true) lines)).
Proof.
  intros Ht. induction lines as [|l lines IH]; intros fuel pre out Hl Hf; (destruct fuel as [|f]; [cbn in Hf; lia|]); cbn [lines_loop].
  { unfold bind. cbn [text_of fmap list_fmap concat app filter list_filter]. rewrite drop_app_length, find_nl_end by done.
    rewrite app_nil_r. eauto. }
  apply Forall_cons in Hl as [Hl Hls]. cbn [length] in Hf. rewrite text_of_cons, <- app_assoc. cbn [app]. unfold bind at 1. rewrite drop_app_length, find_nl_line by done.
  cbv beta iota zeta. replace (length pre + length l - length pre)%nat with (length l) by lia. rewrite take_app_length, filter_cons.
  set (r := text_of lines ++ tail ++ 0 :: z) in *. set (out1 := filter _ lines) in *.
  assert (forall c, pre ++ l ++ c :: r = (pre ++ l ++ [c]) ++ r) as Ea by (intros c; by rewrite <- !app_assoc).
  assert (forall c, S (length pre + length l) = length (pre ++ l ++ [c])) as El by (intros c; rewrite !length_app; cbn; lia).
  destruct (match_ pattern l) eqn:Em.
  - unfold bind, modify. rewrite Ea, (El 10). destruct (IH f (pre ++ l ++ [10]) (out ++ l ++ [10]) Hls ltac:(lia)) as (p & buf & ->).
    exists p, buf. rewrite decide_True by done. rewrite text_of_cons. by rewrite <- !app_assoc.
  - rewrite decide_False by done. replace (<[_ := 0]> _) with (pre ++ l ++ 0 :: r); [rewrite Ea, (El 0); by apply IH; [|lia]|].
    rewrite insert_app_r_alt by lia. f_equal. replace (length pre + length l - length pre)%nat with (length l + 0)%nat by lia.
    by rewrite insert_app_r.
Qed.

(** C40: [grep] on a file that one [read] delivers.  Started with its buffer
    zeroed, it prints the lines of the file that the pattern matches, in their
    order, each once and as they are, and nothing else; what follows the last
    newline is not printed. *)
Theorem grep_prints pattern lines tail out :
  Forall (fun l => forallb in_line l = true) lines -> forallb in_line tail = true ->
  (length (text_of lines ++ tail) < BUFSZ)%nat ->
  grep pattern buf0 0 [text_of lines ++ tail] out =
  Ret tt (out ++ text_of (filter (fun l => match_ pattern l = true) lines)).
Proof.
  intros Hl Ht Hlen. cbn [grep]. change (0 <? 0) with false. change (Z.to_nat 0) with 0%nat. rewrite Nat.sub_0_r, take_ge by lia.
  destruct (Z.eqb_spec (Z.of_nat (length (text_of lines ++ tail))) 0) as [E|E].
  { destruct lines as [|l lines]; [by rewrite app_nil_r|]. rewrite text_of_cons, !length_app in E. cbn in E. lia. }
  assert (length lines <= length (text_of lines))%nat as Hn.
  { clear. induction lines as [|l lines IH]; [done|]. rewrite text_of_cons, length_app. cbn. lia. }
  assert (exists z, splice 0 (text_of lines ++ tail) buf0 = text_of lines ++ tail ++ 0 :: z) as [z ->].
  { exists (replicate (BUFSZ - length (text_of lines ++ tail) - 1) 0). unfold splice, buf0. rewrite take_0. cbn [app Nat.add].
    rewrite drop_replicate, <- app_assoc. do 2 f_equal.
    by replace (BUFSZ - length (text_of lines ++ tail))%nat with (S (BUFSZ - length (text_of lines ++ tail) - 1)) at 1 by lia. }
  rewrite length_app in Hlen.
  destruct (lines_loop_prints pattern tail z Ht lines (S BUFSZ) [] out Hl ltac:(lia)) as (p & buf & Hloop).
  cbn [app length] in Hloop. unfold bind. rewrite Hloop. destruct (0 <? _); done.
Qed.

(** ** Examples *)
Module GrepW.

(** The lines "ab", "c" and "b" and the bytes "b" after them, with the pattern "b". *)
Lemma grep_prints_witness : grep [98] buf0 0 [text_of [[97; 98]; [99]; [98]] ++ [98]] [] = Ret tt [97; 98; 10; 98; 10].
Proof. rewrite (grep_prints [98] [[97; 98]; [99]; [98]] [98] []); [reflexivity|by repeat constructor|done|cbn; unfold BUFSZ; lia]. Defined.

(** [grep] does not terminate its buffer after a [read], so bytes left from
    earlier reads are taken for input: with the pattern "." and the input
    "x\ny\nz" read as "x\ny\n" and "z", it prints the line "y" twice, and the
    next [read] is given an address before the buffer. *)
Example grep_stale :
  grep [46] buf0 0 [[120; 10; 121; 10]; [122]] [] = Ret tt [120; 10; 121; 10; 122; 10; 121; 10] /\
  grep [46] buf0 0 [[120; 10; 121; 10]; [122]; [119]] [] =
    Fault "read before the buffer" [120; 10; 121; 10; 122; 10; 121; 10].
Proof. split; vm_compute; reflexivity. Qed.
End GrepW.
