(* ===== verification/Printf.v ===== *)
(** Formatted output: printf.c of the user library, and [printint] and
    [cprintf] of console.c.

    Both printers are given over the function that prints one character
    ([putc] on a descriptor, or [consputc]), so that the same definitions run
    on any output.  A format string is the list of its bytes before the NUL;
    [args] are the words that follow the format on the stack, and [cstr] gives
    the bytes of the string at an address.  The 16-byte buffer of [printint]
    is modelled: a store past its end is a fault. *)

From S2P Require Import Prelude Params CString.

(** ** The digits of a number *)

(** "0123456789ABCDEF" in printf.c and "0123456789abcdef" in console.c *)
Definition udigits : list Z := [48;49;50;51;52;53;54;55;56;57;65;66;67;68;69;70].
Definition kdigits : list Z := [48;49;50;51;52;53;54;55;56;57;97;98;99;100;101;102].
Definition PRINTBUF : nat := 16.

Section printers.
Context {S : Type} (put : Z -> M S unit).

(** [buf[i++] = c], [i] being the number of characters in the buffer. *)
Definition buf_add (c : Z) (buf : list Z) : M S (list Z) :=
  if (PRINTBUF <=? length buf)%nat then fault "printint: past the buffer" else ret (buf ++ [c]).

(** [do { buf[i++] = digits[x % base]; } while((x /= base) != 0)] *)
Fixpoint convert (fuel : nat) (digits : list Z) (x base : Z) (buf : list Z) : M S (list Z) :=
  match fuel with
  | O => fault "printint: digits"
  | Datatypes.S f =>
      buf <- buf_add (digits !!! Z.to_nat (x mod base)) buf ;;
      let x := x / base in
      if x =? 0 then ret buf else convert f digits x base buf
  end.

(** [while(--i >= 0) putc(buf[i])] *)
Definition put_back (buf : list Z) : M S unit := for_each (rev buf) put.

(** printf.c [printint].  The buffer faults before the fuel of [convert] runs
    out. *)
Definition printint (xx base : Z) (sgn : bool) : M S unit :=
  let neg := sgn && (xx <? 0) in
  let x := if neg then u32 (- xx) else u32 xx in
  buf <- convert (1 + PRINTBUF) udigits x base [] ;;
  buf <- (if neg then buf_add 45 buf else ret buf) ;;
  put_back buf.

(** console.c [printint] *)
Definition cons_printint (xx base : Z) (sign : bool) : M S unit :=
  let sign := sign && (xx <? 0) in
  let x := if sign then u32 (- xx) else u32 xx in
  buf <- convert (1 + PRINTBUF) kdigits x base [] ;;
  buf <- (if sign then buf_add 45 buf else ret buf) ;;
  put_back buf.

Context (cstr : Z -> list Z).

(** "(null)" *)
Definition null_str : list Z := [40;110;117;108;108;41].

(** [*ap], [ap++] *)
Definition with_arg {A} (args : list Z) (k : Z -> list Z -> M S A) : M S A :=
  match args with
  | [] => fault "printf: no argument"
  | a :: args' => k a args'
  end.

(** printf.c [printf]: the loop over the format.  [state] is true after a '%';
    100 is 'd', 120 'x', 112 'p', 115 's', 99 'c' and 37 '%'. *)
Fixpoint printf_loop (fmt : list Z) (state : bool) (args : list Z) : M S unit :=
  match fmt with
  | [] => ret tt
  | c :: fmt' =>
      if negb state then
        if c =? 37 then printf_loop fmt' true args
        else put c ;; printf_loop fmt' false args
      else if c =? 100 then
        with_arg args (fun a args' => printint (s32 a) 10 true ;; printf_loop fmt' false args')
      else if (c =? 120) || (c =? 112) then
        with_arg args (fun a args' => printint (s32 a) 16 false ;; printf_loop fmt' false args')
      else if c =? 115 then
        with_arg args (fun a args' =>
          for_each (if a =? 0 then null_str else cstr a) put ;; printf_loop fmt' false args')
      else if c =? 99 then
        with_arg args (fun a args' => put (u8 a) ;; printf_loop fmt' false args')
      else if c =? 37 then put c ;; printf_loop fmt' false args
      else put 37 ;; put c ;; printf_loop fmt' false args
  end.
Definition printf (fmt args : list Z) : M S unit := printf_loop fmt false args.

(** console.c [cprintf]: the loop over the format. *)
Fixpoint cprintf_loop (fmt : list Z) (args : list Z) : M S unit :=
  match fmt with
  | [] => ret tt
  | c :: fmt' =>
      if negb (c =? 37) then put c ;; cprintf_loop fmt' args
      else
        match fmt' with
        | [] => ret tt
        | c :: fmt' =>
            if c =? 100 then
              with_arg args (fun a args' => cons_printint (s32 a) 10 true ;; cprintf_loop fmt' args')
            else if (c =? 120) || (c =? 112) then
              with_arg args (fun a args' => cons_printint (s32 a) 16 false ;; cprintf_loop fmt' args')
            else if c =? 115 then
              with_arg args (fun a args' =>
                for_each (if a =? 0 then null_str else cstr a) put ;; cprintf_loop fmt' args')
            else if c =? 37 then put 37 ;; cprintf_loop fmt' args
            else put 37 ;; put c ;; cprintf_loop fmt' args
        end
  end.
End printers.

(** ** What [printint] prints *)

(** The digits of [x], least significant first. *)
Fixpoint digits_of (fuel : nat) (base x : Z) : list Z :=
  match fuel with
  | O => []
  | S f => (x mod base) :: (if x / base =? 0 then [] else digits_of f base (x / base))
  end.

(** The value of a list of digits, least significant first. *)
Fixpoint value_of (base : Z) (ds : list Z) : Z :=
  match ds with [] => 0 | d :: ds' => d + base * value_of base ds' end.

Lemma digits_of_range fuel base : forall x, 1 < base -> Forall (fun d => 0 <= d < base) (digits_of fuel base x).
Proof.
  induction fuel as [|f IH]; intros x Hb; cbn [digits_of]; [constructor|].
  constructor; [apply Z.mod_pos_bound; lia|]. destruct (x / base =? 0); [constructor|by apply IH].
Qed.

Lemma digits_of_value base : forall fuel x, 1 < base -> 0 <= x < base ^ Z.of_nat fuel ->
  value_of base (digits_of fuel base x) = x.
Proof.
  induction fuel as [|f IH]; intros x Hb Hx; cbn [digits_of value_of].
  { change (base ^ Z.of_nat 0) with 1 in Hx. lia. }
  pose proof (Z.div_mod x base). destruct (Z.eqb_spec (x / base) 0) as [E|E]; cbn [value_of]; [lia|].
  rewrite IH; [lia|done|]. split; [apply Z.div_pos; lia|].
  apply Z.div_lt_upper_bound; [lia|]. rewrite <- Z.pow_succ_r, <- Nat2Z.inj_succ by lia. lia.
Qed.

Lemma digits_of_length base : forall fuel k x, 1 < base -> (0 < k)%nat -> 0 <= x < base ^ Z.of_nat k ->
  (length (digits_of fuel base x) <= k)%nat.
Proof.
  induction fuel as [|f IH]; intros k x Hb Hk Hx; cbn [digits_of length]; [lia|].
  destruct (Z.eqb_spec (x / base) 0) as [E|E]; cbn [length]; [lia|].
  destruct k as [|[|k]]; [lia| |].
  - rewrite Z.pow_1_r in Hx. by rewrite Z.div_small in E.
  - apply le_n_S, IH; [done|lia|]. split; [apply Z.div_pos; lia|].
    apply Z.div_lt_upper_bound; [lia|]. rewrite <- Z.pow_succ_r, <- Nat2Z.inj_succ by lia. lia.
Qed.

(** The loop of [printint] leaves the digits in the buffer, if they fit. *)
Lemma convert_digits {S} base (digits : list Z) (s : S) : 1 < base -> forall fuel x buf,
  0 <= x < base ^ Z.of_nat fuel -> (0 < fuel)%nat ->
  (length buf + length (digits_of fuel base x) <= PRINTBUF)%nat ->
  convert fuel digits x base buf s
    = Ret (buf ++ ((fun d => digits !!! Z.to_nat d) <$> digits_of fuel base x)) s.
Proof.
  intros Hb. induction fuel as [|f IH]; intros x buf Hx Hf Hl; [lia|].
  cbn [convert digits_of fmap list_fmap]. cbn [digits_of length] in Hl. unfold buf_add.
  replace (PRINTBUF <=? length buf)%nat with false by (symmetry; apply Nat.leb_gt; lia).
  unfold bind. cbn [ret]. unfold ret. destruct (Z.eqb_spec (x / base) 0) as [E|E]; [done|].
  rewrite IH.
  - by rewrite <- app_assoc.
  - split; [apply Z.div_pos; lia|]. apply Z.div_lt_upper_bound; [lia|].
    rewrite <- Z.pow_succ_r, <- Nat2Z.inj_succ by lia. lia.
  - destruct f; [|lia]. cbn [digits_of length Z.of_nat] in *. exfalso. apply E, Z.div_small.
    change (Z.of_nat 1) with 1 in Hx. rewrite Z.pow_1_r in Hx. done.
  - rewrite length_app. cbn [length]. lia.
Qed.

Lemma s32_mul_add a b c : s32 (s32 a * b + c) = s32 (a * b + c).
Proof.
  rewrite <- (s32_u32 (s32 a * b + c)), <- (s32_u32 (a * b + c)). f_equal. unfold u32.
  rewrite <- (Z.add_mod_idemp_l (s32 a * b)), <- (Z.mul_mod_idemp_l (s32 a)) by lia.
  change (s32 a mod 2 ^ 32) with (u32 (s32 a)). rewrite u32_s32. unfold u32.
  by rewrite Z.mul_mod_idemp_l, Z.add_mod_idemp_l by lia.
Qed.

(** [atoi] reads the digits back, at the width of an [int]. *)
Lemma atoi_digits ds : Forall (fun d => 0 <= d < 10) ds ->
  Ulib.atoi_loop (rev ((fun d => 48 + d) <$> ds)) 0 = s32 (value_of 10 ds).
Proof.
  assert (forall l n d, 0 <= d < 10 -> Forall (fun c => 48 <= c <= 57) l ->
            Ulib.atoi_loop (l ++ [48 + d]) n = s32 (Ulib.atoi_loop l n * 10 + d)) as Happ.
  { induction l as [|c l IH]; intros n d Hd Hl; cbn [Ulib.atoi_loop app].
    - rewrite (proj2 (Z.leb_le 48 (48 + d))), (proj2 (Z.leb_le (48 + d) 57)) by lia. cbn. f_equal. lia.
    - apply Forall_cons in Hl as [Hc Hl].
      rewrite (proj2 (Z.leb_le 48 c)), (proj2 (Z.leb_le c 57)) by lia. cbn [andb]. by apply IH. }
  induction ds as [|d ds IH]; intros Hf; [done|]. apply Forall_cons in Hf as [Hd Hf].
  rewrite fmap_cons. cbn [rev]. rewrite Happ; [|done|].
  - rewrite IH by done. cbn [value_of]. rewrite s32_mul_add. f_equal. lia.
  - apply Forall_rev, Forall_fmap. eapply Forall_impl; [exact Hf|]. cbn. lia.
Qed.

(** The decimal text of an [int]: an optional '-' and the digits. *)
Definition decimal (xx : Z) : list Z :=
  (if xx <? 0 then [45] else []) ++
  rev ((fun d => 48 + d) <$> digits_of (1 + PRINTBUF) 10 (u32 (Z.abs xx))).

Lemma digit_char (digits ds : list Z) : (forall d, 0 <= d < 10 -> digits !!! Z.to_nat d = 48 + d) ->
  Forall (fun d => 0 <= d < 10) ds ->
  (fun d => digits !!! Z.to_nat d) <$> ds = (fun d : Z => 48 + d) <$> ds.
Proof. intros Hd Hf. apply Forall_fmap_ext. eapply Forall_impl; [exact Hf|]. cbn. intros d ?. by apply Hd. Qed.

Lemma kdigit_char d : 0 <= d < 10 -> kdigits !!! Z.to_nat d = 48 + d.
Proof.
  intros Hd. replace (48 + d) with (48 + Z.of_nat (Z.to_nat d)) by lia. assert (Z.to_nat d < 10)%nat as H by lia.
  clear Hd. revert H. generalize (Z.to_nat d). intros n Hn. do 10 (destruct n as [|n]; [done|]). lia.
Qed.

Lemma udigit_char d : 0 <= d < 10 -> udigits !!! Z.to_nat d = 48 + d.
Proof.
  intros Hd. rewrite <- (kdigit_char d Hd). assert (Z.to_nat d < 10)%nat as H by lia.
  clear Hd. revert H. generalize (Z.to_nat d). intros n Hn. do 10 (destruct n as [|n]; [done|]). lia.
Qed.

(** What both versions of [printint] do in base 10: they print [decimal xx],
    without running past the buffer. *)
Lemma print_decimal {S} (put : Z -> M S unit) (digits : list Z) xx (s : S) : - 2 ^ 31 <= xx < 2 ^ 31 ->
  (forall d, 0 <= d < 10 -> digits !!! Z.to_nat d = 48 + d) ->
  (buf <- convert (1 + PRINTBUF) digits (if xx <? 0 then u32 (- xx) else u32 xx) 10 [] ;;
   buf <- (if xx <? 0 then buf_add 45 buf else ret buf) ;; put_back put buf) s
  = for_each (decimal xx) put s.
Proof.
  intros Hx Hd. unfold decimal.
  assert ((if xx <? 0 then u32 (- xx) else u32 xx) = u32 (Z.abs xx)) as ->.
  { destruct (Z.ltb_spec xx 0); f_equal; lia. }
  assert (0 <= u32 (Z.abs xx) < 10 ^ 10) as Hr.
  { rewrite u32_small by lia. lia. }
  pose proof (digits_of_length 10 (1 + PRINTBUF) 10 (u32 (Z.abs xx)) ltac:(lia) ltac:(lia) Hr) as Hl.
  unfold bind at 1. rewrite convert_digits; [|lia| |unfold PRINTBUF; lia|unfold PRINTBUF in *; cbn [length]; lia].
  2:{ unfold PRINTBUF. lia. }
  rewrite digit_char; [|done|by apply digits_of_range]. set (ds := digits_of _ _ _) in *. cbn [app].
  destruct (xx <? 0); unfold bind, buf_add, put_back; [|done].
  rewrite length_fmap. replace (PRINTBUF <=? length ds)%nat with false by (symmetry; apply Nat.leb_gt; unfold PRINTBUF; lia).
  cbn [ret]. unfold ret. by rewrite rev_app_distr.
Qed.

(** Both print the same digits in base 10. *)
Lemma printint_decimal {S} (put : Z -> M S unit) xx s : - 2 ^ 31 <= xx < 2 ^ 31 ->
  printint put xx 10 true s = for_each (decimal xx) put s.
Proof. intros Hx. apply (print_decimal put udigits); [done|apply udigit_char]. Qed.

Lemma cons_printint_decimal {S} (put : Z -> M S unit) xx s : - 2 ^ 31 <= xx < 2 ^ 31 ->
  cons_printint put xx 10 true s = for_each (decimal xx) put s.
Proof. intros Hx. apply (print_decimal put kdigits); [done|apply kdigit_char]. Qed.

Lemma decimal_digits x : 0 <= x < 2 ^ 32 ->
  Ulib.atoi (rev ((fun d => 48 + d) <$> digits_of (1 + PRINTBUF) 10 x)) = s32 x.
Proof.
  intros Hx. unfold Ulib.atoi. rewrite atoi_digits by (apply digits_of_range; lia).
  rewrite digits_of_value; [done|lia|]. unfold PRINTBUF. lia.
Qed.

(** Printing an [int] with [%d] never overruns the 16-byte buffer of
    [printint], and [atoi] reads back what it printed: the number itself if it
    is not negative; otherwise the text is a '-' and the digits of the
    magnitude (for the least [int], whose magnitude is not an [int], up to the
    wrap-around of [atoi]).  The user's and the kernel's [printint] agree. *)
Theorem printint_atoi {S} (put : Z -> M S unit) (xx : Z) (s : S) :
  - 2 ^ 31 <= xx < 2 ^ 31 ->
  exists text,
    printint put xx 10 true s = for_each text put s /\
    cons_printint put xx 10 true s = for_each text put s /\
    (0 <= xx -> Ulib.atoi text = xx) /\
    (xx < 0 -> exists ds, text = 45 :: ds /\ u32 (Ulib.atoi ds) = - xx).
Proof.
  intros Hx. exists (decimal xx). split_and!.
  - by apply printint_decimal.
  - by apply cons_printint_decimal.
  - intros H0. unfold decimal. rewrite (proj2 (Z.ltb_ge xx 0)), Z.abs_eq, u32_small by lia. cbn [app].
    rewrite decimal_digits by lia. apply s32_small. lia.
  - intros H0. eexists. unfold decimal. rewrite (proj2 (Z.ltb_lt xx 0)) by done. split; [done|].
    rewrite (u32_small (Z.abs xx)), decimal_digits, u32_s32 by lia. rewrite u32_small; lia.
Qed.

(** ** The two printers print the same text *)

(** The conversions the two printers treat alike. *)
Fixpoint plain_format (fmt : list Z) (state : bool) : bool :=
  match fmt with
  | [] => true
  | c :: fmt' =>
      if negb state then plain_format fmt' (c =? 37)
      else negb ((c =? 120) || (c =? 112) || (c =? 99)) && plain_format fmt' false
  end.

Lemma bind_ext {S A B} (m : M S A) (k k' : A -> M S B) s :
  (forall a s', k a s' = k' a s') -> bind m k s = bind m k' s.
Proof. intros H. unfold bind. destruct (m s); [apply H|done..]. Qed.

Lemma bind_ext2 {S A B} (m m' : M S A) (k k' : A -> M S B) s :
  m s = m' s -> (forall a s', k a s' = k' a s') -> bind m k s = bind m' k' s.
Proof. intros Hm H. unfold bind. rewrite Hm. destruct (m' s); [apply H|done..]. Qed.

Lemma printf_cprintf_loop {S} (put : Z -> M S unit) cstr : forall n fmt args s,
  (length fmt <= n)%nat -> plain_format fmt false = true ->
  printf_loop put cstr fmt false args s = cprintf_loop put cstr fmt args s.
Proof.
  induction n as [|n IH]; intros [|c fmt] args s Hn Hp; cbn [length] in Hn; try done; [lia|].
  cbn [printf_loop cprintf_loop negb]. cbn [plain_format negb] in Hp.
  destruct (Z.eqb_spec c 37) as [->|Hc]; cbn [negb].
  2:{ apply bind_ext. intros _ s'. apply IH; [lia|done]. }
  destruct fmt as [|c fmt]; [done|]. cbn [length] in Hn. cbn [printf_loop negb]. cbn [plain_format negb] in Hp.
  apply andb_true_iff in Hp as [Hc Hp]. apply negb_true_iff in Hc. apply orb_false_iff in Hc as [Hc1 Hc2].
  rewrite Hc1, Hc2. destruct (c =? 100).
  { destruct args as [|a args]; [done|]. cbn [with_arg]. apply bind_ext2; [|intros _ s'; apply IH; [lia|done]].
    pose proof (s32_range a). by rewrite printint_decimal, cons_printint_decimal. }
  destruct (c =? 115).
  { destruct args as [|a args]; [done|]. cbn [with_arg]. apply bind_ext. intros _ s'. apply IH; [lia|done]. }
  destruct (Z.eqb_spec c 37) as [->|]; repeat (apply bind_ext; intros _ ?); (apply IH; [lia|done]).
Qed.

(** On a format without [%x], [%p] and [%c] (the first two differ in the
    case of the digits, the third is unknown to the kernel), the user's
    [printf] and the kernel's [cprintf] print the same characters, take the
    same arguments and fail alike, whatever prints a character; this includes
    [%d] of every word, [%s] of a null pointer, unknown conversions and a lone
    ['%'] at the end. *)
Theorem printf_cprintf {S} (put : Z -> M S unit) (cstr : Z -> list Z) (fmt args : list Z) (s : S) :
  plain_format fmt false = true ->
  printf put cstr fmt args s = cprintf_loop put cstr fmt args s.
Proof. by apply (printf_cprintf_loop put cstr (length fmt)). Qed.

(** ** Examples *)

(** The output as a list of characters. *)
Definition emit (c : Z) : M (list Z) unit := modify (fun out => out ++ [c]).

Lemma printint_atoi_witness :
  printint emit (-2147483648) 10 true [] = Ret tt [45;50;49;52;55;52;56;51;54;52;56] /\
  exists text, printint emit (-2147483648) 10 true [] = for_each text emit [] /\
    cons_printint emit (-2147483648) 10 true [] = for_each text emit [] /\
    (0 <= -2147483648 -> Ulib.atoi text = -2147483648) /\
    (-2147483648 < 0 -> exists ds, text = 45 :: ds /\ u32 (Ulib.atoi ds) = - (-2147483648)).
Proof. split; [by vm_compute|]. apply (printint_atoi emit (-2147483648) []). lia. Defined.

(** "%d %s%z%" with the arguments -7 and a null pointer prints "-7 (null)%z". *)
Lemma printf_cprintf_witness :
  printf emit (fun _ => []) [37;100;32;37;115;37;122;37] [4294967289; 0] []
    = Ret tt [45;55;32;40;110;117;108;108;41;37;122] /\
  printf emit (fun _ => []) [37;100;32;37;115;37;122;37] [4294967289; 0] []
    = cprintf_loop emit (fun _ => []) [37;100;32;37;115;37;122;37] [4294967289; 0] [].
Proof. split; [by vm_compute|]. apply printf_cprintf. by vm_compute. Defined.
