(* ===== verification/Console.v ===== *)
(** The console: console.c, uart.c and proc.c [procdump].

    Output goes to the screen, an array of cells with the cursor position the
    video hardware keeps, and to the serial port.  Input is edited in a ring
    buffer with three counters: [r..w] are the bytes a reader may take and
    [w..e] the line being edited.  A call of [consoleintr] is given what its
    argument [getc] returns, call after call. *)

From Stdlib Require Import Ascii.
From S2P Require Import Prelude Params Ring CString Spinlock Mmu Kalloc Vm BlockDev Bio Log Fs Dir Kernel Proc Pipe Printf.

(** The bytes of a string literal. *)
Fixpoint bytes (s : string) : list Z :=
  match s with
  | EmptyString => []
  | String c s' => Z.of_nat (nat_of_ascii c) :: bytes s'
  end.

(** ** Output *)

Definition set_cons_lock (x : bool) (c : console) : console :=
  mkconsole x (locking c) (panicked c) (crt c) (cursor c) (uart c) (uart_out c) (inp c).
Definition set_locking (x : bool) (c : console) : console :=
  mkconsole (cons_lock c) x (panicked c) (crt c) (cursor c) (uart c) (uart_out c) (inp c).
Definition set_panicked (x : bool) (c : console) : console :=
  mkconsole (cons_lock c) (locking c) x (crt c) (cursor c) (uart c) (uart_out c) (inp c).
Definition set_crt (x : list Z) (c : console) : console :=
  mkconsole (cons_lock c) (locking c) (panicked c) x (cursor c) (uart c) (uart_out c) (inp c).
Definition set_cursor (x : Z) (c : console) : console :=
  mkconsole (cons_lock c) (locking c) (panicked c) (crt c) x (uart c) (uart_out c) (inp c).
Definition set_uart_out (x : list Z) (c : console) : console :=
  mkconsole (cons_lock c) (locking c) (panicked c) (crt c) (cursor c) (uart c) x (inp c).
Definition set_inp (x : input) (c : console) : console :=
  mkconsole (cons_lock c) (locking c) (panicked c) (crt c) (cursor c) (uart c) (uart_out c) x.

(** uart.c [uartputc].  The wait for the transmitter is bounded by 128 polls
    and the byte is sent in any case. *)
Definition uartputc (c : Z) : M console unit :=
  modify (fun s => if uart s then set_uart_out (uart_out s ++ [u8 c]) s else s).

Definition BACKSPACE : Z := 256.

(** [crt[i] = v] *)
Definition crt_set (i v : Z) : M console unit :=
  l <- gets crt ;;
  if (0 <=? i) && (i <? Z.of_nat (length l)) then modify (set_crt (<[Z.to_nat i := v]> l)) else fault "crt".

(** The scroll in console.c [cgaputc]: rows 1 to 23 move up by one, and the
    cells from the new position to the end of row 23 are cleared. *)
Definition scroll (pos : Z) : M console Z :=
  modify (fun s => set_crt (splice 0 (slice 80 (23 * 80) (crt s)) (crt s)) s) ;;
  let pos := pos - 80 in
  if 24 * 80 <? pos then fault "crt" else
  modify (fun s => set_crt (splice (Z.to_nat pos) (replicate (Z.to_nat (24 * 80 - pos)) 0) (crt s)) s) ;;
  ret pos.

(** console.c [cgaputc].  The two halves of the cursor position go through the
    video ports, a byte each. *)
Definition cgaputc (c : Z) : M console unit :=
  pos <- gets cursor ;;
  pos <- (if c =? 10 then ret (pos + (80 - pos mod 80))
          else if c =? BACKSPACE then ret (if 0 <? pos then pos - 1 else pos)
          else crt_set pos (Z.lor (Z.land c 255) 1792) ;; ret (pos + 1)) ;;
  pos <- (if 24 <=? pos / 80 then scroll pos else ret pos) ;;
  modify (set_cursor (u16 pos)) ;;
  crt_set pos (Z.lor 32 1792).

(** console.c [consputc].  After a panic of another CPU the caller spins for
    ever with interrupts off. *)
Definition consputc (c : Z) : M console unit :=
  p <- gets panicked ;;
  if p then panic "frozen" else
  (if c =? BACKSPACE then uartputc 8 ;; uartputc 32 ;; uartputc 8 else uartputc c) ;;
  cgaputc c.

Definition liftc {A} (m : M console A) : M kx A := zoom con set_con m.

Definition acquire_cons : M kx unit :=
  acquire (fun s => cons_lock (con s)) (fun b s => set_con (set_cons_lock b (con s)) s).
Definition release_cons : M kx unit :=
  release (fun s => cons_lock (con s)) (fun b s => set_con (set_cons_lock b (con s)) s).

Definition kputc (c : Z) : M kx unit := liftc (consputc c).

(** console.c [cprintf] *)
Definition cprintf (cstr : Z -> list Z) (fmt : list Z) (args : list Z) : M kx unit :=
  l <- gets (fun s => locking (con s)) ;;
  when l acquire_cons ;;
  cprintf_loop kputc cstr fmt args ;;
  when l release_cons.

(** console.c [panic] on CPU [id], with the return addresses [pcs] that
    [getcallerpcs] found; the message is used as a format.  The loop at the end
    is the result [Panic]. *)
Definition kpanic {A} (id : Z) (pcs : list Z) (msg : string) : M kx A :=
  liftc (modify (set_locking false)) ;;
  cprintf (fun _ => []) (bytes "cpu%d: panic: ") [id] ;;
  cprintf (fun _ => []) (bytes msg) [] ;;
  cprintf (fun _ => []) [10] [] ;;
  for_each pcs (fun pc => cprintf (fun _ => []) (bytes " %p") [pc]) ;;
  liftc (modify (set_panicked true)) ;;
  panic msg.

(** proc.c [procdump].  The addresses 1 and 2 stand for the two strings of a
    line, the process's state and its name. *)
Definition state_name (x : procstate) : list Z :=
  match x with
  | UNUSED => bytes "unused"
  | EMBRYO => bytes "embryo"
  | SLEEPING => bytes "sleep "
  | RUNNABLE => bytes "runble"
  | RUNNING => bytes "run   "
  | ZOMBIE => bytes "zombie"
  end.
Fixpoint until_nul (l : list Z) : list Z :=
  match l with [] => [] | c :: l' => if c =? 0 then [] else c :: until_nul l' end.
Definition CTX_EBP : Z := 12.
Definition procdump1 (i : nat) : M kx unit :=
  p <- get_proc i ;;
  if is_state UNUSED p then ret tt else
  cprintf (fun a => if a =? 1 then state_name (p_state p) else until_nul (p_name p))
    (bytes "%d %s %s") [u32 (p_pid p); 1; 2] ;;
  (if is_state SLEEPING p then
     m <- gets (fun s => pm (km s)) ;;
     let pc := getcallerpcs (u32 (ld_long (p_context p + CTX_EBP) m + 8)) m in
     for_each (until_nul pc) (fun a => cprintf (fun _ => []) (bytes " %p") [a])
   else ret tt) ;;
  cprintf (fun _ => []) [10] [].
Definition procdump : M kx unit := for_each (seq 0 NPROC) procdump1.

(** ** Input *)

Definition acquire_input : M kx unit :=
  acquire (fun s => in_lock (inp (con s)))
    (fun b s => set_con (set_inp (mkinput b (in_buf (inp (con s))) (in_r (inp (con s))) (in_w (inp (con s))) (in_e (inp (con s)))) (con s)) s).
Definition release_input : M kx unit :=
  release (fun s => in_lock (inp (con s)))
    (fun b s => set_con (set_inp (mkinput b (in_buf (inp (con s))) (in_r (inp (con s))) (in_w (inp (con s))) (in_e (inp (con s)))) (con s)) s).

Definition get_input : M kx input := gets (fun s => inp (con s)).
Definition put_input (i : input) : M kx unit := modify (fun s => set_con (set_inp i (con s)) s).

(** [input.e--] *)
Definition unedit (i : input) : input := mkinput (in_lock i) (in_buf i) (in_r i) (in_w i) (u32 (in_e i - 1)).

(** The loop of control-U; the line being edited has at most [INPUT_BUF]
    bytes. *)
Fixpoint kill_line (fuel : nat) : M kx unit :=
  i <- get_input ;;
  if negb (in_e i =? in_w i) &&
     negb (in_buf i !!! Z.to_nat (u32 (in_e i - 1) mod INPUT_BUF) =? 10) then
    match fuel with
    | O => fault "consoleintr: kill line"
    | S f => put_input (unedit i) ;; kputc BACKSPACE ;; kill_line f
    end
  else ret tt.

(** One round of the loop of console.c [consoleintr]. *)
Definition consoleintr1 (c : Z) : M kx unit :=
  if c =? 16 then procdump
  else if c =? 21 then kill_line (Z.to_nat INPUT_BUF)
  else if (c =? 8) || (c =? 127) then
    i <- get_input ;;
    if negb (in_e i =? in_w i) then put_input (unedit i) ;; kputc BACKSPACE else ret tt
  else
    i <- get_input ;;
    if negb (c =? 0) && (u32 (in_e i - in_r i) <? INPUT_BUF) then
      let c := if c =? 13 then 10 else c in
      put_input (mkinput (in_lock i) (<[Z.to_nat (in_e i mod INPUT_BUF) := u8 c]> (in_buf i))
                   (in_r i) (in_w i) (u32 (in_e i + 1))) ;;
      kputc c ;;
      i <- get_input ;;
      if (c =? 10) || (c =? 4) || (in_e i =? u32 (in_r i + INPUT_BUF)) then
        put_input (mkinput (in_lock i) (in_buf i) (in_r i) (in_e i) (in_e i)) ;;
        wakeup ChInput
      else ret tt
    else ret tt.

(** console.c [consoleintr]; [cs] are the results of [getc] before the first
    negative one. *)
Definition consoleintr (cs : list Z) : M kx unit :=
  acquire_input ;; for_each cs consoleintr1 ;; release_input.

(** console.c [consoleread], from the test of its loop on, with [n] bytes still
    to be read out of [target].  Every round reads a byte, so [n] rounds are
    enough.  It returns the bytes, and the value of the call. *)
Fixpoint consoleread_loop (n : nat) (target : Z) : M kx (Z * list Z) :=
  match n with
  | O => release_input ;; ret (target, [])
  | S n' =>
      i <- get_input ;;
      if in_r i =? in_w i then
        k <- killed ;;
        if k then release_input ;; ret (-1, [])
        else sleep ChInput (Some release_input)
      else
        let c := in_buf i !!! Z.to_nat (in_r i mod INPUT_BUF) in
        if c =? 4 then
          put_input (mkinput (in_lock i) (in_buf i)
                       (if Z.of_nat n <? target then u32 (u32 (in_r i + 1) - 1) else u32 (in_r i + 1)) (in_w i) (in_e i)) ;;
          release_input ;; ret (target - Z.of_nat n, [])
        else
          put_input (mkinput (in_lock i) (in_buf i) (u32 (in_r i + 1)) (in_w i) (in_e i)) ;;
          if c =? 10 then release_input ;; ret (target - Z.of_nat n', [c])
          else
            r <- consoleread_loop n' target ;;
            ret (r.1, c :: r.2)
  end.
(** The first segment; for a negative [n] the loop ends at once with 0. *)
Definition consoleread_start (n : Z) : M kx (Z * list Z) :=
  acquire_input ;; consoleread_loop (Z.to_nat n) (Z.max 0 n).
(** After a wakeup, with [n] bytes left. *)
Definition consoleread_resume (n : nat) (target : Z) : M kx (Z * list Z) :=
  sleep_end (Some acquire_input) ;; consoleread_loop n target.

Section devices.
Context `{BlockDev}.
Abbreviation FS := (M (fsst kx)).

(** console.c [consoleread] *)
Definition consoleread (ip : nat) (n : Z) : FS (Z * list Z) :=
  iunlock ip ;;
  r <- liftk (consoleread_start n) ;;
  ilock ip ;;
  ret r.

(** console.c [consolewrite] *)
Definition consolewrite (ip : nat) (src : list Z) (n : Z) : FS Z :=
  iunlock ip ;;
  liftk (acquire_cons ;; for_each (take (Z.to_nat n) src) kputc ;; release_cons) ;;
  ilock ip ;;
  ret n.

(** console.c [consoleinit]: the entry of [devsw], and the console's locks;
    the keyboard's interrupt is enabled at the interrupt controllers. *)
Definition consoleinit (devsw : Z -> devops (E := kx)) : M kx (Z -> devops (E := kx)) :=
  liftc (modify (set_cons_lock false)) ;;
  i <- get_input ;;
  put_input (mkinput false (in_buf i) (in_r i) (in_w i) (in_e i)) ;;
  liftc (modify (set_locking true)) ;;
  ret (fun k => if k =? CONSOLE then mkdevops (Some consoleread) (Some consolewrite) else devsw k).
End devices.
