(* ===== verification/ConsoleSpec.v ===== *)
(** The console's screen and its line editing: what [cgaputc] shows, and the
    refinement of the input ring by a pair of byte lists, the bytes ready for
    a reader and the line being edited. *)

From S2P Require Import Prelude Params Ring CString Spinlock Mmu Kalloc Vm BlockDev Bio Log Fs Dir Kernel Proc Pipe Printf Console.

(** ** The screen *)

(** The video memory, and a cursor on one of the 24 rows in use. *)
Record screen_ok (c : console) : Prop := {
  so_len : length (crt c) = (80 * 25)%nat;
  so_cur : 0 <= cursor c < 24 * 80
}.

Definition glyph (c : Z) : Z := Z.lor (Z.land c 255) 1792.
Definition blank : Z := Z.lor 32 1792.
Definition prints (c : Z) : bool := negb (c =? 10) && negb (c =? BACKSPACE).

(** Where the cursor goes, before the screen scrolls. *)
Definition advance (c pos : Z) : Z :=
  if c =? 10 then pos + (80 - pos mod 80)
  else if c =? BACKSPACE then (if 0 <? pos then pos - 1 else pos)
  else pos + 1.

(** The cells with the character stored. *)
Definition written (c pos : Z) (l : list Z) : list Z :=
  if prints c then <[Z.to_nat pos := glyph c]> l else l.

Lemma advance_range c pos : 0 <= pos < 24 * 80 -> 0 <= advance c pos <= 24 * 80.
Proof.
  intros Hp. unfold advance. destruct (c =? 10).
  - pose proof (Z.mod_pos_bound pos 80). pose proof (Z.div_mod pos 80). assert (pos / 80 < 24) by (apply Z.div_lt_upper_bound; lia). lia.
  - destruct (c =? BACKSPACE); [destruct (Z.ltb_spec 0 pos); lia|lia].
Qed.

Lemma crt_set_ret i v s : 0 <= i < Z.of_nat (length (crt s)) ->
  crt_set i v s = Ret tt (set_crt (<[Z.to_nat i := v]> (crt s)) s).
Proof.
  intros Hi. unfold crt_set, bind, gets. rewrite (proj2 (Z.leb_le 0 i)), (proj2 (Z.ltb_lt i _)) by lia. done.
Qed.

(** The screen after a character: the new cursor position and the cells. *)
Definition scrolled (l : list Z) : list Z :=
  splice 1840 (replicate 80 0) (splice 0 (slice 80 (23 * 80) l) l).
Definition shown (c : Z) (s : console) : console :=
  let pos := advance c (cursor s) in
  let l := written c (cursor s) (crt s) in
  if 24 * 80 <=? pos
  then set_crt (<[1840%nat := blank]> (scrolled l)) (set_cursor 1840 s)
  else set_crt (<[Z.to_nat pos := blank]> l) (set_cursor pos s).

Lemma written_length c pos l : length (written c pos l) = length l.
Proof. unfold written. destruct (prints c); [apply length_insert|done]. Qed.

Lemma scrolled_length l : length l = (80 * 25)%nat -> length (scrolled l) = (80 * 25)%nat.
Proof.
  intros Hl. unfold scrolled. rewrite !length_splice; [done|..]; rewrite ?length_splice;
    unfold slice; rewrite ?length_replicate, ?length_take, ?length_drop; lia.
Qed.

Lemma scroll_ret s : scroll 1920 s = Ret 1840 (set_crt (scrolled (crt s)) s).
Proof. unfold scroll, bind, modify. change (24 * 80 <? 1920 - 80) with false. by destruct s. Qed.

Lemma cgaputc_shown c s : screen_ok s -> cgaputc c s = Ret tt (shown c s).
Proof.
  intros [Hl Hc]. pose proof (advance_range c _ Hc) as Ha. unfold cgaputc, bind at 1, gets at 1.
  assert ((if c =? 10 then ret (cursor s + (80 - cursor s mod 80))
           else if c =? BACKSPACE then ret (if 0 <? cursor s then cursor s - 1 else cursor s)
           else crt_set (cursor s) (glyph c) ;; ret (cursor s + 1)) s
          = Ret (advance c (cursor s)) (set_crt (written c (cursor s) (crt s)) s)) as Hfirst.
  { unfold advance, written, prints. destruct (c =? 10) eqn:E1; cbn [negb andb]; [by destruct s|].
    destruct (c =? BACKSPACE) eqn:E2; cbn [negb]; [by destruct s|]. unfold bind. rewrite crt_set_ret by lia. done. }
  unfold bind at 1. fold (glyph c). rewrite Hfirst. unfold shown.
  set (pos := advance c (cursor s)) in *. pose proof (written_length c (cursor s) (crt s)) as Hwl. set (l := written _ _ _) in *.
  rewrite Hl in Hwl. destruct (Z.leb_spec (24 * 80) pos) as [Hs|Hs].
  - replace pos with 1920 in * by lia. change (24 <=? 1920 / 80) with true.
    unfold bind at 1. rewrite scroll_ret. unfold bind, modify. change (u16 1840) with 1840.
    rewrite crt_set_ret; cbn [crt set_crt set_cursor]; [done|]. rewrite scrolled_length; [lia|done].
  - rewrite (proj2 (Z.leb_gt 24 (pos / 80))) by (apply Z.div_lt_upper_bound; lia).
    unfold bind, ret, modify. rewrite crt_set_ret; cbn [crt set_crt set_cursor]; [|lia]. unfold u16.
    by rewrite Z.mod_small by lia.
Qed.

Lemma shown_ok c s : screen_ok s -> screen_ok (shown c s).
Proof.
  intros [Hl Hc]. pose proof (advance_range c _ Hc) as Ha. unfold shown.
  destruct (Z.leb_spec (24 * 80) (advance c (cursor s))); split; cbn [crt cursor set_crt set_cursor]; try lia.
  - rewrite length_insert. apply scrolled_length. by rewrite written_length.
  - by rewrite length_insert, written_length.
Qed.

(** What the scroll leaves: every row moves up, and row 23 is cleared. *)
Lemma scrolled_lookup l i : length l = (80 * 25)%nat -> (i < 1920)%nat ->
  scrolled l !! i = if decide (i < 1840)%nat then l !! (80 + i)%nat else Some 0.
Proof.
  intros Hl Hi. unfold scrolled. assert (length (slice 80 (23 * 80) l) = 1840%nat) as Hs.
  { unfold slice. rewrite length_take, length_drop. lia. }
  destruct (decide (i < 1840)%nat) as [H|H].
  - rewrite lookup_splice_out by (rewrite ?length_replicate, ?length_splice; lia).
    rewrite lookup_splice_in by lia. rewrite Nat.sub_0_r, lookup_slice, decide_True by lia. done.
  - rewrite lookup_splice_in by (rewrite ?length_replicate, ?length_splice; lia).
    apply lookup_replicate_2. lia.
Qed.

(** Printing a character on a screen whose cursor is on rows 0 to 23
    stays inside the video memory, keeps the cursor on those rows, and shows
    the character: the cell at the old cursor position holds it, a blank is
    under the new one, and no other cell changes; when the cursor would leave
    row 23, every row moves up by one and row 23 is cleared. *)
Theorem cgaputc_screen (c : Z) (s : console) : screen_ok s ->
  exists s', cgaputc c s = Ret tt s' /\ screen_ok s' /\
    crt s' !! Z.to_nat (cursor s') = Some blank /\
    (advance c (cursor s) < 24 * 80 ->
       cursor s' = advance c (cursor s) /\
       forall i, (i < 1920)%nat -> i <> Z.to_nat (cursor s') ->
         crt s' !! i = if decide (prints c = true /\ i = Z.to_nat (cursor s)) then Some (glyph c) else crt s !! i) /\
    (24 * 80 <= advance c (cursor s) ->
       cursor s' = 23 * 80 /\
       (forall i, (i < 1840)%nat ->
         crt s' !! i = if decide (prints c = true /\ (80 + i)%nat = Z.to_nat (cursor s)) then Some (glyph c)
                       else crt s !! (80 + i)%nat) /\
       (forall i, (1840 < i < 1920)%nat -> crt s' !! i = Some 0)).
Proof.
  intros Hok. exists (shown c s). split; [by apply cgaputc_shown|]. split; [by apply shown_ok|].
  pose proof (shown_ok c s Hok) as [Hl' Hc']. destruct Hok as [Hl Hc]. pose proof (advance_range c _ Hc) as Ha.
  assert (forall i, (i < 80 * 25)%nat -> written c (cursor s) (crt s) !! i
            = if decide (prints c = true /\ i = Z.to_nat (cursor s)) then Some (glyph c) else crt s !! i) as Hw.
  { intros i Hi. unfold written. destruct (prints c); [|by rewrite decide_False by naive_solver].
    destruct (decide (i = Z.to_nat (cursor s))) as [->|Hne].
    - rewrite decide_True by done. apply list_lookup_insert_eq. lia.
    - rewrite decide_False by naive_solver. by apply list_lookup_insert_ne. }
  unfold shown in *. destruct (Z.leb_spec (24 * 80) (advance c (cursor s))) as [Hs|Hs]; cbn [crt cursor set_crt set_cursor] in *.
  - split_and!; [apply list_lookup_insert_eq; rewrite length_insert in Hl'; lia|lia|]. intros _. split_and!; [done| |].
    + intros i Hi. rewrite list_lookup_insert_ne by lia. rewrite scrolled_lookup by (rewrite ?written_length; lia).
      rewrite decide_True by done. apply Hw. lia.
    + intros i Hi. rewrite list_lookup_insert_ne by lia. rewrite scrolled_lookup by (rewrite ?written_length; lia).
      by rewrite decide_False by lia.
  - split_and!; [apply list_lookup_insert_eq; rewrite length_insert in Hl'; lia| |lia]. intros _. split; [done|].
    intros i Hi Hne. rewrite list_lookup_insert_ne by done. apply Hw. lia.
Qed.

(** Printing 'A' in the last cell of row 23 scrolls. *)
Definition last_cell : console := set_cursor 1919 zero_console.
Lemma cgaputc_screen_witness :
  exists s', cgaputc 65 last_cell = Ret tt s' /\ screen_ok s' /\
    crt s' !! Z.to_nat (cursor s') = Some blank /\
    (advance 65 (cursor last_cell) < 24 * 80 ->
       cursor s' = advance 65 (cursor last_cell) /\
       forall i, (i < 1920)%nat -> i <> Z.to_nat (cursor s') ->
         crt s' !! i = if decide (prints 65 = true /\ i = Z.to_nat (cursor last_cell)) then Some (glyph 65) else crt last_cell !! i) /\
    (24 * 80 <= advance 65 (cursor last_cell) ->
       cursor s' = 23 * 80 /\
       (forall i, (i < 1840)%nat ->
         crt s' !! i = if decide (prints 65 = true /\ (80 + i)%nat = Z.to_nat (cursor last_cell)) then Some (glyph 65)
                       else crt last_cell !! (80 + i)%nat) /\
       (forall i, (1840 < i < 1920)%nat -> crt s' !! i = Some 0)).
Proof. apply (cgaputc_screen 65 last_cell). split; [by vm_compute|]. cbn. lia. Defined.

(** What [consputc] does when no CPU has panicked. *)
Definition echo (c : Z) (s : console) : console :=
  shown c (if uart s then set_uart_out (uart_out s ++ (if c =? BACKSPACE then [8; 32; 8] else [u8 c])) s else s).

Lemma uart_ret c s :
  (if c =? BACKSPACE then uartputc 8 ;; uartputc 32 ;; uartputc 8 else uartputc c) s =
  Ret tt (if uart s then set_uart_out (uart_out s ++ (if c =? BACKSPACE then [8; 32; 8] else [u8 c])) s else s).
Proof.
  destruct s as [cl lk pa cr cu ua uo ip]. destruct (c =? BACKSPACE), ua; try done.
  unfold bind, uartputc, modify, set_uart_out. cbn [uart uart_out locking cons_lock panicked crt cursor inp].
  by rewrite <- !app_assoc.
Qed.

Lemma consputc_echo c s : screen_ok s -> panicked s = false -> consputc c s = Ret tt (echo c s).
Proof.
  intros [Hl Hc] Hp. unfold consputc, bind at 1, gets. rewrite Hp. unfold bind at 1. rewrite uart_ret.
  apply cgaputc_shown. by destruct (uart s).
Qed.

Lemma echo_ok c s : screen_ok s -> screen_ok (echo c s).
Proof. intros [Hl Hc]. apply shown_ok. destruct (uart s); by split. Qed.

Lemma echo_frame c s : inp (echo c s) = inp s /\ panicked (echo c s) = panicked s /\
  cons_lock (echo c s) = cons_lock s /\ locking (echo c s) = locking s.
Proof. unfold echo, shown. by destruct (uart s), (_ <=? _). Qed.
