(* ===== verification/ConsoleIn.v ===== *)
(** Console input: the ring buffer of console.c refines two byte lists, the
    bytes ready for a reader and the line being edited. *)

From S2P Require Import Prelude Params Ring CString Spinlock Mmu Kalloc Vm BlockDev Bio Log Fs Dir Kernel Proc Pipe PipeSpec Printf Console ConsoleSpec.

#[export] Instance input_ring_size : RingSize INPUT_BUF.
Proof. split; [done|]. by exists 33554432. Qed.

(** ** Output leaves everything but the screen and the serial port alone *)

(** The console can print. *)
Definition can_print (s : kx) : Prop := screen_ok (con s) /\ panicked (con s) = false.

(** The console after the output of [l], on the screen and on the serial port. *)
Definition shows (l : list Z) (k : console) : console := foldl (fun k c => echo c k) k l.

Lemma shows_cons c l k : shows (c :: l) k = shows l (echo c k).
Proof. done. Qed.
Lemma shows_app l l' k : shows (l ++ l') k = shows l' (shows l k).
Proof. apply foldl_app. Qed.

Lemma shows_frame l : forall k, inp (shows l k) = inp k /\ panicked (shows l k) = panicked k /\
  cons_lock (shows l k) = cons_lock k /\ locking (shows l k) = locking k.
Proof.
  induction l as [|c l IH]; intros k; [done|]. rewrite shows_cons. destruct (IH (echo c k)) as (-> & -> & -> & ->). apply echo_frame.
Qed.

Lemma shows_ok l : forall k, screen_ok k -> screen_ok (shows l k).
Proof. induction l as [|c l IH]; intros k Hk; [done|]. rewrite shows_cons. by apply IH, echo_ok. Qed.

(** Output does not look at the input and the lock. *)
Lemma echo_inp c i k : echo c (set_inp i k) = set_inp i (echo c k).
Proof. destruct k as [? ? ? ? ? [] ? ?]; unfold echo, shown; cbn; by destruct (_ <=? _). Qed.
Lemma echo_lock c b k : echo c (set_cons_lock b k) = set_cons_lock b (echo c k).
Proof. destruct k as [? ? ? ? ? [] ? ?]; unfold echo, shown; cbn; by destruct (_ <=? _). Qed.

Lemma shows_inp l i : forall k, shows l (set_inp i k) = set_inp i (shows l k).
Proof. induction l as [|c l IH]; intros k; [done|]. by rewrite !shows_cons, echo_inp, IH. Qed.
Lemma shows_lock l b : forall k, shows l (set_cons_lock b k) = set_cons_lock b (shows l k).
Proof. induction l as [|c l IH]; intros k; [done|]. by rewrite !shows_cons, echo_lock, IH. Qed.

(** [s'] is [s] after some output. *)
Definition outs (s s' : kx) : Prop := can_print s' /\ exists l, s' = set_con (shows l (con s)) s.

Lemma outs_refl s : can_print s -> outs s s.
Proof. intros H. split; [done|]. exists []. by destruct s. Qed.

Lemma outs_trans s1 s2 s3 : outs s1 s2 -> outs s2 s3 -> outs s1 s3.
Proof. intros (_ & l & ->) (H & l' & ->). split; [done|]. exists (l ++ l'). by rewrite shows_app. Qed.

Lemma outs_can s s' : outs s s' -> can_print s'.
Proof. by intros (H & _). Qed.

Lemma outs_inp s s' : outs s s' -> inp (con s') = inp (con s).
Proof. intros (_ & l & ->). apply shows_frame. Qed.

Lemma outs_locks s s' : outs s s' -> cons_lock (con s') = cons_lock (con s) /\ locking (con s') = locking (con s).
Proof. intros (_ & l & ->). apply shows_frame. Qed.

#[export] Hint Resolve outs_refl outs_can : console.
#[export] Hint Extern 5 (outs _ _) => eapply outs_trans; [eassumption|] : console.

(** An operation that only prints. *)
Definition prints_only (m : M kx unit) : Prop := forall s, can_print s -> wp m s (fun _ s' => outs s s').

Lemma po_ret : prints_only (ret tt).
Proof. intros s H. apply wp_ret. by apply outs_refl. Qed.

Lemma po_bind m k : prints_only m -> (forall u, prints_only (k u)) -> prints_only (bind m k).
Proof.
  intros Hm Hk s Hs. eapply wp_seq; [by apply Hm|]. intros u s' Ho.
  eapply wp_conseq; [by apply Hk, (outs_can s)|]. intros [] s'' Ho'. exact (outs_trans _ _ _ Ho Ho').
Qed.

Lemma kputc_shows c s : can_print s -> wp (kputc c) s (fun _ s' => s' = set_con (shows [c] (con s)) s).
Proof. intros [Hs Hp]. unfold kputc, liftc. apply wp_zoom, wp_of_eq with tt (echo c (con s)); [by apply consputc_echo|done]. Qed.

Lemma po_kputc c : prints_only (kputc c).
Proof.
  intros s Hs. eapply wp_conseq; [by apply kputc_shows|]. intros [] s' ->. destruct Hs as [Hs Hp].
  destruct (echo_frame c (con s)) as (_ & H2 & _ & _).
  split; [split; cbn; [by apply echo_ok|congruence]|]. by exists [c].
Qed.

Lemma po_for_each {X} (f : X -> M kx unit) l : (forall x, prints_only (f x)) -> prints_only (for_each l f).
Proof. intros Hf. induction l as [|x l IH]; cbn [for_each]; [apply po_ret|]. by apply po_bind. Qed.

Lemma po_when b m : prints_only m -> prints_only (when b m).
Proof. intros Hm. destruct b; [done|apply po_ret]. Qed.

#[export] Hint Resolve po_ret po_bind po_kputc po_for_each po_when : console.

(** In base 10 or 16 the digits of a word fit the buffer. *)
Lemma po_cons_printint xx base sgn : base = 10 \/ base = 16 -> prints_only (cons_printint kputc xx base sgn).
Proof.
  intros Hb s Hs. unfold cons_printint. cbv zeta. set (x := if sgn && (xx <? 0) then u32 (- xx) else u32 xx).
  assert (0 <= x < 2 ^ 32) as Hx by (unfold x; destruct (sgn && (xx <? 0)); apply u32_range).
  assert (length (digits_of (1 + PRINTBUF) base x) <= 10)%nat as Hl.
  { apply digits_of_length; [lia|lia|]. destruct Hb as [-> | ->]; lia. }
  eapply wp_bind_eq; [apply convert_digits|].
  - lia.
  - unfold PRINTBUF. destruct Hb as [-> | ->]; lia.
  - unfold PRINTBUF. lia.
  - unfold PRINTBUF in *. cbn [length]. lia.
  - cbn [app]. set (b := _ <$> _). assert (length b <= 10)%nat as Hb2 by (unfold b; by rewrite length_fmap).
    eapply wp_seq with (fun _ s' => s' = s).
    + destruct (sgn && (xx <? 0)); [|by apply wp_ret]. unfold buf_add.
      replace (PRINTBUF <=? length b)%nat with false by (symmetry; apply Nat.leb_gt; unfold PRINTBUF; lia). by apply wp_ret.
    + intros b' ? ->. apply (po_for_each kputc); [apply po_kputc|done].
Qed.

(** The number of arguments a format takes. *)
Fixpoint nargs (fmt : list Z) : nat :=
  match fmt with
  | [] => 0
  | c :: fmt' =>
      if negb (c =? 37) then nargs fmt'
      else match fmt' with
           | [] => 0
           | c :: fmt' =>
               if (c =? 100) || (c =? 120) || (c =? 112) || (c =? 115) then S (nargs fmt') else nargs fmt'
           end
  end.

Lemma po_cprintf_loop cstr : forall n fmt args, (length fmt <= n)%nat -> (nargs fmt <= length args)%nat ->
  prints_only (cprintf_loop kputc cstr fmt args).
Proof.
  induction n as [|n IH]; intros [|c fmt] args Hn Ha; cbn [length] in Hn; try (apply po_ret); [lia|].
  cbn [cprintf_loop]. cbn [nargs] in Ha. destruct (c =? 37); cbn [negb] in *.
  2:{ apply po_bind; [apply po_kputc|]. intros _. apply IH; [lia|done]. }
  destruct fmt as [|d fmt]; [apply po_ret|]. cbn [length] in Hn.
  destruct (d =? 100), (d =? 120), (d =? 112), (d =? 115), (d =? 37); cbn [orb] in *;
    repeat match goal with
      | |- prints_only (with_arg ?l _) => destruct l; cbn [length with_arg] in *; [lia|]
      | |- prints_only (bind _ _) => apply po_bind; [|intros _]
      | |- prints_only (kputc _) => apply po_kputc
      | |- prints_only (for_each _ _) => apply po_for_each; apply po_kputc
      | |- prints_only (cons_printint _ _ _ _) => apply po_cons_printint; lia
      | |- prints_only (cprintf_loop _ _ _ _) => apply IH; lia
      end.
Qed.

(** An operation that only prints, and takes the console's lock to do it. *)
Definition out_free (s : kx) : Prop := can_print s /\ (locking (con s) = true -> cons_lock (con s) = false).
Definition prints_locked (m : M kx unit) : Prop := forall s, out_free s -> wp m s (fun _ s' => outs s s').

Lemma outs_free s s' : outs s s' -> out_free s -> out_free s'.
Proof. intros Ho [Hc Hl]. split; [by eapply outs_can|]. destruct (outs_locks _ _ Ho) as [-> ->]. done. Qed.

Lemma pl_bind m k : prints_locked m -> (forall u, prints_locked (k u)) -> prints_locked (bind m k).
Proof.
  intros Hm Hk s Hs. eapply wp_seq; [by apply Hm|]. intros u s' Ho.
  eapply wp_conseq; [by apply Hk, (outs_free s)|]. intros [] s'' Ho'. exact (outs_trans _ _ _ Ho Ho').
Qed.

Lemma pl_ret : prints_locked (ret tt).
Proof. intros s [Hs _]. by apply po_ret. Qed.

Lemma pl_for_each {X} (f : X -> M kx unit) l : (forall x, prints_locked (f x)) -> prints_locked (for_each l f).
Proof. intros Hf. induction l as [|x l IH]; cbn [for_each]; [apply pl_ret|]. by apply pl_bind. Qed.

Lemma pl_cprintf cstr fmt args : (nargs fmt <= length args)%nat -> prints_locked (cprintf cstr fmt args).
Proof.
  intros Ha s [[Hs Hp] Hl]. pose proof (po_cprintf_loop cstr (length fmt) fmt args (le_n _) Ha) as Hpo.
  unfold cprintf. apply wp_bind, wp_gets. destruct (locking (con s)) eqn:El; cbn [when].
  - eapply wp_bind_eq. { unfold acquire_cons, acquire, bind, gets. rewrite (Hl eq_refl). reflexivity. }
    eapply wp_seq; [apply Hpo; by destruct Hs|]. intros [] s' ([H1 H2] & l & ->). cbn [con set_con] in *. rewrite shows_lock in *.
    unfold release_cons, release, wp, bind, gets. cbn [con set_con cons_lock set_cons_lock]. unfold modify. cbn [con set_con].
    split; [by destruct H1|]. exists l. destruct (shows_frame l (con s)) as (_ & _ & H3 & _). rewrite (Hl eq_refl) in H3.
    unfold set_con. cbn. f_equal. destruct (shows l (con s)). cbn in *. by subst.
  - apply (po_bind (ret tt)); [apply po_ret| |done]. intros _. apply po_bind; [done|]. intros _. apply po_ret.
Qed.

Lemma pl_procdump : prints_locked procdump.
Proof.
  apply pl_for_each. intros i s Hs. unfold procdump1. apply wp_bind, wp_gets.
  destruct (is_state UNUSED _); [by apply pl_ret|]. revert s Hs. intros s0 Hs.
  apply (pl_bind (cprintf _ _ _)); [by apply pl_cprintf| |done]. intros _. apply pl_bind.
  - intros s Hs'. destruct (is_state SLEEPING _); [|by apply pl_ret]. apply wp_bind, wp_gets.
    apply pl_for_each; [|done]. intros a. by apply pl_cprintf.
  - intros _. by apply pl_cprintf.
Qed.

(** ** The two lists *)

Record in_rep (i : input) (q ed : list Z) : Prop := {
  ir_ring : ring INPUT_BUF (in_buf i) (in_r i) (q ++ ed);
  ir_w : in_w i = u32 (in_r i + Z.of_nat (length q));
  ir_e : in_e i = u32 (in_r i + Z.of_nat (length (q ++ ed)));
  ir_ed : Forall (fun c => c <> 10) ed;
  ir_full : Z.of_nat (length (q ++ ed)) = INPUT_BUF -> ed = []
}.

(** What a character does to the two lists; the flag tells that a line is
    ready and readers are woken. *)
Definition edit1 (c : Z) (x : list Z * list Z) : list Z * list Z * bool :=
  let (q, ed) := x in
  if c =? 16 then (q, ed, false)
  else if c =? 21 then (q, [], false)
  else if (c =? 8) || (c =? 127) then (q, removelast ed, false)
  else if negb (c =? 0) && (Z.of_nat (length (q ++ ed)) <? INPUT_BUF) then
    let c := if c =? 13 then 10 else c in
    if (c =? 10) || (c =? 4) || (Z.of_nat (length (q ++ ed)) + 1 =? INPUT_BUF)
    then (q ++ ed ++ [c], [], true)
    else (q, ed ++ [c], false)
  else (q, ed, false).

Fixpoint edits (cs : list Z) (x : list Z * list Z) : list Z * list Z * bool :=
  match cs with
  | [] => (x, false)
  | c :: cs' =>
      let '(x1, w1) := edit1 c x in
      let '(x2, w2) := edits cs' x1 in
      (x2, w1 || w2)
  end.

(** What a character makes the console print: control-P, a listing of the
    processes that [echo1] says nothing of. *)
Definition echo1 (c : Z) (x : list Z * list Z) : list Z :=
  let (q, ed) := x in
  if c =? 21 then replicate (length ed) BACKSPACE
  else if (c =? 8) || (c =? 127) then if bool_decide (ed = []) then [] else [BACKSPACE]
  else if negb (c =? 0) && (Z.of_nat (length (q ++ ed)) <? INPUT_BUF) then [if c =? 13 then 10 else c]
  else [].
Fixpoint echoes (cs : list Z) (x : list Z * list Z) (out : list Z) : Prop :=
  match cs with
  | [] => out = []
  | c :: cs' => exists o1 o2, out = o1 ++ o2 /\ (c <> 16 -> o1 = echo1 c x) /\ echoes cs' (edit1 c x).1 o2
  end.

(** The line a reader of at most [n] bytes gets from the ready bytes [q], and
    what is left; [None] if it must wait for more.  A control-D ends the read
    and stays in the buffer unless it is the first byte. *)
Fixpoint line_of (n : nat) (start : bool) (q : list Z) : list Z * option (list Z) :=
  match n with
  | O => ([], Some q)
  | S n' =>
      match q with
      | [] => ([], None)
      | c :: q' =>
          if c =? 4 then ([], Some (if start then q' else q))
          else if c =? 10 then ([c], Some q')
          else let (l, r) := line_of n' false q' in (c :: l, r)
      end
  end.

Lemma in_rep_bounds i q ed : in_rep i q ed -> Z.of_nat (length q) + Z.of_nat (length ed) <= 128.
Proof. intros [[_ _ H _] _ _ _ _]. rewrite length_app in H. unfold INPUT_BUF in H. lia. Qed.

Lemma in_rep_e_w i q ed : in_rep i q ed -> (in_e i =? in_w i) = bool_decide (ed = []).
Proof.
  intros Hr. pose proof (in_rep_bounds _ _ _ Hr). destruct Hr as [_ -> -> _ _].
  rewrite (ring_len_eq INPUT_BUF) by (rewrite ?length_app; unfold INPUT_BUF; lia).
  apply bool_decide_ext. rewrite length_app. destruct ed; cbn [length]; naive_solver lia.
Qed.

Lemma in_rep_r_w i q ed : in_rep i q ed -> (in_r i =? in_w i) = bool_decide (q = []).
Proof.
  intros Hr. pose proof (in_rep_bounds _ _ _ Hr). destruct Hr as [[_ Hr _ _] -> _ _ _].
  replace (in_r i) with (u32 (in_r i + 0)) at 1 by (rewrite Z.add_0_r; apply u32_small; lia).
  rewrite (ring_len_eq INPUT_BUF) by (unfold INPUT_BUF; lia).
  apply bool_decide_ext. destruct q; cbn [length]; naive_solver lia.
Qed.

Lemma in_rep_len i q ed : in_rep i q ed -> u32 (in_e i - in_r i) = Z.of_nat (length (q ++ ed)).
Proof.
  intros Hr. pose proof (in_rep_bounds _ _ _ Hr). destruct Hr as [[_ Hr _ _] _ -> _ _].
  unfold u32. rewrite Zminus_mod_idemp_l. rewrite Z.mod_small; rewrite length_app; lia.
Qed.

Lemma in_rep_unedit i q ed x : in_rep i q (ed ++ [x]) ->
  in_buf i !!! Z.to_nat (u32 (in_e i - 1) mod INPUT_BUF) = x /\ x <> 10 /\ in_rep (unedit i) q ed.
Proof.
  intros [Hr Hw He Hd Hf]. rewrite app_assoc in *. apply Forall_app in Hd as [Hd Hx].
  assert (u32 (in_e i - 1) = u32 (in_r i + Z.of_nat (length (q ++ ed)))) as Heq.
  { rewrite He. unfold u32. rewrite Zminus_mod_idemp_l, length_app. cbn [length]. f_equal. lia. }
  split_and!.
  - eapply (ring_back INPUT_BUF); [exact Hr|exact Heq].
  - by apply Forall_cons in Hx as [? _].
  - split; cbn; [by eapply ring_prefix|done|done|done|].
    intros Hl. destruct Hr as [_ _ Hr _]. rewrite length_app in Hr. cbn in Hr. lia.
Qed.

(** A character stored at the end of the line. *)
Definition typed (c : Z) (i : input) : input :=
  mkinput (in_lock i) (<[Z.to_nat (in_e i mod INPUT_BUF) := u8 c]> (in_buf i)) (in_r i) (in_w i) (u32 (in_e i + 1)).
(** [input.w = input.e] *)
Definition commit_line (i : input) : input := mkinput (in_lock i) (in_buf i) (in_r i) (in_e i) (in_e i).

Section typed.
Context (i : input) (q ed : list Z) (c : Z).
Context (Hrep : in_rep i q ed) (Hc : 0 <= c < 256) (Hlt : Z.of_nat (length (q ++ ed)) < INPUT_BUF).

Lemma typed_e : in_e (typed c i) = u32 (in_r i + Z.of_nat (length (q ++ ed ++ [c]))).
Proof. destruct Hrep as [_ _ He _ _]. cbn. rewrite He, u32_add_u32, app_assoc, (length_app (q ++ ed)). cbn [length]. f_equal. lia. Qed.

Lemma typed_ring : ring INPUT_BUF (in_buf (typed c i)) (in_r i) (q ++ ed ++ [c]).
Proof.
  cbn. rewrite app_assoc. unfold u8. rewrite (Z.mod_small c) by lia. apply ring_push; [apply _|by destruct Hrep|done|by destruct Hrep].
Qed.

Lemma typed_full : (in_e (typed c i) =? u32 (in_r (typed c i) + INPUT_BUF)) = (Z.of_nat (length (q ++ ed)) + 1 =? INPUT_BUF).
Proof.
  assert (length (q ++ ed ++ [c]) = S (length (q ++ ed))) as Hl by (rewrite app_assoc, length_app; cbn [length]; lia).
  rewrite typed_e, Hl. cbn [typed in_r]. rewrite (ring_len_eq INPUT_BUF) by (unfold INPUT_BUF in *; lia).
  destruct (Z.eqb_spec (Z.of_nat (length (q ++ ed)) + 1) INPUT_BUF).
  - apply bool_decide_eq_true. lia.
  - apply bool_decide_eq_false. lia.
Qed.

Lemma typed_commit : in_rep (commit_line (typed c i)) (q ++ ed ++ [c]) [].
Proof.
  split; cbn [commit_line in_buf in_r in_w in_e]; rewrite ?app_nil_r; [apply typed_ring|apply typed_e|apply typed_e|constructor|done].
Qed.

Lemma typed_keep : c <> 10 -> Z.of_nat (length (q ++ ed)) + 1 <> INPUT_BUF -> in_rep (typed c i) q (ed ++ [c]).
Proof.
  intros H10 Hf. split; [apply typed_ring|by destruct Hrep|apply typed_e| |].
  - apply Forall_app. split; [by destruct Hrep|]. by constructor.
  - rewrite app_assoc, length_app. cbn [length]. lia.
Qed.
End typed.

(** A byte taken by a reader. *)
Definition taken (i : input) : input := mkinput (in_lock i) (in_buf i) (u32 (in_r i + 1)) (in_w i) (in_e i).

Lemma in_rep_take i c q ed : in_rep i (c :: q) ed ->
  in_buf i !!! Z.to_nat (in_r i mod INPUT_BUF) = c /\ in_rep (taken i) q ed.
Proof.
  intros [Hr Hw He Hd Hf]. split; [by eapply (ring_front INPUT_BUF)|]. split; cbn.
  - by eapply ring_pop; [apply _|exact Hr].
  - rewrite Hw, u32_add_u32. cbn [length]. f_equal. lia.
  - rewrite He, u32_add_u32. cbn [length app]. f_equal. lia.
  - done.
  - intros Hl. destruct Hr as [_ _ Hr _]. cbn [length app] in Hr. exfalso. lia.
Qed.

(** ** [consoleintr] *)

Definition woken_if (w : bool) (l : list proc) : list proc := if w then wake1 ChInput <$> l else l.

Lemma wake1_twice c p : wake1 c (wake1 c p) = wake1 c p.
Proof.
  unfold wake1. destruct (is_state SLEEPING p && bool_decide (p_chan p = Some c)) eqn:E; [|by rewrite E].
  cbn. unfold is_state. by rewrite bool_decide_false.
Qed.

Lemma woken_if_twice w1 w2 l : woken_if w2 (woken_if w1 l) = woken_if (w1 || w2) l.
Proof.
  destruct w1, w2; try done. cbn. rewrite <- list_fmap_compose. apply list_fmap_ext. intros ? p _. apply wake1_twice.
Qed.

(** Inside [consoleintr], called in [s0]: the input is [i], the readers were
    woken if [w], and [out] was printed. *)
Record in_base (s0 s : kx) (w : bool) (i : input) (out : list Z) : Prop := {
  ib_eq : s = set_con (con s) (set_procs (woken_if w (procs s0)) s0);
  ib_out : out_free s;
  ib_con : con s = set_inp i (shows out (con s0));
  ib_lock : in_lock i = true;
  ib_pt : pt_lock s0 = false
}.

Lemma ib_inp s0 s w i out : in_base s0 s w i out -> inp (con s) = i.
Proof. intros B. by rewrite (ib_con _ _ _ _ _ B). Qed.

Lemma set_con_on (s x : kx) c : s = set_con (con s) x -> set_con c s = set_con c x.
Proof. intros H. by rewrite H. Qed.

Lemma in_base_outs s0 s s' w i out : in_base s0 s w i out -> outs s s' -> exists l, in_base s0 s' w i (out ++ l).
Proof.
  intros [H1 H2 H3 H4 H5] Ho. pose proof (outs_free _ _ Ho H2) as Hf. destruct Ho as (_ & l & ->). exists l.
  split; [|done| |done|done]; cbn.
  - by apply set_con_on.
  - by rewrite H3, shows_inp, shows_app.
Qed.

Lemma wp_assoc {S A B C} (m : M S A) (k1 : M S B) (k2 : M S C) s Q :
  wp ((m ;; k1) ;; k2) s Q -> wp (m ;; k1 ;; k2) s Q.
Proof. unfold wp, bind. by destruct (m s). Qed.

Lemma wp_get_input s (Q : input -> kx -> Prop) : Q (inp (con s)) s -> wp get_input s Q.
Proof. done. Qed.

Lemma wp_put_input s0 s w i i' out : in_base s0 s w i out -> in_lock i' = true ->
  wp (put_input i') s (fun _ s' => in_base s0 s' w i' out).
Proof.
  intros [H1 [[[H2 Ha] Hb] Hc] H3 H4 H5] Hl. apply wp_modify. split; [|done| |done|done]; cbn.
  - rewrite H1. done.
  - by rewrite H3.
Qed.

Lemma wp_put_kputc s0 s w i i' c out : in_base s0 s w i out -> in_lock i' = true ->
  wp (put_input i' ;; kputc c) s (fun _ s' => in_base s0 s' w i' (out ++ [c])).
Proof.
  intros Hb Hl. eapply wp_seq; [by apply (wp_put_input s0 s w i)|]. intros [] s1 H1.
  pose proof (po_kputc c s1 (proj1 (ib_out _ _ _ _ _ H1))) as Hpo. pose proof (kputc_shows c s1 (proj1 (ib_out _ _ _ _ _ H1))) as Hs.
  unfold wp in *. destruct (kputc c s1) as [[] s2| | |]; try done. pose proof (outs_free _ _ Hpo (ib_out _ _ _ _ _ H1)) as Hf. subst s2.
  destruct H1 as [E1 E2 E3 E4 E5]. split; [|done| |done|done]; cbn.
  - by apply set_con_on.
  - by rewrite E3, echo_inp, shows_app.
Qed.

Lemma wp_wakeup_input s0 s w i out : in_base s0 s w i out -> wp (wakeup ChInput) s (fun _ s' => in_base s0 s' true i out).
Proof.
  intros [H1 H2 H3 H4 H5]. unfold wakeup, acquire_ptable, release_ptable, acquire, release, wakeup1.
  assert (pt_lock s = false) as Hp by (rewrite H1; done).
  unfold wp, bind, gets. rewrite Hp. unfold modify. cbn. split; [|done|done|done|done]. cbn.
  rewrite H1. cbn. change (wake1 ChInput <$> woken_if w (procs s0)) with (woken_if true (woken_if w (procs s0))).
  rewrite woken_if_twice, orb_true_r. cbn. unfold set_pt_lock, set_procs, set_con. cbn. by rewrite H5.
Qed.

Lemma kill_line_ok s0 w q : forall n ed s i out, (length ed <= n)%nat -> in_base s0 s w i out -> in_rep i q ed ->
  wp (kill_line n) s (fun _ s' => exists i', in_base s0 s' w i' (out ++ replicate (length ed) BACKSPACE) /\ in_rep i' q []).
Proof.
  induction n as [|n IH]; intros ed s i out Hn Hb Hr.
  - destruct ed; [|cbn in Hn; lia]. cbn [kill_line]. apply wp_bind, wp_get_input. rewrite (ib_inp _ _ _ _ _ Hb).
    rewrite (in_rep_e_w _ _ _ Hr). apply wp_ret. cbn [replicate length]. rewrite app_nil_r. eauto.
  - cbn [kill_line]. apply wp_bind, wp_get_input. rewrite (ib_inp _ _ _ _ _ Hb), (in_rep_e_w _ _ _ Hr).
    destruct ed as [|x ed _] using rev_ind; [apply wp_ret; cbn [replicate length]; rewrite app_nil_r; eauto|].
    destruct (in_rep_unedit _ _ _ _ Hr) as (Hx & Hne & Hr'). rewrite Hx, (proj2 (Z.eqb_neq x 10)) by done.
    rewrite bool_decide_false by (by destruct ed). cbn [negb andb].
    apply wp_assoc. eapply wp_seq; [by apply (wp_put_kputc s0 s w i); [|apply (ib_lock _ _ _ _ _ Hb)]|].
    intros [] s' Hb'. rewrite length_app in *. cbn [length] in *. rewrite Nat.add_1_r. cbn [replicate].
    eapply wp_conseq; [eapply IH; [|exact Hb'|exact Hr']; lia|]. by rewrite <- app_assoc.
Qed.

(** One character. *)
Lemma consoleintr1_ok s0 s w i q ed c out : 0 <= c < 256 -> in_base s0 s w i out -> in_rep i q ed ->
  wp (consoleintr1 c) s (fun _ s' => exists i' o1, (c <> 16 -> o1 = echo1 c (q, ed)) /\
    in_base s0 s' (w || (edit1 c (q, ed)).2) i' (out ++ o1) /\
    in_rep i' (edit1 c (q, ed)).1.1 (edit1 c (q, ed)).1.2).
Proof.
  intros Hc Hb Hr. pose proof (ib_lock _ _ _ _ _ Hb) as Hlk. unfold consoleintr1, edit1, echo1.
  destruct (Z.eqb_spec c 16).
  { eapply wp_conseq; [apply pl_procdump, (ib_out _ _ _ _ _ Hb)|]. intros [] s' Ho. cbn [fst snd]. rewrite orb_false_r.
    destruct (in_base_outs _ _ _ _ _ _ Hb Ho) as [l Hb']. by exists i, l. }
  destruct (c =? 21).
  { cbn [fst snd]. rewrite orb_false_r. eapply wp_conseq; [eapply kill_line_ok; [|done|done]|].
    - pose proof (in_rep_bounds _ _ _ Hr). unfold INPUT_BUF. lia.
    - intros [] s' (i' & Hb' & Hr'). eauto. }
  destruct ((c =? 8) || (c =? 127)).
  { apply wp_bind, wp_get_input. rewrite (ib_inp _ _ _ _ _ Hb), (in_rep_e_w _ _ _ Hr). cbn [fst snd]. rewrite orb_false_r.
    destruct ed as [|x ed _] using rev_ind; [apply wp_ret; exists i, []; rewrite app_nil_r; done|].
    rewrite bool_decide_false by (by destruct ed). cbn [negb].
    destruct (in_rep_unedit _ _ _ _ Hr) as (_ & _ & Hr'). rewrite removelast_last.
    eapply wp_conseq; [by apply (wp_put_kputc s0 s w i)|]. intros [] s' Hb'. eauto. }
  apply wp_bind, wp_get_input. rewrite (ib_inp _ _ _ _ _ Hb), (in_rep_len _ _ _ Hr).
  destruct (negb (c =? 0) && _) eqn:Et; [|apply wp_ret; cbn [fst snd]; rewrite orb_false_r; exists i, []; rewrite app_nil_r; done].
  apply andb_true_iff in Et as [_ Hlt%Z.ltb_lt]. set (c' := if c =? 13 then 10 else c).
  assert (0 <= c' < 256) as Hc' by (unfold c'; destruct (c =? 13); lia). fold (typed c' i).
  apply wp_assoc. eapply wp_seq; [by apply (wp_put_kputc s0 s w i)|]. intros [] s1 H1.
  apply wp_bind, wp_get_input. rewrite (ib_inp _ _ _ _ _ H1), (typed_full i q ed c' Hr Hlt).
  destruct ((c' =? 10) || (c' =? 4) || _) eqn:Ec; cbn [fst snd].
  - fold (commit_line (typed c' i)). eapply wp_seq; [by apply (wp_put_input s0 s1 w (typed c' i))|]. intros [] s2 H2.
    eapply wp_conseq; [by apply (wp_wakeup_input s0 s2 w (commit_line (typed c' i)))|]. intros [] s3 H3. rewrite orb_true_r.
    exists (commit_line (typed c' i)), [c']. split_and!; [done|done|]. by apply typed_commit.
  - apply wp_ret. rewrite orb_false_r. exists (typed c' i), [c']. split_and!; [done|done|].
    apply orb_false_iff in Ec as [[Ec1 _]%orb_false_iff Ec2]. apply Z.eqb_neq in Ec1, Ec2. by apply typed_keep.
Qed.

Lemma consoleintr_loop_ok s0 : forall cs s w i q ed out, Forall (fun c => 0 <= c < 256) cs -> in_base s0 s w i out -> in_rep i q ed ->
  wp (for_each cs consoleintr1) s (fun _ s' => exists i' o, echoes cs (q, ed) o /\
    in_base s0 s' (w || (edits cs (q, ed)).2) i' (out ++ o) /\
    in_rep i' (edits cs (q, ed)).1.1 (edits cs (q, ed)).1.2).
Proof.
  induction cs as [|c cs IH]; intros s w i q ed out Hcs Hb Hr; cbn [for_each edits echoes].
  { apply wp_ret. cbn [fst snd]. rewrite orb_false_r. exists i, []. by rewrite app_nil_r. }
  apply Forall_cons in Hcs as [Hc Hcs]. eapply wp_seq; [by apply (consoleintr1_ok s0 s w i q ed c)|].
  intros [] s1 (i1 & o1 & Ho1 & Hb1 & Hr1). destruct (edit1 c (q, ed)) as [[q1 ed1] w1]. cbn [fst snd] in *.
  eapply wp_conseq; [exact (IH s1 _ i1 q1 ed1 _ Hcs Hb1 Hr1)|]. intros [] s2 (i2 & o2 & Ho2 & Hb2 & Hr2).
  destruct (edits cs (q1, ed1)) as [[q2 ed2] w2]. cbn [fst snd] in *. exists i2, (o1 ++ o2).
  rewrite orb_assoc, app_assoc. split_and!; [|done|done]. by exists o1, o2.
Qed.

(** The input with its lock free. *)
Definition set_in_lock (b : bool) (i : input) : input := mkinput b (in_buf i) (in_r i) (in_w i) (in_e i).

Lemma intr_edits (cs : list Z) (s : kx) (q ed : list Z) :
  out_free s -> in_lock (inp (con s)) = false -> pt_lock s = false ->
  in_rep (inp (con s)) q ed -> Forall (fun c => 0 <= c < 256) cs ->
  exists s' out, consoleintr cs s = Ret tt s' /\
    in_rep (inp (con s')) (edits cs (q, ed)).1.1 (edits cs (q, ed)).1.2 /\
    in_lock (inp (con s')) = false /\ out_free s' /\
    echoes cs (q, ed) out /\ con s' = set_inp (inp (con s')) (shows out (con s)) /\
    s' = set_con (con s') (set_procs (woken_if (edits cs (q, ed)).2 (procs s)) s).
Proof.
  intros Ho Hl Hp Hr Hcs.
  destruct (wp_eq_tt (consoleintr cs) s (fun _ s' => exists out,
    in_rep (inp (con s')) (edits cs (q, ed)).1.1 (edits cs (q, ed)).1.2 /\ in_lock (inp (con s')) = false /\
    out_free s' /\ echoes cs (q, ed) out /\ con s' = set_inp (inp (con s')) (shows out (con s)) /\
    s' = set_con (con s') (set_procs (woken_if (edits cs (q, ed)).2 (procs s)) s))) as (s' & E & out & H); [|eauto].
  eapply wp_bind_eq. { unfold acquire_input, acquire, bind, gets. rewrite Hl. reflexivity. }
  eapply wp_seq; [eapply (consoleintr_loop_ok s cs _ false (set_in_lock true (inp (con s))) q ed [] Hcs)|].
  - split; [by destruct s|by destruct Ho as [[[] ?] ?]|done|done|done].
  - by destruct Hr.
  - intros [] s' (i' & o & He & B & Hr'). pose proof (ib_inp _ _ _ _ _ B) as Hi. destruct B as [H1 H2 H3 H4 H5]. cbn [orb app] in *.
    unfold release_input, release, wp, bind, gets. rewrite Hi, H4. unfold modify. cbn [con set_con inp set_inp]. rewrite Hi.
    exists o. split_and!; [by destruct Hr'|done|by destruct H2 as [[[] ?] ?]|done|by rewrite H3|]. by rewrite H1.
Qed.

(** C24: the line discipline.  Typing the characters [cs] takes the console's
    input ring, whatever its counters, from the lists [q] (ready) and [ed]
    (being edited) to the ones that [edits] computes: control-U empties the
    line, backspace and delete drop its last byte, other characters are added
    while there is room, carriage return as newline, and a newline, a control-D
    or a full buffer makes the line ready and wakes the readers.  The screen and
    the serial port have shown, in order, every character that was added and
    one erasure for every byte dropped ([echoes]; control-P lists the processes,
    with characters that are not specified), and nothing else.  Nothing else in
    the kernel changes. *)
Theorem consoleintr_edits (cs : list Z) (s : kx) (q ed : list Z) :
  out_free s -> in_lock (inp (con s)) = false -> pt_lock s = false ->
  in_rep (inp (con s)) q ed -> Forall (fun c => 0 <= c < 256) cs ->
  exists s' out, consoleintr cs s = Ret tt s' /\
    in_rep (inp (con s')) (edits cs (q, ed)).1.1 (edits cs (q, ed)).1.2 /\
    in_lock (inp (con s')) = false /\ out_free s' /\
    echoes cs (q, ed) out /\ con s' = set_inp (inp (con s')) (shows out (con s)) /\
    s' = set_con (con s') (set_procs (woken_if (edits cs (q, ed)).2 (procs s)) s).
Proof. apply intr_edits. Qed.

(** ** [consoleread] *)

(** The state with the input replaced. *)
Definition with_in (i : input) (s : kx) : kx := set_con (set_inp i (con s)) s.

Section reading.
Context (s : kx) (me : nat) (p : proc) (ed : list Z).
Context (Hcur : cur s = Some me) (Hme : procs s !! me = Some p).
Context (Hpt : pt_lock s = false) (Hlocks : other_locks s = false).

Lemma release_input_ret i : in_lock i = true -> release_input (with_in i s) = Ret tt (with_in (set_in_lock false i) s).
Proof. intros Hl. unfold release_input, release, bind, gets. cbn [inp con with_in set_con set_inp]. by rewrite Hl. Qed.

Lemma killed_ret i : killed (with_in i s) = Ret (negb (p_killed p =? 0)) (with_in i s).
Proof.
  unfold killed, myproc, get_proc, bind, gets. cbn [cur procs with_in set_con]. rewrite Hcur. cbn [ret].
  unfold ret. cbn [procs with_in set_con]. by rewrite (list_lookup_total_correct _ _ _ Hme).
Qed.

Lemma other_locks_in i : in_lock i = false -> other_locks (with_in i s) = false.
Proof.
  intros Hi. revert Hlocks. unfold other_locks. cbn. rewrite Hi. rewrite !orb_false_iff. naive_solver.
Qed.

(** The reader asleep on the channel of the input, with the input's lock free
    and the process table's held for the scheduler. *)
Definition reader_asleep (i : input) : kx :=
  set_pt_lock true (set_procs (asleep me ChInput (procs s)) (with_in (set_in_lock false i) s)).

Lemma sleep_input_ret {A} i : in_lock i = true ->
  sleep (A := A) ChInput (Some release_input) (with_in i s) = Sleep ChInput (reader_asleep i).
Proof.
  intros Hl. pose proof (other_locks_in (set_in_lock false i) eq_refl) as Ho. pose proof (lookup_lt_Some _ _ _ Hme) as Hlt.
  unfold sleep, sleep_start, acquire_ptable, acquire, bind, gets. cbn [cur with_in set_con]. rewrite Hcur.
  cbn [pt_lock with_in set_con]. rewrite Hpt. unfold modify.
  unfold release_input, release, bind, gets. cbn [inp con with_in set_con set_inp set_pt_lock]. rewrite Hl. unfold modify.
  unfold upd_proc, modify. cbn [procs with_in set_con set_procs set_pt_lock con inp set_inp].
  unfold sched, bind, gets, myproc, get_proc. cbn [pt_lock set_con set_procs set_pt_lock cur]. cbn [negb].
  match goal with |- context [other_locks ?t] => replace (other_locks t) with false by (symmetry; exact Ho) end.
  unfold bind, gets. cbn [cur set_con set_procs set_pt_lock with_in]. rewrite Hcur. unfold ret. cbn [procs set_procs].
  rewrite !list_lookup_total_insert_eq by (rewrite ?length_insert; done).
  unfold when, is_state, park, reader_asleep, asleep. cbn -[insert list_insert]. by rewrite list_insert_insert_eq.
Qed.

(** How a read of [n] out of [target] bytes ends. *)
Definition read_end (n : nat) (target : Z) (q : list Z) (r : res kx (Z * list Z)) : Prop :=
  let (l, o) := line_of n (Z.of_nat n =? target) q in
  match o with
  | Some q' => exists i', r = Ret (target - Z.of_nat (n - length l), l) (with_in i' s) /\ in_lock i' = false /\ in_rep i' q' ed
  | None =>
      exists i', in_rep i' [] ed /\
        if negb (p_killed p =? 0) then r = Ret (-1, l) (with_in i' s) /\ in_lock i' = false
        else r = Sleep ChInput (reader_asleep i')
  end.

Lemma put_input_ret i i' : put_input i' (with_in i s) = Ret tt (with_in i' s).
Proof. done. Qed.

Lemma consoleread_loop_ok target : forall n i q, Z.of_nat n <= target ->
  in_lock i = true -> in_rep i q ed -> read_end n target q (consoleread_loop n target (with_in i s)).
Proof.
  induction n as [|n IH]; intros i q Hn Hl Hr; cbn [consoleread_loop].
  { unfold bind. rewrite release_input_ret by done. unfold read_end. cbn [line_of length Nat.sub Z.of_nat]. rewrite Z.sub_0_r.
    exists (set_in_lock false i). split_and!; [done|done|by destruct Hr]. }
  unfold bind at 1, get_input at 1, gets at 1. cbn [inp con with_in set_con set_inp].
  rewrite (in_rep_r_w _ _ _ Hr). destruct q as [|c q].
  { rewrite bool_decide_true by done. unfold bind at 1. rewrite killed_ret. unfold read_end. cbn [line_of].
    destruct (negb (p_killed p =? 0)).
    - exists (set_in_lock false i). unfold bind. rewrite release_input_ret by done. split_and!; [by destruct Hr|done|done].
    - exists i. split; [done|]. by apply sleep_input_ret. }
  rewrite bool_decide_false by done. destruct (in_rep_take _ _ _ _ Hr) as [Hc Hr']. rewrite Hc.
  destruct (Z.eqb_spec c 4) as [->|H4].
  { unfold bind. rewrite put_input_ret, release_input_ret by done. unfold read_end. cbn [line_of length].
    rewrite Z.eqb_refl, Nat.sub_0_r. eexists. split_and!; [done|done|].
    destruct (Z.eqb_spec (Z.of_nat (S n)) target) as [<-|Hne].
    - rewrite (proj2 (Z.ltb_ge _ _)) by lia. by destruct Hr'.
    - rewrite (proj2 (Z.ltb_lt _ _)) by lia. replace (u32 (u32 (in_r i + 1) - 1)) with (in_r i); [by destruct Hr|].
      pose proof (rg_r _ _ _ _ (ir_ring _ _ _ Hr)). unfold u32. rewrite Zminus_mod_idemp_l, Z.mod_small; lia. }
  fold (taken i). unfold read_end. cbn [line_of]. rewrite (proj2 (Z.eqb_neq c 4)) by done. destruct (c =? 10).
  { unfold bind. rewrite put_input_ret, release_input_ret by done. exists (set_in_lock false (taken i)).
    cbn [length]. replace (S n - 1)%nat with n by lia. split_and!; [done|done|by destruct Hr']. }
  specialize (IH (taken i) q ltac:(lia) Hl Hr'). unfold read_end in IH.
  rewrite (proj2 (Z.eqb_neq (Z.of_nat n) target)) in IH by lia. destruct (line_of n false q) as [l o]. cbn [length].
  destruct o as [q'|].
  - destruct IH as (i' & HR & Hl' & Hr''). exists i'. unfold bind. rewrite put_input_ret, HR. cbn [fst snd Nat.sub]. done.
  - destruct IH as (i' & Hr'' & HR). exists i'. split; [done|]. unfold bind. rewrite put_input_ret.
    destruct (negb (p_killed p =? 0)); [destruct HR as [-> ?]; done|by rewrite HR].
Qed.
End reading.

(** A reader of the console takes the next line.  Of the ready bytes [q]
    a read of [n] bytes returns those up to a newline, a control-D or [n]
    bytes, a control-D at the start giving 0 bytes and one after other bytes
    being left for the next read; the line being edited is not touched.  If
    the ready bytes run out first, the reader sleeps on the input with the
    input's lock released, or returns -1 if it was killed. *)
Theorem consoleread_line (n : Z) (s : kx) (me : nat) (p : proc) (q ed : list Z) :
  0 <= n -> cur s = Some me -> procs s !! me = Some p ->
  pt_lock s = false -> other_locks s = false -> in_rep (inp (con s)) q ed ->
  read_end s me p ed (Z.to_nat n) n q (consoleread_start n s).
Proof.
  intros Hn Hc Hm Hp Ho Hr. unfold consoleread_start. rewrite Z.max_r by done.
  assert (in_lock (inp (con s)) = false) as Hl by (revert Ho; unfold other_locks; rewrite !orb_false_iff; naive_solver).
  unfold bind at 1, acquire_input, acquire, bind, gets. rewrite Hl. unfold modify.
  apply (consoleread_loop_ok s me p ed Hc Hm Hp Ho n (Z.to_nat n) (set_in_lock true (inp (con s))) q); [lia|done|by destruct Hr].
Qed.

(** ** Examples *)
Module ConsoleW.

(** A process that runs, and an empty input whose counters are about to wrap. *)
Definition me0 : proc := set_p_state RUNNING zero_proc.
Definition in0 : input := mkinput false (replicate (Z.to_nat INPUT_BUF) 0) (2 ^ 32 - 2) (2 ^ 32 - 2) (2 ^ 32 - 2).
Definition c0 (i : input) : kx :=
  mkkx (mkk false false 0 (fun _ => 0)) false [me0] (Some 0%nat) 2 (Some 0%nat) false [] ∅ false 0
    (mkconsole false true false (replicate (80 * 25) 0) 0 true [] i).

Lemma in0_rep : in_rep in0 [] [].
Proof. split; [split; [done|done|cbn; unfold INPUT_BUF; lia|done]|done|done|constructor|done]. Qed.

Lemma c0_free i : out_free (c0 i).
Proof. split; [split; [split; [done|cbn; lia]|done]|done]. Qed.

(** "ab", backspace, "c" and return. *)
Definition keys : list Z := [97; 98; 8; 99; 13].

Lemma consoleintr_edits_witness : edits keys ([], []) = ([97; 99; 10], [], true) /\
  exists s', consoleintr keys (c0 in0) = Ret tt s' /\ in_rep (inp (con s')) [97; 99; 10] [] /\
    uart_out (con s') = [97; 98; 8; 32; 8; 99; 10].
Proof.
  split; [by vm_compute|]. destruct (consoleintr_edits keys (c0 in0) [] []) as (s' & out & E & Hr & _ & _ & He & Hc & _);
    [apply c0_free|done|done|apply in0_rep|repeat constructor; lia|].
  exists s'. split; [exact E|]. split; [exact Hr|]. rewrite Hc.
  assert (out = [97; 98; BACKSPACE; 99; 10]) as ->; [|vm_compute; reflexivity].
  cbn in He. destruct He as (o1 & r1 & -> & H1 & o2 & r2 & -> & H2 & o3 & r3 & -> & H3 & o4 & r4 & -> & H4 & o5 & r5 & -> & H5 & ->).
  by rewrite H1, H2, H3, H4, H5.
Defined.

(** A line of three bytes across the wrap of the counters. *)
Definition in1 : input := commit_line (typed 10 (typed 99 (typed 97 in0))).
Lemma in1_rep : in_rep in1 [97; 99; 10] [].
Proof.
  apply (typed_commit (typed 99 (typed 97 in0)) [] [97; 99] 10); [|lia|by vm_compute].
  apply (typed_keep (typed 97 in0) [] [97] 99); [|lia|by vm_compute|done|by vm_compute].
  apply (typed_keep in0 [] [] 97); [apply in0_rep|lia|by vm_compute|done|by vm_compute].
Qed.

Lemma consoleread_line_witness :
  line_of 10 true [97; 99; 10] = ([97; 99; 10], Some []) /\
  read_end (c0 in1) 0 me0 [] (Z.to_nat 10) 10 [97; 99; 10] (consoleread_start 10 (c0 in1)).
Proof.
  split; [by vm_compute|]. apply consoleread_line; [lia|done|done|done|by vm_compute|apply in1_rep].
Defined.

End ConsoleW.
