(* ===== verification/Kbd.v ===== *)
(** The keyboard: kbd.c and the key maps of kbd.h.

    The driver decodes the scan codes of the keyboard with a byte of modifier
    state.  An access outside the tables would be a fault; the tables are
    checked by evaluation on every scan code and every modifier state. *)

From S2P Require Import Prelude Params Ring CString Spinlock Mmu Kalloc Vm BlockDev Bio Log Fs Dir Kernel Proc Pipe Printf Console ConsoleSpec ConsoleIn.

(** An initialised array of 256 bytes: a dense prefix, then designated
    elements; the rest is zero. *)
Definition keymap (dense : list Z) (sparse : list (nat * Z)) : list Z :=
  foldl (fun l x => <[x.1 := x.2]> l) (dense ++ replicate (256 - length dense) 0) sparse.

Definition KBS_DIB : Z := 1.
Definition SHIFT : Z := 1.
Definition CTL : Z := 2.
Definition ALT : Z := 4.
Definition CAPSLOCK : Z := 8.
Definition NUMLOCK : Z := 16.
Definition SCROLLLOCK : Z := 32.
Definition E0ESC : Z := 64.

(** kbd.h [shiftcode], [togglecode]: the modifiers a key holds down or toggles. *)
Definition shiftcode : list Z :=
  keymap
    []
    [(29%nat, 2); (42%nat, 1); (54%nat, 1); (56%nat, 4); (157%nat, 2); (184%nat, 4)].

Definition togglecode : list Z :=
  keymap
    []
    [(58%nat, 8); (69%nat, 16); (70%nat, 32)].

(** kbd.h [normalmap], [shiftmap], [ctlmap] *)
Definition normalmap : list Z :=
  keymap
    [0; 27; 49; 50; 51; 52; 53; 54; 55; 56; 57; 48; 45; 61; 8; 9;
     113; 119; 101; 114; 116; 121; 117; 105; 111; 112; 91; 93; 10; 0; 97; 115;
     100; 102; 103; 104; 106; 107; 108; 59; 39; 96; 0; 92; 122; 120; 99; 118;
     98; 110; 109; 44; 46; 47; 0; 42; 0; 32; 0; 0; 0; 0; 0; 0;
     0; 0; 0; 0; 0; 0; 0; 55; 56; 57; 45; 52; 53; 54; 43; 49;
     50; 51; 48; 46; 0; 0; 0; 0]
    [(156%nat, 10); (181%nat, 47); (200%nat, 226); (208%nat, 227); (201%nat, 230); (209%nat, 231); (203%nat, 228); (205%nat, 229); (151%nat, 224); (207%nat, 225); (210%nat, 232); (211%nat, 233)].

Definition shiftmap : list Z :=
  keymap
    [0; 27; 33; 64; 35; 36; 37; 94; 38; 42; 40; 41; 95; 43; 8; 9;
     81; 87; 69; 82; 84; 89; 85; 73; 79; 80; 123; 125; 10; 0; 65; 83;
     68; 70; 71; 72; 74; 75; 76; 58; 34; 126; 0; 124; 90; 88; 67; 86;
     66; 78; 77; 60; 62; 63; 0; 42; 0; 32; 0; 0; 0; 0; 0; 0;
     0; 0; 0; 0; 0; 0; 0; 55; 56; 57; 45; 52; 53; 54; 43; 49;
     50; 51; 48; 46; 0; 0; 0; 0]
    [(156%nat, 10); (181%nat, 47); (200%nat, 226); (208%nat, 227); (201%nat, 230); (209%nat, 231); (203%nat, 228); (205%nat, 229); (151%nat, 224); (207%nat, 225); (210%nat, 232); (211%nat, 233)].

Definition ctlmap : list Z :=
  keymap
    [0; 0; 0; 0; 0; 0; 0; 0; 0; 0; 0; 0; 0; 0; 0; 0;
     17; 23; 5; 18; 20; 25; 21; 9; 15; 16; 0; 0; 13; 0; 1; 19;
     4; 6; 7; 8; 10; 11; 12; 0; 0; 0; 0; 28; 26; 24; 3; 22;
     2; 14; 13; 0; 0; 239; 0; 0]
    [(156%nat, 13); (181%nat, 239); (200%nat, 226); (208%nat, 227); (201%nat, 230); (209%nat, 231); (203%nat, 228); (205%nat, 229); (151%nat, 224); (207%nat, 225); (210%nat, 232); (211%nat, 233)].
(** [charcode] of kbd.c *)
Definition charcode : list (list Z) := [normalmap; shiftmap; ctlmap; ctlmap].

(** [t[i]] *)
Definition tab {A} (t : list A) (i : Z) : M Z A :=
  match t !! Z.to_nat i with Some x => if 0 <=? i then ret x else fault "kbd" | None => fault "kbd" end.

(** kbd.c [kbdgetc], on the status [st] and data byte [data] the controller
    gives; the state is the variable [shift]. *)
Definition kbdgetc (st data : Z) : M Z Z :=
  if Z.land st KBS_DIB =? 0 then ret (-1) else
  shift <- gets (fun s => s) ;;
  if data =? 224 then modify (fun s => Z.lor s E0ESC) ;; ret 0
  else if testf data 128 then
    let data := if testf shift E0ESC then data else Z.land data 127 in
    k <- tab shiftcode data ;;
    modify (fun s => Z.land s (Z.lnot (Z.lor k E0ESC))) ;;
    ret 0
  else
    data <- (if testf shift E0ESC
             then modify (fun s => Z.land s (Z.lnot E0ESC)) ;; ret (Z.lor data 128)
             else ret data) ;;
    k <- tab shiftcode data ;;
    modify (fun s => Z.lor s k) ;;
    t <- tab togglecode data ;;
    modify (fun s => Z.lxor s t) ;;
    shift <- gets (fun s => s) ;;
    m <- tab charcode (Z.land shift (Z.lor CTL SHIFT)) ;;
    c <- tab m data ;;
    ret (if testf shift CAPSLOCK then
           if (97 <=? c) && (c <=? 122) then c - 32
           else if (65 <=? c) && (c <=? 90) then c + 32
           else c
         else c).

(** The calls of [kbdgetc] that [consoleintr] makes, while the controller has
    the bytes [codes] ready. *)
Fixpoint kbd_chars (codes : list Z) : M Z (list Z) :=
  match codes with
  | [] => ret []
  | d :: codes' =>
      c <- kbdgetc KBS_DIB d ;;
      cs <- kbd_chars codes' ;;
      ret (c :: cs)
  end.

(** kbd.c [kbdintr] with the bytes [codes] ready, from the modifier state
    [shift]; the new modifier state is the result. *)
Definition kbdintr (codes : list Z) (shift : Z) : M kx Z := fun s =>
  match kbd_chars codes shift with
  | Ret cs shift' => (consoleintr cs ;; ret shift') s
  | Panic msg _ => Panic msg s
  | Sleep c _ => Sleep c s
  | Fault msg _ => Fault msg s
  end.

(** ** Every scan code in every modifier state *)

Definition forall_below (n : nat) (f : Z -> bool) : bool := forallb (fun i => f (Z.of_nat i)) (seq 0 n).

Lemma forall_below_spec n f : forall_below n f = true -> forall x, 0 <= x < Z.of_nat n -> f x = true.
Proof.
  intros H x Hx. unfold forall_below in H. rewrite forallb_forall in H. rewrite <- (Z2Nat.id x) by lia.
  apply H. apply in_seq. lia.
Qed.

(** A code keeps the modifiers in seven bits and gives a character. *)
Definition code_ok (shift data : Z) : bool :=
  match kbdgetc KBS_DIB data shift with
  | Ret c s' => (0 <=? c) && (c <? 256) && (0 <=? s') && (s' <? 128) &&
                (testf s' E0ESC || negb (data =? 224)) && (negb (testf s' E0ESC) || (data =? 224))
  | _ => false
  end.

Lemma codes_ok : forall_below 128 (fun shift => forall_below 256 (code_ok shift)) = true.
Proof. by vm_compute. Qed.

(** The letters. *)
Definition is_lower (c : Z) : bool := (97 <=? c) && (c <=? 122).
Definition decodes (shift data c : Z) : bool :=
  match kbdgetc KBS_DIB data shift with Ret c' s' => (c' =? c) && (s' =? shift) | _ => false end.
Definition letter_ok (data : Z) : bool :=
  let c := normalmap !!! Z.to_nat data in
  if is_lower c then
    decodes 0 data c && decodes SHIFT data (c - 32) && decodes CAPSLOCK data (c - 32) &&
    decodes (Z.lor SHIFT CAPSLOCK) data c && decodes CTL data (c - 96) && decodes (Z.lor CTL SHIFT) data (c - 96)
  else true.

Lemma letters_ok : forall_below 128 letter_ok = true.
Proof. by vm_compute. Qed.

Lemma kbd_chars_ok : forall codes shift, Forall is_u8 codes -> 0 <= shift < 128 ->
  exists cs shift', kbd_chars codes shift = Ret cs shift' /\ Forall (fun c => 0 <= c < 256) cs /\
    length cs = length codes /\ 0 <= shift' < 128.
Proof.
  induction codes as [|d codes IH]; intros shift Hd Hs; [by exists [], shift|].
  apply Forall_cons in Hd as [Hd Hds].
  pose proof (forall_below_spec _ _ codes_ok shift Hs) as H1. pose proof (forall_below_spec _ _ H1 d ltac:(unfold is_u8 in Hd; lia)) as H.
  unfold code_ok in H. cbn [kbd_chars]. unfold bind. destruct (kbdgetc KBS_DIB d shift) as [c s1| | |]; try done.
  rewrite !andb_true_iff in H. destruct H as [[[[[Hc0%Z.leb_le Hc1%Z.ltb_lt] Hs0%Z.leb_le] Hs1%Z.ltb_lt] _] _].
  destruct (IH s1 Hds ltac:(lia)) as (cs & s2 & -> & Hcs & Hl & Hs2). exists (c :: cs), s2.
  split_and!; [done|by constructor|by cbn [length]; rewrite Hl|lia|lia].
Qed.

(** The keys of the letters: plain, with Shift or Caps Lock (upper case), with
    both (lower case again), and with Control (the control character). *)
Theorem kbd_letters (data : Z) : 0 <= data < 128 -> is_lower (normalmap !!! Z.to_nat data) = true ->
  let c := normalmap !!! Z.to_nat data in
  kbdgetc KBS_DIB data 0 = Ret c 0 /\
  kbdgetc KBS_DIB data SHIFT = Ret (c - 32) SHIFT /\
  kbdgetc KBS_DIB data CAPSLOCK = Ret (c - 32) CAPSLOCK /\
  kbdgetc KBS_DIB data (Z.lor SHIFT CAPSLOCK) = Ret c (Z.lor SHIFT CAPSLOCK) /\
  kbdgetc KBS_DIB data CTL = Ret (c - 96) CTL.
Proof.
  intros Hd Hl c. pose proof (forall_below_spec _ _ letters_ok data Hd) as H. unfold letter_ok in H. fold c in Hl, H.
  rewrite Hl, !andb_true_iff in H. destruct H as [[[[[H1 H2] H3] H4] H5] _].
  assert (forall shift c', decodes shift data c' = true -> kbdgetc KBS_DIB data shift = Ret c' shift) as Hdec.
  { intros shift c'. unfold decodes. destruct (kbdgetc KBS_DIB data shift) as [a b| | |]; try done.
    rewrite andb_true_iff, !Z.eqb_eq. by intros [-> ->]. }
  split_and!; by apply Hdec.
Qed.

(** Whatever bytes the keyboard sends, in whatever modifier state, its
    interrupt handler runs without a table access out of range, without a
    panic and without sleeping; the modifiers stay in their seven bits, every
    byte gives one character, and the console's input is left well formed:
    what those characters make of it. *)
Theorem kbdintr_type (codes : list Z) (shift : Z) (s : kx) (q ed : list Z) :
  Forall is_u8 codes -> 0 <= shift < 128 ->
  out_free s -> in_lock (inp (con s)) = false -> pt_lock s = false -> in_rep (inp (con s)) q ed ->
  exists cs shift' s',
    kbdintr codes shift s = Ret shift' s' /\
    kbd_chars codes shift = Ret cs shift' /\
    length cs = length codes /\ Forall (fun c => 0 <= c < 256) cs /\ 0 <= shift' < 128 /\
    out_free s' /\ in_lock (inp (con s')) = false /\ pt_lock s' = false /\
    in_rep (inp (con s')) (edits cs (q, ed)).1.1 (edits cs (q, ed)).1.2.
Proof.
  intros Hd Hs Ho Hl Hp Hr. destruct (kbd_chars_ok codes shift Hd Hs) as (cs & sh' & Hk & Hcs & Hlen & Hs').
  destruct (intr_edits cs s q ed Ho Hl Hp Hr Hcs) as (s' & out & Hrun & Hr' & Hl' & Ho' & _ & _ & Heq).
  exists cs, sh', s'. unfold kbdintr, bind. rewrite Hk, Hrun. split_and!; try done; [lia|lia|]. by rewrite Heq.
Qed.

(** Shift down, the key of 'a', Shift up and Enter type "A" and a newline. *)
Lemma kbdintr_type_witness :
  kbd_chars [42; 30; 170; 28] 0 = Ret [0; 65; 0; 10] 0 /\
  exists cs shift' s',
    kbdintr [42; 30; 170; 28] 0 (ConsoleW.c0 ConsoleW.in0) = Ret shift' s' /\
    kbd_chars [42; 30; 170; 28] 0 = Ret cs shift' /\
    length cs = length [42; 30; 170; 28] /\ Forall (fun c => 0 <= c < 256) cs /\ 0 <= shift' < 128 /\
    out_free s' /\ in_lock (inp (con s')) = false /\ pt_lock s' = false /\
    in_rep (inp (con s')) (edits cs ([], [])).1.1 (edits cs ([], [])).1.2.
Proof.
  split; [by vm_compute|]. apply (kbdintr_type [42; 30; 170; 28] 0 (ConsoleW.c0 ConsoleW.in0) [] []);
    [repeat constructor; unfold is_u8; lia|lia|apply ConsoleW.c0_free|done|done|apply ConsoleW.in0_rep].
Defined.
