(* ===== verification/Ide.v ===== *)
(** The interrupt-driven disk driver: ide.c.

    The requests form a list linked through [qnext], whose first buffer is the
    one the disk is working on.  [iderw] appends a buffer, starts the disk if
    it was idle and sleeps; each interrupt completes the first request, wakes
    its process and starts the next.  The drive is modelled as the driver
    addresses it: a register file behind the I/O ports 0x1f2 to 0x1f7, a command
    latched from it, and the sectors of two disks; its status byte is the one
    read at the end of a wait. *)

From S2P Require Import Prelude Params BlockDev.

(** ** The drive *)

Definition IDE_BSY : Z := 128.
Definition IDE_DRDY : Z := 64.
Definition IDE_DF : Z := 32.
Definition IDE_ERR : Z := 1.
Definition IDE_CMD_READ : Z := 32.
Definition IDE_CMD_WRITE : Z := 48.

(** A command: its code, the number of sectors, and the disk and sector that
    the registers name. *)
Record idecmd : Type := mkcmd { ic_code : Z; ic_count : Z; ic_key : Z * Z }.
Record idehw : Type := mkhw { regs : gmap Z Z; status : Z; latched : option idecmd; dsk : disk }.

Definition reg (h : idehw) (p : Z) : Z := default 0 (regs h !! p).

(** 28-bit addressing: three bytes and the low half of the drive register,
    whose bit 4 selects the disk. *)
Definition reg_key (h : idehw) : Z * Z :=
  (Z.land (Z.shiftr (reg h 502) 4) 1,
   Z.lor (reg h 499) (Z.lor (Z.shiftl (reg h 500) 8) (Z.lor (Z.shiftl (reg h 501) 16) (Z.shiftl (Z.land (reg h 502) 15) 24)))).

(** [outb(port, v)]; a byte in the command register (0x1f7 = 503) latches a
    command. *)
Definition hw_outb (p v : Z) (h : idehw) : idehw :=
  if p =? 503 then mkhw (regs h) (status h) (Some (mkcmd (u8 v) (reg h 498) (reg_key h))) (dsk h)
  else mkhw (<[p := u8 v]> (regs h)) (status h) (latched h) (dsk h).

(** [outsl(0x1f0, data, 128)]: the data of a write of one sector. *)
Definition hw_outsl (d : block) (h : idehw) : option idehw :=
  match latched h with
  | Some (mkcmd c n k) =>
      if (c =? IDE_CMD_WRITE) && (n =? 1) then Some (mkhw (regs h) (status h) (latched h) (disk_put k d (dsk h))) else None
  | None => None
  end.

(** [insl(0x1f0, data, 128)]: the data of a read of one sector. *)
Definition hw_insl (h : idehw) : option block :=
  match latched h with
  | Some (mkcmd c n k) => if (c =? IDE_CMD_READ) && (n =? 1) then Some (disk_get (dsk h) k) else None
  | None => None
  end.

(** ** The driver *)

(** The variables of ide.c and the buffers, with their links; [woken] are the
    buffers whose sleepers were woken, in order. *)
Record ide : Type := mkide {
  idelock : bool; idequeue : option nat; havedisk1 : bool;
  ibufs : list buf; qnext : list (option nat); hw : idehw; woken : list nat
}.
Definition zero_buf : buf := mkbuf 0 0 0 zero_block.
#[export] Instance ide_buf_inhabited : Inhabited buf := populate zero_buf.

Definition set_idelock (x : bool) (s : ide) : ide :=
  mkide x (idequeue s) (havedisk1 s) (ibufs s) (qnext s) (hw s) (woken s).
Definition set_idequeue (x : option nat) (s : ide) : ide :=
  mkide (idelock s) x (havedisk1 s) (ibufs s) (qnext s) (hw s) (woken s).
Definition set_havedisk1 (x : bool) (s : ide) : ide :=
  mkide (idelock s) (idequeue s) x (ibufs s) (qnext s) (hw s) (woken s).
Definition set_ibufs (x : list buf) (s : ide) : ide :=
  mkide (idelock s) (idequeue s) (havedisk1 s) x (qnext s) (hw s) (woken s).
Definition set_qnext (x : list (option nat)) (s : ide) : ide :=
  mkide (idelock s) (idequeue s) (havedisk1 s) (ibufs s) x (hw s) (woken s).
Definition set_hw (x : idehw) (s : ide) : ide :=
  mkide (idelock s) (idequeue s) (havedisk1 s) (ibufs s) (qnext s) x (woken s).
Definition set_woken (x : list nat) (s : ide) : ide :=
  mkide (idelock s) (idequeue s) (havedisk1 s) (ibufs s) (qnext s) (hw s) x.

Definition acquire_ide : M ide unit :=
  l <- gets idelock ;; if l then panic "acquire" else modify (set_idelock true).
Definition release_ide : M ide unit :=
  l <- gets idelock ;; if l then modify (set_idelock false) else panic "release".
Definition outb (p v : Z) : M ide unit := modify (fun s => set_hw (hw_outb p v (hw s)) s).
Definition get_buf (b : nat) : M ide buf := gets (fun s => ibufs s !!! b).
Definition upd_buf (b : nat) (f : buf -> buf) : M ide unit :=
  modify (fun s => set_ibufs (<[b := f (ibufs s !!! b)]> (ibufs s)) s).

(** ide.c [idewait]; a drive that is not ready makes it spin. *)
Definition idewait (checkerr : bool) : M ide Z :=
  r <- gets (fun s => status (hw s)) ;;
  if negb (Z.land r (Z.lor IDE_BSY IDE_DRDY) =? IDE_DRDY) then fault "idewait: not ready"
  else if checkerr && negb (Z.land r (Z.lor IDE_DF IDE_ERR) =? 0) then ret (-1)
  else ret 0.

(** ide.c [ideinit] without the interrupt controllers; [polls] are the status
    bytes read after disk 1 is selected. *)
Definition ideinit (polls : list Z) : M ide unit :=
  modify (set_idelock false) ;;
  idewait false ;;
  outb 502 (Z.lor 224 (Z.shiftl 1 4)) ;;
  when (existsb (fun x => negb (x =? 0)) (take 1000 polls)) (modify (set_havedisk1 true)) ;;
  outb 502 (Z.lor 224 (Z.shiftl 0 4)).

(** ide.c [idestart] on a buffer; the test for a null pointer is in the type. *)
Definition idestart (i : nat) : M ide unit :=
  idewait false ;;
  b <- get_buf i ;;
  outb 1014 0 ;;
  outb 498 1 ;;
  outb 499 (Z.land (sector b) 255) ;;
  outb 500 (Z.land (Z.shiftr (sector b) 8) 255) ;;
  outb 501 (Z.land (Z.shiftr (sector b) 16) 255) ;;
  outb 502 (Z.lor 224 (Z.lor (Z.shiftl (Z.land (dev b) 1) 4) (Z.land (Z.shiftr (sector b) 24) 15))) ;;
  if is_dirty b then
    outb 503 IDE_CMD_WRITE ;;
    h <- gets (fun s => hw_outsl (data b) (hw s)) ;;
    match h with
    | Some h => modify (set_hw h)
    | None => fault "outsl"
    end
  else outb 503 IDE_CMD_READ.

(** ide.c [ideintr] *)
Definition ideintr : M ide unit :=
  acquire_ide ;;
  q <- gets idequeue ;;
  match q with
  | None => release_ide
  | Some i =>
      n <- gets (fun s => qnext s !!! i) ;;
      modify (set_idequeue n) ;;
      b <- get_buf i ;;
      (if negb (is_dirty b) then
         r <- idewait true ;;
         if 0 <=? r then
           d <- gets (fun s => hw_insl (hw s)) ;;
           match d with
           | Some d => upd_buf i (set_data d)
           | None => fault "insl"
           end
         else ret tt
       else ret tt) ;;
      upd_buf i (fun b => set_flags (Z.lor (flags b) B_VALID) b) ;;
      upd_buf i (fun b => set_flags (Z.land (flags b) (Z.lnot B_DIRTY)) b) ;;
      modify (fun s => set_woken (woken s ++ [i]) s) ;;
      (match n with Some j => idestart j | None => ret tt end) ;;
      release_ide
  end.

(** The end of the queue from [i] on; the links do not form a cycle, so as many
    steps as there are buffers are enough. *)
Fixpoint last_from (fuel : nat) (qn : list (option nat)) (i : nat) : option nat :=
  match fuel with
  | O => None
  | S f => match qn !!! i with Some j => last_from f qn j | None => Some i end
  end.

Definition is_done (b : buf) : bool := Z.land (flags b) (Z.lor B_VALID B_DIRTY) =? B_VALID.

(** The loop at the end of ide.c [iderw], which a process woken up runs again. *)
Definition iderw_wait (i : nat) : M ide unit :=
  b <- get_buf i ;;
  if negb (is_done b) then modify (set_idelock false) ;; park (ChBuf i) else release_ide.
Definition iderw_resume (i : nat) : M ide unit := acquire_ide ;; iderw_wait i.

(** ide.c [iderw] *)
Definition iderw (i : nat) : M ide unit :=
  b <- get_buf i ;;
  if negb (is_busy b) then panic "iderw: buf not busy"
  else if is_done b then panic "iderw: nothing to do"
  else
  h <- gets havedisk1 ;;
  if negb (dev b =? 0) && negb h then panic "iderw: ide disk 1 not present" else
  acquire_ide ;;
  modify (fun s => set_qnext (<[i := None]> (qnext s)) s) ;;
  q <- gets idequeue ;;
  (match q with
   | None => modify (set_idequeue (Some i))
   | Some k =>
       qn <- gets qnext ;;
       match last_from (length qn) qn k with
       | Some j => modify (set_qnext (<[j := Some i]> qn))
       | None => fault "iderw: queue"
       end
   end) ;;
  q <- gets idequeue ;;
  (if bool_decide (q = Some i) then idestart i else ret tt) ;;
  iderw_wait i.
