(* ===== verification/IdeSpec.v ===== *)
(** The disk driver serves its requests in the order they were made, and is a
    block device in the sense of BlockDev: a simulation between the linked
    queue with the drive's registers and a list of buffers over a disk. *)

From S2P Require Import Prelude Params BlockDev Ide.

(** ** The registers name the sector *)

Lemma lor_shiftl_add a b n : 0 <= n -> 0 <= a < 2 ^ n -> Z.lor a (Z.shiftl b n) = a + b * 2 ^ n.
Proof.
  intros Hn Ha. rewrite <- Z.shiftl_mul_pow2 by done.
  assert (Z.land a (Z.shiftl b n) = 0) as H0.
  { apply Z.bits_inj'. intros k Hk. rewrite Z.land_spec, Z.bits_0, Z.shiftl_spec by done.
    destruct (decide (k < n)); [by rewrite (Z.testbit_neg_r b) by lia; apply andb_false_r|].
    rewrite <- (Z.mod_small a (2 ^ n)) by done. by rewrite Z.mod_pow2_bits_high by lia. }
  by rewrite Z.add_nocarry_lxor, Z.lxor_lor.
Qed.

Lemma land_255 x : u8 (Z.land x 255) = x mod 2 ^ 8.
Proof. change 255 with (Z.ones 8). unfold u8. by rewrite Z.land_ones, Z.mod_mod by lia. Qed.

Lemma lba_decode x : 0 <= x < 2 ^ 28 ->
  Z.lor (u8 (Z.land x 255))
    (Z.lor (Z.shiftl (u8 (Z.land (Z.shiftr x 8) 255)) 8)
       (Z.lor (Z.shiftl (u8 (Z.land (Z.shiftr x 16) 255)) 16) (Z.shiftl (Z.land (Z.shiftr x 24) 15) 24))) = x.
Proof.
  intros Hx. rewrite !land_255. change 15 with (Z.ones 4). rewrite Z.land_ones, !Z.shiftr_div_pow2 by lia.
  rewrite !Z.lor_assoc.
  pose proof (Z.mod_pos_bound x (2 ^ 8) ltac:(lia)). pose proof (Z.mod_pos_bound (x / 2 ^ 8) (2 ^ 8) ltac:(lia)).
  pose proof (Z.mod_pos_bound (x / 2 ^ 16) (2 ^ 8) ltac:(lia)).
  rewrite (lor_shiftl_add _ _ 8), (lor_shiftl_add _ _ 16), (lor_shiftl_add _ _ 24) by lia.
  pose proof (Z.div_mod x (2 ^ 8) ltac:(lia)). pose proof (Z.div_mod (x / 2 ^ 8) (2 ^ 8) ltac:(lia)) as E1.
  pose proof (Z.div_mod (x / 2 ^ 16) (2 ^ 8) ltac:(lia)) as E2. rewrite Z.div_div in E1, E2 by lia.
  rewrite (Z.mod_small (x / 2 ^ 24)).
  - change (2 ^ 8 * 2 ^ 8) with (2 ^ 16) in *. change (2 ^ 16 * 2 ^ 8) with (2 ^ 24) in *. lia.
  - split; [apply Z.div_pos; lia|]. apply Z.div_lt_upper_bound; lia.
Qed.

(** Sectors and disks the registers can name. *)
Definition ide_key (k : Z * Z) : Prop := (k.1 = 0 \/ k.1 = 1) /\ 0 <= k.2 < 2 ^ 28.

Lemma drive_reg d y : d = 0 \/ d = 1 -> 0 <= y < 16 ->
  Z.land (u8 (Z.lor 224 (Z.lor (Z.shiftl d 4) y))) 15 = y /\
  Z.land (Z.shiftr (u8 (Z.lor 224 (Z.lor (Z.shiftl d 4) y))) 4) 1 = d.
Proof.
  intros Hd Hy. assert (y = Z.of_nat (Z.to_nat y)) as E by lia. assert (Z.to_nat y < 16)%nat as Hn by lia. rewrite E. clear E Hy.
  revert Hn. generalize (Z.to_nat y). intros n Hn. do 16 (destruct n as [|n]; [by destruct Hd as [-> | ->]|]). lia.
Qed.

(** The command latched by the sequence of [idestart]. *)
Definition hw_request (b : buf) (h : idehw) : idehw :=
  hw_outb 502 (Z.lor 224 (Z.lor (Z.shiftl (Z.land (dev b) 1) 4) (Z.land (Z.shiftr (sector b) 24) 15)))
    (hw_outb 501 (Z.land (Z.shiftr (sector b) 16) 255)
      (hw_outb 500 (Z.land (Z.shiftr (sector b) 8) 255)
        (hw_outb 499 (Z.land (sector b) 255) (hw_outb 498 1 (hw_outb 1014 0 h))))).

Lemma hw_request_key b h : ide_key (bkey b) -> reg_key (hw_request b h) = bkey b /\ reg (hw_request b h) 498 = 1.
Proof.
  intros [Hd Hs]. cbn [bkey fst snd] in *. unfold reg_key, bkey, hw_request, reg, hw_outb. cbn [Z.eqb regs Pos.eqb].
  repeat (rewrite lookup_insert_eq || rewrite lookup_insert_ne by done). cbn [default from_option id].
  replace (Z.land (dev b) 1) with (dev b) by (by destruct Hd as [-> | ->]).
  assert (0 <= Z.land (Z.shiftr (sector b) 24) 15 < 16) as Hy.
  { change 15 with (Z.ones 4). rewrite Z.land_ones by lia. apply Z.mod_pos_bound. lia. }
  destruct (drive_reg (dev b) _ Hd Hy) as [E1 E2]. rewrite E1, E2, lba_decode by lia. done.
Qed.

(** ** Starting the disk *)

Definition no_error (h : idehw) : Prop :=
  Z.land (status h) (Z.lor IDE_BSY IDE_DRDY) = IDE_DRDY /\ Z.land (status h) (Z.lor IDE_DF IDE_ERR) = 0.
Definition ready (h : idehw) : Prop := Z.land (status h) (Z.lor IDE_BSY IDE_DRDY) = IDE_DRDY.

Definition cmd_of (b : buf) : idecmd := mkcmd (if is_dirty b then IDE_CMD_WRITE else IDE_CMD_READ) 1 (bkey b).
(** The disk once the drive has the command and its data. *)
Definition disk_with (b : buf) (d : disk) : disk := if is_dirty b then disk_put (bkey b) (data b) d else d.
Definition started (b : buf) (h : idehw) : idehw :=
  mkhw (regs (hw_request b h)) (status h) (Some (cmd_of b)) (disk_with b (dsk h)).

Lemma idewait_ready c s : no_error (hw s) -> idewait c s = Ret 0 s.
Proof. intros [H1 H2]. unfold idewait, bind, gets. rewrite H1, H2. by destruct c. Qed.

Lemma idewait_false s : ready (hw s) -> idewait false s = Ret 0 s.
Proof. intros H1. unfold idewait, bind, gets. by rewrite H1. Qed.

Lemma idestart_ret i s : ready (hw s) -> ide_key (bkey (ibufs s !!! i)) ->
  idestart i s = Ret tt (set_hw (started (ibufs s !!! i) (hw s)) s).
Proof.
  intros Hr Hk. destruct (hw_request_key (ibufs s !!! i) (hw s) Hk) as [E1 E2].
  unfold idestart, bind at 1. rewrite idewait_false by done. unfold started, cmd_of, disk_with.
  unfold bind, get_buf, gets, outb, modify. destruct (is_dirty (ibufs s !!! i)).
  - cbn [set_hw hw]. fold (hw_request (ibufs s !!! i) (hw s)). unfold hw_outb at 1. cbn [Z.eqb Pos.eqb].
    rewrite E1, E2. unfold hw_outsl. cbn [latched]. done.
  - cbn [set_hw hw]. fold (hw_request (ibufs s !!! i) (hw s)). unfold hw_outb at 1. cbn [Z.eqb Pos.eqb].
    rewrite E1, E2. done.
Qed.

(** ** The abstract disk: a queue of buffers *)

Record adisk : Type := mka { a_disk : disk; a_q : list nat; a_bufs : list buf }.

Definition finish (b : buf) : buf := set_flags (Z.land (Z.lor (flags b) B_VALID) (Z.lnot B_DIRTY)) b.
(** The request of a buffer served: a dirty one is written, another is read. *)
Definition serve (b : buf) (d : disk) : buf :=
  finish (if is_dirty b then b else set_data (disk_get d (bkey b)) b).

Definition a_request (i : nat) (a : adisk) : adisk := mka (a_disk a) (a_q a ++ [i]) (a_bufs a).
Definition a_interrupt (a : adisk) : adisk :=
  match a_q a with
  | [] => a
  | i :: q =>
      let b := a_bufs a !!! i in
      mka (disk_with b (a_disk a)) q (<[i := serve b (a_disk a)]> (a_bufs a))
  end.

(** A buffer that may be given to [iderw]. *)
Record request_ok (s : ide) (i : nat) : Prop := {
  ro_in : (i < length (ibufs s))%nat;
  ro_busy : is_busy (ibufs s !!! i) = true;
  ro_todo : is_done (ibufs s !!! i) = false;
  ro_key : ide_key (bkey (ibufs s !!! i));
  ro_disk : dev (ibufs s !!! i) = 0 \/ havedisk1 s = true
}.

(** The links follow the list. *)
Definition chain (qn : list (option nat)) (q : list nat) : Prop :=
  forall k i, q !! k = Some i -> qn !! i = Some (q !! S k).

Record ide_rep (s : ide) (a : adisk) : Prop := {
  ie_lock : idelock s = false;
  ie_bufs : ibufs s = a_bufs a;
  ie_links : length (qnext s) = length (ibufs s);
  ie_head : idequeue s = head (a_q a);
  ie_chain : chain (qnext s) (a_q a);
  ie_nodup : NoDup (a_q a);
  ie_ok : Forall (request_ok s) (a_q a);
  ie_hw : no_error (hw s);
  ie_active : match a_q a with
              | [] => dsk (hw s) = a_disk a
              | i :: _ => latched (hw s) = Some (cmd_of (ibufs s !!! i)) /\
                          dsk (hw s) = disk_with (ibufs s !!! i) (a_disk a)
              end
}.

(** ** Appending *)

Lemma last_from_chain qn q : chain qn q -> forall n k i, q !! k = Some i -> (length q <= n + k)%nat ->
  last_from n qn i = last q.
Proof.
  intros Hch. induction n as [|n IH]; intros k i Hk Hn.
  { apply lookup_lt_Some in Hk. lia. }
  cbn [last_from]. pose proof (Hch _ _ Hk) as Hi. rewrite (list_lookup_total_correct _ _ _ Hi).
  destruct (q !! S k) as [j|] eqn:Ej.
  - by apply (IH (S k)); [|lia].
  - rewrite last_lookup. apply lookup_ge_None in Ej. apply lookup_lt_Some in Hk as Hlt. replace (pred (length q)) with k by lia. done.
Qed.

Lemma chain_append qn q j i : chain qn (q ++ [j]) -> NoDup (q ++ [j]) -> i ∉ q ++ [j] ->
  (i < length qn)%nat -> chain (<[j := Some i]> (<[i := None]> qn)) ((q ++ [j]) ++ [i]).
Proof.
  intros Hch Hnd Hni Hi k x Hk. apply lookup_app_Some in Hk as [Hk|[Hge Hk]].
  - assert (x ∈ q ++ [j]) as Hx by (by eapply list_elem_of_lookup_2). assert (x <> i) as Hxi by (intros ->; done).
    pose proof (Hch _ _ Hk) as Hx2. pose proof (lookup_lt_Some _ _ _ Hk) as Hlt. rewrite length_app in Hlt. cbn [length] in Hlt.
    destruct (decide (k = length q)) as [->|Hne].
    + rewrite lookup_app_r in Hk by lia. rewrite Nat.sub_diag in Hk. cbn in Hk. injection Hk as <-.
      apply lookup_lt_Some in Hx2. rewrite list_lookup_insert_eq by (by rewrite length_insert).
      rewrite lookup_app_r by (rewrite length_app; cbn [length]; lia). rewrite length_app. cbn [length].
      by replace (S (length q) - (length q + 1))%nat with 0%nat by lia.
    + assert (x <> j) as Hxj.
      { intros ->. assert ((q ++ [j]) !! length q = Some j) as H2 by (rewrite lookup_app_r, Nat.sub_diag by lia; done).
        pose proof (NoDup_lookup _ _ _ _ Hnd Hk H2). lia. }
      rewrite !list_lookup_insert_ne by done. rewrite Hx2. f_equal.
      rewrite (lookup_app_l _ [i]); [done|]. rewrite length_app. cbn [length]. lia.
  - apply list_lookup_singleton_Some in Hk as [Hk <-]. assert (i <> j) as Hij by (intros ->; apply Hni; set_solver).
    rewrite list_lookup_insert_ne, list_lookup_insert_eq by done. f_equal. symmetry. apply lookup_ge_None.
    rewrite !length_app in *. cbn [length] in *. lia.
Qed.

Lemma chain_single qn i : (i < length qn)%nat -> chain (<[i := None]> qn) [i].
Proof. intros Hi k x Hk. apply list_lookup_singleton_Some in Hk as [-> <-]. by rewrite list_lookup_insert_eq. Qed.

Lemma chain_other qn q i : chain qn q -> i ∉ q -> chain (<[i := None]> qn) q.
Proof.
  intros Hch Hi k x Hk. rewrite list_lookup_insert_ne; [by apply Hch|]. intros ->. apply Hi. by eapply list_elem_of_lookup_2.
Qed.

Lemma request_ok_same s s' i : ibufs s' = ibufs s -> havedisk1 s' = havedisk1 s -> request_ok s i -> request_ok s' i.
Proof. intros Hb Hh [H1 H2 H3 H4 H5]. split; rewrite ?Hb, ?Hh; done. Qed.

Lemma no_error_ready h : no_error h -> ready h.
Proof. by intros [? _]. Qed.

(** The state in which [iderw] goes to sleep. *)
Lemma iderw_wait_sleep i s : is_done (ibufs s !!! i) = false -> iderw_wait i s = Sleep (ChBuf i) (set_idelock false s).
Proof. intros Hd. unfold iderw_wait, bind, get_buf, gets. by rewrite Hd. Qed.

(** The checks of [iderw] pass. *)
Lemma iderw_checks s i : request_ok s i -> idelock s = false ->
  iderw i s = (modify (fun s => set_qnext (<[i := None]> (qnext s)) s) ;;
    q <- gets idequeue ;;
    (match q with
     | None => modify (set_idequeue (Some i))
     | Some k =>
         qn <- gets qnext ;;
         match last_from (length qn) qn k with
         | Some j => modify (set_qnext (<[j := Some i]> qn))
         | None => fault "iderw: queue"
         end
     end) ;;
    q <- gets idequeue ;;
    (if bool_decide (q = Some i) then idestart i else ret tt) ;;
    iderw_wait i) (set_idelock true s).
Proof.
  intros [H1 H2 H3 H4 H5] Hl. unfold iderw. unfold bind at 1, get_buf, gets at 1. rewrite H2, H3. cbn [negb].
  unfold bind at 1, gets at 1. replace (negb (dev (ibufs s !!! i) =? 0) && negb (havedisk1 s)) with false.
  - unfold bind at 1, acquire_ide, bind at 1, gets at 1. by rewrite Hl.
  - symmetry. destruct H5 as [-> | ->]; [done|]. apply andb_false_r.
Qed.

Lemma iderw_rep s a i : ide_rep s a -> request_ok s i -> i ∉ a_q a ->
  exists s', iderw i s = Sleep (ChBuf i) s' /\ ide_rep s' (a_request i a).
Proof.
  intros [E1 E2 E3 E4 E5 E6 E7 E8 E9] Hok Hni. pose proof Hok as [H1 H2 H3 H4 H5]. rewrite iderw_checks by done.
  unfold bind, modify, gets at 1. cbn [idequeue set_qnext set_idelock]. rewrite E4.
  destruct (a_q a) as [|k q'] eqn:Eq; cbn [head].
  - cbn [set_idequeue idequeue gets]. unfold gets. cbn [idequeue set_idequeue]. rewrite bool_decide_true by done.
    rewrite idestart_ret by (cbn; by try apply no_error_ready). rewrite iderw_wait_sleep by done.
    eexists. split; [done|]. unfold a_request. rewrite Eq. cbn [app]. split; cbn.
    + done.
    + done.
    + by rewrite length_insert.
    + done.
    + apply chain_single. by rewrite E3.
    + apply NoDup_singleton.
    + constructor; [|constructor]. by eapply request_ok_same; [..|exact Hok].
    + done.
    + by rewrite E9.
  - unfold gets. cbn [qnext set_qnext set_idelock]. rewrite length_insert.
    assert (last_from (length (qnext s)) (<[i:=None]> (qnext s)) k = last (k :: q')) as Hlast.
    { apply last_from_chain with 0%nat; [by apply chain_other|done|].
      assert (length (k :: q') <= length (qnext s))%nat; [|lia]. rewrite E3.
      rewrite <- (length_seq (length (ibufs s)) 0). apply NoDup_incl_length; [by apply NoDup_ListNoDup|].
      intros x Hx. apply in_seq. rewrite Forall_forall in E7. apply list_elem_of_In in Hx. specialize (E7 _ Hx). destruct E7. lia. }
    rewrite Hlast. clear Hlast. destruct (last (k :: q')) as [j|] eqn:Ej; [|by apply last_None in Ej].
    apply last_Some in Ej as [l Hl]. unfold ret. cbn [idequeue set_qnext set_idelock]. rewrite E4. cbn [head].
    rewrite bool_decide_false by (intros [= ->]; set_solver). rewrite iderw_wait_sleep by done.
    eexists. split; [done|]. unfold a_request. rewrite Eq. split; cbn.
    + done.
    + done.
    + by rewrite !length_insert.
    + done.
    + change (k :: q' ++ [i]) with ((k :: q') ++ [i]). rewrite Hl in *. apply chain_append; [done|done|done|by rewrite E3].
    + change (k :: q' ++ [i]) with ((k :: q') ++ [i]). apply NoDup_app. split_and!; [done|set_solver|apply NoDup_singleton].
    + change (k :: q' ++ [i]) with ((k :: q') ++ [i]). apply Forall_app. split; [|constructor; [|constructor]].
      * eapply Forall_impl; [exact E7|]. intros x Hx. by eapply request_ok_same; [..|exact Hx].
      * by eapply request_ok_same; [..|exact Hok].
    + done.
    + done.
Qed.

(** ** Interrupts *)

Lemma seq_assoc {S A B C} (m : M S A) (k1 : M S B) (k2 : M S C) s : (m ;; k1 ;; k2) s = ((m ;; k1) ;; k2) s.
Proof. unfold bind. by destruct (m s). Qed.

(** The two updates of the flags. *)
Lemma finish_flags i s (Hi : (i < length (ibufs s))%nat) :
  (upd_buf i (fun b => set_flags (Z.lor (flags b) B_VALID) b) ;;
   upd_buf i (fun b => set_flags (Z.land (flags b) (Z.lnot B_DIRTY)) b)) s
  = Ret tt (set_ibufs (<[i := finish (ibufs s !!! i)]> (ibufs s)) s).
Proof.
  unfold bind, upd_buf, modify. cbn [ibufs set_ibufs]. rewrite list_lookup_total_insert_eq by done.
  rewrite list_insert_insert_eq. done.
Qed.

(** The data of a read. *)
Lemma read_data i s : no_error (hw s) -> latched (hw s) = Some (cmd_of (ibufs s !!! i)) -> (i < length (ibufs s))%nat ->
  (if negb (is_dirty (ibufs s !!! i)) then
     r <- idewait true ;;
     if 0 <=? r then
       d <- gets (fun s => hw_insl (hw s)) ;;
       match d with Some d => upd_buf i (set_data d) | None => fault "insl" end
     else ret tt
   else ret tt) s
  = Ret tt (set_ibufs (<[i := if is_dirty (ibufs s !!! i) then ibufs s !!! i
                              else set_data (disk_get (dsk (hw s)) (bkey (ibufs s !!! i))) (ibufs s !!! i)]> (ibufs s)) s).
Proof.
  intros He Hl Hi. destruct (is_dirty (ibufs s !!! i)) eqn:Ed; cbn [negb].
  - unfold ret. rewrite list_insert_id; [by destruct s|]. by apply list_lookup_lookup_total_lt.
  - unfold bind. rewrite idewait_ready by done. cbn [Z.leb Z.compare]. unfold gets, hw_insl. rewrite Hl. unfold cmd_of. rewrite Ed.
    done.
Qed.

Lemma serve_key b d : bkey (serve b d) = bkey b /\ is_busy (serve b d) = is_busy b /\ is_done (serve b d) = true.
Proof.
  unfold serve, finish, is_done. destruct (is_dirty b); cbn; rewrite valid_only_test; unfold is_busy; cbn;
    rewrite !testf_clear_other, testf_clear_same, !testf_lor by done; rewrite orb_false_r, orb_true_r; done.
Qed.

Lemma ideintr_rep s a : ide_rep s a ->
  exists s', ideintr s = Ret tt s' /\ ide_rep s' (a_interrupt a) /\ woken s' = woken s ++ take 1 (a_q a).
Proof.
  intros [E1 E2 E3 E4 E5 E6 E7 E8 E9]. unfold ideintr, bind at 1, acquire_ide, bind at 1, gets at 1. rewrite E1.
  unfold modify at 1, bind at 1, gets at 1. cbn [idequeue set_idelock]. rewrite E4. unfold a_interrupt.
  destruct (a_q a) as [|i q] eqn:Eq; cbn [head].
  { eexists. unfold release_ide, bind, gets. cbn [idelock set_idelock]. split; [done|].
    split; [|cbn; by rewrite app_nil_r]. split; rewrite ?Eq; cbn; try done. }
  apply Forall_cons in E7 as [[R1 R2 R3 R4 R5] E7]. apply NoDup_cons in E6 as [Hni E6]. destruct E9 as [E9 E9'].
  pose proof (E5 0%nat i eq_refl) as Hnext. change ((i :: q) !! 1%nat) with (q !! 0%nat) in Hnext. rewrite <- head_lookup in Hnext.
  unfold bind at 1, gets at 1. cbn [qnext set_idelock]. rewrite (list_lookup_total_correct _ _ _ Hnext).
  unfold bind at 1, modify at 1. unfold bind at 1, get_buf at 1, gets at 1. cbn [ibufs set_idequeue set_idelock].
  set (s1 := set_idequeue (head q) (set_idelock true s)).
  unfold bind at 1. change (ibufs s !!! i) with (ibufs s1 !!! i). rewrite (read_data i s1) by done.
  change (ibufs s1) with (ibufs s). set (b := ibufs s !!! i) in *. change (hw s1) with (hw s).
  set (d := if is_dirty b then b else set_data (disk_get (dsk (hw s)) (bkey b)) b).
  set (s2 := set_ibufs _ s1). rewrite (seq_assoc (upd_buf i _) (upd_buf i _)).
  unfold bind at 1. rewrite finish_flags by (cbn; by rewrite length_insert).
  cbn [ibufs s2 set_ibufs]. rewrite list_lookup_total_insert_eq, list_insert_insert_eq by done.
  assert (finish d = serve b (a_disk a)) as ->.
  { unfold serve, d. destruct (is_dirty b) eqn:Ed; [done|]. rewrite E9'. unfold disk_with. by rewrite Ed. }
  unfold bind at 1, modify at 1. set (s3 := set_woken _ _).
  assert (forall j, j ∈ q -> ibufs s3 !!! j = ibufs s !!! j) as Hother.
  { intros j Hj. cbn. apply list_lookup_total_insert_ne. intros ->. done. }
  assert (Forall (request_ok s3) q) as Hq3.
  { rewrite Forall_forall in *. intros j Hj. destruct (E7 j Hj) as [Q1 Q2 Q3 Q4 Q5]. pose proof (Hother j Hj) as Hj'.
    split; rewrite ?Hj'; try done. cbn. by rewrite length_insert. }
  exists (set_idelock false (match head q with Some j => set_hw (started (ibufs s3 !!! j) (hw s)) s3 | None => s3 end)).
  split_and!.
  - destruct q as [|j q]; cbn [head]; [done|]. apply Forall_cons in Hq3 as [[Q1 Q2 Q3 Q4 Q5] _]. unfold bind at 1.
    rewrite idestart_ret; [done|by apply no_error_ready|done].
  - rewrite <- E2. fold b. destruct q as [|j q]; cbn [head].
    + split; cbn; try done; by rewrite length_insert.
    + split; cbn; try done; [by rewrite length_insert| | |].
      * intros k x Hk. by apply (E5 (S k)).
      * eapply Forall_impl; [exact Hq3|]. intros x Hx. by eapply request_ok_same; [..|exact Hx].
      * by rewrite E9'.
  - by destruct q.
Qed.

Lemma resume_rep s a i : ide_rep s a ->
  iderw_resume i s = if is_done (a_bufs a !!! i) then Ret tt s else Sleep (ChBuf i) s.
Proof.
  intros [E1 E2 _ _ _ _ _ _ _]. unfold iderw_resume, bind at 1, acquire_ide, bind at 1, gets at 1. rewrite E1. unfold modify.
  unfold iderw_wait, bind, get_buf, gets. cbn [ibufs set_idelock]. rewrite E2.
  destruct (is_done (a_bufs a !!! i)); cbn [negb]; destruct s; cbn in *; by subst.
Qed.

(** C16: the driver refines a first-in first-out queue of requests over a
    disk.  [iderw] appends its buffer and sleeps on it; an interrupt serves the
    oldest request, writing a dirty buffer to the sector it names or filling
    another from it, wakes that request's process and no other, and is ignored
    when nothing is queued; a process that wakes returns if its buffer is
    served and sleeps on otherwise.  The drive reports no error. *)
Theorem ide_refines (s : ide) (a : adisk) : ide_rep s a ->
  (forall i, request_ok s i -> i ∉ a_q a ->
     exists s', iderw i s = Sleep (ChBuf i) s' /\ ide_rep s' (a_request i a)) /\
  (exists s', ideintr s = Ret tt s' /\ ide_rep s' (a_interrupt a) /\ woken s' = woken s ++ take 1 (a_q a)) /\
  (forall i, iderw_resume i s = if is_done (a_bufs a !!! i) then Ret tt s else Sleep (ChBuf i) s).
Proof.
  intros Hr. split_and!; [|by apply ideintr_rep|].
  - intros i. by apply iderw_rep.
  - intros i. by apply resume_rep.
Qed.

(** ** All requests are served *)

(** The disk after the requests [q], and the buffers. *)
Definition disk_after (bufs : list buf) (q : list nat) (d : disk) : disk :=
  foldl (fun d i => disk_with (bufs !!! i) d) d q.

(** The requests in the order of the links. *)
Fixpoint queue_from (n : nat) (qn : list (option nat)) (o : option nat) : list nat :=
  match n, o with
  | S n', Some i => i :: queue_from n' qn (qn !!! i)
  | _, _ => []
  end.
Definition waiting (s : ide) : list nat := queue_from (length (qnext s)) (qnext s) (idequeue s).

Lemma queue_from_chain qn q : chain qn q -> forall n k, (length q <= n + k)%nat -> queue_from n qn (q !! k) = drop k q.
Proof.
  intros Hch. induction n as [|n IH]; intros k Hn; cbn [queue_from]; [by rewrite drop_ge by lia|].
  destruct (q !! k) as [i|] eqn:Ek; [|by rewrite drop_ge by (by apply lookup_ge_None)].
  rewrite (list_lookup_total_correct _ _ _ (Hch _ _ Ek)), (IH (S k)) by lia. by rewrite (drop_S _ _ _ Ek).
Qed.

Lemma waiting_rep s a : ide_rep s a -> waiting s = a_q a.
Proof.
  intros R. unfold waiting. rewrite (ie_head _ _ R), head_lookup, (queue_from_chain _ (a_q a) (ie_chain _ _ R)); [done|].
  rewrite (ie_links _ _ R), Nat.add_0_r, <- (length_seq (length (ibufs s)) 0). apply NoDup_incl_length; [apply NoDup_ListNoDup, R|].
  intros x Hx. apply in_seq. pose proof (ie_ok _ _ R) as Ho. rewrite Forall_forall in Ho. apply list_elem_of_In in Hx.
  destruct (Ho x Hx). lia.
Qed.

(** What goes on around a request: [n] interrupts, and any number of further
    requests; the processes may also do what they like to buffers that are not
    waiting. *)
Inductive ide_run : nat -> ide -> ide -> Prop :=
| ir_end s : ide_run 0 s s
| ir_request n s i c s1 s2 : request_ok s i -> i ∉ waiting s -> iderw i s = Sleep c s1 -> ide_run n s1 s2 -> ide_run n s s2
| ir_interrupt n s s1 s2 : ideintr s = Ret tt s1 -> ide_run n s1 s2 -> ide_run (S n) s s2
| ir_buffers n s l s2 : length l = length (ibufs s) -> (forall i, i ∈ waiting s -> l !!! i = ibufs s !!! i) ->
    ide_run n (set_ibufs l s) s2 -> ide_run n s s2.

Lemma disk_after_ext bufs bufs' l : forall d, (forall i, i ∈ l -> bufs' !!! i = bufs !!! i) -> disk_after bufs' l d = disk_after bufs l d.
Proof.
  induction l as [|i l IH]; intros d H; [done|]. cbn [disk_after foldl]. rewrite (H i) by (by left).
  apply IH. intros j Hj. apply H. by right.
Qed.

Lemma buffers_rep s a l : ide_rep s a -> length l = length (ibufs s) -> (forall i, i ∈ a_q a -> l !!! i = ibufs s !!! i) ->
  ide_rep (set_ibufs l s) (mka (a_disk a) (a_q a) l).
Proof.
  intros [E1 E2 E3 E4 E5 E6 E7 E8 E9] Hl Hsame. split; cbn; try done; [congruence| |].
  - rewrite Forall_forall in *. intros i Hi. destruct (E7 i Hi) as [Q1 Q2 Q3 Q4 Q5].
    split; cbn; rewrite ?Hsame by done; try done. by rewrite Hl.
  - destruct (a_q a) as [|i q]; [done|]. by rewrite Hsame by (by left).
Qed.

(** After [n] interrupts the request that had [n] before it is the oldest. *)
Lemma run_to_head n s s1 : ide_run n s s1 -> forall a i, ide_rep s a -> a_q a !! n = Some i ->
  exists a1, ide_rep s1 a1 /\ head (a_q a1) = Some i /\ a_bufs a1 !!! i = a_bufs a !!! i /\
    a_disk a1 = disk_after (a_bufs a) (take n (a_q a)) (a_disk a).
Proof.
  induction 1 as [s|n s j c s1 s2 Hok Hj Hrun _ IH|n s s1 s2 Hrun _ IH|n s l s2 Hl Hsame _ IH]; intros a i R Hi.
  - exists a. by rewrite head_lookup.
  - rewrite (waiting_rep s a R) in Hj. destruct (iderw_rep s a j R Hok Hj) as (s1' & E & R1).
    rewrite E in Hrun. injection Hrun as <- <-. pose proof (lookup_lt_Some _ _ _ Hi).
    destruct (IH (a_request j a) i R1) as (a1 & ? & ? & ? & ?); [cbn; by rewrite lookup_app_l|].
    exists a1. split_and!; try done. cbn in *. by rewrite take_app_le in * by lia.
  - destruct (ideintr_rep s a R) as (s1' & E & R1 & _). rewrite E in Hrun. injection Hrun as <-.
    unfold a_interrupt in R1. destruct (a_q a) as [|j q] eqn:Eq; [done|].
    pose proof (ie_nodup _ _ R) as Hnd. rewrite Eq in Hnd. apply NoDup_cons in Hnd as [Hnj _].
    destruct (IH _ i R1 Hi) as (a1 & H1 & H2 & H3 & H4). exists a1. cbn [a_bufs a_disk a_q] in *. split_and!; [done|done| |].
    + rewrite H3. apply list_lookup_total_insert_ne. intros ->. apply Hnj. by eapply list_elem_of_lookup_2.
    + rewrite H4. cbn [take disk_after foldl]. apply disk_after_ext. intros x Hx%subseteq_take.
      apply list_lookup_total_insert_ne. by intros ->.
  - assert (forall x, x ∈ a_q a -> l !!! x = ibufs s !!! x) as Hq by (by rewrite <- (waiting_rep s a R)).
    destruct (IH _ i (buffers_rep s a l R Hl Hq) Hi) as (a1 & H1 & H2 & H3 & H4). exists a1. cbn [a_bufs a_disk a_q] in *.
    rewrite (ie_bufs _ _ R) in Hq. split_and!; [done|done| |].
    + rewrite H3. apply Hq. by eapply list_elem_of_lookup_2.
    + rewrite H4. apply disk_after_ext. intros x Hx%subseteq_take. by apply Hq.
Qed.

(** C35: every request is served, in its turn.  A request with [n] before it
    waits through the next [n] interrupts, whatever further requests are made and
    whatever happens to other buffers in between; the interrupt after them
    serves it: its buffer then holds what a disk that carries out the requests
    before it, in order, gives it, its process and no other is woken, and its
    call of [iderw] returns.  The drive reports no error. *)
Theorem ide_serves (s s1 : ide) (a : adisk) n i : ide_rep s a -> a_q a !! n = Some i -> ide_run n s s1 ->
  iderw_resume i s1 = Sleep (ChBuf i) s1 /\
  exists s2, ideintr s1 = Ret tt s2 /\ woken s2 = woken s1 ++ [i] /\ iderw_resume i s2 = Ret tt s2 /\
    ibufs s2 !!! i = serve (ibufs s !!! i) (disk_after (ibufs s) (take n (waiting s)) (a_disk a)).
Proof.
  intros R Hi Hrun. destruct (run_to_head n s s1 Hrun a i R Hi) as (a1 & R1 & Hh & Hb & Hd).
  destruct (ideintr_rep s1 a1 R1) as (s2 & E2 & R2 & Hw). pose proof (ie_ok _ _ R1) as Ho. unfold a_interrupt in R2.
  destruct (a_q a1) as [|j q] eqn:Eq; [done|]. injection Hh as ->. apply Forall_cons in Ho as [[Q1 Q2 Q3 Q4 Q5] _]. split.
  - rewrite (resume_rep s1 a1 i R1), <- (ie_bufs _ _ R1). by rewrite Q3.
  - assert (ibufs s2 !!! i = serve (a_bufs a1 !!! i) (a_disk a1)) as Ei.
    { rewrite (ie_bufs _ _ R2). cbn. apply list_lookup_total_insert_eq. by rewrite <- (ie_bufs _ _ R1). }
    exists s2. split_and!; [done|done| |].
    + rewrite (resume_rep s2 _ i R2), <- (ie_bufs _ _ R2), Ei. by destruct (serve_key (a_bufs a1 !!! i) (a_disk a1)) as (_ & _ & ->).
    + by rewrite Ei, Hb, Hd, (waiting_rep s a R), (ie_bufs _ _ R).
Qed.

(** ** The driver is a block device *)

(** The driver, idle, with one buffer. *)
Definition idle (b : buf) (d : disk) : ide :=
  mkide false None true [b] [None] (mkhw ∅ IDE_DRDY None d) [].

(** A whole call of [iderw] while no other request is queued: the request, its
    interrupt, and the end of the call. *)
Definition iderw_sync (b : buf) : M disk buf := fun d =>
  match (iderw 0) (idle b d) with
  | Sleep _ s =>
      match (ideintr ;; iderw_resume 0) s with
      | Ret _ s => Ret (ibufs s !!! 0%nat) (dsk (hw s))
      | Panic msg s => Panic msg (dsk (hw s))
      | Sleep c s => Sleep c (dsk (hw s))
      | Fault msg s => Fault msg (dsk (hw s))
      end
  | Ret _ s => Ret (ibufs s !!! 0%nat) (dsk (hw s))
  | Panic msg s => Panic msg (dsk (hw s))
  | Fault msg s => Fault msg (dsk (hw s))
  end.

Lemma idle_rep b d : ide_rep (idle b d) (mka d [] [b]).
Proof. split; try done. apply NoDup_nil. done. Qed.

Lemma iderw_sync_ret b d : is_busy b = true -> is_done b = false -> ide_key (bkey b) ->
  iderw_sync b d = Ret (serve b d) (disk_with b d).
Proof.
  intros Hb Hd Hk. assert (request_ok (idle b d) 0) as Hok by (split; cbn; auto with lia).
  destruct (iderw_rep _ _ 0 (idle_rep b d) Hok) as (s1 & H1 & R1); [apply not_elem_of_nil|].
  destruct (ideintr_rep _ _ R1) as (s2 & H2 & R2 & _). unfold iderw_sync. rewrite H1. unfold bind. rewrite H2.
  rewrite (resume_rep _ _ 0 R2). cbn [a_interrupt a_request a_q app a_bufs lookup_total list_lookup_total insert list_insert].
  destruct (serve_key b d) as (_ & _ & Hs). cbn in Hs |- *. unfold a_interrupt in R2. cbn in R2. rewrite Hs.
  destruct R2 as [_ E2 _ _ _ _ _ _ E9]. cbn in E2, E9. by rewrite E2, E9.
Qed.

Lemma serve_flags b d : is_busy (serve b d) = is_busy b /\ is_valid (serve b d) = true /\ is_dirty (serve b d) = false.
Proof.
  destruct (serve_key b d) as (_ & Hb & Hd). split; [done|]. unfold is_done in Hd. rewrite valid_only_test in Hd.
  apply andb_true_iff in Hd as [H1 H2%negb_true_iff]. done.
Qed.

#[export] Instance ide_dev : BlockDev.
Proof.
  refine {| BlockDev.iderw := iderw_sync; on_device := ide_key |}.
  - intros b d Hb. unfold iderw_sync, iderw, bind at 1, get_buf, gets. cbn [ibufs idle lookup_total list_lookup_total]. by rewrite Hb.
  - intros b d Hb Hv Hd. unfold iderw_sync, iderw, bind at 1, get_buf, gets. cbn [ibufs idle lookup_total list_lookup_total].
    rewrite Hb. unfold is_done. rewrite valid_only_test. unfold is_valid, is_dirty in *. by rewrite Hv, Hd.
  - intros b d Hb Hd Hk _. exists (serve b d). rewrite iderw_sync_ret; [|done| |done].
    + unfold disk_with. rewrite Hd. split; [done|]. destruct (serve_flags b d) as (-> & -> & ->).
      destruct (serve_key b d) as (-> & _). unfold serve. by rewrite Hd.
    + unfold is_done. rewrite valid_only_test. unfold is_dirty in Hd. by rewrite Hd, andb_false_r.
  - intros b d Hb Hd Hv Hk _ _. exists (serve b d). rewrite iderw_sync_ret; [|done| |done].
    + unfold disk_with. rewrite Hd. split; [done|]. destruct (serve_flags b d) as (-> & -> & ->).
      destruct (serve_key b d) as (-> & _). unfold serve. by rewrite Hd.
    + unfold is_done. rewrite valid_only_test. unfold is_valid in Hv. by rewrite Hv.
Defined.

(** ** A read that fails *)

Lemma finish_done b : is_done (finish b) = true /\ is_valid (finish b) = true.
Proof.
  unfold is_done, finish, is_valid. rewrite valid_only_test. cbn [flags set_flags].
  rewrite !testf_clear_other, testf_clear_same, !testf_lor by done. by rewrite orb_true_r.
Qed.

Lemma idewait_error s : ready (hw s) -> Z.land (status (hw s)) (Z.lor IDE_DF IDE_ERR) <> 0 -> idewait true s = Ret (-1) s.
Proof. intros Hr He. unfold idewait, bind, gets. rewrite Hr. by rewrite (proj2 (Z.eqb_neq _ _) He). Qed.

Lemma read_data_error i s : ready (hw s) -> Z.land (status (hw s)) (Z.lor IDE_DF IDE_ERR) <> 0 ->
  (if negb (is_dirty (ibufs s !!! i)) then
     r <- idewait true ;;
     if 0 <=? r then
       d <- gets (fun s => hw_insl (hw s)) ;;
       match d with Some d => upd_buf i (set_data d) | None => fault "insl" end
     else ret tt
   else ret tt) s = Ret tt s.
Proof. intros Hr He. destruct (is_dirty _); [done|]. cbn [negb]. unfold bind at 1. by rewrite idewait_error. Qed.

(** The driver takes a failed read for a success.  When the drive reports
    an error (a status with the fault or error bit) for a read that is the
    only request, the interrupt copies no data, yet marks the buffer valid and
    wakes the process, whose call of [iderw] returns: the caller sees whatever
    the buffer held before as the contents of the sector. *)
Theorem ide_read_error (s : ide) (i : nat) :
  idelock s = false -> idequeue s = Some i -> qnext s !! i = Some None -> (i < length (ibufs s))%nat ->
  is_dirty (ibufs s !!! i) = false ->
  ready (hw s) -> Z.land (status (hw s)) (Z.lor IDE_DF IDE_ERR) <> 0 ->
  exists s', ideintr s = Ret tt s' /\
    data (ibufs s' !!! i) = data (ibufs s !!! i) /\ is_valid (ibufs s' !!! i) = true /\
    woken s' = woken s ++ [i] /\ iderw_resume i s' = Ret tt s'.
Proof.
  intros Hl Hq Hn Hi Hd Hr He. unfold ideintr, bind at 1, acquire_ide, bind at 1, gets at 1. rewrite Hl.
  unfold modify at 1, bind at 1, gets at 1. cbn [idequeue set_idelock]. rewrite Hq.
  unfold bind at 1, gets at 1. cbn [qnext set_idelock]. rewrite (list_lookup_total_correct _ _ _ Hn).
  unfold bind at 1, modify at 1. unfold bind at 1, get_buf at 1, gets at 1. cbn [ibufs set_idequeue set_idelock].
  set (s1 := set_idequeue None (set_idelock true s)). unfold bind at 1.
  change (ibufs s !!! i) with (ibufs s1 !!! i) at 1. rewrite (read_data_error i s1) by done.
  rewrite (seq_assoc (upd_buf i _) (upd_buf i _)). unfold bind at 1. rewrite finish_flags by done.
  unfold bind at 1, modify at 1. unfold bind at 1, ret at 1.
  eexists. split; [reflexivity|]. change (ibufs s1) with (ibufs s). destruct (finish_done (ibufs s !!! i)) as [F1 F2].
  cbn [ibufs set_ibufs set_woken set_idelock woken s1 set_idequeue]. rewrite list_lookup_total_insert_eq by done.
  split_and!; [done|done|done|]. unfold iderw_resume, bind at 1, acquire_ide, bind at 1, gets at 1.
  cbn [idelock set_idelock]. unfold modify at 1, iderw_wait, bind at 1, get_buf, gets.
  cbn [ibufs set_ibufs set_woken set_idelock set_idequeue]. rewrite list_lookup_total_insert_eq, F1 by done. done.
Qed.

(** ** Examples *)
Module IdeW.

(** Two buffers of sector 300 of disk 1, one to be written and one to be
    read. *)
Definition wb : buf := mkbuf (Z.lor B_BUSY B_DIRTY) 1 300 (replicate 512 7).
Definition rb : buf := mkbuf B_BUSY 1 300 zero_block.
Definition i0 : ide := mkide false None true [wb; rb] [None; None] (mkhw ∅ IDE_DRDY None (mkdisk ∅ [])) [].
Definition i2 : ide := match iderw 0 i0 with Sleep _ s => match iderw 1 s with Sleep _ s => s | _ => i0 end | _ => i0 end.

Lemma wrb_ok (s : ide) : ibufs s = [wb; rb] -> havedisk1 s = true -> forall i, (i < 2)%nat -> request_ok s i.
Proof.
  intros Hb Hh i Hi. destruct i as [|[|i]]; [| |lia]; split; rewrite ?Hb, ?Hh; cbn; auto with lia; split; cbn; lia.
Qed.

Lemma ide0_rep : ide_rep i0 (mka (mkdisk ∅ []) [] [wb; rb]).
Proof. split; try done. apply NoDup_nil. done. Qed.

Lemma ide2_rep : ide_rep i2 (mka (mkdisk ∅ []) [0%nat; 1%nat] [wb; rb]).
Proof.
  destruct (iderw_rep _ _ 0 ide0_rep) as (s1 & H1 & R1); [by apply wrb_ok; [..|lia]|apply not_elem_of_nil|].
  assert (request_ok s1 1) as Hok.
  { apply wrb_ok; [by rewrite (ie_bufs _ _ R1)| |lia]. assert (s1 = match iderw 0 i0 with Sleep _ s => s | _ => i0 end) as -> by (by rewrite H1). by vm_compute. }
  destruct (iderw_rep _ _ 1 R1 Hok) as (s2 & H2 & R2); [set_solver|]. unfold i2. rewrite H1, H2. exact R2.
Qed.

Lemma ide_refines_witness :
  (exists s', iderw 0 i0 = Sleep (ChBuf 0) s' /\ ide_rep s' (a_request 0 (mka (mkdisk ∅ []) [] [wb; rb]))) /\
  (exists s', ideintr i2 = Ret tt s' /\ ide_rep s' (a_interrupt (mka (mkdisk ∅ []) [0%nat; 1%nat] [wb; rb])) /\
     woken s' = woken i2 ++ [0%nat]).
Proof.
  split.
  - apply (proj1 (ide_refines i0 _ ide0_rep) 0%nat); [by apply wrb_ok; [..|lia]|apply not_elem_of_nil].
  - apply (proj1 (proj2 (ide_refines i2 _ ide2_rep))).
Defined.

(** The read gets what the write before it stored. *)
Lemma ide_serves_witness : let s1 := match ideintr i2 with Ret _ s => s | _ => i2 end in
  iderw_resume 1 s1 = Sleep (ChBuf 1) s1 /\
  exists s2, ideintr s1 = Ret tt s2 /\ woken s2 = woken s1 ++ [1%nat] /\ iderw_resume 1 s2 = Ret tt s2 /\
    data (ibufs s2 !!! 1%nat) = replicate 512 7.
Proof.
  destruct (ideintr_rep i2 _ ide2_rep) as (s1 & E1 & _). rewrite E1. cbn zeta.
  destruct (ide_serves i2 s1 _ 1 1 ide2_rep eq_refl) as (H1 & s2 & H2 & H3 & H4 & H5).
  - eapply ir_interrupt; [exact E1|]. apply ir_end.
  - split; [exact H1|]. exists s2. split_and!; [exact H2|exact H3|exact H4|]. rewrite H5. vm_compute. reflexivity.
Defined.

(** A read of a buffer that held other bytes, on a drive that reports an error. *)
Definition e0 : ide := mkide false (Some 0%nat) true [mkbuf B_BUSY 1 300 (replicate 512 9)] [None]
  (mkhw ∅ (Z.lor IDE_DRDY IDE_ERR) (Some (mkcmd IDE_CMD_READ 1 (1, 300))) (mkdisk ∅ [])) [].
Lemma ide_read_error_witness :
  disk_get (dsk (hw e0)) (1, 300) <> replicate 512 9 /\
  exists s', ideintr e0 = Ret tt s' /\
    data (ibufs s' !!! 0%nat) = data (ibufs e0 !!! 0%nat) /\ is_valid (ibufs s' !!! 0%nat) = true /\
    woken s' = woken e0 ++ [0%nat] /\ iderw_resume 0 s' = Ret tt s'.
Proof. split; [by vm_compute|]. apply ide_read_error; try done. cbn. lia. Defined.

End IdeW.
