(* ===== verification/Umalloc.v ===== *)
(** The user-level memory allocator: umalloc.c.

    The allocator of Kernighan and Ritchie, on the byte memory of the process:
    a header of two words (the next free block and the size in headers) in
    front of every block, and the free blocks in a circular list ordered by
    address that starts at the variable [base].  [sbrk] is the system call as
    the allocator sees it: the kernel grants or refuses each request, extends
    the memory at its end, and refuses to pass KERNBASE. *)

From S2P Require Import Prelude Params CString.

(** The memory of the process, the variable [freep], the end of the memory, and
    the answers of the kernel to come. *)
Record heap : Type := mkheap { um : mem; freep : Z; brk : Z; grants : list bool }.

Definition set_um (x : mem) (s : heap) : heap := mkheap x (freep s) (brk s) (grants s).
Definition set_freep (x : Z) (s : heap) : heap := mkheap (um s) x (brk s) (grants s).

(** [union header]: two words. *)
Definition HDR : Z := 8.
Definition hp (a : Z) (m : mem) : Z := ld_long a m.
Definition hs (a : Z) (m : mem) : Z := ld_long (a + 4) m.
Definition get_ptr (a : Z) : M heap Z := gets (fun s => hp a (um s)).
Definition get_size (a : Z) : M heap Z := gets (fun s => hs a (um s)).
Definition set_ptr (a x : Z) : M heap unit := modify (fun s => set_um (wr_long a x (um s)) s).
Definition set_size (a x : Z) : M heap unit := modify (fun s => set_um (wr_long (a + 4) x (um s)) s).

(** [p + n] on headers *)
Definition hplus (p n : Z) : Z := u32 (p + HDR * n).

Definition HEAPMAX : Z := 2 ^ 31.

(** The system call [sbrk] with a non-negative argument. *)
Definition sbrk (n : Z) : M heap Z :=
  s <- gets (fun s => s) ;;
  if n <? 0 then fault "sbrk: negative" else
  match grants s with
  | true :: g =>
      modify (fun s => mkheap (um s) (freep s) (brk s) g) ;;
      if HEAPMAX <=? brk s + n then ret (2 ^ 32 - 1) else
      modify (fun s => mkheap (um s) (freep s) (brk s + n) (grants s)) ;; ret (brk s)
  | false :: g => modify (fun s => mkheap (um s) (freep s) (brk s) g) ;; ret (2 ^ 32 - 1)
  | [] => ret (2 ^ 32 - 1)
  end.

(** The loop of [free]: the free block after which [bp] goes. *)
Fixpoint free_find (fuel : nat) (bp p : Z) : M heap Z :=
  match fuel with
  | O => fault "free: list"
  | S f =>
      q <- get_ptr p ;;
      if (p <? bp) && (bp <? q) then ret p
      else if (q <=? p) && ((p <? bp) || (bp <? q)) then ret p
      else free_find f bp q
  end.

(** Every free block has a header of its own in the memory, so its size bounds
    the length of the list. *)
Definition fuel_of (s : heap) : nat := S (S (Z.to_nat (brk s))).

(** The two merges of [free]: of the block [bp] with the free block [q] after
    it, and of [p] with [bp]. *)
Definition merge_up (bp q : Z) : M heap unit :=
  bs <- get_size bp ;;
  if hplus bp bs =? q then
    qs <- get_size q ;;
    set_size bp (u32 (bs + qs)) ;;
    qp <- get_ptr q ;;
    set_ptr bp qp
  else set_ptr bp q.
Definition merge_down (p bp : Z) : M heap unit :=
  ps <- get_size p ;;
  if hplus p ps =? bp then
    bs <- get_size bp ;;
    set_size p (u32 (ps + bs)) ;;
    bq <- get_ptr bp ;;
    set_ptr p bq
  else set_ptr p bp.

(** umalloc.c [free] *)
Definition free (ap : Z) : M heap unit :=
  let bp := u32 (ap - HDR) in
  fp <- gets freep ;;
  fuel <- gets fuel_of ;;
  p <- free_find fuel bp fp ;;
  q <- get_ptr p ;;
  merge_up bp q ;;
  merge_down p bp ;;
  modify (set_freep p).

(** umalloc.c [morecore]; 0 if the kernel refuses. *)
Definition morecore (nu : Z) : M heap Z :=
  let nu := if nu <? 4096 then 4096 else nu in
  p <- sbrk (s32 (u32 (nu * HDR))) ;;
  if p =? 2 ^ 32 - 1 then ret 0 else
  set_size p nu ;;
  free (u32 (p + HDR)) ;;
  gets freep.

(** The block [p] found by [malloc], after [prevp]. *)
Definition malloc_take (nunits prevp p : Z) : M heap Z :=
  ps <- get_size p ;;
  p <- (if ps =? nunits then q <- get_ptr p ;; set_ptr prevp q ;; ret p
        else
          set_size p (u32 (ps - nunits)) ;;
          ps <- get_size p ;;
          let p := hplus p ps in
          set_size p nunits ;;
          ret p) ;;
  modify (set_freep prevp) ;;
  ret (u32 (p + HDR)).

(** The loop of [malloc]. *)
Fixpoint malloc_loop (fuel : nat) (nunits prevp p : Z) : M heap Z :=
  match fuel with
  | O => fault "malloc: list"
  | S f =>
      ps <- get_size p ;;
      if nunits <=? ps then malloc_take nunits prevp p
      else
        fp <- gets freep ;;
        p <- (if p =? fp then
                r <- morecore nunits ;;
                ret (if r =? 0 then None else Some r)
              else ret (Some p)) ;;
        match p with
        | None => ret 0
        | Some p => q <- get_ptr p ;; malloc_loop f nunits p q
        end
  end.

Section malloc.
(** The address of the variable [base]. *)
Context (base : Z).

Definition malloc_init : M heap unit :=
  fp <- gets freep ;;
  if fp =? 0 then
    modify (set_freep base) ;;
    set_ptr base base ;;
    set_size base 0
  else ret tt.

Definition nunits_of (nbytes : Z) : Z := u32 (u32 (nbytes + HDR - 1) / HDR + 1).

(** umalloc.c [malloc].  A pass over the list, a call of [morecore] and another
    pass are enough; each is at most [fuel_of] steps. *)
Definition malloc (nbytes : Z) : M heap Z :=
  let nunits := nunits_of nbytes in
  malloc_init ;;
  prevp <- gets freep ;;
  p <- get_ptr prevp ;;
  s <- gets (fun s => s) ;;
  malloc_loop (fuel_of s + (fuel_of s + Z.to_nat (8 * Z.max nunits 4096))) nunits prevp p.
End malloc.
