(* ===== verification/UmallocSpec.v ===== *)
(** The allocator's invariant: the free list is circular, ordered by address and
    coalesced, and the free and the allocated blocks are disjoint. *)

From stdpp Require Import sorting.
From S2P Require Import Prelude Params CString Umalloc.

(** ** Headers in memory *)

Definition apart (a b : Z) : Prop := a + HDR <= b \/ b + HDR <= a.

Lemma hp_ptr_same a x m : hp a (wr_long a x m) = u32 x.
Proof. apply ld_wr_long_same. Qed.
Lemma hs_size_same a x m : hs a (wr_long (a + 4) x m) = u32 x.
Proof. apply ld_wr_long_same. Qed.
Lemma hp_size_same a x m : hp a (wr_long (a + 4) x m) = hp a m.
Proof. apply ld_long_ext. intros b Hb. apply wr_long_out. lia. Qed.
Lemma hs_ptr_same a x m : hs a (wr_long a x m) = hs a m.
Proof. apply ld_long_ext. intros b Hb. apply wr_long_out. lia. Qed.
Lemma hp_ptr_apart a b x m : apart a b -> hp b (wr_long a x m) = hp b m.
Proof. unfold apart, HDR. intros H. apply ld_long_ext. intros c Hc. apply wr_long_out. lia. Qed.
Lemma hp_size_apart a b x m : apart a b -> hp b (wr_long (a + 4) x m) = hp b m.
Proof. unfold apart, HDR. intros H. apply ld_long_ext. intros c Hc. apply wr_long_out. lia. Qed.
Lemma hs_ptr_apart a b x m : apart a b -> hs b (wr_long a x m) = hs b m.
Proof. unfold apart, HDR. intros H. apply ld_long_ext. intros c Hc. apply wr_long_out. lia. Qed.
Lemma hs_size_apart a b x m : apart a b -> hs b (wr_long (a + 4) x m) = hs b m.
Proof. unfold apart, HDR. intros H. apply ld_long_ext. intros c Hc. apply wr_long_out. lia. Qed.

#[export] Hint Rewrite hp_ptr_same hs_size_same hp_size_same hs_ptr_same : heap.
#[export] Hint Rewrite hp_ptr_apart hp_size_apart hs_ptr_apart hs_size_apart
  using (unfold apart in *; unfold HDR in *; lia) : heap.

(** The headers of [m'] are those of [m] but at the blocks [w]. *)
Definition same_headers (w : list Z) (m m' : mem) : Prop :=
  forall a, (forall b, b ∈ w -> apart b a) -> hp a m' = hp a m /\ hs a m' = hs a m.
(** Only headers of [w] change. *)
Definition only_headers (w : list Z) (m m' : mem) : Prop :=
  forall a, (forall b, b ∈ w -> a < b \/ b + HDR <= a) -> m' a = m a.

Lemma only_same w m m' : only_headers w m m' -> same_headers w m m'.
Proof.
  intros H a Ha. unfold apart, HDR in *. split; apply ld_long_ext; intros c Hc; apply H; intros b Hb; specialize (Ha b Hb); unfold HDR; lia.
Qed.

(** ** Blocks *)

Abbreviation blk := (Z * Z)%type.
Definition bend (x : blk) : Z := x.1 + HDR * x.2.
Definition disj (x y : blk) : Prop := bend x <= y.1 \/ bend y <= x.1.
Definition before (x y : blk) : Prop := bend x < y.1.

Ltac heap_lia := unfold disj, before, bend, apart in *; cbn [fst snd] in *; unfold HDR in *; lia.

(** The address a list continues at. *)
Definition hd_addr (l : list blk) (stop : Z) : Z := match l with x :: _ => x.1 | [] => stop end.

(** The free blocks [l] linked in memory, the last one to [stop]. *)
Fixpoint lseg (m : mem) (l : list blk) (stop : Z) : Prop :=
  match l with
  | [] => True
  | x :: l' => hs x.1 m = x.2 /\ hp x.1 m = hd_addr l' stop /\ lseg m l' stop
  end.

Lemma lseg_app m l1 l2 stop : lseg m (l1 ++ l2) stop <-> lseg m l1 (hd_addr l2 stop) /\ lseg m l2 stop.
Proof.
  induction l1 as [|x l1 IH]; cbn [app lseg]; [naive_solver|]. rewrite IH. destruct l1; cbn [app hd_addr]; naive_solver.
Qed.

Lemma lseg_same w m m' l stop : same_headers w m m' -> (forall x b, x ∈ l -> b ∈ w -> apart b x.1) ->
  lseg m l stop -> lseg m' l stop.
Proof.
  intros Hw. induction l as [|x l IH]; intros Hx; [done|]. cbn [lseg]. intros (H1 & H2 & H3).
  destruct (Hw x.1) as [-> ->]; [intros b Hb; apply Hx; [by left|done]|]. split_and!; [done|done|].
  apply IH; [|done]. intros y b Hy. apply Hx. by right.
Qed.

Section heap.
(** The address of [base], and the start of the memory [sbrk] gives. *)
Context (base lo : Z).
Context (Hbase : 0 < base) (Hlo : base + HDR <= lo).

Record heap_inv (s : heap) (F : list blk) (A : gmap Z Z) : Prop := {
  hi_links : lseg (um s) ((base, 0) :: F) base;
  hi_sorted : StronglySorted before ((base, 0) :: F);
  hi_free : Forall (fun x => 1 <= x.2 /\ lo <= x.1 /\ bend x <= brk s) F;
  hi_freep : exists x, x ∈ (base, 0) :: F /\ freep s = x.1;
  hi_alloc : forall a n, A !! a = Some n -> 1 <= n /\ lo <= a /\ bend (a, n) <= brk s /\ hs a (um s) = n;
  hi_alloc_disj : forall a n b k, A !! a = Some n -> A !! b = Some k -> a <> b -> disj (a, n) (b, k);
  hi_disj : forall a n x, A !! a = Some n -> x ∈ F -> disj (a, n) x;
  hi_brk : lo <= brk s < HEAPMAX
}.

Lemma before_trans x y z : 0 <= y.2 -> before x y -> before y z -> before x z.
Proof. unfold before, bend, HDR. lia. Qed.

Lemma sorted_app l1 l2 : StronglySorted before (l1 ++ l2) <->
  (forall x y, x ∈ l1 -> y ∈ l2 -> before x y) /\ StronglySorted before l1 /\ StronglySorted before l2.
Proof. apply StronglySorted_app. Qed.

Section inv.
Context (s : heap) (F : list blk) (A : gmap Z Z) (HI : heap_inv s F A).

(** Blocks of the list: [base] and the free ones. *)
Lemma in_list x : x ∈ (base, 0) :: F -> x = (base, 0) \/ (1 <= x.2 /\ lo <= x.1 /\ bend x <= brk s).
Proof. intros [->|Hx]%elem_of_cons; [by left|]. right. pose proof (hi_free _ _ _ HI) as Hf. rewrite Forall_forall in Hf. by apply Hf. Qed.

Lemma in_list_range x : x ∈ (base, 0) :: F -> 0 <= x.2 /\ base <= x.1 /\ x.1 + HDR <= brk s /\ bend x <= brk s.
Proof.
  pose proof (hi_brk _ _ _ HI). intros [->|(H1 & H2 & H3)]%in_list; unfold bend, HDR in *; cbn; lia.
Qed.

Lemma list_split x : x ∈ (base, 0) :: F -> exists l1 l2, (base, 0) :: F = l1 ++ x :: l2.
Proof. apply list_elem_of_split. Qed.

(** Headers of distinct blocks are apart. *)
Lemma list_apart l1 x l2 y : (base, 0) :: F = l1 ++ x :: l2 -> y ∈ l1 ++ l2 -> apart x.1 y.1.
Proof.
  intros Hl Hy. pose proof (hi_sorted _ _ _ HI) as Hs. rewrite Hl in Hs. apply sorted_app in Hs as (H1 & H2 & H3).
  apply StronglySorted_inv in H3 as [H3 H4]. rewrite Forall_forall in H4.
  assert (forall u, u ∈ (base, 0) :: F -> u = (base, 0) \/ 1 <= u.2 /\ lo <= u.1) as Hin by (intros u Hu; apply in_list in Hu; naive_solver).
  assert (x ∈ (base, 0) :: F) as Hx by (rewrite Hl; apply elem_of_app; right; by left).
  assert (y ∈ (base, 0) :: F) as Hy' by (rewrite Hl; apply elem_of_app in Hy as [?|?]; apply elem_of_app; [by left|right; by right]).
  apply Hin in Hx, Hy'. unfold apart, before, bend, HDR in *.
  apply elem_of_app in Hy as [Hy|Hy]; [specialize (H1 y x Hy ltac:(by left))|specialize (H4 y Hy)];
    destruct Hx as [->|[? ?]], Hy' as [->|[? ?]]; cbn in *; lia.
Qed.

Lemma list_inj x y : x ∈ (base, 0) :: F -> y ∈ (base, 0) :: F -> x.1 = y.1 -> x = y.
Proof.
  intros Hx Hy E. destruct (list_split x Hx) as (l1 & l2 & Hl). destruct (decide (y ∈ l1 ++ l2)) as [H|H].
  - pose proof (list_apart l1 x l2 y Hl H) as Ha. unfold apart, HDR in Ha. lia.
  - rewrite Hl in Hy. set_solver.
Qed.

(** ** The place of a block in the list *)

Lemma links_at l1 x l2 : (base, 0) :: F = l1 ++ x :: l2 -> hp x.1 (um s) = hd_addr l2 base /\ hs x.1 (um s) = x.2.
Proof.
  intros Hl. pose proof (hi_links _ _ _ HI) as Hs. rewrite Hl in Hs. apply lseg_app in Hs as [_ (H1 & H2 & _)]. done.
Qed.

Lemma base_first l1 x l2 : (base, 0) :: F = l1 ++ x :: l2 -> exists t, l1 ++ [x] = (base, 0) :: t.
Proof. destruct l1 as [|y l1]; cbn; intros [= <- ->]; eauto. Qed.

Lemma sorted_mid l1 x l2 y : (base, 0) :: F = l1 ++ x :: l2 ->
  (y ∈ l1 -> before y x) /\ (y ∈ l2 -> before x y).
Proof.
  intros Hl. pose proof (hi_sorted _ _ _ HI) as Hs. rewrite Hl in Hs. apply sorted_app in Hs as (H1 & _ & H3).
  apply StronglySorted_inv in H3 as [_ H4]. rewrite Forall_forall in H4. split; [|apply H4]. intros Hy. apply H1; [done|by left].
Qed.

Section slot.
Context (bp : Z) (l1 : list blk) (x : blk) (l2 : list blk).
Context (Hslot : (base, 0) :: F = l1 ++ x :: l2) (Hx : x.1 < bp) (Hl2 : Forall (fun y => bp < y.1) l2).

Lemma base_below : base <= x.1.
Proof. eapply (in_list_range x). rewrite Hslot. apply elem_of_app. right. by left. Qed.

(** From a block up to the place, and round the end of the list. *)
Lemma find_up : forall t u v fuel, l1 ++ [x] = u ++ v :: t -> (length t < fuel)%nat -> free_find fuel bp v.1 s = Ret x.1 s.
Proof.
  pose proof base_below as Hb. induction t as [|v2 t IH]; intros u v [|fuel] Hu Hf; cbn [length] in Hf; try lia.
  - apply app_inj_tail in Hu as [-> ->]. cbn [free_find]. unfold bind, get_ptr, gets.
    rewrite (proj1 (links_at _ _ _ Hslot)), (proj2 (Z.ltb_lt _ _) Hx). destruct l2 as [|y l2']; cbn [hd_addr].
    + rewrite (proj2 (Z.ltb_ge bp base)), (proj2 (Z.leb_le base v.1)) by lia. done.
    + apply Forall_cons in Hl2 as [Hy _]. by rewrite (proj2 (Z.ltb_lt bp y.1)).
  - assert ((base, 0) :: F = u ++ v :: v2 :: t ++ l2) as Hl.
    { rewrite Hslot. change (x :: l2) with ([x] ++ l2). rewrite app_assoc, Hu, <- app_assoc. done. }
    cbn [free_find]. unfold bind at 1, get_ptr, gets. rewrite (proj1 (links_at _ _ _ Hl)). cbn [hd_addr].
    assert (v2.1 <= x.1) as Hv2.
    { assert (v2 ∈ l1 ++ [x]) as Hin by (rewrite Hu; apply elem_of_app; right; right; by left).
      apply elem_of_app in Hin as [Hin|Hin]; [|apply list_elem_of_singleton in Hin as ->; lia].
      pose proof (proj1 (sorted_mid _ _ _ v2 Hslot) Hin) as Hbf. unfold before, bend, HDR in Hbf.
      assert (v2 ∈ (base, 0) :: F) as H2 by (rewrite Hslot; apply elem_of_app; by left). apply in_list_range in H2. lia. }
    assert (v.1 < v2.1) as Hvv.
    { pose proof (proj2 (sorted_mid _ _ _ v2 Hl) ltac:(by left)) as Hbf. unfold before, bend, HDR in Hbf.
      assert (v ∈ (base, 0) :: F) as H2 by (rewrite Hl; apply elem_of_app; right; by left). apply in_list_range in H2. lia. }
    rewrite (proj2 (Z.ltb_ge bp v2.1)), andb_false_r, (proj2 (Z.leb_gt v2.1 v.1)) by lia. cbn [andb].
    apply (IH (u ++ [v])); [by rewrite Hu, <- app_assoc|lia].
Qed.

Lemma find_round : forall t u v fuel, l2 = u ++ v :: t -> (length t + length l1 + 1 < fuel)%nat -> free_find fuel bp v.1 s = Ret x.1 s.
Proof.
  pose proof base_below as Hb. induction t as [|v2 t IH]; intros u v [|fuel] Hu Hf; cbn [length] in Hf; try lia;
    (assert (bp < v.1) as Hv by (rewrite Hu in Hl2; apply Forall_app in Hl2 as [_ H]; by apply Forall_cons in H as [? _]));
    (assert ((base, 0) :: F = (l1 ++ x :: u) ++ v :: _) as Hl by (rewrite Hslot, Hu, <- app_assoc; done));
    cbn [free_find]; unfold bind at 1, get_ptr, gets; rewrite (proj1 (links_at _ _ _ Hl)), (proj2 (Z.ltb_ge v.1 bp)) by lia; cbn [hd_addr andb orb].
  - rewrite (proj2 (Z.ltb_ge bp base)), andb_false_r by lia. destruct (base_first _ _ _ Hslot) as [t Ht].
    apply (find_up t [] (base, 0)); [done|]. apply (f_equal length) in Ht. rewrite length_app in Ht. cbn in Ht. lia.
  - assert (v.1 < v2.1) as Hvv.
    { pose proof (proj2 (sorted_mid _ _ _ v2 Hl) ltac:(by left)) as Hbf. unfold before, bend, HDR in Hbf.
      assert (v ∈ (base, 0) :: F) as H2 by (rewrite Hl; apply elem_of_app; right; by left). apply in_list_range in H2. lia. }
    rewrite (proj2 (Z.leb_gt v2.1 v.1)) by lia. cbn [andb]. apply (IH (u ++ [v])); [by rewrite Hu, <- app_assoc|lia].
Qed.

Lemma free_find_slot fuel : (length F + 1 < fuel)%nat -> free_find fuel bp (freep s) s = Ret x.1 s.
Proof.
  intros Hf. destruct (hi_freep _ _ _ HI) as (v & Hv & ->). pose proof (f_equal length Hslot) as Hlen.
  rewrite length_app in Hlen. cbn [length] in Hlen. rewrite Hslot in Hv. change (x :: l2) with ([x] ++ l2) in Hv. rewrite app_assoc in Hv.
  apply elem_of_app in Hv as [Hv|Hv]; apply list_elem_of_split in Hv as (u & t & Ht).
  - apply (find_up t u v); [done|]. apply (f_equal length) in Ht. rewrite !length_app in Ht. cbn in Ht. lia.
  - apply (find_round t u v); [done|]. apply (f_equal length) in Ht. rewrite !length_app in Ht. cbn in Ht. lia.
Qed.
End slot.

(** The number of free blocks is bounded by the memory. *)
Lemma free_count : HDR * Z.of_nat (length F) <= brk s.
Proof.
  pose proof (hi_brk _ _ _ HI) as Hb. pose proof (hi_sorted _ _ _ HI) as Hs. apply StronglySorted_inv in Hs as [Hs _].
  pose proof (hi_free _ _ _ HI) as Hf. assert (forall l, StronglySorted before l -> Forall (fun x => 1 <= x.2 /\ lo <= x.1 /\ bend x <= brk s) l ->
    match l with [] => True | x :: l' => x.1 + HDR * Z.of_nat (length l) <= brk s end) as Hgen.
  { induction l as [|x l IH]; [done|]. intros [Hsl Hx]%StronglySorted_inv [Hx1 Hl]%Forall_cons. specialize (IH Hsl Hl).
    destruct l as [|y l]; unfold before, bend, HDR in *; cbn [length]; [lia|]. apply Forall_cons in Hx as [Hxy _]. cbn [length] in IH. lia. }
  specialize (Hgen F Hs Hf). destruct F as [|x l]; cbn [length] in *; unfold HDR in *; [lia|].
  apply Forall_cons in Hf as [(H1 & H2 & H3) _]. lia.
Qed.

(** The place exists. *)
Lemma slot_exists bp : lo <= bp -> Forall (fun x => x.1 <> bp) F ->
  exists l1 x l2, (base, 0) :: F = l1 ++ x :: l2 /\ x.1 < bp /\ Forall (fun y => bp < y.1) l2.
Proof.
  intros Hbp Hne. pose proof (hi_sorted _ _ _ HI) as Hs.
  assert (forall l x, StronglySorted before (x :: l) -> Forall (fun y => 1 <= y.2) l -> Forall (fun y => y.1 <> bp) l -> x.1 < bp ->
            exists l1 y l2, x :: l = l1 ++ y :: l2 /\ y.1 < bp /\ Forall (fun z => bp < z.1) l2) as Hgen.
  { induction l as [|y l IH]; intros x Hsl Hp Hn Hx; [by exists [], x, []|].
    apply StronglySorted_inv in Hsl as [Hsl _]. apply Forall_cons in Hn as [Hny Hn]. apply Forall_cons in Hp as [Hpy Hp].
    destruct (decide (y.1 < bp)) as [Hy|Hy].
    - destruct (IH y Hsl Hp Hn Hy) as (l1 & z & l2 & -> & H1 & H2). by exists (x :: l1), z, l2.
    - exists [], x, (y :: l). split_and!; [done|done|]. constructor; [lia|]. apply StronglySorted_inv in Hsl as [_ Hyl].
      rewrite Forall_forall in *. intros z Hz. specialize (Hyl z Hz). unfold before, bend, HDR in Hyl. lia. }
  apply Hgen; [done| |done|cbn; unfold HDR in *; lia]. eapply Forall_impl; [exact (hi_free _ _ _ HI)|]. naive_solver.
Qed.

(** ** Freeing a block *)

Section block.
Context (bp sz : Z) (l1 : list blk) (x : blk) (l2 : list blk).
Context (Hslot : (base, 0) :: F = l1 ++ x :: l2) (Hx : x.1 < bp) (Hl2 : Forall (fun y => bp < y.1) l2).
Context (Hsz : 1 <= sz) (Hbp : lo <= bp) (Hend : bend (bp, sz) <= brk s) (Hhs : hs bp (um s) = sz).
Context (HdF : forall y, y ∈ F -> disj (bp, sz) y).

(** What the block becomes after the merge with the next one. *)
Definition up_size : Z := match l2 with y :: _ => if bp + HDR * sz =? y.1 then sz + y.2 else sz | [] => sz end.
Definition up_rest : list blk := match l2 with y :: l3 => if bp + HDR * sz =? y.1 then l3 else l2 | [] => [] end.

Lemma x_in : x ∈ (base, 0) :: F.
Proof. rewrite Hslot. apply elem_of_app. right. by left. Qed.

Lemma l2_in y : y ∈ l2 -> y ∈ F /\ 1 <= y.2 /\ bend y <= brk s.
Proof.
  intros Hy. assert (y ∈ F) as HyF.
  { destruct l1 as [|z l]; cbn in Hslot; injection Hslot as ? HF; rewrite HF; [done|]. apply elem_of_app. right. by right. }
  split; [done|]. pose proof (hi_free _ _ _ HI) as Hf. rewrite Forall_forall in Hf. naive_solver.
Qed.

(** The neighbours do not overlap the block. *)
Lemma x_end : bend x <= bp.
Proof.
  destruct (in_list x x_in) as [->|(H1 & _)]; [unfold bend, HDR in *; cbn; lia|].
  assert (x ∈ F) as HF. { pose proof x_in as [->|?]%elem_of_cons; [cbn in H1; lia|done]. }
  pose proof (HdF x HF) as Hd. unfold disj, bend, HDR in *. cbn in *. lia.
Qed.

Lemma l2_start y : y ∈ l2 -> bend (bp, sz) <= y.1.
Proof.
  intros Hy. destruct (l2_in y Hy) as (HF & H1 & _). pose proof (HdF y HF) as Hd. rewrite Forall_forall in Hl2. specialize (Hl2 y Hy).
  unfold disj, bend, HDR in *. cbn in *. lia.
Qed.

Lemma l2_sorted : StronglySorted before l2.
Proof.
  pose proof (hi_sorted _ _ _ HI) as Hs. rewrite Hslot in Hs. apply sorted_app in Hs as (_ & _ & Hs). by apply StronglySorted_inv in Hs as [? _].
Qed.

Lemma up_facts : sz <= up_size /\ bp + HDR * up_size <= brk s /\ StronglySorted before up_rest /\
  (forall y, y ∈ up_rest -> y ∈ l2 /\ before (bp, up_size) y) /\ lseg (um s) up_rest base.
Proof.
  pose proof l2_sorted as Hs2. pose proof (hi_links _ _ _ HI) as Hlk. rewrite Hslot in Hlk. apply lseg_app in Hlk as [_ (_ & _ & Hlk)].
  pose proof l2_start as Hst. pose proof l2_in as Hin. unfold up_size, up_rest, bend, before in *.
  destruct l2 as [|y l3]; cbn [fst snd] in *; [split_and!; try done; set_solver|].
  pose proof (Hin y ltac:(by left)) as (_ & Hy1 & Hy2). destruct (Z.eqb_spec (bp + HDR * sz) y.1) as [E|E].
  - apply StronglySorted_inv in Hs2 as [Hs3 Hy3]. destruct Hlk as (_ & _ & Hlk). rewrite Forall_forall in Hy3.
    split_and!; [lia|unfold HDR in *; lia|done| |done]. intros z Hz. split; [by right|]. specialize (Hy3 z Hz). heap_lia.
  - split_and!; [lia|done|done| |done]. intros z Hz. split; [done|].
    apply elem_of_cons in Hz as [->|Hz]; [specialize (Hst y ltac:(by left)); heap_lia|].
    apply StronglySorted_inv in Hs2 as [_ Hy3]. rewrite Forall_forall in Hy3. specialize (Hy3 z Hz). specialize (Hst y ltac:(by left)). heap_lia.
Qed.

Lemma small_addr a : 0 <= a <= brk s -> u32 a = a.
Proof. intros Ha. pose proof (hi_brk _ _ _ HI) as Hb. unfold HEAPMAX in Hb. apply u32_small. lia. Qed.

Lemma hplus_end a n : 0 <= a -> 0 <= n -> a + HDR * n <= brk s -> hplus a n = a + HDR * n.
Proof. intros Ha Hn Hb. apply small_addr. heap_lia. Qed.

Lemma hd_rest_small l : (forall y, y ∈ l -> y ∈ l2) -> u32 (hd_addr l base) = hd_addr l base.
Proof.
  intros Hl. apply small_addr. destruct l as [|y l]; cbn [hd_addr].
  - pose proof (hi_brk _ _ _ HI). unfold HDR in *. lia.
  - destruct (l2_in y (Hl y ltac:(by left))) as (_ & H1 & H2). rewrite Forall_forall in Hl2.
    specialize (Hl2 y (Hl y ltac:(by left))). heap_lia.
Qed.

Lemma merge_up_ok : exists m1, merge_up bp (hd_addr l2 base) s = Ret tt (set_um m1 s) /\
  only_headers [bp] (um s) m1 /\ hp bp m1 = hd_addr up_rest base /\ hs bp m1 = up_size.
Proof.
  pose proof up_facts as (F1 & F2 & _ & F4 & _). pose proof l2_start as Hst. pose proof l2_in as Hin.
  pose proof (hi_links _ _ _ HI) as Hlk. rewrite Hslot in Hlk. apply lseg_app in Hlk as [_ (_ & _ & Hlk)].
  pose proof (hd_rest_small up_rest (fun y Hy => proj1 (F4 y Hy))) as Hr1. pose proof (hd_rest_small l2 (fun y Hy => Hy)) as Hr2.
  pose proof (small_addr up_size ltac:(heap_lia)) as Hr3.
  unfold merge_up, bind at 1, get_size, gets. rewrite Hhs, hplus_end by heap_lia.
  unfold up_size, up_rest in *. destruct l2 as [|y l3]; cbn [hd_addr].
  - rewrite (proj2 (Z.eqb_neq (bp + HDR * sz) base)) by heap_lia. unfold set_ptr, modify. eexists. split_and!; [reflexivity| | |].
    + intros a Ha. apply wr_long_out. specialize (Ha bp ltac:(by left)). heap_lia.
    + by rewrite hp_ptr_same.
    + by rewrite hs_ptr_same.
  - destruct (Z.eqb_spec (bp + HDR * sz) y.1) as [E|E].
    + destruct Hlk as (Hy1 & Hy2 & _). unfold bind, set_size, get_ptr, set_ptr, modify, gets. cbn [um set_um].
      eexists. split_and!; [reflexivity| | |].
      * intros a Ha. specialize (Ha bp ltac:(by left)). rewrite !wr_long_out by heap_lia. done.
      * rewrite hp_ptr_same, hp_size_apart by heap_lia. by rewrite Hy2.
      * rewrite hs_ptr_same, hs_size_same, Hy1. by rewrite !Hr3.
    + unfold set_ptr, modify. eexists. split_and!; [reflexivity| | |].
      * intros a Ha. apply wr_long_out. specialize (Ha bp ltac:(by left)). heap_lia.
      * by rewrite hp_ptr_same.
      * by rewrite hs_ptr_same.
Qed.

(** What [x] and the block become. *)
Definition mid : list blk :=
  if bend x =? bp then [(x.1, x.2 + up_size)] else [x; (bp, up_size)].

Lemma merge_down_ok m1 : only_headers [bp] (um s) m1 -> hp bp m1 = hd_addr up_rest base -> hs bp m1 = up_size ->
  exists m2, merge_down x.1 bp (set_um m1 s) = Ret tt (set_um m2 s) /\
    only_headers [x.1; bp] (um s) m2 /\ lseg m2 mid (hd_addr up_rest base).
Proof.
  intros Ho Hp Hs. pose proof up_facts as (F1 & F2 & _ & F4 & _). pose proof x_end as He.
  pose proof (hd_rest_small up_rest (fun y Hy => proj1 (F4 y Hy))) as Hr1.
  destruct (in_list_range x x_in) as (X1 & X2 & X3 & X4). assert (apart bp x.1) as Hap.
  { destruct (in_list x x_in) as [->|(H1 & _)]; heap_lia. }
  destruct (only_same _ _ _ Ho x.1) as [Hxp Hxs]; [intros b ->%list_elem_of_singleton; done|].
  destruct (links_at _ _ _ Hslot) as [Lp Ls]. assert (forall a, (forall b, b ∈ [x.1; bp] -> a < b \/ b + HDR <= a) -> m1 a = um s a) as Ho'.
  { intros a Ha. apply Ho. intros b ->%list_elem_of_singleton. apply Ha. right. by left. }
  unfold merge_down, bind at 1, get_size, gets, mid. cbn [um set_um]. rewrite Hxs, Ls, hplus_end by heap_lia. fold (bend x).
  destruct (Z.eqb_spec (bend x) bp) as [E|E].
  - unfold bind, set_size, get_ptr, set_ptr, modify, gets. cbn [um set_um]. rewrite Hs. eexists. split_and!; [reflexivity| |].
    + intros a Ha. pose proof (Ha x.1 ltac:(by left)). rewrite !wr_long_out by heap_lia. by apply Ho'.
    + cbn [lseg fst snd]. rewrite hs_ptr_same, hs_size_same, hp_ptr_same, hp_size_apart, Hp, Hr1 by heap_lia.
      rewrite !(small_addr (x.2 + up_size)) by heap_lia. done.
  - unfold set_ptr, modify. cbn [um set_um]. eexists. split_and!; [reflexivity| |].
    + intros a Ha. pose proof (Ha x.1 ltac:(by left)). rewrite !wr_long_out by heap_lia. by apply Ho'.
    + cbn [lseg fst snd hd_addr]. rewrite hs_ptr_same, hp_ptr_same, hs_ptr_apart, hp_ptr_apart by heap_lia.
      rewrite (small_addr bp) by heap_lia. by rewrite Hxs, Ls.
Qed.

(** The list after the block went in. *)
Definition new_list : list blk := l1 ++ mid ++ up_rest.

Lemma mid_head : hd_addr (mid ++ up_rest) base = x.1 /\ exists y, y ∈ mid /\ y.1 = x.1.
Proof. unfold mid. destruct (bend x =? bp); (split; [done|]); eexists; (split; [by left|done]). Qed.

Lemma mid_elem y : y ∈ mid -> (y = x /\ bend x <> bp) \/ (y = (bp, up_size) /\ bend x <> bp) \/ (y = (x.1, x.2 + up_size) /\ bend x = bp).
Proof.
  unfold mid. destruct (Z.eqb_spec (bend x) bp) as [E|E]; intros Hy.
  - apply list_elem_of_singleton in Hy. auto.
  - apply elem_of_cons in Hy as [->|Hy]; [auto|]. apply list_elem_of_singleton in Hy. auto.
Qed.

Lemma new_list_base : exists F', new_list = (base, 0) :: F'.
Proof.
  unfold new_list. destruct l1 as [|z l]; cbn in Hslot; injection Hslot as Hz HF.
  - unfold mid. rewrite <- Hz. rewrite (proj2 (Z.eqb_neq (bend (base, 0)) bp)) by heap_lia. eauto.
  - rewrite <- Hz. cbn. eauto.
Qed.

Lemma new_list_sorted : StronglySorted before new_list.
Proof.
  pose proof up_facts as (F1 & F2 & F3 & F4 & _). pose proof x_end as He. pose proof (hi_sorted _ _ _ HI) as Hs.
  rewrite Hslot in Hs. apply sorted_app in Hs as (S1 & S2 & S3). destruct (in_list_range x x_in) as (X1 & _).
  apply StronglySorted_inv in S3 as [S3 S4]. rewrite Forall_forall in S4.
  unfold new_list. apply sorted_app. split_and!; [|done|apply sorted_app; split_and!; [| |done]].
  - intros u v Hu Hv. specialize (S1 u x Hu ltac:(by left)). apply elem_of_app in Hv as [Hv|Hv].
    + destruct (mid_elem v Hv) as [[-> _]|[[-> _]|[-> _]]]; heap_lia.
    + destruct (F4 v Hv) as [_ Hb]. heap_lia.
  - intros u v Hu Hv. destruct (F4 v Hv) as [Hv2 Hb]. destruct (mid_elem u Hu) as [[-> _]|[[-> _]|[-> E]]]; [by apply S4|done|heap_lia].
  - unfold mid. destruct (Z.eqb_spec (bend x) bp); repeat constructor. heap_lia.
Qed.

Lemma new_list_elem y : y ∈ new_list -> y ∈ (base, 0) :: F \/ y ∈ mid.
Proof.
  pose proof up_facts as (_ & _ & _ & F4 & _). unfold new_list. rewrite !elem_of_app. intros [Hy|[Hy|Hy]]; [left|by right|left].
  - rewrite Hslot. apply elem_of_app. by left.
  - destruct (F4 y Hy) as [Hy' _]. rewrite Hslot. apply elem_of_app. right. by right.
Qed.

(** A block disjoint from the old ones and from the new one is disjoint from
    those of the new list. *)
Lemma new_list_disj c y : 1 <= c.2 -> lo <= c.1 -> (forall z, z ∈ F -> disj c z) -> disj (bp, sz) c -> y ∈ new_list -> disj c y.
Proof.
  intros Hc Hcl HcF Hcb Hy. pose proof up_facts as (F1 & F2 & _). pose proof x_end as He.
  assert (disj c x) as Hcx.
  { pose proof x_in as [->|Hx']%elem_of_cons; [heap_lia|by apply HcF]. }
  assert (disj c (bp, up_size)) as Hcu.
  { unfold up_size. pose proof l2_in as Hin. destruct l2 as [|z l3]; [heap_lia|]. destruct (Z.eqb_spec (bp + HDR * sz) z.1); [|heap_lia].
    destruct (Hin z ltac:(by left)) as (HzF & Hz & _). specialize (HcF z HzF). heap_lia. }
  destruct (new_list_elem y Hy) as [[->|H]%elem_of_cons|H]; [heap_lia|by apply HcF|].
  destruct (mid_elem y H) as [[-> _]|[[-> _]|[-> E]]]; [done|done|]. destruct (in_list_range x x_in) as (X1 & _). heap_lia.
Qed.

Context (HdA : forall a n, A !! a = Some n -> disj (bp, sz) (a, n)).

Lemma new_inv m2 F' : new_list = (base, 0) :: F' -> only_headers [x.1; bp] (um s) m2 -> lseg m2 mid (hd_addr up_rest base) ->
  heap_inv (set_freep x.1 (set_um m2 s)) F' A.
Proof.
  intros HF Ho Hmid. pose proof up_facts as (F1 & F2 & F3 & F4 & F5). pose proof x_end as He. pose proof new_list_sorted as Hsn.
  pose proof (only_same _ _ _ Ho) as Hsame. destruct (in_list_range x x_in) as (X1 & X2 & X3 & X4).
  assert (forall a b, lo <= a -> b ∈ [x.1; bp] -> (apart x.1 a /\ apart bp a) -> apart b a) as Hw.
  { intros a b _ Hb [H1 H2]. apply elem_of_cons in Hb as [->|Hb]; [done|]. by apply list_elem_of_singleton in Hb as ->. }
  split; cbn [um set_freep set_um freep brk].
  - rewrite <- HF. unfold new_list. pose proof (hi_links _ _ _ HI) as Hlk. rewrite Hslot in Hlk. apply lseg_app in Hlk as [Hk1 _].
    apply lseg_app. rewrite (proj1 mid_head). split; [|apply lseg_app; split; [done|]]; (eapply lseg_same; [exact Hsame| |done]); intros y b Hy Hb.
    + pose proof (proj1 (sorted_mid _ _ _ y Hslot) Hy) as Hyx. assert (y ∈ (base, 0) :: F) as Hin by (rewrite Hslot; apply elem_of_app; by left).
      pose proof (list_apart _ _ _ y Hslot ltac:(apply elem_of_app; by left)) as Hap. destruct (in_list_range y Hin) as (Y1 & _).
      apply elem_of_cons in Hb as [->|Hb]; [done|]. apply list_elem_of_singleton in Hb as ->. heap_lia.
    + destruct (F4 y Hy) as [Hy2 Hb2]. pose proof (list_apart _ _ _ y Hslot ltac:(apply elem_of_app; by right)) as Hap.
      apply elem_of_cons in Hb as [->|Hb]; [done|]. apply list_elem_of_singleton in Hb as ->. heap_lia.
  - by rewrite <- HF.
  - rewrite HF in Hsn. apply StronglySorted_inv in Hsn as [_ Hsn]. rewrite Forall_forall in Hsn. apply Forall_forall. intros y Hy. specialize (Hsn y Hy).
    assert (y ∈ new_list) as Hyn by (rewrite HF; by right).
    destruct (new_list_elem y Hyn) as [[->|Hin]%(in_list y)|Hin]; [heap_lia|done|].
    destruct (mid_elem y Hin) as [[-> _]|[[-> _]|[-> E]]].
    + destruct (in_list x x_in) as [->|?]; [heap_lia|done].
    + heap_lia.
    + destruct (in_list x x_in) as [->|?]; heap_lia.
  - destruct mid_head as [_ (y & Hy & <-)]. exists y. split; [|done]. rewrite <- HF. unfold new_list. rewrite !elem_of_app. auto.
  - intros a n Ha. destruct (hi_alloc _ _ _ HI a n Ha) as (A1 & A2 & A3 & A4). split_and!; [done|done|done|]. rewrite <- A4.
    apply Hsame. intros b Hb. apply Hw; [done|done|]. pose proof (HdA a n Ha) as Hd. split; [|heap_lia].
    pose proof x_in as [->|HxF]%elem_of_cons; [heap_lia|]. pose proof (hi_disj _ _ _ HI a n x Ha HxF).
    pose proof (hi_free _ _ _ HI) as Hf. rewrite Forall_forall in Hf. specialize (Hf x HxF). heap_lia.
  - exact (hi_alloc_disj _ _ _ HI).
  - intros a n y Ha Hy. destruct (hi_alloc _ _ _ HI a n Ha) as (A1 & A2 & A3 & A4).
    apply new_list_disj; [done|done| |by apply HdA|rewrite HF; by right]. intros z Hz. by apply (hi_disj _ _ _ HI).
  - exact (hi_brk _ _ _ HI).
Qed.

Lemma free_block_ok : exists F' m', free (u32 (bp + HDR)) s = Ret tt (set_freep x.1 (set_um m' s)) /\
  heap_inv (set_freep x.1 (set_um m' s)) F' A /\ only_headers [x.1; bp] (um s) m' /\
  exists y, y ∈ F' /\ sz <= y.2.
Proof.
  pose proof (hi_brk _ _ _ HI) as Hb. pose proof up_facts as (F1 & _).
  destruct merge_up_ok as (m1 & U1 & U2 & U3 & U4). destruct (merge_down_ok m1 U2 U3 U4) as (m2 & D1 & D2 & D3).
  destruct new_list_base as [F' HF]. exists F', m2. split_and!; [|by apply new_inv|done|].
  - unfold free. replace (u32 (u32 (bp + HDR) - HDR)) with bp.
    2:{ rewrite (small_addr (bp + HDR)) by heap_lia. replace (bp + HDR - HDR) with bp by lia. symmetry. apply small_addr. heap_lia. }
    unfold bind, gets at 1 2. rewrite (free_find_slot bp l1 x l2 Hslot Hx Hl2).
    2:{ pose proof free_count. unfold fuel_of. heap_lia. }
    unfold get_ptr, gets. rewrite (proj1 (links_at _ _ _ Hslot)). rewrite U1, D1. done.
  - assert (exists y, y ∈ mid /\ sz <= y.2) as (y & Hy & Hs).
    { unfold mid. destruct (bend x =? bp); [exists (x.1, x.2 + up_size)|exists (bp, up_size)].
      - split; [by left|]. destruct (in_list_range x x_in). cbn. lia.
      - split; [right; by left|done]. }
    exists y. split; [|done]. assert (y ∈ new_list) as Hn by (unfold new_list; rewrite !elem_of_app; auto). rewrite HF in Hn.
    apply elem_of_cons in Hn as [->|?]; [cbn in Hs; lia|done].
Qed.
End block.

(** Changes of headers of the list and of [bp] keep what the blocks contain. *)
Lemma payload_kept w m' a n b : only_headers w (um s) m' -> A !! a = Some n ->
  (forall h, h ∈ w -> (exists y, y ∈ (base, 0) :: F /\ h = y.1) \/ h = a \/ (exists k, 1 <= k /\ disj (h, k) (a, n))) ->
  a + HDR <= b < bend (a, n) -> m' b = um s b.
Proof.
  intros Ho Ha Hw Hb. apply Ho. intros h Hh. destruct (hi_alloc _ _ _ HI a n Ha) as (A1 & A2 & A3 & _).
  destruct (Hw h Hh) as [(y & Hy & ->)|[->|(k & Hk & Hd)]]; [|heap_lia|heap_lia].
  destruct (in_list y Hy) as [->|(Y1 & Y2 & _)]; [heap_lia|].
  assert (y ∈ F) as HF. { apply elem_of_cons in Hy as [->|?]; [cbn in Y1; lia|done]. }
  pose proof (hi_disj _ _ _ HI a n y Ha HF). heap_lia.
Qed.

(** ** Taking a block *)

Section take.
Context (nunits : Z) (w : list blk) (z y : blk) (rest : list blk).
Context (HL : (base, 0) :: F = w ++ z :: y :: rest) (Hn : 1 <= nunits <= y.2).

Lemma HLy : (base, 0) :: F = (w ++ [z]) ++ y :: rest.
Proof. by rewrite HL, <- app_assoc. Qed.

Lemma y_in : y ∈ F /\ 1 <= y.2 /\ lo <= y.1 /\ bend y <= brk s.
Proof.
  assert (y ∈ F) as HF. { destruct w; cbn in HL; injection HL as _ ->; [by left|]. apply elem_of_app. right. right. by left. }
  pose proof (hi_free _ _ _ HI) as Hf. rewrite Forall_forall in Hf. specialize (Hf y HF). naive_solver.
Qed.

(** The address of the block given out, and the list that remains. *)
Definition taken_at : Z := y.1 + HDR * (y.2 - nunits).
Definition left_over : list blk := if y.2 =? nunits then rest else (y.1, y.2 - nunits) :: rest.

Lemma malloc_take_run : exists m',
  malloc_take nunits z.1 y.1 s = Ret (taken_at + HDR) (set_freep z.1 (set_um m' s)) /\
  only_headers (if y.2 =? nunits then [z.1] else [y.1; taken_at]) (um s) m' /\
  hs taken_at m' = nunits /\ lseg m' ((base, 0) :: tail (w ++ z :: left_over)) base.
Proof.
  destruct y_in as (Y1 & Y2 & Y3 & Y4). destruct (links_at _ _ _ HLy) as [Lp Ls].
  pose proof (hi_brk _ _ _ HI) as Hbrk. pose proof (hi_links _ _ _ HI) as Hlk.
  assert (forall l, (base, 0) :: tail (w ++ z :: l) = w ++ z :: l) as Hhead by (intros l; destruct w; cbn in HL; by injection HL as <- _).
  rewrite Hhead. rewrite HL in Hlk. apply lseg_app in Hlk as [K1 (K2 & K3 & K4 & K5 & K6)]. cbn [hd_addr] in *.
  assert (z ∈ (base, 0) :: F) as Hz by (rewrite HL; apply elem_of_app; right; by left).
  assert (forall u, u ∈ (w ++ [z]) ++ rest -> apart y.1 u.1) as Hay by (intros u Hu; by eapply list_apart; [exact HLy|]).
  assert (forall u, u ∈ w ++ y :: rest -> apart z.1 u.1) as Haz by (intros u Hu; by eapply list_apart; [exact HL|]).
  unfold malloc_take, bind at 1, get_size at 1, gets at 1. rewrite Ls. unfold left_over, taken_at.
  destruct (Z.eqb_spec y.2 nunits) as [E|E].
  - unfold bind, get_ptr, set_ptr, modify, gets, ret. rewrite Lp. replace (y.1 + HDR * (y.2 - nunits)) with y.1 by lia.
    rewrite (small_addr (y.1 + HDR)) by heap_lia. eexists. split; [reflexivity|]. cbn [um set_um].
    assert (u32 (hd_addr rest base) = hd_addr rest base) as Hsm.
    { apply small_addr. destruct rest as [|r rest']; cbn [hd_addr]; [heap_lia|].
      assert (r ∈ (base, 0) :: F) as Hr by (rewrite HL; apply elem_of_app; right; right; right; by left).
      pose proof (in_list_range r Hr). heap_lia. }
    assert (only_headers [z.1] (um s) (wr_long z.1 (hd_addr rest base) (um s))) as Ho.
    { intros a Ha. apply wr_long_out. specialize (Ha z.1 ltac:(by left)). heap_lia. }
    split_and!; [done| |].
    + rewrite hs_ptr_apart; [congruence|]. apply Haz. apply elem_of_app. right. by left.
    + apply lseg_app. cbn [lseg hd_addr]. rewrite hs_ptr_same, hp_ptr_same, Hsm.
      split_and!; try done; (eapply lseg_same; [by apply only_same| |done]); intros u b Hu ->%list_elem_of_singleton; apply Haz, elem_of_app; [by left|right; by right].
  - unfold bind, set_size, get_size, modify, gets, ret. cbn [um set_um]. rewrite hs_size_same.
    rewrite !(small_addr (y.2 - nunits)) by heap_lia. rewrite hplus_end by heap_lia.
    rewrite (small_addr (_ + HDR)) by heap_lia. eexists. split; [reflexivity|].
    set (bp := y.1 + HDR * (y.2 - nunits)). assert (apart bp y.1) as Hby by (unfold bp; heap_lia).
    match goal with |- only_headers _ _ ?m /\ _ => assert (only_headers [y.1; bp] (um s) m) as Ho end.
    { intros a Ha. pose proof (Ha y.1 ltac:(by left)). pose proof (Ha bp ltac:(right; by left)). rewrite !wr_long_out by heap_lia. done. }
    assert (forall u b, u ∈ (w ++ [z]) ++ rest -> b ∈ [y.1; bp] -> apart b u.1) as Hw.
    { intros u b Hu Hb. apply elem_of_cons in Hb as [->|Hb]; [by apply Hay|]. apply list_elem_of_singleton in Hb as ->.
      assert (u ∈ (base, 0) :: F) as Hin by (rewrite HLy; apply elem_of_app in Hu as [?|?]; apply elem_of_app; [by left|right; by right]).
      destruct (in_list_range u Hin) as (U1 & _). destruct (sorted_mid _ _ _ u HLy) as [M1 M2]. specialize (Hay u Hu). unfold bp.
      apply elem_of_app in Hu as [Hu|Hu]; [specialize (M1 Hu)|specialize (M2 Hu)]; destruct (in_list u Hin) as [->|?]; heap_lia. }
    split_and!; [done|by rewrite hs_size_same, (small_addr nunits) by heap_lia|].
    apply lseg_app. cbn [lseg hd_addr fst snd]. rewrite (hs_size_apart bp y.1), hs_size_same, (hp_size_apart bp y.1), hp_size_same by done.
    rewrite Lp, !(small_addr (y.2 - nunits)) by heap_lia. destruct (only_same _ _ _ Ho z.1) as [-> ->].
    { intros b Hb. apply (Hw z); [|done]. apply elem_of_app. left. apply elem_of_app. right. by left. }
    split_and!; try done; (eapply lseg_same; [by apply only_same| |done]); intros u b Hu Hb; (apply Hw; [|done]);
      [apply elem_of_app; left; apply elem_of_app; by left|apply elem_of_app; by right].
Qed.

Lemma left_elem u : u ∈ left_over -> (u ∈ rest) \/ (u = (y.1, y.2 - nunits) /\ y.2 <> nunits).
Proof. unfold left_over. destruct (Z.eqb_spec y.2 nunits); [by left|]. intros [->|?]%elem_of_cons; [by right|by left]. Qed.

(** The block given out lies inside [y], clear of what is left of it. *)
Lemma taken_inside : y.1 <= taken_at /\ bend (taken_at, nunits) = bend y.
Proof. unfold taken_at. heap_lia. Qed.

(** What is disjoint from the list is disjoint from what is left. *)
Lemma take_disj c u : (forall v, v ∈ F -> disj c v) -> 1 <= c.2 -> lo <= c.1 -> u ∈ w ++ z :: left_over -> u <> (base, 0) -> disj c u.
Proof.
  intros Hc Hc1 Hc2 Hu Hne. assert (forall v, v ∈ (base, 0) :: F -> v <> (base, 0) -> disj c v) as Hin.
  { intros v [->|?]%elem_of_cons ?; [done|]. by apply Hc. }
  assert (forall v, v ∈ w ++ z :: y :: rest -> v ∈ (base, 0) :: F) as Hsub by (by rewrite HL).
  apply elem_of_app in Hu as [Hu|[->|Hu]%elem_of_cons].
  - apply Hin; [|done]. apply Hsub, elem_of_app. by left.
  - apply Hin; [|done]. apply Hsub, elem_of_app. right. by left.
  - destruct (left_elem u Hu) as [Hu'|[-> E]].
    + apply Hin; [|done]. apply Hsub, elem_of_app. right. right. by right.
    + destruct y_in as (Y1 & Y2 & _). pose proof (Hc y Y1). heap_lia.
Qed.

Lemma take_inv m' : only_headers (if y.2 =? nunits then [z.1] else [y.1; taken_at]) (um s) m' ->
  hs taken_at m' = nunits -> lseg m' ((base, 0) :: tail (w ++ z :: left_over)) base ->
  heap_inv (set_freep z.1 (set_um m' s)) (tail (w ++ z :: left_over)) (<[taken_at := nunits]> A).
Proof.
  intros Ho Hts Hlk. destruct y_in as (Y1 & Y2 & Y3 & Y4). destruct taken_inside as [T1 T2].
  assert (forall l, (base, 0) :: tail (w ++ z :: l) = w ++ z :: l) as Hhead by (intros l; destruct w; cbn in HL; by injection HL as <- _).
  pose proof (hi_sorted _ _ _ HI) as Hs. rewrite HL in Hs. apply sorted_app in Hs as (S1 & S2 & S3).
  apply StronglySorted_inv in S3 as [S3 S4]. apply StronglySorted_inv in S3 as [S3 S5]. apply Forall_cons in S4 as [S4 S6].
  assert (StronglySorted before (w ++ z :: left_over)) as Hsn.
  { apply sorted_app. split_and!; [|done|constructor].
    - intros u v Hu [->|Hv]%elem_of_cons; [apply S1; [done|by left]|]. destruct (left_elem v Hv) as [?|[-> _]]; [apply S1; [done|right; by right]|].
      specialize (S1 u y Hu ltac:(right; by left)). heap_lia.
    - unfold left_over. destruct (Z.eqb_spec y.2 nunits); [done|]. constructor; [done|]. rewrite Forall_forall in *. intros v Hv. specialize (S5 v Hv). heap_lia.
    - rewrite Forall_forall in *. intros v Hv. destruct (left_elem v Hv) as [?|[-> _]]; [by apply S6|heap_lia]. }
  assert (forall u, u ∈ tail (w ++ z :: left_over) -> u ∈ w ++ z :: left_over /\ u <> (base, 0)) as Htail.
  { intros u Hu. rewrite <- (Hhead left_over) in Hsn. rewrite <- (Hhead left_over). apply StronglySorted_inv in Hsn as [_ Hb].
    rewrite Forall_forall in Hb. specialize (Hb u Hu). split; [by right|]. intros ->. heap_lia. }
  assert (forall a n, A !! a = Some n -> disj (a, n) (taken_at, nunits)) as HdT.
  { intros a n Ha. pose proof (hi_disj _ _ _ HI a n y Ha Y1). destruct (hi_alloc _ _ _ HI a n Ha) as (A1 & _). heap_lia. }
  assert (A !! taken_at = None) as HTn.
  { destruct (A !! taken_at) as [k|] eqn:E; [|done]. pose proof (HdT _ _ E). destruct (hi_alloc _ _ _ HI _ _ E) as (A1 & _). heap_lia. }
  split; cbn [um set_freep set_um freep brk].
  - done.
  - by rewrite Hhead.
  - apply Forall_forall. intros u [Hu Hne]%Htail. apply elem_of_app in Hu as [Hu|[->|Hu]%elem_of_cons].
    + destruct (in_list u) as [->|?]; [|done|done]. rewrite HL. apply elem_of_app. by left.
    + destruct (in_list z) as [->|?]; [|done|done]. rewrite HL. apply elem_of_app. right. by left.
    + destruct (left_elem u Hu) as [Hu'|[-> E]]; [|heap_lia]. destruct (in_list u) as [->|?]; [|done|done]. rewrite HL. apply elem_of_app. right. right. by right.
  - exists z. split; [|done]. rewrite Hhead. apply elem_of_app. right. by left.
  - intros a n [[<- <-]|[Hne Ha]]%lookup_insert_Some; [split_and!; [lia|lia|heap_lia|done]|].
    destruct (hi_alloc _ _ _ HI a n Ha) as (A1 & A2 & A3 & A4). split_and!; [done|done|done|]. rewrite <- A4.
    apply (only_same _ _ _ Ho). intros h Hh. pose proof (HdT a n Ha). pose proof (hi_disj _ _ _ HI a n y Ha Y1).
    assert (h = z.1 \/ h = y.1 \/ h = taken_at) as [->|[->| ->]].
    { destruct (y.2 =? nunits); [apply list_elem_of_singleton in Hh; auto|]. apply elem_of_cons in Hh as [->|Hh]; [auto|]. apply list_elem_of_singleton in Hh. auto. }
    + destruct (in_list z) as [->|?]; [rewrite HL; apply elem_of_app; right; by left|heap_lia|].
      assert (disj (a, n) z); [|heap_lia]. apply (hi_disj _ _ _ HI a n z Ha).
      assert (z ∈ (base, 0) :: F) as Hzz by (rewrite HL; apply elem_of_app; right; by left). apply elem_of_cons in Hzz as [->|?]; [heap_lia|done].
    + heap_lia.
    + heap_lia.
  - intros a n b k [[<- <-]|[Hne Ha]]%lookup_insert_Some [[<- <-]|[Hne' Hb]]%lookup_insert_Some Hab; [done| | |].
    + pose proof (HdT b k Hb). heap_lia.
    + by apply HdT.
    + by eapply (hi_alloc_disj _ _ _ HI).
  - intros a n u [[<- <-]|[Hne Ha]]%lookup_insert_Some [Hu Hnb]%Htail.
    + apply elem_of_app in Hu as [Hu|[->|Hu]%elem_of_cons].
      * specialize (S1 u y Hu ltac:(right; by left)). heap_lia.
      * heap_lia.
      * destruct (left_elem u Hu) as [Hu'|[-> E]]; [rewrite Forall_forall in S5; specialize (S5 u Hu')|]; unfold taken_at in *; heap_lia.
    + destruct (hi_alloc _ _ _ HI a n Ha) as (A1 & A2 & _). apply take_disj; try done. intros v Hv. by apply (hi_disj _ _ _ HI).
  - exact (hi_brk _ _ _ HI).
Qed.
End take.

(** ** The search *)

(** Following the links from [p] visits the blocks [R]. *)
Fixpoint path (p : Z) (R : list blk) : Prop :=
  match R with [] => True | y :: R' => hp p (um s) = y.1 /\ path y.1 R' end.

Lemma lseg_path l stop p : lseg (um s) l stop -> hp p (um s) = hd_addr l stop -> path p l.
Proof. revert p. induction l as [|y l IH]; intros p Hl Hp; cbn; [done|]. destruct Hl as (_ & H1 & H2). split; [done|]. by apply IH. Qed.

Lemma path_app p R1 y R2 : path p (R1 ++ [y]) -> path y.1 R2 -> path p ((R1 ++ [y]) ++ R2).
Proof. revert p. induction R1 as [|u R1 IH]; intros p; cbn; [naive_solver|]. intros [? ?] ?. split; [done|]. by apply IH. Qed.

(** All the way round, from the block after [x] to [x]. *)
Lemma circle l1 x l2 : (base, 0) :: F = l1 ++ x :: l2 -> path x.1 (l2 ++ l1 ++ [x]).
Proof.
  intros Hl. pose proof (hi_links _ _ _ HI) as Hlk. rewrite Hl in Hlk. apply lseg_app in Hlk as [K1 (K2 & K3 & K4)].
  destruct (base_first _ _ _ Hl) as [t Ht].
  assert (forall p, hp p (um s) = base -> path p (l1 ++ [x])) as Hup.
  { intros p Hp. apply lseg_path with (hd_addr l2 base); [apply lseg_app; cbn; done|]. rewrite Ht. done. }
  destruct l2 as [|y l2 _] using rev_ind; [by apply Hup|]. apply path_app.
  - by apply lseg_path with base.
  - apply Hup. apply lseg_app in K4 as [_ (_ & K5 & _)]. done.
Qed.

(** The block before one that is linked to. *)
Lemma link_split z y : z ∈ (base, 0) :: F -> y ∈ (base, 0) :: F -> y <> (base, 0) -> hp z.1 (um s) = y.1 ->
  exists w rest, (base, 0) :: F = w ++ z :: y :: rest.
Proof.
  intros Hz Hy Hne Hp. destruct (list_split z Hz) as (w & t & Hl). rewrite (proj1 (links_at _ _ _ Hl)) in Hp.
  destruct t as [|y' rest]; cbn [hd_addr] in Hp.
  - exfalso. apply Hne. symmetry. apply list_inj; [by left|done|done].
  - exists w, rest. rewrite Hl. do 3 f_equal. apply list_inj; [|done|done]. rewrite Hl. apply elem_of_app. right. right. by left.
Qed.

Section search.
Context (nunits : Z) (Hn : 1 <= nunits).

(** What [malloc] does once it has been round without success. *)
Definition after_round (fuel : nat) : M heap Z :=
  p <- (r <- morecore nunits ;; ret (if r =? 0 then None else Some r)) ;;
  match p with
  | None => ret 0
  | Some p => q <- get_ptr p ;; malloc_loop fuel nunits p q
  end.

Lemma malloc_loop_step fuel prev p : malloc_loop (S fuel) nunits prev p s =
  if nunits <=? hs p (um s) then malloc_take nunits prev p s
  else if p =? freep s then after_round fuel s
  else malloc_loop fuel nunits p (hp p (um s)) s.
Proof.
  cbn [malloc_loop]. unfold bind at 1, get_size, gets at 1. destruct (nunits <=? hs p (um s)); [done|].
  unfold bind at 1, gets at 1. by destruct (p =? freep s).
Qed.

Lemma search_ok x : freep s = x.1 -> forall R z fuel, z ∈ (base, 0) :: F -> (forall y, y ∈ R -> y ∈ (base, 0) :: F /\ y.1 <> x.1) ->
  x ∈ (base, 0) :: F -> path z.1 (R ++ [x]) -> (length R < fuel)%nat ->
  (exists w z' y rest, (base, 0) :: F = w ++ z' :: y :: rest /\ nunits <= y.2 /\
     malloc_loop fuel nunits z.1 (hd_addr (R ++ [x]) 0) s = malloc_take nunits z'.1 y.1 s) \/
  (Forall (fun y => y.2 < nunits) (R ++ [x]) /\
   malloc_loop fuel nunits z.1 (hd_addr (R ++ [x]) 0) s = after_round (fuel - length R - 1) s).
Proof.
  intros Hfp. induction R as [|y R IH]; intros z [|fuel] Hz HR Hx Hp Hf; cbn [length] in Hf; try lia; cbn [app hd_addr] in *;
    destruct Hp as [Hp1 Hp2]; rewrite malloc_loop_step, Hfp.
  - destruct (list_split x Hx) as (l1 & l2 & Hl). rewrite (proj2 (links_at _ _ _ Hl)), Z.eqb_refl.
    destruct (Z.leb_spec nunits x.2) as [Hb|Hb].
    + left. destruct (link_split z x Hz Hx) as (w & rest & Hw); [intros ->; cbn in Hb; lia|done|]. eauto 10.
    + right. split; [by constructor|]. by replace (S fuel - length [] - 1)%nat with fuel by (cbn; lia).
  - destruct (HR y ltac:(by left)) as [Hy Hne]. destruct (list_split y Hy) as (l1 & l2 & Hl).
    rewrite (proj2 (links_at _ _ _ Hl)), (proj2 (Z.eqb_neq y.1 x.1)) by done. destruct (Z.leb_spec nunits y.2) as [Hb|Hb].
    + left. destruct (link_split z y Hz Hy) as (w & rest & Hw); [intros ->; cbn in Hb; lia|done|]. eauto 10.
    + assert (hp y.1 (um s) = hd_addr (R ++ [x]) 0) as Hq by (destruct R; by destruct Hp2). rewrite Hq.
      destruct (IH y fuel Hy (fun u Hu => HR u ltac:(by right)) Hx Hp2 ltac:(lia)) as [H|[H1 H2]]; [by left|right].
      split; [by constructor|]. cbn [length]. done.
Qed.

(** One round, from [freep]. *)
Lemma round_ok fuel : (length F < fuel)%nat ->
  (exists w z' y rest, (base, 0) :: F = w ++ z' :: y :: rest /\ nunits <= y.2 /\
     malloc_loop fuel nunits (freep s) (hp (freep s) (um s)) s = malloc_take nunits z'.1 y.1 s) \/
  (Forall (fun y => y.2 < nunits) F /\
   malloc_loop fuel nunits (freep s) (hp (freep s) (um s)) s = after_round (fuel - length F - 1) s).
Proof.
  intros Hf. destruct (hi_freep _ _ _ HI) as (x & Hx & Hfp). destruct (list_split x Hx) as (l1 & l2 & Hl).
  pose proof (circle _ _ _ Hl) as Hc. rewrite app_assoc in Hc. pose proof (f_equal length Hl) as Hlen.
  rewrite length_app in Hlen. cbn [length] in Hlen.
  assert (forall y, y ∈ l2 ++ l1 -> y ∈ (base, 0) :: F /\ y.1 <> x.1) as HR.
  { intros y Hy. assert (y ∈ l1 ++ l2) as Hy' by set_solver. split; [rewrite Hl; set_solver|].
    pose proof (list_apart _ _ _ y Hl Hy') as Hap. intros E. heap_lia. }
  assert (hp x.1 (um s) = hd_addr ((l2 ++ l1) ++ [x]) 0) as Hq by (destruct (l2 ++ l1); by destruct Hc).
  rewrite Hfp, Hq. destruct (search_ok x Hfp (l2 ++ l1) x fuel Hx HR Hx Hc) as [H|[H1 H2]]; [rewrite length_app; lia|by left|right].
  split.
  - assert (Forall (fun y : blk => y.2 < nunits) ((base, 0) :: F)) as HF; [|by apply Forall_cons in HF as [_ ?]].
    rewrite Hl. rewrite !Forall_app, Forall_cons in *. naive_solver.
  - rewrite H2. f_equal. rewrite length_app. lia.
Qed.
End search.
End inv.

(** ** The operations *)

(** The contents of the allocated blocks are the same. *)
Definition payload_same (A : gmap Z Z) (m m' : mem) : Prop :=
  forall a n b, A !! a = Some n -> a + HDR <= b < bend (a, n) -> m' b = m b.

Lemma heap_inv_weaken s F A bp : heap_inv s F A -> heap_inv s F (delete bp A).
Proof.
  intros [H1 H2 H3 H4 H5 H6 H7 H8]. split; try done.
  - intros a n [_ Ha]%lookup_delete_Some. by apply H5.
  - intros a n b k [_ Ha]%lookup_delete_Some [_ Hb]%lookup_delete_Some. by apply H6.
  - intros a n x [_ Ha]%lookup_delete_Some. by apply H7.
Qed.

(** A block that is neither free nor allocated goes into the list. *)
Lemma free_new s F A bp sz : heap_inv s F A -> 1 <= sz -> lo <= bp -> bend (bp, sz) <= brk s -> hs bp (um s) = sz ->
  (forall y, y ∈ F -> disj (bp, sz) y) -> (forall a n, A !! a = Some n -> disj (bp, sz) (a, n)) ->
  exists F' m' x, free (u32 (bp + HDR)) s = Ret tt (set_freep x.1 (set_um m' s)) /\ x ∈ (base, 0) :: F /\
    heap_inv (set_freep x.1 (set_um m' s)) F' A /\ only_headers [x.1; bp] (um s) m' /\ exists y, y ∈ F' /\ sz <= y.2.
Proof.
  intros HI H1 H2 H3 H4 H5 H6. destruct (slot_exists s F A HI bp H2) as (l1 & x & l2 & Hs & Hx & Hl2).
  { apply Forall_forall. intros y Hy. pose proof (H5 y Hy) as Hd. pose proof (hi_free _ _ _ HI) as Hf. rewrite Forall_forall in Hf.
    specialize (Hf y Hy). intros E. heap_lia. }
  destruct (free_block_ok s F A HI bp sz l1 x l2 Hs Hx Hl2 H1 H2 H3 H4 H5 H6) as (F' & m' & Hr & Hi & Ho & Hb).
  exists F', m', x. split_and!; try done. rewrite Hs. apply elem_of_app. right. by left.
Qed.

Lemma free_alloc s F A bp sz : heap_inv s F A -> A !! bp = Some sz ->
  exists F' s', free (u32 (bp + HDR)) s = Ret tt s' /\ heap_inv s' F' (delete bp A) /\
    brk s' = brk s /\ grants s' = grants s /\ payload_same A (um s) (um s').
Proof.
  intros HI Ha. destruct (hi_alloc _ _ _ HI bp sz Ha) as (A1 & A2 & A3 & A4).
  destruct (free_new s F (delete bp A) bp sz (heap_inv_weaken _ _ _ bp HI) A1 A2 A3 A4) as (F' & m' & x & Hr & Hx & Hi & Ho & _).
  - intros y Hy. by apply (hi_disj _ _ _ HI).
  - intros a n [Hne Han]%lookup_delete_Some. by apply (hi_alloc_disj _ _ _ HI).
  - exists F', (set_freep x.1 (set_um m' s)). split_and!; try done. intros a n b Han Hb.
    eapply (payload_kept s F A HI); [exact Ho|exact Han| |exact Hb]. intros h [->|Hh]%elem_of_cons; [left; eauto|].
    apply list_elem_of_singleton in Hh as ->. right. destruct (decide (bp = a)) as [->|Hne]; [by left|right].
    exists sz. split; [done|]. by apply (hi_alloc_disj _ _ _ HI).
Qed.

(** More memory from the kernel. *)
Definition grown (nu : Z) (g : list bool) (s : heap) : heap :=
  mkheap (wr_long (brk s + 4) nu (um s)) (freep s) (brk s + HDR * nu) g.

Lemma grown_inv s F A nu g : heap_inv s F A -> 1 <= nu -> brk s + HDR * nu < HEAPMAX -> heap_inv (grown nu g s) F A.
Proof.
  intros HI Hnu Hmax. pose proof HI as [H1 H2 H3 H4 H5 H6 H7 H8].
  assert (forall a, a + HDR <= brk s -> hp a (um (grown nu g s)) = hp a (um s) /\ hs a (um (grown nu g s)) = hs a (um s)) as Hh.
  { intros a Ha. cbn. rewrite hp_size_apart, hs_size_apart by heap_lia. done. }
  split; cbn [brk freep grown]; try done.
  - assert (forall l stop, (forall x, x ∈ l -> x.1 + HDR <= brk s) -> lseg (um s) l stop -> lseg (um (grown nu g s)) l stop) as Hl.
    { induction l as [|x l IH]; intros stop Hx; [done|]. intros (L1 & L2 & L3). cbn [lseg].
      destruct (Hh x.1 (Hx x ltac:(by left))) as [-> ->]. split_and!; [done|done|]. apply IH; [|done]. intros y Hy. apply Hx. by right. }
    apply Hl; [|done]. intros x Hx. by apply (in_list_range s F A HI x) in Hx as (_ & _ & ? & _).
  - eapply Forall_impl; [exact H3|]. intros x (? & ? & ?). heap_lia.
  - intros a n Ha. destruct (H5 a n Ha) as (A1 & A2 & A3 & A4). rewrite (proj2 (Hh a ltac:(heap_lia))). heap_lia.
  - heap_lia.
Qed.

Lemma sbrk_cases n s : 0 <= n ->
  (exists g, sbrk n s = Ret (2 ^ 32 - 1) (mkheap (um s) (freep s) (brk s) g)) \/
  (exists g, brk s + n < HEAPMAX /\ sbrk n s = Ret (brk s) (mkheap (um s) (freep s) (brk s + n) g)).
Proof.
  intros Hn. unfold sbrk, bind, gets, modify, ret. rewrite (proj2 (Z.ltb_ge n 0)) by done.
  destruct s as [m fp b [|[] g]]; cbn; [left; by exists []| |left; by exists g].
  destruct (Z.leb_spec HEAPMAX (b + n)); [left; by exists g|right; by exists g].
Qed.

Lemma morecore_ok s F A nunits : heap_inv s F A -> 1 <= nunits < 2 ^ 28 ->
  (exists s', morecore nunits s = Ret 0 s' /\ heap_inv s' F A /\ um s' = um s) \/
  (exists F' s', morecore nunits s = Ret (freep s') s' /\ heap_inv s' F' A /\ payload_same A (um s) (um s') /\
     brk s' = brk s + HDR * Z.max nunits 4096 /\ exists y, y ∈ F' /\ nunits <= y.2).
Proof.
  intros HI Hn. pose proof (hi_brk _ _ _ HI) as Hb. set (nu := Z.max nunits 4096). assert (4096 <= nu < 2 ^ 28) as Hnu by (unfold nu; lia).
  assert (morecore nunits s = (p <- sbrk (HDR * nu) ;; if p =? 2 ^ 32 - 1 then ret 0 else
    set_size p nu ;; free (u32 (p + HDR)) ;; gets freep) s) as ->.
  { unfold morecore. replace (if nunits <? 4096 then 4096 else nunits) with nu by (unfold nu; destruct (Z.ltb_spec nunits 4096); lia).
    rewrite s32_u32, s32_small by heap_lia. by rewrite Z.mul_comm. }
  destruct (sbrk_cases (HDR * nu) s ltac:(heap_lia)) as [(g & Hs)|(g & Hm & Hs)].
  { left. exists (mkheap (um s) (freep s) (brk s) g). unfold bind. rewrite Hs. split_and!; [done|by destruct HI|done]. }
  right. assert (heap_inv (grown nu g s) F A) as HG by (apply grown_inv; [done|lia|done]).
  destruct (free_new (grown nu g s) F A (brk s) nu HG) as (F' & m' & x & Hr & Hx & Hi & Ho & Hbig).
  - lia.
  - lia.
  - cbn. heap_lia.
  - cbn. rewrite hs_size_same. apply u32_small. lia.
  - intros y Hy. pose proof (hi_free _ _ _ HI) as Hf. rewrite Forall_forall in Hf. specialize (Hf y Hy). heap_lia.
  - intros a n Ha. destruct (hi_alloc _ _ _ HI a n Ha) as (_ & _ & ? & _). heap_lia.
  - exists F', (set_freep x.1 (set_um m' (grown nu g s))). split_and!; [|done| |done|].
    + unfold bind. rewrite Hs, (proj2 (Z.eqb_neq (brk s) (2 ^ 32 - 1))) by (unfold HEAPMAX in Hb; lia).
      unfold set_size, modify. cbn [um set_um freep brk grants]. unfold set_um at 1. cbn [um freep brk grants]. fold (grown nu g s). by rewrite Hr.
    + intros a n b Ha Hbb. cbn [um set_freep set_um]. destruct (hi_alloc _ _ _ HI a n Ha) as (A1 & A2 & A3 & _).
      rewrite (payload_kept (grown nu g s) F A HG _ m' a n b Ho Ha); [|clear b Hbb|done].
      { cbn. apply wr_long_out. heap_lia. }
      intros h [->|Hh]%elem_of_cons; [left; eauto|]. apply list_elem_of_singleton in Hh as ->. right. right. exists nu. split; [lia|]. heap_lia.
    + destruct Hbig as (y & Hy & Hys). exists y. split; [done|lia].
Qed.

(** The heap, before the first call of [malloc] or after it. *)
Definition heap_ok (s : heap) (A : gmap Z Z) : Prop :=
  (freep s = 0 /\ A = ∅ /\ lo <= brk s < HEAPMAX) \/ exists F, heap_inv s F A.

Lemma malloc_init_ok s A : heap_ok s A -> exists s1 F, malloc_init base s = Ret tt s1 /\ heap_inv s1 F A /\ payload_same A (um s) (um s1) /\ brk s1 = brk s.
Proof.
  intros [(Hf & -> & Hb)|[F HI]].
  - unfold malloc_init, bind at 1, gets. rewrite Hf. cbn [Z.eqb]. eexists _, []. split; [reflexivity|]. split; [|split; [|done]].
    + assert (u32 base = base) as Hu by (apply u32_small; unfold HEAPMAX, HDR in *; lia).
      split; cbn [um set_um freep set_freep brk].
      * cbn [lseg fst snd hd_addr]. rewrite hs_size_same, hp_size_same, hp_ptr_same, Hu. done.
      * repeat constructor.
      * constructor.
      * exists (base, 0). split; [by left|done].
      * intros a n Ha. by rewrite lookup_empty in Ha.
      * intros a n c k Ha. by rewrite lookup_empty in Ha.
      * intros a n x Ha. by rewrite lookup_empty in Ha.
      * done.
    + intros a n c Ha. by rewrite lookup_empty in Ha.
  - exists s, F. unfold malloc_init, bind, gets. destruct (hi_freep _ _ _ HI) as (x & Hx & Hfx).
    destruct (in_list_range s F A HI x Hx) as (_ & ? & _). rewrite (proj2 (Z.eqb_neq (freep s) 0)) by lia. done.
Qed.

(** A block found in the list. *)
Lemma take_ok s F A nunits w z y rest : heap_inv s F A -> (base, 0) :: F = w ++ z :: y :: rest -> 1 <= nunits <= y.2 ->
  exists a s', malloc_take nunits z.1 y.1 s = Ret (a + HDR) s' /\ lo <= a /\ A !! a = None /\
    (exists F', heap_inv s' F' (<[a := nunits]> A)) /\ payload_same A (um s) (um s').
Proof.
  intros HI HL Hn. destruct (malloc_take_run s F A HI nunits w z y rest HL Hn) as (m' & Hr & Ho & Hs & Hl).
  pose proof (take_inv s F A HI nunits w z y rest HL Hn m' Ho Hs Hl) as Hi.
  destruct (y_in s F A HI nunits w z y rest HL Hn) as (Y1 & Y2 & Y3 & Y4). destruct (taken_inside nunits y Hn) as [T1 T2].
  assert (forall a n, A !! a = Some n -> disj (a, n) y) as Hd by (intros a n Ha; by apply (hi_disj _ _ _ HI)).
  exists (taken_at nunits y), (set_freep z.1 (set_um m' s)). split_and!; [done|lia| |eauto|].
  - destruct (A !! taken_at nunits y) as [k|] eqn:E; [|done]. pose proof (Hd _ _ E). destruct (hi_alloc _ _ _ HI _ _ E) as (A1 & _). heap_lia.
  - intros a n b Ha Hb. eapply (payload_kept s F A HI); [exact Ho|exact Ha| |exact Hb]. intros h Hh. pose proof (Hd a n Ha) as Hda.
    destruct (hi_alloc _ _ _ HI a n Ha) as (A1 & _).
    destruct (y.2 =? nunits); [apply list_elem_of_singleton in Hh as ->; left; exists z; split; [rewrite HL; apply elem_of_app; right; by left|done]|].
    apply elem_of_cons in Hh as [->|Hh]; [left; exists y; split; [by right|done]|]. apply list_elem_of_singleton in Hh as ->.
    right. right. exists nunits. split; [lia|]. heap_lia.
Qed.

Lemma payload_trans A m1 m2 m3 : payload_same A m1 m2 -> payload_same A m2 m3 -> payload_same A m1 m3.
Proof. intros H1 H2 a n b Ha Hb. rewrite (H2 a n b Ha Hb). by apply (H1 a n b). Qed.

Lemma count_fuel s F A : heap_inv s F A -> (length F < fuel_of s)%nat.
Proof. intros HI. pose proof (free_count s F A HI). unfold fuel_of. heap_lia. Qed.

Lemma malloc_units s A nbytes nu : heap_ok s A -> nunits_of nbytes = nu -> 1 <= nu < 2 ^ 28 ->
  exists r s', malloc base nbytes s = Ret r s' /\ payload_same A (um s) (um s') /\
    ((r = 0 /\ heap_ok s' A) \/
     (exists a, r = a + HDR /\ lo <= a /\ A !! a = None /\ heap_ok s' (<[a := nu]> A))).
Proof.
  intros Hok Hnu Hn. destruct (malloc_init_ok s A Hok) as (s1 & F & Hinit & HI & Hpay & Hbrk).
  assert (malloc base nbytes s = malloc_loop (fuel_of s1 + (fuel_of s1 + Z.to_nat (8 * Z.max nu 4096))) nu (freep s1) (hp (freep s1) (um s1)) s1) as ->.
  { unfold malloc. rewrite Hnu. unfold bind at 1. rewrite Hinit. done. }
  pose proof (count_fuel _ _ _ HI) as Hfl. destruct (round_ok s1 F A HI nu ltac:(lia) (fuel_of s1 + (fuel_of s1 + Z.to_nat (8 * Z.max nu 4096))) ltac:(lia)) as [(w & z & y & rest & HL & Hy & ->)|[Hsmall ->]].
  { destruct (take_ok s1 F A nu w z y rest HI HL ltac:(lia)) as (a & s' & Hr & Ha & HA & HF & Hp). exists (a + HDR), s'.
    split_and!; [done|by eapply payload_trans|]. right. exists a. split_and!; try done. right. done. }
  unfold after_round, bind at 1, bind at 1. destruct (morecore_ok s1 F A nu HI Hn) as [(s2 & -> & HI2 & Hum)|(F2 & s2 & -> & HI2 & Hp2 & Hbrk2 & y0 & Hy0 & Hbig)].
  { exists 0, s2. split; [done|]. split; [by rewrite Hum|]. left. split; [done|]. right. eauto. }
  unfold ret at 1. destruct (hi_freep _ _ _ HI2) as (x & Hx & Hfx). destruct (in_list_range s2 F2 A HI2 x Hx) as (_ & ? & _).
  rewrite (proj2 (Z.eqb_neq (freep s2) 0)) by lia. unfold bind, get_ptr, gets.
  destruct (round_ok s2 F2 A HI2 nu ltac:(lia) (fuel_of s1 + (fuel_of s1 + Z.to_nat (8 * Z.max nu 4096)) - length F - 1)) as [(w & z & y & rest & HL & Hy & ->)|[Hsmall2 _]].
  - pose proof (count_fuel _ _ _ HI2) as H2. pose proof (hi_brk _ _ _ HI). unfold fuel_of in *. rewrite Hbrk2 in H2. heap_lia.
  - destruct (take_ok s2 F2 A nu w z y rest HI2 HL ltac:(lia)) as (a & s' & Hr & Ha & HA & HF & Hp). exists (a + HDR), s'.
    split_and!; [done|eapply payload_trans; [exact Hpay|]; by eapply payload_trans|]. right. exists a. split_and!; try done. right. done.
  - rewrite Forall_forall in Hsmall2. specialize (Hsmall2 y0 Hy0). lia.
Qed.

Lemma nunits_small nbytes : 0 <= nbytes < 2 ^ 31 - 15 ->
  1 <= nunits_of nbytes < 2 ^ 28 /\ nbytes <= HDR * (nunits_of nbytes - 1).
Proof.
  intros Hnb. pose proof (Z.div_mod (nbytes + 7) 8 ltac:(lia)). pose proof (Z.mod_pos_bound (nbytes + 7) 8 ltac:(lia)).
  unfold nunits_of, HDR. rewrite (u32_small (nbytes + 8 - 1)) by lia. replace (nbytes + 8 - 1) with (nbytes + 7) by lia.
  rewrite u32_small; lia.
Qed.

(** ** The heap as byte arrays *)

(** The live blocks: the address given out and the bytes it holds. *)
Definition holds (s : heap) (B : gmap Z (list Z)) : Prop :=
  exists A, heap_ok s A /\ (forall a n, A !! a = Some n -> is_Some (B !! (a + HDR))) /\
    forall p l, B !! p = Some l -> exists n, A !! (p - HDR) = Some n /\ Z.of_nat (length l) <= HDR * (n - 1) /\
      forall i v, l !! i = Some v -> um s (p + Z.of_nat i) = v.

Definition store (a v : Z) (s : heap) : heap := set_um (wr a v (um s)) s.

Lemma heap_ok_alloc s A a n : heap_ok s A -> A !! a = Some n -> exists F, heap_inv s F A.
Proof. intros [(_ & -> & _)|H] Ha; [by rewrite lookup_empty in Ha|done]. Qed.

(** A store into a block keeps the invariant. *)
Lemma store_inv s F A a n b v : heap_inv s F A -> A !! a = Some n -> a + HDR <= b < bend (a, n) -> heap_inv (store b v s) F A.
Proof.
  intros HI Ha Hb. pose proof HI as [H1 H2 H3 H4 H5 H6 H7 H8]. destruct (H5 a n Ha) as (A1 & A2 & A3 & A4).
  assert (forall h, h + HDR <= b \/ b < h -> hp h (wr b v (um s)) = hp h (um s) /\ hs h (wr b v (um s)) = hs h (um s)) as Hh.
  { intros h Hhb. split; apply ld_long_ext; intros c Hc; apply wr_ne; heap_lia. }
  split; cbn [um store set_um brk freep]; try done.
  - assert (forall l stop, (forall x, x ∈ l -> x ∈ (base, 0) :: F) -> lseg (um s) l stop -> lseg (wr b v (um s)) l stop) as Hl; [|by apply Hl].
    induction l as [|x l IH]; intros stop Hx; [done|]. intros (L1 & L2 & L3). cbn [lseg].
    assert (x.1 + HDR <= b \/ b < x.1) as Hxb.
    { pose proof (Hx x ltac:(by left)) as Hin. destruct (in_list s F A HI x Hin) as [->|(X1 & _)]; [heap_lia|].
      apply elem_of_cons in Hin as [->|Hin]; [heap_lia|]. pose proof (H7 a n x Ha Hin). heap_lia. }
    destruct (Hh x.1 Hxb) as [-> ->]. split_and!; [done|done|]. apply IH; [|done]. intros y Hy. apply Hx. by right.
  - intros c k Hc. destruct (H5 c k Hc) as (C1 & C2 & C3 & C4). split_and!; try done. rewrite <- C4. apply Hh.
    destruct (decide (c = a)) as [->|Hne]; [heap_lia|]. pose proof (H6 c k a n Hc Ha Hne). heap_lia.
Qed.

(** Two live blocks do not overlap. *)
Lemma holds_disj s A p (l : list Z) n q k : heap_ok s A -> A !! (p - HDR) = Some n -> Z.of_nat (length l) <= HDR * (n - 1) ->
  A !! q = Some k -> q <> p - HDR -> p + Z.of_nat (length l) <= q \/ bend (q, k) <= p - HDR.
Proof.
  intros Hok Hp Hl Hq Hne. destruct (heap_ok_alloc _ _ _ _ Hok Hp) as [F HI]. pose proof (hi_alloc_disj _ _ _ HI _ _ _ _ Hq Hp Hne). heap_lia.
Qed.

Lemma holds_malloc s B nbytes : holds s B -> 0 <= nbytes < 2 ^ 31 - 15 ->
  exists r s', malloc base nbytes s = Ret r s' /\
    ((r = 0 /\ holds s' B) \/
     (r <> 0 /\ B !! r = None /\
      (forall p l, B !! p = Some l -> p + Z.of_nat (length l) <= r \/ r + nbytes <= p) /\
      exists l, Z.of_nat (length l) = nbytes /\ holds s' (<[r := l]> B))).
Proof.
  intros (A & Hok & HA & HB) Hnb. destruct (nunits_small nbytes Hnb) as [Hnu Hfit].
  destruct (malloc_units s A nbytes _ Hok eq_refl Hnu) as (r & s' & Hr & Hpay & Hres). exists r, s'. split; [done|].
  assert (forall p l, B !! p = Some l -> exists n, A !! (p - HDR) = Some n /\ Z.of_nat (length l) <= HDR * (n - 1) /\
            forall i v, l !! i = Some v -> um s' (p + Z.of_nat i) = v) as HB'.
  { intros p l Hl. destruct (HB p l Hl) as (n & Hn & Hlen & Hval). exists n. split_and!; [done|done|]. intros i v Hi.
    rewrite <- (Hval i v Hi). apply (Hpay _ _ _ Hn). apply lookup_lt_Some in Hi. heap_lia. }
  destruct Hres as [[-> Hok']|(a & -> & Ha & HAa & Hok')]; [left; split; [done|]; by exists A|right].
  assert (forall p l, B !! p = Some l -> p <> a + HDR) as Hne.
  { intros p l Hl ->. destruct (HB _ _ Hl) as (n & Hn & _). replace (a + HDR - HDR) with a in Hn by lia. congruence. }
  split; [heap_lia|]. split; [|split].
  - destruct (B !! (a + HDR)) as [l|] eqn:E; [|done]. by destruct (Hne _ _ E).
  - intros p l Hl. destruct (HB' p l Hl) as (n & Hn & Hlen & _).
    destruct (holds_disj s' (<[a := nunits_of nbytes]> A) p l n a (nunits_of nbytes) Hok'); [|done|apply lookup_insert_eq| |heap_lia|heap_lia].
    + rewrite lookup_insert_ne; [done|]. specialize (Hne _ _ Hl). lia.
    + specialize (Hne _ _ Hl). lia.
  - exists (map (fun i => um s' (a + HDR + Z.of_nat i)) (seq 0 (Z.to_nat nbytes))). rewrite length_map, length_seq. split; [lia|].
    exists (<[a := nunits_of nbytes]> A). split_and!; [done| |].
    + intros c n [[<- <-]|[Hc Hcn]]%lookup_insert_Some; [rewrite lookup_insert_eq; eauto|].
      rewrite lookup_insert_ne by lia. by eapply HA.
    + intros p l [[<- <-]|[Hp Hl]]%lookup_insert_Some.
      * exists (nunits_of nbytes). replace (a + HDR - HDR) with a by lia. rewrite lookup_insert_eq, length_map, length_seq.
        split_and!; [done|lia|]. intros i v Hi. apply list_lookup_fmap_Some in Hi as (j & -> & Hj). apply lookup_seq in Hj as [-> _]. done.
      * destruct (HB' p l Hl) as (n & Hn & Hlen & Hval). exists n. rewrite lookup_insert_ne by lia. done.
Qed.

Lemma holds_free s B p l : holds s B -> B !! p = Some l -> exists s', free p s = Ret tt s' /\ holds s' (delete p B).
Proof.
  intros (A & Hok & HA & HB) Hp. destruct (HB p l Hp) as (n & Hn & Hlen & _). destruct (heap_ok_alloc _ _ _ _ Hok Hn) as [F HI].
  destruct (hi_alloc _ _ _ HI _ _ Hn) as (A1 & A2 & A3 & _). pose proof (hi_brk _ _ _ HI) as Hb.
  destruct (free_alloc s F A (p - HDR) n HI Hn) as (F' & s' & Hr & HI' & _ & _ & Hpay).
  replace (u32 (p - HDR + HDR)) with p in Hr by (replace (p - HDR + HDR) with p by lia; symmetry; apply u32_small; unfold HEAPMAX in Hb; heap_lia).
  exists s'. split; [done|]. exists (delete (p - HDR) A). split_and!; [right; eauto| |].
  - intros a k [Hne Ha]%lookup_delete_Some. rewrite lookup_delete_ne by lia. by eapply HA.
  - intros q l' [Hne Hq]%lookup_delete_Some. destruct (HB q l' Hq) as (k & Hk & Hlk & Hval). exists k.
    rewrite lookup_delete_ne by lia. split_and!; [done|done|]. intros i v Hi. rewrite <- (Hval i v Hi).
    apply (Hpay _ _ _ Hk). apply lookup_lt_Some in Hi. heap_lia.
Qed.

Lemma holds_store s B p l i v : holds s B -> B !! p = Some l -> (i < length l)%nat ->
  holds (store (p + Z.of_nat i) v s) (<[p := <[i := v]> l]> B).
Proof.
  intros (A & Hok & HA & HB) Hp Hi. destruct (HB p l Hp) as (n & Hn & Hlen & Hval). destruct (heap_ok_alloc _ _ _ _ Hok Hn) as [F HI].
  exists A. split_and!; [right; exists F; eapply store_inv; [done|exact Hn|heap_lia]| |].
  - intros a k Ha. destruct (decide (a + HDR = p)) as [->|Hne]; [rewrite lookup_insert_eq; eauto|]. rewrite lookup_insert_ne by done. by eapply HA.
  - intros q l' [[<- <-]|[Hne Hq]]%lookup_insert_Some.
    + exists n. rewrite length_insert. split_and!; [done|done|]. intros j w Hj. cbn. destruct (decide (i = j)) as [->|Hij].
      * rewrite list_lookup_insert_eq in Hj by done. injection Hj as <-. by rewrite wr_same.
      * rewrite list_lookup_insert_ne in Hj by done. rewrite wr_ne by lia. by apply Hval.
    + destruct (HB q l' Hq) as (k & Hk & Hlk & Hvk). exists k. split_and!; [done|done|]. intros j w Hj. cbn.
      rewrite wr_ne; [by apply Hvk|]. apply lookup_lt_Some in Hj.
      destruct (holds_disj s A q l' k (p - HDR) n Hok Hk Hlk Hn ltac:(lia)); heap_lia.
Qed.

(** C17: the heap is a collection of disjoint byte arrays.  [malloc] returns
    for every size that does not wrap: either 0, with the live arrays as they
    were, or the address of a new array of that many bytes which overlaps none
    of the live ones, whose contents are unchanged; [free] of a live array
    returns and leaves the others unchanged; a store into a live array changes
    that byte of it and nothing else.  The invariant behind it (the circular
    list ordered by address, coalesced, disjoint from what is allocated) is
    kept by all three. *)
Theorem heap_arrays (s : heap) (B : gmap Z (list Z)) : holds s B ->
  (forall nbytes, 0 <= nbytes < 2 ^ 31 - 15 ->
     exists r s', malloc base nbytes s = Ret r s' /\
       ((r = 0 /\ holds s' B) \/
        (r <> 0 /\ B !! r = None /\
         (forall p l, B !! p = Some l -> p + Z.of_nat (length l) <= r \/ r + nbytes <= p) /\
         exists l, Z.of_nat (length l) = nbytes /\ holds s' (<[r := l]> B)))) /\
  (forall p l, B !! p = Some l -> exists s', free p s = Ret tt s' /\ holds s' (delete p B)) /\
  (forall p l i v, B !! p = Some l -> (i < length l)%nat -> holds (store (p + Z.of_nat i) v s) (<[p := <[i := v]> l]> B)).
Proof.
  intros Hh. split_and!.
  - intros nbytes. by apply holds_malloc.
  - intros p l. by apply holds_free.
  - intros p l i v. by apply holds_store.
Qed.

(** The number of units wraps.  A request of 2^32-7 bytes or more is
    taken for one unit, the header alone: if [malloc] returns an address, the
    block behind it has no byte at all for the caller. *)
Theorem malloc_wraps (s : heap) (A : gmap Z Z) (nbytes : Z) : heap_ok s A -> 2 ^ 32 - 7 <= nbytes < 2 ^ 32 ->
  nunits_of nbytes = 1 /\
  exists r s', malloc base nbytes s = Ret r s' /\
    ((r = 0 /\ heap_ok s' A) \/ (lo <= r - HDR /\ heap_ok s' (<[r - HDR := 1]> A) /\ bend (r - HDR, 1) = r)).
Proof.
  intros Hok Hnb. assert (nunits_of nbytes = 1) as Hnu.
  { unfold nunits_of, HDR. replace (u32 (nbytes + 8 - 1)) with (nbytes + 7 - 2 ^ 32) by (unfold u32; symmetry; replace (nbytes + 8 - 1) with (nbytes + 7 - 2 ^ 32 + 1 * 2 ^ 32) by lia; rewrite Z.mod_add by lia; apply Z.mod_small; lia).
    rewrite Z.div_small by lia. done. }
  split; [done|]. destruct (malloc_units s A nbytes 1 Hok Hnu ltac:(lia)) as (r & s' & Hr & _ & Hres). exists r, s'. split; [done|].
  destruct Hres as [?|(a & -> & Ha & _ & Hok')]; [by left|right]. replace (a + HDR - HDR) with a by lia. split_and!; [done|done|heap_lia].
Qed.
End heap.

(** ** Examples *)
Module HeapW.

(** A process with its data below 8192, [base] at 4096, and a kernel that
    grants one request. *)
Definition u0 : heap := mkheap (fun _ => 0) 0 8192 [true].
Definition addr_of {A} (d : A) (r : res heap A) : A := match r with Ret a _ => a | _ => d end.

Lemma u0_ok : heap_ok 4096 8192 u0 ∅.
Proof. left. split_and!; [done|done|unfold HEAPMAX; cbn; lia..]. Qed.

Lemma u0_holds : holds 4096 8192 u0 ∅.
Proof. exists ∅. split_and!; [apply u0_ok| |]; intros ? ? H; by rewrite lookup_empty in H. Qed.

Lemma heap_arrays_witness :
  addr_of 0 (malloc 4096 10 u0) = 40944 /\
  exists r s', malloc 4096 10 u0 = Ret r s' /\
    ((r = 0 /\ holds 4096 8192 s' ∅) \/
     (r <> 0 /\ (∅ : gmap Z (list Z)) !! r = None /\
      (forall p l, (∅ : gmap Z (list Z)) !! p = Some l -> p + Z.of_nat (length l) <= r \/ r + 10 <= p) /\
      exists l, Z.of_nat (length l) = 10 /\ holds 4096 8192 s' (<[r := l]> ∅))).
Proof.
  split; [by vm_compute|]. apply (proj1 (heap_arrays 4096 8192 ltac:(lia) ltac:(unfold HDR; lia) u0 ∅ u0_holds) 10). lia.
Defined.

(** A request of 2^32-1 bytes succeeds on this heap. *)
Lemma malloc_wraps_witness :
  addr_of 0 (malloc 4096 (2 ^ 32 - 1) u0) = 40960 /\
  nunits_of (2 ^ 32 - 1) = 1 /\
  exists r s', malloc 4096 (2 ^ 32 - 1) u0 = Ret r s' /\
    ((r = 0 /\ heap_ok 4096 8192 s' ∅) \/
     (8192 <= r - HDR /\ heap_ok 4096 8192 s' (<[r - HDR := 1]> ∅) /\ bend (r - HDR, 1) = r)).
Proof.
  split; [by vm_compute|]. apply (malloc_wraps 4096 8192 ltac:(lia) ltac:(unfold HDR; lia) u0 ∅ (2 ^ 32 - 1) u0_ok). lia.
Defined.

End HeapW.
