(* ===== verification/Mp.v ===== *)
(** Finding the processors: mp.c, mp.h.

    The search for the multiprocessor tables in the memory the BIOS leaves, and
    the walk over the configuration table.  Memory is a function from physical
    addresses to bytes; the walk takes fuel, since it does not always end. *)

From S2P Require Import Prelude Params CString.

(** The variables of mp.c, the local APIC's address of lapic.c, and whether the
    interrupt mode register was switched. *)
Record mpst : Type := mkmp {
  cpu_id : list Z; bcpu : nat; ismp : bool; ncpu : Z; ioapicid : Z; lapicaddr : Z; imcr : bool
}.
Definition mp0 : mpst := mkmp (replicate NCPU 0) 0 false 0 0 0 false.

Definition SIZEOF_MP : Z := 16.
Definition SIZEOF_MPCONF : Z := 44.
Definition MPPROC : Z := 0.
Definition MPBUS : Z := 1.
Definition MPIOAPIC : Z := 2.
Definition MPIOINTR : Z := 3.
Definition MPLINTR : Z := 4.
Definition MPBOOT : Z := 2.

Definition bytes_at (m : mem) (a : Z) (l : list Z) : Prop := forall i v, l !! i = Some v -> m (a + Z.of_nat i) = v.
Definition read_at (m : mem) (a : Z) (n : nat) : list Z := map (fun i => m (a + Z.of_nat i)) (seq 0 n).

(** mp.c [sum] *)
Fixpoint sum_loop (n : nat) (m : mem) (a acc : Z) : Z :=
  match n with O => acc | S n' => sum_loop n' m (a + 1) (s32 (acc + m a)) end.
Definition sum (m : mem) (a len : Z) : Z := u8 (sum_loop (Z.to_nat len) m a 0).

(** "_MP_" and "PCMP" *)
Definition MP_SIG : list Z := [95; 77; 80; 95].
Definition PCMP_SIG : list Z := [80; 67; 77; 80].
Definition sig_at (m : mem) (a : Z) (l : list Z) : bool := bool_decide (read_at m a (length l) = l).

(** mp.c [mpsearch1]: the structures that may be in the [len] bytes at [a]. *)
Fixpoint mpsearch1_loop (n : nat) (m : mem) (p : Z) : option Z :=
  match n with
  | O => None
  | S n' => if sig_at m p MP_SIG && (sum m p SIZEOF_MP =? 0) then Some p else mpsearch1_loop n' m (p + SIZEOF_MP)
  end.
Definition mpsearch1 (m : mem) (a len : Z) : option Z :=
  mpsearch1_loop (Z.to_nat ((len + SIZEOF_MP - 1) / SIZEOF_MP)) m a.

(** mp.c [mpsearch]; 0x400 = 1024 is the BIOS data area. *)
Definition mpsearch (m : mem) : option Z :=
  let p := u32 (Z.shiftl (Z.lor (Z.shiftl (m (1024 + 15)) 8) (m (1024 + 14))) 4) in
  let rom := mpsearch1 m 983040 65536 in
  if negb (p =? 0) then
    match mpsearch1 m p 1024 with Some mp => Some mp | None => rom end
  else
    let p := u32 (Z.lor (Z.shiftl (m (1024 + 20)) 8) (m (1024 + 19)) * 1024) in
    match mpsearch1 m (u32 (p - 1024)) 1024 with Some mp => Some mp | None => rom end.

Definition ld16 (m : mem) (a : Z) : Z := m a + 256 * m (a + 1).

(** mp.c [mpconfig]: the floating pointer and the table. *)
Definition mpconfig (m : mem) : option (Z * Z) :=
  match mpsearch m with
  | None => None
  | Some mp =>
      let conf := ld_long (mp + 4) m in
      if conf =? 0 then None
      else if negb (sig_at m conf PCMP_SIG) then None
      else if negb (m (conf + 6) =? 1) && negb (m (conf + 6) =? 4) then None
      else if negb (sum m conf (ld16 m (conf + 4)) =? 0) then None
      else Some (mp, conf)
  end.

(** One processor entry: [cpus[ncpu]] must exist. *)
Definition mp_proc (m : mem) (p : Z) : M mpst unit :=
  s <- gets (fun s => s) ;;
  if Z.of_nat NCPU <=? ncpu s then fault "cpus" else
  let n := Z.to_nat (ncpu s) in
  modify (fun s => mkmp (<[n := ncpu s]> (cpu_id s)) (if testf (m (p + 3)) MPBOOT then n else bcpu s)
                     (if ncpu s =? m (p + 1) then ismp s else false) (ncpu s + 1) (ioapicid s) (lapicaddr s) (imcr s)).

(** The loop of mp.c [mpinit] from entry [p] to the end [e]; [None] when the
    fuel runs out. *)
Fixpoint mpinit_loop (fuel : nat) (m : mem) (p e : Z) : M mpst (option unit) :=
  if negb (p <? e) then ret (Some tt) else
  match fuel with
  | O => ret None
  | S f =>
      let t := m p in
      if t =? MPPROC then mp_proc m p ;; mpinit_loop f m (p + 20) e
      else if t =? MPIOAPIC then
        modify (fun s => mkmp (cpu_id s) (bcpu s) (ismp s) (ncpu s) (m (p + 1)) (lapicaddr s) (imcr s)) ;;
        mpinit_loop f m (p + 8) e
      else if (t =? MPBUS) || (t =? MPIOINTR) || (t =? MPLINTR) then mpinit_loop f m (p + 8) e
      else
        modify (fun s => mkmp (cpu_id s) (bcpu s) false (ncpu s) (ioapicid s) (lapicaddr s) (imcr s)) ;;
        mpinit_loop f m p e
  end.

(** mp.c [mpinit] *)
Definition mpinit (fuel : nat) (m : mem) : M mpst (option unit) :=
  modify (fun s => mkmp (cpu_id s) 0 (ismp s) (ncpu s) (ioapicid s) (lapicaddr s) (imcr s)) ;;
  match mpconfig m with
  | None => ret (Some tt)
  | Some (mp, conf) =>
      modify (fun s => mkmp (cpu_id s) (bcpu s) true (ncpu s) (ioapicid s) (ld_long (conf + 36) m) (imcr s)) ;;
      r <- mpinit_loop fuel m (conf + SIZEOF_MPCONF) (conf + ld16 m (conf + 4)) ;;
      match r with
      | None => ret None
      | Some _ =>
          i <- gets ismp ;;
          if negb i then
            modify (fun s => mkmp (cpu_id s) (bcpu s) (ismp s) 1 0 0 (imcr s)) ;; ret (Some tt)
          else
            when (negb (m (mp + 12) =? 0))
              (modify (fun s => mkmp (cpu_id s) (bcpu s) (ismp s) (ncpu s) (ioapicid s) (lapicaddr s) true)) ;;
            ret (Some tt)
      end
  end.

(** mp.c [mpbcpu] *)
Definition mpbcpu : M mpst nat := gets bcpu.

(** ** The search *)

Lemma sum_loop_u8 n : forall m a acc, u8 (sum_loop n m a acc) = u8 (acc + foldr Z.add 0 (read_at m a n)).
Proof.
  induction n as [|n IH]; intros m a acc; cbn [sum_loop read_at seq map foldr]; [by rewrite Z.add_0_r|].
  rewrite IH. unfold read_at. rewrite Z.add_0_r, Z.add_assoc. rewrite <- seq_shift, map_map.
  replace (map (fun x => m (a + Z.of_nat (S x))) (seq 0 n)) with (map (fun i => m (a + 1 + Z.of_nat i)) (seq 0 n)) by (apply map_ext; intros; f_equal; lia).
  set (r := foldr _ _ _). assert (u8 (s32 (acc + m a)) = u8 (acc + m a)) as E.
  { unfold u8. rewrite <- (Z.mod_mod (s32 (acc + m a)) (2 ^ 8)) by lia. replace (s32 (acc + m a) mod 2 ^ 8) with (u32 (s32 (acc + m a)) mod 2 ^ 8).
    - rewrite u32_s32. unfold u32. rewrite <- (Znumtheory.Zmod_div_mod (2 ^ 8) (2 ^ 32)); [by rewrite Z.mod_mod by lia|lia|lia|by exists (2 ^ 24)].
    - unfold u32. rewrite <- (Znumtheory.Zmod_div_mod (2 ^ 8) (2 ^ 32)); [done|lia|lia|by exists (2 ^ 24)]. }
  unfold u8 in *. rewrite <- (Z.add_mod_idemp_l (s32 _)), E, Z.add_mod_idemp_l by lia. done.
Qed.

(** ** The entries of a table *)

(** A processor with its APIC id, version, flags and the 16 bytes that follow;
    an I/O APIC with its id and the 6 bytes that follow; a bus or an interrupt
    assignment with its 7 bytes. *)
Inductive entry : Type :=
| EProc (id ver fl : Z) (rest : list Z)
| EIoapic (no : Z) (rest : list Z)
| EOther (t : Z) (rest : list Z).

Definition enc (x : entry) : list Z :=
  match x with
  | EProc id ver fl rest => MPPROC :: id :: ver :: fl :: rest
  | EIoapic no rest => MPIOAPIC :: no :: rest
  | EOther t rest => t :: rest
  end.
Definition entry_ok (x : entry) : Prop :=
  match x with
  | EProc _ _ _ rest => length rest = 16%nat
  | EIoapic _ rest => length rest = 6%nat
  | EOther t rest => length rest = 7%nat /\ (t = MPBUS \/ t = MPIOINTR \/ t = MPLINTR)
  end.
Definition is_proc (x : entry) : bool := match x with EProc _ _ _ _ => true | _ => false end.
Definition nprocs (E : list entry) : nat := length (filter (fun x => is_proc x = true) E).
Definition table (E : list entry) : list Z := concat (enc <$> E).

(** What an entry does to the variables. *)
Definition entry_step (s : mpst) (x : entry) : mpst :=
  match x with
  | EProc id _ fl _ =>
      let n := Z.to_nat (ncpu s) in
      mkmp (<[n := ncpu s]> (cpu_id s)) (if testf fl MPBOOT then n else bcpu s)
        (if ncpu s =? id then ismp s else false) (ncpu s + 1) (ioapicid s) (lapicaddr s) (imcr s)
  | EIoapic no _ => mkmp (cpu_id s) (bcpu s) (ismp s) (ncpu s) no (lapicaddr s) (imcr s)
  | EOther _ _ => s
  end.

Lemma bytes_at_app m a l1 l2 : bytes_at m a (l1 ++ l2) <-> bytes_at m a l1 /\ bytes_at m (a + Z.of_nat (length l1)) l2.
Proof.
  split.
  - intros H. split; intros i v Hi.
    + apply H. by apply lookup_app_l_Some.
    + rewrite <- Z.add_assoc, <- Nat2Z.inj_add. apply H. rewrite lookup_app_r by lia. rewrite <- Hi. f_equal. lia.
  - intros [H1 H2] i v [Hi|[Hge Hi]]%lookup_app_Some; [by apply H1|]. specialize (H2 _ _ Hi). rewrite <- H2. f_equal. lia.
Qed.

Lemma bytes_at_nth m a l i : bytes_at m a l -> (i < length l)%nat -> m (a + Z.of_nat i) = l !!! i.
Proof. intros H Hi. apply H. by apply list_lookup_lookup_total_lt. Qed.

Lemma nprocs_cons x E : nprocs (x :: E) = ((if is_proc x then 1 else 0) + nprocs E)%nat.
Proof. unfold nprocs. rewrite filter_cons. by destruct (is_proc x). Qed.

(** The walk over the entries [E], up to the bytes that follow. *)
Lemma mpinit_walk m : forall E p e s fuel, bytes_at m p (table E) -> p + Z.of_nat (length (table E)) <= e ->
  Forall entry_ok E -> 0 <= ncpu s -> ncpu s + Z.of_nat (nprocs E) <= Z.of_nat NCPU ->
  mpinit_loop (length E + fuel) m p e s =
  mpinit_loop fuel m (p + Z.of_nat (length (table E))) e (foldl entry_step s E).
Proof.
  induction E as [|x E IH]; intros p e s fuel Hb He Hok Hn Hmax.
  { cbn [table fmap list_fmap concat length Nat.add foldl]. by rewrite Z.add_0_r. }
  apply Forall_cons in Hok as [Hx Hok]. rewrite nprocs_cons in Hmax. unfold table in *. rewrite fmap_cons in *. cbn [concat] in *.
  apply bytes_at_app in Hb as [Hb1 Hb2]. rewrite length_app in *. rewrite Nat2Z.inj_add in *.
  pose proof (bytes_at_nth m p (enc x) 0%nat Hb1) as H0. pose proof (bytes_at_nth m p (enc x) 1%nat Hb1) as H1.
  pose proof (bytes_at_nth m p (enc x) 3%nat Hb1) as H3. change (Z.of_nat 0) with 0 in H0. rewrite Z.add_0_r in H0.
  cbn [length Nat.add foldl]. rewrite Z.add_assoc.
  assert (forall s1, entry_step s x = s1 -> 0 <= ncpu s1 -> ncpu s1 + Z.of_nat (nprocs E) <= Z.of_nat NCPU ->
    mpinit_loop (length E + fuel) m (p + Z.of_nat (length (enc x))) e s1 =
    mpinit_loop fuel m (p + Z.of_nat (length (enc x)) + Z.of_nat (length (concat (enc <$> E)))) e (foldl entry_step (entry_step s x) E)) as Hgo.
  { intros s1 -> Hn1 Hm1. apply IH; [done|lia|done|done|done]. }
  destruct x as [id ver fl rest|no rest|t rest]; cbn [enc length entry_ok is_proc] in *; cbn [mpinit_loop];
    rewrite (proj2 (Z.ltb_lt p e)) by lia; cbn [negb]; rewrite (H0 ltac:(lia)); cbn [lookup_total list_lookup_total] in *.
  - rewrite Z.eqb_refl. unfold bind at 1, mp_proc, bind, gets. rewrite (proj2 (Z.leb_gt (Z.of_nat NCPU) (ncpu s))) by lia. unfold modify.
    change (Z.of_nat 1) with 1 in H1. change (Z.of_nat 3) with 3 in H3. rewrite (H1 ltac:(lia)), (H3 ltac:(lia)).
    replace (p + 20) with (p + Z.of_nat (S (S (S (S (length rest)))))) by lia. apply Hgo; [done|cbn; lia|cbn; lia].
  - change (MPIOAPIC =? MPPROC) with false. rewrite Z.eqb_refl. unfold bind at 1, modify. change (Z.of_nat 1) with 1 in H1. rewrite (H1 ltac:(lia)).
    replace (p + 8) with (p + Z.of_nat (S (S (length rest)))) by lia. apply Hgo; [done|cbn; lia|cbn; lia].
  - destruct Hx as [Hr Ht]. replace (p + 8) with (p + Z.of_nat (S (length rest))) by lia.
    destruct Ht as [->|[->| ->]]; cbn [Z.eqb Pos.eqb orb MPBUS MPPROC MPIOAPIC MPIOINTR MPLINTR]; (apply Hgo; [done|cbn; lia|cbn; lia]).
Qed.

(** The walk at an entry of another type never moves on. *)
Lemma mpinit_stuck m p e : p < e -> m p <> MPPROC -> m p <> MPBUS -> m p <> MPIOAPIC -> m p <> MPIOINTR -> m p <> MPLINTR ->
  forall fuel s, exists s', mpinit_loop fuel m p e s = Ret None s'.
Proof.
  intros Hp H0 H1 H2 H3 H4. induction fuel as [|f IH]; intros s; cbn [mpinit_loop]; rewrite (proj2 (Z.ltb_lt p e)) by done; cbn [negb].
  - by exists s.
  - rewrite (proj2 (Z.eqb_neq _ _) H0), (proj2 (Z.eqb_neq _ _) H1), (proj2 (Z.eqb_neq _ _) H2), (proj2 (Z.eqb_neq _ _) H3), (proj2 (Z.eqb_neq _ _) H4).
    cbn [orb]. unfold bind, modify. apply IH.
Qed.

Definition apic_ids (E : list entry) : list Z :=
  omap (fun x => match x with EProc id _ _ _ => Some id | _ => None end) E.
(** The table names its processors 0, 1, 2, ... *)
Definition in_order (E : list entry) : Prop := apic_ids E = Z.of_nat <$> seq 0 (nprocs E).

Lemma nprocs_snoc E x : nprocs (E ++ [x]) = (nprocs E + if is_proc x then 1 else 0)%nat.
Proof. unfold nprocs. rewrite filter_app, length_app, filter_cons. by destruct (is_proc x). Qed.

(** The variables after the entries [E]. *)
Lemma entries_result s E : ismp s = true -> ncpu s = 0 -> length (cpu_id s) = NCPU -> (nprocs E <= NCPU)%nat ->
  let s' := foldl entry_step s E in
  ncpu s' = Z.of_nat (nprocs E) /\ length (cpu_id s') = NCPU /\ lapicaddr s' = lapicaddr s /\
  (forall i, (i < nprocs E)%nat -> cpu_id s' !! i = Some (Z.of_nat i)) /\ (ismp s' = true <-> in_order E).
Proof.
  intros Hi Hn Hl. induction E as [|x E IH] using rev_ind; intros Hp; cbn zeta.
  { cbn. split_and!; [lia|done|done|intros; lia|by rewrite Hi]. }
  rewrite nprocs_snoc in *. destruct IH as (I1 & I2 & I3 & I4 & I5); [lia|]. rewrite foldl_snoc. unfold in_order, apic_ids in *.
  rewrite omap_app, nprocs_snoc. destruct x as [id ver fl rest|no rest|t rest]; cbn [is_proc entry_step omap list_omap] in *.
  - cbn [ncpu cpu_id lapicaddr ismp]. rewrite I1, Nat2Z.id. split_and!; [lia|by rewrite length_insert|done| |].
    + intros i Hlt. destruct (decide (i = nprocs E)) as [->|Hne]; [by rewrite list_lookup_insert_eq by lia|]. rewrite list_lookup_insert_ne by done. apply I4. lia.
    + rewrite seq_app, fmap_app. cbn [Nat.add seq fmap list_fmap]. split.
      * destruct (Z.eqb_spec (Z.of_nat (nprocs E)) id) as [->|Hne]; [|done]. intros H. by rewrite (proj1 I5 H).
      * intros Heq. apply app_inj_2 in Heq as [H1 [= <-]]; [|done]. rewrite Z.eqb_refl. by apply I5.
  - rewrite Nat.add_0_r, app_nil_r in *. done.
  - rewrite Nat.add_0_r, app_nil_r in *. done.
Qed.

(** The flags of the processors and the numbers of the I/O APICs, in the order
    of the table. *)
Definition proc_flags (E : list entry) : list Z :=
  omap (fun x => match x with EProc _ _ fl _ => Some fl | _ => None end) E.
Definition ioapic_nos (E : list entry) : list Z :=
  omap (fun x => match x with EIoapic no _ => Some no | _ => None end) E.
(** Processor [n] is the last one that the table marks as the boot processor,
    or the table marks none and [n] is the first. *)
Definition boots (E : list entry) (n : nat) : Prop :=
  (exists fl, proc_flags E !! n = Some fl /\ testf fl MPBOOT = true /\
     forall j fl', (n < j)%nat -> proc_flags E !! j = Some fl' -> testf fl' MPBOOT = false) \/
  (n = 0%nat /\ Forall (fun fl => testf fl MPBOOT = false) (proc_flags E)).

Lemma proc_flags_length E : length (proc_flags E) = nprocs E.
Proof. induction E as [|[] E IH]; [done|..]; rewrite nprocs_cons; cbn; by rewrite <- IH. Qed.

Lemma boots_snoc E n fl id ver rest : boots E n ->
  boots (E ++ [EProc id ver fl rest]) (if testf fl MPBOOT then nprocs E else n).
Proof.
  unfold boots, proc_flags. rewrite omap_app. cbn [omap list_omap]. fold (proc_flags E). rewrite <- proc_flags_length.
  intros Hb. destruct (testf fl MPBOOT) eqn:Hf.
  - left. exists fl. split; [by apply list_lookup_middle|]. split; [done|]. intros j fl' Hj Hl%lookup_lt_Some.
    rewrite length_app in Hl. cbn in Hl. lia.
  - destruct Hb as [(f & H1 & H2 & H3)|[-> Hall]]; [left|right].
    + exists f. split; [by apply lookup_app_l_Some|]. split; [done|].
      intros j fl' Hj [Hl|[_ Hl]]%lookup_app_Some; [by apply (H3 j)|]. apply list_elem_of_lookup_2, list_elem_of_singleton in Hl. by subst.
    + split; [done|]. apply Forall_app. by repeat constructor.
Qed.

(** The boot processor and the I/O APIC after the entries [E]. *)
Lemma entries_boot s E : ncpu s = 0 -> bcpu s = 0%nat ->
  let s' := foldl entry_step s E in
  ncpu s' = Z.of_nat (nprocs E) /\ boots E (bcpu s') /\ ioapicid s' = default (ioapicid s) (last (ioapic_nos E)).
Proof.
  intros Hn Hb. induction E as [|x E IH] using rev_ind; cbn zeta; [split_and!; [done|right; by cbn|done]|].
  destruct IH as (I1 & I2 & I3). rewrite foldl_snoc, nprocs_snoc. unfold ioapic_nos in *. rewrite omap_app.
  destruct x as [id ver fl rest|no rest|t rest]; cbn [is_proc entry_step omap list_omap ncpu bcpu ioapicid].
  - rewrite I1, Nat2Z.id, app_nil_r. split_and!; [lia|by apply boots_snoc|done].
  - rewrite last_snoc, Nat.add_0_r. split_and!; [done| |done]. unfold boots, proc_flags in *. rewrite omap_app. cbn. by rewrite app_nil_r.
  - rewrite app_nil_r, Nat.add_0_r. split_and!; [done| |done]. unfold boots, proc_flags in *. rewrite omap_app. cbn. by rewrite app_nil_r.
Qed.

Lemma entries_imcr E : forall s, imcr (foldl entry_step s E) = imcr s.
Proof. induction E as [|x E IH]; intros s; [done|]. cbn [foldl]. rewrite IH. by destruct x. Qed.

Section mpinit.
Context (m : mem) (mp conf : Z) (E : list entry).
Context (Hconf : mpconfig m = Some (mp, conf)).
Context (Htab : bytes_at m (conf + SIZEOF_MPCONF) (table E)) (HE : Forall entry_ok E).

Definition mp1 : mpst := mkmp (replicate NCPU 0) 0 true 0 0 (ld_long (conf + 36) m) false.

Lemma mpinit_start fuel : mpinit fuel m mp0 =
  (r <- mpinit_loop fuel m (conf + SIZEOF_MPCONF) (conf + ld16 m (conf + 4)) ;;
   match r with
   | None => ret None
   | Some _ =>
       i <- gets ismp ;;
       if negb i then modify (fun s => mkmp (cpu_id s) (bcpu s) (ismp s) 1 0 0 (imcr s)) ;; ret (Some tt)
       else when (negb (m (mp + 12) =? 0))
              (modify (fun s => mkmp (cpu_id s) (bcpu s) (ismp s) (ncpu s) (ioapicid s) (lapicaddr s) true)) ;; ret (Some tt)
   end) mp1.
Proof. unfold mpinit, bind at 1, modify at 1. rewrite Hconf. done. Qed.

(** C37: the walk over a table reads what the table says.  On a table made of
    known entries with at most NCPU processors, [mpinit] ends, with the boot
    processor that the table marks; if the table numbers its processors
    0, 1, 2, ... it finds that many, each with its number as its id, the local
    APIC's address and the number of the last I/O APIC, and switches the
    interrupt mode register when the floating pointer asks for it; otherwise it
    falls back to one processor without APICs. *)
Theorem mpinit_table : ld16 m (conf + 4) = SIZEOF_MPCONF + Z.of_nat (length (table E)) -> (nprocs E <= NCPU)%nat ->
  exists s', mpinit (length E) m mp0 = Ret (Some tt) s' /\ boots E (bcpu s') /\
    (in_order E -> ismp s' = true /\ ncpu s' = Z.of_nat (nprocs E) /\ lapicaddr s' = ld_long (conf + 36) m /\
       ioapicid s' = default 0 (last (ioapic_nos E)) /\ imcr s' = negb (m (mp + 12) =? 0) /\
       forall i, (i < nprocs E)%nat -> cpu_id s' !! i = Some (Z.of_nat i)) /\
    (~ in_order E -> ismp s' = false /\ ncpu s' = 1 /\ lapicaddr s' = 0 /\ ioapicid s' = 0 /\ imcr s' = false).
Proof.
  intros Hlen Hn. destruct (entries_result mp1 E eq_refl eq_refl eq_refl Hn) as (R1 & R2 & R3 & R4 & R5).
  destruct (entries_boot mp1 E eq_refl eq_refl) as (_ & R6 & R7). pose proof (entries_imcr E mp1) as R8.
  rewrite mpinit_start, Hlen. unfold bind. replace (length E) with (length E + 0)%nat by lia.
  rewrite mpinit_walk; [|done|lia|done|done|cbn; lia]. cbn [mpinit_loop].
  rewrite (proj2 (Z.ltb_ge (conf + SIZEOF_MPCONF + Z.of_nat (length (table E))) _)) by lia. cbn [negb]. unfold ret, gets.
  destruct (ismp (foldl entry_step mp1 E)) eqn:Ei; cbn [negb].
  - unfold when, modify. destruct (negb (m (mp + 12) =? 0)); (eexists; split; [reflexivity|]); (split; [done|]);
      (split; [intros _; by split_and!|intros Hno; destruct Hno; by apply R5]).
  - unfold modify. eexists. split; [reflexivity|]. split; [done|]. split; [intros Ho; by apply R5 in Ho|]. intros _. by split_and!.
Qed.

(** An entry of an unknown type makes [mpinit] loop for ever: it reports
    the entry and turns multiprocessing off, but does not step over it, so no
    number of steps ends the walk. *)
Theorem mpinit_hangs :
  let p := conf + SIZEOF_MPCONF + Z.of_nat (length (table E)) in
  (nprocs E <= NCPU)%nat -> p < conf + ld16 m (conf + 4) ->
  m p <> MPPROC -> m p <> MPBUS -> m p <> MPIOAPIC -> m p <> MPIOINTR -> m p <> MPLINTR ->
  forall fuel, exists s', mpinit (length E + fuel) m mp0 = Ret None s'.
Proof.
  intros p Hn Hp H0 H1 H2 H3 H4 fuel. rewrite mpinit_start. unfold bind. unfold p in *.
  rewrite mpinit_walk; [|done|lia|done|done|cbn; lia].
  destruct (mpinit_stuck m _ _ Hp H0 H1 H2 H3 H4 fuel (foldl entry_step mp1 E)) as [s' ->]. by exists s'.
Qed.

(** [mpinit] does not check the number of processors: the entry of the
    processor after the first NCPU is written past the end of [cpus]. *)
Theorem mpinit_overflows :
  let p := conf + SIZEOF_MPCONF + Z.of_nat (length (table E)) in
  nprocs E = NCPU -> p < conf + ld16 m (conf + 4) -> m p = MPPROC ->
  forall fuel, exists s', mpinit (length E + S fuel) m mp0 = Fault "cpus" s'.
Proof.
  intros p Hn Hp H0 fuel. rewrite mpinit_start. unfold bind at 1. unfold p in *.
  rewrite mpinit_walk; [|done|lia|done|done|cbn; lia].
  destruct (entries_result mp1 E eq_refl eq_refl eq_refl ltac:(lia)) as (R1 & _).
  exists (foldl entry_step mp1 E). cbn [mpinit_loop]. rewrite (proj2 (Z.ltb_lt _ _) Hp). cbn [negb]. rewrite H0, Z.eqb_refl.
  unfold bind at 1, mp_proc, bind, gets. rewrite R1, Hn. done.
Qed.
End mpinit.

(** ** Examples *)
Module MpW.

(** Memory that holds the bytes [l] at the addresses [a]. *)
Definition mem_of (chunks : list (Z * list Z)) : mem := fun b =>
  foldr (fun x acc => if (x.1 <=? b) && (b <? x.1 + Z.of_nat (length x.2)) then x.2 !!! Z.to_nat (b - x.1) else acc) 0 chunks.

(** The floating pointer in the BIOS ROM at 0xF0000 and the table at 0xF1000. *)
Definition ptr : list Z := [95; 77; 80; 95; 0; 16; 15; 0; 1; 4; 129; 0; 0; 0; 0; 0].
Definition ROM : Z := 983040.
Definition CONF : Z := 987136.
Definition mk (header : list Z) (body : list Z) : mem := mem_of [(ROM, ptr); (CONF, header); (CONF + SIZEOF_MPCONF, body)].
Definition bytes_atb (m : mem) (a : Z) (l : list Z) : bool := bool_decide (read_at m a (length l) = l).
Lemma bytes_atb_ok m a l : bytes_atb m a l = true -> bytes_at m a l.
Proof.
  intros H%bool_decide_eq_true i v Hi. rewrite <- H in Hi. unfold read_at in Hi. apply list_lookup_fmap_Some in Hi as (j & -> & Hj).
  apply lookup_seq in Hj as [-> _]. done.
Qed.

(** Two processors, the second the boot processor, an I/O APIC and a bus. *)
Definition E2 : list entry := [EProc 0 20 1 (replicate 16 0); EProc 1 20 2 (replicate 16 0); EIoapic 2 [17; 1; 0; 0; 192; 254]; EOther MPBUS (replicate 7 0)].
Definition m2 : mem := mk [80; 67; 77; 80; 100; 0; 4; 133; 0; 0; 0; 0; 0; 0; 0; 0; 0; 0; 0; 0; 0; 0; 0; 0; 0; 0; 0; 0; 0; 0; 0; 0; 0; 0; 4; 0; 0; 0; 224; 254; 0; 0; 0; 0] (table E2).
Lemma mpinit_table_witness : in_order E2 /\
  exists s', mpinit (length E2) m2 mp0 = Ret (Some tt) s' /\ bcpu s' = 1%nat /\ ncpu s' = 2 /\ ioapicid s' = 2.
Proof.
  assert (in_order E2) as Ho by (by vm_compute). split; [exact Ho|].
  destruct (mpinit_table m2 ROM CONF E2) as (s' & E & Hb & H & _);
    [by vm_compute|apply bytes_atb_ok; by vm_compute|repeat constructor; by left|by vm_compute|vm_compute; lia|].
  exists s'. split; [exact E|]. destruct (H Ho) as (_ & H2 & _ & H3 & _). split; [|split; [exact H2|exact H3]].
  destruct Hb as [(fl & H4 & H5 & H6)|[_ Hall]].
  - destruct (bcpu s') as [|[|n]]; [|done|by destruct n]. by specialize (H6 1%nat 2 ltac:(lia) eq_refl).
  - apply Forall_cons in Hall as [_ [Hall _]%Forall_cons]. done.
Defined.

(** An entry of type 7 after the first processor. *)
Definition E1 : list entry := [EProc 0 20 2 (replicate 16 0)].
Definition m7 : mem := mk [80; 67; 77; 80; 72; 0; 4; 135; 0; 0; 0; 0; 0; 0; 0; 0; 0; 0; 0; 0; 0; 0; 0; 0; 0; 0; 0; 0; 0; 0; 0; 0; 0; 0; 2; 0; 0; 0; 224; 254; 0; 0; 0; 0] (table E1 ++ [7; 0; 0; 0; 0; 0; 0; 0]).
Lemma mpinit_hangs_witness : exists s', mpinit (length E1 + 1000) m7 mp0 = Ret None s'.
Proof.
  apply (mpinit_hangs m7 ROM CONF E1);
    [by vm_compute|apply bytes_atb_ok; by vm_compute|repeat constructor|vm_compute; lia|by vm_compute|by vm_compute..].
Defined.

(** Nine processors. *)
Definition E8 : list entry := (fun i => EProc (Z.of_nat i) 20 (if (i =? 0)%nat then 2 else 1) (replicate 16 0)) <$> seq 0 8.
Definition m9 : mem := mk [80; 67; 77; 80; 224; 0; 4; 35; 0; 0; 0; 0; 0; 0; 0; 0; 0; 0; 0; 0; 0; 0; 0; 0; 0; 0; 0; 0; 0; 0; 0; 0; 0; 0; 9; 0; 0; 0; 224; 254; 0; 0; 0; 0] (table E8 ++ [0; 8; 20; 1; 0; 0; 0; 0; 0; 0; 0; 0; 0; 0; 0; 0; 0; 0; 0; 0]).
Lemma mpinit_overflows_witness : exists s', mpinit (length E8 + 1) m9 mp0 = Fault "cpus" s'.
Proof.
  apply (mpinit_overflows m9 ROM CONF E8 ltac:(by vm_compute) ltac:(apply bytes_atb_ok; by vm_compute) ltac:(repeat constructor)
    ltac:(by vm_compute) ltac:(by vm_compute) ltac:(by vm_compute) 0%nat).
Defined.

End MpW.
