(* ===== verification/Mkfs.v ===== *)
(** The program that builds a file-system image: mkfs.c.

    It runs on the host and writes the image sector by sector.  A failed
    assertion and the error exits are panics.  The structures are stored in
    Intel byte order ([xshort], [xint]), which is what [put16] and [put32]
    store, so that the same accessors as in the kernel's model are used. *)

From S2P Require Import Prelude Params BlockDev Bio Log Fs.

(** ** State *)

(** The image file by sectors, and the variables of mkfs.c. *)
Record mkst : Type := mkmk {
  mimg : gmap Z block; freeblock : Z; usedblocks : Z; freeinode : Z
}.
Definition mk_nlog : Z := LOGSIZE.
Definition mk_nblocks : Z := 995 - LOGSIZE.
Definition mk_ninodes : Z := 200.
Definition mk_size : Z := 1024.
Definition mk_bitblocks : Z := mk_size / (512 * 8) + 1.
Definition mk_used0 : Z := mk_ninodes / IPB + 3 + mk_bitblocks.
Definition mk0 : mkst := mkmk ∅ mk_used0 mk_used0 1.

Definition set_mimg (x : gmap Z block) (s : mkst) : mkst := mkmk x (freeblock s) (usedblocks s) (freeinode s).

(** mkfs.c [wsect], [rsect]; a read past the end of the file is short. *)
Definition wsect (sec : Z) (b : block) : M mkst unit := modify (fun s => set_mimg (<[sec := b]> (mimg s)) s).
Definition rsect (sec : Z) : M mkst block :=
  o <- gets (fun s => mimg s !! sec) ;;
  match o with Some b => ret b | None => panic "read" end.

(** mkfs.c [i2b], [winode], [rinode] *)
Definition i2b (inum : Z) : Z := inum / IPB + 2.
Definition winode (inum : Z) (x : dinode) : M mkst unit :=
  b <- rsect (i2b inum) ;;
  wsect (i2b inum) (put_dinode (dinode_off inum) x b).
Definition rinode (inum : Z) : M mkst dinode :=
  b <- rsect (i2b inum) ;;
  ret (get_dinode (dinode_off inum) b).

(** mkfs.c [ialloc] *)
Definition mk_ialloc (type : Z) : M mkst Z :=
  inum <- gets freeinode ;;
  modify (fun s => mkmk (mimg s) (freeblock s) (usedblocks s) (u32 (freeinode s + 1))) ;;
  winode inum (mkdinode (s16 type) 0 0 1 0 (replicate 13 0)) ;;
  ret inum.

(** mkfs.c [balloc] *)
Definition mk_balloc (used : Z) : M mkst unit :=
  if negb (used <? 512 * 8) then panic "assert" else
  wsect (mk_ninodes / IPB + 3) (foldl (fun d i => set_bit (Z.of_nat i) d) zero_block (seq 0 (Z.to_nat used))).

(** [freeblock++] with [usedblocks++] *)
Definition new_block : M mkst Z :=
  x <- gets freeblock ;;
  modify (fun s => mkmk (mimg s) (u32 (freeblock s + 1)) (u32 (usedblocks s + 1)) (freeinode s)) ;;
  ret x.

Definition set_d_addr (n : nat) (x : Z) (d : dinode) : dinode :=
  mkdinode (d_type d) (d_major d) (d_minor d) (d_nlink d) (d_size d) (<[n := x]> (d_addrs d)).
Definition set_d_size (x : Z) (d : dinode) : dinode :=
  mkdinode (d_type d) (d_major d) (d_minor d) (d_nlink d) x (d_addrs d).

(** The sector of block [fbn] in mkfs.c [iappend], allocated if need be. *)
Definition file_block (din : dinode) (fbn : Z) : M mkst (Z * dinode) :=
  if fbn <? NDIRECT then
    if d_addrs din !!! Z.to_nat fbn =? 0 then
      x <- new_block ;; ret (x, set_d_addr (Z.to_nat fbn) x din)
    else ret (d_addrs din !!! Z.to_nat fbn, din)
  else
    din <- (if d_addrs din !!! 12%nat =? 0 then x <- new_block ;; ret (set_d_addr 12 x din) else ret din) ;;
    let ind := d_addrs din !!! 12%nat in
    b <- rsect ind ;;
    if get32 (4 * Z.to_nat (fbn - NDIRECT)) b =? 0 then
      x <- new_block ;;
      wsect ind (put32 (4 * Z.to_nat (fbn - NDIRECT)) x b) ;;
      ret (x, din)
    else ret (get32 (4 * Z.to_nat (fbn - NDIRECT)) b, din).

(** The loop of mkfs.c [iappend]; every round takes at least one byte of [p]. *)
Fixpoint iappend_loop (fuel : nat) (din : dinode) (off : Z) (p : list Z) : M mkst (dinode * Z) :=
  match p with
  | [] => ret (din, off)
  | _ =>
      match fuel with
      | O => fault "iappend"
      | S f =>
          let fbn := off / 512 in
          if negb (fbn <? MAXFILE) then panic "assert" else
          r <- file_block din fbn ;;
          let (x, din) := r in
          let n1 := Z.min (Z.of_nat (length p)) ((fbn + 1) * 512 - off) in
          buf <- rsect x ;;
          wsect x (splice (Z.to_nat (off - fbn * 512)) (take (Z.to_nat n1) p) buf) ;;
          iappend_loop f din (off + n1) (drop (Z.to_nat n1) p)
      end
  end.

(** mkfs.c [iappend] *)
Definition iappend (inum : Z) (p : list Z) : M mkst unit :=
  din <- rinode inum ;;
  r <- iappend_loop (length p) din (d_size din) p ;;
  winode inum (set_d_size r.2 r.1).

(** ** main *)

(** [struct dirent] with a name of [strncpy]: at most DIRSIZ bytes, padded. *)
Definition mk_dirent (inum : Z) (name : list Z) : list Z :=
  le_bytes 2 (u16 inum) ++ take (Z.to_nat DIRSIZ) (name ++ replicate (Z.to_nat DIRSIZ) 0).

(** A file of the command line: its name, and what the successive [read]s of
    at most 512 bytes return. *)
Abbreviation host_file := (list Z * list (list Z))%type.

(** The leading '_' (95) of a name is skipped. *)
Definition strip (name : list Z) : list Z := match name with c :: n => if c =? 95 then n else name | [] => [] end.

Definition mk_file (rootino : Z) (f : host_file) : M mkst unit :=
  let (name, chunks) := f in
  if existsb (fun c => c =? 47) name then panic "assert" else
  inum <- mk_ialloc T_FILE ;;
  iappend rootino (mk_dirent inum (strip name)) ;;
  for_each chunks (iappend inum).

Definition sb_block : block := put32 12 mk_nlog (put32 8 mk_ninodes (put32 4 mk_nblocks (put32 0 mk_size zero_block))).

(** mkfs.c [main], with the files of the command line. *)
Definition mkfs (files : list host_file) : M mkst unit :=
  for_each (seq 0 (Z.to_nat (mk_nblocks + mk_used0 + mk_nlog))) (fun i => wsect (Z.of_nat i) zero_block) ;;
  wsect 1 sb_block ;;
  rootino <- mk_ialloc T_DIR ;;
  if negb (rootino =? ROOTINO) then panic "assert" else
  iappend rootino (mk_dirent rootino [46]) ;;
  iappend rootino (mk_dirent rootino [46; 46]) ;;
  for_each files (mk_file rootino) ;;
  din <- rinode rootino ;;
  let off := (d_size din / BSIZE + 1) * BSIZE in
  winode rootino (set_d_size off din) ;;
  used <- gets usedblocks ;;
  mk_balloc used.
