(* ===== verification/MkfsSpec.v ===== *)
(** What mkfs.c writes is what the kernel reads: in the image it builds, every
    file satisfies the kernel's conditions on files and has the bytes of the
    host file. *)

From S2P Require Import Prelude Params BlockDev Bio Log Fs FsSpec FileSpec Dinode FileData Mkfs.

Ltac img_lia := change BSIZE with 512 in *; change MAXFILE with 140 in *; change mk_ninodes with 200 in *; lia.

(** ** Files in an image under construction *)

Definition sect (m : gmap Z block) (x : Z) : block := default zero_block (m !! x).

(** The address of block [bn] of a file and byte [p] of it, as the kernel
    finds them from the inode [din]. *)
Definition daddr (m : gmap Z block) (din : dinode) (bn : Z) : Z :=
  if bn <? NDIRECT then d_addrs din !!! Z.to_nat bn
  else if d_addrs din !!! 12%nat =? 0 then 0
  else get32 (4 * Z.to_nat (bn - NDIRECT)) (sect m (d_addrs din !!! 12%nat)).
Definition dbyte (m : gmap Z block) (din : dinode) (p : Z) : Z :=
  let a := daddr m din (p / BSIZE) in
  if a =? 0 then 0 else (sect m a : list Z) !!! Z.to_nat (p mod BSIZE).

(** Blocks a file of [n] blocks takes, with its indirect block. *)
Definition nblk (len : Z) : Z := (len + 511) / 512.
Definition cost_of (n : Z) : Z := n + if 12 <? n then 1 else 0.
Definition cost (len : Z) : Z := cost_of (nblk len).

(** Who owns a block: the inode and the place in the file, -1 being the
    indirect block. *)
Abbreviation owner := (gmap Z (Z * Z)).

(** A file of [n] blocks. *)
Record mstruct (m : gmap Z block) (G : owner) (inum : Z) (din : dinode) (n : Z) : Prop := {
  ms_len : length (d_addrs din) = 13%nat;
  ms_words : Forall is_u32 (d_addrs din);
  ms_n : 0 <= n <= MAXFILE;
  ms_own bn : 0 <= bn < n -> G !! daddr m din bn = Some (inum, bn);
  ms_none bn : n <= bn < MAXFILE -> daddr m din bn = 0;
  ms_ind : if 12 <? n then G !! (d_addrs din !!! 12%nat) = Some (inum, -1) else d_addrs din !!! 12%nat = 0
}.

(** The sectors, and which of them are taken. *)
Record img_ok (s : mkst) (G : owner) : Prop := {
  im_all x : 0 <= x < mk_size -> exists b, mimg s !! x = Some b /\ block_ok b;
  im_dom x b : mimg s !! x = Some b -> 0 <= x < mk_size;
  im_used : usedblocks s = freeblock s;
  im_range : mk_used0 <= freeblock s <= mk_size;
  im_own x w : G !! x = Some w -> mk_used0 <= x < freeblock s;
  im_zero x : freeblock s <= x < mk_size -> mimg s !! x = Some zero_block
}.

Lemma mk_used0_val : mk_used0 = 29. Proof. done. Qed.
Lemma mk_size_val : mk_size = 1024. Proof. done. Qed.

Lemma sect_ok s G x : img_ok s G -> 0 <= x < mk_size -> mimg s !! x = Some (sect (mimg s) x) /\ block_ok (sect (mimg s) x).
Proof. intros Hi Hx. destruct (im_all _ _ Hi x Hx) as (b & Hb & Hok). unfold sect. by rewrite Hb. Qed.

Lemma rsect_ret s G x : img_ok s G -> 0 <= x < mk_size -> rsect x s = Ret (sect (mimg s) x) s.
Proof. intros Hi Hx. unfold rsect, bind, gets. by rewrite (proj1 (sect_ok s G x Hi Hx)). Qed.

Lemma sect_insert m x b y : sect (<[x := b]> m) y = if decide (x = y) then b else sect m y.
Proof. unfold sect. case_decide as E; [subst; by rewrite lookup_insert_eq|by rewrite lookup_insert_ne]. Qed.

(** The structure of a file depends only on its indirect block. *)
Lemma daddr_same m m' din bn : (d_addrs din !!! 12%nat <> 0 -> sect m' (d_addrs din !!! 12%nat) = sect m (d_addrs din !!! 12%nat)) ->
  daddr m' din bn = daddr m din bn.
Proof.
  intros H. unfold daddr. destruct (bn <? NDIRECT); [done|]. destruct (Z.eqb_spec (d_addrs din !!! 12%nat) 0); [done|]. by rewrite H.
Qed.

Section frame.
Context (m m' : gmap Z block) (G G' : owner) (inum : Z) (din : dinode) (n : Z).
Context (HS : mstruct m G inum din n).

Lemma ind_owned : d_addrs din !!! 12%nat <> 0 -> 12 < n /\ G !! (d_addrs din !!! 12%nat) = Some (inum, -1).
Proof. intros Hn. pose proof (ms_ind _ _ _ _ _ HS) as Hi. destruct (Z.ltb_spec 12 n); [done|]. by rewrite Hi in Hn. Qed.

Lemma mstruct_frame : (forall x w, G !! x = Some w -> G' !! x = Some w) ->
  (forall x k, G !! x = Some (inum, k) -> sect m' x = sect m x) -> mstruct m' G' inum din n.
Proof.
  intros HG Hm. assert (forall bn, daddr m' din bn = daddr m din bn) as Hd.
  { intros bn. apply daddr_same. intros Hn. by eapply Hm, ind_owned. }
  destruct HS as [H1 H2 H3 H4 H5 H6]. split; [done|done|done| | |].
  - intros bn Hbn. rewrite Hd. by apply HG, H4.
  - intros bn Hbn. rewrite Hd. by apply H5.
  - destruct (12 <? n); [by apply HG|done].
Qed.

Lemma dbyte_frame p : (forall x k, G !! x = Some (inum, k) -> sect m' x = sect m x) -> 0 <= p < BSIZE * MAXFILE ->
  dbyte m' din p = dbyte m din p.
Proof.
  intros Hm Hp. unfold dbyte. rewrite (daddr_same m m') by (intros Hn; by eapply Hm, ind_owned).
  destruct (Z.eqb_spec (daddr m din (p / BSIZE)) 0) as [|Hne]; [done|]. erewrite Hm; [done|]. apply (ms_own _ _ _ _ _ HS).
  change BSIZE with 512 in *. split; [apply Z.div_pos; lia|]. destruct (decide (p / 512 < n)); [done|].
  rewrite (ms_none _ _ _ _ _ HS) in Hne; [done|]. split; [lia|]. apply Z.div_lt_upper_bound; lia.
Qed.
End frame.

(** ** Allocating a block *)

Lemma new_block_ok s G w : img_ok s G -> freeblock s < mk_size ->
  exists s', new_block s = Ret (freeblock s) s' /\ mimg s' = mimg s /\ freeinode s' = freeinode s /\
    freeblock s' = freeblock s + 1 /\ img_ok s' (<[freeblock s := w]> G) /\ G !! freeblock s = None.
Proof.
  intros [I1 I0 I2 I3 I4 I5] Hlt. rewrite mk_used0_val, mk_size_val in *. unfold new_block, bind, gets, modify, ret.
  eexists. split; [reflexivity|]. cbn [mimg freeinode freeblock usedblocks]. rewrite I2, !(u32_small (freeblock s + 1)) by lia.
  split_and!; [done|done|done| |].
  - split; cbn [mimg freeinode freeblock usedblocks]; rewrite ?mk_used0_val, ?mk_size_val; [done|done|done|lia| |].
    + intros x w' [[<- _]|[_ Hx]]%lookup_insert_Some; [lia|]. specialize (I4 x w' Hx). lia.
    + intros x Hx. apply I5. lia.
  - destruct (G !! freeblock s) eqn:E; [|done]. specialize (I4 _ _ E). lia.
Qed.

(** A sector of the file system written. *)
Lemma img_ok_write s G x b : img_ok s G -> block_ok b -> 0 <= x < freeblock s -> img_ok (set_mimg (<[x := b]> (mimg s)) s) G.
Proof.
  intros [I1 I0 I2 I3 I4 I5] Hb Hx. split; cbn [mimg freeblock usedblocks set_mimg]; [| |done|done|done|].
  - intros y Hy. destruct (decide (x = y)) as [->|Hne]; [rewrite lookup_insert_eq; eauto|]. rewrite lookup_insert_ne by done. by apply I1.
  - intros y b' [[<- _]|[_ Hy]]%lookup_insert_Some; [lia|eauto].
  - intros y Hy. rewrite lookup_insert_ne by lia. by apply I5.
Qed.

(** A file of [n] blocks has become one of [n'], its bytes outside [lo, hi)
    and the other files as they were. *)
Record grows (s : mkst) (G : owner) (inum : Z) (din : dinode) (n : Z) (s' : mkst) (G' : owner) (din' : dinode) (n' lo hi : Z) : Prop := {
  gr_img : img_ok s' G';
  gr_struct : mstruct (mimg s') G' inum din' n';
  gr_own x w : G !! x = Some w -> G' !! x = Some w;
  gr_new x w : G' !! x = Some w -> G !! x = Some w \/ exists k, w = (inum, k);
  gr_other y : (forall k, G' !! y <> Some (inum, k)) -> mimg s' !! y = mimg s !! y;
  gr_bytes p : 0 <= p < BSIZE * MAXFILE -> p < lo \/ hi <= p -> dbyte (mimg s') din' p = dbyte (mimg s) din p;
  gr_block : freeblock s' = freeblock s + cost_of n' - cost_of n;
  gr_inode : freeinode s' = freeinode s;
  gr_meta : d_type din' = d_type din /\ d_major din' = d_major din /\ d_minor din' = d_minor din /\
            d_nlink din' = d_nlink din /\ d_size din' = d_size din
}.

Lemma grows_same s G inum din n : img_ok s G -> mstruct (mimg s) G inum din n -> grows s G inum din n s G din n 0 0.
Proof. intros Hi Hm. split; auto; lia. Qed.

Lemma owned_range s G x w : img_ok s G -> G !! x = Some w -> 29 <= x < freeblock s /\ freeblock s <= 1024 /\ x <> 0.
Proof. intros Hi Hx. pose proof (im_own _ _ Hi x w Hx). pose proof (im_range _ _ Hi). rewrite mk_used0_val, mk_size_val in *. lia. Qed.

Lemma mgrows_trans s G inum din n s1 G1 din1 n1 s2 G2 din2 n2 lo mid hi :
  grows s G inum din n s1 G1 din1 n1 lo mid -> grows s1 G1 inum din1 n1 s2 G2 din2 n2 mid hi -> lo <= mid <= hi ->
  grows s G inum din n s2 G2 din2 n2 lo hi.
Proof.
  intros [A1 A2 A3 A4 A5 A6 A7 A8 A9] [B1 B2 B3 B4 B5 B6 B7 B8 B9] Hl. split; [done|done|auto| | | |lia|congruence|intuition congruence].
  - intros x w [Hx|?]%B4; eauto.
  - intros y Hy. rewrite B5 by done. apply A5. intros k Hk. apply (Hy k). auto.
  - intros p Hp Ho. rewrite B6, A6 by (done || lia). done.
Qed.

Lemma grows_any s G inum din n s' G' din' n' lo : grows s G inum din n s' G' din' n' 0 0 -> grows s G inum din n s' G' din' n' lo lo.
Proof. intros [A1 A2 A3 A4 A5 A6 A7 A8 A9]. split; try done. intros p Hp _. apply A6; [done|lia]. Qed.

Lemma div_file p : 0 <= p < BSIZE * MAXFILE -> 0 <= p / BSIZE < MAXFILE.
Proof. change BSIZE with 512. intros Hp. split; [apply Z.div_pos; lia|]. apply Z.div_lt_upper_bound; lia. Qed.

Lemma total_zero (i : Z) : 0 <= i < BSIZE -> (zero_block : list Z) !!! Z.to_nat i = 0.
Proof. intros Hi. apply lookup_total_replicate_2. change BSIZE with 512 in Hi. lia. Qed.

(** A new direct block. *)
Lemma grow_direct s G inum din n : img_ok s G -> mstruct (mimg s) G inum din n -> n < NDIRECT -> freeblock s < mk_size ->
  exists s' G', new_block s = Ret (freeblock s) s' /\
    grows s G inum din n s' G' (set_d_addr (Z.to_nat n) (freeblock s) din) (n + 1) 0 0 /\
    daddr (mimg s') (set_d_addr (Z.to_nat n) (freeblock s) din) n = freeblock s.
Proof.
  intros Hi Hm Hn Hf. destruct (new_block_ok s G (inum, n) Hi Hf) as (s' & Hr & Hmi & Hfi & Hfb & Hi' & Hno).
  pose proof (im_range _ _ Hi) as Hrange. pose proof (im_zero _ _ Hi (freeblock s) ltac:(lia)) as Hz. rewrite mk_used0_val, mk_size_val in *.
  destruct Hm as [M1 M2 M3 M4 M5 M6]. change NDIRECT with 12 in *. change MAXFILE with 140 in *.
  assert (forall bn, 0 <= bn < 140 -> bn <> n -> daddr (mimg s') (set_d_addr (Z.to_nat n) (freeblock s) din) bn = daddr (mimg s) din bn) as Hold.
  { intros bn Hbn Hne. unfold daddr. cbn [d_addrs set_d_addr]. change NDIRECT with 12. rewrite Hmi.
    rewrite !(list_lookup_total_insert_ne _ (Z.to_nat n)) by lia. done. }
  assert (daddr (mimg s') (set_d_addr (Z.to_nat n) (freeblock s) din) n = freeblock s) as Hnew.
  { unfold daddr. cbn [d_addrs set_d_addr]. change NDIRECT with 12. rewrite (proj2 (Z.ltb_lt n 12)) by lia.
    apply list_lookup_total_insert_eq. lia. }
  exists s', (<[freeblock s := (inum, n)]> G). split_and!; [done| |done]. split; try done.
  - split.
    + cbn. by rewrite length_insert.
    + cbn. apply Forall_insert; [done|]. unfold is_u32. lia.
    + change MAXFILE with 140. lia.
    + intros bn Hbn. destruct (decide (bn = n)) as [->|Hne]; [rewrite Hnew; apply lookup_insert_eq|].
      rewrite Hold by lia. rewrite lookup_insert_ne; [apply M4; lia|]. intros E. rewrite E in Hno. rewrite M4 in Hno by lia. done.
    + intros bn Hbn. change MAXFILE with 140 in *. rewrite Hold by lia. apply M5. lia.
    + cbn [d_addrs set_d_addr]. rewrite list_lookup_total_insert_ne by lia. rewrite (proj2 (Z.ltb_ge 12 (n + 1))) by lia.
      by rewrite (proj2 (Z.ltb_ge 12 n)) in M6 by lia.
  - intros x w Hx. rewrite lookup_insert_ne; [done|]. intros E. congruence.
  - intros x w [[<- <-]|[_ Hx]]%lookup_insert_Some; eauto.
  - intros y _. by rewrite Hmi.
  - intros p Hp _. unfold dbyte. pose proof (div_file p Hp) as Hpn. change MAXFILE with 140 in *.
    destruct (decide (p / BSIZE = n)) as [->|Hne]; [|rewrite Hold by lia; by rewrite Hmi].
    rewrite Hnew, Hmi, M5 by lia. change (0 =? 0) with true. destruct (_ =? 0); [done|].
    unfold sect. rewrite Hz. apply total_zero, Z.mod_pos_bound. done.
  - rewrite Hfb. unfold cost_of. rewrite (proj2 (Z.ltb_ge 12 (n + 1))), (proj2 (Z.ltb_ge 12 n)) by lia. lia.
Qed.

(** A file of at least 12 blocks whose indirect block is there. *)
Record istruct (m : gmap Z block) (G : owner) (inum : Z) (din : dinode) (n : Z) : Prop := {
  is_len : length (d_addrs din) = 13%nat;
  is_words : Forall is_u32 (d_addrs din);
  is_n : 12 <= n <= MAXFILE;
  is_own bn : 0 <= bn < n -> G !! daddr m din bn = Some (inum, bn);
  is_none bn : n <= bn < MAXFILE -> daddr m din bn = 0;
  is_ind : G !! (d_addrs din !!! 12%nat) = Some (inum, -1)
}.

Lemma istruct_mstruct m G inum din n : istruct m G inum din n -> 12 < n -> mstruct m G inum din n.
Proof. intros [H1 H2 H3 H4 H5 H6] Hn. split; try done; [lia|]. by rewrite (proj2 (Z.ltb_lt 12 n)). Qed.
Lemma mstruct_istruct m G inum din n : mstruct m G inum din n -> 12 < n -> istruct m G inum din n.
Proof. intros [H1 H2 H3 H4 H5 H6] Hn. rewrite (proj2 (Z.ltb_lt 12 n)) in H6 by done. split; try done. lia. Qed.

Lemma zero_get32 off : (off + 4 <= 512)%nat -> get32 off zero_block = 0.
Proof.
  intros Ho. unfold get32, zero_block, slice. rewrite drop_replicate, take_replicate.
  replace (4 `min` (512 - off))%nat with 4%nat by lia. by vm_compute.
Qed.

(** The indirect block of a file of 12 blocks. *)
Lemma grow_ind s G inum din : img_ok s G -> mstruct (mimg s) G inum din 12 -> freeblock s < mk_size ->
  exists s' G', new_block s = Ret (freeblock s) s' /\ img_ok s' G' /\ mimg s' = mimg s /\ freeinode s' = freeinode s /\
    freeblock s' = freeblock s + 1 /\ istruct (mimg s') G' inum (set_d_addr 12 (freeblock s) din) 12 /\
    G' = <[freeblock s := (inum, -1)]> G /\ G !! freeblock s = None /\
    forall bn, 0 <= bn < MAXFILE -> daddr (mimg s') (set_d_addr 12 (freeblock s) din) bn = daddr (mimg s) din bn.
Proof.
  intros Hi Hm Hf. destruct (new_block_ok s G (inum, -1) Hi Hf) as (s' & Hr & Hmi & Hfi & Hfb & Hi' & Hno).
  pose proof (im_range _ _ Hi) as Hrange. pose proof (im_zero _ _ Hi (freeblock s) ltac:(lia)) as Hz. rewrite mk_used0_val, mk_size_val in *.
  destruct Hm as [M1 M2 M3 M4 M5 M6]. change (12 <? 12) with false in M6. change MAXFILE with 140 in *.
  assert (forall bn, 0 <= bn < 140 -> daddr (mimg s') (set_d_addr 12 (freeblock s) din) bn = daddr (mimg s) din bn) as Hold.
  { intros bn Hbn. unfold daddr. cbn [d_addrs set_d_addr]. change NDIRECT with 12. rewrite Hmi. destruct (Z.ltb_spec bn 12).
    - by rewrite list_lookup_total_insert_ne by lia.
    - rewrite list_lookup_total_insert_eq by lia. rewrite M6. change (0 =? 0) with true. rewrite (proj2 (Z.eqb_neq (freeblock s) 0)) by lia.
      unfold sect. rewrite Hz. apply zero_get32. lia. }
  exists s', (<[freeblock s := (inum, -1)]> G). split_and!; try done. split; try done.
  - cbn. by rewrite length_insert.
  - cbn. apply Forall_insert; [done|]. unfold is_u32. lia.
  - intros bn Hbn. rewrite Hold by lia. rewrite lookup_insert_ne; [apply M4; lia|]. intros E. rewrite E in Hno. rewrite M4 in Hno by lia. done.
  - intros bn Hbn. rewrite Hold by (change MAXFILE with 140 in *; lia). apply M5. done.
  - cbn [d_addrs set_d_addr]. rewrite list_lookup_total_insert_eq by lia. apply lookup_insert_eq.
Qed.

(** A new entry of the indirect block. *)
Lemma grow_entry s G inum din n : img_ok s G -> istruct (mimg s) G inum din n -> n < MAXFILE -> freeblock s < mk_size ->
  let ind := d_addrs din !!! 12%nat in
  let o := (4 * Z.to_nat (n - NDIRECT))%nat in
  exists s1, new_block s = Ret (freeblock s) s1 /\
    let s' := set_mimg (<[ind := put32 o (freeblock s) (sect (mimg s) ind)]> (mimg s)) s1 in
    let G' := <[freeblock s := (inum, n)]> G in
    mimg s1 = mimg s /\ freeinode s1 = freeinode s /\ freeblock s1 = freeblock s + 1 /\
    img_ok s' G' /\ mstruct (mimg s') G' inum din (n + 1) /\ daddr (mimg s') din n = freeblock s /\ G !! freeblock s = None /\
    forall p, 0 <= p < BSIZE * MAXFILE -> dbyte (mimg s') din p = dbyte (mimg s) din p.
Proof.
  intros Hi Hm Hn Hf ind o. destruct (new_block_ok s G (inum, n) Hi Hf) as (s1 & Hr & Hmi & Hfi & Hfb & Hi' & Hno).
  pose proof (im_range _ _ Hi) as Hrange. pose proof (im_zero _ _ Hi (freeblock s) ltac:(lia)) as Hz.
  rewrite mk_used0_val, mk_size_val in *. destruct Hm as [M1 M2 M3 M4 M5 M6]. fold ind in M6.
  destruct (owned_range _ _ _ _ Hi M6) as (R1 & R2 & R3). destruct (sect_ok s G ind Hi ltac:(rewrite mk_size_val; lia)) as [_ [Hbl Hbf]].
  change MAXFILE with 140 in *. change NDIRECT with 12 in *.
  exists s1. cbn zeta. set (b' := put32 o (freeblock s) (sect (mimg s) ind)). cbn [mimg set_mimg].
  assert (forall bn, 0 <= bn < 140 -> bn <> n -> daddr (<[ind := b']> (mimg s)) din bn = daddr (mimg s) din bn) as Hold.
  { intros bn Hbn Hne. unfold daddr. fold ind. change NDIRECT with 12. destruct (Z.ltb_spec bn 12); [done|].
    rewrite (proj2 (Z.eqb_neq ind 0)) by done. rewrite sect_insert, decide_True by done. apply get32_put32_other; unfold o; lia. }
  assert (daddr (<[ind := b']> (mimg s)) din n = freeblock s) as Hnew.
  { unfold daddr. fold ind. change NDIRECT with 12. rewrite (proj2 (Z.ltb_ge n 12)), (proj2 (Z.eqb_neq ind 0)) by lia.
    rewrite sect_insert, decide_True by done. apply get32_put32_same; [unfold o; lia|unfold is_u32; lia]. }
  split; [done|]. split_and!; try done.
  - change (<[ind := b']> (mimg s)) with (<[ind := b']> (mimg s)). rewrite <- Hmi. apply img_ok_write; [done| |rewrite Hfb; lia].
    apply put32_block_ok; [unfold o; lia|done].
  - split; [done|done|change MAXFILE with 140; lia| | |].
    + intros bn Hbn. destruct (decide (bn = n)) as [->|Hne]; [rewrite Hnew; apply lookup_insert_eq|].
      rewrite Hold by lia. rewrite lookup_insert_ne; [apply M4; lia|]. intros E. rewrite E in Hno. rewrite M4 in Hno by lia. done.
    + intros bn Hbn. change MAXFILE with 140 in *. rewrite Hold by lia. apply M5. lia.
    + rewrite (proj2 (Z.ltb_lt 12 (n + 1))) by lia. fold ind. rewrite lookup_insert_ne by (intros E; congruence). done.
  - intros p Hp. unfold dbyte. pose proof (div_file p Hp) as Hpn. change MAXFILE with 140 in *.
    destruct (decide (p / BSIZE = n)) as [->|Hne].
    + rewrite Hnew, M5 by lia. change (0 =? 0) with true. destruct (_ =? 0); [done|].
      rewrite sect_insert, decide_False by lia. unfold sect. rewrite Hz. apply total_zero, Z.mod_pos_bound. done.
    + rewrite Hold by lia. destruct (Z.eqb_spec (daddr (mimg s) din (p / BSIZE)) 0) as [|Hnz]; [done|].
      rewrite sect_insert, decide_False; [done|]. intros E. destruct (decide (p / BSIZE < n)) as [Hlt|]; [|by rewrite M5 in Hnz by lia].
      pose proof (M4 (p / BSIZE) ltac:(lia)) as Ho. rewrite <- E, M6 in Ho. injection Ho as Ho. lia.
Qed.

Lemma file_block_ok s G inum din n fbn : img_ok s G -> mstruct (mimg s) G inum din n ->
  fbn = n \/ n = fbn + 1 -> 0 <= fbn < MAXFILE -> freeblock s + cost_of (fbn + 1) - cost_of n <= mk_size ->
  exists s' G' din', file_block din fbn s = Ret (daddr (mimg s') din' fbn, din') s' /\ grows s G inum din n s' G' din' (fbn + 1) 0 0.
Proof.
  intros Hi Hm Hfn Hf Hcap. unfold file_block. destruct (Z.ltb_spec fbn NDIRECT) as [Hd|Hd].
  { assert (d_addrs din !!! Z.to_nat fbn = daddr (mimg s) din fbn) as Hda by (unfold daddr; by rewrite (proj2 (Z.ltb_lt fbn NDIRECT))).
    rewrite Hda. destruct Hfn as [->| ->].
    - rewrite (ms_none _ _ _ _ _ Hm) by lia. change (0 =? 0) with true. change NDIRECT with 12 in *.
      assert (freeblock s < mk_size) as Hlt. { unfold cost_of in Hcap. rewrite (proj2 (Z.ltb_ge 12 (n + 1))), (proj2 (Z.ltb_ge 12 n)) in Hcap by lia. lia. }
      destruct (grow_direct s G inum din n Hi Hm Hd Hlt) as (s' & G' & Hr & Hg & Hx). exists s', G', (set_d_addr (Z.to_nat n) (freeblock s) din).
      split; [|done]. unfold bind. by rewrite Hr, Hx.
    - destruct (owned_range _ _ _ _ Hi (ms_own _ _ _ _ _ Hm fbn ltac:(lia))) as (_ & _ & Hnz).
      rewrite (proj2 (Z.eqb_neq _ 0)) by done. exists s, G, din. split; [done|by apply grows_same]. }
  change NDIRECT with 12 in *. destruct (decide (12 < n)) as [Hn|Hn].
  - pose proof (mstruct_istruct _ _ _ _ _ Hm Hn) as His. destruct (owned_range _ _ _ _ Hi (is_ind _ _ _ _ _ His)) as (R1 & R2 & R3).
    rewrite (proj2 (Z.eqb_neq _ 0)) by done. unfold bind at 1, ret at 1, bind at 1. rewrite (rsect_ret s G) by (done || (rewrite mk_size_val; lia)).
    assert (daddr (mimg s) din fbn = get32 (4 * Z.to_nat (fbn - 12)) (sect (mimg s) (d_addrs din !!! 12%nat))) as Hda.
    { unfold daddr. change NDIRECT with 12. by rewrite (proj2 (Z.ltb_ge fbn 12)), (proj2 (Z.eqb_neq _ 0)) by done. }
    rewrite <- Hda. destruct Hfn as [->| ->].
    + rewrite (ms_none _ _ _ _ _ Hm) by lia. change (0 =? 0) with true.
      unfold cost_of in Hcap. rewrite (proj2 (Z.ltb_lt 12 (n + 1))), (proj2 (Z.ltb_lt 12 n)) in Hcap by lia.
      destruct (grow_entry s G inum din n Hi His ltac:(lia) ltac:(lia)) as (s1 & Hr & E1 & E2 & E3 & E4 & E5 & E6 & E7 & E8).
      eexists _, _, din. unfold bind at 1. rewrite Hr. unfold bind, wsect, modify, ret. change NDIRECT with 12 in *. rewrite E1. rewrite E6.
      split; [reflexivity|]. split; try done.
      * intros x w Hx. rewrite lookup_insert_ne by (intros E; congruence). done.
      * intros x w [[<- <-]|[_ Hx]]%lookup_insert_Some; eauto.
      * intros y Hy. cbn [mimg set_mimg]. rewrite lookup_insert_ne; [done|]. intros <-. apply (Hy (-1)). rewrite lookup_insert_ne; [apply (is_ind _ _ _ _ _ His)|].
        intros E. rewrite E in E7. rewrite (is_ind _ _ _ _ _ His) in E7. done.
      * intros p Hp _. by apply E8.
      * cbn. rewrite E3. unfold cost_of. rewrite (proj2 (Z.ltb_lt 12 (n + 1))), (proj2 (Z.ltb_lt 12 n)) by lia. lia.
    + destruct (owned_range _ _ _ _ Hi (ms_own _ _ _ _ _ Hm fbn ltac:(lia))) as (_ & _ & Hnz).
      rewrite (proj2 (Z.eqb_neq _ 0)) by done. exists s, G, din. split; [done|by apply grows_same].
  - assert (n = 12 /\ fbn = 12) as [-> ->] by lia. pose proof (ms_ind _ _ _ _ _ Hm) as Hind. change (12 <? 12) with false in Hind.
    rewrite Hind. change (0 =? 0) with true. change (cost_of (12 + 1)) with 14 in Hcap. change (cost_of 12) with 12 in Hcap.
    destruct (grow_ind s G inum din Hi Hm ltac:(lia)) as (s0 & G0 & Hr0 & Hi0 & Hm0 & Hfi0 & Hfb0 & His & HG0 & Hno0 & Hd0).
    destruct (grow_entry s0 G0 inum _ 12 Hi0 His ltac:(img_lia) ltac:(rewrite Hfb0; lia)) as (s1 & Hr & E1 & E2 & E3 & E4 & E5 & E6 & E7 & E8).
    destruct (owned_range _ _ _ _ Hi0 (is_ind _ _ _ _ _ His)) as (R1 & R2 & R3).
    assert (d_addrs (set_d_addr 12 (freeblock s) din) !!! 12%nat = freeblock s) as Hia.
    { cbn. apply list_lookup_total_insert_eq. rewrite (ms_len _ _ _ _ _ Hm). lia. }
    unfold bind at 1 2. rewrite Hr0. unfold ret at 1. unfold bind at 1. rewrite (rsect_ret s0 G0) by (done || (rewrite mk_size_val; lia)).
    assert (get32 (4 * Z.to_nat (12 - 12)) (sect (mimg s0) (d_addrs (set_d_addr 12 (freeblock s) din) !!! 12%nat)) = 0) as Hz.
    { rewrite Hia, Hm0. unfold sect. rewrite (im_zero _ _ Hi (freeblock s)) by (pose proof (im_range _ _ Hi); lia). by vm_compute. }
    change (4 * Z.to_nat (12 - 12))%nat with 0%nat in *. rewrite Hz. change (0 =? 0) with true.
    eexists _, _, (set_d_addr 12 (freeblock s) din). unfold bind at 1. rewrite Hr. unfold bind, wsect, modify, ret. rewrite E1.
    change (4 * Z.to_nat (12 - NDIRECT))%nat with 0%nat in *. rewrite E6. split; [reflexivity|]. split; try done.
    + intros x w Hx. rewrite lookup_insert_ne by (intros E; rewrite <- E in Hx; rewrite HG0, lookup_insert_ne in E7 by lia; congruence).
      rewrite HG0, lookup_insert_ne by (intros E; congruence). done.
    + rewrite HG0. intros x w [[<- <-]|[_ [[<- <-]|[_ Hx]]%lookup_insert_Some]]%lookup_insert_Some; eauto.
    + intros y Hy. cbn [mimg set_mimg]. rewrite Hia, lookup_insert_ne; [by rewrite Hm0|]. intros <-. apply (Hy (-1)).
      rewrite lookup_insert_ne by lia. rewrite HG0. apply lookup_insert_eq.
    + intros p Hp _. rewrite E8 by done. unfold dbyte. rewrite Hm0 in *. by rewrite Hd0 by (by apply div_file).
    + cbn. rewrite E3, Hfb0. change (cost_of (12 + 1)) with 14. change (cost_of 12) with 12. lia.
    + cbn. by rewrite E2.
Qed.

(** ** Appending *)

(** Bytes [w] stored at [r] in block [bn] of a file. *)
Lemma store_ok s G inum din n bn r (w : list Z) : img_ok s G -> mstruct (mimg s) G inum din n -> 0 <= bn < n ->
  (r + length w <= 512)%nat -> Forall is_u8 w ->
  let x := daddr (mimg s) din bn in
  let s' := set_mimg (<[x := splice r w (sect (mimg s) x)]> (mimg s)) s in
  grows s G inum din n s' G din n (512 * bn + Z.of_nat r) (512 * bn + Z.of_nat (r + length w)) /\
  forall i, (i < length w)%nat -> dbyte (mimg s') din (512 * bn + Z.of_nat (r + i)) = w !!! i.
Proof.
  intros Hi Hm Hbn Hr Hw x s'. pose proof (ms_own _ _ _ _ _ Hm bn Hbn) as Hx. fold x in Hx.
  destruct (owned_range _ _ _ _ Hi Hx) as (R1 & R2 & R3). destruct (sect_ok s G x Hi ltac:(rewrite mk_size_val; lia)) as [_ [Hbl Hbf]].
  assert (forall k, daddr (mimg s') din k = daddr (mimg s) din k) as Hd.
  { intros k. apply daddr_same. intros Hn. cbn. rewrite sect_insert, decide_False; [done|]. intros E.
    destruct (ind_owned _ _ _ _ _ Hm Hn) as [_ Ho]. rewrite <- E, Hx in Ho. injection Ho as Ho. lia. }
  split; [split; try done; try lia|].
  - apply img_ok_write; [done| |lia]. split; [by rewrite length_splice by lia|by apply Forall_splice].
  - destruct Hm as [M1 M2 M3 M4 M5 M6]. split; try done; intros k Hk; rewrite Hd; auto.
  - auto.
  - intros y Hy. cbn. rewrite lookup_insert_ne; [done|]. intros <-. by apply (Hy bn).
  - intros p Hp Hout. pose proof (div_file p Hp) as Hpm. unfold dbyte. change BSIZE with 512 in *. rewrite Hd.
    destruct (Z.eqb_spec (daddr (mimg s) din (p / 512)) 0) as [|Hnz]; [done|]. cbn. rewrite sect_insert.
    case_decide as E; [|done]. assert (p / 512 < n) as Hpn.
    { destruct (decide (p / 512 < n)); [done|]. by rewrite (ms_none _ _ _ _ _ Hm) in Hnz by lia. }
    pose proof (ms_own _ _ _ _ _ Hm (p / 512) ltac:(lia)) as Ho. rewrite <- E, Hx in Ho. injection Ho as Ho.
    pose proof (Z.div_mod p 512). pose proof (Z.mod_pos_bound p 512).
    rewrite !list_lookup_total_alt, lookup_splice_out by lia. by rewrite <- E.
  - cbn. lia.
  - intros i Hil. unfold dbyte. change BSIZE with 512. rewrite Hd.
    replace ((512 * bn + Z.of_nat (r + i)) / 512) with bn by (rewrite Z.mul_comm, Z.div_add_l, Z.div_small; lia).
    replace ((512 * bn + Z.of_nat (r + i)) mod 512) with (Z.of_nat (r + i)) by (rewrite Z.add_comm, Z.mul_comm, Z.mod_add, Z.mod_small; lia).
    fold x. rewrite (proj2 (Z.eqb_neq x 0)) by done. cbn. rewrite sect_insert, decide_True by done. rewrite Nat2Z.id.
    apply list_lookup_total_correct. rewrite lookup_splice_in by lia. replace (r + i - r)%nat with i by lia. by apply list_lookup_lookup_total_lt.
Qed.

Lemma nblk_next off m : 0 <= off -> 0 < m <= (off / 512 + 1) * 512 - off ->
  nblk (off + m) = off / 512 + 1 /\ (off / 512 = nblk off \/ nblk off = off / 512 + 1).
Proof.
  intros Ho Hm. unfold nblk. pose proof (Z.div_mod off 512). pose proof (Z.mod_pos_bound off 512).
  split; [|destruct (decide (off mod 512 = 0)); [left|right]].
  - symmetry. apply (Z.div_unique _ 512 _ (off + m + 511 - 512 * (off / 512 + 1))); lia.
  - apply (Z.div_unique _ 512 _ 511); lia.
  - symmetry. apply (Z.div_unique _ 512 _ (off mod 512 - 1)); lia.
Qed.

Lemma nblk_cover off : off <= BSIZE * nblk off.
Proof. unfold nblk. change BSIZE with 512. pose proof (Z.div_mod (off + 511) 512). pose proof (Z.mod_pos_bound (off + 511) 512). lia. Qed.
Lemma nblk_mono a b : a <= b -> nblk a <= nblk b.
Proof. intros Hab. apply Z.div_le_mono; lia. Qed.
Lemma cost_mono a b : a <= b -> cost a <= cost b.
Proof. intros Hab%nblk_mono. unfold cost, cost_of. destruct (Z.ltb_spec 12 (nblk a)), (Z.ltb_spec 12 (nblk b)); lia. Qed.

Lemma iappend_loop_ok inum fuel : forall s G din off (p : list Z), (length p <= fuel)%nat -> Forall is_u8 p -> img_ok s G ->
  mstruct (mimg s) G inum din (nblk off) -> 0 <= off -> off + Z.of_nat (length p) <= 512 * MAXFILE ->
  freeblock s + cost (off + Z.of_nat (length p)) - cost off <= mk_size ->
  exists s' G' din', iappend_loop fuel din off p s = Ret (din', off + Z.of_nat (length p)) s' /\
    grows s G inum din (nblk off) s' G' din' (nblk (off + Z.of_nat (length p))) off (off + Z.of_nat (length p)) /\
    forall i, (i < length p)%nat -> dbyte (mimg s') din' (off + Z.of_nat i) = p !!! i.
Proof.
  induction fuel as [|fuel IH]; intros s G din off p Hf Hp Hi Hm Ho Hmax Hcap; (destruct p as [|c p'] eqn:Ep; [|try (simpl in Hf; lia)]).
  1,2: exists s, G, din; simpl; replace (off + Z.of_nat 0) with off by lia; split; [done|]; split; [|intros; lia];
    exact (grows_any _ _ _ _ _ _ _ _ _ _ (grows_same _ _ _ _ _ Hi Hm)).
  rewrite <- Ep in *. change MAXFILE with 140 in Hmax.
  assert (iappend_loop (S fuel) din off p = 
          let fbn := off / 512 in
          if negb (fbn <? MAXFILE) then panic "assert" else
          r <- file_block din fbn ;;
          let (x, din) := r in
          let n1 := Z.min (Z.of_nat (length p)) ((fbn + 1) * 512 - off) in
          buf <- rsect x ;;
          wsect x (splice (Z.to_nat (off - fbn * 512)) (take (Z.to_nat n1) p) buf) ;;
          iappend_loop fuel din (off + n1) (drop (Z.to_nat n1) p)) as -> by (by rewrite Ep).
  assert (0 < Z.of_nat (length p)) as Hlen by (rewrite Ep; simpl; lia). clear Ep c p'.
  pose proof (Z.div_mod off 512). pose proof (Z.mod_pos_bound off 512). cbn zeta.
  set (fbn := off / 512) in *. set (m := Z.min (Z.of_nat (length p)) ((fbn + 1) * 512 - off)).
  destruct (nblk_next off m Ho ltac:(fold fbn; lia)) as [Hn1 Hn0]. fold fbn in Hn0, Hn1.
  change MAXFILE with 140 in *. rewrite (proj2 (Z.ltb_lt fbn 140)) by lia. cbn [negb].
  pose proof (cost_mono (off + m) (off + Z.of_nat (length p)) ltac:(lia)) as Hc. unfold cost at 1 in Hc. rewrite Hn1 in Hc.
  destruct (file_block_ok s G inum din (nblk off) fbn Hi Hm Hn0 ltac:(img_lia) ltac:(unfold cost in *; lia))
    as (s1 & G1 & din1 & Hr & Hg1).
  unfold bind at 1. rewrite Hr. pose proof (gr_img _ _ _ _ _ _ _ _ _ _ _ Hg1) as Hi1. pose proof (gr_struct _ _ _ _ _ _ _ _ _ _ _ Hg1) as Hm1.
  destruct (owned_range _ _ _ _ Hi1 (ms_own _ _ _ _ _ Hm1 fbn ltac:(lia))) as (R1 & R2 & _).
  unfold bind at 1. rewrite (rsect_ret s1 G1) by (done || (rewrite mk_size_val; lia)).
  destruct (store_ok s1 G1 inum din1 (fbn + 1) fbn (Z.to_nat (off - fbn * 512)) (take (Z.to_nat m) p) Hi1 Hm1 ltac:(lia)) as [Hg2 Hb2];
    [rewrite length_take; lia|by apply Forall_take|]. cbn zeta in Hg2, Hb2.
  unfold bind at 1, wsect, modify. set (s2 := set_mimg _ s1) in *.
  pose proof (gr_img _ _ _ _ _ _ _ _ _ _ _ Hg2) as Hi2. pose proof (gr_struct _ _ _ _ _ _ _ _ _ _ _ Hg2) as Hm2.
  destruct (IH s2 G1 din1 (off + m) (drop (Z.to_nat m) p)) as (s3 & G3 & din3 & Hr3 & Hg3 & Hb3).
  { rewrite length_drop. lia. } { by apply Forall_drop. } { done. } { by rewrite Hn1. } { lia. }
  { rewrite length_drop. change MAXFILE with 140. lia. }
  { rewrite length_drop. replace (off + m + Z.of_nat (length p - Z.to_nat m)) with (off + Z.of_nat (length p)) by lia.
    change (freeblock s2) with (freeblock s1). rewrite (gr_block _ _ _ _ _ _ _ _ _ _ _ Hg1). unfold cost in *. rewrite Hn1. lia. }
  rewrite length_drop in Hr3, Hg3, Hb3. replace (off + m + Z.of_nat (length p - Z.to_nat m)) with (off + Z.of_nat (length p)) in * by lia.
  exists s3, G3, din3. split; [done|]. rewrite Hn1 in Hg3.
  split.
  - rewrite length_take in Hg2. replace (512 * fbn + Z.of_nat (Z.to_nat (off - fbn * 512))) with off in Hg2 by lia.
    replace (512 * fbn + Z.of_nat (Z.to_nat (off - fbn * 512) + Z.to_nat m `min` length p)) with (off + m) in Hg2 by lia.
    eapply mgrows_trans; [eapply mgrows_trans; [exact (grows_any _ _ _ _ _ _ _ _ _ off Hg1)|exact Hg2|lia]|exact Hg3|lia].
  - intros i Hil. destruct (decide (Z.of_nat i < m)) as [Him|Him].
    + rewrite (gr_bytes _ _ _ _ _ _ _ _ _ _ _ Hg3) by img_lia. specialize (Hb2 i ltac:(rewrite length_take; lia)).
      replace (512 * fbn + Z.of_nat (Z.to_nat (off - fbn * 512) + i)) with (off + Z.of_nat i) in Hb2 by lia. rewrite Hb2.
      by rewrite !list_lookup_total_alt, lookup_take_lt by lia.
    + specialize (Hb3 (i - Z.to_nat m)%nat ltac:(lia)). replace (off + m + Z.of_nat (i - Z.to_nat m)) with (off + Z.of_nat i) in Hb3 by lia.
      rewrite Hb3, !list_lookup_total_alt, lookup_drop. by replace (Z.to_nat m + (i - Z.to_nat m))%nat with i by lia.
Qed.

(** ** Inodes *)

Definition dinode_at (m : gmap Z block) (inum : Z) : dinode := get_dinode (dinode_off inum) (sect m (i2b inum)).

(** Inode [inum] is a file of type [t] with the bytes [w]. *)
Record mfile (m : gmap Z block) (G : owner) (inum t : Z) (w : list Z) : Prop := {
  mf_meta : d_type (dinode_at m inum) = t /\ d_major (dinode_at m inum) = 0 /\ d_minor (dinode_at m inum) = 0 /\
            d_nlink (dinode_at m inum) = 1;
  mf_size : d_size (dinode_at m inum) = Z.of_nat (length w);
  mf_struct : mstruct m G inum (dinode_at m inum) (nblk (Z.of_nat (length w)));
  mf_bytes i : (i < length w)%nat -> dbyte m (dinode_at m inum) (Z.of_nat i) = w !!! i;
  mf_pad p : Z.of_nat (length w) <= p < BSIZE * MAXFILE -> dbyte m (dinode_at m inum) p = 0
}.

Lemma mfile_frame m m' G G' inum t w : mfile m G inum t w -> dinode_at m' inum = dinode_at m inum ->
  (forall x k, G !! x = Some k -> G' !! x = Some k) -> (forall x k, G !! x = Some (inum, k) -> sect m' x = sect m x) ->
  mfile m' G' inum t w.
Proof.
  intros [F1 F2 F3 F4 F5] Hd HG Hm. split; rewrite Hd; [done|done|by eapply mstruct_frame| |].
  - intros i Hi. rewrite <- F4 by done. eapply dbyte_frame; [done|done|]. pose proof (nblk_cover (Z.of_nat (length w))).
    pose proof (ms_n _ _ _ _ _ F3). change BSIZE with 512 in *. lia.
  - intros p Hp. rewrite <- (F5 p) by done. eapply dbyte_frame; [done|done|lia].
Qed.

Lemma i2b_range inum : 0 <= inum < mk_ninodes -> 2 <= i2b inum < 28.
Proof.
  intros Hi. unfold i2b. change IPB with 8. change mk_ninodes with 200 in Hi.
  pose proof (Z.div_pos inum 8). pose proof (Z.div_lt_upper_bound inum 8 26). lia.
Qed.

Lemma rinode_ret s G inum : img_ok s G -> 0 <= inum < mk_ninodes -> rinode inum s = Ret (dinode_at (mimg s) inum) s.
Proof.
  intros Hi Hn. pose proof (i2b_range _ Hn). unfold rinode, bind. rewrite (rsect_ret s G) by (done || (rewrite mk_size_val; lia)). done.
Qed.

Lemma winode_ok s G inum x : img_ok s G -> 0 <= inum < mk_ninodes -> dinode_ok x ->
  exists m', winode inum x s = Ret tt (set_mimg m' s) /\ img_ok (set_mimg m' s) G /\ dinode_at m' inum = x /\
    (forall j, 0 <= j < mk_ninodes -> j <> inum -> dinode_at m' j = dinode_at (mimg s) j) /\
    (forall y, y < 2 \/ 28 <= y -> m' !! y = mimg s !! y).
Proof.
  intros Hi Hn Hx. pose proof (i2b_range _ Hn) as Hb. pose proof (im_range _ _ Hi) as Hr. rewrite mk_used0_val, mk_size_val in Hr.
  destruct (sect_ok s G (i2b inum) Hi ltac:(rewrite mk_size_val; lia)) as [_ Hok]. pose proof Hok as [Hl _].
  pose proof (dinode_off_range inum ltac:(lia)) as Ho.
  eexists. unfold winode, bind at 1. rewrite (rsect_ret s G) by (done || (rewrite mk_size_val; lia)). split; [reflexivity|].
  split_and!.
  - apply img_ok_write; [done| |lia]. apply put_dinode_ok; [done|apply (dk_len _ Hx)|done].
  - unfold dinode_at. rewrite sect_insert, decide_True by done. apply get_put_dinode; [lia|done].
  - intros j Hj Hne. unfold dinode_at. rewrite sect_insert. case_decide as E; [|done]. rewrite E.
    apply get_put_dinode_other; [rewrite <- E; lia|apply (dk_len _ Hx)|]. apply dinode_off_disjoint; lia || done.
  - intros y Hy. rewrite lookup_insert_ne by lia. done.
Qed.

(** ** The image as a list of files *)

Abbreviation files_of := (list (Z * list Z)).
Definition flen (f : Z * list Z) : Z := Z.of_nat (length f.2).
Definition total (D : files_of) : Z := foldr Z.add 0 ((fun f => cost (flen f)) <$> D).

Lemma total_cons f D : total (f :: D) = cost (flen f) + total D.
Proof. done. Qed.
Lemma total_insert D k f f' : D !! k = Some f -> total (<[k := f']> D) = total D - cost (flen f) + cost (flen f').
Proof.
  revert k. induction D as [|a D IH]; intros [|k] Hk; [done|done| |].
  - injection Hk as ->. change (<[0%nat := f']> (f :: D)) with (f' :: D). rewrite !total_cons. lia.
  - change (<[S k := f']> (a :: D)) with (a :: <[k := f']> D). rewrite !total_cons, (IH k Hk). lia.
Qed.
Lemma total_app D D' : total (D ++ D') = total D + total D'.
Proof. induction D as [|a D IH]; [done|]. change ((a :: D) ++ D') with (a :: D ++ D'). rewrite !total_cons, IH. lia. Qed.

(** The image holds the files [D], numbered from 1. *)
Record mkinv (s : mkst) (G : owner) (D : files_of) : Prop := {
  mv_img : img_ok s G;
  mv_ino : freeinode s = 1 + Z.of_nat (length D);
  mv_max : freeinode s <= mk_ninodes;
  mv_own x i k : G !! x = Some (i, k) -> 1 <= i <= Z.of_nat (length D);
  mv_file k f : D !! k = Some f -> mfile (mimg s) G (1 + Z.of_nat k) f.1 f.2;
  mv_total : freeblock s = mk_used0 + total D;
  mv_sb : mimg s !! 1 = Some sb_block
}.

Lemma mstruct_zero m G inum t nl : mstruct m G inum (mkdinode t 0 0 nl 0 (replicate 13 0)) 0.
Proof.
  assert (forall i, (i < 13)%nat -> (replicate 13 0 : list Z) !!! i = 0) as Hz by (intros i Hi; by apply lookup_total_replicate_2).
  split; cbn [d_addrs]; [done|by apply Forall_replicate|change MAXFILE with 140; lia|lia| |done].
  intros bn Hbn. unfold daddr. cbn [d_addrs]. change NDIRECT with 12. rewrite (Hz 12%nat) by lia.
  destruct (Z.ltb_spec bn 12); [apply Hz; lia|done].
Qed.

Lemma mk_ialloc_ok s G D t : mkinv s G D -> freeinode s < mk_ninodes -> 0 <= t < 2 ^ 15 ->
  exists s', mk_ialloc t s = Ret (1 + Z.of_nat (length D)) s' /\ mkinv s' G (D ++ [(t, [])]).
Proof.
  intros [V1 V2 V3 V4 V5 V6 V7] Hf Ht. change mk_ninodes with 200 in *.
  set (s1 := mkmk (mimg s) (freeblock s) (usedblocks s) (u32 (freeinode s + 1))).
  assert (img_ok s1 G) as Hi1 by (destruct V1; by split).
  assert (s16 t = t) as Hst.
  { unfold s16. rewrite Z.mod_small by lia. destruct (Z.ltb_spec t (2 ^ 15)); lia. }
  destruct (winode_ok s1 G (freeinode s) (mkdinode (s16 t) 0 0 1 0 (replicate 13 0)) Hi1) as (m' & Hr & Hi' & Hd & Hdo & Hy).
  { change mk_ninodes with 200. lia. } { rewrite Hst. split; cbn [d_type d_major d_minor d_nlink d_size d_addrs]; try lia; [unfold is_u32; lia|by apply Forall_replicate|done]. }
  rewrite Hst in *. exists (set_mimg m' s1). unfold mk_ialloc, bind, gets, modify, ret. rewrite Hst. fold s1. rewrite Hr, V2. split; [done|].
  assert (forall x k, G !! x = Some k -> sect m' x = sect (mimg s) x) as Hsec.
  { intros x k Hx. unfold sect. destruct (owned_range _ _ _ _ V1 Hx). by rewrite Hy by lia. }
  split; cbn [mimg freeinode freeblock set_mimg s1]; [done| | | | | |].
  - rewrite u32_small, length_app by lia. simpl. lia.
  - rewrite u32_small by lia. change mk_ninodes with 200. lia.
  - intros x i k Hx. rewrite length_app. pose proof (V4 x i k Hx). simpl. lia.
  - intros k f [Hk|[Hk Hf']]%lookup_app_Some.
    + pose proof (lookup_lt_Some _ _ _ Hk). eapply mfile_frame; [by apply V5| |done|by intros; eapply Hsec].
      apply Hdo; [change mk_ninodes with 200|]; lia.
    + destruct (k - length D)%nat as [|j] eqn:Ek; [|done]. injection Hf' as <-.
      replace (1 + Z.of_nat k) with (freeinode s) by lia. split; rewrite Hd; [done|done|apply mstruct_zero|simpl; lia|].
      intros p Hp. cbn [snd length] in Hp. unfold dbyte.
      rewrite (ms_none m' G (freeinode s) _ 0 (mstruct_zero _ _ _ _ _)); [done|]. apply div_file. lia.
  - rewrite V6, total_app. change (total [(t, [])]) with 0. lia.
  - rewrite Hy by lia. done.
Qed.

Lemma iappend_ok s G D k t (w p : list Z) : mkinv s G D -> D !! k = Some (t, w) -> 0 <= t < 2 ^ 15 -> Forall is_u8 p ->
  Z.of_nat (length (w ++ p)) <= 512 * MAXFILE -> mk_used0 + total (<[k := (t, w ++ p)]> D) <= mk_size ->
  exists s' G', iappend (1 + Z.of_nat k) p s = Ret tt s' /\ mkinv s' G' (<[k := (t, w ++ p)]> D).
Proof.
  intros [V1 V2 V3 V4 V5 V6 V7] Hk Ht Hp Hlen Hcap. pose proof (lookup_lt_Some _ _ _ Hk) as Hkl.
  pose proof (V5 k _ Hk) as [F1 F2 F3 F4 F5]. cbn [fst snd] in *. set (inum := 1 + Z.of_nat k) in *. change mk_ninodes with 200 in *.
  rewrite (total_insert _ _ _ _ Hk) in Hcap. unfold flen in Hcap. cbn [snd] in Hcap. rewrite length_app, Nat2Z.inj_add in Hcap, Hlen.
  unfold iappend, bind at 1. rewrite (rinode_ret s G) by (done || img_lia). rewrite F2.
  destruct (iappend_loop_ok inum (length p) s G _ (Z.of_nat (length w)) p ltac:(lia) Hp V1 F3 ltac:(lia) Hlen ltac:(lia))
    as (s1 & G1 & din1 & Hr & Hg & Hb).
  unfold bind at 1. rewrite Hr. cbn [fst snd]. destruct Hg as [A1 A2 A3 A4 A5 A6 A7 A8 A9].
  set (x := set_d_size (Z.of_nat (length w) + Z.of_nat (length p)) din1).
  assert (dinode_ok x) as Hx.
  { destruct A9 as (E1 & E2 & E3 & E4 & E5), F1 as (F11 & F12 & F13 & F14). change MAXFILE with 140 in Hlen.
    split; cbn; rewrite ?E1, ?E2, ?E3, ?E4, ?F11, ?F12, ?F13, ?F14; try lia; [unfold is_u32; lia|apply (ms_words _ _ _ _ _ A2)|apply (ms_len _ _ _ _ _ A2)]. }
  destruct (winode_ok s1 G1 inum x A1 ltac:(img_lia) Hx) as (m' & Hw & Hi' & Hd & Hdo & Hy).
  exists (set_mimg m' s1), G1. split; [done|].
  assert (forall y j, G1 !! y = Some j -> sect m' y = sect (mimg s1) y) as Hsec.
  { intros y j Hyj. unfold sect. destruct (owned_range _ _ _ _ A1 Hyj). by rewrite Hy by lia. }
  assert (forall q, 0 <= q < BSIZE * MAXFILE -> dbyte m' din1 q = dbyte (mimg s1) din1 q) as Hby.
  { intros q Hq. apply (dbyte_frame (mimg s1) m' G1 inum din1 _ A2); [by intros; eapply Hsec|done]. }
  assert (forall y, y < 29 -> mimg s1 !! y = mimg s !! y) as Hlow.
  { intros y Hyl. apply A5. intros j Hj. destruct (owned_range _ _ _ _ A1 Hj). lia. }
  split; cbn [mimg freeinode freeblock set_mimg]; [done| | | | | |].
  - by rewrite A8, length_insert.
  - rewrite A8. change mk_ninodes with 200. done.
  - intros y i j Hyi. rewrite length_insert. apply A4 in Hyi as [Hyi|[? [= -> ->]]]; [eauto|lia].
  - intros k' f [(<- & <- & _)|[Hne Hk']]%list_lookup_insert_Some; cbn [fst snd].
    + fold inum. destruct F1 as (F11 & F12 & F13 & F14), A9 as (E1 & E2 & E3 & E4 & E5). split; rewrite Hd.
      * cbn. by rewrite E1, E2, E3, E4.
      * cbn. rewrite length_app. lia.
      * rewrite length_app, Nat2Z.inj_add. destruct (mstruct_frame (mimg s1) m' G1 G1 inum din1 _ A2 ltac:(done) ltac:(intros; by eapply Hsec)).
        by split.
      * intros i Hi. rewrite length_app in Hi. change (dbyte m' x) with (dbyte m' din1).
        rewrite Hby by img_lia.
        destruct (decide (i < length w)%nat) as [Hiw|Hiw].
        -- rewrite A6 by img_lia. rewrite F4 by done. by rewrite lookup_total_app_l.
        -- specialize (Hb (i - length w)%nat ltac:(lia)). replace (Z.of_nat (length w) + Z.of_nat (i - length w)) with (Z.of_nat i) in Hb by lia.
           rewrite Hb. by rewrite lookup_total_app_r by lia.
      * intros q Hq. rewrite length_app in Hq. change (dbyte m' x) with (dbyte m' din1). rewrite Hby, A6 by lia. apply F5. lia.
    + pose proof (lookup_lt_Some _ _ _ Hk'). eapply mfile_frame; [by apply V5| |done|].
      * rewrite Hdo by img_lia. unfold dinode_at, sect. rewrite Hlow; [done|].
        pose proof (i2b_range (1 + Z.of_nat k') ltac:(img_lia)). lia.
      * intros y j Hyj. rewrite (Hsec y _ (A3 _ _ Hyj)). unfold sect. rewrite A5; [done|]. intros j' Hj'.
        rewrite (A3 _ _ Hyj) in Hj'. injection Hj' as Hj' _. lia.
  - rewrite (total_insert _ _ _ _ Hk), A7, V6. unfold flen, cost. cbn [snd]. rewrite length_app, Nat2Z.inj_add. lia.
  - rewrite Hy, Hlow by lia. done.
Qed.
