(* ===== verification/MkfsImage.v ===== *)
(** The image that mkfs.c [main] leaves, as the kernel's file system sees it:
    it can be booted from, each file has its bytes, the root directory its
    entries; and the bitmap takes the log for free space. *)

From S2P Require Import Prelude Params BlockDev Bio Log Crash CString Fs Dir FsSpec FileSpec Dinode FileData DirSpec Mkfs MkfsSpec.

(** ** What is to be in the image *)

(** The entries of the root directory and the files, numbered from 1. *)
Definition root_data (files : list host_file) : list Z :=
  mk_dirent ROOTINO [46] ++ mk_dirent ROOTINO [46; 46] ++
  concat (imap (fun k f => mk_dirent (2 + Z.of_nat k) (strip f.1)) files).
Definition file_entry (f : host_file) : Z * list Z := (T_FILE, concat f.2).
Definition tree (files : list host_file) : files_of := (T_DIR, root_data files) :: (file_entry <$> files).

Record host_ok (f : host_file) : Prop := {
  ho_name : existsb (fun c => c =? 47) f.1 = false;
  ho_chars : Forall is_u8 f.1;
  ho_bytes : Forall (Forall is_u8) f.2;
  ho_len : Z.of_nat (length (concat f.2)) <= 512 * MAXFILE
}.

(** At most as many inodes as there are, and the blocks below the log. *)
Record hosts_ok (files : list host_file) : Prop := {
  hs_each : Forall host_ok files;
  hs_inodes : 2 + Z.of_nat (length files) <= mk_ninodes;
  hs_blocks : mk_used0 + total (tree files) <= mk_size - mk_nlog
}.

Lemma cost_nonneg a : 0 <= a -> 0 <= cost a.
Proof. intros Ha. apply (cost_mono 0 a) in Ha. by change (cost 0) with 0 in Ha. Qed.

(** More or longer files take more blocks. *)
Lemma total_le D D' D2 : Forall2 (fun f g => flen f <= flen g) D D' -> total D <= total (D' ++ D2).
Proof.
  intros HD. rewrite total_app. assert (forall L, 0 <= total L) as H0.
  { induction L as [|a L IH]; [done|]. rewrite total_cons. pose proof (cost_nonneg (flen a) ltac:(unfold flen; lia)). lia. }
  specialize (H0 D2). enough (total D <= total D') by lia.
  induction HD as [|f f' D D' Hf HD IH]; [done|]. rewrite !total_cons. apply cost_mono in Hf. lia.
Qed.

Lemma length_mk_dirent i n : length (mk_dirent i n) = 16%nat.
Proof. unfold mk_dirent. rewrite length_app, length_le_bytes, length_take, length_app, length_replicate. change (Z.to_nat DIRSIZ) with 14%nat. lia. Qed.
Lemma mk_dirent_u8 i n : Forall is_u8 n -> Forall is_u8 (mk_dirent i n).
Proof.
  intros Hn. apply Forall_app. split; [apply le_bytes_range|]. apply Forall_take, Forall_app. split; [done|]. by apply Forall_replicate.
Qed.
Lemma strip_u8 n : Forall is_u8 n -> Forall is_u8 (strip n).
Proof. intros Hn. destruct n as [|c n]; [done|]. simpl. destruct (c =? 95); [by inversion Hn|done]. Qed.

Lemma root_data_app files f : root_data (files ++ [f]) = root_data files ++ mk_dirent (2 + Z.of_nat (length files)) (strip f.1).
Proof.
  unfold root_data. rewrite imap_app, concat_app, !app_assoc. f_equal. cbn. rewrite app_nil_r, Nat.add_0_r. done.
Qed.
Lemma length_root_data files : length (root_data files) = (16 * (2 + length files))%nat.
Proof.
  induction files as [|f files IH] using rev_ind; [done|]. rewrite root_data_app, !length_app, IH, length_mk_dirent. simpl. lia.
Qed.

(** ** The run of [main] *)

Definition started (s : mkst) : Prop :=
  (forall x, 0 <= x < mk_size -> mimg s !! x = Some (if decide (x = 1) then sb_block else zero_block)) /\
  (forall x b, mimg s !! x = Some b -> 0 <= x < mk_size) /\
  freeblock s = mk_used0 /\ usedblocks s = mk_used0 /\ freeinode s = 1.

Lemma sb_block_ok : block_ok sb_block.
Proof. repeat apply put32_block_ok; try apply zero_block_ok; lia. Qed.

Lemma started_inv s : started s -> mkinv s ∅ [].
Proof.
  intros (H1 & H0 & H2 & H3 & H4). split; [split| | | | | |]; rewrite ?H2, ?H3, ?H4; try done.
  - intros x Hx. rewrite (H1 x Hx). eexists. split; [done|]. case_decide; [apply sb_block_ok|apply zero_block_ok].
  - intros x Hx. rewrite mk_used0_val in Hx. rewrite H1, decide_False by lia. done.
  - by rewrite H1.
Qed.

Lemma zeroes_ok {A} (k : M mkst A) (Q : A -> mkst -> Prop) : (forall s, started s -> wp k s Q) ->
  wp (for_each (seq 0 (Z.to_nat (mk_nblocks + mk_used0 + mk_nlog))) (fun i => wsect (Z.of_nat i) zero_block) ;; wsect 1 sb_block ;; k) mk0 Q.
Proof.
  intros Hk. change (Z.to_nat _) with 1024%nat.
  apply wp_seq with (fun _ s => (forall x, 0 <= x < 1024 -> mimg s !! x = Some zero_block) /\
    (forall x b, mimg s !! x = Some b -> 0 <= x < 1024) /\
    freeblock s = mk_used0 /\ usedblocks s = mk_used0 /\ freeinode s = 1).
  - eapply wp_conseq; [apply (wp_for_seq (fun j s => (forall x, 0 <= x < Z.of_nat j -> mimg s !! x = Some zero_block) /\
      (forall x b, mimg s !! x = Some b -> 0 <= x < 1024) /\
      freeblock s = mk_used0 /\ usedblocks s = mk_used0 /\ freeinode s = 1))|by intros].
    + split; [intros; lia|]. split; [|done]. intros x b Hx. change (mimg mk0) with (∅ : gmap Z block) in Hx. by rewrite lookup_empty in Hx.
    + intros i s0 Hi (H1 & H0 & H2). apply wp_modify. cbn [mimg set_mimg]. split_and!; [| |apply H2..].
      2: { intros x b [[<- _]|[_ Hx]]%lookup_insert_Some; [lia|eauto]. }
      intros x Hx. destruct (decide (Z.of_nat i = x)) as [->|Hne]; [apply lookup_insert_eq|]. rewrite lookup_insert_ne by done. apply H1. lia.
  - intros [] s (H1 & H0 & H2). apply wp_bind, wp_modify, Hk. unfold started. rewrite mk_size_val. cbn [mimg set_mimg]. split_and!; [| |apply H2..].
    2: { intros x b [[<- _]|[_ Hx]]%lookup_insert_Some; [lia|eauto]. }
    intros x Hx. case_decide as E; [subst; apply lookup_insert_eq|]. rewrite lookup_insert_ne by done. by apply H1.
Qed.

Lemma total_part D k t (w w' : list Z) f : D !! k = Some f -> (length w <= length w')%nat -> total (<[k := (t, w)]> D) <= total (<[k := (t, w')]> D).
Proof.
  intros Hk Hl. rewrite !(total_insert _ _ _ _ Hk). pose proof (cost_mono (flen (t, w)) (flen (t, w')) ltac:(unfold flen; simpl; lia)). lia.
Qed.

Lemma chunks_ok s G D k t (w : list Z) cs : mkinv s G D -> D !! k = Some (t, w) -> 0 <= t < 2 ^ 15 -> Forall (Forall is_u8) cs ->
  Z.of_nat (length (w ++ concat cs)) <= 512 * MAXFILE -> mk_used0 + total (<[k := (t, w ++ concat cs)]> D) <= mk_size ->
  wp (for_each cs (iappend (1 + Z.of_nat k))) s (fun _ s' => exists G', mkinv s' G' (<[k := (t, w ++ concat cs)]> D)).
Proof.
  intros Hv Hk Ht Hcs Hlen Hcap. pose proof (lookup_lt_Some _ _ _ Hk) as Hkl.
  apply (wp_for_each (fun pre s' => exists G', mkinv s' G' (<[k := (t, w ++ concat pre)]> D))).
  { exists G. cbn [concat]. rewrite app_nil_r, list_insert_id by done. done. }
  intros pre x post s0 -> [G0 Hv0]. apply Forall_app in Hcs as [_ [Hx _]%Forall_cons].
  assert ((length (w ++ concat pre ++ x) <= length (w ++ concat (pre ++ x :: post)))%nat) as Hle.
  { rewrite concat_app. cbn [concat]. rewrite !length_app. lia. }
  assert (concat (pre ++ [x]) = concat pre ++ x) as Hc by (rewrite concat_app; cbn [concat]; by rewrite app_nil_r).
  pose proof (total_part D k t _ _ _ Hk Hle) as Htot.
  destruct (iappend_ok s0 G0 _ k t (w ++ concat pre) x Hv0) as (s1 & G1 & Hr & Hv1);
    [by apply list_lookup_insert_eq|done|done|rewrite <- app_assoc; lia|rewrite list_insert_insert_eq, <- app_assoc; lia|].
  eapply wp_of_eq; [exact Hr|]. exists G1. rewrite list_insert_insert_eq, <- app_assoc in Hv1. by rewrite Hc.
Qed.

(** One file of the command line. *)
Lemma tree_app files f : tree (files ++ [f]) =
  <[S (length files) := file_entry f]> (<[0%nat := (T_DIR, root_data files ++ mk_dirent (2 + Z.of_nat (length files)) (strip f.1))]>
    (tree files ++ [(T_FILE, [])])).
Proof.
  transitivity ((T_DIR, root_data files ++ mk_dirent (2 + Z.of_nat (length files)) (strip f.1)) ::
    <[length files := file_entry f]> ((file_entry <$> files) ++ [(T_FILE, [])])); [|done].
  unfold tree. rewrite root_data_app, fmap_app, insert_app_r_alt by (rewrite length_fmap; lia). by rewrite length_fmap, Nat.sub_diag.
Qed.
Lemma length_tree files : length (tree files) = S (length files).
Proof. unfold tree. cbn. by rewrite length_fmap. Qed.

Lemma mk_file_ok s G files f : mkinv s G (tree files) -> host_ok f -> 3 + Z.of_nat (length files) <= mk_ninodes ->
  mk_used0 + total (tree (files ++ [f])) <= mk_size ->
  wp (mk_file ROOTINO f) s (fun _ s' => exists G', mkinv s' G' (tree (files ++ [f]))).
Proof.
  intros Hv [H1 H2 H3 H4] Hn Hcap. destruct f as [name chunks]. cbn [fst snd] in *. unfold mk_file. rewrite H1.
  assert (S (length files) < length (tree files ++ [(T_FILE, [] : list Z)]))%nat as Hlt by (rewrite length_app, length_tree; simpl; lia).
  destruct (mk_ialloc_ok s G (tree files) T_FILE Hv) as (s1 & Hr1 & Hv1); [rewrite (mv_ino _ _ _ Hv), length_tree; lia|by vm_compute|].
  eapply wp_bind_eq; [exact Hr1|]. rewrite length_tree in *. replace (1 + Z.of_nat (S (length files))) with (2 + Z.of_nat (length files)) by lia.
  rewrite tree_app in Hcap. set (D2 := <[0%nat := _]> (tree files ++ _)) in *. cbn [fst snd] in D2.
  assert (D2 !! S (length files) = Some (T_FILE, [])) as HD2.
  { unfold D2. rewrite list_lookup_insert_ne by lia. apply list_lookup_middle. by rewrite length_tree. }
  rewrite (total_insert _ _ _ _ HD2) in Hcap. change (cost (flen (T_FILE, []))) with 0 in Hcap.
  pose proof (cost_nonneg (flen (file_entry (name, chunks))) ltac:(unfold flen; lia)).
  destruct (iappend_ok s1 G _ 0 T_DIR (root_data files) (mk_dirent (2 + Z.of_nat (length files)) (strip name)) Hv1) as (s2 & G2 & Hr2 & Hv2);
    [done|by vm_compute|by apply mk_dirent_u8, strip_u8| |fold D2; lia|].
  { rewrite length_app, length_root_data, length_mk_dirent. img_lia. }
  eapply wp_bind_eq; [exact Hr2|]. fold D2 in Hv2.
  replace (2 + Z.of_nat (length files)) with (1 + Z.of_nat (S (length files))) by lia. rewrite tree_app.
  apply (chunks_ok s2 G2 D2 (S (length files)) T_FILE [] chunks Hv2); [done|by vm_compute|done|done|].
  rewrite (total_insert _ _ _ _ HD2). change (cost (flen (T_FILE, []))) with 0. unfold file_entry in *. cbn [snd app] in *. lia.
Qed.

Lemma tree_part files rest : total (tree files) <= total (tree (files ++ rest)).
Proof.
  unfold tree. rewrite fmap_app, app_comm_cons. apply total_le. constructor.
  - unfold flen. cbn [snd]. rewrite !length_root_data, length_app. lia.
  - apply Forall2_same_length_lookup_2; [done|]. intros i x y Hx Hy. rewrite Hx in Hy. by injection Hy as ->.
Qed.

(** ** What [main] leaves *)

(** The root directory's size is rounded up to a block, past its entries. *)
Definition root_size (files : list host_file) : Z := (16 * (2 + Z.of_nat (length files)) / BSIZE + 1) * BSIZE.

Record built (files : list host_file) (s : mkst) (G : owner) : Prop := {
  bu_all x : 0 <= x < mk_size -> exists b, mimg s !! x = Some b /\ block_ok b;
  bu_dom x b : mimg s !! x = Some b -> 0 <= x < mk_size;
  bu_range : freeblock s = mk_used0 + total (tree files) /\ freeblock s <= mk_size - mk_nlog;
  bu_own x w : G !! x = Some w -> mk_used0 <= x < freeblock s;
  bu_zero x : freeblock s <= x < mk_size -> mimg s !! x = Some zero_block;
  bu_sb : mimg s !! 1 = Some sb_block;
  bu_bits b : 0 <= b < mk_size -> bit_of (sect (mimg s) 28) b = (b <? freeblock s);
  bu_file k f : files !! k = Some f -> mfile (mimg s) G (2 + Z.of_nat k) T_FILE (concat f.2);
  bu_root : exists din, dinode_at (mimg s) ROOTINO = set_d_size (root_size files) din /\ d_type din = T_DIR /\
    d_major din = 0 /\ d_minor din = 0 /\ d_nlink din = 1 /\ mstruct (mimg s) G ROOTINO din (nblk (Z.of_nat (length (root_data files)))) /\
    (forall i, (i < length (root_data files))%nat -> dbyte (mimg s) din (Z.of_nat i) = root_data files !!! i) /\
    (forall p, Z.of_nat (length (root_data files)) <= p < BSIZE * MAXFILE -> dbyte (mimg s) din p = 0)
}.

Definition used_bits (n : nat) : block := foldl (fun d i => set_bit (Z.of_nat i) d) zero_block (seq 0 n).

Lemma used_bits_ok n : (n <= 4096)%nat -> block_ok (used_bits n) /\
  forall b, 0 <= b < BPB -> bit_of (used_bits n) b = (b <? Z.of_nat n).
Proof.
  unfold used_bits. induction n as [|n IH]; intros Hn.
  - split; [apply zero_block_ok|]. intros b Hb. cbn [seq foldl]. unfold bit_of, zero_block. rewrite lookup_total_replicate_2.
    + rewrite (proj2 (Z.ltb_ge b _)) by lia. done.
    + destruct (bit_index b Hb). done.
  - rewrite seq_S, foldl_snoc. cbn [Nat.add]. destruct (IH ltac:(lia)) as [Hok Hb]. rewrite BPB_val in *.
    split; [apply set_bit_ok; [done|rewrite BPB_val; lia]|]. intros b Hb0. rewrite bit_of_set by (done || (rewrite BPB_val; lia)).
    rewrite Hb by done. case_decide; [subst; symmetry; apply Z.ltb_lt; lia|].
    destruct (Z.ltb_spec b (Z.of_nat n)); symmetry; [apply Z.ltb_lt|apply Z.ltb_ge]; lia.
Qed.

Lemma dinode_at_bitmap m b j : 0 <= j < mk_ninodes -> dinode_at (<[28 := b]> m) j = dinode_at m j.
Proof. intros Hj. pose proof (i2b_range j Hj). unfold dinode_at. rewrite sect_insert, decide_False by lia. done. Qed.

Lemma root_size_range files : 2 + Z.of_nat (length files) <= mk_ninodes ->
  16 * (2 + Z.of_nat (length files)) < root_size files <= 3584.
Proof.
  intros Hn. unfold root_size. change BSIZE with 512. change mk_ninodes with 200 in Hn. set (l := 16 * _).
  pose proof (Z.div_mod l 512). pose proof (Z.mod_pos_bound l 512). pose proof (Z.div_lt_upper_bound l 512 7). lia.
Qed.

Lemma finish_ok s G files : hosts_ok files -> mkinv s G (tree files) ->
  wp (din <- rinode ROOTINO ;;
      winode ROOTINO (set_d_size ((d_size din / BSIZE + 1) * BSIZE) din) ;;
      used <- gets usedblocks ;;
      mk_balloc used) s (fun _ s' => built files s' G).
Proof.
  intros [_ Hn Hcap] [V1 V2 V3 V4 V5 V6 V7]. change ROOTINO with (1 + Z.of_nat 0).
  eapply wp_bind_eq; [apply (rinode_ret s G); [done|img_lia]|].
  destruct (V5 0%nat _ eq_refl) as [(F11 & F12 & F13 & F14) F2 F3 F4 F5]. cbn [fst snd] in *. set (din := dinode_at (mimg s) (1 + Z.of_nat 0)) in *.
  assert ((d_size din / BSIZE + 1) * BSIZE = root_size files) as ->.
  { unfold root_size. rewrite F2, length_root_data. do 3 f_equal. lia. }
  pose proof (root_size_range files Hn) as Hrs.
  destruct (winode_ok s G (1 + Z.of_nat 0) (set_d_size (root_size files) din) V1 ltac:(img_lia)) as (m' & Hr & Hi' & Hd & Hdo & Hy).
  { split; cbn [d_type d_major d_minor d_nlink d_size d_addrs set_d_size]; rewrite ?F11, ?F12, ?F13, ?F14; try (change T_DIR with 1; lia).
    - unfold is_u32. lia. - apply (ms_words _ _ _ _ _ F3). - apply (ms_len _ _ _ _ _ F3). }
  eapply wp_bind_eq; [exact Hr|]. apply wp_bind, wp_gets. cbn [usedblocks set_mimg]. rewrite (im_used _ _ V1).
  change (mk_size - mk_nlog) with 994 in *. rewrite <- V6 in Hcap. unfold mk_balloc. rewrite (proj2 (Z.ltb_lt _ _)) by lia. cbn [negb].
  apply wp_modify. destruct (used_bits_ok (Z.to_nat (freeblock s)) ltac:(lia)) as [Hbok Hbits]. fold (used_bits (Z.to_nat (freeblock s))).
  pose proof (im_range _ _ V1) as Hrange. rewrite mk_used0_val, mk_size_val in Hrange. change (mk_ninodes / IPB + 3) with 28.
  set (m2 := <[28 := used_bits (Z.to_nat (freeblock s))]> m').
  assert (forall x w, G !! x = Some w -> sect m2 x = sect (mimg s) x) as Hsec.
  { intros x w Hx. destruct (owned_range _ _ _ _ V1 Hx). unfold m2. rewrite sect_insert, decide_False by lia. unfold sect. by rewrite Hy by lia. }
  split; cbn [mimg freeblock set_mimg]; fold m2.
  - intros x Hx. destruct (decide (28 = x)) as [<-|Hne]; unfold m2; [rewrite lookup_insert_eq; eauto|].
    rewrite lookup_insert_ne by done. by apply (im_all _ _ Hi').
  - unfold m2. intros x b [[<- _]|[_ Hx]]%lookup_insert_Some; [rewrite mk_size_val; lia|by eapply (im_dom _ _ Hi')].
  - change (mk_size - mk_nlog) with 994. done.
  - apply (im_own _ _ V1).
  - intros x Hx. unfold m2. rewrite lookup_insert_ne, Hy by lia. by apply (im_zero _ _ V1).
  - unfold m2. rewrite lookup_insert_ne, Hy by lia. done.
  - intros b Hb. unfold m2. rewrite sect_insert, decide_True by done. rewrite mk_size_val in Hb. rewrite Hbits by (rewrite BPB_val; lia). by rewrite Z2Nat.id by lia.
  - intros k f Hk. pose proof (lookup_lt_Some _ _ _ Hk). replace (2 + Z.of_nat k) with (1 + Z.of_nat (S k)) by lia.
    eapply mfile_frame; [apply (V5 (S k) (file_entry f))| |done|by intros; eapply Hsec].
    + unfold tree. rewrite lookup_cons, list_lookup_fmap, Hk. done.
    + unfold m2. rewrite dinode_at_bitmap, Hdo by img_lia. done.
  - exists din. unfold m2 at 1. rewrite dinode_at_bitmap by (change ROOTINO with 1; img_lia). change ROOTINO with (1 + Z.of_nat 0).
    split; [exact Hd|]. do 4 (split; [assumption|]). split_and!.
    + eapply mstruct_frame; [exact F3|done|by intros; eapply Hsec].
    + intros i Hi. rewrite <- (F4 i Hi). eapply dbyte_frame; [exact F3|by intros; eapply Hsec|].
      rewrite length_root_data in Hi. img_lia.
    + intros p Hp. rewrite <- (F5 p Hp). eapply dbyte_frame; [exact F3|by intros; eapply Hsec|lia].
Qed.

Lemma mkfs_built files : hosts_ok files -> wp (mkfs files) mk0 (fun _ s => exists G, built files s G).
Proof.
  intros Hh. pose proof Hh as [Hf Hn Hcap]. change (mk_size - mk_nlog) with 994 in Hcap. unfold mkfs. apply zeroes_ok. intros s Hs%started_inv.
  destruct (mk_ialloc_ok s ∅ [] T_DIR Hs) as (s1 & Hr1 & Hv1); [by rewrite (mv_ino _ _ _ Hs)|by vm_compute|].
  eapply wp_bind_eq; [exact Hr1|]. change (1 + Z.of_nat (length [])) with (1 + Z.of_nat 0). change (negb (1 + Z.of_nat 0 =? ROOTINO)) with false. cbn iota.
  cbn [app] in Hv1.
  destruct (iappend_ok s1 ∅ _ 0 T_DIR [] (mk_dirent ROOTINO [46]) Hv1 eq_refl) as (s2 & G2 & Hr2 & Hv2); [by vm_compute|apply mk_dirent_u8; by repeat constructor|by vm_compute|by vm_compute|].
  eapply wp_bind_eq; [exact Hr2|].
  destruct (iappend_ok s2 G2 _ 0 T_DIR _ (mk_dirent ROOTINO [46; 46]) Hv2 eq_refl) as (s3 & G3 & Hr3 & Hv3); [by vm_compute|apply mk_dirent_u8; by repeat constructor|by vm_compute|by vm_compute|].
  eapply wp_bind_eq; [exact Hr3|].
  eapply wp_seq; [apply (wp_for_each (fun pre s' => exists G', mkinv s' G' (tree pre)))|].
  - exists G3. exact Hv3.
  - intros pre x post s0 -> [G0 Hv0]. apply Forall_app in Hf as [_ [Hx _]%Forall_cons]. rewrite length_app in Hn. cbn [length] in Hn.
    apply (mk_file_ok s0 G0 pre x Hv0 Hx); [lia|].
    pose proof (tree_part (pre ++ [x]) post) as Htp. rewrite <- app_assoc in Htp. cbn [app] in Htp. rewrite mk_size_val. lia.
  - intros [] s4 [G4 Hv4]. eapply wp_conseq; [apply (finish_ok s4 G4 files Hh Hv4)|]. intros [] s' Hb. by exists G4.
Qed.

(** ** What the kernel finds *)

Definition mk_geom : geom := mkgeom 1 994 30.
Definition mk_sb : superblock := mksb 1024 965 200 30.

(** The disk with the image, and the inode that fs.c [ilock] reads from it. *)
Definition disk_of (s : mkst) : disk := mkdisk (kmap (pair 1) (mimg s)) [].
Definition kinode (v : key -> block) (inum : Z) : inode :=
  of_dinode (get_dinode (dinode_off inum) (v (1, IBLOCK inum))) (mkinode 1 inum 1 (Z.lor I_BUSY I_VALID) 0 0 0 0 0 []).

Lemma disk_of_get s x : disk_get (disk_of s) (1, x) = sect (mimg s) x.
Proof. unfold disk_get, img_get, disk_of, sect. cbn [img]. by rewrite (lookup_kmap (pair 1) (mimg s) x). Qed.

Lemma disk_of_ok files s G : built files s G -> disk_ok (disk_of s).
Proof.
  intros Hb k. unfold disk_get, img_get, disk_of. cbn [img]. destruct (kmap (pair 1) (mimg s) !! k) as [b|] eqn:E; [|apply zero_block_ok].
  apply lookup_kmap_Some in E as (x & -> & Hx); [|apply _]. destruct (bu_all _ _ _ Hb x (bu_dom _ _ _ Hb _ _ Hx)) as (b' & Hb' & Hok).
  rewrite Hx in Hb'. by injection Hb' as ->.
Qed.

Section kernel.
Context (files : list host_file) (s : mkst) (G : owner) (HB : built files s G).
Abbreviation v := (disk_get (disk_of s)).

Lemma mk_used b : 0 <= b < mk_size -> used mk_geom mk_sb v b = (b <? freeblock s).
Proof.
  intros Hb. rewrite <- (bu_bits _ _ _ HB b Hb). rewrite mk_size_val in Hb. unfold used, gk, bitmap_of, BBLOCK. cbn [g_dev mk_geom sb_ninodes mk_sb].
  change (200 / IPB + 3) with 28. rewrite BPB_val. rewrite Z.div_small, Z.mod_small by lia. apply (f_equal (fun d => bit_of d b)), disk_of_get.
Qed.

Lemma mk_data x w : G !! x = Some w -> data_block mk_geom mk_sb x /\ used mk_geom mk_sb v x = true.
Proof.
  intros Hx. pose proof (bu_own _ _ _ HB _ _ Hx) as Hr. destruct (bu_range _ _ _ HB) as [_ Hm]. rewrite mk_used0_val in Hr.
  change (mk_size - mk_nlog) with 994 in Hm. split.
  - unfold data_block. change (data_start mk_sb) with 29. change (g_start mk_geom) with 994. lia.
  - rewrite mk_used by (rewrite mk_size_val; lia). apply Z.ltb_lt. lia.
Qed.

Lemma addr_daddr din inum bn : addr_of mk_geom v (of_dinode din (mkinode 1 inum 1 (Z.lor I_BUSY I_VALID) 0 0 0 0 0 [])) bn = daddr (mimg s) din bn.
Proof.
  unfold addr_of, daddr, ind. cbn [i_addrs of_dinode]. destruct (bn <? NDIRECT); [done|]. destruct (_ =? 0); [done|].
  apply (f_equal (get32 _)), disk_of_get.
Qed.

(** A file of the image that has no hole. *)
Lemma kernel_file inum din n (I := kinode v inum) : dinode_at (mimg s) inum = din -> 0 < inum < 200 -> dinode_ok din ->
  mstruct (mimg s) G inum din n ->
  i_size I = d_size din /\ (forall p, content mk_geom v I p = dbyte (mimg s) din p) /\
  (0 <= d_size din <= BSIZE * n -> file_ok mk_geom mk_sb v I).
Proof.
  intros Hd Hi Hok Hm. assert (I = of_dinode din (mkinode 1 inum 1 (Z.lor I_BUSY I_VALID) 0 0 0 0 0 [])) as HI.
  { unfold I, kinode. rewrite disk_of_get. change (IBLOCK inum) with (i2b inum). by rewrite <- Hd. }
  rewrite HI. split; [done|]. split.
  { intros p. unfold content, dbyte. rewrite addr_daddr. destruct (_ =? 0); [done|]. apply (f_equal (fun d : list Z => d !!! _)), disk_of_get. }
  intros Hs. pose proof (ms_n _ _ _ _ _ Hm) as Hn.
  assert (forall bn, 0 <= bn < MAXFILE -> daddr (mimg s) din bn <> 0 -> G !! daddr (mimg s) din bn = Some (inum, bn)) as Hown.
  { intros bn Hbn Hne. destruct (decide (bn < n)); [apply (ms_own _ _ _ _ _ Hm); lia|]. by rewrite (ms_none _ _ _ _ _ Hm) in Hne by lia. }
  split; [split| | | | |].
  - apply (ms_len _ _ _ _ _ Hm).
  - done.
  - intros x [Hx0 [Hx|(bn & Hbn & Hx)]].
    + cbn in Hx. destruct (ind_owned _ _ _ _ _ Hm) as [_ Ho]; [by unfold ind in Hx; cbn in Hx; rewrite <- Hx|].
      unfold ind in Hx; cbn [i_addrs of_dinode] in Hx. rewrite Hx. by eapply mk_data.
    + rewrite addr_daddr in Hx. subst x. eapply mk_data, Hown; done.
  - intros bn bn' Hbn Hbn' E Hne. rewrite !addr_daddr in *. pose proof (Hown bn Hbn Hne) as H1. rewrite E in Hne, H1.
    rewrite (Hown bn' Hbn' Hne) in H1. by injection H1.
  - intros bn Hbn Hne E. rewrite addr_daddr in *. pose proof (Hown bn Hbn Hne) as H1. unfold ind in E. cbn [i_addrs of_dinode] in E.
    rewrite E in Hne, H1. destruct (ind_owned _ _ _ _ _ Hm Hne) as [_ H2]. rewrite H1 in H2. injection H2 as ->. destruct Hbn. lia.
  - done.
  - cbn. change (i_size _) with (d_size din). img_lia.
  - intros p Hp. change (i_size _) with (d_size din) in Hp. rewrite addr_daddr. pose proof (div_file p ltac:(img_lia)).
    assert (p / BSIZE < n) as Hpn by (change BSIZE with 512 in *; apply Z.div_lt_upper_bound; lia).
    pose proof (bu_own _ _ _ HB _ _ (ms_own _ _ _ _ _ Hm (p / BSIZE) ltac:(lia))) as Ho. rewrite mk_used0_val in Ho. lia.
  - unfold synced. cbn [i_inum of_dinode]. unfold gk. cbn [g_dev mk_geom]. rewrite disk_of_get. change (IBLOCK inum) with (i2b inum).
    fold (dinode_at (mimg s) inum). rewrite Hd. by destruct din.
  - by destruct din.
Qed.
End kernel.

Lemma root_data_split l f post :
  exists rest, root_data (l ++ f :: post) = root_data l ++ mk_dirent (2 + Z.of_nat (length l)) (strip f.1) ++ rest.
Proof.
  induction post as [|x post [p2 IH]] using rev_ind.
  - exists []. by rewrite root_data_app, app_nil_r.
  - eexists. rewrite app_comm_cons, app_assoc, root_data_app, IH, <- !app_assoc. done.
Qed.

Lemma root_file_entry files k f pad : files !! k = Some f ->
  entry (root_data files ++ pad) (2 + k) = mk_dirent (2 + Z.of_nat k) (strip f.1).
Proof.
  intros Hk. pose proof (lookup_lt_Some _ _ _ Hk). destruct (root_data_split (take k files) f (drop (S k) files)) as [rest Hr].
  rewrite take_drop_middle, length_take, Nat.min_l in Hr by (done || lia). rewrite Hr. unfold entry, slice.
  rewrite <- !app_assoc, drop_app_length' by (rewrite length_root_data, length_take; lia).
  by rewrite take_app_length' by (by rewrite length_mk_dirent).
Qed.

Lemma file_data_eq v I (w : list Z) : i_size I = Z.of_nat (length w) ->
  (forall i, (i < length w)%nat -> content mk_geom v I (Z.of_nat i) = w !!! i) -> file_data mk_geom v I = w.
Proof.
  intros Hs Hc. apply list_eq_same_length with (length w); [done|rewrite length_file_data; lia|].
  intros i x y Hi Hx Hy. rewrite lookup_file_data in Hx by lia. injection Hx as <-. rewrite Hc by done. by apply list_lookup_total_correct.
Qed.

(** The root directory's contents: its entries, and zeroes to the end of a block. *)
Definition root_file (files : list host_file) : list Z :=
  root_data files ++ replicate (Z.to_nat (root_size files) - length (root_data files)) 0.

Section found.
Context (files : list host_file) (s : mkst) (G : owner) (Hh : hosts_ok files) (HB : built files s G).
Abbreviation v := (disk_get (disk_of s)).

Lemma found_file k f (I := kinode v (2 + Z.of_nat k)) : files !! k = Some f ->
  i_type I = T_FILE /\ i_nlink I = 1 /\ file_ok mk_geom mk_sb v I /\ file_data mk_geom v I = concat f.2.
Proof.
  intros Hk. pose proof (lookup_lt_Some _ _ _ Hk) as Hlt. destruct Hh as [Hf Hn _]. change mk_ninodes with 200 in Hn.
  pose proof (ho_len _ (Forall_lookup_1 _ _ _ _ Hf Hk)) as Hlen. destruct (bu_file _ _ _ HB k f Hk) as [(F11 & F12 & F13 & F14) F2 F3 F4 F5].
  set (din := dinode_at (mimg s) (2 + Z.of_nat k)) in *.
  assert (dinode_ok din) as Hok.
  { split; rewrite ?F11, ?F12, ?F13, ?F14; try (change T_FILE with 2; lia); [|apply (ms_words _ _ _ _ _ F3)|apply (ms_len _ _ _ _ _ F3)].
    rewrite F2. unfold is_u32. img_lia. }
  destruct (kernel_file files s G HB (2 + Z.of_nat k) din _ eq_refl ltac:(lia) Hok F3) as (Hs & Hc & Hfo). fold I in Hs, Hc, Hfo.
  assert (i_type I = d_type din /\ i_nlink I = d_nlink din) as [-> ->].
  { unfold I, kinode. rewrite disk_of_get. done. }
  split_and!; [done|done|apply Hfo; rewrite F2; pose proof (nblk_cover (Z.of_nat (length (concat f.2)))); lia|].
  apply file_data_eq; [by rewrite Hs|]. intros i Hi. rewrite Hc. by apply F4.
Qed.

Lemma found_root (R := kinode v ROOTINO) : i_type R = T_DIR /\ i_nlink R = 1 /\ file_data mk_geom v R = root_file files /\
  (Z.of_nat (2 + length files) mod 32 <> 0 -> dir_ok mk_geom mk_sb v R).
Proof.
  destruct Hh as [_ Hn _]. pose proof (root_size_range files Hn) as Hrs. change mk_ninodes with 200 in Hn.
  destruct (bu_root _ _ _ HB) as (din & Hd & F11 & F12 & F13 & F14 & F3 & F4 & F5). set (x := set_d_size (root_size files) din) in *.
  assert (dinode_ok x) as Hok.
  { split; cbn; rewrite ?F11, ?F12, ?F13, ?F14; try (change T_DIR with 1; lia); [|apply (ms_words _ _ _ _ _ F3)|apply (ms_len _ _ _ _ _ F3)].
    unfold is_u32. lia. }
  assert (mstruct (mimg s) G ROOTINO x (nblk (Z.of_nat (length (root_data files))))) as Hm by (destruct F3; by split).
  destruct (kernel_file files s G HB ROOTINO x _ Hd ltac:(change ROOTINO with 1; lia) Hok Hm) as (Hs & Hc & Hfo). fold R in Hs, Hc, Hfo.
  assert (i_type R = d_type din /\ i_nlink R = d_nlink din) as [Ht ->].
  { unfold R, kinode. rewrite disk_of_get. change (IBLOCK ROOTINO) with (i2b ROOTINO). fold (dinode_at (mimg s) ROOTINO). by rewrite Hd. }
  assert (length (root_file files) = Z.to_nat (root_size files)) as Hl.
  { unfold root_file. rewrite length_app, length_replicate, length_root_data. lia. }
  assert (file_data mk_geom v R = root_file files) as Hdata.
  { apply file_data_eq; [rewrite Hs, Hl; cbn; lia|]. intros i Hi. rewrite Hc. change (dbyte (mimg s) x) with (dbyte (mimg s) din). rewrite Hl in Hi.
    unfold root_file. destruct (decide (i < length (root_data files))%nat).
    - rewrite F4 by done. by rewrite lookup_total_app_l.
    - rewrite F5 by img_lia. rewrite lookup_total_app_r, lookup_total_replicate_2 by lia. done. }
  split_and!; [by rewrite Ht|done|done|]. intros Hmod. split; [apply Hfo|by rewrite Ht|].
  - change (d_size x) with (root_size files). rewrite length_root_data. unfold root_size in *. change BSIZE with 512 in *. unfold nblk.
    rewrite Nat2Z.inj_mul, !Nat2Z.inj_add in *. change (Z.of_nat 16) with 16 in *. change (Z.of_nat 2) with 2 in *. set (q := 2 + Z.of_nat (length files)) in *.
    pose proof (Z.div_mod q 32). pose proof (Z.mod_pos_bound q 32).
    rewrite <- (Z.div_unique (16 * q) 512 (q / 32) (16 * (q mod 32))) by lia.
    rewrite <- (Z.div_unique (16 * q + 511) 512 (q / 32 + 1) (16 * (q mod 32) - 1)) by lia. lia.
  - rewrite Hdata. unfold n_entries. rewrite Hl. unfold root_size. change BSIZE with (16 * 32). set (z := _ / _ + 1) in *.
    assert (0 <= z) by (unfold z; pose proof (Z.div_pos (16 * (2 + Z.of_nat (length files))) (16 * 32)); lia).
    replace (Z.to_nat (z * (16 * 32))) with (16 * (32 * Z.to_nat z))%nat by lia. rewrite (Nat.mul_comm 16), Nat.div_mul by lia. lia.
Qed.

Lemma found_head : v (hk mk_geom) = zero_block.
Proof.
  unfold hk, gk. cbn [mk_geom g_dev g_start]. rewrite disk_of_get. unfold sect. rewrite (bu_zero _ _ _ HB); [done|].
  destruct (bu_range _ _ _ HB) as [_ Hr]. change (mk_size - mk_nlog) with 994 in Hr. rewrite mk_size_val. lia.
Qed.

Lemma found_boot `{BlockDev} : bootable mk_geom (disk_of s) /\ sb_decode (v (1, 1)) = mk_sb.
Proof.
  assert (v (1, 1) = sb_block) as Hsb by (rewrite disk_of_get; unfold sect; by rewrite (bu_sb _ _ _ HB)).
  pose proof found_head as Hh0.
  split; [split|].
  - by eapply disk_of_ok.
  - change (ROOTDEV, 1) with (1, 1). rewrite Hsb. by vm_compute.
  - rewrite Hh0. split; [by vm_compute|]. change (head_list zero_block) with (@nil Z). constructor.
  - rewrite Hh0. change (head_list zero_block) with (@nil Z). set_solver.
  - rewrite Hsb. by vm_compute.
Qed.
End found.

(** ** Theorems *)

(** C15: For files that fit below the log, mkfs.c [main] returns and leaves an
    image that the kernel can boot from: the superblock is the one it asks
    for and the log is empty.  The inode that [ilock] reads for each file of
    the command line is a regular file that satisfies the kernel's invariant
    on files, and its contents are the bytes of the host file.  The root
    directory has the entries of the files, each with its inode number, and
    satisfies the kernel's invariant on directories unless its entries fill
    the last block exactly. *)
Theorem mkfs_image `{BlockDev} files : hosts_ok files ->
  exists s, mkfs files mk0 = Ret tt s /\
    let v := disk_get (disk_of s) in
    bootable mk_geom (disk_of s) /\ sb_decode (v (1, 1)) = mk_sb /\
    (forall k f, files !! k = Some f ->
       let I := kinode v (2 + Z.of_nat k) in
       i_type I = T_FILE /\ i_nlink I = 1 /\ file_ok mk_geom mk_sb v I /\ file_data mk_geom v I = concat f.2 /\
       entry (file_data mk_geom v (kinode v ROOTINO)) (2 + k) = mk_dirent (2 + Z.of_nat k) (strip f.1)) /\
    let R := kinode v ROOTINO in
    i_type R = T_DIR /\ i_nlink R = 1 /\ file_data mk_geom v R = root_file files /\
    (Z.of_nat (2 + length files) mod 32 <> 0 -> dir_ok mk_geom mk_sb v R).
Proof.
  intros Hh. destruct (wp_eq_tt _ _ _ (mkfs_built files Hh)) as (s & Hr & G & HB). exists s. split; [done|]. cbn zeta.
  destruct (found_boot files s G Hh HB) as [Hb Hsb]. destruct (found_root files s G Hh HB) as (R1 & R2 & R3 & R4).
  split_and!; [exact Hb|exact Hsb| |exact R1|exact R2|exact R3|exact R4]. intros k f Hk. destruct (found_file files s G Hh HB k f Hk) as (H1 & H2 & H3 & H4).
  split_and!; [exact H1|exact H2|exact H3|exact H4|]. rewrite R3. exact (root_file_entry files k f _ Hk).
Qed.

(** C39: mkfs.c [balloc] marks only the blocks it has handed out: every block
    from [freeblock] on is free in the bitmap, the log's blocks included, so
    that the image does not satisfy what the kernel's allocator relies on. *)
Theorem mkfs_log_free files : hosts_ok files ->
  exists s, mkfs files mk0 = Ret tt s /\
    let v := disk_get (disk_of s) in
    (forall b, 0 <= b < mk_size -> used mk_geom mk_sb v b = (b <? mk_used0 + total (tree files))) /\
    (forall b, in_region mk_geom b -> used mk_geom mk_sb v b = false) /\
    ~ bitmap_ok mk_geom mk_sb v.
Proof.
  intros Hh. destruct (wp_eq_tt _ _ _ (mkfs_built files Hh)) as (s & Hr & G & HB). exists s. split; [done|]. cbn zeta.
  destruct (bu_range _ _ _ HB) as [Hf Hm]. change (mk_size - mk_nlog) with 994 in Hm.
  assert (forall b, in_region mk_geom b -> used mk_geom mk_sb (disk_get (disk_of s)) b = false) as Hlog.
  { intros b Hb. unfold in_region, mk_geom in Hb. cbn [g_start g_size] in Hb. rewrite (mk_used files s G HB) by (rewrite mk_size_val; lia).
    apply Z.ltb_ge. lia. }
  split_and!; [|done|].
  - intros b Hb. rewrite (mk_used files s G HB) by done. by rewrite Hf.
  - intros [_ Hbo]. assert (in_region mk_geom 994) as H1 by (split; done).
    assert (0 <= 994 < sb_size mk_sb) as H2 by (split; done). destruct (Hbo 994 H2 (Hlog 994 H1)) as [_ H3]. clear - H3. change (g_start mk_geom) with 994 in H3. lia.
Qed.

Module MkfsW.
#[local] Existing Instance CrashWitness.dev.

(** README, of three bytes, and _cat, whose 6400 bytes need the indirect block. *)
Definition hosts : list host_file :=
  [([82; 69; 65; 68; 77; 69], [[104; 105; 10]]); ([95; 99; 97; 116], replicate 12 (replicate 512 7) ++ [replicate 256 8])].

Lemma hosts_fit : hosts_ok hosts.
Proof.
  split; [|by vm_compute|by vm_compute].
  apply Forall_cons. split; [by split; cbn [fst snd]; [|repeat constructor..|]|]. apply Forall_cons. split; [|constructor].
  split; cbn [fst snd]; [done|by repeat constructor| |by vm_compute].
  apply Forall_app. split; [apply Forall_replicate|apply Forall_cons; split; [|constructor]]; by apply Forall_replicate.
Qed.

Lemma mkfs_image_witness :
  exists s, mkfs hosts mk0 = Ret tt s /\
    let v := disk_get (disk_of s) in
    bootable mk_geom (disk_of s) /\ dir_ok mk_geom mk_sb v (kinode v ROOTINO) /\
    file_data mk_geom v (kinode v 2) = [104; 105; 10] /\
    file_data mk_geom v (kinode v 3) = concat (replicate 12 (replicate 512 7) ++ [replicate 256 8]).
Proof.
  destruct (mkfs_image hosts hosts_fit) as (s & Hr & H1 & H2 & H3 & H4 & H5 & H6 & H7). exists s. split; [exact Hr|]. cbn zeta.
  split; [exact H1|]. split; [apply H7; by vm_compute|]. split.
  - destruct (H3 0%nat _ eq_refl) as (_ & _ & _ & E & _). exact E.
  - destruct (H3 1%nat _ eq_refl) as (_ & _ & _ & E & _). exact E.
Defined.

Lemma mkfs_log_free_witness : exists s, mkfs hosts mk0 = Ret tt s /\ ~ bitmap_ok mk_geom mk_sb (disk_get (disk_of s)).
Proof. destruct (mkfs_log_free hosts hosts_fit) as (s & Hr & _ & _ & H). exists s. split; [exact Hr|exact H]. Defined.

(** The kernel on a disk that mkfs has filled up to the log: [balloc] hands
    out the block of the log's header. *)
Definition full_disk : disk :=
  match mk_balloc 994 mk0 with
  | Ret _ s => mkdisk (<[(1, 1) := sb_block]> (kmap (pair 1) (mimg s))) []
  | _ => mkdisk ∅ []
  end.
Definition full : fsst unit :=
  match (initlog ;; begin_op) (boot full_disk) with
  | Ret _ s => Fs.mkfs s (mkicache false (replicate NINODE zero_inode)) tt
  | _ => Fs.mkfs (boot full_disk) (mkicache false []) tt
  end.

Lemma balloc_takes_log : exists s, balloc 1 full = Ret 994 s.
Proof. eexists. vm_compute. reflexivity. Qed.
End MkfsW.
