(* ===== verification/Devices.v ===== *)
(** Interrupt controllers, timers, the serial port and the clock: picirq.c,
    ioapic.c, timer.c, uart.c, lapic.c, and the part of main.c [main] that sets
    them up.

    The controllers are modelled as their data sheets describe what the kernel
    uses of them: an 8259A is initialised by a sequence of words and then holds
    a mask; the I/O APIC has registers reached through a selector; the local
    APIC is its registers.  What is proved is which interrupts can arrive after
    [main], on which processor and with which vector, and that [cmostime] gives
    a time that the clock has had. *)

From S2P Require Import Prelude Params CString Fs Kernel Proc Syscall Console Exec Mp.

(** ** The controllers *)

(** An 8259A: the mask, the base of its vectors, the cascade word, whether it
    ends interrupts by itself, and the next initialisation word it expects. *)
Record pic : Type := mkpic { pic_mask : Z; pic_base : Z; pic_cascade : Z; pic_auto : bool; pic_next : Z }.

(** A write to the command port: with bit 4 set it starts the initialisation,
    which clears the mask; other commands select what is read. *)
Definition pic_cmd (v : Z) (p : pic) : pic :=
  if Z.testbit v 4 then mkpic 0 (pic_base p) (pic_cascade p) false 2 else p.
Definition pic_data (v : Z) (p : pic) : pic :=
  if pic_next p =? 2 then mkpic (pic_mask p) (Z.land v 248) (pic_cascade p) (pic_auto p) 3
  else if pic_next p =? 3 then mkpic (pic_mask p) (pic_base p) v (pic_auto p) 4
  else if pic_next p =? 4 then mkpic (pic_mask p) (pic_base p) (pic_cascade p) (Z.testbit v 1) 0
  else mkpic v (pic_base p) (pic_cascade p) (pic_auto p) 0.

(** lapic.c: the registers of the local APIC that are used. *)
Inductive lapic_reg : Type :=
| LID | VER | TPR | EOI | SVR | ESR | ICRLO | ICRHI | TIMER | PCINT | LINT0 | LINT1 | ERROR | TICR | TDCR.
#[export] Instance lapic_reg_eq_dec : EqDecision lapic_reg.
Proof. solve_decision. Defined.

(** The two 8259As with [irqmask]; the selector and the registers of the I/O
    APIC; the registers of the local APIC; the bytes given to the timer's mode
    port and to its counter. *)
Record devs : Type := mkdevs {
  irqmask : Z; pic1 : pic; pic2 : pic; io_sel : Z; io_regs : Z -> Z; lapic : lapic_reg -> Z; pit_mode : Z; pit_count : list Z
}.
Definition set_pics (m : Z) (p1 p2 : pic) (d : devs) : devs :=
  mkdevs m p1 p2 (io_sel d) (io_regs d) (lapic d) (pit_mode d) (pit_count d).
Definition set_io (r : Z) (x : Z -> Z) (d : devs) : devs :=
  mkdevs (irqmask d) (pic1 d) (pic2 d) r x (lapic d) (pit_mode d) (pit_count d).
Definition set_lapic (x : lapic_reg -> Z) (d : devs) : devs :=
  mkdevs (irqmask d) (pic1 d) (pic2 d) (io_sel d) (io_regs d) x (pit_mode d) (pit_count d).
Definition set_pit (m : Z) (l : list Z) (d : devs) : devs :=
  mkdevs (irqmask d) (pic1 d) (pic2 d) (io_sel d) (io_regs d) (lapic d) m l.

(** The ports, and x86.h [outb] to them; the value is a byte. *)
Inductive port : Type := IO_PIC1 | IO_PIC1_1 | IO_PIC2 | IO_PIC2_1 | TIMER_MODE | IO_TIMER1.
Definition dev_outb (p : port) (v : Z) : M devs unit := modify (fun d =>
  let v := u8 v in
  match p with
  | IO_PIC1 => set_pics (irqmask d) (pic_cmd v (pic1 d)) (pic2 d) d
  | IO_PIC1_1 => set_pics (irqmask d) (pic_data v (pic1 d)) (pic2 d) d
  | IO_PIC2 => set_pics (irqmask d) (pic1 d) (pic_cmd v (pic2 d)) d
  | IO_PIC2_1 => set_pics (irqmask d) (pic1 d) (pic_data v (pic2 d)) d
  | TIMER_MODE => set_pit v [] d
  | IO_TIMER1 => set_pit (pit_mode d) (pit_count d ++ [v]) d
  end).

(** ** picirq.c *)

Definition IRQ_SLAVE : Z := 2.
Definition picsetmask (mask : Z) : M devs unit :=
  let mask := u16 mask in
  modify (fun d => set_pics mask (pic1 d) (pic2 d) d) ;;
  dev_outb IO_PIC1_1 mask ;;
  dev_outb IO_PIC2_1 (Z.shiftr mask 8).
Definition picenable (irq : Z) : M devs unit :=
  m <- gets irqmask ;;
  picsetmask (Z.land m (Z.lnot (Z.shiftl 1 irq))).
Definition picinit : M devs unit :=
  dev_outb IO_PIC1_1 255 ;;
  dev_outb IO_PIC2_1 255 ;;
  dev_outb IO_PIC1 17 ;;
  dev_outb IO_PIC1_1 T_IRQ0 ;;
  dev_outb IO_PIC1_1 (Z.shiftl 1 IRQ_SLAVE) ;;
  dev_outb IO_PIC1_1 3 ;;
  dev_outb IO_PIC2 17 ;;
  dev_outb IO_PIC2_1 (T_IRQ0 + 8) ;;
  dev_outb IO_PIC2_1 IRQ_SLAVE ;;
  dev_outb IO_PIC2_1 3 ;;
  dev_outb IO_PIC1 104 ;;
  dev_outb IO_PIC1 10 ;;
  dev_outb IO_PIC2 104 ;;
  dev_outb IO_PIC2 10 ;;
  m <- gets irqmask ;;
  when (negb (m =? 65535)) (picsetmask m).

(** ** ioapic.c *)

(** The registers: the identifier is 0, the version 1. *)
Definition REG_TABLE : Z := 16.
Definition INT_DISABLED : Z := 65536.
Definition ioapicread (reg : Z) : M devs Z :=
  modify (fun d => set_io reg (io_regs d) d) ;;
  gets (fun d => io_regs d reg).
Definition ioapicwrite (reg data : Z) : M devs unit :=
  modify (fun d => set_io reg (io_regs d) d) ;;
  modify (fun d => set_io reg (fun r => if r =? reg then u32 data else io_regs d r) d).

(** The message about the identifier goes to the console and is left out. *)
Definition ioapicinit (mp : mpst) : M devs unit :=
  if negb (ismp mp) then ret tt
  else
    v <- ioapicread 1 ;;
    let maxintr := Z.land (Z.shiftr v 16) 255 in
    _ <- ioapicread 0 ;;
    for_each (seq 0 (Z.to_nat (maxintr + 1))) (fun i =>
      ioapicwrite (REG_TABLE + 2 * Z.of_nat i) (Z.lor INT_DISABLED (T_IRQ0 + Z.of_nat i)) ;;
      ioapicwrite (REG_TABLE + 2 * Z.of_nat i + 1) 0).
Definition ioapicenable (mp : mpst) (irq cpunum : Z) : M devs unit :=
  if negb (ismp mp) then ret tt
  else
    ioapicwrite (REG_TABLE + 2 * irq) (T_IRQ0 + irq) ;;
    ioapicwrite (REG_TABLE + 2 * irq + 1) (Z.shiftl cpunum 24).

(** ** timer.c *)

(** [TIMER_DIV], with [TIMER_FREQ] 1193182 *)
Definition TIMER_DIV (x : Z) : Z := (1193182 + x / 2) / x.
Definition timerinit : M devs unit :=
  dev_outb TIMER_MODE (Z.lor (Z.lor 0 4) 48) ;;
  dev_outb IO_TIMER1 (TIMER_DIV 100 mod 256) ;;
  dev_outb IO_TIMER1 (TIMER_DIV 100 / 256) ;;
  picenable IRQ_TIMER.

(** ** lapic.c *)

Definition IRQ_ERROR : Z := 19.
Definition lapicw (index : lapic_reg) (value : Z) : M devs unit :=
  modify (fun d => set_lapic (fun r => if decide (r = index) then u32 value else lapic d r) d).
(** The bits written are ENABLE (256), PERIODIC (131072), MASKED (65536), X1
    (11) and BCAST, INIT, LEVEL (558336); the error's line is 19.
    The wait for the delivery of the INIT ends when the APIC reports it; a
    register reads as it was written, with the delivery bit clear. *)
Definition lapicinit (mp : mpst) : M devs unit :=
  if lapicaddr mp =? 0 then ret tt
  else
    lapicw SVR (Z.lor 256 (T_IRQ0 + IRQ_SPURIOUS)) ;;
    lapicw TDCR 11 ;;
    lapicw TIMER (Z.lor 131072 (T_IRQ0 + IRQ_TIMER)) ;;
    lapicw TICR 10000000 ;;
    lapicw LINT0 65536 ;;
    lapicw LINT1 65536 ;;
    v <- gets (fun d => lapic d VER) ;;
    when (4 <=? Z.land (Z.shiftr v 16) 255) (lapicw PCINT 65536) ;;
    lapicw ERROR (T_IRQ0 + IRQ_ERROR) ;;
    lapicw ESR 0 ;;
    lapicw ESR 0 ;;
    lapicw EOI 0 ;;
    lapicw ICRHI 0 ;;
    lapicw ICRLO 558336 ;;
    lapicw TPR 0.
Definition cpunum (mp : mpst) : M devs Z :=
  if lapicaddr mp =? 0 then ret 0 else gets (fun d => Z.shiftr (lapic d LID) 24).
Definition lapiceoi (mp : mpst) : M devs unit := when (negb (lapicaddr mp =? 0)) (lapicw EOI 0).

(** ** uart.c *)

(** [uartgetc]: the next of the bytes received, -1 when there is none. *)
Definition uartgetc (present : bool) (rx : list Z) : Z * list Z :=
  if negb present then (-1, rx) else match rx with [] => (-1, rx) | c :: rx' => (c, rx') end.
Fixpoint uart_chars (present : bool) (rx : list Z) : list Z :=
  match rx with
  | [] => []
  | _ :: rx' => let (c, _) := uartgetc present rx in if c <? 0 then [] else c :: uart_chars present rx'
  end.
Definition uartintr (rx : list Z) : M kx unit :=
  u <- gets (fun s => uart (con s)) ;;
  consoleintr (uart_chars u rx).

(** The console and the controllers together. *)
Abbreviation cdevs := (console * devs)%type.
Definition on_con {A} (m : M console A) : M cdevs A := zoom fst (fun c s => (c, snd s)) m.
Definition on_devs {A} (m : M devs A) : M cdevs A := zoom snd (fun d s => (fst s, d)) m.

(** [uartinit]; [status] is what the line status register reads.  The settings
    of the line have no effect here. *)
Definition set_uart (x : bool) (c : console) : console :=
  mkconsole (cons_lock c) (locking c) (panicked c) (crt c) (cursor c) x (uart_out c) (inp c).
Definition uartinit (mp : mpst) (status : Z) : M cdevs unit :=
  if status =? 255 then ret tt
  else
    on_con (modify (set_uart true)) ;;
    on_devs (picenable IRQ_COM1 ;; ioapicenable mp IRQ_COM1 0) ;;
    on_con (for_each (bytes "xv6..." ++ [10]) uartputc).

(** ** main.c *)

(** The last two lines of console.c [consoleinit], and the two of ide.c
    [ideinit] that enable its interrupt. *)
Definition consoleinit_irq (mp : mpst) : M devs unit := picenable IRQ_KBD ;; ioapicenable mp IRQ_KBD 0.
Definition ideinit_irq (mp : mpst) : M devs unit := picenable IRQ_IDE ;; ioapicenable mp IRQ_IDE (ncpu mp - 1).

(** The calls of [main] that set up interrupts, in its order: the local APIC,
    then the controllers, the console and the serial port, and then the disk
    and the timer of a machine with one processor.  The calls between them
    ([seginit], and [pinit] to [iinit]) do not touch the controllers. *)
Definition main_controllers (mp : mpst) (status : Z) : M cdevs unit :=
  on_devs (picinit ;; ioapicinit mp) ;;
  on_devs (consoleinit_irq mp) ;;
  uartinit mp status.
Definition main_disk (mp : mpst) : M cdevs unit :=
  on_devs (ideinit_irq mp) ;;
  when (negb (ismp mp)) (on_devs timerinit).
Definition main_devs (mp : mpst) (status : Z) : M cdevs unit :=
  on_devs (lapicinit mp) ;;
  main_controllers mp status ;;
  main_disk mp.

(** [irqmask] before [main]: all but the slave's line. *)
Definition irqmask0 : Z := Z.land 65535 (Z.lnot (Z.shiftl 1 IRQ_SLAVE)).

(** ** Which interrupts arrive *)

(** Line [i] of the 8259As is open, and the vector it raises. *)
Definition pic_open (d : devs) (i : Z) : bool :=
  if i <? 8 then negb (Z.testbit (pic_mask (pic1 d)) i)
  else negb (Z.testbit (pic_mask (pic2 d)) (i - 8)) && negb (Z.testbit (pic_mask (pic1 d)) IRQ_SLAVE).
Definition pic_vector (d : devs) (i : Z) : Z := if i <? 8 then pic_base (pic1 d) + i else pic_base (pic2 d) + (i - 8).

(** The initialised 8259As with the mask [m]. *)
Record pics_at (m : Z) (d : devs) : Prop := {
  pa_range : 0 <= m < 2 ^ 16;
  pa_mask : irqmask d = m;
  pa_pic1 : pic1 d = mkpic (u8 m) 32 4 true 0;
  pa_pic2 : pic2 d = mkpic (u8 (Z.shiftr m 8)) 40 2 true 0
}.

Lemma picinit_ok d : irqmask d = irqmask0 -> exists p1 p2, picinit d = Ret tt (set_pics irqmask0 p1 p2 d) /\ pics_at irqmask0 (set_pics irqmask0 p1 p2 d).
Proof.
  intros Hm. destruct d as [m [m1 b1 c1 a1 n1] [m2 b2 c2 a2 n2] sel io la pm pc]. cbn in Hm. subst m.
  exists (mkpic (u8 irqmask0) 32 4 true 0), (mkpic (u8 (Z.shiftr irqmask0 8)) 40 2 true 0). split; [|by split].
  vm_compute. reflexivity.
Qed.

Lemma picenable_ok m m' irq d : pics_at m d -> m' = Z.land m (Z.lnot (Z.shiftl 1 irq)) -> 0 <= m' < 2 ^ 16 ->
  exists p1 p2, picenable irq d = Ret tt (set_pics m' p1 p2 d) /\ pics_at m' (set_pics m' p1 p2 d).
Proof.
  intros [_ Hm H1 H2] -> Hr. set (m' := Z.land m _) in *. assert (u16 m' = m') as Hu by (apply Z.mod_small; lia).
  exists (mkpic (u8 m') 32 4 true 0), (mkpic (u8 (Z.shiftr m' 8)) 40 2 true 0). split; [|by split].
  unfold picenable, bind at 1, gets. rewrite Hm. fold m'. unfold picsetmask. rewrite Hu. clearbody m'.
  unfold dev_outb, bind, modify. cbn. rewrite H1, H2. done.
Qed.

(** What [ioapicinit] leaves in the redirection table. *)
Definition io_max (d : devs) : Z := Z.land (Z.shiftr (io_regs d 1) 16) 255.
Definition io_entry (d : devs) (i : Z) : Z * Z := (io_regs d (REG_TABLE + 2 * i), io_regs d (REG_TABLE + 2 * i + 1)).

Lemma ioapicwrite_eq reg data d :
  ioapicwrite reg data d = Ret tt (set_io reg (fun r => if r =? reg then u32 data else io_regs d r) d).
Proof. done. Qed.

Lemma disabled_u32 i : 0 <= i < 256 -> u32 (Z.lor INT_DISABLED (T_IRQ0 + i)) = Z.lor INT_DISABLED (T_IRQ0 + i).
Proof.
  intros Hi. assert (forallb (fun n => u32 (Z.lor INT_DISABLED (T_IRQ0 + Z.of_nat n)) =? Z.lor INT_DISABLED (T_IRQ0 + Z.of_nat n)) (seq 0 256) = true) as Hb by (by vm_compute).
  rewrite forallb_forall in Hb. specialize (Hb (Z.to_nat i)). rewrite in_seq, Z2Nat.id in Hb by lia. apply Z.eqb_eq, Hb. lia.
Qed.
Lemma io_max_range d : 0 <= io_max d < 256.
Proof. unfold io_max. change 255 with (Z.ones 8). rewrite Z.land_ones by lia. apply Z.mod_pos_bound. lia. Qed.

Lemma ioapicinit_ok mp d : ismp mp = true ->
  wp (ioapicinit mp) d (fun _ d' => exists sel io, d' = set_io sel io d /\
    forall i, 0 <= i <= io_max d -> io_entry d' i = (Z.lor INT_DISABLED (T_IRQ0 + i), 0)).
Proof.
  intros Hmp. unfold ioapicinit. rewrite Hmp. cbn [negb]. unfold ioapicread.
  do 2 (apply wp_bind, wp_bind, wp_modify, wp_gets). cbn [io_regs set_io]. fold (io_max d).
  set (n := Z.to_nat (io_max d + 1)).
  eapply wp_conseq; [apply (wp_for_seq (fun j d' => exists sel io, d' = set_io sel io d /\
    forall i, 0 <= i < Z.of_nat j -> io_entry d' i = (Z.lor INT_DISABLED (T_IRQ0 + i), 0)))|].
  - eexists _, _. split; [reflexivity|]. intros; lia.
  - intros j d0 Hj (sel & io & -> & Hio). eapply wp_bind_eq; [apply ioapicwrite_eq|]. eapply wp_of_eq; [apply ioapicwrite_eq|].
    eexists _, _. split; [reflexivity|]. intros i Hi. unfold io_entry in *. cbn [io_regs set_io] in *. specialize (Hio i).
    pose proof (io_max_range d). rewrite (proj2 (Z.eqb_neq (REG_TABLE + 2 * i) (REG_TABLE + 2 * Z.of_nat j + 1))) by lia.
    rewrite (proj2 (Z.eqb_neq (REG_TABLE + 2 * i + 1) (REG_TABLE + 2 * Z.of_nat j))) by lia.
    destruct (Z.eqb_spec (REG_TABLE + 2 * i) (REG_TABLE + 2 * Z.of_nat j)) as [E|E].
    + assert (i = Z.of_nat j) as -> by lia. rewrite Z.eqb_refl. f_equal. apply disabled_u32. lia.
    + rewrite (proj2 (Z.eqb_neq _ (REG_TABLE + 2 * Z.of_nat j + 1))) by lia. apply Hio. lia.
  - intros [] d' (sel & io & -> & Hio). exists sel, io. split; [done|]. intros i Hi. apply Hio. pose proof (io_max_range d). lia.
Qed.

(** ** The theorem *)

(** The lines that [main] opens, apart from the timer. *)
Definition dev_irq (status i : Z) : bool := (i =? IRQ_KBD) || (i =? IRQ_IDE) || ((i =? IRQ_COM1) && negb (status =? 255)).

(** The state of the controllers in the middle of [main]: the mask, and the
    redirection table as [T] has it. *)
Record setup (m : Z) (d0 d : devs) (T : Z -> Z * Z) : Prop := {
  su_pics : pics_at m d;
  su_io i : 0 <= i <= io_max d0 -> io_entry d i = T i
}.

Lemma enable_ok mp m m' irq cpunum d0 d T : setup m d0 d T -> m' = Z.land m (Z.lnot (Z.shiftl 1 irq)) -> 0 <= m' < 2 ^ 16 ->
  0 <= irq < 256 -> (ismp mp = true -> 0 <= cpunum < 256) ->
  wp (picenable irq ;; ioapicenable mp irq cpunum) d (fun _ d' => lapic d' = lapic d /\
    setup m' d0 d' (fun i => if ismp mp && (i =? irq) then (T_IRQ0 + irq, Z.shiftl cpunum 24) else T i)).
Proof.
  intros [Hp Hio] Hm Hr Hirq Hc. destruct (picenable_ok m m' irq d Hp Hm Hr) as (p1 & p2 & E & Hp').
  eapply wp_bind_eq; [exact E|]. unfold ioapicenable. destruct (ismp mp); cbn [negb andb]; [|apply wp_ret; split; [done|by split]].
  specialize (Hc eq_refl). eapply wp_bind_eq; [apply ioapicwrite_eq|]. eapply wp_of_eq; [apply ioapicwrite_eq|]. split; [done|]. split.
  - destruct Hp' as [H1 H2 H3 H4]. by split.
  - intros i Hi. specialize (Hio i Hi). unfold io_entry in *. cbn [io_regs set_io set_pics] in *.
    rewrite (proj2 (Z.eqb_neq (REG_TABLE + 2 * i) (REG_TABLE + 2 * irq + 1))) by lia.
    rewrite (proj2 (Z.eqb_neq (REG_TABLE + 2 * i + 1) (REG_TABLE + 2 * irq))) by lia. destruct (Z.eqb_spec i irq) as [->|Hne].
    + rewrite !Z.eqb_refl. f_equal; [apply u32_small; unfold T_IRQ0; lia|]. apply u32_small. rewrite Z.shiftl_mul_pow2 by lia. lia.
    + rewrite (proj2 (Z.eqb_neq (REG_TABLE + 2 * i) _)), (proj2 (Z.eqb_neq (REG_TABLE + 2 * i + 1) _)) by lia. done.
Qed.

(** The local APIC after [lapicinit]. *)
Definition lapic_set (l : lapic_reg -> Z) : Prop :=
  l SVR = 256 + (T_IRQ0 + IRQ_SPURIOUS) /\ l TIMER = 131072 + (T_IRQ0 + IRQ_TIMER) /\ l TICR = 10000000 /\
  l LINT0 = 65536 /\ l LINT1 = 65536 /\ l ERROR = T_IRQ0 + 19 /\ l TPR = 0.

Definition lupd (i : lapic_reg) (v : Z) (l : lapic_reg -> Z) : lapic_reg -> Z := fun r => if decide (r = i) then u32 v else l r.
Lemma lupd_same i v l : lupd i v l i = u32 v.
Proof. unfold lupd. by rewrite decide_True. Qed.
Lemma lupd_ne i v l r : r <> i -> lupd i v l r = l r.
Proof. intros Hne. unfold lupd. by rewrite decide_False. Qed.

Lemma wp_lapicw {A} i v l (k : M devs A) d Q : wp k (set_lapic (lupd i v l) d) Q -> wp (lapicw i v ;; k) (set_lapic l d) Q.
Proof. intros Hk. by apply wp_bind, wp_modify. Qed.

Lemma lapicinit_ok mp d : wp (lapicinit mp) d (fun _ d' => exists l, d' = set_lapic l d /\ (lapicaddr mp <> 0 -> lapic_set l)).
Proof.
  unfold lapicinit. destruct (Z.eqb_spec (lapicaddr mp) 0) as [|Hne]; [apply wp_ret; exists (lapic d); by destruct d|].
  replace d with (set_lapic (lapic d) d) at 1 by (by destruct d). do 6 apply wp_lapicw. set (l6 := lupd LINT1 _ _). apply wp_bind, wp_gets.
  apply wp_seq with (fun _ d' => exists l, d' = set_lapic l d /\ forall r, r <> PCINT -> l r = l6 r).
  - destruct (4 <=? _); cbn [when]; [apply wp_modify|apply wp_ret]; [exists (lupd PCINT 65536 l6)|exists l6]; (split; [done|]); intros r Hr; [by apply lupd_ne|done].
  - intros [] d' (l & -> & Hl). do 6 apply wp_lapicw. apply wp_modify. eexists. split; [reflexivity|]. intros _.
    change (fun r => if decide (r = TPR) then u32 0 else _) with (lupd TPR 0 (lapic (set_lapic (lupd ICRLO 558336 (lupd ICRHI 0 (lupd EOI 0 (lupd ESR 0 (lupd ESR 0 (lupd ERROR (T_IRQ0 + 19) l)))))) d))).
    cbn [lapic set_lapic]. unfold lapic_set. split_and!; rewrite ?lupd_same, ?lupd_ne by done; try done.
    all: rewrite ?lupd_ne, Hl by done; unfold l6; rewrite ?lupd_ne by done; by rewrite lupd_same.
Qed.

Definition table0 (mp : mpst) (d : devs) (i : Z) : Z * Z :=
  if ismp mp then (Z.lor INT_DISABLED (T_IRQ0 + i), 0) else io_entry d i.

Lemma init_ok mp d : irqmask d = irqmask0 ->
  wp (picinit ;; ioapicinit mp) d (fun _ d' => lapic d' = lapic d /\ setup irqmask0 d d' (table0 mp d)).
Proof.
  intros Hm. destruct (picinit_ok d Hm) as (p1 & p2 & E & Hp). eapply wp_bind_eq; [exact E|]. unfold table0. destruct (ismp mp) eqn:Emp.
  - eapply wp_conseq; [by apply ioapicinit_ok|]. intros [] d' (sel & io & -> & Hio). split; [done|].
    split; [by destruct Hp as [H1 H2 H3 H4]|]. apply Hio.
  - unfold ioapicinit. rewrite Emp. apply wp_ret. split; [done|]. by split.
Qed.

Lemma wp_devs {A} (m : M devs A) c d (Q : A -> cdevs -> Prop) : wp m d (fun a d' => Q a (c, d')) -> wp (on_devs m) (c, d) Q.
Proof. intros Hm. by apply (wp_zoom snd). Qed.
Lemma wp_con {A} (m : M console A) c d (Q : A -> cdevs -> Prop) : wp m c (fun a c' => Q a (c', d)) -> wp (on_con m) (c, d) Q.
Proof. intros Hm. by apply (wp_zoom fst). Qed.

Lemma puts_ok cs : forall c, uart c = true -> wp (for_each cs uartputc) c (fun _ c' => uart c' = true).
Proof.
  induction cs as [|x cs IH]; intros c Hc; cbn [for_each]; [by apply wp_ret|].
  apply wp_bind, wp_modify. rewrite Hc. by apply IH.
Qed.

(** What [main] opens at the 8259As and in the redirection table. *)
Definition pic_lines (mp : mpst) (status i : Z) : bool :=
  dev_irq status i || (i =? IRQ_SLAVE) || ((i =? IRQ_TIMER) && negb (ismp mp)).
Definition io_line (mp : mpst) (status i : Z) : Z * Z :=
  if dev_irq status i then (T_IRQ0 + i, Z.shiftl (if i =? IRQ_IDE then ncpu mp - 1 else 0) 24)
  else (Z.lor INT_DISABLED (T_IRQ0 + i), 0).

Definition mask_of (mp : mpst) (status : Z) : Z :=
  let m := Z.land irqmask0 (Z.lnot (Z.shiftl 1 IRQ_KBD)) in
  let m := if status =? 255 then m else Z.land m (Z.lnot (Z.shiftl 1 IRQ_COM1)) in
  let m := Z.land m (Z.lnot (Z.shiftl 1 IRQ_IDE)) in
  if ismp mp then m else Z.land m (Z.lnot (Z.shiftl 1 IRQ_TIMER)).

Lemma pics_open mp status d i : pics_at (mask_of mp status) d -> 0 <= i < 16 ->
  pic_vector d i = T_IRQ0 + i /\ pic_open d i = pic_lines mp status i.
Proof.
  intros [_ _ H1 H2] Hi. unfold pic_vector, pic_open, pic_lines, dev_irq. rewrite H1, H2. cbn [pic_base pic_mask].
  split; [destruct (i <? 8); unfold T_IRQ0; lia|].
  assert (i ∈ Z.of_nat <$> seq 0 16) as Hin by (apply list_elem_of_fmap; exists (Z.to_nat i); split; [lia|apply elem_of_seq; lia]).
  unfold mask_of. clear Hi H1 H2. revert i Hin. apply Forall_forall.
  destruct (status =? 255), (ismp mp); vm_compute; repeat constructor.
Qed.

Lemma uartinit_ok mp status m d0 c d T : setup m d0 d T -> m = Z.land irqmask0 (Z.lnot (Z.shiftl 1 IRQ_KBD)) ->
  wp (uartinit mp status) (c, d) (fun _ s' => (status <> 255 -> uart s'.1 = true) /\ lapic s'.2 = lapic d /\
    setup (if status =? 255 then m else Z.land m (Z.lnot (Z.shiftl 1 IRQ_COM1))) d0 s'.2
      (fun i => if ismp mp && ((i =? IRQ_COM1) && negb (status =? 255)) then (T_IRQ0 + IRQ_COM1, 0) else T i)).
Proof.
  intros Hs ->. unfold uartinit. destruct (Z.eqb_spec status 255) as [->|Hne].
  - apply wp_ret. split; [done|]. split; [done|]. destruct Hs as [H1 H2]. split; [done|]. intros i Hi. rewrite andb_false_r, andb_false_r. by apply H2.
  - apply wp_bind, wp_con, wp_modify. apply wp_bind, wp_devs. eapply wp_conseq; [eapply (enable_ok mp _ _ IRQ_COM1 0 d0 d T Hs eq_refl); by vm_compute|].
    intros [] d1 [Hl H1]. apply wp_con. eapply wp_conseq; [by apply puts_ok|]. intros [] c2 Hc. cbn [fst snd]. split; [done|]. split; [done|].
    destruct H1 as [H1 H2]. split; [done|]. intros i Hi. rewrite andb_true_r. by apply H2.
Qed.

Lemma timerinit_ok m d : pics_at m d -> 0 <= Z.land m (Z.lnot (Z.shiftl 1 IRQ_TIMER)) < 2 ^ 16 ->
  wp timerinit d (fun _ d' => pics_at (Z.land m (Z.lnot (Z.shiftl 1 IRQ_TIMER))) d' /\ lapic d' = lapic d /\ io_regs d' = io_regs d /\
    exists lo hi, pit_count d' = [lo; hi] /\ lo + 256 * hi = TIMER_DIV 100).
Proof.
  intros [H1 H2 H3 H4] Hr. unfold timerinit. do 3 apply wp_bind, wp_modify.
  match goal with |- wp (picenable IRQ_TIMER) ?x _ => set (d3 := x) end. assert (pics_at m d3) as Hp by (by split).
  destruct (picenable_ok m _ IRQ_TIMER d3 Hp eq_refl Hr) as (p1 & p2 & E & Hp'). eapply wp_of_eq; [exact E|].
  split; [exact Hp'|]. split; [done|]. split; [done|]. eexists _, _. split; reflexivity.
Qed.

(** The redirection table after [main_controllers]. *)
Definition table1 (mp : mpst) (status : Z) (d : devs) (i : Z) : Z * Z :=
  if ismp mp && ((i =? IRQ_COM1) && negb (status =? 255)) then (T_IRQ0 + IRQ_COM1, 0)
  else if ismp mp && (i =? IRQ_KBD) then (T_IRQ0 + IRQ_KBD, Z.shiftl 0 24) else table0 mp d i.

Lemma controllers_ok mp status c d : irqmask d = irqmask0 ->
  wp (main_controllers mp status) (c, d) (fun _ s => (status <> 255 -> uart s.1 = true) /\ lapic s.2 = lapic d /\
    let m := Z.land irqmask0 (Z.lnot (Z.shiftl 1 IRQ_KBD)) in
    setup (if status =? 255 then m else Z.land m (Z.lnot (Z.shiftl 1 IRQ_COM1))) d s.2 (table1 mp status d)).
Proof.
  intros Hm. apply wp_bind, wp_devs. eapply wp_conseq; [apply (init_ok mp d Hm)|]. intros [] d2 [L2 S2].
  apply wp_bind, wp_devs. eapply wp_conseq; [eapply (enable_ok mp _ _ IRQ_KBD 0 _ d2 _ S2 eq_refl); by vm_compute|]. intros [] d3 [L3 S3].
  eapply wp_conseq; [apply (uartinit_ok mp status _ _ c d3 _ S3 eq_refl)|]. intros [] [c4 d4] (U4 & L4 & S4). cbn [fst snd] in *.
  split_and!; [done|congruence|exact S4].
Qed.

Lemma main_devs_ok mp status c d : irqmask d = irqmask0 -> (ismp mp = true -> 1 <= ncpu mp <= Z.of_nat NCPU) ->
  wp (main_devs mp status) (c, d) (fun _ s => (status <> 255 -> uart s.1 = true) /\ pics_at (mask_of mp status) s.2 /\
    (ismp mp = true -> forall i, 0 <= i <= io_max d -> io_entry s.2 i = io_line mp status i) /\ (lapicaddr mp <> 0 -> lapic_set (lapic s.2))).
Proof.
  intros Hm Hn. apply wp_bind, wp_devs. eapply wp_conseq; [apply lapicinit_ok|]. intros [] d1 (l & -> & Hl).
  eapply wp_seq; [apply (controllers_ok mp status c (set_lapic l d) Hm)|]. intros [] [c4 d4] (U4 & L4 & S4). cbn [fst snd lapic set_lapic] in *.
  apply wp_bind, wp_devs. eapply wp_conseq; [eapply (enable_ok mp _ _ IRQ_IDE (ncpu mp - 1) _ d4 _ S4 eq_refl)|].
  { destruct (status =? 255); by vm_compute. } { by vm_compute. } { intros H. specialize (Hn H). change (Z.of_nat NCPU) with 8 in Hn. lia. }
  intros [] d5 [L5 S5]. rewrite L4 in L5. destruct (ismp mp) eqn:Emp; cbn [negb when].
  - apply wp_ret. cbn [fst snd]. rewrite L5. split_and!; [done| |intros _|done].
    + unfold mask_of. rewrite Emp. apply (su_pics _ _ _ _ S5).
    + intros i Hi. rewrite (su_io _ _ _ _ S5) by done. unfold table1, table0, io_line, dev_irq. rewrite Emp. cbn [andb].
      destruct (Z.eqb_spec i IRQ_IDE) as [->|N1]; [done|]. destruct (Z.eqb_spec i IRQ_KBD) as [->|N2]; [done|]. cbn [orb].
      destruct (Z.eqb_spec i IRQ_COM1) as [->|N3]; [|done]. by destruct (status =? 255).
  - apply wp_devs. eapply wp_conseq; [apply (timerinit_ok _ _ (su_pics _ _ _ _ S5)); destruct (status =? 255); by vm_compute|].
    intros [] d6 (P6 & L6 & _ & _). cbn [fst snd]. rewrite L6, L5. split_and!; [done| |done|done]. unfold mask_of. rewrite Emp. exact P6.
Qed.

(** The lines whose interrupts trap.c has a case for. *)
Lemma trap_cases (intr : Z -> M (fsst kx) unit) (cpu cs i : Z) : i = IRQ_TIMER \/ i = IRQ_KBD \/ i = IRQ_COM1 \/ i = IRQ_IDE ->
  trap_irq intr cpu (T_IRQ0 + i) cs = if i =? IRQ_TIMER then when (cpu =? 0) (liftk tick) else intr (T_IRQ0 + i).
Proof. by intros [->|[->|[->| ->]]]. Qed.

Lemma pic_lines_cases mp status i : pic_lines mp status i = true -> i <> IRQ_SLAVE ->
  i = IRQ_TIMER \/ i = IRQ_KBD \/ i = IRQ_COM1 \/ i = IRQ_IDE.
Proof.
  unfold pic_lines, dev_irq. intros H Hs. destruct (Z.eqb_spec i IRQ_KBD), (Z.eqb_spec i IRQ_IDE), (Z.eqb_spec i IRQ_COM1), (Z.eqb_spec i IRQ_TIMER), (Z.eqb_spec i IRQ_SLAVE); subst; auto; done.
Qed.

(** The interrupt that the local APIC raises on an error of its own has no case
    in trap.c: if it comes while the kernel runs, the kernel panics. *)
Lemma lapic_error_panics (intr : Z -> M (fsst kx) unit) (cpu cs : Z) s :
  Z.land cs 3 = 0 -> trap_irq intr cpu (T_IRQ0 + IRQ_ERROR) cs s = Panic "trap" s.
Proof.
  intros Hc. change (trap_irq intr cpu (T_IRQ0 + IRQ_ERROR) cs s) with
    (match cur (ext s) with None => panic "trap" | Some i => if Z.land cs 3 =? 0 then panic "trap" else liftk (upd_proc i (set_p_killed 1)) end (put_ext (ext s) s)).
  rewrite Hc. destruct s as [fl0 ic0 x]. cbn [ext]. by destruct (cur x).
Qed.


