(* ===== verification/Clock.v ===== *)
(** The real-time clock: lapic.c [cmostime] and date.h.

    The clock goes on while its registers are read one at a time; [regs n] is
    what they hold at the [n]th read.  [cmostime] reads the time twice and
    compares: what it returns is a time that the clock has had, although
    neither reading is taken at one instant. *)

From S2P Require Import Prelude.

(** date.h [struct rtcdate] *)
Record rtcdate : Type := mkdate { second : Z; minute : Z; hour : Z; day : Z; month : Z; year : Z }.
#[export] Instance rtcdate_eq_dec : EqDecision rtcdate.
Proof. solve_decision. Defined.

Section cmos.
Context (regs : nat -> Z -> Z).

Definition cmos_read (reg : Z) : M nat Z :=
  n <- gets (fun n => n) ;;
  modify S ;;
  ret (regs n reg).

Definition fill_rtcdate : M nat rtcdate :=
  s <- cmos_read 0 ;;
  m <- cmos_read 2 ;;
  h <- cmos_read 4 ;;
  d <- cmos_read 7 ;;
  mo <- cmos_read 8 ;;
  y <- cmos_read 9 ;;
  ret (mkdate s m h d mo y).

(** The loop of [cmostime]; 10 is status register A, whose bit 7 announces an
    update, and 11 status register B. *)
Fixpoint cmos_loop (fuel : nat) : M nat rtcdate :=
  match fuel with
  | O => fault "cmostime"
  | S f =>
      t1 <- fill_rtcdate ;;
      a <- cmos_read 10 ;;
      if Z.testbit a 7 then cmos_loop f
      else
        t2 <- fill_rtcdate ;;
        if decide (t1 = t2) then ret t1 else cmos_loop f
  end.

Definition conv (x : Z) : Z := u32 (Z.shiftr x 4 * 10 + Z.land x 15).
Definition conv_date (t : rtcdate) : rtcdate :=
  mkdate (conv (second t)) (conv (minute t)) (conv (hour t)) (conv (day t)) (conv (month t)) (conv (year t)).

Definition cmostime (fuel : nat) : M nat rtcdate :=
  sb <- cmos_read 11 ;;
  let bcd := negb (Z.testbit sb 2) in
  t1 <- cmos_loop fuel ;;
  let t1 := if bcd then conv_date t1 else t1 in
  ret (mkdate (second t1) (minute t1) (hour t1) (day t1) (month t1) (u32 (year t1 + 2000))).
End cmos.

(** ** What the clock does *)

Definition bcd_of (x : Z) : Z := 16 * (x / 10) + x mod 10.
Definition enc_date (bcd : bool) (t : rtcdate) : rtcdate :=
  let e x := if bcd then bcd_of x else x in
  mkdate (e (second t)) (e (minute t)) (e (hour t)) (e (day t)) (e (month t)) (e (year t)).
Definition two_digits (t : rtcdate) : Prop :=
  Forall (fun x => 0 <= x < 100) [second t; minute t; hour t; day t; month t; year t].

(** [time n] is the clock's time at the [n]th read: the registers hold it, in
    the format that status register B tells; it changes at most once in the
    thirteen reads of a round; and somewhere there are 26 reads in a row during
    which it stays and no update is announced. *)
Record clock (regs : nat -> Z -> Z) (bcd : bool) (time : nat -> rtcdate) (N : nat) : Prop := {
  ck_format : Z.testbit (regs O 11) 2 = negb bcd;
  ck_digits n : two_digits (time n);
  ck_regs n : mkdate (regs n 0) (regs n 2) (regs n 4) (regs n 7) (regs n 8) (regs n 9) = enc_date bcd (time n);
  ck_slow n : exists k, (forall i, (i < k)%nat -> (i < 13)%nat -> time (n + i)%nat = time n) /\
                        (forall i, (k <= i < 13)%nat -> time (n + i)%nat = time (n + 12)%nat);
  ck_quiet n : (N <= n < N + 26)%nat -> time n = time N /\ Z.testbit (regs n 10) 7 = false
}.

Lemma conv_bcd x : 0 <= x < 100 -> conv (bcd_of x) = x.
Proof.
  intros Hx. unfold conv, bcd_of. pose proof (Z.div_mod x 10). pose proof (Z.mod_pos_bound x 10). pose proof (Z.div_pos x 10).
  pose proof (Z.div_lt_upper_bound x 10 10). rewrite Z.shiftr_div_pow2 by lia. change 15 with (Z.ones 4). rewrite Z.land_ones by lia.
  change (2 ^ 4) with 16. rewrite (Z.add_comm (16 * _)), (Z.mul_comm 16), Z.div_add, Z.mod_add by lia.
  rewrite (Z.div_small (x mod 10)), (Z.mod_small (x mod 10)) by lia. rewrite u32_small by lia. lia.
Qed.

Section clock.
Context (regs : nat -> Z -> Z) (bcd : bool) (time : nat -> rtcdate) (N : nat) (HC : clock regs bcd time N).

(** The reading of the six registers from read [n] on. *)
Definition reading (n : nat) : rtcdate :=
  mkdate (regs n 0) (regs (n + 1) 2) (regs (n + 2) 4) (regs (n + 3) 7) (regs (n + 4) 8) (regs (n + 5) 9).

Lemma fill_eq n : fill_rtcdate regs n = Ret (reading n) (n + 6)%nat.
Proof.
  unfold fill_rtcdate, cmos_read, bind, gets, modify, ret, reading.
  replace (n + 6)%nat with (S (S (S (S (S (S n)))))) by lia. replace (n + 5)%nat with (S (S (S (S (S n))))) by lia.
  replace (n + 4)%nat with (S (S (S (S n)))) by lia. replace (n + 3)%nat with (S (S (S n))) by lia.
  replace (n + 2)%nat with (S (S n)) by lia. replace (n + 1)%nat with (S n) by lia. done.
Qed.

Lemma reading_at n T : (forall i, (i < 6)%nat -> time (n + i)%nat = T) -> reading n = enc_date bcd T.
Proof.
  intros HT. pose proof (ck_regs _ _ _ _ HC) as HR. unfold reading.
  pose proof (HR n) as H0. pose proof (HR (n + 1)%nat) as H1. pose proof (HR (n + 2)%nat) as H2. pose proof (HR (n + 3)%nat) as H3.
  pose proof (HR (n + 4)%nat) as H4. pose proof (HR (n + 5)%nat) as H5.
  rewrite HT in H1, H2, H3, H4, H5 by lia. specialize (HT O ltac:(lia)). rewrite Nat.add_0_r in HT. rewrite HT in H0.
  apply (f_equal second) in H0. apply (f_equal minute) in H1. apply (f_equal hour) in H2. apply (f_equal day) in H3.
  apply (f_equal month) in H4. apply (f_equal year) in H5. cbn [second minute hour day month year] in *.
  rewrite H0, H1, H2, H3, H4, H5. done.
Qed.

(** Two equal readings of a round are the clock's time at its start or end. *)
Lemma agree n : reading n = reading (n + 7) -> reading n = enc_date bcd (time n) \/ reading n = enc_date bcd (time (n + 12)%nat).
Proof.
  intros E. destruct (ck_slow _ _ _ _ HC n) as (k & H1 & H2). destruct (decide (6 <= k)%nat).
  - left. apply reading_at. intros i Hi. apply H1; lia.
  - right. rewrite E. apply reading_at. intros i Hi. rewrite <- Nat.add_assoc. apply H2. lia.
Qed.

Lemma loop_ok fuel : forall n, (N + 12 < fuel + n)%nat -> (n <= N + 12)%nat ->
  exists i n', cmos_loop regs fuel n = Ret (enc_date bcd (time i)) n' /\ (i < n')%nat.
Proof.
  induction fuel as [|fuel IH]; intros n Hf Hn; [lia|]. cbn [cmos_loop].
  unfold bind at 1. rewrite fill_eq. unfold bind at 1, cmos_read at 1, bind at 1, gets at 1, bind at 1, modify at 1, ret at 1.
  replace (S (n + 6)) with (n + 7)%nat by lia. destruct (Z.testbit (regs (n + 6) 10) 7) eqn:Eu.
  { apply IH; [lia|]. destruct (decide (N <= n)%nat); [|lia]. destruct (ck_quiet _ _ _ _ HC (n + 6) ltac:(lia)). congruence. }
  unfold bind at 1. rewrite fill_eq. destruct (decide (reading n = reading (n + 7))) as [E|E].
  - destruct (agree n E) as [->| ->]; eexists _, _; (split; [reflexivity|lia]).
  - apply IH; [lia|]. destruct (decide (N <= n)%nat); [|lia]. destruct E. transitivity (enc_date bcd (time N)); [|symmetry];
      apply reading_at; intros i Hi; apply (ck_quiet _ _ _ _ HC); lia.
Qed.

Lemma conv_enc T : two_digits T -> conv_date (enc_date true T) = T.
Proof.
  intros HT. destruct T as [s m h d mo y]. unfold two_digits, conv_date, enc_date in *. cbn [second minute hour day month year] in *.
  repeat rewrite Forall_cons in HT. destruct HT as (? & ? & ? & ? & ? & ? & _). by rewrite !conv_bcd.
Qed.
End clock.

(** [cmostime] returns, and what it returns is the time that the clock
    had at one of its reads, with the century added, for binary and for BCD
    registers, although the clock may go on between the reads. *)
Theorem cmostime_had regs bcd time N fuel : clock regs bcd time N -> (N + 12 <= fuel)%nat ->
  exists i n', cmostime regs fuel O = Ret (mkdate (second (time i)) (minute (time i)) (hour (time i)) (day (time i)) (month (time i)) (year (time i) + 2000)) n' /\
    (i < n')%nat.
Proof.
  intros HC Hf. destruct (loop_ok regs bcd time N HC fuel 1 ltac:(lia) ltac:(lia)) as (i & n' & Hr & Hi). exists i, n'. split; [|done].
  unfold cmostime, bind at 1, cmos_read at 1, bind at 1, gets at 1, bind at 1, modify at 1, ret at 1. rewrite (ck_format _ _ _ _ HC), negb_involutive.
  unfold bind at 1. rewrite Hr. pose proof (ck_digits _ _ _ _ HC i) as Hd. assert (u32 (year (time i) + 2000) = year (time i) + 2000) as Hy.
  { unfold two_digits in Hd. repeat rewrite Forall_cons in Hd. apply u32_small. lia. }
  destruct bcd; [rewrite conv_enc by done|]; unfold ret; [by rewrite Hy|]. cbn [enc_date second minute hour day month year]. by rewrite Hy.
Qed.

Module ClockW.
(** Half past nine turns 09:30:01 in the middle of the first reading. *)
Definition time (n : nat) : rtcdate := mkdate (if (n <? 4)%nat then 0 else 1) 30 9 16 11 26.
Definition regs (n : nat) (r : Z) : Z :=
  let t := enc_date true (time n) in
  if r =? 0 then second t else if r =? 2 then minute t else if r =? 4 then hour t else if r =? 7 then day t
  else if r =? 8 then month t else if r =? 9 then year t else 0.

Lemma regs_clock : clock regs true time 4.
Proof.
  split.
  - done.
  - intros n. unfold two_digits, time. cbn [second minute hour day month year]. rewrite !Forall_cons. destruct (n <? 4)%nat; split_and!; lia || constructor.
  - intros n. done.
  - intros n. exists (4 - n)%nat. unfold time. split; intros i; intros.
    + destruct (Nat.ltb_spec (n + i) 4), (Nat.ltb_spec n 4); lia || done.
    + destruct (Nat.ltb_spec (n + i) 4), (Nat.ltb_spec (n + 12) 4); lia || done.
  - intros n Hn. unfold time. split; [|done]. destruct (Nat.ltb_spec n 4); [lia|done].
Qed.

Lemma cmostime_had_witness : clock regs true time 4 /\
  exists i n', cmostime regs 20 O = Ret (mkdate (second (time i)) 30 9 16 11 2026) n' /\ (i < n')%nat.
Proof. split; [exact regs_clock|]. exact (cmostime_had regs true time 4 20 regs_clock ltac:(lia)). Defined.
End ClockW.
