(* ===== verification/Progs.v ===== *)
(** What the user programs compute between their system calls: the counts of
    wc.c and the name formatting of ls.c.  The counts of wc do not depend on how
    the input is cut up. *)

From S2P Require Import Prelude Params CString Printf.

Definition text (s : string) : list Z := (fun b => Z.of_N (Byte.to_N b)) <$> String.list_byte_of_string s.

(** ** wc.c *)

Record counts : Type := mkcounts { c_l : Z; c_w : Z; c_c : Z; inword : bool }.

(** The body of the loop over the buffer; the string is [" \r\t\n\v"]. *)
Definition SPACES : list Z := [32; 13; 9; 10; 11].
Definition wc_char (x : counts) (b : Z) : counts :=
  let l := if b =? 10 then s32 (c_l x + 1) else c_l x in
  match Ulib.strchr 6 (at_list SPACES) b 0 with
  | Some (Some _) => mkcounts l (c_w x) (s32 (c_c x + 1)) false
  | _ => if negb (inword x) then mkcounts l (s32 (c_w x + 1)) (s32 (c_c x + 1)) true
         else mkcounts l (c_w x) (s32 (c_c x + 1)) true
  end.

(** ** ls.c *)

(** [for(p=path+strlen(path); p >= path && *p != '/'; p--)]: the offset of
    [p + 1]. *)
Fixpoint after_slash (i : nat) (path : list Z) : nat :=
  if at_list path i =? 47 then S i else match i with O => O | S j => after_slash j path end.
(** [fmtname], on the bytes of a string *)
Definition fmtname (path : list Z) : list Z :=
  let p := drop (after_slash (length path) path) path in
  if (Z.to_nat DIRSIZ <=? length p)%nat then p else p ++ replicate (Z.to_nat DIRSIZ - length p) 32.

(** ** What wc counts *)

Definition space (b : Z) : bool := existsb (fun c => c =? b) SPACES.
Definition newlines (t : list Z) : nat := length (filter (fun b => b = 10) t).
(** A word begins at [i]: there is no space there, and there is one before. *)
Definition word_at (t : list Z) (i : nat) : bool :=
  negb (space (t !!! i)) && match i with O => true | S j => space (t !!! j) end.
Definition words (t : list Z) : nat := sum_list_with (fun i => Nat.b2n (word_at t i)) (seq 0 (length t)).

Lemma strchr_space b : match Ulib.strchr 6 (at_list SPACES) b 0 with Some (Some _) => true | _ => false end = space b.
Proof.
  cbn [Ulib.strchr]. change (at_list SPACES 0) with 32. change (at_list SPACES 1) with 13. change (at_list SPACES 2) with 9.
  change (at_list SPACES 3) with 10. change (at_list SPACES 4) with 11. change (at_list SPACES 5) with 0.
  change (32 =? 0) with false. change (13 =? 0) with false. change (9 =? 0) with false. change (10 =? 0) with false.
  change (11 =? 0) with false. change (0 =? 0) with true. unfold space, SPACES. cbn [existsb].
  by destruct (32 =? b), (13 =? b), (9 =? b), (10 =? b), (11 =? b).
Qed.

(** The counts of a text, up to the width of an [int]. *)
Definition in_word (t : list Z) : bool := match rev t with [] => false | b :: _ => negb (space b) end.
Definition counted (t : list Z) : counts :=
  mkcounts (s32 (Z.of_nat (newlines t))) (s32 (Z.of_nat (words t))) (s32 (Z.of_nat (length t))) (in_word t).

Lemma word_at_app t u i : (i < length t)%nat -> word_at (t ++ u) i = word_at t i.
Proof.
  intros Hi. unfold word_at. rewrite lookup_total_app_l by done. destruct i as [|j]; [done|]. by rewrite lookup_total_app_l by lia.
Qed.

Lemma sum_with_ext {A} (f g : A -> nat) l : (forall x, x ∈ l -> f x = g x) -> sum_list_with f l = sum_list_with g l.
Proof. induction l as [|a l IH]; intros H; [done|]. cbn. rewrite H, IH by set_solver. done. Qed.

Lemma words_snoc t b : words (t ++ [b]) = (words t + Nat.b2n (negb (space b) && negb (in_word t)))%nat.
Proof.
  unfold words. rewrite length_app. cbn [length]. rewrite seq_app, sum_list_with_app. f_equal.
  - apply sum_with_ext. intros i [_ Hi]%elem_of_seq. by rewrite word_at_app.
  - cbn [seq sum_list_with]. rewrite Nat.add_0_r. f_equal. unfold word_at, in_word. rewrite lookup_total_app_r, Nat.sub_diag by lia. cbn [Nat.add]. f_equal.
    destruct t as [|a t _] using rev_ind; [done|]. rewrite rev_app_distr, length_app. cbn [length rev app].
    rewrite Nat.add_1_r. rewrite lookup_total_app_l by (rewrite length_app; cbn; lia). rewrite lookup_total_app_r by lia.
    rewrite Nat.sub_diag. cbn [lookup_total]. by rewrite negb_involutive.
Qed.

Lemma in_word_snoc t b : in_word (t ++ [b]) = negb (space b).
Proof. unfold in_word. by rewrite rev_app_distr. Qed.
Lemma newlines_snoc t b : newlines (t ++ [b]) = (newlines t + if (b =? 10)%Z then 1 else 0)%nat.
Proof.
  unfold newlines. rewrite filter_app, length_app. f_equal. rewrite filter_cons, filter_nil. by destruct (Z.eqb_spec b 10), (decide (b = 10)).
Qed.

Lemma s32_succ n : s32 (s32 (Z.of_nat n) + 1) = s32 (Z.of_nat (n + 1)).
Proof. pose proof (s32_mul_add (Z.of_nat n) 1 1) as H. rewrite !Z.mul_1_r in H. rewrite H. f_equal. lia. Qed.

Lemma wc_char_counted t b : wc_char (counted t) b = counted (t ++ [b]).
Proof.
  unfold wc_char. pose proof (strchr_space b) as Hs. unfold counted. cbn [c_l c_w c_c inword].
  rewrite words_snoc, newlines_snoc, in_word_snoc, length_app, !s32_succ. cbn [length].
  assert ((if b =? 10 then s32 (Z.of_nat (newlines t + 1)) else s32 (Z.of_nat (newlines t))) = s32 (Z.of_nat (newlines t + (if b =? 10 then 1 else 0)))) as ->.
  { destruct (b =? 10); [done|]. by rewrite Nat.add_0_r. }
  destruct (Ulib.strchr _ _ _ _) as [[?|]|]; rewrite <- Hs; cbn [negb andb Nat.b2n]; rewrite ?Nat.add_0_r; [done| |];
    destruct (in_word t); cbn [negb Nat.b2n]; by rewrite ?Nat.add_0_r.
Qed.

Lemma wc_reads reads : forall t, foldl (foldl wc_char) (counted t) reads = counted (t ++ concat reads).
Proof.
  assert (forall l t, foldl wc_char (counted t) l = counted (t ++ l)) as Hl.
  { induction l as [|b l IH]; intros t; cbn [foldl]; [by rewrite app_nil_r|]. rewrite wc_char_counted, IH, <- app_assoc. done. }
  induction reads as [|l reads IH]; intros t; cbn [foldl concat]; [by rewrite app_nil_r|]. by rewrite Hl, IH, app_assoc.
Qed.

Lemma emit_all l : forall out, for_each l emit out = Ret tt (out ++ l).
Proof.
  induction l as [|b l IH]; intros out; cbn [for_each]; [by rewrite app_nil_r|]. unfold bind, emit at 1, modify. by rewrite IH, <- app_assoc.
Qed.

Section format.
Context (cstr : Z -> list Z).
Abbreviation loop := (printf_loop emit cstr).

Lemma format_char c fmt args out : c <> 37 -> loop (c :: fmt) false args out = loop fmt false args (out ++ [c]).
Proof. intros Hc. cbn [printf_loop negb]. by rewrite (proj2 (Z.eqb_neq c 37)). Qed.
Lemma format_d fmt a args out : loop (37 :: 100 :: fmt) false (a :: args) out = loop fmt false args (out ++ decimal (s32 a)).
Proof.
  cbn [printf_loop negb]. change (37 =? 37) with true. change (100 =? 100) with true. cbn [with_arg]. unfold bind.
  by rewrite printint_decimal, emit_all by apply s32_range.
Qed.
Lemma format_s fmt a args out : a <> 0 -> loop (37 :: 115 :: fmt) false (a :: args) out = loop fmt false args (out ++ cstr a).
Proof.
  intros Ha. cbn [printf_loop negb]. change (37 =? 37) with true. change (115 =? 100) with false. change (115 =? 120) with false.
  change (115 =? 112) with false. change (115 =? 115) with true. cbn [with_arg orb]. rewrite (proj2 (Z.eqb_neq a 0)) by done. unfold bind. by rewrite emit_all.
Qed.
End format.

Lemma newlines_le t : (newlines t <= length t)%nat.
Proof. unfold newlines. apply length_filter. Qed.
Lemma words_le t : (words t <= length t)%nat.
Proof.
  unfold words. rewrite <- (length_seq (length t) 0) at 2. generalize (seq 0 (length t)). induction l as [|i l IH]; cbn; [lia|].
  destruct (word_at t i); cbn; lia.
Qed.

(** ** The name that ls prints *)

Lemma after_slash_ok path i (k := after_slash i path) : (i <= length path)%nat ->
  (k <= S i)%nat /\ (k <= length path)%nat /\ (k = O \/ path !! (k - 1)%nat = Some 47) /\ forall j, (k <= j <= i)%nat -> path !! j <> Some 47.
Proof.
  intros Hi. subst k. induction i as [|i IH]; cbn [after_slash]; unfold at_list.
  - destruct (path !! O) as [c|] eqn:E; cbn [default from_option]; unfold id; [destruct (Z.eqb_spec c 47) as [->|Hc]|change (0 =? 47) with false; cbn iota].
    + pose proof (lookup_lt_Some _ _ _ E). split_and!; [lia|lia|by right|]. intros j Hj. lia.
    + split_and!; [lia|lia|by left|]. intros j Hj. assert (j = O) as -> by lia. rewrite E. congruence.
    + split_and!; [lia|lia|by left|]. intros j Hj. assert (j = O) as -> by lia. by rewrite E.
  - destruct (IH ltac:(lia)) as (H1 & H2 & H3 & H4).
    destruct (path !! S i) as [c|] eqn:E; cbn [default from_option]; unfold id; [destruct (Z.eqb_spec c 47) as [->|Hc]|change (0 =? 47) with false; cbn iota].
    + pose proof (lookup_lt_Some _ _ _ E). split_and!; [lia|lia|right|intros j Hj; lia]. by replace (S (S i) - 1)%nat with (S i) by lia.
    + split_and!; [lia|lia|done|]. intros j Hj. destruct (decide (j = S i)) as [->|]; [rewrite E; congruence|apply H4; lia].
    + split_and!; [lia|lia|done|]. intros j Hj. destruct (decide (j = S i)) as [->|]; [by rewrite E|apply H4; lia].
Qed.

(** What ls.c [fmtname] returns: the last component of the path, which has no
    slash, padded with blanks to the length of a directory entry's name. *)
Theorem fmtname_last path : exists pre p,
  path = pre ++ p /\ (pre = [] \/ last pre = Some 47) /\ 47 ∉ p /\
  fmtname path = p ++ replicate (14 - length p) 32 /\ (14 <= length (fmtname path))%nat.
Proof.
  destruct (after_slash_ok path (length path) ltac:(lia)) as (H1 & H2 & H3 & H4). set (k := after_slash _ _) in *.
  exists (take k path), (drop k path). split; [by rewrite take_drop|]. split.
  { destruct H3 as [->|H3]; [by left|]. destruct (decide (k = O)) as [->|Hk]; [by left|]. right. rewrite last_lookup, length_take, Nat.min_l by lia.
    rewrite lookup_take_lt by lia. by replace (pred k) with (k - 1)%nat by lia. }
  split.
  { intros (j & Hj)%list_elem_of_lookup. rewrite lookup_drop in Hj. pose proof (lookup_lt_Some _ _ _ Hj). by apply (H4 (k + j)%nat); [lia|]. }
  unfold fmtname. fold k. change (Z.to_nat DIRSIZ) with 14%nat. destruct (Nat.leb_spec 14 (length (drop k path))) as [Hl|Hl].
  - replace (14 - length (drop k path))%nat with 0%nat by lia. by rewrite app_nil_r.
  - split; [done|]. rewrite length_app, length_replicate. lia.
Qed.
