(* ===== verification/Uprog.v ===== *)
(** User programs: the system calls of user.h, and programs as trees of them.

    A program is an interaction tree: its nodes are system calls, with what the
    program does for every answer, and it may go on for ever.  What a call takes
    from the memory of the process and what it stores there are part of the call
    and of the answer.  Calls on files are kept apart from those on processes,
    so that a handler for the former runs the programs that make no others. *)

From ITree Require Import Core.ITreeDefinition Indexed.Sum.
From S2P Require Import Prelude Params CString Fs Printf.

(** ** System calls *)

Variant fileE : Type -> Type :=
| Open (path : list Z) (mode : Z) : fileE Z
| Close (fd : Z) : fileE Z
| Read (fd n : Z) : fileE (Z * list Z)
| Write (fd : Z) (b : list Z) : fileE Z
| Fstat (fd : Z) : fileE (option stat)
| Link (old new : list Z) : fileE Z
| Unlink (path : list Z) : fileE Z
| Mkdir (path : list Z) : fileE Z
| Mknod (path : list Z) (major minor : Z) : fileE Z
| Chdir (path : list Z) : fileE Z
| Dup (fd : Z) : fileE Z
| Pipe : fileE (option (Z * Z)).

Variant procE : Type -> Type :=
| Fork : procE Z
| Exit : procE Empty_set
| Wait : procE Z
| Kill (pid : Z) : procE Z
| Exec (path : list Z) (argv : list (list Z)) : procE Z
| Getpid : procE Z
| Sbrk (n : Z) : procE Z
| Sleep (n : Z) : procE Z
| Uptime : procE Z
(* reading and writing a byte of the process's memory, which may trap *)
| Load (a : Z) : procE Z
| Store (a b : Z) : procE unit.

Definition sysE : Type -> Type := fileE +' procE.
Abbreviation uprog := (itree sysE).

Declare Scope uprog_scope.
Delimit Scope uprog_scope with uprog.
Notation "x <- m ;; k" := (ITree.bind m (fun x => k)) : uprog_scope.
Notation "m ;; k" := (ITree.bind m (fun _ => k)) : uprog_scope.

(** ** Programming *)

Module U.
Definition file {X} (e : fileE X) : uprog X := ITree.trigger (inl1 e).
Definition proc {X} (e : procE X) : uprog X := ITree.trigger (inr1 e).
Definition done {R} (r : R) : uprog R := ITreeDefinition.Ret r.

(** [exit] does not return. *)
Definition exit {R} : uprog R := ITree.bind (proc Exit) (fun x : Empty_set => match x with end).

Open Scope uprog_scope.

Definition when (b : bool) (p : uprog unit) : uprog unit := if b then p else done tt.
Fixpoint each {X} (l : list X) (body : X -> uprog unit) : uprog unit :=
  match l with
  | [] => done tt
  | x :: l' => body x ;; each l' body
  end.
(** [for(;;)], until the body says to leave the loop. *)
Definition loop {I R} (body : I -> uprog (I + R)) (i : I) : uprog R := ITree.iter body i.

(** An argument of [printf]. *)
Inductive arg : Type := Num (n : Z) | Str (s : list Z).
(** Strings get the addresses 1, 2, and so on. *)
Fixpoint strings (l : list arg) : list (list Z) :=
  match l with [] => [] | Num _ :: l' => strings l' | Str s :: l' => s :: strings l' end.
Fixpoint words (l : list arg) (a : Z) : list Z :=
  match l with [] => [] | Num n :: l' => u32 n :: words l' a | Str _ :: l' => a :: words l' (a + 1) end.
Definition formatted (fmt : list Z) (args : list arg) : list Z :=
  match Printf.printf emit (fun a => strings args !!! Z.to_nat (a - 1)) fmt (words args 1) [] with
  | Ret _ out => out
  | _ => []
  end.
(** printf.c [printf]: one [write] per byte. *)
Definition printf (fd : Z) (fmt : list Z) (args : list arg) : uprog unit :=
  each (formatted fmt args) (fun b => _ <- file (Write fd [b]) ;; done tt).
End U.

(** ** Running a program that only works on files *)

Inductive outcome (R : Type) : Type :=
| Returned (r : R)
| Exited
| Stopped.   (* at a call on processes other than exit *)
Arguments Returned {R} r.
Arguments Exited {R}.
Arguments Stopped {R}.

Section run.
Context {S : Type} (h : forall X, fileE X -> M S X).

Definition step_proc {X R} (e : procE X) : outcome R := match e with Exit => Exited | _ => Stopped end.

Fixpoint run {R} (fuel : nat) (t : uprog R) : M S (outcome R) :=
  match fuel with
  | O => fault "run: fuel"
  | Datatypes.S n =>
      match observe t with
      | RetF r => ret (Returned r)
      | TauF t' => run n t'
      | VisF e k =>
          match e with
          | inl1 f => bind (h _ f) (fun x => run n (k x))
          | inr1 p => ret (step_proc p)
          end
      end
  end.
End run.
