(* ===== verification/Programs.v ===== *)
(** The user programs as trees of system calls: cat.c, echo.c, wc.c, ls.c, ln.c,
    mkdir.c, rm.c, kill.c, init.c, zombie.c, forktest.c, stressfs.c, and [stat]
    of ulib.c.

    [argv] is the argument vector with the program's name first.  A buffer that
    is filled by [read] and handed to [write] is the bytes of the answer. *)

From ITree Require Import Core.ITreeDefinition.
From S2P Require Import Prelude Params CString Fs Dir Printf Uprog Progs.
Import U.
#[local] Open Scope uprog_scope.

Abbreviation msg := text.
(** A message with a newline at its end. *)
Definition line (s : string) : list Z := text s ++ [10].

(** ** cat.c, wc.c, echo.c *)

Definition cat (fd : Z) : uprog unit :=
  loop (fun _ : unit =>
    r <- file (Read fd 512) ;;
    if 0 <? r.1 then file (Write 1 r.2) ;; done (inl tt)
    else if r.1 <? 0 then printf 1 (line "cat: read error") [] ;; exit
    else done (inr tt)) tt.

(** The main function that cat.c and wc.c share: [body] on every file named. *)
Definition each_file (name : string) (body : Z -> list Z -> uprog unit) (argv : list (list Z)) : uprog unit :=
  if (length argv <=? 1)%nat then body 0 [] ;; exit else
  each (tl argv) (fun a =>
    fd <- file (Open a O_RDONLY) ;;
    if fd <? 0 then printf 1 (text name ++ line ": cannot open %s") [Str a] ;; exit
    else body fd a ;; file (Close fd) ;; done tt) ;;
  exit.
Definition cat_main (argv : list (list Z)) : uprog unit := each_file "cat" (fun fd _ => cat fd) argv.

Definition wc (fd : Z) (name : list Z) : uprog unit :=
  x <- loop (fun x : counts =>
    r <- file (Read fd 512) ;;
    if 0 <? r.1 then done (inl (foldl wc_char x r.2))
    else if r.1 <? 0 then printf 1 (line "wc: read error") [] ;; exit
    else done (inr x)) (mkcounts 0 0 0 false) ;;
  printf 1 (line "%d %d %d %s") [Num (c_l x); Num (c_w x); Num (c_c x); Str name].
Definition wc_main (argv : list (list Z)) : uprog unit := each_file "wc" wc argv.

Fixpoint echo_args (args : list (list Z)) : uprog unit :=
  match args with
  | [] => done tt
  | a :: rest => printf 1 (text "%s%s") [Str a; Str (match rest with [] => [10] | _ => [32] end)] ;; echo_args rest
  end.
Definition echo_main (argv : list (list Z)) : uprog unit := echo_args (tl argv) ;; exit.

(** ** ls.c *)

(** ulib.c [stat] *)
Definition stat_path (path : list Z) : uprog (option stat) :=
  fd <- file (Open path O_RDONLY) ;;
  if fd <? 0 then done None else
  st <- file (Fstat fd) ;;
  file (Close fd) ;;
  done st.

Definition ls_line (path : list Z) (st : stat) : uprog unit :=
  printf 1 (line "%s %d %d %d") [Str (fmtname path); Num (st_type st); Num (st_ino st); Num (st_size st)].
(** The string in a buffer. *)
Fixpoint c_string (b : list Z) : list Z :=
  match b with [] => [] | c :: b' => if c =? 0 then [] else c :: c_string b' end.
Definition ls_dir (path : list Z) (fd : Z) : uprog unit :=
  loop (fun _ : unit =>
    r <- file (Read fd DIRENT_SIZE) ;;
    if negb (r.1 =? DIRENT_SIZE) then done (inr tt)
    else if de_inum r.2 =? 0 then done (inl tt)
    else
      let buf := path ++ [47] ++ c_string (take (Z.to_nat DIRSIZ) (drop 2 r.2)) in
      st <- stat_path buf ;;
      match st with
      | None => printf 1 (line "ls: cannot stat %s") [Str buf] ;; done (inl tt)
      | Some st => ls_line buf st ;; done (inl tt)
      end) tt.
Definition ls (path : list Z) : uprog unit :=
  fd <- file (Open path O_RDONLY) ;;
  if fd <? 0 then printf 2 (line "ls: cannot open %s") [Str path] else
  st <- file (Fstat fd) ;;
  match st with
  | None => printf 2 (line "ls: cannot stat %s") [Str path] ;; file (Close fd) ;; done tt
  | Some st =>
      (if st_type st =? T_FILE then ls_line path st
       else if st_type st =? T_DIR then
         if 512 <? Z.of_nat (length path) + 1 + DIRSIZ + 1 then printf 1 (line "ls: path too long") []
         else ls_dir path fd
       else done tt) ;;
      file (Close fd) ;;
      done tt
  end.
Definition ls_main (argv : list (list Z)) : uprog unit :=
  (if (length argv <? 2)%nat then ls [46] else each (tl argv) ls) ;; exit.

(** ** ln.c, mkdir.c, rm.c, kill.c *)

Definition ln_main (argv : list (list Z)) : uprog unit :=
  match argv with
  | [_; old; new] =>
      r <- file (Link old new) ;;
      when (r <? 0) (printf 2 (line "link %s %s: failed") [Str old; Str new]) ;;
      exit
  | _ => printf 2 (line "Usage: ln old new") [] ;; exit
  end.

(** The main function that mkdir.c and rm.c share: a call for every argument,
    up to the first that fails. *)
Fixpoint until_failure (op : list Z -> uprog Z) (complain : list Z -> uprog unit) (args : list (list Z)) : uprog unit :=
  match args with
  | [] => done tt
  | a :: rest => r <- op a ;; if r <? 0 then complain a else until_failure op complain rest
  end.
Definition mkdir_main (argv : list (list Z)) : uprog unit :=
  if (length argv <? 2)%nat then printf 2 (line "Usage: mkdir files...") [] ;; exit else
  until_failure (fun a => file (Mkdir a)) (fun a => printf 2 (line "mkdir: %s failed to create") [Str a]) (tl argv) ;;
  exit.
Definition rm_main (argv : list (list Z)) : uprog unit :=
  if (length argv <? 2)%nat then printf 2 (line "Usage: rm files...") [] ;; exit else
  until_failure (fun a => file (Unlink a)) (fun a => printf 2 (line "rm: %s failed to delete") [Str a]) (tl argv) ;;
  exit.

Definition kill_main (argv : list (list Z)) : uprog unit :=
  if (length argv <? 1)%nat then printf 2 (line "usage: kill pid...") [] ;; exit else
  each (tl argv) (fun a => proc (Kill (Ulib.atoi a)) ;; done tt) ;;
  exit.

(** ** init.c, zombie.c, forktest.c, stressfs.c *)

Definition wait_for (pid : Z) : uprog unit :=
  loop (fun _ : unit =>
    w <- proc Wait ;;
    if (0 <=? w) && negb (w =? pid) then printf 1 (line "zombie!") [] ;; done (inl tt) else done (inr tt)) tt.
Definition init_main : uprog Empty_set :=
  fd <- file (Open (text "console") O_RDWR) ;;
  when (fd <? 0) (file (Mknod (text "console") 1 1) ;; file (Open (text "console") O_RDWR) ;; done tt) ;;
  file (Dup 0) ;;
  file (Dup 0) ;;
  loop (fun _ : unit =>
    printf 1 (line "init: starting sh") [] ;;
    pid <- proc Fork ;;
    if pid <? 0 then printf 1 (line "init: fork failed") [] ;; exit
    else if pid =? 0 then
      proc (Exec (text "sh") [text "sh"]) ;;
      printf 1 (line "init: exec sh failed") [] ;;
      exit
    else wait_for pid ;; done (inl tt)) tt.

Definition zombie_main : uprog unit :=
  pid <- proc Fork ;;
  (if 0 <? pid then proc (Sleep 5) ;; done tt else done tt) ;;
  exit.

(** The loops of [forktest], which usertests.c has as well: how many forks
    succeed, out of at most [n], and the waits for them. *)
Fixpoint forks (n : nat) (made : Z) : uprog Z :=
  match n with
  | O => done made
  | S m =>
      pid <- proc Fork ;;
      if pid <? 0 then done made else if pid =? 0 then exit else forks m (made + 1)
  end.
Fixpoint waits (put : list Z -> uprog unit) (n : nat) : uprog unit :=
  match n with
  | O => done tt
  | S m => w <- proc Wait ;; if w <? 0 then put (line "wait stopped early") ;; exit else waits put m
  end.
Definition forktest (put : list Z -> uprog unit) (claimed : list Z) : uprog unit :=
  put (line "fork test") ;;
  n <- forks 1000 0 ;;
  if n =? 1000 then put claimed ;; exit else
  waits put (Z.to_nat n) ;;
  w <- proc Wait ;;
  if negb (w =? -1) then put (line "wait got too many") ;; exit else
  put (line "fork test OK").
(** The [printf] of forktest.c is one [write]. *)
Definition forktest_main : uprog unit :=
  forktest (fun s => file (Write 1 s) ;; done tt) (line "fork claimed to work N times!") ;; exit.

Fixpoint stress_forks (n : nat) (i : Z) : uprog Z :=
  match n with
  | O => done i
  | S m => pid <- proc Fork ;; if 0 <? pid then done i else stress_forks m (i + 1)
  end.
Definition stressfs_main : uprog unit :=
  printf 1 (line "stressfs starting") [] ;;
  i <- stress_forks 4 0 ;;
  printf 1 (line "write %d") [Num i] ;;
  let path := text "stressfs" ++ [48 + i] in
  fd <- file (Open path (Z.lor O_CREATE O_RDWR)) ;;
  each (seq 0 20) (fun _ => file (Write fd (replicate 512 97)) ;; done tt) ;;
  file (Close fd) ;;
  printf 1 (line "read") [] ;;
  fd <- file (Open path O_RDONLY) ;;
  each (seq 0 20) (fun _ => file (Read fd 512) ;; done tt) ;;
  file (Close fd) ;;
  proc Wait ;;
  exit.
