(* ===== verification/AbsOS.v ===== *)
(** What the kernel promises to programs that read files and print: an abstract
    operating system, and programs proved against it.

    The abstract system knows the bytes of every file by name, what is left to
    read at every descriptor, and what has been printed.  [astep] says what a
    call returns and does; it is silent on the calls outside this part of the
    interface.  [Implements] is the contract: an implementation does what
    [astep] says wherever it says something.  Every program then runs on an
    implementation as it runs on the abstract system. *)

From ITree Require Import Core.ITreeDefinition Indexed.Sum.
From S2P Require Import Prelude Params CString Fs Kernel Proc Printf Uprog Progs Programs.

(** ** The abstract system *)

Inductive named : Type := Missing | Bytes (d : list Z) | Special.
Inductive ofile : Type := Reading (d : list Z) (off : nat) | Terminal.
(** [a_left] is how many files may still be opened. *)
Record aos : Type := mkaos {
  a_names : list Z -> named; a_fds : list (option ofile); a_out : list Z; a_left : nat
}.

Definition a_fd (a : aos) (fd : Z) : option ofile :=
  if (fd <? 0) || (Z.of_nat NOFILE <=? fd) then None else default None (a_fds a !! Z.to_nat fd).
Definition a_set (fd : nat) (x : option ofile) (a : aos) : aos :=
  mkaos (a_names a) (<[fd := x]> (a_fds a)) (a_out a) (a_left a).
Definition a_print (b : list Z) (a : aos) : aos := mkaos (a_names a) (a_fds a) (a_out a ++ b) (a_left a).
Definition a_leave (n : nat) (a : aos) : aos := mkaos (a_names a) (a_fds a) (a_out a) n.
Definition bytes_ok (b : list Z) : bool := forallb (fun c => (0 <=? c) && (c <? 256)) b.
Definition free_fd (l : list (option ofile)) : option nat := first_idx (fun o => match o with None => true | _ => false end) l.

(** Writes of more than this take several rounds in the kernel. *)
Definition WRITE_MAX : Z := 6656.

Definition astep {X} (e : fileE X) (a : aos) : option (X * aos) :=
  match e in fileE X return option (X * aos) with
  | Open p m =>
      if negb (m =? O_RDONLY) then None else
      match a_left a, a_names a p with
      | O, _ | _, Special => None
      | S _, Missing => Some (-1, a)
      | S k, Bytes d =>
          match free_fd (a_fds a) with
          | Some fd => Some (Z.of_nat fd, a_leave k (a_set fd (Some (Reading d 0)) a))
          | None => None
          end
      end
  | Close fd =>
      match a_fd a fd with
      | None => Some (-1, a)
      | Some (Reading _ _) => Some (0, a_leave (S (a_left a)) (a_set (Z.to_nat fd) None a))
      | Some Terminal => None
      end
  | Read fd n =>
      if (n <? 0) || (2 ^ 31 <=? n) then None else
      match a_fd a fd with
      | None => Some ((-1, []), a)
      | Some (Reading d off) =>
          let b := take (Z.to_nat n) (drop off d) in
          Some ((Z.of_nat (length b), b), a_set (Z.to_nat fd) (Some (Reading d (off + length b))) a)
      | Some Terminal => None
      end
  | Write fd b =>
      match a_fd a fd with
      | None | Some (Reading _ _) => Some (-1, a)
      | Some Terminal =>
          if bytes_ok b && (Z.of_nat (length b) <=? WRITE_MAX) then Some (Z.of_nat (length b), a_print b a) else None
      end
  | _ => None
  end.

Definition ahandle (X : Type) (e : fileE X) : M aos X := fun a =>
  match astep e a with
  | Some (x, a') => Ret x a'
  | None => Fault "unspecified" a
  end.

(** ** The contract *)

Class Implements {S : Type} (h : forall X, fileE X -> M S X) (rep : S -> aos -> Prop) : Prop :=
  implements : forall X (e : fileE X) s a x a', rep s a -> astep e a = Some (x, a') ->
    exists s', h X e s = Ret x s' /\ rep s' a'.

Lemma run_implements {S R} (h : forall X, fileE X -> M S X) rep `{!Implements h rep} n : forall (t : uprog R) s a r a',
  rep s a -> run ahandle n t a = Ret r a' -> exists s', run h n t s = Ret r s' /\ rep s' a'.
Proof.
  induction n as [|n IH]; intros t s a r a' Hr; cbn [run]; [done|].
  destruct (observe t) as [x|u|X [e|p] k]; [|eauto| |].
  - intros [= <- <-]. eauto.
  - unfold bind, ahandle at 1. destruct (astep e a) as [[x a1]|] eqn:Ea; [|done].
    destruct (implements X e s a x a1 Hr Ea) as (s1 & -> & Hr1). by apply IH.
  - intros [= <- <-]. eauto.
Qed.
