(* ===== verification/ProgramsSpec.v ===== *)
(** cat.c, wc.c and echo.c on the abstract system: what they print. *)

From ITree Require Import Core.ITreeDefinition Indexed.Sum.
From S2P Require Import Prelude Params CString Fs Kernel Proc Printf Uprog Progs Programs AbsOS.
Import U.

(** ** Running composed programs *)

Lemma observe_bind {E R R'} (t : itree E R) (k : R -> itree E R') :
  observe (ITree.bind t k) =
    match observe t with
    | RetF r => observe (k r)
    | TauF u => TauF (ITree.bind u k)
    | VisF e c => VisF e (fun x => ITree.bind (c x) k)
    end.
Proof. unfold observe at 1. cbn. unfold observe. destruct (_observe t); reflexivity. Qed.

Section yields.
Context {S : Type} (h : forall X, fileE X -> M S X).

(** The program ends in this way when it is given enough fuel. *)
Definition yields {R} (t : uprog R) (s : S) (r : outcome R) (s' : S) : Prop := exists n, run h n t s = Ret r s'.

Lemma yields_ret {R} (x : R) s : yields (done x) s (Returned x) s.
Proof. by exists 1%nat. Qed.
Lemma yields_exit {R} s : yields (exit (R := R)) s Exited s.
Proof. by exists 1%nat. Qed.
Lemma yields_tau {R} (t : uprog R) s r s' : yields t s r s' -> yields (Tau t) s r s'.
Proof. intros [n Hn]. by exists (Datatypes.S n). Qed.
Lemma yields_observe {R} (t u : uprog R) s r s' : observe t = observe u -> yields t s r s' -> yields u s r s'.
Proof. intros E [n Hn]. exists n. destruct n as [|n]; cbn [run] in *; [done|]. by rewrite <- E. Qed.

Lemma run_bind {R R'} (k : R -> uprog R') n : forall (t : uprog R) s x s1 r s', run h n t s = Ret (Returned x) s1 ->
  yields (k x) s1 r s' -> yields (ITree.bind t k) s r s'.
Proof.
  induction n as [|n IH]; intros t s x s1 r s' Hn Hk; cbn [run] in Hn; [done|].
  destruct (observe t) as [y|u|X [e|p] c] eqn:E.
  - injection Hn as -> ->. eapply yields_observe; [|exact Hk]. by rewrite observe_bind, E.
  - destruct (IH u s x s1 r s' Hn Hk) as [m Hm]. exists (Datatypes.S m). cbn [run]. by rewrite observe_bind, E.
  - unfold bind in Hn. destruct (h X e s) as [y s2| | |] eqn:Eh; try done.
    destruct (IH (c y) s2 x s1 r s' Hn Hk) as [m Hm]. exists (Datatypes.S m). cbn [run]. rewrite observe_bind, E. unfold bind. by rewrite Eh.
  - destruct p; discriminate Hn.
Qed.

Lemma yields_bind {R R'} (t : uprog R) (k : R -> uprog R') s x s1 r s' :
  yields t s (Returned x) s1 -> yields (k x) s1 r s' -> yields (ITree.bind t k) s r s'.
Proof. intros [n Hn] Hk. by eapply run_bind. Qed.

Lemma run_bind_bind {R R' R2} (k : R -> uprog R') (k2 : R' -> uprog R2) n : forall (t : uprog R) s x s1 r s',
  run h n t s = Ret (Returned x) s1 -> yields (ITree.bind (k x) k2) s1 r s' -> yields (ITree.bind (ITree.bind t k) k2) s r s'.
Proof.
  induction n as [|n IH]; intros t s x s1 r s' Hn Hk; cbn [run] in Hn; [done|].
  destruct (observe t) as [y|u|X [e|p] c] eqn:E.
  - injection Hn as -> ->. eapply yields_observe; [|exact Hk]. by rewrite !observe_bind, E.
  - destruct (IH u s x s1 r s' Hn Hk) as [m Hm]. exists (Datatypes.S m). cbn [run]. by rewrite !observe_bind, E.
  - unfold bind in Hn. destruct (h X e s) as [y s2| | |] eqn:Eh; try done.
    destruct (IH (c y) s2 x s1 r s' Hn Hk) as [m Hm]. exists (Datatypes.S m). cbn [run]. rewrite !observe_bind, E. unfold bind. by rewrite Eh.
  - destruct p; discriminate Hn.
Qed.
Lemma yields_bind_bind {R R' R2} (t : uprog R) (k : R -> uprog R') (k2 : R' -> uprog R2) s x s1 r s' :
  yields t s (Returned x) s1 -> yields (ITree.bind (k x) k2) s1 r s' -> yields (ITree.bind (ITree.bind t k) k2) s r s'.
Proof. intros [n Hn] Hk. by eapply run_bind_bind. Qed.

Lemma run_bind_exit {R R'} (k : R -> uprog R') n : forall (t : uprog R) s s1, run h n t s = Ret Exited s1 ->
  yields (ITree.bind t k) s Exited s1.
Proof.
  induction n as [|n IH]; intros t s s1 Hn; cbn [run] in Hn; [done|].
  destruct (observe t) as [y|u|X [e|p] c] eqn:E; [done| | |].
  - destruct (IH u s s1 Hn) as [m Hm]. exists (Datatypes.S m). cbn [run]. by rewrite observe_bind, E.
  - unfold bind in Hn. destruct (h X e s) as [y s2| | |] eqn:Eh; try done.
    destruct (IH (c y) s2 s1 Hn) as [m Hm]. exists (Datatypes.S m). cbn [run]. rewrite observe_bind, E. unfold bind. by rewrite Eh.
  - exists 1%nat. cbn [run]. rewrite observe_bind, E. destruct p; try discriminate Hn. by injection Hn as ->.
Qed.

Lemma yields_bind_exit {R R'} (t : uprog R) (k : R -> uprog R') s s' : yields t s Exited s' -> yields (ITree.bind t k) s Exited s'.
Proof. intros [n Hn]. by eapply run_bind_exit. Qed.

Lemma yields_file {X} (e : fileE X) s x s' : h X e s = Ret x s' -> yields (file e) s (Returned x) s'.
Proof. intros He. exists 2%nat. cbn. unfold bind. by rewrite He. Qed.

(** One call, and the rest of the program. *)
Lemma yields_call {X R} (e : fileE X) (k : X -> uprog R) s x s1 r s' :
  h X e s = Ret x s1 -> yields (k x) s1 r s' -> yields (ITree.bind (file e) k) s r s'.
Proof. intros He. apply yields_bind. by apply yields_file. Qed.

Lemma yields_loop {I R} (body : I -> uprog (I + R)) i s r s' :
  yields (ITree.bind (body i) (fun x => match x with inl j => Tau (loop body j) | inr y => ITreeDefinition.Ret y end)) s r s' ->
  yields (loop body i) s r s'.
Proof. by apply yields_observe. Qed.

End yields.

(** ** The abstract system's state *)

Abbreviation ayields := (yields ahandle).

Lemma a_print_nil a : a_print [] a = a.
Proof. unfold a_print. rewrite app_nil_r. by destruct a. Qed.
Lemma a_print_print b c a : a_print c (a_print b a) = a_print (b ++ c) a.
Proof. unfold a_print. cbn. by rewrite app_assoc. Qed.

Lemma a_fd_Some a fd x : a_fd a fd = Some x -> 0 <= fd < Z.of_nat NOFILE /\ a_fds a !! Z.to_nat fd = Some (Some x).
Proof.
  unfold a_fd. destruct (Z.ltb_spec fd 0), (Z.leb_spec (Z.of_nat NOFILE) fd); cbn [orb]; try done.
  intros Hx. split; [lia|]. destruct (a_fds a !! Z.to_nat fd) as [y|]; cbn in Hx; by subst.
Qed.
Lemma a_fd_set a fd k x : 0 <= fd < Z.of_nat NOFILE -> (k < length (a_fds a))%nat ->
  a_fd (a_set k x a) fd = if decide (k = Z.to_nat fd) then x else a_fd a fd.
Proof.
  intros Hf Hk. unfold a_fd, a_set. cbn [a_fds]. rewrite (proj2 (Z.ltb_ge _ _)), (proj2 (Z.leb_gt _ _)) by lia. cbn [orb].
  case_decide as E; [subst; by rewrite list_lookup_insert_eq|by rewrite list_lookup_insert_ne].
Qed.

Lemma free_fd_None l k : free_fd l = Some k -> l !! k = Some None.
Proof. intros Hk. apply first_idx_some in Hk as (o & Ho & Hn & _). by destruct o. Qed.

Lemma bytes_ok_app b c : bytes_ok (b ++ c) = bytes_ok b && bytes_ok c.
Proof. apply forallb_app. Qed.
Lemma bytes_ok_take n b : bytes_ok b = true -> bytes_ok (take n b) = true.
Proof. intros Hb. rewrite <- (take_drop n b), bytes_ok_app in Hb. by apply andb_true_iff in Hb as [? _]. Qed.
Lemma bytes_ok_drop n b : bytes_ok b = true -> bytes_ok (drop n b) = true.
Proof. intros Hb. rewrite <- (take_drop n b), bytes_ok_app in Hb. by apply andb_true_iff in Hb as [_ ?]. Qed.

(** Standard output is the terminal. *)
Definition tty (a : aos) : Prop := a_fd a 1 = Some Terminal.

Lemma write_tty a b : tty a -> bytes_ok b = true -> Z.of_nat (length b) <= WRITE_MAX ->
  ahandle _ (Write 1 b) a = Ret (Z.of_nat (length b)) (a_print b a).
Proof.
  intros Ht Hb Hl. unfold ahandle, astep. rewrite Ht, Hb. by rewrite (proj2 (Z.leb_le _ _) Hl).
Qed.

Lemma print_bytes b : forall a, tty a -> bytes_ok b = true ->
  ayields (each b (fun c => ITree.bind (file (Write 1 [c])) (fun _ => done tt))) a (Returned tt) (a_print b a).
Proof.
  induction b as [|c b IH]; intros a Ht Hb; cbn [each]; [rewrite a_print_nil; apply yields_ret|].
  change (bytes_ok ([c] ++ b) = true) in Hb. rewrite bytes_ok_app in Hb. apply andb_true_iff in Hb as [Hc Hb].
  eapply yields_bind; [eapply yields_call; [by apply write_tty|apply yields_ret]|].
  replace (a_print (c :: b) a) with (a_print b (a_print [c] a)) by apply a_print_print. by apply IH.
Qed.

Lemma print_fmt fmt args a : tty a -> bytes_ok (formatted fmt args) = true ->
  ayields (printf 1 fmt args) a (Returned tt) (a_print (formatted fmt args) a).
Proof. apply print_bytes. Qed.

(** ** cat *)

Lemma read_file a fd d off n : a_fd a fd = Some (Reading d off) -> 0 <= n < 2 ^ 31 ->
  ahandle _ (Read fd n) a = Ret (Z.of_nat (length (take (Z.to_nat n) (drop off d))), take (Z.to_nat n) (drop off d))
    (a_set (Z.to_nat fd) (Some (Reading d (off + length (take (Z.to_nat n) (drop off d))))) a).
Proof.
  intros Hf Hn. unfold ahandle, astep. rewrite (proj2 (Z.ltb_ge _ _)), (proj2 (Z.leb_gt _ _)) by lia. cbn [orb]. by rewrite Hf.
Qed.

Lemma a_set_set k x y a : a_set k x (a_set k y a) = a_set k x a.
Proof. unfold a_set. cbn. by rewrite list_insert_insert_eq. Qed.

(** Reading block by block to the end: what a loop over the descriptor does. *)
Lemma read_step a fd d off : a_fd a fd = Some (Reading d off) -> (off <= length d)%nat ->
  exists b, ahandle _ (Read fd 512) a = Ret (Z.of_nat (length b), b) (a_set (Z.to_nat fd) (Some (Reading d (off + length b))) a) /\
    drop off d = b ++ drop (off + length b) d /\ (length b <= 512)%nat /\ (off + length b <= length d)%nat /\ (b = [] -> off = length d).
Proof.
  intros Hf Ho. exists (take 512 (drop off d)). split; [by apply (read_file a fd d off 512)|].
  assert (length (take 512 (drop off d)) = 512 `min` (length d - off))%nat as Hl by (by rewrite length_take, length_drop).
  split_and!.
  - rewrite <- drop_drop. rewrite Hl. rewrite <- (take_drop 512 (drop off d)) at 1. f_equal.
    destruct (decide (512 <= length d - off)%nat); [by rewrite Nat.min_l|].
    rewrite Nat.min_r by lia. by rewrite (drop_ge (drop off d) 512), (drop_ge (drop off d) (length d - off)) by (rewrite length_drop; lia).
  - rewrite Hl. lia.
  - rewrite Hl. lia.
  - intros Hb. apply (f_equal length) in Hb. rewrite Hl in Hb. change (length []) with 0%nat in Hb. lia.
Qed.

Lemma tty_set a fd x : tty a -> 0 <= fd -> (Z.to_nat fd < length (a_fds a))%nat -> fd <> 1 -> tty (a_set (Z.to_nat fd) x a).
Proof. intros Ht Hp Hf Hn. unfold tty. rewrite a_fd_set by (done || lia). rewrite decide_False by lia. done. Qed.

Lemma cat_fd d fd n : forall a off, a_fd a fd = Some (Reading d off) -> tty a -> bytes_ok d = true -> (off <= length d)%nat ->
  (length d - off <= n)%nat ->
  ayields (cat fd) a (Returned tt) (a_print (drop off d) (a_set (Z.to_nat fd) (Some (Reading d (length d))) a)).
Proof.
  induction n as [n IH] using lt_wf_ind; intros a off Hf Ht Hd Ho Hn.
  destruct (read_step a fd d off Hf Ho) as (b & Hr & Eb & Hb512 & Hble & Hend).
  destruct (a_fd_Some _ _ _ Hf) as [Hfd Hl]. pose proof (lookup_lt_Some _ _ _ Hl) as Hlt.
  assert (fd <> 1) as Hfd1 by (intros ->; unfold tty in Ht; congruence).
  apply yields_loop. destruct b as [|c b].
  - rewrite (Hend eq_refl) in *. cbn [length] in Hr. rewrite Nat.add_0_r in Hr.
    eapply yields_bind; [eapply yields_call; [exact Hr|]; apply yields_ret|]. rewrite drop_all, a_print_nil. apply yields_ret.
  - set (b' := c :: b) in *. assert (0 < length b')%nat as Hpos by (subst b'; cbn; lia).
    set (a1 := a_set (Z.to_nat fd) (Some (Reading d (off + length b'))) a) in *.
    assert (bytes_ok b' = true) as Hb'.
    { pose proof (bytes_ok_drop off d Hd) as Hx. rewrite Eb, bytes_ok_app in Hx. by apply andb_true_iff in Hx as [? _]. }
    assert (tty a1) as Ht1 by (apply tty_set; try done; lia).
    eapply yields_bind; [eapply yields_call; [exact Hr|]|].
    { cbn [fst snd]. rewrite (proj2 (Z.ltb_lt 0 _)) by lia. eapply yields_call; [apply write_tty; [done|done|unfold WRITE_MAX; lia]|apply yields_ret]. }
    apply yields_tau. rewrite Eb.
    replace (a_print (b' ++ drop (off + length b') d) (a_set (Z.to_nat fd) (Some (Reading d (length d))) a))
      with (a_print (drop (off + length b') d) (a_set (Z.to_nat fd) (Some (Reading d (length d))) (a_print b' a1))).
    2:{ rewrite <- a_print_print. f_equal. unfold a_print, a_set. subst a1. cbn. by rewrite list_insert_insert_eq. }
    apply (IH (length d - (off + length b'))%nat); try done; [lia|].
    change (a_fd a1 fd = Some (Reading d (off + length b'))). unfold a1. rewrite a_fd_set by (done || lia). by rewrite decide_True.
Qed.

(** ** wc *)

Definition wc_body (fd : Z) (x : counts) : uprog (counts + counts) :=
  ITree.bind (file (Read fd 512)) (fun r =>
    if 0 <? r.1 then done (inl (foldl wc_char x r.2))
    else if r.1 <? 0 then ITree.bind (printf 1 (line "wc: read error") []) (fun _ => exit)
    else done (inr x)).

Lemma foldl_counted l t : foldl wc_char (counted t) l = counted (t ++ l).
Proof. pose proof (wc_reads [l] t) as H. cbn [foldl concat] in H. by rewrite app_nil_r in H. Qed.

Lemma wc_loop d fd n : forall a off, a_fd a fd = Some (Reading d off) -> (off <= length d)%nat -> (length d - off <= n)%nat ->
  ayields (loop (wc_body fd) (counted (take off d))) a (Returned (counted d)) (a_set (Z.to_nat fd) (Some (Reading d (length d))) a).
Proof.
  induction n as [n IH] using lt_wf_ind; intros a off Hf Ho Hn.
  destruct (read_step a fd d off Hf Ho) as (b & Hr & Eb & Hb512 & Hble & Hend).
  destruct (a_fd_Some _ _ _ Hf) as [Hfd Hl]. pose proof (lookup_lt_Some _ _ _ Hl) as Hlt.
  apply yields_loop. destruct b as [|c b].
  - rewrite (Hend eq_refl) in *. cbn [length] in Hr. rewrite Nat.add_0_r in Hr.
    eapply yields_bind; [eapply yields_call; [exact Hr|]; apply yields_ret|]. rewrite firstn_all. apply yields_ret.
  - set (b' := c :: b) in *. assert (0 < length b')%nat as Hpos by (subst b'; cbn; lia).
    eapply yields_bind; [eapply yields_call; [exact Hr|]; cbn [fst snd]; rewrite (proj2 (Z.ltb_lt 0 _)) by lia; apply yields_ret|].
    apply yields_tau. rewrite foldl_counted.
    assert (take off d ++ b' = take (off + length b') d) as ->.
    { rewrite <- (take_drop off d) at 2. rewrite Eb, (take_app_add' _ _ off) by (rewrite length_take; lia). by rewrite take_app_length. }
    rewrite <- (a_set_set _ (Some (Reading d (length d))) (Some (Reading d (off + length b'))) a).
    apply (IH (length d - (off + length b'))%nat); [lia| |lia|lia].
    rewrite a_fd_set by (done || lia). by rewrite decide_True.
Qed.

(** What wc prints for a file. *)
Definition wc_line (d name : list Z) : list Z :=
  decimal (Z.of_nat (newlines d)) ++ [32] ++ decimal (Z.of_nat (Progs.words d)) ++ [32] ++ decimal (Z.of_nat (length d)) ++ [32] ++ name ++ [10].

Lemma s32_nat n : Z.of_nat n < 2 ^ 31 -> s32 (u32 (s32 (Z.of_nat n))) = Z.of_nat n.
Proof. intros Hn. rewrite (s32_small (Z.of_nat n)), u32_small, s32_small; lia. Qed.

(** Evaluate a format whose text is given. *)
Ltac format := repeat first [rewrite format_char by done | rewrite format_d | rewrite format_s by done].

Lemma wc_formatted d name : Z.of_nat (length d) < 2 ^ 31 ->
  formatted (line "%d %d %d %s") [Num (c_l (counted d)); Num (c_w (counted d)); Num (c_c (counted d)); Str name] = wc_line d name.
Proof.
  intros Hd. pose proof (newlines_le d) as Hnl. pose proof (words_le d) as Hwl.
  unfold formatted, Printf.printf, counted. cbn [c_l c_w c_c strings words].
  change (line "%d %d %d %s") with [37; 100; 32; 37; 100; 32; 37; 100; 32; 37; 115; 10]. format.
  rewrite !s32_nat by lia. unfold wc_line. cbn [printf_loop ret]. by rewrite <- !app_assoc.
Qed.

Lemma wc_fd d fd name a : a_fd a fd = Some (Reading d 0) -> tty a -> Z.of_nat (length d) < 2 ^ 31 -> bytes_ok (wc_line d name) = true ->
  ayields (wc fd name) a (Returned tt) (a_print (wc_line d name) (a_set (Z.to_nat fd) (Some (Reading d (length d))) a)).
Proof.
  intros Hf Ht Hl Hb. destruct (a_fd_Some _ _ _ Hf) as [Hfd Hs]. pose proof (lookup_lt_Some _ _ _ Hs) as Hlt.
  assert (fd <> 1) as Hfd1 by (intros ->; unfold tty in Ht; congruence).
  eapply yields_bind; [apply (wc_loop d fd (length d) a 0); [done|lia|lia]|].
  rewrite <- (wc_formatted d name) by done. apply print_fmt; [apply tty_set; try done; lia|by rewrite wc_formatted].
Qed.

(** ** The files named on a command line *)

(** What a program that works file by file prints: for every file what [f] says
    of its bytes, up to the first that does not exist, of which it complains. *)
Fixpoint printed (name : string) (f : list Z -> list Z -> list Z) (names : list Z -> named) (args : list (list Z)) : list Z :=
  match args with
  | [] => []
  | p :: ps =>
      match names p with
      | Bytes d => f d p ++ printed name f names ps
      | _ => text name ++ text ": cannot open " ++ p ++ [10]
      end
  end.

Lemma format_text pre : forall cstr fmt args out, Forall (fun c => c <> 37) pre ->
  printf_loop emit cstr (pre ++ fmt) false args out = printf_loop emit cstr fmt false args (out ++ pre).
Proof.
  induction pre as [|c pre IH]; intros cstr fmt args out Hp; cbn [app]; [by rewrite app_nil_r|].
  apply Forall_cons in Hp as [Hc Hp]. by rewrite format_char, IH, <- app_assoc.
Qed.

Lemma complaint name p : Forall (fun c => c <> 37) (text name) ->
  formatted (text name ++ line ": cannot open %s") [Str p] = text name ++ text ": cannot open " ++ p ++ [10].
Proof.
  intros Hn. unfold formatted, Printf.printf. cbn [strings words]. rewrite format_text by done.
  change (line ": cannot open %s") with (text ": cannot open " ++ [37; 115; 10]). rewrite format_text by (vm_compute; repeat constructor; done).
  format. cbn [printf_loop ret]. by rewrite <- !app_assoc.
Qed.

Section files.
Context (name : string) (Hname : Forall (fun c => c <> 37) (text name)) (Hbname : bytes_ok (text name) = true).
Context (body : Z -> list Z -> uprog unit) (f : list Z -> list Z -> list Z) (fine : list Z -> list Z -> Prop).
Context (Hbody : forall d p fd a, fine d p -> a_fd a fd = Some (Reading d 0) -> tty a ->
  ayields (body fd p) a (Returned tt) (a_print (f d p) (a_set (Z.to_nat fd) (Some (Reading d (length d))) a))).

(** An argument is a file that the program can deal with, or is missing. *)
Definition arg_ok (names : list Z -> named) (p : list Z) : Prop :=
  match names p with Bytes d => fine d p | Missing => bytes_ok p = true | Special => False end.

Lemma open_body_close a p d : tty a -> (length (a_fds a) <= NOFILE)%nat -> (exists k, free_fd (a_fds a) = Some k) -> (0 < a_left a)%nat ->
  a_names a p = Bytes d -> fine d p -> forall B : Z -> uprog unit,
  (forall fd, B fd = if fd <? 0 then ITree.bind (printf 1 (text name ++ line ": cannot open %s") [Str p]) (fun _ => exit)
                     else ITree.bind (body fd p) (fun _ => ITree.bind (file (Close fd)) (fun _ => done tt))) ->
  ayields (ITree.bind (file (Open p O_RDONLY)) B) a (Returned tt) (a_print (f d p) a).
Proof.
  intros Ht Hlen [k Hk] Hleft Hp Hf B HB. destruct (a_left a) as [|n] eqn:En; [lia|].
  pose proof (free_fd_None _ _ Hk) as Hnone. pose proof (lookup_lt_Some _ _ _ Hnone) as Hlt.
  set (a1 := a_leave n (a_set k (Some (Reading d 0)) a)).
  assert (ahandle _ (Open p O_RDONLY) a = Ret (Z.of_nat k) a1) as Ho.
  { unfold ahandle, astep. cbn [negb]. change (O_RDONLY =? O_RDONLY) with true. cbn [negb]. by rewrite En, Hp, Hk. }
  assert (k <> 1%nat) as Hk1.
  { intros ->. destruct (a_fd_Some _ _ _ Ht) as [_ Hx]. change (Z.to_nat 1) with 1%nat in Hx. congruence. }
  assert (a_fd a1 (Z.of_nat k) = Some (Reading d 0)) as Hfd1.
  { change (a_fd (a_set k (Some (Reading d 0)) a) (Z.of_nat k) = Some (Reading d 0)). rewrite a_fd_set by lia. by rewrite Nat2Z.id, decide_True. }
  assert (tty a1) as Ht1.
  { change (tty (a_set k (Some (Reading d 0)) a)). rewrite <- (Nat2Z.id k). apply tty_set; try done; rewrite ?Nat2Z.id; lia. }
  eapply yields_call; [exact Ho|]. rewrite HB, (proj2 (Z.ltb_ge _ _)) by lia.
  eapply yields_bind; [by apply Hbody|]. rewrite Nat2Z.id.
  set (a2 := a_print _ _).
  assert (ahandle _ (Close (Z.of_nat k)) a2 = Ret 0 (a_leave (S n) (a_set k None a2))) as Hc.
  { unfold ahandle, astep.
    assert (a_fd a2 (Z.of_nat k) = Some (Reading d (length d))) as ->.
    { change (a_fd (a_set k (Some (Reading d (length d))) a1) (Z.of_nat k) = Some (Reading d (length d))).
      rewrite a_fd_set by (cbn; rewrite ?length_insert; lia). by rewrite Nat2Z.id, decide_True. }
    by rewrite Nat2Z.id. }
  eapply yields_call; [exact Hc|].
  replace (a_print (f d p) a) with (a_leave (S n) (a_set k None a2)); [apply yields_ret|].
  unfold a2, a1, a_leave, a_set, a_print. cbn. rewrite !list_insert_insert_eq, list_insert_id by done. by rewrite En.
Qed.

Lemma open_missing a p : tty a -> (0 < a_left a)%nat -> a_names a p = Missing -> bytes_ok p = true -> forall B : Z -> uprog unit,
  B (-1) = ITree.bind (printf 1 (text name ++ line ": cannot open %s") [Str p]) (fun _ => exit) ->
  ayields (ITree.bind (file (Open p O_RDONLY)) B) a Exited (a_print (text name ++ text ": cannot open " ++ p ++ [10]) a).
Proof.
  intros Ht Hleft Hp Hb B HB.
  assert (ahandle _ (Open p O_RDONLY) a = Ret (-1) a) as Ho.
  { unfold ahandle, astep. change (O_RDONLY =? O_RDONLY) with true. cbn [negb]. destruct (a_left a); [lia|]. by rewrite Hp. }
  eapply yields_call; [exact Ho|]. rewrite HB. rewrite <- complaint by done.
  eapply yields_bind; [|apply yields_exit]. apply print_fmt; [done|]. rewrite complaint by done.
  rewrite !bytes_ok_app, Hbname, Hb. done.
Qed.

Lemma each_file_prints argv : forall a, tty a -> (length (a_fds a) <= NOFILE)%nat -> (exists k, free_fd (a_fds a) = Some k) ->
  (0 < a_left a)%nat -> (1 < length argv)%nat -> Forall (arg_ok (a_names a)) (tl argv) ->
  ayields (each_file name body argv) a Exited (a_print (printed name f (a_names a) (tl argv)) a).
Proof.
  intros a Ht Hlen Hk Hleft Hn Hok. unfold each_file. rewrite (proj2 (Nat.leb_gt _ _)) by done. clear Hn.
  revert a Ht Hlen Hk Hleft Hok. induction (tl argv) as [|p ps IH]; intros a Ht Hlen Hk Hleft Hok.
  - eapply yields_bind; [apply yields_ret|]. cbn [printed]. rewrite a_print_nil. apply yields_exit.
  - apply Forall_cons in Hok as [Hp Hok]. cbn [printed each]. unfold arg_ok in Hp. destruct (a_names a p) as [|d|] eqn:Ep; [| |done].
    + apply yields_bind_exit, yields_bind_exit. by apply open_missing.
    + rewrite <- a_print_print. specialize (IH (a_print (f d p) a) Ht Hlen Hk Hleft Hok).
      eapply yields_bind_bind; [by apply (open_body_close a p d)|exact IH].
Qed.
End files.

(** ** What the programs print *)

(** Standard output is the terminal and there is room for another file. *)
Record ready (a : aos) : Prop := mkready {
  rd_tty : tty a;
  rd_len : (length (a_fds a) <= NOFILE)%nat;
  rd_fd : exists k, free_fd (a_fds a) = Some k;
  rd_left : (0 < a_left a)%nat
}.

Definition cat_fine (d p : list Z) : Prop := bytes_ok d = true.
Definition wc_fine (d p : list Z) : Prop := Z.of_nat (length d) < 2 ^ 31 /\ bytes_ok (wc_line d p) = true.

Lemma cat_prints argv a : ready a -> (1 < length argv)%nat -> Forall (arg_ok cat_fine (a_names a)) (tl argv) ->
  ayields (cat_main argv) a Exited (a_print (printed "cat" (fun d _ => d) (a_names a) (tl argv)) a).
Proof.
  intros [Ht Hl Hk Hn] Ha Hok. eapply each_file_prints; try done; [vm_compute; repeat constructor; done|].
  intros d p fd a1 Hd Hf Ht1. pose proof (cat_fd d fd (length d) a1 0 Hf Ht1 Hd) as H. rewrite drop_0 in H. apply H; lia.
Qed.

Lemma wc_prints argv a : ready a -> (1 < length argv)%nat -> Forall (arg_ok wc_fine (a_names a)) (tl argv) ->
  ayields (wc_main argv) a Exited (a_print (printed "wc" wc_line (a_names a) (tl argv)) a).
Proof.
  intros [Ht Hl Hk Hn] Ha Hok. eapply each_file_prints; try done; [vm_compute; repeat constructor; done|].
  intros d p fd a1 [Hd Hb] Hf Ht1. by apply wc_fd.
Qed.

Fixpoint joined (args : list (list Z)) : list Z :=
  match args with
  | [] => []
  | [p] => p ++ [10]
  | p :: rest => p ++ [32] ++ joined rest
  end.

Lemma echo_formatted p q : formatted (text "%s%s") [Str p; Str q] = p ++ q.
Proof.
  unfold formatted, Printf.printf. cbn [strings words]. change (text "%s%s") with [37; 115; 37; 115]. format. done.
Qed.

Lemma echo_prints argv : forall a, tty a -> Forall (fun p => bytes_ok p = true) (tl argv) ->
  ayields (echo_main argv) a Exited (a_print (joined (tl argv)) a).
Proof.
  unfold echo_main. induction (tl argv) as [|p ps IH]; intros a Ht Hok.
  - eapply yields_bind; [apply yields_ret|]. cbn [joined]. rewrite a_print_nil. apply yields_exit.
  - apply Forall_cons in Hok as [Hp Hok]. cbn [echo_args].
    assert (joined (p :: ps) = (p ++ match ps with [] => [10] | _ => [32] end) ++ joined ps) as ->.
    { destruct ps; cbn [joined]; [by rewrite app_nil_r|by rewrite <- app_assoc]. }
    rewrite <- a_print_print, <- echo_formatted.
    eapply yields_bind_bind; [apply print_fmt; [done|]|by apply IH].
    rewrite echo_formatted, bytes_ok_app, Hp. by destruct ps.
Qed.
