(* ===== verification/Ksys.v ===== *)
(** The kernel as the handler of the programs' calls on files.

    A call runs the part of the system call of sysfile.c that follows the
    fetching of its arguments; what it takes from user memory and what it stores
    there are in the call and in the answer.  The device table is the one that
    console.c [consoleinit] makes. *)

From S2P Require Import Prelude Params CString Mmu Kalloc Vm BlockDev Bio Log Fs Dir Kernel Proc Pipe File Fork Syscall Sysfile Printf Console Uprog.

Section with_device.
Context `{BlockDev} (kend : Z).
Abbreviation FS := (M (fsst kx)).

Definition kdevsw : Z -> devops (E := kx) :=
  fun k => if k =? CONSOLE then mkdevops (Some consoleread) (Some consolewrite) else mkdevops None None.

(** A call on the file of a descriptor. *)
Definition on_fd {A} (fd : Z) (bad : A) (k : nat -> FS A) : FS A :=
  a <- liftk (fd_file fd) ;; match a with None => ret bad | Some (_, f) => k f end.

Definition ksys (X : Type) (e : fileE X) : FS X :=
  match e in fileE X return FS X with
  | Open path mode => do_open kend kdevsw path mode
  | Close fd => a <- liftk (fd_file fd) ;; do_close kend a
  | Read fd n => on_fd fd (-1, []) (fun f => fileread kdevsw f n)
  | Write fd b => on_fd fd (-1) (fun f => filewrite kdevsw f b (Z.of_nat (length b)))
  | Fstat fd => on_fd fd None filestat
  | Link old new => do_link kdevsw old new
  | Unlink path => do_unlink kdevsw path
  | Mkdir path => liftl begin_op ;; o <- create kdevsw path T_DIR 0 0 ;; finish_create o
  | Mknod path major minor => liftl begin_op ;; o <- create kdevsw path T_DEV major minor ;; finish_create o
  | Chdir path => liftl begin_op ;; do_chdir kdevsw path
  | Dup fd => liftk (a <- fd_file fd ;; do_dup a)
  | Pipe => o <- do_pipe kend ;; ret ((fun p => (Z.of_nat p.1, Z.of_nat p.2)) <$> o)
  end.
End with_device.
