(* ===== verification/KernelOS.v ===== *)
(** The kernel implements the abstract operating system.

    [krep] relates a kernel state to a state of [AbsOS]: names are paths walked
    through the directories on the disk, a descriptor that is being read is an
    entry of the open file table with a reference to a cached inode, the
    terminal is the console's device file, and what has been printed is what the
    serial port sent.  The calls are those of [Ksys], from the system call down
    to the log, the buffer cache and the disk. *)

From stdpp Require Import gmultiset.
From ITree Require Import Core.ITreeDefinition.
From S2P Require Import Prelude Params CString Mmu Kalloc Vm BlockDev Bio Log Fs Dir FsSpec FileSpec Dinode FileData FsOps Icache DirSpec InodeRefs Namei Kernel Proc Pipe File Fork Syscall Sysfile Printf Console ConsoleSpec Uprog Progs Programs AbsOS ProgramsSpec Ksys.

(** ** Lists of references *)

Definition gather (G : list (option Z)) : gmultiset Z := list_to_set_disj (omap id G).

Lemma gather_insert G k n : G !! k = Some None -> gather (<[k := Some n]> G) = gather G ⊎ {[+ n +]}.
Proof.
  intros Hk. unfold gather. rewrite <- (take_drop_middle G k None Hk) at 2. rewrite (insert_take_drop G k (Some n)) by (by eapply lookup_lt_Some).
  rewrite !omap_app, !list_to_set_disj_app. cbn [omap list_omap id]. rewrite list_to_set_disj_cons.
  generalize (list_to_set_disj (omap id (take k G)) : gmultiset Z), (list_to_set_disj (omap id (drop (S k) G)) : gmultiset Z). multiset_solver.
Qed.
Lemma gather_delete G k n : G !! k = Some (Some n) -> gather G = gather (<[k := None]> G) ⊎ {[+ n +]}.
Proof.
  intros Hk. pose proof (lookup_lt_Some _ _ _ Hk). rewrite <- (gather_insert (<[k := None]> G) k n) by (by rewrite list_lookup_insert_eq).
  by rewrite list_insert_insert_eq, list_insert_id.
Qed.
Lemma gather_elem G k n : G !! k = Some (Some n) -> n ∈ gather G.
Proof. intros Hk. rewrite (gather_delete G k n Hk). multiset_solver. Qed.

(** The free entries of a table. *)
Definition count_free (l : list file) : nat := length (filter (fun f => f_ref f = 0) l).

Definition free_of (f : file) : nat := if decide (f_ref f = 0) then 1 else 0.
Lemma count_free_insert l k x y : l !! k = Some x -> (count_free (<[k := y]> l) + free_of x = count_free l + free_of y)%nat.
Proof.
  intros Hk. unfold count_free, free_of. rewrite <- (take_drop_middle l k x Hk) at 2. rewrite (insert_take_drop l k y) by (by eapply lookup_lt_Some).
  rewrite !filter_app, !length_app, !filter_cons. repeat case_decide; cbn [length]; lia.
Qed.

Lemma first_idx_ext {A B} (f : A -> bool) (h : B -> bool) l l' : Forall2 (fun x y => f x = h y) l l' -> first_idx f l = first_idx h l'.
Proof. induction 1 as [|x y l l' E _ IH]; cbn; [done|]. by rewrite E, IH. Qed.

Lemma size_dom_le (R : gmultiset Z) : (size (dom R) <= size R)%nat.
Proof.
  induction R as [|n R IH] using gmultiset_ind; [done|]. rewrite gmultiset_size_disj_union, gmultiset_size_singleton.
  pose proof (size_dom_add R n). rewrite (comm_L (⊎)). lia.
Qed.

Lemma count_free_some l : (0 < count_free l)%nat -> exists i, first_idx (fun f => f_ref f =? 0) l = Some i.
Proof.
  intros Hc. destruct (first_idx _ l) as [i|] eqn:Ei; [eauto|]. apply first_idx_none in Ei. unfold count_free in Hc.
  induction Ei as [|f l Hf _ IH]; [cbn in Hc; lia|]. apply Z.eqb_neq in Hf. rewrite filter_cons, decide_False in Hc by done. by apply IH.
Qed.

(** ** The console *)

(** The console works, nobody holds its lock, and the serial port sent [out]. *)
Record con_ok (out : list Z) (k : console) : Prop := {
  co_screen : screen_ok k;
  co_panic : panicked k = false;
  co_lock : cons_lock k = false;
  co_uart : uart k = true;
  co_out : uart_out k = out
}.

Lemma echo_con out k b : con_ok out k -> 0 <= b < 256 -> con_ok (out ++ [b]) (echo b k).
Proof.
  intros [H1 H2 H3 H4 <-] Hb. destruct (echo_frame b k) as (E1 & E2 & E3 & E4).
  split; [by apply echo_ok|congruence|congruence|..]; unfold echo; rewrite H4, (proj2 (Z.eqb_neq b BACKSPACE)) by (unfold BACKSPACE; lia).
  - unfold shown. by destruct (_ <=? _).
  - replace (u8 b) with b by (symmetry; by apply Z.mod_small). unfold shown. by destruct (_ <=? _).
Qed.

Lemma kputc_all l : forall out (s : kx), con_ok out (set_cons_lock false (con s)) -> Forall (fun b => 0 <= b < 256) l ->
  exists k, for_each l kputc s = Ret tt (set_con k s) /\ con_ok (out ++ l) (set_cons_lock false k) /\ cons_lock k = cons_lock (con s).
Proof.
  induction l as [|b l IH]; intros out s Hc Hl.
  - exists (con s). rewrite app_nil_r. split_and!; try done. by destruct s.
  - apply Forall_cons in Hl as [Hb Hl]. cbn [for_each].
    assert (consputc b (con s) = Ret tt (echo b (con s))) as E.
    { destruct Hc as [[H1 H1'] H2 _ _ _]. apply consputc_echo; [by split|done]. }
    assert (con_ok (out ++ [b]) (set_cons_lock false (echo b (con s)))) as Hc'.
    { replace (set_cons_lock false (echo b (con s))) with (echo b (set_cons_lock false (con s))); [by apply echo_con|].
      destruct s as [? ? ? ? ? ? ? ? ? ? ? [? ? ? ? ? [] ? ?]]; unfold echo, shown; cbn; by destruct (_ <=? _). }
    destruct (IH (out ++ [b]) (set_con (echo b (con s)) s) Hc' Hl) as (k & Ek & Hk & Hlk).
    exists k. unfold bind, kputc at 1, liftc, zoom. rewrite E. rewrite Ek. split_and!; [done|by rewrite <- app_assoc in Hk|].
    rewrite Hlk. cbn. apply echo_frame.
Qed.

(** ** The relation *)

Section kernel.
Context `{BlockDev} (g : geom) (Hg : geom_ok g) (sb : superblock) (Hly : layout g sb) (Hone : sb_size sb <= BPB) (kend : Z).
Context (v : key -> block) (L : gset Z) (HT : tree_ok g sb v L) (Hdev : g_dev g = ROOTDEV) (Hroot : ROOTINO ∈ L).
(** The process that runs, its current directory (the cache entry and the
    inode), and the references to inodes that are not its open files'. *)
Context (me cw : nat) (c : Z) (X : gmultiset Z) (HcX : c ∈ X).
Abbreviation FS := (M (fsst kx)).

Definition names (p : list Z) : named :=
  match walk g v false (start p c) (elems p) with
  | None => Missing
  | Some m => if d_type (dino g v m) =? T_DEV then Special else Bytes (file_data g v (dnode g v m))
  end.

Record reading (s : fsst kx) (fr : file) (m : Z) (d : list Z) (off : nat) : Prop := {
  rg_type : f_type fr = FD_INODE;
  rg_ref : f_ref fr = 1;
  rg_mode : f_readable fr = true /\ f_writable fr = false;
  rg_off : f_off fr = Z.of_nat off;
  rg_slot : at_slot s (f_ip fr) m;
  rg_file : m ∈ L /\ d_type (dino g v m) <> T_DEV;
  rg_data : d = file_data g v (dnode g v m);
  rg_le : (off <= length d)%nat
}.

Record terminal (s : fsst kx) (fr : file) : Prop := {
  tm_type : f_type fr = FD_INODE;
  tm_ref : 1 <= f_ref fr;
  tm_mode : f_writable fr = true;
  tm_slot : exists m, at_slot s (f_ip fr) m /\ m ∈ X /\ d_type (dino g v m) = T_DEV /\ d_major (dino g v m) = CONSOLE
}.

(** The file of a descriptor, what the abstract system says of it, and the inode
    whose reference it owns. *)
Definition fd_ok (s : fsst kx) (o : option nat) (x : option ofile) (n : option Z) : Prop :=
  match x with
  | None => o = None /\ n = None
  | Some (Reading d off) => exists f fr m, o = Some f /\ n = Some m /\ files (ext s) !! f = Some fr /\ reading s fr m d off
  | Some Terminal => exists f fr, o = Some f /\ n = None /\ files (ext s) !! f = Some fr /\ terminal s fr
  end.

Definition ofiles (x : kx) : list (option nat) := p_ofile (procs x !!! me).

Record kx_ok (x : kx) : Prop := {
  kx_cur : cur x = Some me;
  kx_proc : (me < length (procs x))%nat;
  kx_cwd : p_cwd (procs x !!! me) = Some cw;
  kx_ofile : length (ofiles x) = NOFILE;
  kx_lock : ft_lock x = false
}.

Record krep0 (G : list (option Z)) (s : fsst kx) (a : aos) : Prop := {
  ko_fs : frep g 0 s v [] ∅;
  ko_refs : crep g v L s (X ⊎ gather G) ∅;
  ko_cwd : at_slot s cw c;
  ko_x : kx_ok (ext s);
  ko_con : con_ok (a_out a) (con (ext s));
  ko_names : a_names a = names;
  ko_len : length (a_fds a) = NOFILE /\ length G = NOFILE;
  ko_fds i o x n : ofiles (ext s) !! i = Some o -> a_fds a !! i = Some x -> G !! i = Some n -> fd_ok s o x n;
  ko_own i j f d off : ofiles (ext s) !! i = Some (Some f) -> ofiles (ext s) !! j = Some (Some f) ->
    a_fds a !! i = Some (Some (Reading d off)) -> i = j;
  ko_left : (a_left a <= count_free (files (ext s)))%nat;
  ko_room : (size X + size (gather G) + a_left a + 1 <= NINODE)%nat
}.
Definition krep (s : fsst kx) (a : aos) : Prop := exists G, krep0 G s a.

(** ** Steps that do not concern the references *)

Lemma frep_put_ext o (s : fsst kx) ss x : frep g o s v ss ∅ -> frep g o (put_ext x s) v ss ∅.
Proof. by intros [A B C D F]. Qed.
Lemma crep_put_ext (s : fsst kx) x R K : crep g v L s R K -> crep g v L (put_ext x s) R K.
Proof. by apply crep_ic. Qed.
Lemma at_slot_put_ext (s : fsst kx) x k n : at_slot s k n -> at_slot (put_ext x s) k n.
Proof. done. Qed.
Lemma put_ext_ext (s : fsst kx) : put_ext (ext s) s = s.
Proof. by destruct s. Qed.

Lemma wp_liftk {A} (m : M kx A) (s : fsst kx) (Q : A -> fsst kx -> Prop) :
  wp m (ext s) (fun a x => Q a (put_ext x s)) -> wp (liftk m) s Q.
Proof. apply wp_zoom. Qed.

(** A descriptor that is not touched. *)
Lemma fd_ok_mono s s' R' o x n : slots_kept s s' R' -> X ⊆ R' -> (forall m, n = Some m -> m ∈ R') ->
  (forall f, o = Some f -> files (ext s') !! f = files (ext s) !! f) -> fd_ok s o x n -> fd_ok s' o x n.
Proof.
  intros Hs HX Hn Hf. destruct x as [[d off|]|]; [| |done].
  - intros (f & fr & m & -> & -> & E & [A1 A2 A3 A4 A5 A6 A7 A8]). exists f, fr, m. rewrite Hf by done.
    split_and!; [done..|]. split; try done. apply Hs; [done|by apply Hn].
  - intros (f & fr & -> & -> & E & [A1 A2 A3 (m & A4 & A5 & A6)]). exists f, fr. rewrite Hf by done.
    split_and!; [done..|]. split; try done. exists m. split; [|done]. apply Hs; [done|]. multiset_solver.
Qed.

Lemma fd_ok_ref s o x n f fr : fd_ok s o x n -> o = Some f -> files (ext s) !! f = Some fr -> 1 <= f_ref fr.
Proof.
  intros Hf -> E. destruct x as [[d off|]|]; [| |by destruct Hf].
  - destruct Hf as (f' & fr' & m & [= <-] & _ & E' & [_ A _ _ _ _ _ _]). simplify_eq. lia.
  - destruct Hf as (f' & fr' & [= <-] & _ & E' & [_ A _ _]). by simplify_eq.
Qed.

Lemma curproc_ok x : kx_ok x -> curproc x = Ret (procs x !!! me) x.
Proof. intros K. unfold curproc, myproc, get_proc, bind, gets. by rewrite (kx_cur _ K). Qed.

(** The descriptor of a call. *)
Lemma fd_file_ok x fd : kx_ok x ->
  fd_file fd x = Ret (if (fd <? 0) || (Z.of_nat NOFILE <=? fd) then None else pair (Z.to_nat fd) <$> ofiles x !!! Z.to_nat fd) x.
Proof.
  intros K. unfold fd_file. destruct ((fd <? 0) || _); [done|].
  unfold bind. by rewrite curproc_ok.
Qed.

Lemma wp_fd {A} G s a fd (k : option (nat * nat) -> FS A) (Q : A -> fsst kx -> Prop) : krep0 G s a ->
  match a_fd a fd with
  | None => wp (k None) s Q
  | Some x => forall f n, ofiles (ext s) !! Z.to_nat fd = Some (Some f) -> G !! Z.to_nat fd = Some n -> fd_ok s (Some f) (Some x) n ->
      wp (k (Some (Z.to_nat fd, f))) s Q
  end -> wp (bind (liftk (fd_file fd)) k) s Q.
Proof.
  intros K Hk. apply wp_bind, wp_liftk. eapply wp_of_eq; [apply fd_file_ok, K|]. rewrite put_ext_ext.
  destruct (ko_len _ _ _ K) as [Hl1 Hl2]. pose proof (kx_ofile _ (ko_x _ _ _ K)) as Hl3.
  unfold a_fd in Hk. destruct (Z.ltb_spec fd 0), (Z.leb_spec (Z.of_nat NOFILE) fd); cbn [orb] in *; try done.
  destruct (lookup_lt_is_Some_2 (ofiles (ext s)) (Z.to_nat fd)) as [o Ho]; [lia|].
  destruct (lookup_lt_is_Some_2 (a_fds a) (Z.to_nat fd)) as [x Hx]; [lia|].
  destruct (lookup_lt_is_Some_2 G (Z.to_nat fd)) as [n Hn]; [lia|].
  pose proof (ko_fds _ _ _ K _ _ _ _ Ho Hx Hn) as Hf. rewrite (list_lookup_total_correct _ _ _ Ho). rewrite Hx in Hk. cbn in Hk.
  destruct x as [x|]; cbn in Hk; [|by destruct Hf as [-> ->]].
  assert (exists f, o = Some f) as [f ->] by (destruct x as [d off|]; destruct Hf as (f & Hf); exists f; naive_solver).
  by apply (Hk f n).
Qed.

(** ** read *)

Abbreviation refs G := (X ⊎ gather G).

Lemma kept_own G k m : G !! k = Some (Some m) -> m ∈ refs G.
Proof. intros Hk%gather_elem. multiset_solver. Qed.

Lemma krep0_offset G s s' a f fr k d off off' : krep0 G s a -> ofiles (ext s) !! k = Some (Some f) -> files (ext s) !! f = Some fr ->
  a_fds a !! k = Some (Some (Reading d off)) -> frep g 0 s' v [] ∅ -> crep g v L s' (refs G) ∅ -> slots_kept s s' (refs G) ->
  ext s' = set_files (<[f := set_f_off (Z.of_nat off') fr]> (files (ext s))) (ext s) -> (off' <= length d)%nat ->
  krep0 G s' (a_set k (Some (Reading d off')) a).
Proof.
  intros K Hk Hf Ha F C S Ex Hle. pose proof K as [K1 K2 K3 K4 K5 K6 [K7 K7'] K8 K9 K10 K11].
  assert (ofiles (ext s') = ofiles (ext s)) as Eo by (by rewrite Ex).
  assert (exists m, G !! k = Some (Some m) /\ reading s fr m d off) as (m & Hm & [A1 A2 A3 A4 A5 A6 A7 A8]).
  { destruct (lookup_lt_is_Some_2 G k) as [n Hn]; [by apply lookup_lt_Some in Ha; lia|].
    destruct (K8 k _ _ n Hk Ha Hn) as (f' & fr' & m & [= <-] & -> & E & Hr). simplify_eq. eauto. }
  split; try done.
  - apply S; [done|]. multiset_solver.
  - rewrite Ex. by destruct K4.
  - by rewrite Ex.
  - cbn. by rewrite length_insert.
  - rewrite Eo. intros i o x n Ho Hx Hn. destruct (decide (i = k)) as [->|Hne].
    + simplify_eq. cbn in Hx. rewrite list_lookup_insert_eq in Hx by (by eapply lookup_lt_Some). injection Hx as <-.
      exists f, (set_f_off (Z.of_nat off') fr), m. rewrite Ex. cbn.
      rewrite list_lookup_insert_eq by (by eapply lookup_lt_Some). split_and!; [done..|]. split; try done.
      apply S; [done|by eapply kept_own].
    + cbn in Hx. rewrite list_lookup_insert_ne in Hx by done. eapply (fd_ok_mono s s' (refs G)); [done|multiset_solver| | |by eapply K8].
      * intros m' ->. by eapply kept_own.
      * intros f' ->. rewrite Ex. cbn. apply list_lookup_insert_ne. intros <-. by apply Hne; symmetry; eapply K9.
  - rewrite Eo. intros i j f' d' off'' Hi Hj Hx. cbn in Hx. destruct (decide (i = k)) as [->|Hne]; [by eapply K9|].
    rewrite list_lookup_insert_ne in Hx by done. by eapply K9.
  - rewrite Ex. cbn [files set_files a_left a_set]. pose proof (count_free_insert (files (ext s)) f fr (set_f_off (Z.of_nat off') fr) Hf) as Hc.
    change (free_of (set_f_off (Z.of_nat off') fr)) with (free_of fr) in Hc. lia.
Qed.

Lemma length_data m : m ∈ L -> Z.of_nat (length (file_data g v (dnode g v m))) = d_size (dino g v m) /\ 0 <= d_size (dino g v m) <= 71680.
Proof.
  intros Hm. pose proof (fo_size _ _ _ _ (lv_ok _ _ _ _ (to_live _ _ _ _ HT m Hm))) as Hs. rewrite length_file_data.
  change (i_size (dnode g v m)) with (d_size (dino g v m)) in *. change (MAXFILE * BSIZE) with 71680 in Hs. lia.
Qed.

Lemma fileread_ok G s a fd f n d off : krep0 G s a -> ofiles (ext s) !! fd = Some (Some f) ->
  a_fds a !! fd = Some (Some (Reading d off)) -> 0 <= n < 2 ^ 31 ->
  wp (fileread kdevsw f n) s (fun r s' => let b := take (Z.to_nat n) (drop off d) in
    r = (Z.of_nat (length b), b) /\ krep s' (a_set fd (Some (Reading d (off + length b))) a)).
Proof.
  intros K Hk Ha Hn. pose proof K as [K1 K2 K3 K4 K5 K6 [K7 K7'] K8 K9 K10 K11].
  destruct (lookup_lt_is_Some_2 G fd) as [x Hx]; [by apply lookup_lt_Some in Ha; lia|].
  destruct (K8 _ _ _ _ Hk Ha Hx) as (f' & fr & m & [= <-] & -> & Hf & [A1 A2 [A3 A3'] A4 A5 [A6 A6'] A7 A8]).
  destruct (length_data m A6) as [Hlen Hmax]. rewrite <- A7 in Hlen.
  set (b := take (Z.to_nat n) (drop off d)).
  assert (Z.of_nat (length b) = Z.min n (Z.of_nat (length d) - Z.of_nat off)) as Hb.
  { unfold b. rewrite length_take, length_drop. lia. }
  unfold fileread. apply wp_bind, wp_liftk, wp_gets. rewrite put_ext_ext, (list_lookup_total_correct _ _ _ Hf), A3, A1. cbn [negb].
  eapply wp_seq; [apply (ilock_refs g Hg 0 sb Hly Hone v L (to_live _ _ _ _ HT) s [] _ ∅ (f_ip fr) m K1 K2 A5); set_solver|].
  intros [] s1 (P1 & Hat1 & Hl1). pose proof P1 as (F1 & C1 & S1 & X1).
  assert (i_size (inode_of s1 (f_ip fr)) = d_size (dino g v m)) as Esz by (by rewrite <- (lk_dinode _ _ _ _ _ Hl1)).
  eapply wp_seq.
  { apply (readi_fs g Hg 0 sb Hly Hone kdevsw s1 v [] (f_ip fr) (f_off fr) (u32 n) F1); [apply Hl1| |lia|rewrite u32_small; lia].
    intros Hty. apply A6'. by rewrite <- (lk_dinode _ _ _ _ _ Hl1). }
  intros r s2 (F2 & Hk2 & ->). rewrite u32_small, A4, Esz by lia.
  rewrite (proj2 (Z.ltb_ge (d_size (dino g v m)) (Z.of_nat off))), (proj2 (Z.leb_gt (2 ^ 32) _)) by lia. cbn [orb].
  rewrite (lk_data _ _ _ _ _ Hl1), <- A7, Nat2Z.id. change (slice off (Z.to_nat n) d) with b.
  rewrite <- Hlen, <- Hb. cbn [fst snd].
  set (x3 := set_files (<[f := set_f_off (Z.of_nat (off + length b)) fr]> (files (ext s))) (ext s)).
  eapply (wp_seq _ _ s2 (fun _ s3 => s3 = put_ext x3 s2)).
  { assert (ext s2 = ext s) as X2 by (rewrite (fk_ext _ _ Hk2); done). unfold when. destruct (Z.ltb_spec 0 (Z.of_nat (length b))).
    - apply wp_liftk, wp_modify. unfold x3. rewrite X2. do 2 f_equal. rewrite (list_lookup_total_correct _ _ _ Hf).
      rewrite u32_small by lia. f_equal. f_equal. lia.
    - apply wp_ret. unfold x3. replace (off + length b)%nat with off by lia. rewrite list_insert_id.
      + rewrite <- X2. destruct s2 as [? ? []]; done.
      + rewrite Hf. f_equal. rewrite <- A4. by destruct fr. }
  intros [] s3 ->.
  eapply wp_seq; [apply (iunlock_refs g Hg 0 sb Hly Hone v L (to_live _ _ _ _ HT) (put_ext x3 s2) [] (refs G) ({[m]} ∪ ∅) (f_ip fr) m)|].
  { by apply frep_put_ext. }
  { apply crep_put_ext. by eapply crep_ic; [apply (fk_ic _ _ Hk2)|]. }
  { apply at_slot_put_ext. by eapply at_slot_ic; [apply (fk_ic _ _ Hk2)|]. }
  { set_solver. }
  intros [] s4 ((F4 & C4 & S4 & X4) & Hat4). apply wp_ret. split; [done|]. exists G.
  replace (({[m]} ∪ ∅) ∖ {[m]}) with (∅ : gset Z) in C4 by set_solver.
  eapply (krep0_offset G s s4 a f fr fd d off); try done.
  - intros j k Hj Hin. apply S4; [|done]. apply at_slot_put_ext. eapply at_slot_ic; [apply (fk_ic _ _ Hk2)|]. by apply S1.
  - apply Nat2Z.inj_le. lia.
Qed.

Lemma kread_ok G s a fd n x a' : krep0 G s a -> astep (Read fd n) a = Some (x, a') ->
  wp (ksys kend _ (Read fd n)) s (fun y s' => y = x /\ krep s' a').
Proof.
  intros K. cbn [astep]. destruct (Z.ltb_spec n 0), (Z.leb_spec (2 ^ 31) n); cbn [orb]; try done.
  intros Ha. unfold ksys, on_fd. eapply wp_fd; [exact K|]. destruct (a_fd a fd) as [[d off|]|] eqn:Ef; [|done|].
  - injection Ha as <- <-. intros f m Hf _ _. eapply wp_conseq; [apply (fileread_ok G s a (Z.to_nat fd) f n d off K Hf); [by apply a_fd_Some in Ef as [_ ?]|lia]|].
    done.
  - injection Ha as <- <-. apply wp_ret. split; [done|by exists G].
Qed.

(** ** write *)

Lemma putall_ok (x : kx) out l : con_ok out (con x) -> Forall (fun b => 0 <= b < 256) l ->
  exists k, (acquire_cons ;; for_each l kputc ;; release_cons) x = Ret tt (set_con k x) /\ con_ok (out ++ l) k.
Proof.
  intros Hc Hl. set (x1 := set_con (set_cons_lock true (con x)) x).
  assert (con_ok out (set_cons_lock false (con x1))) as Hc1 by (destruct Hc as [[] ? ? ? ?]; by split).
  destruct (kputc_all l out x1 Hc1 Hl) as (k & Ek & Hk & Hlk). exists (set_cons_lock false k). split; [|done].
  unfold acquire_cons, acquire, release_cons, release, bind, gets, modify. rewrite (co_lock _ _ Hc). fold x1. rewrite Ek.
  cbn [con set_con]. by rewrite Hlk.
Qed.

(** The files of the process after steps that keep the references [R]. *)
Definition refs_at (o : Z) (s : fsst kx) (R : gmultiset Z) (K : gset Z) (s' : fsst kx) : Prop :=
  frep g o s' v [] ∅ /\ crep g v L s' R K /\ slots_kept s s' R.

Lemma refs_at_trans o o' s1 s2 s3 R K K' : refs_at o s1 R K s2 -> refs_at o' s2 R K' s3 -> refs_at o' s1 R K' s3.
Proof. intros (_ & _ & S1) (F & C & S2). split_and!; try done. intros j m Hj Hm. apply S2; [by apply S1|done]. Qed.
Lemma refs_at_keep o s s' R K : frep g o s' v [] ∅ -> crep g v L s R K -> ic s' = ic s -> refs_at o s R K s'.
Proof.
  intros F C E. split_and!; [done|by eapply crep_ic|]. intros j m Hj _. by eapply at_slot_ic.
Qed.
Lemma refs_at_post o s s' R K : refs_post g o v L s [] R K s' -> refs_at o s R K s' /\ ext s' = ext s.
Proof. by intros (F & C & S & Ex). Qed.

Lemma consolewrite_ok s R m ip src n out : frep g 1 s v [] ∅ -> crep g v L s R ({[m]} ∪ ∅) -> at_slot s ip m ->
  con_ok out (con (ext s)) -> Forall (fun b => 0 <= b < 256) (take (Z.to_nat n) src) ->
  wp (consolewrite ip src n) s (fun r s' => r = n /\ refs_at 1 s R ({[m]} ∪ ∅) s' /\ at_slot s' ip m /\
    exists k, ext s' = set_con k (ext s) /\ con_ok (out ++ take (Z.to_nat n) src) k).
Proof.
  intros F C Hat Hc Hb. unfold consolewrite.
  eapply wp_seq; [apply (iunlock_refs g Hg 1 sb Hly Hone v L (to_live _ _ _ _ HT) s [] R _ ip m F C Hat); set_solver|].
  intros [] s1 (P1 & Hat1). destruct (refs_at_post _ _ _ _ _ P1) as [Q1 X1].
  replace (({[m]} ∪ ∅) ∖ {[m]}) with (∅ : gset Z) in Q1 by set_solver. pose proof Q1 as (F1 & C1 & _).
  rewrite <- X1 in Hc. destruct (putall_ok (ext s1) out _ Hc Hb) as (k & Ek & Hk).
  apply wp_bind, wp_liftk. eapply wp_of_eq; [exact Ek|].
  pose proof (refs_at_keep 1 s1 (put_ext (set_con k (ext s1)) s1) R ∅ (frep_put_ext 1 s1 [] _ F1) C1 eq_refl) as Q2.
  pose proof Q2 as (F2 & C2 & _).
  eapply wp_seq; [apply (ilock_refs g Hg 1 sb Hly Hone v L (to_live _ _ _ _ HT) _ [] R ∅ ip m F2 C2 Hat1); set_solver|].
  intros [] s3 (P3 & Hat3 & _). destruct (refs_at_post _ _ _ _ _ P3) as [Q3 X3]. apply wp_ret. split_and!; [done| |done|].
  - eapply refs_at_trans; [exact Q1|]. exact (refs_at_trans _ _ _ _ _ _ _ _ Q2 Q3).
  - exists k. split; [|done]. rewrite X3. cbn. by rewrite X1.
Qed.

(** The state after a write to the terminal. *)
Lemma krep0_print G s s' a b f fr off k : krep0 G s a -> files (ext s) !! f = Some fr -> terminal s fr -> refs_at 0 s (refs G) ∅ s' ->
  ext s' = set_files (<[f := set_f_off off fr]> (files (ext s))) (set_con k (ext s)) -> con_ok (a_out a ++ b) k ->
  krep0 G s' (a_print b a).
Proof.
  intros K Hf Htm (F & C & S) Ex Hk. pose proof K as [K1 K2 K3 K4 K5 K6 [K7 K7'] K8 K9 K10 K11].
  assert (ofiles (ext s') = ofiles (ext s)) as Eo by (by rewrite Ex).
  split; try done.
  - apply S; [done|]. multiset_solver.
  - rewrite Ex. by destruct K4.
  - by rewrite Ex.
  - rewrite Eo. intros i o x n Ho Hx Hn. pose proof (K8 i o x n Ho Hx Hn) as Hfd. destruct (decide (o = Some f)) as [->|Hne].
    + destruct x as [[d off'|]|].
      * destruct Hfd as (f' & fr' & m & [= <-] & -> & E & [_ _ [_ Hw] _ _ _ _ _]). rewrite Hf in E. injection E as <-.
        rewrite (tm_mode _ _ Htm) in Hw. done.
      * destruct Hfd as (f' & fr' & [= <-] & -> & E & _). exists f, (set_f_off off fr). rewrite Ex. cbn.
        rewrite list_lookup_insert_eq by (by eapply lookup_lt_Some). split_and!; [done..|].
        destruct Htm as [A1 A2 A3 (m & A4 & A5 & A6)]. split; try done. exists m. split; [|done]. apply S; [done|]. multiset_solver.
      * by destruct Hfd.
    + eapply (fd_ok_mono s s' (refs G)); [done|multiset_solver| | |done].
      * intros m' ->. by eapply kept_own.
      * intros f' ->. rewrite Ex. cbn. apply list_lookup_insert_ne. congruence.
  - by rewrite Eo.
  - rewrite Ex. cbn [files set_files set_con a_left a_print]. pose proof (count_free_insert (files (ext s)) f fr (set_f_off off fr) Hf) as Hc.
    change (free_of (set_f_off off fr)) with (free_of fr) in Hc. lia.
Qed.

Lemma bytes_ok_Forall b : bytes_ok b = true -> Forall (fun x => 0 <= x < 256) b.
Proof.
  intros Hb. apply Forall_forall. intros x Hx%list_elem_of_In. unfold bytes_ok in Hb. rewrite forallb_forall in Hb.
  specialize (Hb x Hx). lia.
Qed.

(** [writei] to the console, of a locked inode. *)
Lemma writei_console s R m ip src off n out : frep g 1 s v [] ∅ -> crep g v L s R ({[m]} ∪ ∅) -> at_slot s ip m ->
  d_type (dino g v m) = T_DEV -> d_major (dino g v m) = CONSOLE ->
  con_ok out (con (ext s)) -> Forall (fun b => 0 <= b < 256) (take (Z.to_nat n) src) ->
  wp (writei kdevsw ip src off n) s (fun r s' => r = n /\ refs_at 1 s R ({[m]} ∪ ∅) s' /\ at_slot s' ip m /\
    exists k, ext s' = set_con k (ext s) /\ con_ok (out ++ take (Z.to_nat n) src) k).
Proof.
  intros F C Hat Ht Hm Hc Hb.
  pose proof (locked_inode g sb v L (to_live _ _ _ _ HT) s R ({[m]} ∪ ∅) ip m C Hat ltac:(set_solver)) as Hl.
  unfold writei. apply wp_bind, wp_gets.
  assert (i_type (inode_of s ip) = T_DEV) as -> by (by rewrite <- Ht, <- (lk_dinode _ _ _ _ _ Hl)).
  assert (i_major (inode_of s ip) = CONSOLE) as -> by (by rewrite <- Hm, <- (lk_dinode _ _ _ _ _ Hl)).
  change (T_DEV =? T_DEV) with true. change ((CONSOLE <? 0) || (NDEV <=? CONSOLE)) with false. cbn [dv_write kdevsw].
  change (CONSOLE =? CONSOLE) with true. cbn [dv_write]. by apply consolewrite_ok.
Qed.

(** The round of [filewrite] that writes to the terminal. *)
Lemma terminal_round {A} G s a b f fr (cont : Z -> FS A) (Q : A -> fsst kx -> Prop) :
  krep0 G s a -> files (ext s) !! f = Some fr -> terminal s fr -> bytes_ok b = true ->
  (forall s', krep0 G s' (a_print b a) -> wp (cont (Z.of_nat (length b))) s' Q) ->
  wp (liftl begin_op ;;
      ilock (f_ip fr) ;;
      x <- liftk (get_file f) ;;
      r <- writei kdevsw (f_ip fr) b (f_off x) (Z.of_nat (length b)) ;;
      when (0 <? r) (liftk (upd_file f (fun x => set_f_off (u32 (f_off x + r)) x))) ;;
      iunlock (f_ip fr) ;;
      liftl end_op ;;
      cont r) s Q.
Proof.
  intros K Hf Htm Hb Hcont. pose proof K as [K1 K2 K3 K4 K5 K6 [K7 K7'] K8 K9 K10 K11]. pose proof Htm as [A1 A2 A3 (m & A4 & A5 & A6 & A7)].
  pose proof (to_live _ _ _ _ HT) as HL.
  eapply wp_seq; [by apply (begin_op_fs g)|]. intros [] s1 (F1 & Hk1).
  pose proof (refs_at_keep 1 s s1 (refs G) ∅ F1 K2 (fk_ic _ _ Hk1)) as Q1. pose proof Q1 as (_ & C1 & _).
  assert (at_slot s1 (f_ip fr) m) as Hat1 by (by eapply at_slot_ic; [apply (fk_ic _ _ Hk1)|]).
  eapply wp_seq; [apply (ilock_refs g Hg 1 sb Hly Hone v L HL s1 [] (refs G) ∅ (f_ip fr) m F1 C1 Hat1); set_solver|].
  intros [] s2 (P2 & Hat2 & _). destruct (refs_at_post _ _ _ _ _ P2) as [Q2 X2]. rewrite (fk_ext _ _ Hk1) in X2. pose proof Q2 as (F2 & C2 & _).
  apply wp_bind, wp_liftk, wp_gets. rewrite put_ext_ext, X2, (list_lookup_total_correct _ _ _ Hf).
  assert (take (Z.to_nat (Z.of_nat (length b))) b = b) as Et by (by rewrite Nat2Z.id, firstn_all).
  eapply wp_seq.
  { apply (writei_console s2 (refs G) m (f_ip fr) b (f_off fr) (Z.of_nat (length b)) (a_out a)); try done; [by rewrite X2|].
    rewrite Et. by apply bytes_ok_Forall. }
  intros r s3 (-> & Q3 & Hat3 & k & X3 & Hk). rewrite Et in Hk. rewrite X2 in X3.
  set (off' := if 0 <? Z.of_nat (length b) then u32 (f_off fr + Z.of_nat (length b)) else f_off fr).
  set (x4 := set_files (<[f := set_f_off off' fr]> (files (ext s))) (set_con k (ext s))).
  eapply (wp_seq _ _ s3 (fun _ s4 => s4 = put_ext x4 s3)).
  { unfold when, x4, off'. destruct (0 <? Z.of_nat (length b)).
    - apply wp_liftk, wp_modify. rewrite X3. cbn [files set_con]. by rewrite (list_lookup_total_correct _ _ _ Hf).
    - apply wp_ret. rewrite list_insert_id by (rewrite Hf; by destruct fr).
      replace (set_files (files (ext s)) (set_con k (ext s))) with (ext s3) by (rewrite X3; by destruct (ext s)). by rewrite put_ext_ext. }
  intros [] s4 ->. pose proof Q3 as (F3 & C3 & _).
  pose proof (refs_at_keep 1 s3 (put_ext x4 s3) (refs G) _ (frep_put_ext 1 s3 [] x4 F3) C3 eq_refl) as Q4. pose proof Q4 as (F4 & C4 & _).
  eapply wp_seq; [apply (iunlock_refs g Hg 1 sb Hly Hone v L HL (put_ext x4 s3) [] (refs G) _ (f_ip fr) m F4 C4 Hat3); set_solver|].
  intros [] s5 (P5 & Hat5). destruct (refs_at_post _ _ _ _ _ P5) as [Q5 X5].
  replace (({[m]} ∪ ∅) ∖ {[m]}) with (∅ : gset Z) in Q5 by set_solver. pose proof Q5 as (F5 & C5 & _).
  eapply wp_seq; [apply (end_op_fs g Hg s5 v [] F5)|]. intros [] s6 (v' & F6 & _ & I6 & X6 & Hv'). rewrite (Hv' eq_refl) in F6.
  apply Hcont. eapply (krep0_print G s s6 a b f fr off' k); try done.
  - apply (refs_at_trans _ _ _ _ _ _ _ _ Q1), (refs_at_trans _ _ _ _ _ _ _ _ Q2), (refs_at_trans _ _ _ _ _ _ _ _ Q3),
      (refs_at_trans _ _ _ _ _ _ _ _ Q4), (refs_at_trans _ _ _ _ _ _ _ _ Q5). by apply refs_at_keep.
  - by rewrite X6, X5.
Qed.

Lemma filewrite_ok G s a b f fr : krep0 G s a -> files (ext s) !! f = Some fr -> terminal s fr -> bytes_ok b = true ->
  Z.of_nat (length b) <= WRITE_MAX ->
  wp (filewrite kdevsw f b (Z.of_nat (length b))) s (fun r s' => r = Z.of_nat (length b) /\ krep0 G s' (a_print b a)).
Proof.
  intros K Hf Htm Hb Hlen. pose proof Htm as [A1 A2 A3 _]. unfold filewrite. apply wp_bind, wp_liftk, wp_gets.
  rewrite put_ext_ext, (list_lookup_total_correct _ _ _ Hf), A3, A1, Nat2Z.id. cbn [negb].
  destruct (length b) as [|n] eqn:En.
  { apply nil_length_inv in En as ->. cbn. apply wp_ret. rewrite a_print_nil. done. }
  cbn [filewrite_loop]. rewrite (proj2 (Z.ltb_lt 0 _)), Z.sub_0_r by lia.
  assert (FILEMAX <? Z.of_nat (S n) = false) as -> by (apply Z.ltb_ge; exact Hlen). rewrite <- En.
  change (drop (Z.to_nat 0) b) with b. apply wp_bind. apply (terminal_round G s a b f fr); try done. intros s' K'.
  rewrite (proj2 (Z.ltb_ge (Z.of_nat (length b)) 0)), Z.eqb_refl by lia. cbn [negb]. rewrite Z.add_0_l.
  assert (forall k src, filewrite_loop kdevsw k f (f_ip fr) src (Z.of_nat (length b)) (Z.of_nat (length b)) = ret (Z.of_nat (length b))) as E.
  { intros k src. destruct k; cbn [filewrite_loop]; by rewrite Z.ltb_irrefl. }
  rewrite E. apply wp_ret, wp_ret. by rewrite Z.eqb_refl.
Qed.

Lemma kwrite_ok G s a fd b x a' : krep0 G s a -> astep (Write fd b) a = Some (x, a') ->
  wp (ksys kend _ (Write fd b)) s (fun y s' => y = x /\ krep s' a').
Proof.
  intros K. cbn [astep]. intros Ha. unfold ksys, on_fd. eapply wp_fd; [exact K|]. destruct (a_fd a fd) as [[d off|]|] eqn:Ef.
  - injection Ha as <- <-. intros f m Hf _ (f' & fr & m' & [= <-] & _ & E & [_ _ [_ Hw] _ _ _ _ _]).
    unfold filewrite. apply wp_bind, wp_liftk, wp_gets. rewrite put_ext_ext, (list_lookup_total_correct _ _ _ E), Hw. cbn [negb].
    apply wp_ret. split; [done|by exists G].
  - destruct (bytes_ok b) eqn:Hb, (Z.leb_spec (Z.of_nat (length b)) WRITE_MAX); cbn [andb] in Ha; try done. injection Ha as <- <-.
    intros f m Hf _ (f' & fr & [= <-] & _ & E & Htm). eapply wp_conseq; [by apply (filewrite_ok G s a b f fr)|].
    intros r s' [-> K']. split; [done|by exists G].
  - injection Ha as <- <-. apply wp_ret. split; [done|by exists G].
Qed.

(** ** close *)

Definition set_ofile (k : nat) (o : option nat) (x : kx) : kx :=
  set_procs (<[me := set_p_ofile (<[k := o]> (ofiles x)) (procs x !!! me)]> (procs x)) x.

Lemma set_fd_ok k o x : kx_ok x -> set_fd k o x = Ret tt (set_ofile k o x).
Proof. intros K. unfold set_fd, myproc, upd_proc, bind, gets, modify. by rewrite (kx_cur _ K). Qed.

Lemma ofiles_set k o x : kx_ok x -> ofiles (set_ofile k o x) = <[k := o]> (ofiles x).
Proof. intros K. unfold ofiles, set_ofile. cbn. rewrite list_lookup_total_insert_eq by apply K. done. Qed.

Lemma kx_ok_set k o x l : kx_ok x -> kx_ok (set_files l (set_ofile k o x)).
Proof.
  intros K. pose proof (ofiles_set k o x K) as E. destruct K as [K1 K2 K3 K4 K5]. split; try done.
  - cbn. by rewrite length_insert.
  - cbn. rewrite list_lookup_total_insert_eq by done. done.
  - change (length (ofiles (set_ofile k o x)) = NOFILE). by rewrite E, length_insert.
Qed.

Definition closed (fr : file) : file := mkfile FD_NONE 0 (f_readable fr) (f_writable fr) (f_pipe fr) (f_ip fr) (f_off fr).

Lemma fileclose_last f fr x : ft_lock x = false -> files x !! f = Some fr -> f_ref fr = 1 ->
  fileclose_ref f x = Ret (Some (set_f_ref 0 fr)) (set_files (<[f := closed fr]> (files x)) x).
Proof.
  intros Hl Hf Hr. unfold fileclose_ref, acquire_ftable, acquire, release_ftable, release, get_file, upd_file, bind, gets, modify.
  rewrite Hl. cbn. rewrite (list_lookup_total_correct _ _ _ Hf), Hr. change (0 <? 1 - 1) with false. cbn.
  rewrite list_lookup_total_insert_eq by (by eapply lookup_lt_Some). cbn. rewrite list_insert_insert_eq.
  rewrite (list_lookup_total_correct _ _ _ Hf). unfold ret. f_equal. destruct x. cbn in Hl. by subst.
Qed.

Lemma krep0_close G s s' a f fr m k d off : krep0 G s a -> ofiles (ext s) !! k = Some (Some f) -> files (ext s) !! f = Some fr ->
  a_fds a !! k = Some (Some (Reading d off)) -> G !! k = Some (Some m) -> f_ref fr = 1 ->
  refs_at 0 s (refs (<[k := None]> G)) ∅ s' -> ext s' = set_files (<[f := closed fr]> (files (ext s))) (set_ofile k None (ext s)) ->
  krep0 (<[k := None]> G) s' (a_leave (S (a_left a)) (a_set k None a)).
Proof.
  intros K Hk Hf Ha Hm Hr (F & C & S) Ex. pose proof K as [K1 K2 K3 K4 K5 K6 [K7 K7'] K8 K9 K10 K11].
  assert (ofiles (ext s') = <[k := None]> (ofiles (ext s))) as Eo by (rewrite Ex; by apply ofiles_set).
  pose proof (lookup_lt_Some _ _ _ Hk) as Hlt.
  split; try done.
  - apply S; [done|]. multiset_solver.
  - rewrite Ex. by apply kx_ok_set.
  - by rewrite Ex.
  - cbn. by rewrite !length_insert.
  - rewrite Eo. intros i o x n Ho Hx Hn. cbn in Hx. destruct (decide (i = k)) as [->|Hne].
    + rewrite list_lookup_insert_eq in Ho by lia. rewrite list_lookup_insert_eq in Hx by (apply lookup_lt_Some in Ha; lia). rewrite list_lookup_insert_eq in Hn by (apply lookup_lt_Some in Hm; lia). by simplify_eq.
    + rewrite list_lookup_insert_ne in Ho by done. rewrite list_lookup_insert_ne in Hx by done. rewrite list_lookup_insert_ne in Hn by done.
      eapply (fd_ok_mono s s' (refs (<[k := None]> G))); [done|multiset_solver| | |by eapply K8].
      * intros m' ->. apply (kept_own _ i). by rewrite list_lookup_insert_ne.
      * intros f' ->. rewrite Ex. cbn. apply list_lookup_insert_ne. intros <-. by apply Hne; symmetry; eapply K9.
  - rewrite Eo. intros i j f' d' off' Hi Hj Hx. cbn in Hx. apply list_lookup_insert_Some in Hi as [?|[Hi1 Hi2]]; [naive_solver|].
    apply list_lookup_insert_Some in Hj as [?|[Hj1 Hj2]]; [naive_solver|]. rewrite list_lookup_insert_ne in Hx by done. by eapply K9.
  - rewrite Ex. cbn [files set_files a_left a_leave]. pose proof (count_free_insert (files (ext s)) f fr (closed fr) Hf) as Hc.
    assert (free_of fr = 0%nat) as E0 by (unfold free_of; by rewrite decide_False by lia). change (free_of (closed fr)) with 1%nat in Hc. lia.
  - rewrite (gather_delete G k m Hm), gmultiset_size_disj_union, gmultiset_size_singleton in K11. cbn. lia.
Qed.

Lemma kclose_ok G s a fd x a' : krep0 G s a -> astep (Close fd) a = Some (x, a') ->
  wp (ksys kend _ (Close fd)) s (fun y s' => y = x /\ krep s' a').
Proof.
  intros K. cbn [astep]. intros Ha. unfold ksys. eapply wp_fd; [exact K|]. destruct (a_fd a fd) as [[d off|]|] eqn:Ef; [|done|].
  2:{ injection Ha as <- <-. apply wp_ret. split; [done|by exists G]. }
  injection Ha as <- <-. intros f n Hk HG (f' & fr & m & [= <-] & -> & Hf & [A1 A2 A3 A4 A5 A6 A7 A8]).
  apply a_fd_Some in Ef as [_ Ha]. set (k := Z.to_nat fd) in *. pose proof K as [K1 K2 K3 K4 K5 K6 [K7 K7'] K8 K9 K10 K11].
  unfold do_close. apply wp_bind, wp_liftk. eapply wp_of_eq; [by apply set_fd_ok|].
  unfold fileclose. apply wp_bind, wp_bind, wp_liftk. eapply wp_of_eq; [apply (fileclose_last f fr); [apply K4|done|done]|].
  cbn [f_type set_f_ref f_ip]. rewrite A1. cbn [ext put_ext files]. set (x2 := set_files _ _). set (s2 := put_ext x2 _).
  assert (refs_at 0 s (refs G) ∅ s2) as Q2 by (apply refs_at_keep; [by do 2 apply frep_put_ext|done|done]). pose proof Q2 as (F2 & C2 & _).
  eapply wp_seq; [by apply (begin_op_fs g s2 v)|]. intros [] s3 (F3 & Hk3).
  pose proof (refs_at_keep 1 s2 s3 (refs G) ∅ F3 C2 (fk_ic _ _ Hk3)) as Q3. pose proof Q3 as (_ & C3 & _).
  assert (at_slot s3 (f_ip fr) m) as Hat3 by (by eapply at_slot_ic; [apply (fk_ic _ _ Hk3)|]).
  eapply wp_seq; [apply (iput_refs g 1 sb v L (to_live _ _ _ _ HT) s3 [] (refs G) ∅ (f_ip fr) m F3 C3 Hat3); set_solver|].
  intros [] s4 P4. destruct (refs_at_post _ _ _ _ _ P4) as [Q4 X4].
  replace (refs G ∖ {[+ m +]}) with (refs (<[k := None]> G)) in Q4 by (rewrite (gather_delete G k m HG); multiset_solver).
  pose proof Q4 as (F4 & C4 & S4).
  eapply wp_conseq; [apply (end_op_fs g Hg s4 v [] F4)|]. intros [] s5 (v' & F5 & _ & I5 & X5 & Hv'). rewrite (Hv' eq_refl) in F5.
  apply wp_ret. split; [done|]. exists (<[k := None]> G). eapply (krep0_close G s s5 a f fr m k d off); try done.
  - split_and!; [done|by eapply crep_ic|]. intros j n Hj Hn. eapply at_slot_ic; [exact I5|]. apply S4; [|done].
    eapply at_slot_ic; [apply (fk_ic _ _ Hk3)|]. done.
  - rewrite X5, X4, (fk_ext _ _ Hk3). done.
Qed.

(** ** open *)

Lemma free_fd_ofile G s a k : krep0 G s a -> free_fd (a_fds a) = Some k ->
  first_idx (fun o => negb (bool_decide (is_Some o))) (take NOFILE (ofiles (ext s))) = Some k.
Proof.
  intros K Hk. rewrite take_ge by (rewrite (kx_ofile _ (ko_x _ _ _ K)); lia). rewrite <- Hk. destruct (ko_len _ _ _ K) as [Hl1 Hl2].
  pose proof (kx_ofile _ (ko_x _ _ _ K)) as Hl3. apply first_idx_ext, Forall2_same_length_lookup_2; [congruence|].
  intros i o x Ho Hx. destruct (lookup_lt_is_Some_2 G i) as [n Hn]; [apply lookup_lt_Some in Hx; lia|].
  pose proof (ko_fds _ _ _ K i o x n Ho Hx Hn) as Hf. destruct x as [[d off|]|].
  - by destruct Hf as (f & fr & m & -> & _).
  - by destruct Hf as (f & fr & -> & _).
  - by destruct Hf as [-> _].
Qed.

Definition opened (fr : file) (ip : nat) : file := mkfile FD_INODE 1 true false (f_pipe fr) ip 0.

Lemma filealloc_ok x f fr : ft_lock x = false -> first_idx (fun f => f_ref f =? 0) (files x) = Some f -> files x !! f = Some fr ->
  filealloc x = Ret (Some f) (set_files (<[f := set_f_ref 1 fr]> (files x)) x).
Proof.
  intros Hl Hi Hf. unfold filealloc, acquire_ftable, acquire, release_ftable, release, upd_file, bind, gets, modify.
  rewrite Hl. cbn. rewrite Hi. cbn. rewrite (list_lookup_total_correct _ _ _ Hf). unfold ret. f_equal. destruct x. cbn in Hl. by subst.
Qed.

Lemma fdalloc_ok x f k : kx_ok x -> first_idx (fun o => negb (bool_decide (is_Some o))) (take NOFILE (ofiles x)) = Some k ->
  fdalloc f x = Ret (Some k) (set_ofile k (Some f) x).
Proof.
  intros K Hk. unfold fdalloc. unfold bind at 1. rewrite curproc_ok by done.
  change (p_ofile (procs x !!! me)) with (ofiles x). rewrite Hk. unfold bind. by rewrite set_fd_ok.
Qed.

Lemma krep0_open G s s' a f fr m k n ip : krep0 G s a -> files (ext s) !! f = Some fr -> f_ref fr = 0 ->
  free_fd (a_fds a) = Some k -> a_left a = S n -> m ∈ L -> d_type (dino g v m) <> T_DEV -> at_slot s' ip m ->
  frep g 0 s' v [] ∅ -> crep g v L s' (refs G ⊎ {[+ m +]}) ∅ -> slots_kept s s' (refs G) ->
  ext s' = set_files (<[f := opened fr ip]> (files (ext s))) (set_ofile k (Some f) (ext s)) ->
  krep0 (<[k := Some m]> G) s' (a_leave n (a_set k (Some (Reading (file_data g v (dnode g v m)) 0)) a)).
Proof.
  intros K Hf Hr Hk Hleft HmL Hty Hat F C S Ex. pose proof K as [K1 K2 K3 K4 K5 K6 [K7 K7'] K8 K9 K10 K11].
  pose proof (free_fd_None _ _ Hk) as Hnone. pose proof (lookup_lt_Some _ _ _ Hnone) as Hlt.
  assert (ofiles (ext s') = <[k := Some f]> (ofiles (ext s))) as Eo by (rewrite Ex; by apply ofiles_set).
  assert (G !! k = Some None) as HGk.
  { destruct (lookup_lt_is_Some_2 G k) as [x Hx]; [lia|]. destruct (lookup_lt_is_Some_2 (ofiles (ext s)) k) as [o Ho]; [rewrite (kx_ofile _ K4); lia|].
    by destruct (K8 k o None x Ho Hnone Hx) as [_ ->]. }
  assert (forall i o x nn, ofiles (ext s) !! i = Some o -> a_fds a !! i = Some x -> G !! i = Some nn -> o <> Some f) as Hfresh.
  { intros i o x nn Ho Hx Hn ->. pose proof (fd_ok_ref s _ x nn f fr (K8 i _ x nn Ho Hx Hn) eq_refl Hf). lia. }
  split; try done.
  - rewrite (gather_insert G k m HGk). by rewrite (assoc_L (⊎)).
  - apply S; [done|]. multiset_solver.
  - rewrite Ex. by apply kx_ok_set.
  - by rewrite Ex.
  - cbn. by rewrite !length_insert.
  - rewrite Eo. intros i o x nn Ho Hx Hn. cbn in Hx. destruct (decide (i = k)) as [->|Hne].
    + rewrite list_lookup_insert_eq in Ho by (rewrite (kx_ofile _ K4); lia). rewrite list_lookup_insert_eq in Hx by lia.
      rewrite list_lookup_insert_eq in Hn by lia. simplify_eq. exists f, (opened fr ip), m. rewrite Ex. cbn.
      rewrite list_lookup_insert_eq by (by eapply lookup_lt_Some). split_and!; [done..|]. split; try done. cbn. lia.
    + rewrite list_lookup_insert_ne in Ho by done. rewrite list_lookup_insert_ne in Hx by done. rewrite list_lookup_insert_ne in Hn by done.
      eapply (fd_ok_mono s s' (refs G)); [done|multiset_solver| | |by eapply K8].
      * intros m' ->. by eapply kept_own.
      * intros f' ->. rewrite Ex. cbn. apply list_lookup_insert_ne. intros <-. by eapply Hfresh.
  - rewrite Eo. intros i j f' d' off' Hi Hj Hx. cbn in Hx.
    assert (forall i', i' <> k -> ofiles (ext s) !! i' <> Some (Some f)) as Hnf.
    { intros i' Hi' Hs. pose proof (lookup_lt_Some _ _ _ Hs) as Hl. rewrite (kx_ofile _ K4) in Hl.
      destruct (lookup_lt_is_Some_2 (a_fds a) i') as [x Hx']; [lia|]. destruct (lookup_lt_is_Some_2 G i') as [nn Hnn]; [lia|]. by eapply Hfresh. }
    apply list_lookup_insert_Some in Hi as [(<- & [= <-] & _)|[Hi1 Hi2]]; apply list_lookup_insert_Some in Hj as [(<- & E & _)|[Hj1 Hj2]].
    + done.
    + exfalso. by eapply Hnf.
    + injection E as <-. exfalso. by eapply Hnf.
    + rewrite list_lookup_insert_ne in Hx by done. by eapply K9.
  - rewrite Ex. cbn [files set_files a_left a_leave]. pose proof (count_free_insert (files (ext s)) f fr (opened fr ip) Hf) as Hc.
    assert (free_of fr = 1%nat) as E0 by (unfold free_of; by rewrite decide_True). change (free_of (opened fr ip)) with 0%nat in Hc. lia.
  - rewrite (gather_insert G k m HGk), gmultiset_size_disj_union, gmultiset_size_singleton. cbn. lia.
Qed.

(** A failed call leaves everything as it was. *)
Lemma krep0_same G s s' a : krep0 G s a -> refs_at 0 s (refs G) ∅ s' -> ext s' = ext s -> krep0 G s' a.
Proof.
  intros [K1 K2 K3 K4 K5 K6 K7 K8 K9 K10 K11] (F & C & S) Ex. split; rewrite ?Ex; try done.
  - apply S; [done|]. multiset_solver.
  - intros i o x n Ho Hx Hn. eapply (fd_ok_mono s s' (refs G)); [done|multiset_solver| | |by eapply K8].
    + intros m ->. by eapply kept_own.
    + intros f _. by rewrite Ex.
Qed.

Lemma cwd_ok s : kx_ok (ext s) -> cwd s = Ret cw s.
Proof.
  intros K. unfold cwd, bind, liftk, zoom. rewrite curproc_ok by done. rewrite (kx_cwd _ K), put_ext_ext. done.
Qed.

(** The inode that [open] finds, locked. *)
Lemma open_inode_ok G s a p : krep0 G s a -> (0 < a_left a)%nat -> forall s1, frep g 1 s1 v [] ∅ -> ic s1 = ic s -> ext s1 = ext s ->
  wp (open_inode kdevsw p O_RDONLY) s1 (fun r s' => ext s' = ext s /\ slots_kept s s' (refs G) /\ frep g 1 s' v [] ∅ /\
    match walk g v false (start p c) (elems p) with
    | None => r = None /\ crep g v L s' (refs G) ∅
    | Some m => exists ip, r = Some ip /\ crep g v L s' (refs G ⊎ {[+ m +]}) ({[m]} ∪ ∅) /\ at_slot s' ip m
    end).
Proof.
  intros K Hleft s1 F1 I1 X1. pose proof K as [K1 K2 K3 K4 K5 K6 [K7 K7'] K8 K9 K10 K11].
  unfold open_inode. change (testf O_RDONLY O_CREATE) with false. cbv iota.
  apply wp_bind. eapply wp_of_eq; [apply cwd_ok; by rewrite X1|]. unfold namei. apply wp_bind.
  pose proof (size_dom_le (refs G)) as Hsz. rewrite gmultiset_size_disj_union in Hsz.
  eapply wp_seq.
  { apply (namex_ok g Hg 1 sb Hly Hone kdevsw v L HT s1 [] (refs G) cw c p false); try done; [by eapply crep_ic|by eapply at_slot_ic|].
    lia. }
  intros [o nm] s2. unfold namex_post, kept_post.
  destruct (walk g v false (start p c) (elems p)) as [m|].
  - intros (ip & E & (F2 & C2 & S2 & X2) & Hat2 & _). cbn [fst] in E. subst o. apply wp_ret.
    eapply wp_seq; [apply (ilock_refs g Hg 1 sb Hly Hone v L (to_live _ _ _ _ HT) s2 [] _ ∅ ip m F2 C2 Hat2); set_solver|].
    intros [] s3 (P3 & Hat3 & _). destruct P3 as (F3 & C3 & S3 & X3). apply wp_bind, wp_gets.
    change (O_RDONLY =? O_RDONLY) with true. rewrite andb_false_r. apply wp_ret. split_and!; [congruence| |done|by exists ip].
    intros j n Hj Hn. apply S3; [|multiset_solver]. apply S2; [by eapply at_slot_ic|done].
  - intros (E & F2 & C2 & S2 & X2). cbn [fst] in E. subst o. apply wp_ret, wp_ret. split_and!; try done; [congruence|].
    intros j n Hj Hn. apply S2; [by eapply at_slot_ic|done].
Qed.

Lemma open_fd_ok G s a k n s3 : krep0 G s a -> free_fd (a_fds a) = Some k -> a_left a = S n -> ext s3 = ext s ->
  exists f fr, files (ext s) !! f = Some fr /\ f_ref fr = 0 /\
    open_fd kend s3 = Ret (Some (f, k)) (put_ext (set_files (<[f := set_f_ref 1 fr]> (files (ext s))) (set_ofile k (Some f) (ext s))) s3).
Proof.
  intros K Hk Hleft X3. pose proof (ko_x _ _ _ K) as K4. pose proof (ko_left _ _ _ K) as K10.
  destruct (count_free_some (files (ext s))) as [f Hf]; [lia|].
  destruct (first_idx_some _ _ _ Hf) as (fr & Hfr & Hr & _). apply Z.eqb_eq in Hr. exists f, fr. split_and!; [done|done|].
  unfold open_fd, bind, liftk, zoom. rewrite X3, (filealloc_ok _ f fr) by (done || apply K4). cbn [ext put_ext].
  rewrite (fdalloc_ok _ f k); [done| |by eapply free_fd_ofile]. by destruct K4.
Qed.

Lemma kopen_ok G s a p mode x a' : krep0 G s a -> astep (Open p mode) a = Some (x, a') ->
  wp (ksys kend _ (Open p mode)) s (fun y s' => y = x /\ krep s' a').
Proof.
  intros K. cbn [astep]. destruct (Z.eqb_spec mode O_RDONLY) as [->|]; cbn [negb]; [|done].
  rewrite (ko_names _ _ _ K). destruct (a_left a) as [|n] eqn:Hleft; [done|]. intros Ha. unfold ksys, do_open.
  pose proof K as [K1 K2 K3 K4 K5 K6 [K7 K7'] K8 K9 K10 K11].
  eapply wp_seq; [by apply (begin_op_fs g)|]. intros [] s1 (F1 & Hk1).
  eapply wp_seq; [apply (open_inode_ok G s a p K); [lia|done|apply (fk_ic _ _ Hk1)|apply (fk_ext _ _ Hk1)]|].
  unfold names in Ha. destruct (walk g v false (start p c) (elems p)) as [m|].
  2:{ intros r s2 (X2 & S2 & F2 & -> & C2). injection Ha as <- <-. unfold fail_op.
      eapply wp_seq; [apply (end_op_fs g Hg s2 v [] F2)|]. intros [] s3 (v' & F3 & _ & I3 & X3 & Hv'). rewrite (Hv' eq_refl) in F3.
      apply wp_ret. split; [done|]. exists G. eapply krep0_same; [done| |congruence].
      split_and!; [done|by eapply crep_ic|]. intros j y Hj Hy. eapply at_slot_ic; [exact I3|]. by apply S2. }
  intros r s2 (X2 & S2 & F2 & ip & -> & C2 & Hat2).
  destruct (Z.eqb_spec (d_type (dino g v m)) T_DEV) as [|Hty]; [done|].
  destruct (free_fd (a_fds a)) as [k|] eqn:Hk; [|done]. injection Ha as <- <-.
  destruct (open_fd_ok G s a k n s2 K Hk Hleft X2) as (f & fr & Hf & Hr & Eopen).
  apply wp_bind. eapply wp_of_eq; [exact Eopen|]. set (x3 := set_files _ _).
  pose proof (at_slot_in _ _ _ _ _ _ _ _ C2 Hat2) as [HmL _].
  eapply wp_seq; [apply (iunlock_refs g Hg 1 sb Hly Hone v L (to_live _ _ _ _ HT) (put_ext x3 s2) [] (refs G ⊎ {[+ m +]}) ({[m]} ∪ ∅) ip m)|];
    [by apply frep_put_ext|by apply crep_put_ext|done|set_solver|].
  intros [] s4 ((F4 & C4 & S4 & X4) & Hat4). replace (({[m]} ∪ ∅) ∖ {[m]}) with (∅ : gset Z) in C4 by set_solver.
  eapply wp_seq; [apply (end_op_fs g Hg s4 v [] F4)|]. intros [] s5 (v' & F5 & _ & I5 & X5 & Hv'). rewrite (Hv' eq_refl) in F5.
  apply wp_bind, wp_liftk, wp_modify, wp_ret. split; [done|]. exists (<[k := Some m]> G).
  eapply (krep0_open G s _ a f fr m k n ip); try done.
  - apply at_slot_put_ext. by eapply at_slot_ic.
  - by apply frep_put_ext.
  - apply crep_put_ext. by eapply crep_ic.
  - intros j y Hj Hy. apply at_slot_put_ext. eapply at_slot_ic; [exact I5|]. apply S4; [|multiset_solver]. by apply S2.
  - cbn [ext put_ext]. rewrite X5, X4. unfold x3. cbn [files set_files put_ext ext].
    rewrite list_lookup_total_insert_eq by (by eapply lookup_lt_Some). rewrite list_insert_insert_eq. cbn. done.
Qed.

#[export] Instance kernel_implements : Implements (ksys kend) krep.
Proof.
  intros Y e s a x a' [G K] Ha.
  assert (wp (ksys kend Y e) s (fun y s' => y = x /\ krep s' a')) as Hw.
  { destruct e; try done; [by eapply kopen_ok|by eapply kclose_ok|by eapply kread_ok|by eapply kwrite_ok]. }
  apply wp_eq in Hw as (y & s' & E & -> & K'). eauto.
Qed.

(** ** Programs on the kernel *)

(** C2: the kernel runs programs that read files and print as the abstract
    system does.  Whatever a program that opens files for reading, reads and
    closes them and writes to the console does on the abstract system (where a
    write to a descriptor that is open for reading is refused), on a kernel state
    that represents the abstract one it makes the same calls, gets the same
    answers and ends in the same way, in a state that represents the abstract
    system's.  The abstract system has no run of a program that writes to files,
    creates or removes them, and the theorem says nothing of one. *)
Theorem kernel_refines {R} n (t : uprog R) s a r a' : krep s a -> run ahandle n t a = Ret r a' ->
  exists s', run (ksys kend) n t s = Ret r s' /\ krep s' a'.
Proof. apply run_implements, _. Qed.

Abbreviation kyields := (yields (ksys kend)).

Lemma kernel_yields {R} (t : uprog R) s a r a' : krep s a -> ayields t a r a' -> exists s', kyields t s r s' /\ krep s' a'.
Proof.
  intros K [n Hn]. destruct (run_implements (ksys kend) krep n t s a r a' K Hn) as (s' & E & K'). exists s'. split; [by exists n|done].
Qed.

(** What the serial port has sent after a program. *)
Definition sent (s : fsst kx) : list Z := uart_out (con (ext s)).

Lemma krep_sent s a : krep s a -> sent s = a_out a.
Proof. intros [G K]. apply (ko_con _ _ _ K). Qed.

(** C8: cat on the kernel.  With standard output at the console and room for one
    more open file, cat ends, and the console's serial port has sent, after what it
    had sent before, the bytes on the disk of the files that the paths lead to, in
    the order of the arguments, up to the first path that leads nowhere, which
    it complains of. *)
Theorem cat_on_kernel argv s a : krep s a -> ready a -> (1 < length argv)%nat -> Forall (arg_ok cat_fine names) (tl argv) ->
  exists s', kyields (cat_main argv) s Exited s' /\ sent s' = sent s ++ printed "cat" (fun d _ => d) names (tl argv).
Proof.
  intros K Hr Ha Hok. assert (a_names a = names) as En by (destruct K as [G K]; apply K).
  destruct (kernel_yields _ s a _ _ K (cat_prints argv a Hr Ha ltac:(by rewrite En))) as (s' & Hy & K').
  exists s'. split; [done|]. rewrite (krep_sent _ _ K'), (krep_sent _ _ K). cbn. by rewrite En.
Qed.

(** C9: wc on the kernel, likewise: for every file the numbers of its newlines,
    its words and its bytes. *)
Theorem wc_on_kernel argv s a : krep s a -> ready a -> (1 < length argv)%nat -> Forall (arg_ok wc_fine names) (tl argv) ->
  exists s', kyields (wc_main argv) s Exited s' /\ sent s' = sent s ++ printed "wc" wc_line names (tl argv).
Proof.
  intros K Hr Ha Hok. assert (a_names a = names) as En by (destruct K as [G K]; apply K).
  destruct (kernel_yields _ s a _ _ K (wc_prints argv a Hr Ha ltac:(by rewrite En))) as (s' & Hy & K').
  exists s'. split; [done|]. rewrite (krep_sent _ _ K'), (krep_sent _ _ K). cbn. by rewrite En.
Qed.
End kernel.
