(* ===== verification/KernelWitness.v ===== *)
(** A machine on which the hypotheses of the theorems about paths and programs
    hold: a disk with the console's device file, README and two empty files in the
    root directory, booted, and a process with the console at its descriptors 0 to 2. *)

From stdpp Require Import gmultiset.
From ITree Require Import Core.ITreeDefinition.
From S2P Require Import Prelude Params CString Mmu Kalloc Vm BlockDev Bio Log Fs Dir FsSpec FileSpec Dinode FileData FsOps Crash Icache DirSpec InodeRefs Namei FsWitness Kernel Proc Pipe File Fork Syscall Sysfile Printf Console ConsoleSpec Uprog Progs Programs AbsOS ProgramsSpec Ksys KernelOS.

(** ** Files of at most one block *)

Definition one (b : Z) : list Z := b :: replicate 12 0.

Lemma addr_one g v I b bn : i_addrs I = one b -> in_file bn -> addr_of g v I bn = if bn =? 0 then b else 0.
Proof.
  intros Ha Hb. unfold addr_of, ind. rewrite Ha. unfold in_file in Hb. change NDIRECT with 12.
  destruct (Z.ltb_spec bn 12) as [Hl|Hl], (Z.eqb_spec bn 0) as [->|Hz]; try done; try lia.
  change (one b) with ([b] ++ replicate 12 0). replace (Z.to_nat bn) with (1 + Z.to_nat (bn - 1))%nat by lia.
  rewrite lookup_total_app_r by (cbn; lia). apply list_lookup_total_correct, lookup_replicate. cbn. lia.
Qed.

Lemma file_one g sb v n t ma mi nl sz b : dino g v n = mkdinode t ma mi nl sz (one b) ->
  0 < n < sb_ninodes sb -> 0 <= sz <= 512 -> (b = 0 /\ sz = 0 \/ b <> 0 /\ data_block g sb b /\ used g sb v b = true) ->
  is_u32 b -> 0 <= t < 2 ^ 15 -> 0 <= ma < 2 ^ 15 -> 0 <= mi < 2 ^ 15 -> 0 <= nl < 2 ^ 15 -> file_ok g sb v (dnode g v n).
Proof.
  intros Hd Hn Hsz Hb Hbu H1 H2 H3 H4. unfold dnode. rewrite Hd. set (I := of_dinode _ _).
  assert (forall bn, in_file bn -> addr_of g v I bn = if bn =? 0 then b else 0) as Ha by (intros bn; by apply addr_one).
  assert (ind I = 0) as Hi by done.
  split; [split; [done|done|..]|done| | |done|].
  - intros x [Hx [->|(bn & Hbn & <-)]]; [done|]. rewrite Ha in Hx |- * by done. destruct (bn =? 0); [|done].
    destruct Hb as [[-> _]|(_ & ? & ?)]; done.
  - intros b1 b2 Hb1 Hb2. rewrite !Ha by done. destruct (Z.eqb_spec b1 0), (Z.eqb_spec b2 0); try done; congruence.
  - intros b1 Hb1 Hnz. congruence.
  - cbn. change (MAXFILE * BSIZE) with 71680. lia.
  - intros p Hp. cbn in Hp. change BSIZE with 512. rewrite Z.div_small by lia. rewrite Ha by (unfold in_file; change MAXFILE with 140; lia).
    cbn. lia.
  - split; cbn -[Z.pow]; try lia; [unfold is_u32; lia|]. constructor; [done|]. by repeat constructor.
Qed.

(** ** The machine *)

Module KernelW.
#[local] Existing Instance CrashWitness.dev.
Import FsW.

Definition dirent (n : Z) (name : list Z) : list Z := le_bytes 2 n ++ name ++ replicate (14 - length name) 0.
Definition README : list Z := [82; 69; 65; 68; 77; 69].
Definition dir_block : block :=
  let l := dirent 1 [46] ++ dirent 1 [46; 46] ++ dirent 2 (text "console") ++ dirent 3 README ++ dirent 4 (text "cat") ++ dirent 5 (text "echo") in l ++ replicate (512 - length l) 0.
Definition readme_block : block := [104; 105; 10] ++ replicate 509 0.
Definition inodes : block :=
  put_dinode (dinode_off 1) (mkdinode T_DIR 0 0 1 96 (one 29))
    (put_dinode (dinode_off 2) (mkdinode T_DEV CONSOLE 1 1 0 (one 0))
      (put_dinode (dinode_off 3) (mkdinode T_FILE 0 0 1 3 (one 30))
        (put_dinode (dinode_off 4) (mkdinode T_FILE 0 0 1 0 (one 0)) (put_dinode (dinode_off 5) (mkdinode T_FILE 0 0 1 0 (one 0)) zero_block)))).
Definition bits : block := set_bit 29 (set_bit 30 bitmap0).
Definition blocks : list (Z * block) := [(1, CrashWitness.sb_block); (28, bits); (2, inodes); (29, dir_block); (30, readme_block)].
Definition d1 : disk := mkdisk (list_to_map ((fun p => ((1, p.1), p.2)) <$> blocks)) [].

Lemma d1_bootable : bootable g0 d1.
Proof.
  split.
  - intros k. unfold disk_get, img_get. destruct (img d1 !! k) as [b|] eqn:E; [|apply zero_block_ok]. cbn [from_option].
    apply elem_of_list_to_map_2 in E. apply list_elem_of_fmap in E as ((x & b') & [= -> ->] & Hin). apply block_ok_bool.
    repeat (apply elem_of_cons in Hin as [[= -> ->]|Hin]; [vm_compute; reflexivity|]). by apply elem_of_nil in Hin.
  - vm_compute. reflexivity.
  - assert (head_n (disk_get d1 (hk g0)) = 0) as E by (vm_compute; reflexivity).
    split; [rewrite E; simpl; lia|]. unfold head_list. rewrite E. constructor.
  - assert (head_list (disk_get d1 (hk g0)) = []) as -> by (vm_compute; reflexivity). set_solver.
Qed.

Definition l1 : lst := match initlog (boot d1) with Ret _ s => s | _ => boot d1 end.
Definition v1 : key -> block := disk_get (dk (lb l1)).

Lemma l1_rep : lrep g0 l1 v1 [] ∅ /\ l_outstanding (lg l1) = 0 /\ l_committing (lg l1) = 0.
Proof.
  destruct (boot_completes g0 CrashWitness.geom_ok_g0 CrashWitness.sb_on d1 d1_bootable)
    as (s & E & _ & Hrep & Ho & Hc & _).
  assert (l1 = s) as Es by (unfold l1; rewrite E; reflexivity). clear E.
  unfold v1. rewrite Es. split; [exact Hrep|]. split; [exact Ho|exact Hc].
Qed.

Definition L1 : gset Z := {[1; 2; 3; 4; 5]}.

Lemma live1 n : n ∈ L1 -> live g0 sb0 v1 n.
Proof.
  assert (dino g0 v1 1 = mkdinode T_DIR 0 0 1 96 (one 29)) as E1 by (vm_compute; reflexivity).
  assert (dino g0 v1 2 = mkdinode T_DEV CONSOLE 1 1 0 (one 0)) as E2 by (vm_compute; reflexivity).
  assert (dino g0 v1 3 = mkdinode T_FILE 0 0 1 3 (one 30)) as E3 by (vm_compute; reflexivity).
  assert (dino g0 v1 4 = mkdinode T_FILE 0 0 1 0 (one 0)) as E4 by (vm_compute; reflexivity).
  assert (dino g0 v1 5 = mkdinode T_FILE 0 0 1 0 (one 0)) as E5 by (vm_compute; reflexivity).
  assert (used g0 sb0 v1 29 = true /\ used g0 sb0 v1 30 = true) as [U1 U2] by (vm_compute; split; reflexivity).
  assert (data_block g0 sb0 29 /\ data_block g0 sb0 30) as data29 by (unfold data_block; change (data_start sb0) with 29; cbn; lia).
  unfold L1. rewrite !elem_of_union, !elem_of_singleton.
  intros [[[[->| ->]| ->]| ->]| ->].
  - split; [|rewrite E1; discriminate..]. apply (file_one _ _ _ _ _ _ _ _ _ _ E1); unfold is_u32, T_DIR, T_FILE; try (cbn; lia).
    right. split; [lia|]. split; [apply data29|exact U1].
  - split; [|rewrite E2; discriminate..]. apply (file_one _ _ _ _ _ _ _ _ _ _ E2); unfold is_u32, T_DEV, CONSOLE; cbn; lia.
  - split; [|rewrite E3; discriminate..]. apply (file_one _ _ _ _ _ _ _ _ _ _ E3); unfold is_u32, T_DIR, T_FILE; try (cbn; lia).
    right. split; [lia|]. split; [apply data29|exact U2].
  - split; [|rewrite E4; discriminate..]. apply (file_one _ _ _ _ _ _ _ _ _ _ E4); unfold is_u32, T_FILE; cbn; lia.
  - split; [|rewrite E5; discriminate..]. apply (file_one _ _ _ _ _ _ _ _ _ _ E5); unfold is_u32, T_FILE; cbn; lia.
Qed.

Lemma tree1 : tree_ok g0 sb0 v1 L1.
Proof.
  assert (forall n, n ∈ L1 -> d_type (dino g0 v1 n) = T_DIR -> n = 1) as Hone.
  { intros n. unfold L1. rewrite !elem_of_union, !elem_of_singleton. intros [[[[->| ->]| ->]| ->]| ->] Ht; [done|..]; vm_compute in Ht; discriminate Ht. }
  split; [apply live1| |].
  - intros n Hn Ht. pose proof (lv_ok _ _ _ _ (live1 n Hn)) as Hok. rewrite (Hone n Hn Ht) in *. split; [exact Hok|vm_compute; reflexivity|vm_compute; reflexivity].
  - intros n name m Hn Ht. rewrite (Hone n Hn Ht). unfold child, dir_find. destruct (first_entry _ _ _ _) as [k|] eqn:Ek; [|done].
    apply first_entry_some in Ek as [Hk _]. intros [= <-].
    assert (n_entries (file_data g0 v1 (dnode g0 v1 1)) = 6%nat) as E6 by (vm_compute; reflexivity). rewrite E6 in Hk.
    destruct k as [|[|[|[|[|[|k]]]]]]; [| | | | | |lia]; vm_compute; reflexivity.
Qed.

Definition X1 : gmultiset Z := {[+ 1; 2 +]}.
Definition me1 : proc :=
  mkproc 0 0 0 RUNNING 1 None 0 0 None 0 (replicate 3 (Some 0%nat) ++ replicate 13 None) (Some 0%nat) [].
Definition con1 : console := mkconsole false true false (replicate (80 * 25) 0) 0 true [] zero_input.
Definition kx1 : kx :=
  mkkx (mkk false false 0 (fun _ => 0)) false [me1] (Some 0%nat) 2 (Some 0%nat) false
    (mkfile FD_INODE 3 true true 0 1 0 :: replicate 99 zero_file) ∅ false 0 con1.
Definition cached (n : Z) : inode := mkinode 1 n 1 0 0 0 0 0 0 [].
Definition s1 : fsst kx := Fs.mkfs l1 (mkicache false (cached 1 :: cached 2 :: replicate 48 zero_inode)) kx1.
Definition a1 : aos := mkaos (names g0 v1 1) (replicate 3 (Some Terminal) ++ replicate 13 None) [] 10.
Definition G1 : list (option Z) := replicate 16 None.

Lemma frep1 : frep g0 0 s1 v1 [] ∅.
Proof. destruct l1_rep as (Hr & Ho & Hc). split; [exact Hr|exact Ho|exact Hc|reflexivity|reflexivity]. Qed.

(** The cache entries in use. *)
Lemma slots1 k I : ic_inode (ic s1) !! k = Some I -> I = cached 1 /\ k = 0%nat \/ I = cached 2 /\ k = 1%nat \/ I = zero_inode.
Proof.
  cbn [s1 ic ic_inode]. destruct k as [|[|k]]; intros HI; [injection HI as <-; by left|injection HI as <-; by right; left|].
  change (replicate 48 zero_inode !! k = Some I) in HI. apply lookup_replicate in HI as [-> _]. by right; right.
Qed.

Lemma at1 : at_slot s1 0 1.
Proof. exists (cached 1). split_and!; [reflexivity|cbn; lia|reflexivity]. Qed.
Lemma at2 : at_slot s1 1 2.
Proof. exists (cached 2). split_and!; [reflexivity|cbn; lia|reflexivity]. Qed.

Lemma crep1 : crep g0 v1 L1 s1 X1 ∅.
Proof.
  split.
  - intros k I HI. destruct (slots1 k I HI) as [[-> _]|[[-> _]| ->]]; cbn; lia.
  - intros k I HI Hr. destruct (slots1 k I HI) as [[-> _]|[[-> _]| ->]]; [| |cbn in Hr; lia];
      (split; [reflexivity|vm_compute; reflexivity|vm_compute; reflexivity|reflexivity|discriminate|intros Hk; by apply not_elem_of_empty in Hk]).
  - intros n Hn. assert (n = 1 \/ n = 2) as [->| ->] by (unfold X1 in Hn; multiset_solver); eexists; [apply at1|apply at2].
  - intros j k n (I & HI & Hr & <-) (J & HJ & Hr' & E).
    destruct (slots1 j I HI) as [[-> ->]|[[-> ->]| ->]], (slots1 k J HJ) as [[-> ->]|[[-> ->]| ->]]; cbn in *; done || lia.
  - intros n Hn. by apply not_elem_of_empty in Hn.
Qed.

Lemma krep1 : krep g0 v1 L1 0 0 1 X1 s1 a1.
Proof.
  exists G1. split.
  - apply frep1.
  - replace (X1 ⊎ gather G1) with X1 by (change (gather G1) with (∅ : gmultiset Z); multiset_solver). apply crep1.
  - apply at1.
  - split; try reflexivity. cbn. lia.
  - split; try reflexivity. split; [reflexivity|cbn; lia].
  - reflexivity.
  - split; reflexivity.
  - intros i o x n Ho Hx Hn. unfold G1 in Hn. apply lookup_replicate in Hn as [-> Hi].
    change (ofiles 0 (ext s1)) with (replicate 3 (Some 0%nat) ++ replicate 13 (None : option nat)) in Ho.
    cbn [a1 a_fds] in Hx. apply lookup_app_Some in Ho as [Ho|[Hg Ho]].
    + apply lookup_replicate in Ho as [-> Hi']. rewrite lookup_app_l in Hx by (rewrite length_replicate; lia). apply lookup_replicate in Hx as [-> _].
      eexists 0%nat, _. split_and!; [reflexivity|reflexivity|reflexivity|]. split; [reflexivity|cbn; lia|reflexivity|].
      exists 2. split_and!; [apply at2|unfold X1; multiset_solver|vm_compute; reflexivity|vm_compute; reflexivity].
    + rewrite length_replicate in Hg, Ho. rewrite lookup_app_r in Hx by (by rewrite length_replicate). rewrite length_replicate in Hx.
      apply lookup_replicate in Ho as [-> _]. apply lookup_replicate in Hx as [-> _]. split; reflexivity.
  - intros i j f d off _ _ Hx. cbn [a1 a_fds] in Hx. apply lookup_app_Some in Hx as [Hx|[_ Hx]]; apply lookup_replicate in Hx as [Hx _]; discriminate Hx.
  - vm_compute. lia.
  - change (size (gather G1)) with 0%nat. unfold X1. rewrite gmultiset_size_disj_union, !gmultiset_size_singleton. cbn. unfold NINODE. lia.
Qed.

Lemma ready1 : ready a1.
Proof. split; [reflexivity|cbn; unfold NOFILE; lia|by exists 3%nat|cbn; lia]. Qed.

Lemma one_bitmap : sb_size sb0 <= BPB.
Proof. vm_compute. discriminate. Qed.

Lemma readme : names g0 v1 1 README = Bytes [104; 105; 10].
Proof. vm_compute. reflexivity. Qed.
Lemma missing : names g0 v1 1 [120] = Missing.
Proof. vm_compute. reflexivity. Qed.

(** ** The theorems on this machine *)

Lemma namex_walks_witness :
  exists r s', namex (kdevsw (H := CrashWitness.dev)) 0 (47 :: README) false kname s1 = Ret r s' /\ frep g0 0 s' v1 [] ∅ /\
    exists ip, r.1 = Some ip /\ at_slot s' ip 3.
Proof.
  destruct (namex_walks g0 CrashWitness.geom_ok_g0 0 sb0 layout0 one_bitmap (kdevsw (H := CrashWitness.dev)) v1 L1 tree1 s1 [] X1 0 1
    (47 :: README) false kname eq_refl ltac:(vm_compute; reflexivity) frep1 crep1 at1 ltac:(vm_compute; lia) eq_refl) as (r & s' & E & _ & _ & F & Hw).
  exists r, s'. split; [exact E|]. split; [exact F|].
  assert (walk g0 v1 false (start (47 :: README) 1) (elems (47 :: README)) = Some 3) as Ew by (vm_compute; reflexivity).
  rewrite Ew in Hw. destruct Hw as (ip & E1 & _ & Hat & _). exists ip. split; [exact E1|exact Hat].
Defined.

Lemma kernel_refines_witness :
  exists s', run (ksys (H := CrashWitness.dev) 0) 40 (echo_main [text "echo"; text "hi"]) s1 = Ret Exited s' /\
    krep g0 v1 L1 0 0 1 X1 s' (a_print [104; 105; 10] a1).
Proof.
  apply (kernel_refines g0 CrashWitness.geom_ok_g0 sb0 layout0 one_bitmap 0 v1 L1 tree1 eq_refl ltac:(vm_compute; reflexivity) 0 0 1 X1
    ltac:(unfold X1; multiset_solver) 40 (echo_main [text "echo"; text "hi"]) s1 a1 Exited _ krep1). reflexivity.
Defined.

Lemma cat_on_kernel_witness :
  exists s', yields (ksys (H := CrashWitness.dev) 0) (cat_main [text "cat"; README; [120]]) s1 Exited s' /\
    sent s' = [104; 105; 10] ++ text "cat: cannot open x" ++ [10].
Proof.
  assert (Forall (arg_ok cat_fine (names g0 v1 1)) [README; [120]]) as Hok.
  { apply Forall_cons. split; [unfold arg_ok; rewrite readme; reflexivity|]. apply Forall_cons. split; [|constructor].
    unfold arg_ok. rewrite missing. reflexivity. }
  destruct (cat_on_kernel g0 CrashWitness.geom_ok_g0 sb0 layout0 one_bitmap 0 v1 L1 tree1 eq_refl ltac:(vm_compute; reflexivity) 0 0 1 X1
    ltac:(unfold X1; multiset_solver) [text "cat"; README; [120]] s1 a1 krep1 ready1 ltac:(cbn; lia) Hok) as (s' & Hy & Hs).
  exists s'. split; [exact Hy|]. rewrite Hs. cbn [tl printed]. rewrite readme, missing. reflexivity.
Defined.

Lemma wc_on_kernel_witness :
  exists s', yields (ksys (H := CrashWitness.dev) 0) (wc_main [text "wc"; README]) s1 Exited s' /\
    sent s' = text "1 1 3 README" ++ [10].
Proof.
  assert (Forall (arg_ok wc_fine (names g0 v1 1)) [README]) as Hok.
  { apply Forall_cons. split; [|constructor]. unfold arg_ok. rewrite readme. split; [cbn; lia|vm_compute; reflexivity]. }
  destruct (wc_on_kernel g0 CrashWitness.geom_ok_g0 sb0 layout0 one_bitmap 0 v1 L1 tree1 eq_refl ltac:(vm_compute; reflexivity) 0 0 1 X1
    ltac:(unfold X1; multiset_solver) [text "wc"; README] s1 a1 krep1 ready1 ltac:(cbn; lia) Hok) as (s' & Hy & Hs).
  exists s'. split; [exact Hy|]. rewrite Hs. cbn [tl printed]. rewrite readme. vm_compute. reflexivity.
Defined.
End KernelW.
