(* ===== verification/MkfsTree.v ===== *)
(** The image of mkfs.c as a tree that the kernel walks: the path of each file
    of the command line leads to its inode, and to the bytes of the host file. *)

From stdpp Require Import gmultiset.
From S2P Require Import Prelude Params BlockDev Bio Log Crash CString Fs Dir FsSpec FileSpec Dinode FileData FsOps Icache DirSpec InodeRefs Namei Mkfs MkfsSpec MkfsImage.

(** ** The entries of the root directory *)

Lemma de_inum_mk_dirent i n : 0 <= i < 65536 -> de_inum (mk_dirent i n) = i.
Proof.
  intros Hi. unfold de_inum, get16, slice, mk_dirent. rewrite drop_0, (take_app_length' _ _ 2) by by rewrite length_le_bytes.
  rewrite le_val_bytes; [by apply Z.mod_small|]. apply Z.mod_pos_bound. lia.
Qed.

Lemma de_name_mk_dirent i n : Forall (fun c => c <> 0) n -> cname 14 (de_name (mk_dirent i n)) = take 14 n.
Proof.
  intros Hn. unfold de_name, mk_dirent. rewrite (drop_app_length' _ _ 2) by by rewrite length_le_bytes.
  change (Z.to_nat DIRSIZ) with 14%nat. rewrite take_app, take_replicate. apply cname_app.
  - by apply Forall_take.
  - rewrite length_take. lia.
  - rewrite length_take. destruct (decide (14 <= length n)%nat); [left; lia|right].
    unfold at_list. replace (Nat.min (14 - length n) 14) with (S (13 - length n)) by lia. done.
Qed.

Lemma root_dot files pad : entry (root_data files ++ pad) 0 = mk_dirent ROOTINO [46] /\ entry (root_data files ++ pad) 1 = mk_dirent ROOTINO [46; 46].
Proof.
  unfold entry, slice, root_data. rewrite <- !app_assoc. split.
  - change (16 * 0)%nat with 0%nat. rewrite drop_0. by rewrite take_app_length' by (by rewrite length_mk_dirent).
  - change (16 * 1)%nat with 16%nat. rewrite drop_app_length' by (by rewrite length_mk_dirent). by rewrite take_app_length' by (by rewrite length_mk_dirent).
Qed.

Lemma root_pad files k : (2 + length files <= k)%nat -> de_inum (entry (root_file files) k) = 0.
Proof.
  intros Hk. unfold entry, slice, root_file. rewrite drop_app_ge by (rewrite length_root_data; lia). rewrite drop_replicate, take_replicate.
  unfold de_inum, get16, slice. rewrite drop_0, take_replicate. generalize (Nat.min 2 (Nat.min 16 (Z.to_nat (root_size files) - length (root_data files) - (16 * k - length (root_data files))))).
  induction n as [|n IH]; [done|]. cbn. by rewrite IH.
Qed.

Lemma first_entry_is p data n : forall k j, (k <= j < k + n)%nat -> p (entry data j) = true ->
  (forall i, (k <= i < j)%nat -> p (entry data i) = false) -> first_entry p data k n = Some j.
Proof.
  induction n as [|n IH]; intros k j Hj Hp Hlt; [lia|]. cbn [first_entry]. destruct (decide (k = j)) as [->|Hne]; [by rewrite Hp|].
  rewrite Hlt by lia. apply IH; [lia|done|]. intros i Hi. apply Hlt. lia.
Qed.

(** ** The tree *)

(** The name in the directory, and what it must be for a path to reach it. *)
Definition stored (f : host_file) : list Z := take 14 (strip f.1).
Record names_ok (files : list host_file) : Prop := {
  nk_chars f : f ∈ files -> Forall (fun c => c <> 0) f.1;
  nk_some f : f ∈ files -> stored f <> [] /\ stored f <> [46] /\ stored f <> [46; 46];
  nk_uniq : NoDup (stored <$> files)
}.

Lemma Forall_strip (P : Z -> Prop) n : Forall P n -> Forall P (strip n).
Proof. intros Hn. destruct n as [|c n]; [done|]. cbn. destruct (c =? 95); [by inversion Hn|done]. Qed.

Section tree.
Context (files : list host_file) (s : mkst) (G : owner) (Hh : hosts_ok files) (HB : built files s G).
Context (Hmod : Z.of_nat (2 + length files) mod 32 <> 0).
Abbreviation v := (disk_get (disk_of s)).

(** The inodes of the image. *)
Definition inums : gset Z := list_to_set (seqZ 1 (1 + Z.of_nat (length files))).

Lemma inums_elem n : n ∈ inums <-> n = ROOTINO \/ exists k f, files !! k = Some f /\ n = 2 + Z.of_nat k.
Proof.
  unfold inums. rewrite elem_of_list_to_set, elem_of_seqZ. change ROOTINO with 1. split.
  - intros Hn. destruct (decide (n = 1)); [by left|]. right.
    destruct (lookup_lt_is_Some_2 files (Z.to_nat (n - 2))) as [f Hf]; [lia|]. exists (Z.to_nat (n - 2)), f. split; [done|lia].
  - intros [->|(k & f & Hk%lookup_lt_Some & ->)]; lia.
Qed.

Lemma kinode_dnode n : (file_ok mk_geom mk_sb v (kinode v n) -> file_ok mk_geom mk_sb v (dnode mk_geom v n)) /\
  file_data mk_geom v (kinode v n) = file_data mk_geom v (dnode mk_geom v n) /\
  i_type (kinode v n) = d_type (dino mk_geom v n) /\ i_nlink (kinode v n) = d_nlink (dino mk_geom v n).
Proof.
  destruct (file_same mk_geom mk_sb v (kinode v n) (dnode mk_geom v n)) as [H1 H2]; [done|done|done|]. by split_and!.
Qed.

Lemma root_child name m : child mk_geom v ROOTINO name = Some m -> m ∈ inums.
Proof.
  unfold child. destruct (kinode_dnode ROOTINO) as (_ & <- & _). destruct (found_root files s G Hh HB) as (_ & _ & -> & _).
  destruct (dir_find _ _) as [k|] eqn:Ek; [|done]. intros [= <-]. unfold dir_find in Ek. apply first_entry_some in Ek as (_ & He & _).
  unfold is_entry in He. apply andb_true_iff in He as [He _]. apply negb_true_iff, Z.eqb_neq in He. rewrite inums_elem.
  destruct (decide (k < 2 + length files)%nat) as [Hk|Hk]; [|rewrite root_pad in He by lia; done].
  destruct (root_dot files (replicate (Z.to_nat (root_size files) - length (root_data files)) 0)) as [E0 E1].
  destruct k as [|[|k]]; unfold root_file; [left; by rewrite E0|left; by rewrite E1|right].
  destruct (lookup_lt_is_Some_2 files k) as [f Hf]; [lia|]. exists k, f. split; [done|].
  change (S (S k)) with (2 + k)%nat. rewrite (root_file_entry files k f) by done. apply de_inum_mk_dirent.
  pose proof (hs_inodes _ Hh) as Hn. change mk_ninodes with 200 in Hn. lia.
Qed.

Lemma mkfs_tree_ok : tree_ok mk_geom mk_sb v inums.
Proof.
  destruct (found_root files s G Hh HB) as (R1 & R2 & _ & R3). specialize (R3 Hmod). destruct (kinode_dnode ROOTINO) as (D1 & D2 & D3 & D4).
  assert (forall k f, files !! k = Some f -> d_type (dino mk_geom v (2 + Z.of_nat k)) = T_FILE) as Hfile.
  { intros k f Hk. destruct (found_file files s G Hh HB k f Hk) as (F1 & _). destruct (kinode_dnode (2 + Z.of_nat k)) as (_ & _ & <- & _). done. }
  split.
  - intros n [->|(k & f & Hk & ->)]%inums_elem.
    + split; [by apply D1, R3|by rewrite <- D3, R1|by rewrite <- D4, R2].
    + destruct (found_file files s G Hh HB k f Hk) as (F1 & F2 & F3 & _). destruct (kinode_dnode (2 + Z.of_nat k)) as (E1 & E2 & E3 & E4).
      split; [by apply E1|by rewrite <- E3, F1|by rewrite <- E4, F2].
  - intros n [->|(k & f & Hk & ->)]%inums_elem Ht; [|by rewrite (Hfile k f Hk) in Ht].
    destruct R3 as [R31 R32 R33]. split; [by apply D1|exact Ht|by rewrite <- D2].
  - intros n name m [->|(k & f & Hk & ->)]%inums_elem Ht; [apply root_child|by rewrite (Hfile k f Hk) in Ht].
Qed.

Context (Hnames : names_ok files).

Lemma entry_match k f i n : files !! k = Some f -> 0 < i < 65536 -> Forall is_u8 n -> Forall (fun c => c <> 0) n ->
  is_entry (at_list (stored f)) (mk_dirent i n) = bool_decide (take 14 n = stored f).
Proof.
  intros Hk Hi Hu Hn. pose proof (list_elem_of_lookup_2 _ _ _ Hk) as Hin. pose proof (nk_chars _ Hnames f Hin) as Hnz.
  pose proof (ho_chars _ (Forall_lookup_1 _ _ _ _ (hs_each _ Hh) Hk)) as Hc.
  unfold is_entry. rewrite de_inum_mk_dirent, (proj2 (Z.eqb_neq _ _)) by lia. cbn [negb andb].
  unfold namecmp. change (Z.to_nat DIRSIZ) with 14%nat. apply eq_true_iff_eq. rewrite Z.eqb_eq, bool_decide_eq_true, strncmp_zero.
  - rewrite de_name_mk_dirent by done. rewrite cname_at_list; [split; congruence| |unfold stored; rewrite length_take; lia].
    by apply Forall_take, Forall_strip.
  - by apply at_list_u8, Forall_take, Forall_strip.
  - apply at_list_u8, Forall_drop. by apply mk_dirent_u8.
Qed.

Lemma root_finds k f : files !! k = Some f -> child mk_geom v ROOTINO (stored f) = Some (2 + Z.of_nat k).
Proof.
  intros Hk. pose proof (lookup_lt_Some _ _ _ Hk) as Hlt. pose proof (list_elem_of_lookup_2 _ _ _ Hk) as Hin.
  pose proof (hs_inodes _ Hh) as Hn. change mk_ninodes with 200 in Hn. pose proof (root_size_range files (hs_inodes _ Hh)) as Hrs.
  destruct (nk_some _ Hnames f Hin) as (_ & N1 & N2).
  destruct (root_dot files (replicate (Z.to_nat (root_size files) - length (root_data files)) 0)) as [E0 E1].
  unfold child. destruct (kinode_dnode ROOTINO) as (_ & <- & _). destruct (found_root files s G Hh HB) as (_ & _ & -> & _).
  assert (forall j f', files !! j = Some f' -> is_entry (at_list (stored f)) (entry (root_file files) (2 + j)) = bool_decide (stored f' = stored f)) as Hent.
  { intros j f' Hj. pose proof (lookup_lt_Some _ _ _ Hj). unfold root_file. rewrite (root_file_entry files j f' _ Hj).
    apply (entry_match k f); [done|lia| |].
    - apply Forall_strip. apply (ho_chars _ (Forall_lookup_1 _ _ _ _ (hs_each _ Hh) Hj)).
    - apply Forall_strip, (nk_chars _ Hnames). by eapply list_elem_of_lookup_2. }
  assert (dir_find (at_list (stored f)) (root_file files) = Some (2 + k)%nat) as ->.
  { unfold dir_find. apply first_entry_is.
    - unfold n_entries, root_file. rewrite length_app, length_replicate, length_root_data.
      split; [lia|]. apply Nat.lt_le_trans with (16 * (2 + length files) / 16)%nat; [rewrite Nat.mul_comm, Nat.div_mul; lia|].
      apply Nat.Div0.div_le_mono. lia.
    - rewrite (Hent k f Hk). by apply bool_decide_eq_true.
    - intros j Hj. destruct j as [|[|j]].
      + unfold root_file. rewrite E0, (entry_match k f) by (done || (repeat constructor; unfold is_u8; lia)). by apply bool_decide_eq_false.
      + unfold root_file. rewrite E1, (entry_match k f) by (done || (repeat constructor; unfold is_u8; lia)). by apply bool_decide_eq_false.
      + destruct (lookup_lt_is_Some_2 files j) as [f' Hf']; [lia|]. change (S (S j)) with (2 + j)%nat. rewrite (Hent j f' Hf'). apply bool_decide_eq_false. intros E.
        assert (j = k) by (eapply (NoDup_lookup _ _ _ (stored f) (nk_uniq _ Hnames)); rewrite list_lookup_fmap; [rewrite Hf'|rewrite Hk]; cbn; congruence).
        lia. }
  f_equal. unfold root_file. rewrite (root_file_entry files k f) by done. apply de_inum_mk_dirent. lia.
Qed.

Lemma mkfs_walk k f : files !! k = Some f -> walk mk_geom v false ROOTINO (elems (47 :: strip f.1)) = Some (2 + Z.of_nat k).
Proof.
  intros Hk. pose proof (list_elem_of_lookup_2 _ _ _ Hk) as Hin. destruct (nk_some _ Hnames f Hin) as (N0 & _ & _).
  assert (elems (47 :: strip f.1) = [stored f]) as ->.
  { rewrite <- (app_nil_r (strip f.1)). change (elems (47 :: strip f.1 ++ [])) with (elems ([47] ++ strip f.1 ++ [] ++ [])).
    rewrite elems_slashes by (by repeat constructor). unfold elems. rewrite (elems_name [] (strip f.1) [] []); try done.
    - apply Forall_strip, Forall_forall. intros c Hc. pose proof (proj1 (Forall_forall _ _) (nk_chars _ Hnames f Hin) c Hc) as Hc0. split; [|exact Hc0].
      intros ->. pose proof (ho_name _ (Forall_lookup_1 _ _ _ _ (hs_each _ Hh) Hk)) as He.
      apply not_true_iff_false in He. apply He, existsb_exists. exists 47. split; [by apply list_elem_of_In|done].
    - cbn. intros E. apply N0. unfold stored. by rewrite E.
    - by right. }
  cbn [walk]. destruct (found_root files s G Hh HB) as (R1 & _). destruct (kinode_dnode ROOTINO) as (_ & _ & <- & _). rewrite R1.
  cbn [negb andb]. change (T_DIR =? T_DIR) with true. cbn [negb]. by rewrite (root_finds k f).
Qed.

Lemma mkfs_bytes k f : files !! k = Some f ->
  d_type (dino mk_geom v (2 + Z.of_nat k)) = T_FILE /\ file_data mk_geom v (dnode mk_geom v (2 + Z.of_nat k)) = concat f.2.
Proof.
  intros Hk. destruct (found_file files s G Hh HB k f Hk) as (F1 & _ & _ & F4). destruct (kinode_dnode (2 + Z.of_nat k)) as (_ & <- & <- & _). done.
Qed.
End tree.
