(* ===== verification/MkfsBoot.v ===== *)
(** From mkfs to read(2): a kernel that boots from an image made by mkfs.c reads
    from each file the bytes of the host file. *)

From stdpp Require Import gmultiset.
From ITree Require Import Core.ITreeDefinition.
From S2P Require Import Prelude Params CString Mmu Kalloc Vm BlockDev Bio Log Crash Fs Dir FsSpec FileSpec Dinode FileData FsOps Icache DirSpec InodeRefs Namei FsWitness Kernel Proc Pipe File Fork Syscall Sysfile Printf Console ConsoleSpec Mkfs MkfsSpec MkfsImage MkfsTree Uprog Progs Programs AbsOS ProgramsSpec Ksys KernelOS KernelWitness.
Import U.

(** A program that opens a file, reads from it once and closes it. *)
Definition read_once (path : list Z) (n : Z) : uprog (Z * list Z) :=
  ITree.bind (file (Open path O_RDONLY)) (fun fd =>
  ITree.bind (file (Read fd n)) (fun r =>
  ITree.bind (file (Close fd)) (fun _ => done r))).

Lemma read_once_abs a p d k n : (length (a_fds a) <= NOFILE)%nat -> free_fd (a_fds a) = Some k -> (0 < a_left a)%nat ->
  a_names a p = Bytes d -> 0 <= n < 2 ^ 31 ->
  ayields (read_once p n) a (Returned (Z.of_nat (length (take (Z.to_nat n) d)), take (Z.to_nat n) d)) a.
Proof.
  intros Hlen Hk Hleft Hp Hn. destruct (a_left a) as [|l] eqn:El; [lia|].
  pose proof (free_fd_None _ _ Hk) as Hnone. pose proof (lookup_lt_Some _ _ _ Hnone) as Hlt.
  set (a1 := a_leave l (a_set k (Some (Reading d 0)) a)).
  assert (ahandle _ (Open p O_RDONLY) a = Ret (Z.of_nat k) a1) as Ho.
  { unfold ahandle, astep. change (O_RDONLY =? O_RDONLY) with true. cbn [negb]. by rewrite El, Hp, Hk. }
  assert (a_fd a1 (Z.of_nat k) = Some (Reading d 0)) as Hfd1.
  { change (a_fd (a_set k (Some (Reading d 0)) a) (Z.of_nat k) = Some (Reading d 0)). rewrite a_fd_set by lia. by rewrite Nat2Z.id, decide_True. }
  eapply yields_call; [exact Ho|]. eapply yields_call; [by apply (read_file a1 (Z.of_nat k) d 0 n)|].
  rewrite drop_0, Nat2Z.id. set (b := take (Z.to_nat n) d). set (a2 := a_set k _ a1).
  assert (ahandle _ (Close (Z.of_nat k)) a2 = Ret 0 (a_leave (S l) (a_set k None a2))) as Hc.
  { unfold ahandle, astep.
    assert (a_fd a2 (Z.of_nat k) = Some (Reading d (0 + length b))) as ->.
    { unfold a2. rewrite a_fd_set by (cbn; rewrite ?length_insert; lia). by rewrite Nat2Z.id, decide_True. }
    by rewrite Nat2Z.id. }
  eapply yields_call; [exact Hc|].
  assert (a_leave (S l) (a_set k None a2) = a) as ->; [|apply yields_ret].
  unfold a2, a1, a_leave, a_set. cbn. rewrite !list_insert_insert_eq, list_insert_id by done. rewrite <- El. by destruct a.
Qed.

(** ** The kernel after the boot *)

(** A process whose current directory is the root, with no open files, and the
    caches as they are at the start. *)
Definition kx0 : kx :=
  mkkx (mkk false false 0 (fun _ => 0)) false
    [mkproc 0 0 0 RUNNING 1 None 0 0 None 0 (replicate NOFILE None) (Some 0%nat) []] (Some 0%nat) 2 (Some 0%nat) false
    (replicate NFILE zero_file) ∅ false 0 KernelW.con1.
Definition booted (l : lst) : fsst kx := Fs.mkfs l (mkicache false (KernelW.cached ROOTINO :: replicate 49 zero_inode)) kx0.

Section boot.
Context `{BlockDev} (kend : Z) (Hg : geom_ok mk_geom) (Hly : layout mk_geom mk_sb).
Context (files : list host_file) (Hh : hosts_ok files) (Hmod : Z.of_nat (2 + length files) mod 32 <> 0) (Hnames : names_ok files).

Abbreviation X0 := ({[+ ROOTINO +]} : gmultiset Z).
Definition a0 (v : key -> block) : aos := mkaos (names mk_geom v ROOTINO) (replicate NOFILE None) [] 40.

Lemma booted_krep l v L : lrep mk_geom l v [] ∅ -> l_outstanding (lg l) = 0 -> l_committing (lg l) = 0 -> ROOTINO ∈ L ->
  krep mk_geom v L 0 0 ROOTINO X0 (booted l) (a0 v).
Proof.
  intros Hl Ho Hc HL. exists (replicate NOFILE None).
  assert (forall k I, ic_inode (ic (booted l)) !! k = Some I -> I = KernelW.cached ROOTINO /\ k = 0%nat \/ I = zero_inode) as Hslots.
  { intros [|k] I HI; [injection HI as <-; by left|]. change (replicate 49 zero_inode !! k = Some I) in HI.
    apply lookup_replicate in HI as [-> _]. by right. }
  assert (at_slot (booted l) 0 ROOTINO) as Hat by (exists (KernelW.cached ROOTINO); split_and!; [done|cbn; lia|done]).
  assert (gather (replicate NOFILE None) = ∅) as HG by reflexivity.
  split; try done.
  - replace (X0 ⊎ gather (replicate NOFILE None)) with X0 by (rewrite HG; multiset_solver). split.
    + intros k I HI. destruct (Hslots k I HI) as [[-> _]| ->]; cbn; lia.
    + intros k I HI Hr. destruct (Hslots k I HI) as [[-> _]| ->]; [|cbn in Hr; lia].
      split; [done|exact HL|cbn; by rewrite multiplicity_singleton, decide_True|cbn; by rewrite bool_decide_eq_false_2|done|set_solver].
    + intros n Hn. assert (n = ROOTINO) as -> by multiset_solver. by exists 0%nat.
    + intros j k n (I & HI & Hr & <-) (J & HJ & Hr' & E).
      destruct (Hslots j I HI) as [[-> ->]| ->], (Hslots k J HJ) as [[-> ->]| ->]; cbn in *; done || lia.
    + set_solver.
  - split; try done. cbn. lia.
  - intros i o x n Ho' Hx Hn. change (ofiles 0 (ext (booted l))) with (replicate NOFILE (None : option nat)) in Ho'.
    cbn [a0 a_fds] in Hx. apply lookup_replicate in Ho' as [-> _]. apply lookup_replicate in Hx as [-> _]. by apply lookup_replicate in Hn as [-> _].
  - intros i j f d off _ _ Hx. cbn [a0 a_fds] in Hx. by apply lookup_replicate in Hx as [? _].
  - vm_compute. lia.
  - change (size X0) with 1%nat. change (size (gather (replicate NOFILE None))) with 0%nat. cbn [a0 a_left]. unfold NINODE. lia.
Qed.

(** C6: from mkfs to read(2).  mkfs.c makes an image of the files of the command
    line; a kernel boots from it, recovering its log; a process opens one of the
    files by its path, and [read] returns the first [n] bytes of the host file.
    The number of files must not fill the last block of the root directory
    exactly, and their names must differ in what the directory stores of them. *)
Theorem mkfs_boot_read k f n : files !! k = Some f -> 0 <= n < 2 ^ 31 ->
  exists img l s', mkfs files mk0 = Ret tt img /\ initlog (boot (disk_of img)) = Ret tt l /\
    let b := take (Z.to_nat n) (concat f.2) in
    yields (ksys kend) (read_once (47 :: strip f.1) n) (booted l) (Returned (Z.of_nat (length b), b)) s'.
Proof.
  intros Hk Hn. assert (ROOTINO ∈ X0) as HX by multiset_solver. assert (sb_size mk_sb <= BPB) as Hone by (vm_compute; discriminate).
  destruct (wp_eq_tt _ _ _ (mkfs_built files Hh)) as (img & Eimg & G & HB).
  destruct (found_boot files img G Hh HB) as [Hboot _]. pose proof (ly_on _ _ Hly 1 ltac:(cbn; lia)) as Hon.
  destruct (boot_completes mk_geom Hg Hon (disk_of img) Hboot) as (l & El & _ & Hl & Ho & Hc & _).
  set (v := disk_get (disk_of img)). set (v' := disk_get (dk (lb l))) in *.
  assert (agree mk_geom v v') as Hag.
  { intros x Hx. unfold v', v. cbn in Hx. assert (~ in_region mk_geom 1) as H1 by (unfold in_region; cbn; lia).
    rewrite (boot_logical mk_geom Hg H1 Hon (disk_of img) l Hboot El) by (apply out_of_log_lt; cbn; lia).
    apply logical_empty. by rewrite (found_head files img G HB). }
  pose proof (mkfs_tree_ok files img G Hh HB Hmod) as HT. fold v in HT.
  pose proof (tree_ok_agree mk_geom Hg mk_sb Hly v v' Hag _ HT) as HT'.
  assert (ROOTINO ∈ inums files) as Hroot by (apply (inums_elem files Hmod); by left).
  assert (names mk_geom v' ROOTINO (47 :: strip f.1) = Bytes (concat f.2)) as Hp.
  { unfold names. change (start (47 :: strip f.1) ROOTINO) with ROOTINO.
    rewrite (walk_agree mk_geom mk_sb Hly v v' Hag _ HT) by done. unfold v at 1. rewrite (mkfs_walk files img G Hh HB Hmod Hnames k f Hk).
    assert (2 + Z.of_nat k ∈ inums files) as Hin by (apply (inums_elem files Hmod); right; eauto).
    rewrite (agree_dino mk_geom mk_sb Hly v v' Hag _ HT), (agree_data mk_geom mk_sb Hly v v' Hag _ HT) by done.
    unfold v. destruct (mkfs_bytes files img G Hh HB k f Hk) as [-> ->]. done. }
  pose proof (booted_krep l v' (inums files) Hl Ho Hc Hroot) as K.
  assert ((length (a_fds (a0 v')) <= NOFILE)%nat /\ (0 < a_left (a0 v'))%nat) as [Hlen Hleft] by (cbn; unfold NOFILE; lia).
  pose proof (read_once_abs (a0 v') (47 :: strip f.1) (concat f.2) 0 n Hlen eq_refl Hleft Hp Hn) as Ha.
  destruct (kernel_yields mk_geom Hg mk_sb Hly Hone kend v' (inums files) HT' eq_refl Hroot 0 0 ROOTINO X0 HX _ (booted l) (a0 v') _ _ K Ha)
    as (s' & Hy & _).
  exists img, l, s'. split; [exact Eimg|]. split; [exact El|exact Hy].
Qed.
End boot.

Module MkfsBootW.
#[local] Existing Instance CrashWitness.dev.

Lemma mk_layout : layout mk_geom mk_sb.
Proof.
  split; [vm_compute; split; reflexivity|reflexivity|reflexivity|vm_compute; discriminate|].
  intros x Hx. split; [reflexivity|]. cbn in *. lia.
Qed.

Lemma mkfs_boot_read_witness :
  exists img l s', mkfs MkfsW.hosts mk0 = Ret tt img /\ initlog (boot (disk_of img)) = Ret tt l /\
    yields (ksys 0) (read_once (47 :: KernelW.README) 100) (booted l) (Returned (3, [104; 105; 10])) s'.
Proof.
  assert (names_ok MkfsW.hosts) as Hn.
  { split.
    - intros f Hf. repeat (apply elem_of_cons in Hf as [->|Hf]; [by repeat constructor|]). by apply elem_of_nil in Hf.
    - intros f Hf. repeat (apply elem_of_cons in Hf as [->|Hf]; [done|]). by apply elem_of_nil in Hf.
    - apply (bool_decide_unpack _). by vm_compute. }
  apply (mkfs_boot_read 0 CrashWitness.geom_ok_g0 mk_layout MkfsW.hosts MkfsW.hosts_fit ltac:(by vm_compute) Hn 0
    ([82; 69; 65; 68; 77; 69], [[104; 105; 10]]) 100); [reflexivity|lia].
Defined.
End MkfsBootW.
