(* ===== verification/Usertests.v ===== *)
(** usertests.c: the tests that make calls on files only, as trees of system
    calls.

    The array [buf] is shared by the tests: those that change it, or write what
    is in it, take its contents and return them.  An [if] whose branch complains
    and exits is [must], with the condition under which the test goes on. *)

From ITree Require Import Core.ITreeDefinition.
From S2P Require Import Prelude Params CString Fs Dir Printf Uprog Progs Programs.
Import U.
#[local] Open Scope uprog_scope.

(** ** Pieces *)

Definition say (s : string) : uprog unit := printf 1 (line s) [].
Definition must (ok : bool) (m : list Z) : uprog unit := if ok then done tt else printf 1 m [] ;; exit.
(** A call that has to succeed, and one that has to fail. *)
Definition works (call : uprog Z) (m : string) : uprog unit := r <- call ;; must (0 <=? r) (line m).
Definition zero (call : uprog Z) (m : string) : uprog unit := r <- call ;; must (r =? 0) (line m).
Definition nonzero (call : uprog Z) (m : string) : uprog unit := r <- call ;; must (negb (r =? 0)) (line m).
Definition refused (call : uprog Z) (m : string) : uprog unit := r <- call ;; must (r <? 0) (line m).

Definition mkdir (p : string) : uprog Z := file (Mkdir (text p)).
Definition chdir (p : string) : uprog Z := file (Chdir (text p)).
Definition unlink (p : string) : uprog Z := file (Unlink (text p)).
Definition link (p q : string) : uprog Z := file (Link (text p) (text q)).
Definition open (p : string) (mode : Z) : uprog Z := file (Open (text p) mode).
Definition close (fd : Z) : uprog unit := file (Close fd) ;; done tt.
Definition call {A} (m : uprog A) : uprog unit := m ;; done tt.
Definition RW : Z := Z.lor O_CREATE O_RDWR.

(** [buf], and what a read of [b] leaves in it. *)
Definition BUF : Z := 8192.
Definition over (b buf : list Z) : list Z := b ++ drop (length b) buf.
(** A char as an int. *)
Definition s8 (b : Z) : Z := if b <? 128 then b else b - 256.
Definition in_buf (buf : list Z) (i : nat) : Z := s8 (buf !!! i).
(** The int at the start of [buf]. *)
Definition buf_int (buf : list Z) : Z := s32 (get32 0 buf).

(** ** Directories and links *)

Definition iputtest : uprog unit :=
  say "iput test" ;;
  works (mkdir "iputdir") "mkdir failed" ;;
  works (chdir "iputdir") "chdir iputdir failed" ;;
  works (unlink "../iputdir") "unlink ../iputdir failed" ;;
  works (chdir "/") "chdir / failed" ;;
  say "iput test ok".

Definition opentest : uprog unit :=
  say "open test" ;;
  fd <- open "echo" 0 ;;
  must (0 <=? fd) (line "open echo failed!") ;;
  close fd ;;
  refused (open "doesnotexist" 0) "open doesnotexist succeeded!" ;;
  say "open test ok".

Definition two_letters (a b : Z) : list Z := [a; b].
Definition createtest : uprog unit :=
  say "many creates, followed by unlink test" ;;
  each (seq 0 52) (fun i => fd <- file (Open (two_letters 97 (48 + Z.of_nat i)) RW) ;; close fd) ;;
  each (seq 0 52) (fun i => call (file (Unlink (two_letters 97 (48 + Z.of_nat i))))) ;;
  say "many creates, followed by unlink; ok".

Definition dirtest : uprog unit :=
  say "mkdir test" ;;
  works (mkdir "dir0") "mkdir failed" ;;
  works (chdir "dir0") "chdir dir0 failed" ;;
  works (chdir "..") "chdir .. failed" ;;
  works (unlink "dir0") "unlink dir0 failed" ;;
  say "mkdir test ok".

Definition rmdot : uprog unit :=
  say "rmdot test" ;;
  zero (mkdir "dots") "mkdir dots failed" ;;
  zero (chdir "dots") "chdir dots failed" ;;
  nonzero (unlink ".") "rm . worked!" ;;
  nonzero (unlink "..") "rm .. worked!" ;;
  zero (chdir "/") "chdir / failed" ;;
  nonzero (unlink "dots/.") "unlink dots/. worked!" ;;
  nonzero (unlink "dots/..") "unlink dots/.. worked!" ;;
  zero (unlink "dots") "unlink dots failed!" ;;
  say "rmdot ok".

Definition fourteen : uprog unit :=
  say "fourteen test" ;;
  zero (mkdir "12345678901234") "mkdir 12345678901234 failed" ;;
  zero (mkdir "12345678901234/123456789012345") "mkdir 12345678901234/123456789012345 failed" ;;
  fd <- open "123456789012345/123456789012345/123456789012345" O_CREATE ;;
  must (0 <=? fd) (line "create 123456789012345/123456789012345/123456789012345 failed") ;;
  close fd ;;
  fd <- open "12345678901234/12345678901234/12345678901234" 0 ;;
  must (0 <=? fd) (line "open 12345678901234/12345678901234/12345678901234 failed") ;;
  close fd ;;
  nonzero (mkdir "12345678901234/12345678901234") "mkdir 12345678901234/12345678901234 succeeded!" ;;
  nonzero (mkdir "123456789012345/12345678901234") "mkdir 12345678901234/123456789012345 succeeded!" ;;
  say "fourteen ok".

Definition dirfile : uprog unit :=
  say "dir vs file" ;;
  fd <- open "dirfile" O_CREATE ;;
  must (0 <=? fd) (line "create dirfile failed") ;;
  close fd ;;
  nonzero (chdir "dirfile") "chdir dirfile succeeded!" ;;
  refused (open "dirfile/xx" 0) "create dirfile/xx succeeded!" ;;
  refused (open "dirfile/xx" O_CREATE) "create dirfile/xx succeeded!" ;;
  nonzero (mkdir "dirfile/xx") "mkdir dirfile/xx succeeded!" ;;
  nonzero (unlink "dirfile/xx") "unlink dirfile/xx succeeded!" ;;
  nonzero (link "README" "dirfile/xx") "link to dirfile/xx succeeded!" ;;
  zero (unlink "dirfile") "unlink dirfile failed!" ;;
  refused (open "." O_RDWR) "open . for writing succeeded!" ;;
  fd <- open "." 0 ;;
  w <- file (Write fd [120]) ;;
  must (w <=? 0) (line "write . succeeded!") ;;
  close fd ;;
  say "dir vs file OK".

Definition iref : uprog unit :=
  say "empty file name" ;;
  each (seq 0 51) (fun _ =>
    zero (mkdir "irefd") "mkdir irefd failed" ;;
    zero (chdir "irefd") "chdir irefd failed" ;;
    call (mkdir "") ;;
    call (link "README" "") ;;
    fd <- open "" O_CREATE ;;
    when (0 <=? fd) (close fd) ;;
    fd <- open "xx" O_CREATE ;;
    when (0 <=? fd) (close fd) ;;
    call (unlink "xx")) ;;
  call (chdir "/") ;;
  say "empty file name OK".

Definition x_name (i : nat) : list Z := [120; 48 + Z.of_nat i / 64; 48 + Z.of_nat i mod 64].
Definition bigdir : uprog unit :=
  say "bigdir test" ;;
  call (unlink "bd") ;;
  fd <- open "bd" O_CREATE ;;
  must (0 <=? fd) (line "bigdir create failed") ;;
  close fd ;;
  each (seq 0 500) (fun i => r <- file (Link (text "bd") (x_name i)) ;; must (r =? 0) (line "bigdir link failed")) ;;
  call (unlink "bd") ;;
  each (seq 0 500) (fun i => r <- file (Unlink (x_name i)) ;; must (r =? 0) (msg "bigdir unlink failed")) ;;
  say "bigdir ok".

(** ** Reading and writing *)

Definition writetest (buf : list Z) : uprog (list Z) :=
  say "small file test" ;;
  fd <- open "small" RW ;;
  (if 0 <=? fd then say "creat small succeeded; ok" else say "error: creat small failed!" ;; exit) ;;
  each (seq 0 100) (fun i =>
    w <- file (Write fd (replicate 10 97)) ;;
    (if negb (w =? 10) then printf 1 (line "error: write aa %d new file failed") [Num (Z.of_nat i)] ;; exit else done tt) ;;
    w <- file (Write fd (replicate 10 98)) ;;
    if negb (w =? 10) then printf 1 (line "error: write bb %d new file failed") [Num (Z.of_nat i)] ;; exit else done tt) ;;
  say "writes ok" ;;
  close fd ;;
  fd <- open "small" O_RDONLY ;;
  (if 0 <=? fd then say "open small succeeded ok" else say "error: open small failed!" ;; exit) ;;
  r <- file (Read fd 2000) ;;
  (if r.1 =? 2000 then say "read succeeded ok" else say "read failed" ;; exit) ;;
  close fd ;;
  works (unlink "small") "unlink small failed" ;;
  say "small file test ok" ;;
  done (over r.2 buf).

(** [((int* )buf)[0] = i] before every write; the loop of the reads ends at the
    end of the file. *)
Fixpoint write_blocks (fd : Z) (ks : list nat) (buf : list Z) : uprog (list Z) :=
  match ks with
  | [] => done buf
  | i :: rest =>
      let buf := put32 0 (Z.of_nat i) buf in
      w <- file (Write fd (take 512 buf)) ;;
      must (w =? 512) (line "error: write big file failed") ;;
      write_blocks fd rest buf
  end.
Definition read_blocks (fd : Z) (buf : list Z) : uprog (list Z) :=
  loop (fun st : Z * list Z =>
    let (n, buf) := st in
    r <- file (Read fd 512) ;;
    let buf := over r.2 buf in
    if r.1 =? 0 then
      if n =? MAXFILE - 1 then printf 1 (msg "read only %d blocks from big") [Num n] ;; exit else done (inr buf)
    else if negb (r.1 =? 512) then printf 1 (line "read failed %d") [Num r.1] ;; exit
    else if negb (buf_int buf =? n) then printf 1 (line "read content of block %d is %d") [Num n; Num (buf_int buf)] ;; exit
    else done (inl (n + 1, buf))) (0, buf).
Definition writetest1 (buf : list Z) : uprog (list Z) :=
  say "big files test" ;;
  fd <- open "big" RW ;;
  must (0 <=? fd) (line "error: creat big failed!") ;;
  buf <- write_blocks fd (seq 0 (Z.to_nat MAXFILE)) buf ;;
  close fd ;;
  fd <- open "big" O_RDONLY ;;
  must (0 <=? fd) (line "error: open big failed!") ;;
  buf <- read_blocks fd buf ;;
  close fd ;;
  works (unlink "big") "unlink big failed" ;;
  say "big files ok" ;;
  done buf.

Definition unlinkread (buf : list Z) : uprog (list Z) :=
  say "unlinkread test" ;;
  fd <- open "unlinkread" RW ;;
  must (0 <=? fd) (line "create unlinkread failed") ;;
  call (file (Write fd (text "hello"))) ;;
  close fd ;;
  fd <- open "unlinkread" O_RDWR ;;
  must (0 <=? fd) (line "open unlinkread failed") ;;
  zero (unlink "unlinkread") "unlink unlinkread failed" ;;
  fd1 <- open "unlinkread" RW ;;
  call (file (Write fd1 (text "yyy"))) ;;
  close fd1 ;;
  r <- file (Read fd BUF) ;;
  let buf := over r.2 buf in
  must (r.1 =? 5) (msg "unlinkread read failed") ;;
  must (in_buf buf 0 =? 104) (line "unlinkread wrong data") ;;
  w <- file (Write fd (take 10 buf)) ;;
  must (w =? 10) (line "unlinkread write failed") ;;
  close fd ;;
  call (unlink "unlinkread") ;;
  say "unlinkread ok" ;;
  done buf.

Definition linktest (buf : list Z) : uprog (list Z) :=
  say "linktest" ;;
  call (unlink "lf1") ;;
  call (unlink "lf2") ;;
  fd <- open "lf1" RW ;;
  must (0 <=? fd) (line "create lf1 failed") ;;
  w <- file (Write fd (text "hello")) ;;
  must (w =? 5) (line "write lf1 failed") ;;
  close fd ;;
  works (link "lf1" "lf2") "link lf1 lf2 failed" ;;
  call (unlink "lf1") ;;
  refused (open "lf1" 0) "unlinked lf1 but it is still there!" ;;
  fd <- open "lf2" 0 ;;
  must (0 <=? fd) (line "open lf2 failed") ;;
  r <- file (Read fd BUF) ;;
  let buf := over r.2 buf in
  must (r.1 =? 5) (line "read lf2 failed") ;;
  close fd ;;
  refused (link "lf2" "lf2") "link lf2 lf2 succeeded! oops" ;;
  call (unlink "lf2") ;;
  refused (link "lf2" "lf1") "link non-existant succeeded! oops" ;;
  refused (link "." "lf1") "link . lf1 succeeded! oops" ;;
  say "linktest ok" ;;
  done buf.

Definition subdir (buf : list Z) : uprog (list Z) :=
  say "subdir test" ;;
  call (unlink "ff") ;;
  zero (mkdir "dd") "subdir mkdir dd failed" ;;
  fd <- open "dd/ff" RW ;;
  must (0 <=? fd) (line "create dd/ff failed") ;;
  call (file (Write fd (text "ff"))) ;;
  close fd ;;
  refused (unlink "dd") "unlink dd (non-empty dir) succeeded!" ;;
  zero (mkdir "/dd/dd") "subdir mkdir dd/dd failed" ;;
  fd <- open "dd/dd/ff" RW ;;
  must (0 <=? fd) (line "create dd/dd/ff failed") ;;
  call (file (Write fd (text "FF"))) ;;
  close fd ;;
  fd <- open "dd/dd/../ff" 0 ;;
  must (0 <=? fd) (line "open dd/dd/../ff failed") ;;
  r <- file (Read fd BUF) ;;
  let buf := over r.2 buf in
  must ((r.1 =? 2) && (in_buf buf 0 =? 102)) (line "dd/dd/../ff wrong content") ;;
  close fd ;;
  zero (link "dd/dd/ff" "dd/dd/ffff") "link dd/dd/ff dd/dd/ffff failed" ;;
  zero (unlink "dd/dd/ff") "unlink dd/dd/ff failed" ;;
  refused (open "dd/dd/ff" O_RDONLY) "open (unlinked) dd/dd/ff succeeded" ;;
  zero (chdir "dd") "chdir dd failed" ;;
  zero (chdir "dd/../../dd") "chdir dd/../../dd failed" ;;
  zero (chdir "dd/../../../dd") "chdir dd/../../dd failed" ;;
  zero (chdir "./..") "chdir ./.. failed" ;;
  fd <- open "dd/dd/ffff" 0 ;;
  must (0 <=? fd) (line "open dd/dd/ffff failed") ;;
  r <- file (Read fd BUF) ;;
  let buf := over r.2 buf in
  must (r.1 =? 2) (line "read dd/dd/ffff wrong len") ;;
  close fd ;;
  refused (open "dd/dd/ff" O_RDONLY) "open (unlinked) dd/dd/ff succeeded!" ;;
  refused (open "dd/ff/ff" RW) "create dd/ff/ff succeeded!" ;;
  refused (open "dd/xx/ff" RW) "create dd/xx/ff succeeded!" ;;
  refused (open "dd" O_CREATE) "create dd succeeded!" ;;
  refused (open "dd" O_RDWR) "open dd rdwr succeeded!" ;;
  refused (open "dd" O_WRONLY) "open dd wronly succeeded!" ;;
  nonzero (link "dd/ff/ff" "dd/dd/xx") "link dd/ff/ff dd/dd/xx succeeded!" ;;
  nonzero (link "dd/xx/ff" "dd/dd/xx") "link dd/xx/ff dd/dd/xx succeeded!" ;;
  nonzero (link "dd/ff" "dd/dd/ffff") "link dd/ff dd/dd/ffff succeeded!" ;;
  nonzero (mkdir "dd/ff/ff") "mkdir dd/ff/ff succeeded!" ;;
  nonzero (mkdir "dd/xx/ff") "mkdir dd/xx/ff succeeded!" ;;
  nonzero (mkdir "dd/dd/ffff") "mkdir dd/dd/ffff succeeded!" ;;
  nonzero (unlink "dd/xx/ff") "unlink dd/xx/ff succeeded!" ;;
  nonzero (unlink "dd/ff/ff") "unlink dd/ff/ff succeeded!" ;;
  nonzero (chdir "dd/ff") "chdir dd/ff succeeded!" ;;
  nonzero (chdir "dd/xx") "chdir dd/xx succeeded!" ;;
  zero (unlink "dd/dd/ffff") "unlink dd/dd/ff failed" ;;
  zero (unlink "dd/ff") "unlink dd/ff failed" ;;
  nonzero (unlink "dd") "unlink non-empty dd succeeded!" ;;
  works (unlink "dd/dd") "unlink dd/dd failed" ;;
  works (unlink "dd") "unlink dd failed" ;;
  say "subdir ok" ;;
  done buf.

(** 499, 970, and so on up to 5680, the last below 12 * 512. *)
Definition sizes : list nat := map (fun k => (499 + 471 * k)%nat) (seq 0 12).
Definition bigwrite (buf : list Z) : uprog unit :=
  say "bigwrite test" ;;
  call (unlink "bigwrite") ;;
  each sizes (fun sz =>
    fd <- open "bigwrite" RW ;;
    must (0 <=? fd) (line "cannot create bigwrite") ;;
    each (seq 0 2) (fun _ =>
      cc <- file (Write fd (take sz buf)) ;;
      if negb (cc =? Z.of_nat sz) then printf 1 (line "write(%d) ret %d") [Num (Z.of_nat sz); Num cc] ;; exit else done tt) ;;
    close fd ;;
    call (unlink "bigwrite")) ;;
  say "bigwrite ok".

Fixpoint bigfile_writes (fd : Z) (ks : list nat) (buf : list Z) : uprog (list Z) :=
  match ks with
  | [] => done buf
  | i :: rest =>
      let buf := over (replicate 600 (Z.of_nat i)) buf in
      w <- file (Write fd (take 600 buf)) ;;
      must (w =? 600) (line "write bigfile failed") ;;
      bigfile_writes fd rest buf
  end.
Definition bigfile_reads (fd : Z) (buf : list Z) : uprog (Z * list Z) :=
  loop (fun st : Z * Z * list Z =>
    let '(i, total, buf) := st in
    r <- file (Read fd 300) ;;
    let buf := over r.2 buf in
    if r.1 <? 0 then say "read bigfile failed" ;; exit
    else if r.1 =? 0 then done (inr (total, buf))
    else
      must (r.1 =? 300) (line "short read bigfile") ;;
      must ((in_buf buf 0 =? i / 2) && (in_buf buf 299 =? i / 2)) (line "read bigfile wrong data") ;;
      done (inl (i + 1, total + r.1, buf))) (0, 0, buf).
Definition bigfile (buf : list Z) : uprog (list Z) :=
  say "bigfile test" ;;
  call (unlink "bigfile") ;;
  fd <- open "bigfile" RW ;;
  must (0 <=? fd) (msg "cannot create bigfile") ;;
  buf <- bigfile_writes fd (seq 0 20) buf ;;
  close fd ;;
  fd <- open "bigfile" 0 ;;
  must (0 <=? fd) (line "cannot open bigfile") ;;
  t <- bigfile_reads fd buf ;;
  close fd ;;
  must (t.1 =? 20 * 600) (line "read bigfile wrong total") ;;
  call (unlink "bigfile") ;;
  say "bigfile test ok" ;;
  done t.2.

(** The name that [fsfull] gives its file number [n]. *)
Definition f_name (n : Z) : list Z := [102; 48 + n / 1000; 48 + n mod 1000 / 100; 48 + n mod 100 / 10; 48 + n mod 10].
Definition fsfull_write (fd : Z) (buf : list Z) : uprog Z :=
  loop (fun total : Z =>
    cc <- file (Write fd (take 512 buf)) ;;
    if cc <? 512 then done (inr total) else done (inl (total + cc))) 0.
Definition fsfull (buf : list Z) : uprog unit :=
  say "fsfull test" ;;
  nfiles <- loop (fun nfiles : Z =>
    printf 1 (line "writing %s") [Str (f_name nfiles)] ;;
    fd <- file (Open (f_name nfiles) RW) ;;
    if fd <? 0 then printf 1 (line "open %s failed") [Str (f_name nfiles)] ;; done (inr nfiles) else
    total <- fsfull_write fd buf ;;
    printf 1 (line "wrote %d bytes") [Num total] ;;
    close fd ;;
    if total =? 0 then done (inr nfiles) else done (inl (nfiles + 1))) 0 ;;
  each (rev (seq 0 (Z.to_nat nfiles + 1))) (fun n => call (file (Unlink (f_name (Z.of_nat n))))) ;;
  say "fsfull test finished".

(** [uninit] is the array's contents, in the data that exec.c clears. *)
Definition bsstest (uninit : list Z) : uprog unit :=
  say "bss test" ;;
  each uninit (fun b => must (b =? 0) (line "bss test failed")) ;;
  say "bss test ok".
