(* ===== verification/UsertestsProc.v ===== *)
(** usertests.c: the tests that fork, and [main].

    A [fork] answers 0 in the child.  Accesses to memory whose outcome a test
    depends on are events of their own.  [mem] and [validatetest], which build
    lists in memory from malloc.c and pass raw addresses to the kernel, are
    parameters of [main]. *)

From ITree Require Import Core.ITreeDefinition.
From S2P Require Import Prelude Params CString Mmu Fs Dir Printf Uprog Progs Programs Usertests.
Import U.
#[local] Open Scope uprog_scope.

Definition fork_or (m : string) : uprog Z := pid <- proc Fork ;; must (0 <=? pid) (line m) ;; done pid.
Definition wait_ : uprog unit := call (proc Wait).

(** ** Reference counts across exit *)

Definition exitiputtest : uprog unit :=
  say "exitiput test" ;;
  pid <- fork_or "fork failed" ;;
  if pid =? 0 then
    works (mkdir "iputdir") "mkdir failed" ;;
    works (chdir "iputdir") "child chdir failed" ;;
    works (unlink "../iputdir") "unlink ../iputdir failed" ;;
    exit
  else
    wait_ ;;
    say "exitiput test ok".

Definition openiputtest : uprog unit :=
  say "openiput test" ;;
  works (mkdir "oidir") "mkdir oidir failed" ;;
  pid <- fork_or "fork failed" ;;
  if pid =? 0 then
    refused (open "oidir" O_RDWR) "open directory for write succeeded" ;;
    exit
  else
    call (proc (Sleep 1)) ;;
    zero (unlink "oidir") "unlink failed" ;;
    wait_ ;;
    say "openiput test ok".

Definition exectest : uprog unit :=
  say "exec test" ;;
  works (proc (Exec (text "echo") [text "echo"; text "ALL"; text "TESTS"; text "PASSED"])) "exec echo failed".

(** ** Pipes and processes *)

Definition a_pipe (m : string) : uprog (Z * Z) :=
  o <- file Pipe ;; match o with Some p => done p | None => say m ;; exit end.

(** The [n]th of the blocks that the child of [pipe1] writes. *)
Definition pipe1_block (n : nat) : list Z := map (fun i => u8 (Z.of_nat (n * 1033 + i))) (seq 0 1033).
Definition pipe1_child (fds : Z * Z) : uprog unit :=
  close fds.1 ;;
  each (seq 0 5) (fun n => w <- file (Write fds.2 (pipe1_block n)) ;; must (w =? 1033) (line "pipe1 oops 1")).
(** The bytes are the numbers from [seq] on, modulo 256. *)
Definition in_sequence (l : list Z) (seq : Z) : bool := forallb (fun p => p.2 =? u8 (seq + Z.of_nat p.1)) (imap pair l).
Record p1st : Type := mkp1 { p1_seq : Z; p1_total : Z; p1_cc : Z; p1_buf : list Z }.
Definition pipe1_parent (fds : Z * Z) (buf : list Z) : uprog (option p1st * list Z) :=
  close fds.2 ;;
  loop (fun st : p1st =>
    r <- file (Read fds.1 (p1_cc st)) ;;
    let buf := over r.2 (p1_buf st) in
    if r.1 <=? 0 then done (inr (Some st, buf))
    else if negb (in_sequence (take (Z.to_nat r.1) buf) (p1_seq st)) then say "pipe1 oops 2" ;; done (inr (None, buf))
    else done (inl (mkp1 (p1_seq st + r.1) (p1_total st + r.1) (Z.min (p1_cc st * 2) BUF) buf))) (mkp1 0 0 1 buf).
Definition pipe1 (buf : list Z) : uprog (list Z) :=
  fds <- a_pipe "pipe() failed" ;;
  pid <- proc Fork ;;
  if pid =? 0 then pipe1_child fds ;; exit
  else if 0 <? pid then
    r <- pipe1_parent fds buf ;;
    match r.1 with
    | None => done r.2
    | Some st =>
        (if negb (p1_total st =? 5 * 1033) then printf 1 (line "pipe1 oops 3 total %d") [Num (p1_total st)] ;; exit else done tt) ;;
        close fds.1 ;;
        wait_ ;;
        say "pipe1 ok" ;;
        done r.2
    end
  else say "fork() failed" ;; exit.

Definition spin {R} : uprog R := loop (fun _ : unit => done (inl tt)) tt.
(** [pfds] is what the array holds where [pipe] fails, which is not checked. *)
Definition preempt (pfds : Z * Z) (buf : list Z) : uprog (list Z) :=
  printf 1 (msg "preempt: ") [] ;;
  pid1 <- proc Fork ;;
  if pid1 =? 0 then spin else
  pid2 <- proc Fork ;;
  if pid2 =? 0 then spin else
  o <- file Pipe ;;
  let pfds := default pfds o in
  pid3 <- proc Fork ;;
  if pid3 =? 0 then
    close pfds.1 ;;
    w <- file (Write pfds.2 [120]) ;;
    when (negb (w =? 1)) (printf 1 (msg "preempt write error") []) ;;
    close pfds.2 ;;
    spin
  else
    close pfds.2 ;;
    r <- file (Read pfds.1 BUF) ;;
    let buf := over r.2 buf in
    if negb (r.1 =? 1) then printf 1 (msg "preempt read error") [] ;; done buf else
    close pfds.1 ;;
    printf 1 (msg "kill... ") [] ;;
    call (proc (Kill pid1)) ;;
    call (proc (Kill pid2)) ;;
    call (proc (Kill pid3)) ;;
    printf 1 (msg "wait... ") [] ;;
    wait_ ;; wait_ ;; wait_ ;;
    say "preempt ok" ;;
    done buf.

Fixpoint exitwait_from (n : nat) : uprog unit :=
  match n with
  | O => say "exitwait ok"
  | S m =>
      pid <- proc Fork ;;
      if pid <? 0 then say "fork failed"
      else if pid =? 0 then exit
      else
        w <- proc Wait ;;
        if negb (w =? pid) then say "wait wrong pid" else exitwait_from m
  end.
Definition exitwait : uprog unit := exitwait_from 100.

(** ** Several processes and the file system *)

(** Write until a write fails, at most [n] times. *)
Fixpoint shared_writes (fd : Z) (b : list Z) (n : nat) : uprog unit :=
  match n with
  | O => done tt
  | S m =>
      w <- file (Write fd b) ;;
      if negb (w =? 10) then say "fstests: write sharedfd failed" else shared_writes fd b m
  end.
Definition occurrences (c : Z) (b : list Z) : Z := Z.of_nat (length (List.filter (Z.eqb c) b)).
(** The counts are over the whole array, as far as the file's end as well. *)
Definition shared_counts (fd : Z) (b : list Z) : uprog (Z * Z) :=
  loop (fun st : Z * Z * list Z =>
    let '(nc, np, b) := st in
    r <- file (Read fd 10) ;;
    let b := over r.2 b in
    if r.1 <=? 0 then done (inr (nc, np))
    else done (inl (nc + occurrences 99 b, np + occurrences 112 b, b))) (0, 0, b).
Definition sharedfd : uprog unit :=
  say "sharedfd test" ;;
  call (unlink "sharedfd") ;;
  fd <- open "sharedfd" RW ;;
  if fd <? 0 then printf 1 (msg "fstests: cannot open sharedfd for writing") [] else
  pid <- proc Fork ;;
  let b := replicate 10 (if pid =? 0 then 99 else 112) in
  shared_writes fd b 1000 ;;
  (if pid =? 0 then exit else wait_) ;;
  close fd ;;
  fd <- open "sharedfd" 0 ;;
  if fd <? 0 then say "fstests: cannot open sharedfd for reading" else
  t <- shared_counts fd b ;;
  close fd ;;
  call (unlink "sharedfd") ;;
  if (t.1 =? 10000) && (t.2 =? 10000) then say "sharedfd ok"
  else printf 1 (line "sharedfd oops %d %d") [Num t.1; Num t.2] ;; exit.

Definition ff_name (k : nat) : list Z := [102; 48 + Z.of_nat k].
Definition fourfiles_child (k : nat) : uprog unit :=
  fd <- file (Open (ff_name k) RW) ;;
  must (0 <=? fd) (line "create failed") ;;
  each (seq 0 12) (fun _ =>
    n <- file (Write fd (replicate 500 (48 + Z.of_nat k))) ;;
    if negb (n =? 500) then printf 1 (line "write failed %d") [Num n] ;; exit else done tt) ;;
  exit.
Definition fourfiles_read (k : nat) (buf : list Z) : uprog (list Z) :=
  fd <- file (Open (ff_name k) 0) ;;
  t <- loop (fun st : Z * list Z =>
    r <- file (Read fd BUF) ;;
    let buf := over r.2 st.2 in
    if r.1 <=? 0 then done (inr (st.1, buf))
    else
      must (forallb (fun b => s8 b =? 48 + Z.of_nat k) (take (Z.to_nat r.1) buf)) (line "wrong char") ;;
      done (inl (st.1 + r.1, buf))) (0, buf) ;;
  close fd ;;
  (if negb (t.1 =? 12 * 500) then printf 1 (line "wrong length %d") [Num t.1] ;; exit else done tt) ;;
  call (file (Unlink (ff_name k))) ;;
  done t.2.
Definition fourfiles (buf : list Z) : uprog (list Z) :=
  say "fourfiles test" ;;
  each (seq 0 4) (fun k =>
    call (file (Unlink (ff_name k))) ;;
    pid <- fork_or "fork failed" ;;
    if pid =? 0 then fourfiles_child k else done tt) ;;
  each (seq 0 4) (fun _ => wait_) ;;
  buf <- fourfiles_read 0 buf ;;
  buf <- fourfiles_read 1 buf ;;
  say "fourfiles ok" ;;
  done buf.

(** ** Creating and removing in parallel *)

Definition cd_name (a i : nat) : list Z := two_letters (112 + Z.of_nat a) (48 + Z.of_nat i).
Definition createdelete_child (pi : nat) : uprog unit :=
  each (seq 0 20) (fun i =>
    fd <- file (Open (cd_name pi i) RW) ;;
    must (0 <=? fd) (line "create failed") ;;
    close fd ;;
    when ((0 <? i)%nat && Nat.even i)
      (r <- file (Unlink (cd_name pi (i / 2))) ;; must (0 <=? r) (line "unlink failed"))) ;;
  exit.
Definition createdelete_check (i pi : nat) : uprog unit :=
  fd <- file (Open (cd_name pi i) 0) ;;
  (if ((i =? 0)%nat || (10 <=? i)%nat) && (fd <? 0) then
     printf 1 (line "oops createdelete %s didn't exist") [Str (cd_name pi i)] ;; exit
   else if ((1 <=? i)%nat && (i <? 10)%nat) && (0 <=? fd) then
     printf 1 (line "oops createdelete %s did exist") [Str (cd_name pi i)] ;; exit
   else done tt) ;;
  when (0 <=? fd) (close fd).
(** The names of the last loop are made from [i] alone. *)
Definition createdelete_cleanup : list (list Z) := flat_map (fun i => map (fun _ => cd_name i i) (seq 0 4)) (seq 0 20).
Definition createdelete : uprog unit :=
  say "createdelete test" ;;
  each (seq 0 4) (fun pi => pid <- fork_or "fork failed" ;; if pid =? 0 then createdelete_child pi else done tt) ;;
  each (seq 0 4) (fun _ => wait_) ;;
  each (seq 0 20) (fun i => each (seq 0 4) (createdelete_check i)) ;;
  each createdelete_cleanup (fun n => call (file (Unlink n))) ;;
  say "createdelete ok".

Definition C_name (i : nat) : list Z := two_letters 67 (48 + Z.of_nat i).
Definition concreate_make (i : nat) : uprog unit :=
  call (file (Unlink (C_name i))) ;;
  pid <- proc Fork ;;
  (if (negb (pid =? 0) && (i mod 3 =? 1)%nat) || ((pid =? 0) && (i mod 5 =? 1)%nat) then call (file (Link (text "C0") (C_name i)))
   else
     fd <- file (Open (C_name i) RW) ;;
     (if fd <? 0 then printf 1 (line "concreate create %s failed") [Str (C_name i)] ;; exit else done tt) ;;
     close fd) ;;
  if pid =? 0 then exit else wait_.
(** The entries of the directory, one after the other; [fa] tells which of the
    40 files have been seen. *)
Definition concreate_scan (fd : Z) (de : list Z) : uprog Z :=
  loop (fun st : Z * list bool * list Z =>
    let '(n, fa, de) := st in
    r <- file (Read fd DIRENT_SIZE) ;;
    let de := over r.2 de in
    if r.1 <=? 0 then done (inr n)
    else if de_inum de =? 0 then done (inl (n, fa, de))
    else if (s8 (de !!! 2%nat) =? 67) && (de !!! 4%nat =? 0) then
      let i := s8 (de !!! 3%nat) - 48 in
      let shown := Str (c_string (drop 2 de)) in
      if (i <? 0) || (40 <=? i) then printf 1 (line "concreate weird file %s") [shown] ;; exit
      else if nth (Z.to_nat i) fa false then printf 1 (line "concreate duplicate file %s") [shown] ;; exit
      else done (inl (n + 1, <[Z.to_nat i := true]> fa, de))
    else done (inl (n, fa, de))) (0, replicate 40 false, de).
Definition concreate_end (i : nat) : uprog unit :=
  pid <- fork_or "fork failed" ;;
  (if ((i mod 3 =? 0)%nat && (pid =? 0)) || ((i mod 3 =? 1)%nat && negb (pid =? 0)) then
     each (seq 0 4) (fun _ => fd <- file (Open (C_name i) 0) ;; close fd)
   else each (seq 0 4) (fun _ => call (file (Unlink (C_name i))))) ;;
  if pid =? 0 then exit else wait_.
(** [de] is what the structure holds before the first read. *)
Definition concreate (de : list Z) : uprog unit :=
  say "concreate test" ;;
  each (seq 0 40) concreate_make ;;
  fd <- open "." 0 ;;
  n <- concreate_scan fd de ;;
  close fd ;;
  must (n =? 40) (line "concreate not enough files in directory listing") ;;
  each (seq 0 40) concreate_end ;;
  say "concreate ok".

Fixpoint linkunlink_ops (n : nat) (x : Z) : uprog unit :=
  match n with
  | O => done tt
  | S m =>
      let x := u32 (x * 1103515245 + 12345) in
      (if x mod 3 =? 0 then fd <- open "x" RW ;; close fd
       else if x mod 3 =? 1 then call (link "cat" "x")
       else call (unlink "x")) ;;
      linkunlink_ops m x
  end.
Definition linkunlink : uprog unit :=
  say "linkunlink test" ;;
  call (unlink "x") ;;
  pid <- fork_or "fork failed" ;;
  linkunlink_ops 100 (if pid =? 0 then 97 else 1) ;;
  (if pid =? 0 then exit else wait_) ;;
  say "linkunlink ok".

Definition ut_forktest : uprog unit := forktest (fun s => printf 1 s []) (line "fork claimed to work 1000 times!").

Definition bigarg : list Z := text "bigargs test: failed" ++ [10] ++ replicate 199 32.
Definition bigargtest : uprog unit :=
  call (unlink "bigarg-ok") ;;
  pid <- proc Fork ;;
  if pid =? 0 then
    say "bigarg test" ;;
    call (proc (Exec (text "echo") (replicate 31 bigarg))) ;;
    say "bigarg test ok" ;;
    fd <- open "bigarg-ok" O_CREATE ;;
    close fd ;;
    exit
  else if pid <? 0 then say "bigargtest: fork failed" ;; exit
  else
    wait_ ;;
    fd <- open "bigarg-ok" 0 ;;
    must (0 <=? fd) (line "bigarg test failed!") ;;
    close fd ;;
    call (unlink "bigarg-ok").

(** ** Memory *)

Definition sbrk (n : Z) : uprog Z := r <- proc (Sbrk (s32 n)) ;; done (u32 r).
Definition BIG : Z := 100 * 1024 * 1024.
(** Growing by single bytes, from [a]: the address after the last. *)
Fixpoint sbrk_bytes (n : nat) (i a : Z) : uprog Z :=
  match n with
  | O => done a
  | S m =>
      b <- sbrk 1 ;;
      (if negb (b =? a) then printf 1 (line "sbrk test failed %d %x %x") [Num i; Num a; Num b] ;; exit else done tt) ;;
      proc (Store b 1) ;;
      sbrk_bytes m (i + 1) (u32 (b + 1))
  end.
Definition sbrk_small : uprog unit :=
  a <- sbrk 0 ;;
  a <- sbrk_bytes 5000 0 a ;;
  pid <- fork_or "sbrk test fork failed" ;;
  call (sbrk 1) ;;
  c <- sbrk 1 ;;
  must (c =? u32 (a + 1)) (line "sbrk test failed post-fork") ;;
  if pid =? 0 then exit else wait_.
Definition sbrk_big (oldbrk : Z) : uprog unit :=
  a <- sbrk 0 ;;
  p <- sbrk (u32 (BIG - a)) ;;
  must (p =? a) (line "sbrk test failed to grow big address space; enough phys mem?") ;;
  let lastaddr := BIG - 1 in
  proc (Store lastaddr 99) ;;
  a <- sbrk 0 ;;
  c <- sbrk (-4096) ;;
  must (negb (c =? 4294967295)) (line "sbrk could not deallocate") ;;
  c <- sbrk 0 ;;
  (if negb (c =? u32 (a - 4096)) then printf 1 (line "sbrk deallocation produced wrong address, a %x c %x") [Num a; Num c] ;; exit else done tt) ;;
  a <- sbrk 0 ;;
  c <- sbrk 4096 ;;
  now <- (if negb (c =? a) then done None else n <- sbrk 0 ;; done (Some n)) ;;
  (if match now with None => true | Some n => negb (n =? u32 (a + 4096)) end
   then printf 1 (line "sbrk re-allocation failed, a %x c %x") [Num a; Num c] ;; exit else done tt) ;;
  b <- proc (Load lastaddr) ;;
  must (negb (b =? 99)) (line "sbrk de-allocation didn't really deallocate") ;;
  a <- sbrk 0 ;;
  n <- sbrk 0 ;;
  c <- sbrk (- (n - oldbrk)) ;;
  if negb (c =? a) then printf 1 (line "sbrk downsize failed, a %x c %x") [Num a; Num c] ;; exit else done tt.
(** Each child is to die at its access. *)
Definition sbrk_kernel : uprog unit :=
  each (seq 0 40) (fun k =>
    let a := KERNBASE + 50000 * Z.of_nat k in
    ppid <- proc Getpid ;;
    pid <- fork_or "fork failed" ;;
    if pid =? 0 then
      b <- proc (Load a) ;;
      printf 1 (line "oops could read %x = %x") [Num a; Num (s8 b)] ;;
      call (proc (Kill ppid)) ;;
      exit
    else wait_).
(** The ten children that use up the memory: their pids. *)
Fixpoint sbrk_hogs (fds : Z * Z) (n : nat) (pids : list Z) : uprog (list Z) :=
  match n with
  | O => done (rev pids)
  | S m =>
      pid <- proc Fork ;;
      if pid =? 0 then
        a <- sbrk 0 ;;
        call (sbrk (u32 (BIG - a))) ;;
        call (file (Write fds.2 [120])) ;;
        loop (fun _ : unit => call (proc (Sleep 1000)) ;; done (inl tt)) tt
      else
        when (negb (pid =? -1)) (call (file (Read fds.1 1))) ;;
        sbrk_hogs fds m (pid :: pids)
  end.
Definition sbrktest : uprog unit :=
  say "sbrk test" ;;
  oldbrk <- sbrk 0 ;;
  sbrk_small ;;
  sbrk_big oldbrk ;;
  sbrk_kernel ;;
  fds <- a_pipe "pipe() failed" ;;
  pids <- sbrk_hogs fds 10 [] ;;
  c <- sbrk 4096 ;;
  each pids (fun pid => when (negb (pid =? -1)) (call (proc (Kill pid)) ;; wait_)) ;;
  must (negb (c =? 4294967295)) (line "failed sbrk leaked memory") ;;
  now <- sbrk 0 ;;
  when (oldbrk <? now) (n <- sbrk 0 ;; call (sbrk (- (n - oldbrk)))) ;;
  say "sbrk test OK".

(** ** [rand], which nothing uses, and [main] *)

Definition rand (randstate : Z) : Z := u32 (randstate * 1664525 + 1013904223).

Definition usertests_main (mem validatetest : uprog unit) (de : list Z) (pfds : Z * Z) (buf uninit : list Z) : uprog unit :=
  say "usertests starting" ;;
  fd <- open "usertests.ran" 0 ;;
  must (fd <? 0) (line "already ran user tests -- rebuild fs.img") ;;
  fd <- open "usertests.ran" O_CREATE ;;
  close fd ;;
  createdelete ;;
  linkunlink ;;
  concreate de ;;
  buf <- fourfiles buf ;;
  sharedfd ;;
  bigargtest ;;
  bigwrite buf ;;
  bigargtest ;;
  bsstest uninit ;;
  sbrktest ;;
  validatetest ;;
  opentest ;;
  buf <- writetest buf ;;
  buf <- writetest1 buf ;;
  createtest ;;
  openiputtest ;;
  exitiputtest ;;
  iputtest ;;
  mem ;;
  buf <- pipe1 buf ;;
  buf <- preempt pfds buf ;;
  exitwait ;;
  rmdot ;;
  fourteen ;;
  buf <- bigfile buf ;;
  buf <- subdir buf ;;
  buf <- linktest buf ;;
  call (unlinkread buf) ;;
  dirfile ;;
  iref ;;
  ut_forktest ;;
  bigdir ;;
  exectest ;;
  exit.

(** The tests of [main] that make calls on files only, without [bigdir], in
    its order. *)
Definition file_tests (buf : list Z) : uprog unit :=
  bigwrite buf ;;
  opentest ;;
  buf <- writetest buf ;;
  buf <- writetest1 buf ;;
  createtest ;;
  iputtest ;;
  rmdot ;;
  fourteen ;;
  buf <- bigfile buf ;;
  buf <- subdir buf ;;
  buf <- linktest buf ;;
  call (unlinkread buf) ;;
  dirfile ;;
  iref.
