(* ===== verification/UsertestsRun.v ===== *)
(** A run of usertests.c on the kernel of this development, which exercises the
    definitions together.

    The tests that make calls on files only, without bigdir, run one after the
    other, in the order of [main], on the machine of [KernelWitness]: from the
    system calls down to the inodes, the log, the buffer cache and the disk. *)

From ITree Require Import Core.ITreeDefinition.
From S2P Require Import Prelude Params Crash Fs Kernel Printf Uprog Progs Programs ProgramsSpec Ksys KernelOS KernelWitness Usertests UsertestsProc.

Module TestRun.
#[local] Existing Instance CrashWitness.dev.

Definition FUEL : nat := 100 * 100.
Definition buf0 : list Z := replicate (Z.to_nat BUF) 0.

(** What the console sent when the program returned. *)
Definition prints (t : uprog unit) : option (list Z) :=
  match run (ksys 0) FUEL t KernelW.s1 with
  | Ret (Returned _) s => Some (sent s)
  | _ => None
  end.

Definition lines (l : list string) : list Z := flat_map line l.

(** Booted, with the console at descriptors 0 to 2, the kernel runs the tests of
    [file_tests] up to the return of the last, none of them exits, and the serial
    port sends what they print when all checks succeed. *)
Example usertests_run : prints (file_tests buf0) = Some (lines
  ["bigwrite test"; "bigwrite ok"; "open test"; "open test ok";
   "small file test"; "creat small succeeded; ok"; "writes ok"; "open small succeeded ok"; "read succeeded ok"; "small file test ok";
   "big files test"; "big files ok"; "many creates, followed by unlink test"; "many creates, followed by unlink; ok";
   "iput test"; "iput test ok"; "rmdot test"; "rmdot ok"; "fourteen test"; "fourteen ok"; "bigfile test"; "bigfile test ok";
   "subdir test"; "subdir ok"; "linktest"; "linktest ok"; "unlinkread test"; "unlinkread ok";
   "dir vs file"; "dir vs file OK"; "empty file name"; "empty file name OK"]%string).
Proof. vm_compute. reflexivity. Qed.
End TestRun.
