(* ===== verification/Bootmain.v ===== *)
(** The boot loader: bootmain.c.

    The boot disk is a drive behind its ports: the registers of a command, the
    data of a sector that has been read, and how many times the status will
    still say busy.  Programming the drive or taking its data while it is busy is
    a fault.  [sectors] is the disk, the kernel's file from sector 1 on; [busy]
    says for how many readings of the status the drive works on a sector.
    Memory is addressed physically. *)

From S2P Require Import Prelude Params CString Mmu Vm Copyout.

(** ** The machine *)

Record ata : Type := mkata { at_regs : Z -> Z; at_busy : nat; at_data : list Z }.
Record bootst : Type := mkboot { bmem : mem; drive : ata }.
Definition set_drive (d : ata) (s : bootst) : bootst := mkboot (bmem s) d.
Definition set_bmem (m : mem) (s : bootst) : bootst := mkboot m (drive s).

Definition SECTSIZE : Z := 512.
Definition ELFSCRATCH : Z := 65536.

Section with_disk.
Context (sectors : Z -> list Z) (busy : Z -> nat) (POLLS : nat).
Abbreviation B := (M bootst).

(** Port 0x1F7, read: busy, or ready. *)
Definition ata_status : B Z := fun s =>
  let d := drive s in
  match at_busy d with
  | O => Ret 64 s
  | S n => Ret 128 (set_drive (mkata (at_regs d) n (at_data d)) s)
  end.
Definition idle : B ata :=
  d <- gets drive ;; match at_busy d with O => ret d | S _ => fault "drive busy" end.
(** Ports 0x1F2 to 0x1F6. *)
Definition ata_reg (port v : Z) : B unit :=
  d <- idle ;; modify (set_drive (mkata (fun p => if p =? port then u8 v else at_regs d p) (at_busy d) (at_data d))).
(** The sector the registers name: 28 bits. *)
Definition lba (r : Z -> Z) : Z := r 0x1F3 + 256 * r 0x1F4 + 65536 * r 0x1F5 + 16777216 * (r 0x1F6 mod 16).
(** Port 0x1F7, written: the command to read as many sectors as the count says;
    the loader asks for one. *)
Definition ata_command (c : Z) : B unit :=
  d <- idle ;;
  if (c =? 0x20) && (at_regs d 0x1F2 =? 1)
  then modify (set_drive (mkata (at_regs d) (busy (lba (at_regs d))) (sectors (lba (at_regs d)))))
  else fault "drive command".
Definition ata_insl (dst : Z) (cnt : nat) : B unit :=
  d <- idle ;;
  if (length (at_data d) <? 4 * cnt)%nat then fault "no data" else
  modify (fun s => set_bmem (wr_bytes dst (take (4 * cnt) (at_data d)) (bmem s)) s) ;;
  modify (set_drive (mkata (at_regs d) (at_busy d) (drop (4 * cnt) (at_data d)))).

(** ** bootmain.c *)

Fixpoint waitdisk (fuel : nat) : B unit :=
  x <- ata_status ;;
  if Z.land x 0xC0 =? 0x40 then ret tt else
  match fuel with O => fault "waitdisk" | S f => waitdisk f end.

Definition readsect (dst offset : Z) : B unit :=
  waitdisk POLLS ;;
  ata_reg 0x1F2 1 ;;
  ata_reg 0x1F3 offset ;;
  ata_reg 0x1F4 (Z.shiftr offset 8) ;;
  ata_reg 0x1F5 (Z.shiftr offset 16) ;;
  ata_reg 0x1F6 (Z.lor (Z.shiftr offset 24) 0xE0) ;;
  ata_command 0x20 ;;
  waitdisk POLLS ;;
  ata_insl dst 128.

Fixpoint readseg_loop (fuel : nat) (pa epa offset : Z) : B unit :=
  if pa <? epa then
    match fuel with
    | O => fault "readseg"
    | S f => readsect pa offset ;; readseg_loop f (u32 (pa + SECTSIZE)) epa (u32 (offset + 1))
    end
  else ret tt.
(** The loop reads at most one sector more than [count] takes, and one. *)
Definition readseg (pa count offset : Z) : B unit :=
  let epa := u32 (pa + count) in
  let pa := u32 (pa - offset mod SECTSIZE) in
  readseg_loop (Z.to_nat (count / SECTSIZE + 2)) pa epa (u32 (offset / SECTSIZE + 1)).

(** elf.h, as the loader uses it: fields of the structures at an address. *)
Definition bytes_at (m : mem) (a : Z) (n : nat) : list Z := map (fun i => m (a + Z.of_nat i)) (seq 0 n).
Definition word_at (m : mem) (a : Z) : Z := le_val (bytes_at m a 4).
Definition short_at (m : mem) (a : Z) : Z := le_val (bytes_at m a 2).
Definition elf_magic_at (m : mem) (e : Z) : Z := word_at m e.
Definition elf_entry_at (m : mem) (e : Z) : Z := word_at m (e + 24).
Definition elf_phoff_at (m : mem) (e : Z) : Z := word_at m (e + 28).
Definition elf_phnum_at (m : mem) (e : Z) : Z := short_at m (e + 44).
Record seg : Type := mkseg { sg_off : Z; sg_paddr : Z; sg_filesz : Z; sg_memsz : Z }.
Definition seg_at (m : mem) (p : Z) : seg := mkseg (word_at m (p + 4)) (word_at m (p + 12)) (word_at m (p + 16)) (word_at m (p + 20)).

Definition stosb (a b n : Z) : B unit := modify (fun s => set_bmem (wr_bytes a (replicate (Z.to_nat n) b) (bmem s)) s).

(** The header is read again after the segment, as the code reads it. *)
Definition load_seg (ph : Z) : B unit :=
  h <- gets (fun s => seg_at (bmem s) ph) ;;
  let pa := sg_paddr h in
  readseg pa (sg_filesz h) (sg_off h) ;;
  h <- gets (fun s => seg_at (bmem s) ph) ;;
  when (sg_filesz h <? sg_memsz h) (stosb (u32 (pa + sg_filesz h)) 0 (sg_memsz h - sg_filesz h)).
Fixpoint load_segs (n : nat) (ph : Z) : B unit :=
  match n with
  | O => ret tt
  | S m => load_seg ph ;; load_segs m (u32 (ph + 32))
  end.
(** The entry point that is jumped to, or a return to bootasm.S. *)
Definition bootmain : B (option Z) :=
  readseg ELFSCRATCH 4096 0 ;;
  m <- gets bmem ;;
  if negb (elf_magic_at m ELFSCRATCH =? 0x464C457F) then ret None else
  load_segs (Z.to_nat (elf_phnum_at m ELFSCRATCH)) (u32 (ELFSCRATCH + elf_phoff_at m ELFSCRATCH)) ;;
  m <- gets bmem ;;
  ret (Some (elf_entry_at m ELFSCRATCH)).

(** ** Reading sectors *)

Context (Hsec : forall k, 1 <= k < 2 ^ 28 -> length (sectors k) = 512%nat).
Context (Hbusy : forall k, (busy k <= POLLS)%nat).

Lemma waitdisk_ok fuel : forall s, (at_busy (drive s) <= fuel)%nat ->
  waitdisk fuel s = Ret tt (set_drive (mkata (at_regs (drive s)) 0 (at_data (drive s))) s).
Proof.
  induction fuel as [|f IH]; intros [m [r [|n] d]] Hn; cbn in Hn; try lia; try reflexivity.
  cbn [waitdisk]. unfold bind at 1, ata_status. cbn [drive at_busy set_drive at_regs at_data].
  change (Z.land 128 192 =? 64) with false. cbv iota. rewrite IH by (cbn; lia). done.
Qed.

Lemma lor_E0 x : 0 <= x < 16 -> u8 (Z.lor x 0xE0) mod 16 = x.
Proof.
  intros Hx. assert (x = 0 \/ x = 1 \/ x = 2 \/ x = 3 \/ x = 4 \/ x = 5 \/ x = 6 \/ x = 7 \/ x = 8 \/ x = 9 \/ x = 10 \/ x = 11 \/ x = 12 \/ x = 13 \/ x = 14 \/ x = 15) as H by lia.
  repeat (destruct H as [->|H]; [reflexivity|]). by subst.
Qed.

Lemma lba_split off : 0 <= off < 2 ^ 28 ->
  u8 off + 256 * u8 (Z.shiftr off 8) + 65536 * u8 (Z.shiftr off 16) + 16777216 * (u8 (Z.lor (Z.shiftr off 24) 0xE0) mod 16) = off.
Proof.
  intros Hoff. rewrite !Z.shiftr_div_pow2 by lia. change (2 ^ 8) with 256. change (2 ^ 16) with 65536. change (2 ^ 24) with 16777216.
  rewrite lor_E0 by (split; [apply Z.div_pos; lia|apply Z.div_lt_upper_bound; lia]). unfold u8.
  change (2 ^ 8) with 256. Z.div_mod_to_equations. lia.
Qed.

Lemma readsect_ok s dst off : (at_busy (drive s) <= POLLS)%nat -> 1 <= off < 2 ^ 28 ->
  exists d, readsect dst off s = Ret tt (mkboot (wr_bytes dst (sectors off) (bmem s)) d) /\ at_busy d = 0%nat.
Proof.
  intros Hb Hoff. unfold readsect. destruct s as [m [r n l]]. unfold bind at 1. rewrite waitdisk_ok by done. cbn [drive at_regs at_data set_drive bmem].
  unfold ata_reg, ata_command, idle, bind, gets, modify, ret. cbn [drive at_busy at_regs at_data set_drive bmem].
  cbn [Z.eqb Pos.eqb andb]. change (u8 1 =? 1) with true. cbv iota.
  cbv beta. match goal with |- context [lba ?f] => set (r' := f) end.
  assert (lba r' = off) as El by (apply lba_split; lia).
  rewrite El. rewrite waitdisk_ok by (cbn; apply Hbusy). cbn [drive at_busy at_regs at_data set_drive bmem].
  unfold ata_insl, idle, bind, gets, modify, ret. cbn [drive at_busy at_regs at_data set_drive bmem].
  rewrite Hsec by done. change (512 <? 4 * 128)%nat with false. cbv iota. cbn [set_bmem bmem drive set_drive].
  rewrite take_ge by (rewrite Hsec; [lia|done]). eexists. split; [reflexivity|done].
Qed.

(** ** Segments *)

(** Byte [p] of the kernel's file. *)
Definition kbyte (p : Z) : Z := sectors (1 + p / SECTSIZE) !!! Z.to_nat (p mod SECTSIZE).
Definition ready (s : bootst) : Prop := (at_busy (drive s) <= POLLS)%nat.

Lemma readseg_loop_ok fuel : forall s pa epa off (k : nat), ready s -> (k <= fuel)%nat ->
  0 <= pa -> pa + 512 * Z.of_nat k < 2 ^ 32 -> pa + 512 * Z.of_nat k - 512 < epa <= pa + 512 * Z.of_nat k -> 1 <= off -> off + Z.of_nat k <= 2 ^ 28 ->
  exists s', readseg_loop fuel pa epa off s = Ret tt s' /\ ready s' /\
    forall b, bmem s' b = if decide (pa <= b < pa + 512 * Z.of_nat k) then kbyte (512 * (off - 1) + (b - pa)) else bmem s b.
Proof.
  induction fuel as [|f IH]; intros s pa epa off k Hs Hk Hpa Hw He Hoff Hlim; cbn [readseg_loop].
  { rewrite (proj2 (Z.ltb_ge _ _)) by lia. exists s. split_and!; try done. intros b. by rewrite decide_False by lia. }
  destruct k as [|k].
  { rewrite (proj2 (Z.ltb_ge _ _)) by lia. exists s. split_and!; try done. intros b. by rewrite decide_False by lia. }
  rewrite (proj2 (Z.ltb_lt _ _)) by lia. destruct (readsect_ok s pa off Hs ltac:(lia)) as (d & Er & Hd).
  unfold bind at 1. rewrite Er. unfold SECTSIZE. rewrite !u32_small by lia.
  destruct (IH (mkboot (wr_bytes pa (sectors off) (bmem s)) d) (pa + 512) epa (off + 1) k) as (s' & Es & Hs' & Hb); try lia.
  { unfold ready. cbn [drive]. lia. }
  exists s'. split_and!; [done|done|]. intros b. rewrite Hb. cbn [bmem].
  destruct (decide (pa + 512 <= b < pa + 512 + 512 * Z.of_nat k)) as [H1|H1].
  - rewrite decide_True by lia. f_equal. lia.
  - rewrite wr_bytes_spec, Hsec by lia. destruct (decide (pa <= b < pa + Z.of_nat 512)) as [H2|H2].
    + rewrite decide_True by lia. unfold kbyte, SECTSIZE. replace (512 * (off - 1) + (b - pa)) with ((b - pa) + (off - 1) * 512) by lia.
      rewrite Z.div_add, Z.mod_add, Z.div_small, Z.mod_small by lia. by replace (1 + (0 + (off - 1))) with off by lia.
    + rewrite decide_False by lia. done.
Qed.

(** Where [readseg] writes: whole sectors. *)
Definition seg_lo (h : seg) : Z := sg_paddr h - sg_off h mod 512.
Definition seg_sectors (h : seg) : Z := (sg_off h mod 512 + sg_filesz h + 511) / 512.

Lemma readseg_ok s h : ready s -> 0 <= sg_filesz h -> 0 <= sg_off h -> 0 <= seg_lo h -> seg_lo h + 512 * seg_sectors h < 2 ^ 32 ->
  sg_off h + sg_filesz h <= 2 ^ 36 ->
  exists s', readseg (sg_paddr h) (sg_filesz h) (sg_off h) s = Ret tt s' /\ ready s' /\
    forall b, bmem s' b = if decide (seg_lo h <= b < seg_lo h + 512 * seg_sectors h) then kbyte (sg_off h + (b - sg_paddr h)) else bmem s b.
Proof.
  destruct h as [off pa fs ms]. unfold seg_lo, seg_sectors. cbn [sg_off sg_paddr sg_filesz sg_memsz]. intros Hs Hf Ho Hlo Hw Hlim.
  set (r := off mod 512) in *. set (k := (r + fs + 511) / 512) in *.
  assert (0 <= r < 512) as Hr by (apply Z.mod_pos_bound; lia).
  assert (512 * k - 512 < r + fs <= 512 * k) as Hk by (unfold k; Z.div_mod_to_equations; lia).
  assert (0 <= k) as Hk0 by lia.
  assert (off = 512 * (off / 512) + r) as Eoff by (unfold r; pose proof (Z.div_mod off 512); lia).
  unfold readseg, SECTSIZE. fold r. assert (0 <= off / 512 <= 2 ^ 27) as Hq by (Z.div_mod_to_equations; lia).
  rewrite !u32_small by lia.
  destruct (readseg_loop_ok (Z.to_nat (fs / 512 + 2)) s (pa - r) (pa + fs) (off / 512 + 1) (Z.to_nat k)) as (s' & Es & Hs' & Hb); try done; try lia.
  { apply Z2Nat.inj_le; [lia|..]; unfold k; Z.div_mod_to_equations; lia. }
  exists s'. split_and!; [done|done|]. intros b. rewrite Hb, Z2Nat.id by lia. case_decide; [|done]. f_equal. lia.
Qed.

(** ** The kernel's file *)

Definition k_phoff : Z := elf_phoff_at kbyte 0.
Definition k_phnum : Z := elf_phnum_at kbyte 0.
Definition k_seg (i : nat) : seg := seg_at kbyte (k_phoff + 32 * Z.of_nat i).
(** What a segment occupies in memory, and what it is to hold there. *)
Definition seg_size (h : seg) : Z := Z.max (sg_filesz h) (sg_memsz h).
Definition seg_byte (h : seg) (j : Z) : Z := if j <? sg_filesz h then kbyte (sg_off h + j) else 0.
Definition seg_hi (h : seg) : Z := Z.max (seg_lo h + 512 * seg_sectors h) (sg_paddr h + sg_memsz h).

(** The headers are in the first page, every segment fits in memory and stays
    away from that page's copy, and loading a segment does not overwrite what an
    earlier one occupies. *)
Record kernel_ok : Prop := {
  ke_phs : 0 <= k_phoff /\ k_phoff + 32 * k_phnum <= 4096;
  ke_num : 0 <= k_phnum;
  ke_fields i : (i < Z.to_nat k_phnum)%nat -> 0 <= sg_filesz (k_seg i) /\ 0 <= sg_memsz (k_seg i) /\ 0 <= sg_off (k_seg i);
  ke_fit i : (i < Z.to_nat k_phnum)%nat -> 0 <= seg_lo (k_seg i) /\ seg_hi (k_seg i) < 2 ^ 32 /\ sg_off (k_seg i) + sg_filesz (k_seg i) <= 2 ^ 36;
  ke_scratch i : (i < Z.to_nat k_phnum)%nat -> seg_hi (k_seg i) <= ELFSCRATCH \/ ELFSCRATCH + 4096 <= seg_lo (k_seg i);
  ke_apart i j : (i < j < Z.to_nat k_phnum)%nat ->
    seg_hi (k_seg j) <= sg_paddr (k_seg i) \/ sg_paddr (k_seg i) + seg_size (k_seg i) <= seg_lo (k_seg j)
}.

Section loads.
Context (HK : kernel_ok).

(** The first page of the file is at the scratch address. *)
Definition page_in (m : mem) : Prop := forall p, 0 <= p < 4096 -> m (ELFSCRATCH + p) = kbyte p.

Lemma bytes_at_page m a n : page_in m -> 0 <= a -> a + Z.of_nat n <= 4096 -> bytes_at m (ELFSCRATCH + a) n = bytes_at kbyte a n.
Proof.
  intros Hm Ha Hn. unfold bytes_at. apply map_ext_in. intros i Hi%in_seq. rewrite <- Z.add_assoc. apply Hm. lia.
Qed.
Lemma word_at_page m a : page_in m -> 0 <= a -> a + 4 <= 4096 -> word_at m (ELFSCRATCH + a) = word_at kbyte a.
Proof. intros. unfold word_at. by rewrite bytes_at_page. Qed.
Lemma seg_at_page m a : page_in m -> 0 <= a -> a + 32 <= 4096 -> seg_at m (ELFSCRATCH + a) = seg_at kbyte a.
Proof. intros. unfold seg_at. rewrite <- !Z.add_assoc, !word_at_page by (done || lia). done. Qed.

Definition loaded (m : mem) (h : seg) : Prop := forall j, 0 <= j < seg_size h -> m (sg_paddr h + j) = seg_byte h j.

Lemma load_seg_ok s i : (i < Z.to_nat k_phnum)%nat -> ready s -> page_in (bmem s) ->
  exists s', load_seg (ELFSCRATCH + (k_phoff + 32 * Z.of_nat i)) s = Ret tt s' /\ ready s' /\ page_in (bmem s') /\ loaded (bmem s') (k_seg i) /\
    forall b, b < seg_lo (k_seg i) \/ seg_hi (k_seg i) <= b -> bmem s' b = bmem s b.
Proof.
  intros Hi Hs Hp. pose proof HK as [[K1 K2] K3 K4 K5 K6 _]. specialize (K4 i Hi). specialize (K5 i Hi). specialize (K6 i Hi).
  assert (forall m, page_in m -> seg_at m (ELFSCRATCH + (k_phoff + 32 * Z.of_nat i)) = k_seg i) as Eseg.
  { intros m Hm. apply seg_at_page; [done|lia|lia]. }
  set (h := k_seg i) in *. unfold load_seg. unfold bind at 1, gets. rewrite (Eseg _ Hp).
  assert (0 <= seg_sectors h) as Hss by (unfold seg_sectors; apply Z.div_pos; [pose proof (Z.mod_pos_bound (sg_off h) 512); lia|lia]).
  assert (seg_lo h <= sg_paddr h /\ sg_paddr h + sg_filesz h <= seg_lo h + 512 * seg_sectors h) as [Hl1 Hl2].
  { unfold seg_lo, seg_sectors. pose proof (Z.mod_pos_bound (sg_off h) 512). Z.div_mod_to_equations. lia. }
  unfold seg_hi in *. destruct (readseg_ok s h Hs) as (s1 & E1 & Hs1 & Hb1); try lia.
  unfold bind at 1. rewrite E1. unfold bind at 1, gets.
  assert (page_in (bmem s1)) as Hp1 by (intros p Hpp; rewrite Hb1, decide_False by lia; by apply Hp). rewrite (Eseg _ Hp1).
  assert (forall j, 0 <= j < sg_filesz h -> bmem s1 (sg_paddr h + j) = seg_byte h j) as Hf.
  { intros j Hj. rewrite Hb1, decide_True by lia. unfold seg_byte. rewrite (proj2 (Z.ltb_lt _ _)) by lia. f_equal. lia. }
  unfold when. destruct (Z.ltb_spec (sg_filesz h) (sg_memsz h)) as [Hlt|Hge].
  - unfold stosb, modify. rewrite u32_small by lia. eexists. split; [reflexivity|]. split; [done|].
    assert (forall b, wr_bytes (sg_paddr h + sg_filesz h) (replicate (Z.to_nat (sg_memsz h - sg_filesz h)) 0) (bmem s1) b =
      if decide (sg_paddr h + sg_filesz h <= b < sg_paddr h + sg_memsz h) then 0 else bmem s1 b) as Hw.
    { intros b. rewrite wr_bytes_spec, length_replicate. destruct (decide (_ <= b < sg_paddr h + sg_memsz h)).
      - rewrite decide_True, lookup_total_replicate_2 by lia. done.
      - by rewrite decide_False by lia. }
    cbn [set_bmem bmem]. split_and!.
    + intros p Hpp. rewrite Hw, decide_False by lia. by apply Hp1.
    + intros j Hj. unfold seg_size in Hj. rewrite Hw. case_decide as Hd; [|apply Hf; lia].
      unfold seg_byte. by rewrite (proj2 (Z.ltb_ge _ _)) by lia.
    + intros b Hb. rewrite Hw, decide_False by lia. rewrite Hb1, decide_False by lia. done.
  - eexists. split; [reflexivity|]. split_and!; [done|done| |].
    + intros j Hj. unfold seg_size in Hj. apply Hf. lia.
    + intros b Hb. rewrite Hb1, decide_False by lia. done.
Qed.

Lemma load_segs_ok n : forall s i, (i + n = Z.to_nat k_phnum)%nat -> ready s -> page_in (bmem s) ->
  (forall j, (j < i)%nat -> loaded (bmem s) (k_seg j)) ->
  exists s', load_segs n (ELFSCRATCH + (k_phoff + 32 * Z.of_nat i)) s = Ret tt s' /\ page_in (bmem s') /\
    forall j, (j < Z.to_nat k_phnum)%nat -> loaded (bmem s') (k_seg j).
Proof.
  induction n as [|n IH]; intros s i Hi Hs Hp Hl; cbn [load_segs].
  { exists s. split_and!; [done|done|]. intros j Hj. apply Hl. lia. }
  destruct (load_seg_ok s i ltac:(lia) Hs Hp) as (s1 & E1 & Hs1 & Hp1 & Hl1 & Hb1). unfold bind at 1. rewrite E1.
  pose proof HK as [[K1 K2] K3 K4 _ _ K6].
  replace (u32 (ELFSCRATCH + (k_phoff + 32 * Z.of_nat i) + 32)) with (ELFSCRATCH + (k_phoff + 32 * Z.of_nat (S i))).
  2:{ rewrite u32_small; unfold ELFSCRATCH; lia. }
  apply IH; [lia|done|done|]. intros j Hj. destruct (decide (j = i)) as [->|Hne]; [done|].
  intros x Hx. rewrite Hb1; [by apply Hl; [lia|]|]. specialize (K6 j i ltac:(lia)). lia.
Qed.

End loads.

Lemma first_page s : ready s -> exists s', readseg ELFSCRATCH 4096 0 s = Ret tt s' /\ ready s' /\ page_in (bmem s') /\
  forall b, ~ (ELFSCRATCH <= b < ELFSCRATCH + 4096) -> bmem s' b = bmem s b.
Proof.
  intros Hs. destruct (readseg_ok s (mkseg 0 ELFSCRATCH 4096 0) Hs) as (s' & E & Hs' & Hb); [vm_compute; congruence..|].
  unfold seg_lo, seg_sectors in Hb. cbn [sg_off sg_paddr sg_filesz] in Hb. change (0 mod 512) with 0 in Hb. change ((0 + 4096 + 511) / 512) with 8 in Hb.
  rewrite Z.sub_0_r in Hb. exists s'. split_and!; [done|done| |].
  - intros p Hp. rewrite Hb, decide_True by lia. f_equal. lia.
  - intros b Hn. rewrite Hb, decide_False by lia. done.
Qed.

Lemma magic_page m : page_in m -> elf_magic_at m ELFSCRATCH = elf_magic_at kbyte 0.
Proof. intros Hm. apply (word_at_page m 0 Hm); lia. Qed.


(** A disk without an ELF file: [bootmain] returns, and has written to the
    scratch page only. *)
Theorem bootmain_rejects s : ready s -> elf_magic_at kbyte 0 <> 0x464C457F ->
  exists s', bootmain s = Ret None s' /\ forall b, ~ (ELFSCRATCH <= b < ELFSCRATCH + 4096) -> bmem s' b = bmem s b.
Proof.
  intros Hs Hmagic. destruct (first_page s Hs) as (s1 & E1 & Hs1 & Hp1 & Hb). unfold bootmain. unfold bind at 1. rewrite E1. unfold bind at 1, gets.
  rewrite magic_page by done. rewrite (proj2 (Z.eqb_neq _ _) Hmagic). by exists s1.
Qed.
End with_disk.

(** ** A kernel of one segment: three bytes of the file and two zeroes *)

Module BootW.
Definition header : list Z :=
  [127; 69; 76; 70] ++ replicate 20 0 ++ le_bytes 4 0x10000C ++ le_bytes 4 52 ++ replicate 12 0 ++ le_bytes 2 1 ++ replicate 6 0 ++
  le_bytes 4 1 ++ le_bytes 4 4096 ++ le_bytes 4 0x100000 ++ le_bytes 4 0x100000 ++ le_bytes 4 3 ++ le_bytes 4 5 ++ replicate 8 0.
Definition pad (l : list Z) : list Z := l ++ replicate (512 - length l) 0.
Definition disk0 (k : Z) : list Z := if k =? 1 then pad header else if k =? 9 then pad [7; 8; 9] else pad [].
Definition s0 : bootst := mkboot (fun _ => 85) (mkata (fun _ => 0) 3 []).

Lemma disk0_len k : length (disk0 k) = 512%nat.
Proof. unfold disk0. destruct (k =? 1); [reflexivity|]. by destruct (k =? 9). Qed.

Lemma kernel_ok0 : kernel_ok disk0.
Proof.
  assert (k_phoff disk0 = 52) as E1 by (vm_compute; reflexivity). assert (k_phnum disk0 = 1) as E2 by (vm_compute; reflexivity).
  assert (k_seg disk0 0 = mkseg 4096 0x100000 3 5) as E3 by (vm_compute; reflexivity).
  split; rewrite ?E1, ?E2; try lia; intros i Hi; try (replace i with 0%nat by lia; rewrite E3; vm_compute; intuition congruence).
Qed.


Lemma bootmain_rejects_witness : exists s', bootmain (fun _ => pad []) (fun _ => 5%nat) 10 s0 = Ret None s' /\ bmem s' 0x100000 = 85.
Proof.
  destruct (bootmain_rejects (fun _ => pad []) (fun _ => 5%nat) 10 ltac:(intros; reflexivity) ltac:(intros; cbn; lia) s0 ltac:(vm_compute; lia) ltac:(vm_compute; discriminate)) as (s' & E & Hb).
  exists s'. split; [exact E|]. rewrite Hb; [reflexivity|]. vm_compute. intuition congruence.
Defined.
End BootW.
