(* ===== verification/Startup.v ===== *)
(** Memory and processors at startup: main.c [startothers] with lapic.c
    [lapicstartap], vm.c [kvmalloc] and [switchkvm], and the steps of main.c
    [main] that hand out memory.

    The interrupt command register of the local APIC is modelled with the
    processors it is addressed to: an INIT stops a processor, and the next
    STARTUP sets it off at the page in its vector; a STARTUP that finds the
    processor running is ignored.  A processor that starts runs entryother.S,
    which takes its page directory, its stack and the function to call from the
    words below its code; [woken] records the code and what it finds there.  It
    then runs [mpmain], which sets [started]. *)

From S2P Require Import Prelude Params CString Mmu Kalloc Vm VmSpec Copyuvm Mp.

Record ap : Type := mkap { ap_id : Z; ap_start : Z; ap_code : list Z; ap_stack : Z; ap_enter : Z; ap_pgdir : Z }.
Record smp : Type := mksmp { sk : kst; shutdown : Z; icrhi : Z; stopped : list Z; woken : list ap }.
Definition set_sk (k : kst) (s : smp) : smp := mksmp k (shutdown s) (icrhi s) (stopped s) (woken s).

Definition liftp {A} (m : M kst A) : M smp A := zoom sk set_sk m.
Definition store (f : mem -> mem) : M smp unit := liftp (modify (fun k => set_pm (f (pm k)) k)).

(** The page directory that the processors start with: the first 4 MB of
    memory, at address 0 and at KERNBASE, in one page each. *)
Definition entrypgdir (i : nat) : Z :=
  if (i =? 0)%nat || (i =? Z.to_nat (Z.shiftr KERNBASE 22))%nat then Z.lor (Z.lor PTE_P PTE_W) PTE_PS else 0.

(** ** The local APIC *)

Definition INIT : Z := 0x500.
Definition STARTUP : Z := 0x600.
Definition ASSERT : Z := 0x4000.
Definition LEVEL : Z := 0x8000.

Section startothers.
(** The code of entryother.S in the kernel, and the addresses of [mpenter] and
    [entrypgdir]. *)
Context (kend entry_start entry_size mpenter entrypgdir_addr : Z).

(** What a processor started at physical address [a] finds. *)
Definition ap_at (id a : Z) (m : mem) : ap :=
  mkap id a (read_at m (KERNBASE + a) (Z.to_nat entry_size))
    (ld_long (KERNBASE + a - 4) m) (ld_long (KERNBASE + a - 8) m) (ld_long (KERNBASE + a - 12) m).

Definition icr_high (v : Z) : M smp unit := modify (fun s => mksmp (sk s) (shutdown s) (u32 v) (stopped s) (woken s)).
Definition icr_low (v : Z) : M smp unit := modify (fun s =>
  let id := Z.shiftr (icrhi s) 24 in
  if Z.land v 0x700 =? INIT then
    if testf v ASSERT then mksmp (sk s) (shutdown s) (icrhi s) (id :: stopped s) (woken s) else s
  else if Z.land v 0x700 =? STARTUP then
    if existsb (Z.eqb id) (stopped s)
    then mksmp (sk s) (shutdown s) (icrhi s) (List.filter (fun x => negb (x =? id)) (stopped s))
           (woken s ++ [ap_at id (Z.land v 255 * 4096) (pm (sk s))])
    else s
  else s).

(** lapic.c [microdelay] *)
Definition microdelay (us : Z) : M smp unit := ret tt.

(** lapic.c [lapicstartap]: the shutdown code goes to the CMOS memory. *)
Definition WRV : Z := KERNBASE + 0x467.
Definition st16 (a x : Z) (m : mem) : mem := wr (a + 1) (u8 (Z.shiftr x 8)) (wr a (u8 x) m).
Definition lapicstartap (apicid addr : Z) : M smp unit :=
  modify (fun s => mksmp (sk s) 0x0A (icrhi s) (stopped s) (woken s)) ;;
  store (st16 WRV 0) ;;
  store (st16 (WRV + 2) (Z.shiftr addr 4)) ;;
  icr_high (Z.shiftl apicid 24) ;;
  icr_low (Z.lor INIT (Z.lor LEVEL ASSERT)) ;;
  microdelay 200 ;;
  icr_low (Z.lor INIT LEVEL) ;;
  microdelay 100 ;;
  for_each (seq 0 2) (fun _ =>
    icr_high (Z.shiftl apicid 24) ;;
    icr_low (Z.lor STARTUP (Z.shiftr addr 12)) ;;
    microdelay 200).

(** ** main.c *)

Definition CODE : Z := KERNBASE + 0x7000.

(** [while(c->started == 0)]: the processor has run [mpmain], or the loop does
    not end. *)
Definition wait_started (id : Z) : M smp unit :=
  l <- gets woken ;; if existsb (fun a => ap_id a =? id) l then ret tt else fault "startothers".

Definition start_one (id : Z) : M smp unit :=
  stack <- liftp kalloc ;;
  store (wr_long (CODE - 4) (u32 (stack + KSTACKSIZE))) ;;
  store (wr_long (CODE - 8) mpenter) ;;
  store (wr_long (CODE - 12) (v2p entrypgdir_addr)) ;;
  lapicstartap id (v2p CODE) ;;
  wait_started id.

Definition startothers (mp : mpst) (cpunum : Z) : M smp unit :=
  store (Kstring.memmove CODE entry_start entry_size) ;;
  for_each (seq 0 (Z.to_nat (ncpu mp))) (fun i =>
    if Z.of_nat i =? cpunum then ret tt else start_one (cpu_id mp !!! i)).

(** ** What the processors are started with *)

Abbreviation krep := (krep kend).
Context (Hsize : 0 <= entry_size) (Hkend : CODE + entry_size <= kend).
Context (Hstart : 0 <= entry_start) (Hend : entry_start + entry_size < 2 ^ 32).
Context (Hmp : is_u32 mpenter).

Definition image : list Z -> mem -> Prop := fun l m => read_at m CODE (Z.to_nat entry_size) = l.
Definition ap_for (l : list Z) (i : nat) (q : Z) : ap :=
  mkap (Z.of_nat i) 0x7000 l (q + KSTACKSIZE) mpenter (v2p entrypgdir_addr).

Lemma kend_high : KERNBASE < kend.
Proof. unfold CODE in *. lia. Qed.

Lemma krep_low k L m : krep k L -> (forall b, kend <= b -> m b = pm k b) -> krep (set_pm m k) L.
Proof.
  intros [H1 H2 H3 H4] Hf. split; try done. eapply chain_ext; [|exact H2].
  intros q a Hq Ha. apply Hf. rewrite Forall_forall in H4. destruct (H4 q Hq) as (_ & ? & _). lia.
Qed.

Lemma read_at_ext m m' a n : (forall b, a <= b < a + Z.of_nat n -> m' b = m b) -> read_at m' a n = read_at m a n.
Proof. intros H. apply map_ext_in. intros i Hi%in_seq. apply H. lia. Qed.

Lemma image_below f l m : image l m -> (forall b, CODE <= b -> f m b = m b) -> image l (f m).
Proof. intros <- Hf. apply read_at_ext. intros b Hb. apply Hf. lia. Qed.

(** The state in which a processor is about to be sent off. *)
Definition laid_out (q : Z) (m : mem) : Prop :=
  ld_long (CODE - 4) m = q + KSTACKSIZE /\ ld_long (CODE - 8) m = mpenter /\
  ld_long (CODE - 12) m = v2p entrypgdir_addr.

Lemma st16_out a x m b : b < a \/ a + 2 <= b -> st16 a x m b = m b.
Proof. intros H. unfold st16. by rewrite !wr_ne by lia. Qed.

Lemma words_laid q m : 0 <= q -> q + KSTACKSIZE < 2 ^ 32 ->
  laid_out q (wr_long (CODE - 12) (v2p entrypgdir_addr)
    (wr_long (CODE - 8) mpenter (wr_long (CODE - 4) (u32 (q + KSTACKSIZE)) m))).
Proof.
  intros Hq Hq'. assert (forall a b x m, a + 4 <= b \/ b + 4 <= a -> ld_long b (wr_long a x m) = ld_long b m) as Hap.
  { intros a b x m' Hab. apply ld_long_ext. intros c Hc. apply wr_long_out. lia. }
  assert (is_u32 (q + KSTACKSIZE)) by (unfold is_u32, KSTACKSIZE in *; lia).
  assert (is_u32 (v2p entrypgdir_addr)) by apply u32_range.
  split_and!; rewrite ?Hap by lia; rewrite ld_wr_long_same; by rewrite !u32_small by (try rewrite u32_small; done).
Qed.

Lemma laid_above q f m : laid_out q m -> (forall b, CODE - 12 <= b -> f m b = m b) -> laid_out q (f m).
Proof.
  intros (E1 & E2 & E3) Hf.
  split_and!; [rewrite <- E1|rewrite <- E2|rewrite <- E3]; apply ld_long_ext; intros b Hb; apply Hf; lia.
Qed.

Lemma vectors_low x y m b : CODE - 12 <= b -> st16 (WRV + 2) x (st16 WRV y m) b = m b.
Proof. unfold CODE, WRV. intros H. by rewrite !st16_out by lia. Qed.

(** The commands, with the processor's number in the high word. *)
Definition addressed (i : nat) (s : smp) : Prop := Z.shiftr (icrhi s) 24 = Z.of_nat i.

Lemma icr_high_to i s (Q : unit -> smp -> Prop) : (i < 256)%nat ->
  (forall h, Z.shiftr h 24 = Z.of_nat i -> Q tt (mksmp (sk s) (shutdown s) h (stopped s) (woken s))) ->
  wp (icr_high (Z.shiftl (Z.of_nat i) 24)) s Q.
Proof.
  intros Hi HQ. apply wp_modify, HQ. rewrite Z.shiftl_mul_pow2, u32_small, Z.shiftr_div_pow2 by lia. by rewrite Z.div_mul.
Qed.

Lemma icr_init i s (Q : unit -> smp -> Prop) : addressed i s ->
  Q tt (mksmp (sk s) (shutdown s) (icrhi s) (Z.of_nat i :: stopped s) (woken s)) ->
  wp (icr_low (Z.lor INIT (Z.lor LEVEL ASSERT))) s Q.
Proof. intros E HQ. apply wp_modify. rewrite E. exact HQ. Qed.

Lemma icr_deassert s (Q : unit -> smp -> Prop) : Q tt s -> wp (icr_low (Z.lor INIT LEVEL)) s Q.
Proof. intros HQ. exact HQ. Qed.

Lemma icr_startup i s (Q : unit -> smp -> Prop) : addressed i s ->
  (if existsb (Z.eqb (Z.of_nat i)) (stopped s)
   then Q tt (mksmp (sk s) (shutdown s) (icrhi s) (List.filter (fun x => negb (x =? Z.of_nat i)) (stopped s))
     (woken s ++ [ap_at (Z.of_nat i) 0x7000 (pm (sk s))]))
   else Q tt s) ->
  wp (icr_low (Z.lor STARTUP (Z.shiftr (v2p CODE) 12))) s Q.
Proof.
  intros E HQ. apply wp_modify. rewrite E.
  change (Z.land (Z.lor STARTUP (Z.shiftr (v2p CODE) 12)) 1792 =? INIT) with false.
  change (Z.land (Z.lor STARTUP (Z.shiftr (v2p CODE) 12)) 1792 =? STARTUP) with true.
  change (Z.land (Z.lor STARTUP (Z.shiftr (v2p CODE) 12)) 255 * 4096) with 0x7000.
  cbv beta iota zeta. by destruct (existsb _ _).
Qed.

Lemma not_in_filtered x l : existsb (Z.eqb x) (List.filter (fun y => negb (y =? x)) l) = false.
Proof.
  induction l as [|y l IH]; [done|]. cbn. destruct (y =? x) eqn:E; cbn; [done|].
  rewrite Z.eqb_sym, E. done.
Qed.

(** The INIT stops the processor, the first STARTUP sets it off and the second
    finds it running. *)
Lemma lapicstartap_ok s i q l : (i < 256)%nat -> laid_out q (pm (sk s)) -> image l (pm (sk s)) ->
  wp (lapicstartap (Z.of_nat i) (v2p CODE)) s (fun _ s' =>
    sk s' = set_pm (st16 (WRV + 2) 0x700 (st16 WRV 0 (pm (sk s)))) (sk s) /\ woken s' = woken s ++ [ap_for l i q]).
Proof.
  intros Hi Hq Hl.
  assert (ap_at (Z.of_nat i) 0x7000 (st16 (WRV + 2) 0x700 (st16 WRV 0 (pm (sk s)))) = ap_for l i q) as Ea.
  { destruct (laid_above q (fun m => st16 (WRV + 2) 0x700 (st16 WRV 0 m)) _ Hq (vectors_low _ _ _)) as (E1 & E2 & E3).
    assert (image l (st16 (WRV + 2) 0x700 (st16 WRV 0 (pm (sk s))))) as E0
      by (apply (image_below (fun m => st16 (WRV + 2) 0x700 (st16 WRV 0 m)) l _ Hl); intros b Hb; apply vectors_low; lia).
    unfold ap_at, ap_for. rewrite <- E0, <- E1, <- E2, <- E3. done. }
  unfold lapicstartap, store, liftp. apply wp_bind, wp_modify.
  do 2 (apply wp_bind, wp_zoom, wp_modify).
  cbn [sk set_sk shutdown icrhi stopped woken set_pm pm].
  apply wp_bind, (icr_high_to i); [done|]. intros h1 E1. apply wp_bind, (icr_init i); [done|]. apply wp_bind, wp_ret.
  apply wp_bind, icr_deassert, wp_bind, wp_ret. cbn [for_each seq].
  apply wp_bind, wp_bind, (icr_high_to i); [done|]. intros h2 E2.
  apply wp_bind, (icr_startup i); [done|]. cbn [stopped existsb]. rewrite Z.eqb_refl. cbn [orb sk pm]. apply wp_ret.
  apply wp_bind, wp_bind, (icr_high_to i); [done|]. intros h3 E3.
  apply wp_bind, (icr_startup i); [done|]. cbn [stopped]. rewrite not_in_filtered. apply wp_ret, wp_ret.
  cbn. split; [done|]. by rewrite <- Ea.
Qed.

(** Nothing above the kernel is stored to, and the lock is not switched on. *)
Definition kept_high (s s' : smp) : Prop :=
  use_lock (sk s') = use_lock (sk s) /\ forall b, kend <= b -> pm (sk s') b = pm (sk s) b.

(** One processor: it gets the first free page for its stack. *)
Lemma start_one_ok s i q L l : krep (sk s) (q :: L) -> image l (pm (sk s)) -> (i < 256)%nat ->
  wp (start_one (Z.of_nat i)) s (fun _ s' =>
    krep (sk s') L /\ image l (pm (sk s')) /\ woken s' = woken s ++ [ap_for l i q] /\ kept_high s s').
Proof.
  intros Hk Hl Hi. assert (page_ok kend q) as Hq by (destruct Hk as [_ _ _ Ho]; by inversion Ho).
  destruct (page_ok_u32 kend kend_high q Hq) as [Hu _]. destruct Hq as (_ & _ & Hq).
  unfold start_one, store, liftp. apply wp_bind, wp_zoom.
  eapply wp_conseq; [exact (kalloc_spec kend kend_high (sk s) (q :: L) Hk)|]. intros p k1 (Em & Eu & -> & Hk1).
  do 3 (apply wp_bind, wp_zoom, wp_modify). cbn [sk set_sk set_pm pm]. rewrite Em.
  set (m2 := wr_long (CODE - 12) _ _).
  assert (forall b, CODE <= b -> m2 b = pm (sk s) b) as Hm2 by (intros b Hb; unfold m2; by rewrite !wr_long_out by lia).
  eapply wp_seq; [apply (lapicstartap_ok _ i q l Hi)|].
  { apply words_laid; [apply Hu|]. unfold KSTACKSIZE, KERNBASE, PHYSTOP, PGSIZE in *. lia. }
  { exact (image_below (fun _ => m2) l _ Hl Hm2). }
  cbn [sk set_sk set_pm pm woken]. intros [] s2 [E1 E2]. apply wp_bind, wp_gets.
  rewrite E2, existsb_app. cbn [existsb ap_id ap_for]. rewrite Z.eqb_refl, orb_true_r. apply wp_ret. rewrite E1.
  assert (forall b, CODE <= b -> st16 (WRV + 2) 0x700 (st16 WRV 0 m2) b = pm (sk s) b) as Hm3
    by (intros b Hb; rewrite vectors_low by lia; auto).
  split_and!; [|exact (image_below (fun _ => st16 (WRV + 2) 0x700 (st16 WRV 0 m2)) l _ Hl Hm3)|exact E2|].
  2: { split; [rewrite E1; exact Eu|]. intros b Hb. rewrite E1. apply Hm3. lia. }
  apply (krep_low k1 L _ Hk1). intros b Hb. rewrite Em. apply Hm3. lia.
Qed.

(** The processors other than the one that is running. *)
Definition others (n : nat) (me : Z) : list nat := List.filter (fun i => negb (Z.of_nat i =? me)) (seq 0 n).

Lemma start_all (mp : mpst) me l ns : forall s L, Forall (fun i => (i < 256)%nat /\ cpu_id mp !! i = Some (Z.of_nat i)) ns ->
  let os := List.filter (fun i => negb (Z.of_nat i =? me)) ns in
  (length os <= length L)%nat -> krep (sk s) L -> image l (pm (sk s)) ->
  wp (for_each ns (fun i => if Z.of_nat i =? me then ret tt else start_one (cpu_id mp !!! i))) s (fun _ s' =>
    krep (sk s') (drop (length os) L) /\ woken s' = woken s ++ zip_with (ap_for l) os L /\ kept_high s s').
Proof.
  induction ns as [|i ns IH]; intros s L Hns; cbn [for_each List.filter].
  { intros _ Hk _. apply wp_ret. cbn. by rewrite app_nil_r. }
  inversion Hns as [|? ? [Hi Hid] Hns']; subst. destruct (Z.of_nat i =? me); cbn [negb].
  { intros Hn Hk Hl. apply wp_bind, wp_ret. by apply IH. }
  destruct L as [|q L]; cbn [length]; [lia|]. intros Hn Hk Hl.
  rewrite (list_lookup_total_correct _ _ _ Hid). eapply wp_seq; [exact (start_one_ok s i q L l Hk Hl Hi)|].
  intros [] s1 (Hk1 & Hl1 & E1 & U1 & F1). eapply wp_conseq; [apply (IH s1 L); [done|cbn; lia|done|done]|].
  intros [] s2 (Hk2 & E2 & U2 & F2). cbn [drop length zip_with]. split; [exact Hk2|]. split.
  { rewrite E2, E1, <- app_assoc. reflexivity. }
  split; [congruence|]. intros b Hb. rewrite F2 by done. by apply F1.
Qed.

Lemma ap_ids l os : forall L, (length os <= length L)%nat -> ap_id <$> zip_with (ap_for l) os L = Z.of_nat <$> os.
Proof. induction os as [|i os IH]; intros [|q L]; cbn; try done; [lia|]. intros H. f_equal. apply IH. lia. Qed.

Lemma ap_stacks l os : forall L, ap_stack <$> zip_with (ap_for l) os L = (fun q => q + KSTACKSIZE) <$> take (length os) L.
Proof. induction os as [|i os IH]; intros [|q L]; cbn; try done. f_equal. apply IH. Qed.

Lemma aps_apart l n me L : (length (others n me) <= length L)%nat -> NoDup L ->
  let A := zip_with (ap_for l) (others n me) L in NoDup (ap_id <$> A) /\ NoDup (ap_stack <$> A).
Proof.
  intros Hn HL. cbn. rewrite ap_ids, ap_stacks by done. split.
  - apply NoDup_fmap_2; [intros a b E; lia|]. apply NoDup_ListNoDup, List.NoDup_filter, seq_NoDup.
  - apply NoDup_fmap_2; [intros a b E; lia|]. rewrite <- (take_drop (length (others n me)) L) in HL. by apply NoDup_app in HL as [? _].
Qed.

Lemma startothers_ok (mp : mpst) me s L : (forall i, (i < Z.to_nat (ncpu mp))%nat -> cpu_id mp !! i = Some (Z.of_nat i)) ->
  ncpu mp <= Z.of_nat NCPU -> krep (sk s) L -> let os := others (Z.to_nat (ncpu mp)) me in (length os <= length L)%nat ->
  wp (startothers mp me) s (fun _ s' => krep (sk s') (drop (length os) L) /\
    woken s' = woken s ++ zip_with (ap_for (read_at (pm (sk s)) entry_start (Z.to_nat entry_size))) os L /\ kept_high s s').
Proof.
  intros Hid Hn Hk os Hos. unfold startothers, store, liftp. apply wp_bind, wp_zoom, wp_modify.
  set (l := read_at _ _ _). set (m1 := Kstring.memmove CODE entry_start entry_size (pm (sk s))).
  assert (forall b, m1 b = if decide (CODE <= b < CODE + entry_size) then pm (sk s) (b - CODE + entry_start) else pm (sk s) b) as Hm1
    by (intros b; by apply memmove_spec).
  assert (forall b, kend <= b -> m1 b = pm (sk s) b) as Hhigh by (intros b Hb; rewrite Hm1; by rewrite decide_False by lia).
  eapply wp_conseq; [apply (start_all mp me l (seq 0 (Z.to_nat (ncpu mp))) _ L)|].
  - rewrite Forall_forall. intros i Hi%elem_of_seq. split; [unfold NCPU in Hn; lia|]. apply Hid. lia.
  - exact Hos.
  - cbn [sk set_sk]. exact (krep_low (sk s) L m1 Hk Hhigh).
  - cbn [sk set_sk set_pm pm]. apply map_ext_in. intros i Hi%in_seq. rewrite Hm1, decide_True by lia. f_equal. lia.
  - cbn [woken set_sk]. intros [] s' (Hk' & E' & U' & F'). split; [exact Hk'|]. split; [exact E'|].
    split; [exact U'|]. intros b Hb. rewrite F' by done. by apply Hhigh.
Qed.

(** The other processors are started.  With the processors numbered as
    [mpinit] numbers them, and a free page for each but the one that is
    running, [startothers] returns; every other processor has been set off
    exactly once, in order, at 0x7000 in the code of entryother.S, with the end
    of a page of its own for its stack, [mpenter] to call and the physical
    address of [entrypgdir]; those pages, and no others, have left the free list. *)
Theorem startothers_starts (mp : mpst) me s L : (forall i, (i < Z.to_nat (ncpu mp))%nat -> cpu_id mp !! i = Some (Z.of_nat i)) ->
  ncpu mp <= Z.of_nat NCPU -> krep (sk s) L -> woken s = [] ->
  let os := others (Z.to_nat (ncpu mp)) me in (length os <= length L)%nat ->
  wp (startothers mp me) s (fun _ s' =>
    woken s' = zip_with (ap_for (read_at (pm (sk s)) entry_start (Z.to_nat entry_size))) os L /\
    NoDup (ap_id <$> woken s') /\ NoDup (ap_stack <$> woken s') /\ krep (sk s') (drop (length os) L)).
Proof.
  intros Hid Hn Hk Hw os Hos. eapply wp_conseq; [exact (startothers_ok mp me s L Hid Hn Hk Hos)|].
  rewrite Hw. intros [] s' (Hk' & -> & _). rewrite app_nil_l. split; [reflexivity|].
  destruct (aps_apart (read_at (pm (sk s)) entry_start (Z.to_nat entry_size)) _ me L Hos (kr_nodup _ _ _ Hk)) as [N1 N2].
  split_and!; [exact N1|exact N2|exact Hk'].
Qed.
End startothers.

(** ** main.c *)

(** The variable [kpgdir] of vm.c and the register that holds the directory in
    use. *)
Record mainst : Type := mkmain { m_smp : smp; kpgdir : Z; cr3 : Z }.
Definition set_smp (x : smp) (s : mainst) : mainst := mkmain x (kpgdir s) (cr3 s).

Section main.
Context (kend kdata entry_start entry_size mpenter entrypgdir_addr : Z).

Definition with_smp {A} (m : M smp A) : M mainst A := zoom m_smp set_smp m.

(** vm.c [switchkvm], [kvmalloc] *)
Definition switchkvm : M mainst unit := modify (fun s => mkmain (m_smp s) (kpgdir s) (v2p (kpgdir s))).
Definition kvmalloc : M mainst unit :=
  d <- with_smp (liftp (setupkvm kdata)) ;;
  modify (fun s => mkmain (m_smp s) d (cr3 s)) ;;
  switchkvm.

(** The steps of [main] that use the page allocator; [mp] is what [mpinit]
    found. *)
Definition LOW : Z := KERNBASE + 4 * 1024 * 1024.
Definition main_low : M mainst unit :=
  with_smp (liftp (kinit1 kend kend LOW)) ;;
  kvmalloc.
Definition main_memory (mp : mpst) (cpunum : Z) : M mainst unit :=
  main_low ;;
  with_smp (startothers entry_start entry_size mpenter entrypgdir_addr mp cpunum) ;;
  with_smp (liftp (kinit2 kend LOW (p2v PHYSTOP))).

Context (Hsize : 0 <= entry_size) (Hcode : CODE + entry_size <= kend) (Hstart : 0 <= entry_start).
Context (Himage : entry_start + entry_size <= kend) (Hmp : is_u32 mpenter).
Context (Hd1 : KERNLINK < kdata) (Hd2 : kdata mod 4096 = 0) (Hd3 : kdata < KERNBASE + PHYSTOP).

(** Room below 4 MB for the kernel's tables and for a stack of every processor. *)
Context (Hroom : kend + 4096 * Z.of_nat (1 + KVMPAGES + NCPU) <= LOW).

Lemma kend_over : KERNBASE < kend.
Proof. unfold CODE in *. lia. Qed.

Lemma enough L : NoDup L -> (forall v, in_range kend LOW v -> v ∈ L) -> (KVMPAGES + NCPU <= length L)%nat.
Proof.
  intros Hn HL. pose proof kend_over. destruct (PGROUNDUP_up kend) as (H1 & H2 & H3); [unfold KERNBASE in *; lia|unfold LOW, KERNBASE in *; lia|].
  assert (PGROUNDUP kend < kend + 4096).
  { rewrite PGROUNDUP_val, u32_small by (unfold LOW, KERNBASE in *; lia). pose proof (Z.mod_pos_bound (kend + 4095) 4096 ltac:(lia)). lia. }
  set (ps := (fun i => PGROUNDUP kend + 4096 * Z.of_nat i) <$> seq 0 (KVMPAGES + NCPU)).
  assert (length ps = KVMPAGES + NCPU)%nat as <- by (unfold ps; by rewrite length_fmap, length_seq).
  apply submseteq_length, NoDup_submseteq.
  - apply NoDup_fmap_2; [intros i j E; lia|apply NoDup_seq].
  - intros v (i & -> & Hi%elem_of_seq)%list_elem_of_fmap. apply HL. unfold in_range. change PGSIZE with 4096.
    split_and!; [|lia|lia]. by rewrite Z.mul_comm, Z.mod_add.
Qed.

(** [kinit1] makes all of the memory between the kernel and 4 MB free. *)
Lemma kinit1_ok k : freelist k = 0 ->
  wp (kinit1 kend kend LOW) k (fun _ k' => use_lock k' = false /\ (forall a, a < kend -> pm k' a = pm k a) /\
    exists L, krep kend k' L /\ (forall v, v ∈ L <-> in_range kend LOW v)).
Proof.
  intros H0. unfold kinit1. apply wp_bind, wp_modify, wp_bind, wp_modify.
  eapply wp_conseq; [apply (freerange_spec kend kend_over _ [] kend LOW)|].
  - split; [done|exact H0|constructor|constructor].
  - done.
  - lia.
  - vm_compute. discriminate.
  - intros q Hq. set_solver.
  - intros [] k' (Hu & Hf & L & Hk & HL). split_and!; [exact Hu|intros a Ha; apply Hf; lia|].
    exists L. split; [done|]. intros v. rewrite HL. set_solver.
Qed.

Lemma pd_ok_grow m d L L' : pd_ok kend m d L -> (forall a, in_tree m d a -> a < LOW) ->
  (forall q, q ∈ L' -> q ∈ L \/ LOW <= q) -> pd_ok kend m d L'.
Proof.
  intros [Hd Hu Ht Hi] Hlow HL. split; [done| | |done].
  - intros [?|?]%HL; [done|]. specialize (Hlow d ltac:(left; unfold in_page, PGSIZE; lia)). lia.
  - intros i Hr Hp. destruct (Ht i Hr Hp) as (H1 & H2 & H3). split_and!; [done| |done]. intros [?|?]%HL; [done|].
    specialize (Hlow (tab m d i)). unfold in_tree in Hlow.
    assert (tab m d i < LOW); [|lia]. apply Hlow. right. exists i. split; [done|]. split; [done|]. unfold in_page, PGSIZE. lia.
Qed.

Lemma tree_apart m d L q a : pd_ok kend m d L -> q ∈ L -> page_ok kend q -> in_page q a -> ~ in_tree m d a.
Proof.
  intros [Hd Hu Ht Hi] Hq Hok Ha [Hin|(i & Hr & Hp & Hin)].
  - apply (pages_apart q d a); try done; [apply Hok|apply Hd|by intros ->].
  - destruct (Ht i Hr Hp) as (H1 & H2 & H3). apply (pages_apart q (tab m d i) a); try done; [apply Hok|apply H1|congruence].
Qed.

(** The memory after startup: the state of the allocator and of the kernel's
    directory [d], and the pages that are the processors' stacks. *)
Record memory_ready (k : kst) (d : Z) (stacks : list Z) : Prop := {
  mr_lock : use_lock k = true;
  mr_map : forall va, is_u32 va -> pteval (pm k) d va = kpte kdata va;
  mr_free : exists L, vrep kend k L d /\ (forall v, in_range LOW (p2v PHYSTOP) v -> v ∈ L) /\ (forall q, q ∈ stacks -> q ∉ L);
  mr_stacks : forall q, q ∈ stacks -> in_range kend LOW q /\ forall a, in_page q a -> ~ in_tree (pm k) d a }.

(** [kinit2], with the directory and the stacks made before. *)
Lemma kinit2_ready k d L1 n : vrep kend k L1 d -> (forall v, v ∈ L1 -> in_range kend LOW v) ->
  (forall a, in_tree (pm k) d a -> a < LOW) -> (forall va, is_u32 va -> pteval (pm k) d va = kpte kdata va) ->
  forall k1, krep kend k1 (drop n L1) -> (forall b, kend <= b -> pm k1 b = pm k b) ->
  wp (kinit2 kend LOW (p2v PHYSTOP)) k1 (fun _ k' => memory_ready k' d (take n L1)).
Proof.
  intros [Hk Hpd] HL1 Hlow Hmap k1 Hk1 Hf1. pose proof kend_over as Hover. unfold kinit2.
  assert (forall q, q ∈ take n L1 \/ q ∈ drop n L1 -> q ∈ L1) as Hsub.
  { intros q Hq. rewrite <- (take_drop n L1). by apply elem_of_app. }
  eapply wp_seq; [apply (freerange_spec kend kend_over k1 (drop n L1) LOW (p2v PHYSTOP) Hk1)|].
  { unfold LOW in *. lia. }
  { by vm_compute. }
  { by vm_compute. }
  { intros q Hq. destruct (HL1 q ltac:(auto)) as (_ & _ & ?). done. }
  intros [] k2 (_ & Hf2 & L2 & Hk2 & HL2). apply wp_modify.
  assert (forall a, in_tree (pm k) d a -> kend <= a) as Hhigh.
  { intros a [Ha|(i & Hr & Hp & Ha)]; [destruct (pd_dir _ _ _ _ Hpd)|destruct (pd_tab _ _ _ _ Hpd i Hr Hp) as [[] _]];
      unfold in_page in Ha; lia. }
  assert (forall a, in_tree (pm k) d a -> pm k2 a = pm k a) as Hsame.
  { intros a Ha. rewrite Hf2; [by apply Hf1, Hhigh|]. specialize (Hlow a Ha). lia. }
  assert (pd_ok kend (pm k2) d (take n L1 ++ L2)) as Hpd2.
  { apply (pd_ok_ext kend Hover (pm k) (pm k2) d (take n L1 ++ L2)); [|done|].
    - intros a Ha. apply Hsame. by left.
    - apply (pd_ok_grow (pm k) d L1); [done|done|]. intros q [Hq|[Hq|Hq]%HL2]%elem_of_app; [auto|auto|right; apply Hq]. }
  split; [done| | |]; cbn [pm set_use_lock].
  - intros va Hva. rewrite (pteval_ext (pm k)) by done. by apply Hmap.
  - exists L2. split_and!.
    + split; [destruct Hk2; by split|]. apply (pd_ok_ext kend Hover (pm k2) (pm k2) d (take n L1 ++ L2)); [done| |done].
      intros q Hq. apply elem_of_app. by right.
    + intros v Hv. apply HL2. by right.
    + intros q Hq [Hq'|Hq']%HL2.
      * pose proof (kr_nodup _ _ _ Hk) as Hn. rewrite <- (take_drop n L1) in Hn. apply NoDup_app in Hn as (_ & Hn & _). by apply (Hn q).
      * destruct (HL1 q ltac:(auto)) as (_ & _ & ?), Hq' as (_ & ? & _). unfold PGSIZE in *. lia.
  - intros q Hq. assert (q ∈ L1) as Hq1 by auto. split; [by apply HL1|]. intros a Ha. apply (tree_apart _ _ _ q a Hpd2); [|apply (page_ok_range kend LOW); [by vm_compute|by apply HL1]|done].
    apply elem_of_app. by left.
Qed.

(** C29: startup leaves the kernel with its memory.  From an empty free list, on
    a machine whose processors [mpinit] has numbered, [kinit1], [kvmalloc],
    [startothers] and [kinit2] return in turn; then the directory in use
    translates every address as the kernel map says, it is made of pages that
    are not free, all the memory from 4 MB up is free, and every other processor
    has been set off once, in the code of entryother.S, with a stack of its own
    that is neither free nor part of the directory. *)
Theorem main_memory_ready (mp : mpst) me s : freelist (sk (m_smp s)) = 0 -> woken (m_smp s) = [] ->
  (forall i, (i < Z.to_nat (ncpu mp))%nat -> cpu_id mp !! i = Some (Z.of_nat i)) -> ncpu mp <= Z.of_nat NCPU ->
  wp (main_memory mp me) s (fun _ s' => exists stacks,
    cr3 s' = v2p (kpgdir s') /\ memory_ready (sk (m_smp s')) (kpgdir s') stacks /\ NoDup stacks /\
    let os := others (Z.to_nat (ncpu mp)) me in length stacks = length os /\
    woken (m_smp s') = zip_with (ap_for mpenter entrypgdir_addr
      (read_at (pm (sk (m_smp s))) entry_start (Z.to_nat entry_size))) os stacks).
Proof.
  intros H0 Hw Hid Hn. pose proof kend_over as Hover. unfold main_memory, main_low, with_smp, liftp.
  apply wp_bind, wp_bind, wp_zoom, wp_zoom. eapply wp_conseq; [exact (kinit1_ok _ H0)|].
  intros [] k1 (_ & Hf1 & L0 & Hk1 & HL0). unfold kvmalloc, with_smp, liftp. apply wp_bind, wp_zoom, wp_zoom.
  pose proof (enough L0 (kr_nodup _ _ _ Hk1) (fun v => proj2 (HL0 v))) as Hlen.
  eapply wp_conseq; [apply (setupkvm_spec kend kdata Hover Hd1 Hd2 Hd3 k1 L0 Hk1); lia|].
  intros d k2 (L1 & _ & _ & V2 & N1 & (j & ->) & Ht2 & Hf2 & Hmap).
  apply wp_bind, wp_modify, wp_modify. apply wp_bind, wp_zoom. cbn [m_smp set_smp kpgdir cr3 sk set_sk].
  set (os := others (Z.to_nat (ncpu mp)) me).
  assert (length os <= NCPU)%nat as Hos.
  { unfold os, others. etransitivity; [apply List.filter_length_le|]. rewrite length_seq. lia. }
  eapply wp_conseq; [apply (startothers_ok kend entry_start entry_size mpenter entrypgdir_addr) with (L := drop j L0); try done|].
  { unfold LOW, KERNBASE in *. lia. }
  { apply (vr_k _ _ _ _ V2). }
  { fold os. lia. }
  cbn [sk set_sk woken]. fold os. rewrite Hw. intros [] s3 (Hk3 & E3 & _ & Hf3). apply wp_zoom, wp_zoom.
  assert (forall v, v ∈ drop j L0 -> in_range kend LOW v) as HL1.
  { intros v Hv. apply HL0. rewrite <- (take_drop j L0). apply elem_of_app. by right. }
  eapply wp_conseq; [apply (kinit2_ready k2 d (drop j L0) (length os) V2 HL1) with (k1 := sk s3); try done|].
  { intros a (w & (_ & _ & Hw')%HL0 & Ha)%Ht2. unfold in_page in Ha. lia. }
  cbn [m_smp set_smp kpgdir cr3 sk set_sk woken]. intros [] k4 Hr. exists (take (length os) (drop j L0)).
  split; [reflexivity|]. split; [exact Hr|]. split; [|split].
  - pose proof (kr_nodup _ _ _ (vr_k _ _ _ _ V2)) as Hnd. rewrite <- (take_drop (length os) (drop j L0)) in Hnd. by apply NoDup_app in Hnd as [? _].
  - rewrite length_take. lia.
  - rewrite E3, app_nil_l, zip_with_take_r' by lia. f_equal. f_equal. apply read_at_ext. intros b Hb.
    rewrite Hf2; [apply Hf1; lia|]. intros (w & (_ & Hw' & _)%HL0 & Ha). unfold in_page in Ha. lia.
Qed.
End main.

(** Three processors, of which the first is running. *)
Module StartW.

Definition p1 : Z := KERNBASE + 0x200000.
Definition p2 : Z := p1 + 0x1000.
Definition image_at : Z := KERNBASE + 0x10b000.
Definition m0 : mem := wr_long p1 p2 (wr image_at 0xfa (fun _ => 0)).
Definition s0 : smp := mksmp (mkk false false p1 m0) 0 0 [] [].
Definition mp3 : mpst := mkmp (imap (fun i _ => Z.of_nat i) (replicate NCPU 0)) 0 true 3 0 0 true.

Lemma krep_two : krep (KERNBASE + 0x10f000) (sk s0) [p1; p2].
Proof.
  split; [done| | |].
  - split; [done|]. split; [by vm_compute|]. by vm_compute.
  - by apply (bool_decide_unpack _); vm_compute.
  - repeat constructor; vm_compute; done.
Qed.

Definition the_aps : list ap :=
  [mkap 1 0x7000 (0xfa :: replicate 7 0) (p1 + 4096) (KERNBASE + 0x103000) 0x10a000;
   mkap 2 0x7000 (0xfa :: replicate 7 0) (p2 + 4096) (KERNBASE + 0x103000) 0x10a000].

Lemma startothers_starts_witness :
  wp (startothers image_at 8 (KERNBASE + 0x103000) (KERNBASE + 0x10a000) mp3 0) s0 (fun _ s' => woken s' = the_aps).
Proof.
  eapply wp_conseq; [apply (startothers_starts (KERNBASE + 0x10f000) image_at 8 (KERNBASE + 0x103000) (KERNBASE + 0x10a000))
    with (L := [p1; p2])|].
  - done.
  - by vm_compute.
  - by vm_compute.
  - by vm_compute.
  - by vm_compute.
  - intros i Hi. assert (i < 3)%nat as Hi' by exact Hi. do 3 (destruct i as [|i]; [reflexivity|]). lia.
  - by vm_compute.
  - exact krep_two.
  - reflexivity.
  - apply Nat.leb_le. reflexivity.
  - intros [] s' (E & _). rewrite E. reflexivity.
Defined.

Definition kend0 : Z := KERNBASE + 0x10f000.
Definition kdata0 : Z := KERNBASE + 0x108000.
Definition boot0 : mainst := mkmain (mksmp (mkk false false 0 m0) 0 0 [] []) 0 0.

Lemma main_memory_ready_witness :
  wp (main_memory kend0 kdata0 image_at 8 (KERNBASE + 0x103000) (KERNBASE + 0x10a000) mp3 0) boot0 (fun _ s' =>
    cr3 s' = v2p (kpgdir s') /\ exists stacks, memory_ready kend0 kdata0 (sk (m_smp s')) (kpgdir s') stacks /\
    ap_id <$> woken (m_smp s') = [1; 2]).
Proof.
  eapply wp_conseq; [apply (main_memory_ready kend0 kdata0 image_at 8 (KERNBASE + 0x103000) (KERNBASE + 0x10a000))|].
  1-9: by vm_compute.
  - reflexivity.
  - reflexivity.
  - intros i Hi. assert (i < 3)%nat as Hi' by exact Hi. do 3 (destruct i as [|i]; [reflexivity|]). lia.
  - by vm_compute.
  - intros [] s' (stacks & E & Hr & _ & Hl & Hw). split; [exact E|]. exists stacks. split; [exact Hr|].
    rewrite Hw, ap_ids by (rewrite Hl; done). reflexivity.
Defined.

End StartW.
